(* ===== verification/_CoqProject ===== *)
-Q . S2P
Prelude.v
Utf8.v
Resolve.v
CLib.v
Types.v
Listing.v
FsIface.v
FsRooted.v
FsMem.v
FsMemTree.v
FsMemEnd.v
FsPosix.v
FsPs3.v
Sys.v
Tls.v
Streams.v
Dispatch.v
Avl.v
PrefixTree.v
LegacyUtil.v
ThreadPool.v
Pollset.v
Queue.v
World.v
Ui.v
Canvas.v
Json.v
Client.v
Logic.v
Datachan.v
Commands.v
LegacyCommand.v
Legacy.v
LegacyIo.v
LegacyBase.v
LegacySafe.v
LegacySession.v
Transfer.v
Server.v
Tui.v
TuiCost.v
TuiSafe.v
TuiKeys.v
Osd.v
OsdRun.v
OsdSafe.v
OsdKeys.v
Lifecycle.v
LegacyServer.v
Httpd.v
HttpdServe.v
Scenario.v
TransferEnd.v
TransferData.v
Replies.v
Safety.v
Login.v
Bounce.v
Refs.v
System.v
Threads.v
Apps.v
