(* ===== verification/Prelude.v ===== *)
(** * OpenPS3FTP: a verification development

    OpenPS3FTP is an FTP server for the PlayStation 3 and for hosts. This
    library models its C code as definitions that compute, close to the source
    line by line, and proves what the code promises.

    ** The program and its parts

    A reactor thread (src/server.c) owns the control connections: it polls
    them (src/pollset.c), cuts their bytes into lines (src/client.c), looks the
    command up (src/dispatch.c) and runs its handler (src/commands.c). Paths
    are resolved against the working directory (src/resolve.c, src/utf8.c) and
    reach the disk through a wrapper that keeps them below the served root
    (src/fs_rooted.c), on top of one of three backends (src/fs_mem.c,
    src/fs_posix.c, src/fs_ps3.c). A transfer is a job: the reactor queues it
    (src/datachan.c), a worker thread connects the data connection and moves
    the bytes (src/transfer.c, src/listing.c, src/tls.c), posts a completion
    and wakes the reactor, which sends the final reply. Clients are reference
    counted because jobs and queued replies outlive a connection. A second
    command set for old applications (feat/base) runs on the same server
    behind a facade (legacy/src). A status model (app/ui.c) compares successive
    snapshots of the server for the screens: a web console with an HTTP server
    of its own (plugin/httpd.c), a terminal screen (app/tui.c) and the
    on-screen display of the console (app/osd.cpp). Threads and mutexes come
    from src/thread.c; plugin/main.c, app/main.c and app/tui_main.c put the
    parts together.

    ** Files

    Shared: Prelude (bytes, machine integers, records, tactics), CLib (the C
    library functions used, the calendar), Types and World (the structs of
    src/opftp.h; [opftp_server], and [hstate], what a handler works on), Sys
    (system calls and mbedtls, as the parameter [SysOps]), FsIface (the vtable
    [struct opftp_fs] as the class [FsOps], and the state monad), Streams (what
    transfers rely on: [FsFiles] and the laws of a socket), Logic (a small
    program logic for reactor code).

    Core server: Utf8, Resolve, Listing, FsRooted, FsMem with FsMemTree and
    FsMemEnd, FsPosix, FsPs3, Tls (sessions and the context), Dispatch,
    Pollset, Queue, Client, Datachan, Commands, Transfer, Server, Lifecycle
    (creation, start, stop and destruction of a server, the workers); each names its source file in its first line
    and its definitions carry the names of the C functions. Helpers split out
    of a long function say which lines they are. Scenario is a concrete server
    on which statements about sessions are instantiated.

    Theorems about the composed server: Safety, Login, Replies, Bounce, Refs,
    System, TransferEnd, TransferData.

    Legacy server: Avl, PrefixTree and LegacyUtil (legacy/src/avlutils.c,
    pftutils.c, ftputil.c), LegacyCommand (ftpcommand.c), Legacy (ftpclient.c
    and the parts of ftpserver.c a session uses), LegacyIo (ftpio_linux.c and,
    for the console, ftpio.c), LegacyBase (feat/base/base.c), ThreadPool
    (thread.c), LegacyServer (the life of a server in ftpserver.c and the tables
    that tie it to the new one); theorems in LegacySafe and LegacySession.

    Status and web console: Ui (app/ui.c), Json (a JSON printer and reader),
    Httpd and HttpdServe (plugin/httpd.c). Terminal screen (app/tui.c): Canvas
    (the drawing functions and the text of a frame) and Tui (the views, the
    keys and the loop); theorems in TuiCost, TuiSafe and TuiKeys. On-screen display
    (app/osd.cpp): Osd (what is drawn, as lists of shapes) and OsdRun (the pad,
    the system keyboard, the flash mount and the loop); theorems in OsdSafe and
    OsdKeys.

    Around the server: Threads (src/thread.c, legacy/src/sys.thread.c: handles,
    start arguments and deadlines on the host and on the console), Apps
    (plugin/main.c, app/main.c, app/tui_main.c, app/log.c as sequences of
    calls).

    ** How the code corresponds to the model

    - C strings and buffers are lists of bytes ([bytes]); a write that is cut
      to a buffer is [bprintf n], one that is not checked in the source is
      modelled with the overflow as a value ([None], or a fault).
    - Fixed-width integers are integers with the wrap-around written out
      ([u8] ... [u64], [s32], [s64]); doubles are binary64 [SpecFloat] numbers.
    - Pointers to objects with a life of their own (clients, jobs, nodes of the
      in-memory filesystem, cells of the legacy heap) are keys of a heap.
    - Errors are values: [res], with the [errno] of the thread in the state
      where the code reads it back.
    - Operating system, TLS library, console library and time are class
      parameters ([SysOps], [PosixOps], [CellOps]); what theorems need of them
      are named hypotheses or classes ([SysStream], [FsFiles]), each with an
      instance ([script], the in-memory backend).
    - Threads: the reactor, the workers and the web console take turns in
      steps; a worker's job is one step with the cancel flag as an oracle read
      in every round of its loops. The mutexes of the source make these steps
      atomic where it matters (queue, completions, replies, snapshot); data
      races outside of them are not modelled, but for the table of legacy
      servers, whose accesses are steps of their own. A legacy command takes
      no lock against the executor of its session; theorems about legacy
      sessions are about runs in which the two do not overlap.
    - Loops that are not structural take fuel. Where a theorem says that
      something happens, it also says that enough fuel exists, or gives the
      bound (4096 for a request, the length of the text for the parsers, the
      size of the tables for searches); the reactor's read loops end because
      the buffer empties, the worker's because the flag is set or the data end.

    ** What is proved

    - Sessions: the invariant of a session under every command
      ([session_invariant]), nothing is reachable before login ([login_gate]),
      every command gets exactly one final reply ([one_final_reply],
      [completion_settles]), reference counts are exact in every reachable
      state of the whole machine ([refs_exact]), data connections go to the
      client's own host ([no_bounce], [addr_eq_iff_host]).
    - Confinement: resolution stays inside the root and refines a walk on
      component lists up to 512 names below the root ([resolve_contained],
      [resolve_refines_walk]), the wrapper passes only paths made of the root
      and plain names to the backend
      ([rooted_calls_contained], [check_realpath_contained],
      [under_root_iff_inside]).
    - Transfers: what is sent is the file, what is stored is what was received
      ([retr_delivers], [stor_stores], [retr_sends_only_file], [copy_copies]),
      and a cancelled transfer ends ([cancelled_transfer_ends]).
    - Data structures: job queue, command table, pollset, AVL tree, prefix
      tree against queues and finite maps, the AVL tree balanced; the
      in-memory filesystem stays a tree, its paths of at most 256 components
      never touch freed nodes (the calls that do are undefined behaviour of the
      model: [mem_tree_invariant], [mem_paths_live]), and releasing it frees
      every node once up to 513 nodes ([mem_destroy_safe]).
    - Texts: framing of command lines, delivery of replies, UTF-8 validation
      against RFC 3629, timestamps and listing lines.
    - Legacy sessions whose commands and executor rounds do not overlap:
      memory safety, login, replies, and what the overlay replaces; the ways a
      cancelled transfer leaves a session unusable; with several servers that
      do not register at once, a stop reaches its own server, and a freed one
      when that is released before the call ([legacy_stop_routed]); two that
      do register at once can lose each other's entry ([starts_race]).
    - Status: a poll of the model is exact for distinct peers and wrong for
      two connections of one host; the JSON of the web console parses back to
      the state exactly when it fits; commands (of at most 511 bytes),
      requests, what a client gets of an answer and the table of connections of
      the web console ([state_json_exact], [cmd_root_exact], [get_answered],
      [conn_table_exact]).
    - Terminal: from 53 columns on every round of the loop stays on the canvas
      and its text fits the output buffer of 26 bytes a cell, though a cell
      that changes all colours takes more (TuiCost), and below no frame does
      ([screen_on_canvas], [narrow_screen_overruns]); a root typed on the
      settings view is the root that is set ([typed_root_set]).
    - On-screen display: every shape of every frame lies on the 1280 by 720
      screen but for a counting chip, as long as the root is UTF-8 that fits
      the edit buffer ([osd_frames_on_screen]), text survives
      the way through the system keyboard ([osk_roundtrip]), the flash is
      mounted by L2 instead of SELECT ([l2_mounts_flash]) and ends read only;
      quitting needs the button held ([quit_needs_hold],
      [flash_read_only_at_end]).
    - Threads, mutexes and pools release what they allocate, and where they do
      not ([thread_life], [ps3_mutex_life], [pool_life],
      [legacy_create_leaks], [console_join_crashes]); the programs stop and
      destroy what they start, with the cases they miss ([plugin_balanced],
      [app_main_balanced], [tui_main_balanced]).
    - The legacy worker pool runs every job once under every schedule, and its
      stop can hang ([pool_runs_jobs_once], [stop_may_hang]).

    ** Not modelled

    - mbedtls (third_party, a parameter) and the stubs of a build without it;
      the graphics, pad and keyboard libraries of the console (parameters: what
      they report is an argument, what they are asked for is the result).
    - Allocation does not fail except where a failure has a branch of its own
      that the model names.
    - The terminal's raw mode and signal handling, the formatting of log lines,
      [opftp_thread_self], the linker stubs of app/sysutil_compat.c.
    - The optional NTFS listings of feat/base (a library outside the sources).
    - Tests and the fuzzing driver, which only call the code above. *)

From Stdlib Require Export Ascii ZArith Lia.
From stdpp Require Export base gmap strings numbers list.

#[global] Open Scope list_scope.

(** ** Bytes and C strings

    A C string is the list of its bytes without the terminating NUL; a byte
    is an [ascii] (eight booleans), [cv] is its value as an unsigned char. *)

Abbreviation bytes := (list ascii).
Abbreviation last := list.last.
Abbreviation head := list.head.

Definition B (s : string) : bytes := String.list_ascii_of_string s.
Arguments B s%_string.

Definition cv (c : ascii) : Z := Z.of_N (N_of_ascii c).
Definition chr (z : Z) : ascii := ascii_of_N (Z.to_N z).

Definition NUL : ascii := "000".
Definition LF : ascii := "010".
Definition CR : ascii := "013".
Definition SPACE : ascii := " ".
Definition SLASH : ascii := "/".
Definition DOT : ascii := ".".
Definition DQUOTE : ascii := "034".
Definition CRLF : bytes := [CR; LF].

Lemma cv_range c : (0 ≤ cv c < 256)%Z.
Proof.
  unfold cv. pose proof (N_ascii_bounded c). lia.
Qed.

Lemma chr_cv c : chr (cv c) = c.
Proof. unfold chr, cv. rewrite N2Z.id. apply ascii_N_embedding. Qed.

Lemma cv_chr z : (0 ≤ z < 256)%Z → cv (chr z) = z.
Proof.
  intros Hz. unfold chr, cv. rewrite N_ascii_embedding by lia. lia.
Qed.

Lemma cv_inj c d : cv c = cv d → c = d.
Proof. intros H. rewrite <-(chr_cv c), <-(chr_cv d). by f_equal. Qed.

Lemma cv_inj_iff c d : cv c = cv d ↔ c = d.
Proof. split; [apply cv_inj | by intros ->]. Qed.

(** Byte equality as the code's [==] on chars. *)
Definition ceq (c d : ascii) : bool := Ascii.eqb c d.

Lemma ceq_spec c d : reflect (c = d) (ceq c d).
Proof. apply Ascii.eqb_spec. Qed.

Lemma ceq_refl c : ceq c c = true.
Proof. apply Ascii.eqb_refl. Qed.

Lemma ceq_true c d : ceq c d = true ↔ c = d.
Proof. apply Ascii.eqb_eq. Qed.

Lemma ceq_false c d : ceq c d = false ↔ c ≠ d.
Proof. apply Ascii.eqb_neq. Qed.

(** [strcmp(a, b) == 0]. *)
Definition streq (a b : bytes) : bool := bool_decide (a = b).

Lemma streq_true a b : streq a b = true ↔ a = b.
Proof. apply bool_decide_eq_true. Qed.

Lemma streq_false a b : streq a b = false ↔ a ≠ b.
Proof. apply bool_decide_eq_false. Qed.

Lemma streq_refl a : streq a a = true.
Proof. by apply streq_true. Qed.

#[global] Arguments ceq : simpl never.
#[global] Arguments streq : simpl never.
#[global] Arguments cv : simpl never.
#[global] Arguments chr : simpl never.

(** The C string held by a byte buffer: everything before the first NUL. *)
Fixpoint cstr_of (buf : bytes) : bytes :=
  match buf with
  | [] => []
  | c :: r => if ceq c NUL then [] else c :: cstr_of r
  end.

Definition no_nul (s : bytes) : Prop := Forall (λ c, c ≠ NUL) s.

Lemma cstr_of_no_nul s : no_nul (cstr_of s).
Proof.
  induction s as [|c s IH]; simpl; [constructor|].
  destruct (ceq_spec c NUL); [constructor|by constructor].
Qed.

Lemma cstr_of_id s : no_nul s → cstr_of s = s.
Proof.
  induction 1 as [|c s Hc _ IH]; simpl; [done|].
  destruct (ceq_spec c NUL); [done|by rewrite IH].
Qed.

Lemma cstr_of_app a b : no_nul a → cstr_of (a ++ b) = a ++ cstr_of b.
Proof.
  induction 1 as [|c s Hc _ IH]; simpl; [done|].
  destruct (ceq_spec c NUL); [done|by rewrite IH].
Qed.

Lemma cstr_of_app_inv s a t :
  cstr_of s = a ++ t → ∃ q, s = a ++ q ∧ cstr_of q = t.
Proof.
  revert s. induction a as [|c a IH]; intros s H; simpl in *; [eauto|].
  destruct s as [|d s]; [done|]. simpl in H.
  destruct (ceq_spec d NUL); [done|]. injection H as -> H.
  destruct (IH _ H) as (q & -> & ?). eauto.
Qed.

(** Skipping a run of one character: the loops [while ( *p == ' ') p++]. *)
Fixpoint skip_char (d : ascii) (s : bytes) : bytes :=
  match s with
  | [] => []
  | c :: r => if ceq c d then skip_char d r else s
  end.

Definition skip_spaces : bytes → bytes := skip_char SPACE.

Lemma skip_char_suffix d s : ∃ k, s = replicate k d ++ skip_char d s.
Proof.
  induction s as [|c s [k IH]]; simpl; [by exists 0|].
  destruct (ceq_spec c d) as [->|].
  - exists (S k). simpl. by rewrite <-IH.
  - by exists 0.
Qed.

Lemma skip_char_head d s : head (skip_char d s) ≠ Some d.
Proof.
  induction s as [|c s IH]; simpl; [done|].
  destruct (ceq_spec c d); [done|naive_solver].
Qed.

Lemma skip_char_no_nul d s : no_nul s → no_nul (skip_char d s).
Proof.
  intros H. destruct (skip_char_suffix d s) as [k Hk].
  rewrite Hk in H. by apply Forall_app in H as [_ H].
Qed.

(** [strchr(s, d)]: the suffix starting at the first [d]. *)
Fixpoint strchr (s : bytes) (d : ascii) : option bytes :=
  match s with
  | [] => None
  | c :: r => if ceq c d then Some s else strchr r d
  end.

(** [strrchr(s, d)]: the suffix starting at the last [d]. *)
Fixpoint strrchr (s : bytes) (d : ascii) : option bytes :=
  match s with
  | [] => None
  | c :: r =>
     match strrchr r d with
     | Some t => Some t
     | None => if ceq c d then Some s else None
     end
  end.

(** [strncmp(s, t, n) == 0] for [n <= strlen(t)]. *)
Definition strneq (s t : bytes) (n : nat) : bool := streq (take n s) (take n t).

(** [snprintf(buf, n, "%s", s)]: what an [n]-byte buffer holds afterwards. *)
Definition bprintf (n : nat) (s : bytes) : bytes := take (n - 1) s.

Lemma bprintf_short n s : length s < n → bprintf n s = s.
Proof. intros. unfold bprintf. apply take_ge. lia. Qed.

Lemma bprintf_length n s : 0 < n → length (bprintf n s) < n.
Proof. intros. unfold bprintf. rewrite length_take. lia. Qed.

Lemma bprintf_no_nul n s : no_nul s → no_nul (bprintf n s).
Proof. apply Forall_take. Qed.

Lemma lookup_cons_S {A} (x : A) l i : (x :: l) !! S i = l !! i.
Proof. done. Qed.

(** ** ctype.h in the C locale *)

Definition is_upper c := ((65 <=? cv c) && (cv c <=? 90))%Z.
Definition is_lower c := ((97 <=? cv c) && (cv c <=? 122))%Z.
Definition isdigit c := ((48 <=? cv c) && (cv c <=? 57))%Z.
Definition isspace c := ((cv c =? 32) || ((9 <=? cv c) && (cv c <=? 13)))%Z.
Definition toupper c := if is_lower c then chr (cv c - 32) else c.

(** [strcasecmp(a, b) == 0] and [strncasecmp(a, b, n) == 0]. *)
Definition strcaseeq (a b : bytes) : bool := streq (toupper <$> a) (toupper <$> b).
Definition strncaseeq (a b : bytes) (n : nat) : bool :=
  strcaseeq (take n a) (take n b).

Lemma toupper_not_lower c : is_lower (toupper c) = false.
Proof.
  unfold toupper. destruct (is_lower c) eqn:E; [|done].
  unfold is_lower in *. apply andb_prop in E as [E1 E2].
  apply Z.leb_le in E1, E2. rewrite cv_chr by lia.
  destruct (Z.leb_spec 97 (cv c - 32)); simpl; [lia|done].
Qed.

Lemma toupper_idem c : toupper (toupper c) = toupper c.
Proof. unfold toupper at 1. by rewrite toupper_not_lower. Qed.

(** ** Machine-width integers *)

Definition u8 (z : Z) : Z := (z mod 2 ^ 8)%Z.
Definition u16 (z : Z) : Z := (z mod 2 ^ 16)%Z.
Definition u32 (z : Z) : Z := (z mod 2 ^ 32)%Z.
Definition u64 (z : Z) : Z := (z mod 2 ^ 64)%Z.
Definition swrap (w z : Z) : Z := ((z + 2 ^ (w - 1)) mod 2 ^ w - 2 ^ (w - 1))%Z.
Definition s32 (z : Z) : Z := swrap 32 z.
Definition s64 (z : Z) : Z := swrap 64 z.

Lemma swrap_small w z :
  (0 < w → - 2 ^ (w - 1) ≤ z < 2 ^ (w - 1) → swrap w z = z)%Z.
Proof.
  intros Hw Hz. unfold swrap.
  assert (2 ^ w = 2 * 2 ^ (w - 1))%Z as Hp.
  { rewrite <-Z.pow_succ_r by lia. f_equal. lia. }
  rewrite Z.mod_small by lia. lia.
Qed.

Definition S_IFMT : Z := 61440.   (* 0170000 *)
Definition S_IFDIR : Z := 16384.  (* 0040000 *)
Definition S_IFREG : Z := 32768.  (* 0100000 *)

Definition ifmt (mode : Z) : Z := Z.land mode S_IFMT.
Definition is_dir (mode : Z) : bool := (ifmt mode =? S_IFDIR)%Z.
Definition is_reg (mode : Z) : bool := (ifmt mode =? S_IFREG)%Z.

Lemma is_dir_not_reg m : is_dir m = true → is_reg m = false.
Proof.
  unfold is_dir, is_reg. intros ->%Z.eqb_eq. reflexivity.
Qed.

(** ** errno and results *)

Inductive errno :=
  | E0 | EPERM | ENOENT | EIO | EBADF | EAGAIN | ENOMEM | EACCES | EBUSY
  | EEXIST | ENOTDIR | EISDIR | EINVAL | EMFILE | ENOSPC | EPIPE
  | ENAMETOOLONG | ENOTEMPTY | ELOOP | ECANCELED | ETIMEDOUT | ECONNRESET
  | ENOTCONN | ENOTSUP | EALREADY | EINTR | EINPROGRESS | ERANGE
  | EFAULT | EROFS | EFBIG | ESPIPE | ENOSYS | EOTHER (n : Z).

#[global] Instance errno_eq_dec : EqDecision errno.
Proof. solve_decision. Defined.

Inductive res (A : Type) := Ok (a : A) | Err (e : errno).
Arguments Ok {_} a.
Arguments Err {_} e.

Definition is_ok {A} (r : res A) : bool := if r is Ok _ then true else false.

(** ** Record update

    [x <| f := v |>] is the record [x] with field [f] set to [v]. A record
    type declares its eta-expansion as a [Settable] instance; the setter of
    each field is derived from it. *)

Class Settable (T : Type) := settable_eta : T → T.
Class Setter {T F : Type} (proj : T → F) := set : (F → F) → T → T.
#[global] Arguments set {T F} proj {_} f x.

Ltac solve_setter :=
  match goal with
  | |- @Setter ?T ?F ?proj =>
     let s := constr:(_ : Settable T) in
     let eta := eval hnf in s in
     exact (λ (f : F → F) (x : T),
       ltac:(let t := eval cbv beta in (eta x) in
             let u := eval pattern (proj x) in t in
             match u with
             | ?g _ => let r := eval cbv beta in (g (f (proj x))) in exact r
             end))
  end.
#[global] Hint Extern 1 (Setter _) => solve_setter : typeclass_instances.

Notation "x <| f := v |>" := (set f (λ _, v) x)
  (at level 12, f at next level, left associativity, format "x  <| f  :=  v |>").

(** ** Automation shared by the components *)

Create HintDb opftp.
#[export] Hint Constants Opaque : opftp.
#[export] Hint Resolve cstr_of_no_nul skip_char_no_nul bprintf_no_nul : opftp.
Create Rewrite HintDb opftp.
#[export] Hint Rewrite streq_refl ceq_refl : opftp.

(** Turn the boolean tests of the code in the context into propositions. *)
Ltac btests :=
  repeat match goal with
  | H : _ && _ = true |- _ => apply andb_prop in H as [? ?]
  | H : _ || _ = false |- _ => apply orb_false_elim in H as [? ?]
  | H : negb _ = true |- _ => apply negb_true_iff in H
  | H : negb _ = false |- _ => apply negb_false_iff in H
  | H : streq _ _ = true |- _ => apply streq_true in H
  | H : streq _ _ = false |- _ => apply streq_false in H
  | H : ceq _ _ = true |- _ => apply ceq_true in H
  | H : ceq _ _ = false |- _ => apply ceq_false in H
  | H : (_ =? _)%Z = true |- _ => apply Z.eqb_eq in H
  | H : (_ =? _)%Z = false |- _ => apply Z.eqb_neq in H
  | H : (_ <=? _)%Z = true |- _ => apply Z.leb_le in H
  | H : (_ <=? _)%Z = false |- _ => apply Z.leb_gt in H
  | H : (_ <? _)%Z = true |- _ => apply Z.ltb_lt in H
  | H : (_ <? _)%Z = false |- _ => apply Z.ltb_ge in H
  | H : (_ =? _)%nat = true |- _ => apply Nat.eqb_eq in H
  | H : (_ =? _)%nat = false |- _ => apply Nat.eqb_neq in H
  | H : (_ <=? _)%nat = true |- _ => apply Nat.leb_le in H
  | H : (_ <=? _)%nat = false |- _ => apply Nat.leb_gt in H
  | H : (_ <? _)%nat = true |- _ => apply Nat.ltb_lt in H
  | H : (_ <? _)%nat = false |- _ => apply Nat.ltb_ge in H
  | H : bool_decide _ = true |- _ => apply bool_decide_eq_true in H
  | H : bool_decide _ = false |- _ => apply bool_decide_eq_false in H
  end.

(** Evaluate the integer tests of the goal that linear arithmetic decides. *)
Ltac ztests :=
  repeat match goal with
  | |- context [(?a <? ?b)%Z] =>
     first [ rewrite (proj2 (Z.ltb_lt a b)) by lia
           | rewrite (proj2 (Z.ltb_ge a b)) by lia ]
  | |- context [(?a <=? ?b)%Z] =>
     first [ rewrite (proj2 (Z.leb_le a b)) by lia
           | rewrite (proj2 (Z.leb_gt a b)) by lia ]
  | |- context [(?a =? ?b)%Z] =>
     first [ rewrite (proj2 (Z.eqb_eq a b)) by lia
           | rewrite (proj2 (Z.eqb_neq a b)) by lia ]
  end; cbn [andb orb negb].
