(* ===== verification/Utf8.v ===== *)
(** * src/utf8.c: UTF-8 validation

    [opftp_utf8_valid] is the byte loop of the code with its bit tests; the
    reference is the encoder of RFC 3629, [utf8_encode]. *)

From S2P Require Import Prelude.

Local Open Scope Z_scope.

Module Utf8.

(** [*p] on a C string: the byte under the cursor, 0 at the terminator. *)
Definition peek (p : bytes) : Z := match p with [] => 0 | c :: _ => cv c end.

(** The inner [for] loop: [need] continuation bytes into [cp]. *)
Fixpoint utf8_cont (need : nat) (cp : Z) (p : bytes) : option (Z * bytes) :=
  match need with
  | O => Some (cp, p)
  | S k =>
     if Z.land (peek p) 0xC0 =? 0x80
     then utf8_cont k (Z.lor (u32 (Z.shiftl cp 6)) (Z.land (peek p) 0x3F)) (tail p)
     else None
  end.

(** The lead-byte classification: the initial [cp] and [need]. *)
Definition utf8_lead (c : Z) : option (Z * nat) :=
  if Z.land c 0xE0 =? 0xC0 then
    let cp := Z.land c 0x1F in
    if cp =? 0 then None else Some (cp, 1%nat)
  else if Z.land c 0xF0 =? 0xE0 then Some (Z.land c 0x0F, 2%nat)
  else if Z.land c 0xF8 =? 0xF0 then Some (Z.land c 0x07, 3%nat)
  else None.

(** The checks after a sequence: overlong forms, surrogates, range. *)
Definition utf8_accept (need : nat) (cp : Z) : bool :=
  if ((need =? 1)%nat && (cp <? 0x80)) then false
  else if ((need =? 2)%nat && (cp <? 0x800)) then false
  else if ((need =? 3)%nat && (cp <? 0x10000)) then false
  else if (0xD800 <=? cp) && (cp <=? 0xDFFF) then false
  else if 0x10FFFF <? cp then false
  else true.

(** One iteration of the [while] loop at a non-NUL byte: the rest of the
    string, or [None] where the code returns false. *)
Definition utf8_next (c : ascii) (r : bytes) : option bytes :=
  if cv c <? 0x80 then Some r
  else match utf8_lead (cv c) with
       | None => None
       | Some (cp0, need) =>
          match utf8_cont need cp0 r with
          | None => None
          | Some (cp, p) => if utf8_accept need cp then Some p else None
          end
       end.

Fixpoint utf8_loop (fuel : nat) (p : bytes) : bool :=
  match fuel with
  | O => true
  | S f =>
     match p with
     | [] => true
     | c :: r =>
        if ceq c NUL then true
        else match utf8_next c r with
             | None => false
             | Some q => utf8_loop f q
             end
     end
  end.

(** [opftp_utf8_valid]; a NULL argument is [None]. *)
Definition opftp_utf8_valid (s : option bytes) : bool :=
  match s with
  | None => false
  | Some s => utf8_loop (S (length s)) s
  end.

(** ** Reference: RFC 3629 *)

Definition scalar (cp : Z) : Prop :=
  0 < cp ≤ 0x10FFFF ∧ ¬ (0xD800 ≤ cp ≤ 0xDFFF).

Definition utf8_encode (cp : Z) : bytes :=
  if cp <? 0x80 then [chr cp]
  else if cp <? 0x800 then [chr (0xC0 + cp / 64); chr (0x80 + cp mod 64)]
  else if cp <? 0x10000 then
    [chr (0xE0 + cp / 4096); chr (0x80 + cp / 64 mod 64); chr (0x80 + cp mod 64)]
  else
    [chr (0xF0 + cp / 262144); chr (0x80 + cp / 4096 mod 64);
     chr (0x80 + cp / 64 mod 64); chr (0x80 + cp mod 64)].

(** ** The bit tests as ranges *)

Ltac byte_cases c := destruct c as [[] [] [] [] [] [] [] []]; reflexivity.

Lemma lead2_range c : (Z.land (cv c) 0xE0 =? 0xC0) = (192 <=? cv c) && (cv c <? 224).
Proof. byte_cases c. Qed.

Lemma lead3_range c : (Z.land (cv c) 0xF0 =? 0xE0) = (224 <=? cv c) && (cv c <? 240).
Proof. byte_cases c. Qed.

Lemma lead4_range c : (Z.land (cv c) 0xF8 =? 0xF0) = (240 <=? cv c) && (cv c <? 248).
Proof. byte_cases c. Qed.

Lemma cont_range c : (Z.land (cv c) 0xC0 =? 0x80) = (128 <=? cv c) && (cv c <? 192).
Proof. byte_cases c. Qed.

Lemma lead2_val c : Z.land (cv c) 0x1F = cv c mod 32.
Proof. byte_cases c. Qed.

Lemma lead3_val c : Z.land (cv c) 0x0F = cv c mod 16.
Proof. byte_cases c. Qed.

Lemma lead4_val c : Z.land (cv c) 0x07 = cv c mod 8.
Proof. byte_cases c. Qed.

Lemma cont_val c : Z.land (cv c) 0x3F = cv c mod 64.
Proof. byte_cases c. Qed.

Lemma lor_shiftl6 a b : 0 ≤ b < 64 → Z.lor (Z.shiftl a 6) b = a * 64 + b.
Proof.
  intros Hb. rewrite <-Z.add_nocarry_lor, Z.shiftl_mul_pow2; [done|lia|].
  apply Z.bits_inj'. intros n Hn. rewrite Z.land_spec, Z.bits_0.
  destruct (Z.lt_ge_cases n 6).
  - by rewrite Z.shiftl_spec_low.
  - rewrite (Z.bits_above_log2 b n), andb_false_r; [done|lia|].
    destruct (Z.eq_dec b 0) as [->|]; [simpl; lia|].
    apply Z.log2_lt_pow2; [lia|]. eapply Z.lt_le_trans; [apply Hb|].
    change 64 with (2 ^ 6). apply Z.pow_le_mono_r; lia.
Qed.

(** One continuation byte, in arithmetic form. *)
Lemma utf8_cont_S k cp c r :
  0 ≤ cp < 2 ^ 20 →
  utf8_cont (S k) cp (c :: r) =
    if (128 <=? cv c) && (cv c <? 192)
    then utf8_cont k (cp * 64 + (cv c - 128)) r else None.
Proof.
  intros Hcp. change (utf8_cont (S k) cp (c :: r)) with
    (if Z.land (cv c) 0xC0 =? 0x80
     then utf8_cont k (Z.lor (u32 (Z.shiftl cp 6)) (Z.land (cv c) 0x3F)) r else None).
  rewrite cont_range. destruct (_ && _) eqn:E; [|done]. btests.
  rewrite cont_val. unfold u32. rewrite Z.mod_small.
  - rewrite lor_shiftl6 by (apply Z.mod_pos_bound; lia).
    replace (cv c mod 64) with (cv c - 128); [done|].
    apply Z.mod_unique_pos with 2; lia.
  - rewrite Z.shiftl_mul_pow2 by lia. lia.
Qed.

Lemma utf8_cont_0 cp p : utf8_cont 0 cp p = Some (cp, p).
Proof. reflexivity. Qed.

Lemma utf8_cont_nil k cp : utf8_cont (S k) cp [] = None.
Proof. reflexivity. Qed.

#[local] Arguments utf8_cont : simpl never.

Lemma utf8_lead_spec c :
  utf8_lead (cv c) =
    if (193 <=? cv c) && (cv c <? 224) then Some (cv c - 192, 1%nat)
    else if (224 <=? cv c) && (cv c <? 240) then Some (cv c - 224, 2%nat)
    else if (240 <=? cv c) && (cv c <? 248) then Some (cv c - 240, 3%nat)
    else None.
Proof. byte_cases c. Qed.

Ltac cont_step c :=
  match goal with
  | H : utf8_cont (S _) _ ?l = Some _ |- _ =>
     destruct l as [|c l]; [by rewrite utf8_cont_nil in H|];
     rewrite utf8_cont_S in H by lia;
     match type of H with
     | (if ?b then _ else _) = _ => destruct b eqn:?; [btests|done]
     end
  end.

Ltac chr_eq := symmetry; rewrite <-(chr_cv _) at 1; f_equal.

(** The encoder's output, byte by byte, from the decoded digits. *)
Lemma encode2 a b : 2 ≤ a < 32 → 0 ≤ b < 64 →
  utf8_encode (a * 64 + b) = [chr (192 + a); chr (128 + b)].
Proof.
  intros Ha Hb. unfold utf8_encode.
  rewrite (proj2 (Z.ltb_ge _ _)), (proj2 (Z.ltb_lt _ _)) by lia.
  repeat f_equal; symmetry.
  - apply (Z.div_unique_pos _ 64 _ b); lia.
  - apply (Z.mod_unique_pos _ 64 a); lia.
Qed.

Lemma encode3 a b c : 0 ≤ a < 16 → 0 ≤ b < 64 → 0 ≤ c < 64 →
  0x800 ≤ (a * 64 + b) * 64 + c →
  utf8_encode ((a * 64 + b) * 64 + c) = [chr (224 + a); chr (128 + b); chr (128 + c)].
Proof.
  intros Ha Hb Hc Hlo. unfold utf8_encode.
  rewrite (proj2 (Z.ltb_ge _ _)), (proj2 (Z.ltb_ge _ _)), (proj2 (Z.ltb_lt _ _)) by lia.
  assert (((a * 64 + b) * 64 + c) / 64 = a * 64 + b) as ->
    by (symmetry; apply (Z.div_unique_pos _ 64 _ c); lia).
  repeat f_equal; symmetry.
  - apply (Z.div_unique_pos _ 4096 _ (b * 64 + c)); lia.
  - apply (Z.mod_unique_pos _ 64 a); lia.
  - apply (Z.mod_unique_pos _ 64 (a * 64 + b)); lia.
Qed.

Lemma encode4 a b c d : 0 ≤ a < 8 → 0 ≤ b < 64 → 0 ≤ c < 64 → 0 ≤ d < 64 →
  0x10000 ≤ ((a * 64 + b) * 64 + c) * 64 + d →
  utf8_encode (((a * 64 + b) * 64 + c) * 64 + d) =
    [chr (240 + a); chr (128 + b); chr (128 + c); chr (128 + d)].
Proof.
  intros Ha Hb Hc Hd Hlo. unfold utf8_encode.
  rewrite !(proj2 (Z.ltb_ge _ _)) by lia.
  assert ((((a * 64 + b) * 64 + c) * 64 + d) / 64 = (a * 64 + b) * 64 + c) as ->
    by (symmetry; apply (Z.div_unique_pos _ 64 _ d); lia).
  assert ((((a * 64 + b) * 64 + c) * 64 + d) / 4096 = a * 64 + b) as ->
    by (symmetry; apply (Z.div_unique_pos _ 4096 _ (c * 64 + d)); lia).
  repeat f_equal; symmetry.
  - apply (Z.div_unique_pos _ 262144 _ ((b * 64 + c) * 64 + d)); lia.
  - apply (Z.mod_unique_pos _ 64 a); lia.
  - apply (Z.mod_unique_pos _ 64 (a * 64 + b)); lia.
  - apply (Z.mod_unique_pos _ 64 ((a * 64 + b) * 64 + c)); lia.
Qed.

Lemma utf8_accept_spec need cp :
  utf8_accept need cp = true ↔
  (need = 1%nat → 0x80 ≤ cp) ∧ (need = 2%nat → 0x800 ≤ cp) ∧
  (need = 3%nat → 0x10000 ≤ cp) ∧ ¬ (0xD800 ≤ cp ≤ 0xDFFF) ∧ cp ≤ 0x10FFFF.
Proof.
  unfold utf8_accept. repeat case_match; btests; split; try done; try lia;
    repeat match goal with H : _ && _ = false |- _ => apply andb_false_iff in H as [?|?]; btests end; lia.
Qed.

Lemma chr_add_cv k c : chr (k + (cv c - k)) = c.
Proof. rewrite Zplus_minus. apply chr_cv. Qed.

Lemma utf8_next_sound c r q :
  c ≠ NUL → utf8_next c r = Some q →
  ∃ cp, scalar cp ∧ c :: r = utf8_encode cp ++ q.
Proof.
  intros Hc H. pose proof (cv_range c). unfold utf8_next in H.
  destruct (cv c <? 0x80) eqn:Elo; btests.
  { exists (cv c). simplify_eq. split.
    - assert (cv c ≠ 0) by (intros E; apply Hc, cv_inj; done). unfold scalar. lia.
    - unfold utf8_encode. rewrite (proj2 (Z.ltb_lt _ _)) by lia. simpl. by rewrite chr_cv. }
  rewrite utf8_lead_spec in H.
  destruct (_ && _) eqn:E1 in H; [|destruct (_ && _) eqn:E2 in H;
    [|destruct (_ && _) eqn:E3 in H; [|done]]]; btests;
    destruct (utf8_cont _ _ _) as [[cp p]|] eqn:Ec; try done;
    destruct (utf8_accept _ _) eqn:Ea; try done; simplify_eq;
    apply utf8_accept_spec in Ea as (?&?&?&?&?).
  - cont_step d. rewrite utf8_cont_0 in Ec. simplify_eq. exists ((cv c - 192) * 64 + (cv d - 128)).
    split; [unfold scalar; lia|]. rewrite encode2 by lia. by rewrite !chr_add_cv.
  - cont_step d. cont_step e. rewrite utf8_cont_0 in Ec. simplify_eq.
    exists (((cv c - 224) * 64 + (cv d - 128)) * 64 + (cv e - 128)).
    split; [unfold scalar; lia|]. rewrite encode3 by lia. by rewrite !chr_add_cv.
  - cont_step d. cont_step e. cont_step g. rewrite utf8_cont_0 in Ec. simplify_eq.
    exists ((((cv c - 240) * 64 + (cv d - 128)) * 64 + (cv e - 128)) * 64 + (cv g - 128)).
    split; [unfold scalar; lia|]. rewrite encode4 by lia. by rewrite !chr_add_cv.
Qed.

Lemma Zplus_minus_l k a : k + a - k = a.
Proof. lia. Qed.

Ltac enter_next :=
  unfold utf8_next; rewrite utf8_lead_spec, !cv_chr by lia; ztests;
  repeat (rewrite utf8_cont_S by lia; rewrite !cv_chr by lia; ztests);
  rewrite utf8_cont_0, !Zplus_minus_l.

Lemma next2 a b q : 2 ≤ a < 32 → 0 ≤ b < 64 →
  utf8_next (chr (192 + a)) (chr (128 + b) :: q) = Some q.
Proof.
  intros. enter_next.
  by rewrite (proj2 (utf8_accept_spec _ _)) by lia.
Qed.

Lemma next3 a b c q : 0 ≤ a < 16 → 0 ≤ b < 64 → 0 ≤ c < 64 →
  0x800 ≤ (a * 64 + b) * 64 + c → scalar ((a * 64 + b) * 64 + c) →
  utf8_next (chr (224 + a)) (chr (128 + b) :: chr (128 + c) :: q) = Some q.
Proof.
  intros ???? [??]. enter_next.
  by rewrite (proj2 (utf8_accept_spec _ _)) by lia.
Qed.

Lemma next4 a b c d q : 0 ≤ a < 8 → 0 ≤ b < 64 → 0 ≤ c < 64 → 0 ≤ d < 64 →
  0x10000 ≤ ((a * 64 + b) * 64 + c) * 64 + d → scalar (((a * 64 + b) * 64 + c) * 64 + d) →
  utf8_next (chr (240 + a)) (chr (128 + b) :: chr (128 + c) :: chr (128 + d) :: q) = Some q.
Proof.
  intros ????? [??]. enter_next.
  by rewrite (proj2 (utf8_accept_spec _ _)) by lia.
Qed.

Lemma chr_not_nul z : 0 < z < 256 → chr z ≠ NUL.
Proof.
  intros Hz E. apply (f_equal cv) in E. rewrite cv_chr in E by lia.
  change (cv NUL) with 0 in E. lia.
Qed.

(** The base-64 digits of a code point. *)
Lemma digits64 cp : 0 ≤ cp → cp = cp / 64 * 64 + cp mod 64 ∧ 0 ≤ cp mod 64 < 64 ∧ 0 ≤ cp / 64.
Proof. intros. pose proof (Z.div_mod cp 64). pose proof (Z.mod_pos_bound cp 64). lia. Qed.

Lemma utf8_next_complete cp q :
  scalar cp →
  ∃ c r, utf8_encode cp ++ q = c :: r ∧ c ≠ NUL ∧ utf8_next c r = Some q.
Proof.
  intros Hsc. assert (0 < cp ≤ 0x10FFFF) as Hr by apply Hsc.
  destruct (Z.lt_ge_cases cp 0x80).
  { unfold utf8_encode. ztests. eexists _, _. split_and!; [done|by apply chr_not_nul; lia|].
    unfold utf8_next. rewrite cv_chr by lia. by ztests. }
  destruct (digits64 cp) as (E1&?&?); [lia|]. set (b := cp mod 64) in *. set (a := cp / 64) in *.
  destruct (Z.lt_ge_cases cp 0x800).
  { rewrite E1, encode2 by lia. eexists _, _.
    split_and!; [done|by apply chr_not_nul; lia|by apply next2; lia]. }
  destruct (digits64 a) as (E2&?&?); [lia|]. set (c := a mod 64) in *. set (d := a / 64) in *.
  destruct (Z.lt_ge_cases cp 0x10000).
  { rewrite E2 in E1. rewrite E1, encode3 by lia. eexists _, _.
    split_and!; [done|by apply chr_not_nul; lia|apply next3; try lia; by rewrite <-E1]. }
  destruct (digits64 d) as (E3&?&?); [lia|]. set (e := d mod 64) in *. set (g := d / 64) in *.
  rewrite E3 in E2. rewrite E2 in E1. rewrite E1, encode4 by lia. eexists _, _.
  split_and!; [done|by apply chr_not_nul; lia|apply next4; try lia; by rewrite <-E1].
Qed.

Lemma utf8_next_length c r q : utf8_next c r = Some q → (length q ≤ length r)%nat.
Proof.
  destruct (decide (c = NUL)) as [->|Hc]; [by intros [= ->]|].
  intros (cp&_&E)%utf8_next_sound; [|done].
  apply (f_equal length) in E. rewrite length_app in E. simpl in E.
  assert (1 ≤ length (utf8_encode cp))%nat; [|lia].
  unfold utf8_encode. repeat case_match; simpl; lia.
Qed.

Lemma utf8_encode_no_nul cp : scalar cp → no_nul (utf8_encode cp).
Proof.
  intros [? _]. pose proof (Z.mod_pos_bound cp 64). pose proof (Z.mod_pos_bound (cp / 64) 64).
  pose proof (Z.mod_pos_bound (cp / 4096) 64).
  unfold utf8_encode, no_nul. repeat case_match; btests;
    repeat constructor; apply chr_not_nul; try lia;
    (split; [assert (0 ≤ cp / 64 ∧ 0 ≤ cp / 4096 ∧ 0 ≤ cp / 262144)
               by (repeat split; apply Z.div_pos; lia); lia|]).
  - assert (cp / 64 < 32); [apply Z.div_lt_upper_bound; lia|lia].
  - assert (cp / 4096 < 16); [apply Z.div_lt_upper_bound; lia|lia].
  - assert (cp / 262144 < 8); [apply Z.div_lt_upper_bound; lia|lia].
Qed.

Lemma utf8_loop_spec fuel s :
  (length s < fuel)%nat →
  utf8_loop fuel s = true ↔
  ∃ cps, Forall scalar cps ∧ cstr_of s = concat (utf8_encode <$> cps).
Proof.
  revert s. induction fuel as [|f IH]; intros s Hf; [lia|].
  destruct s as [|c r]; simpl in *.
  { split; [|done]. intros _. by exists []. }
  destruct (ceq_spec c NUL) as [->|Hc].
  { split; [|done]. intros _. by exists []. }
  split.
  - destruct (utf8_next c r) as [q|] eqn:En; [|done].
    pose proof (utf8_next_length _ _ _ En).
    intros (cps&Hcps&Hq)%IH; [|lia].
    destruct (utf8_next_sound _ _ _ Hc En) as (cp&Hcp&E).
    exists (cp :: cps). split; [by constructor|]. simpl.
    change (c :: cstr_of r) with ([c] ++ cstr_of r).
    rewrite <-cstr_of_app by (by repeat constructor).
    change ([c] ++ r) with (c :: r). rewrite E.
    rewrite cstr_of_app, Hq by (by apply utf8_encode_no_nul). done.
  - intros ([|cp cps]&Hcps&E); [done|]. inversion Hcps as [|?? Hcp Hcps']; subst.
    simpl in E. assert (cstr_of (c :: r) = utf8_encode cp ++ concat (utf8_encode <$> cps)) as E'.
    { simpl. by rewrite (proj2 (ceq_false c NUL) Hc). }
    destruct (cstr_of_app_inv _ _ _ E') as (q&E2&Hq).
    destruct (utf8_next_complete cp q Hcp) as (c'&r'&E3&_&Hn).
    rewrite E3 in E2. injection E2 as <- <-. rewrite Hn.
    apply IH; [apply utf8_next_length in Hn; lia|]. by exists cps.
Qed.

(** C20. [opftp_utf8_valid] accepts a C string exactly when it is the
    concatenation of the RFC 3629 encodings of Unicode scalar values: no
    overlong form, no surrogate, nothing above U+10FFFF, no truncated or
    stray continuation byte. *)
Theorem utf8_valid_iff_rfc3629 (s : bytes) :
  opftp_utf8_valid (Some s) = true ↔
  ∃ cps, Forall scalar cps ∧ cstr_of s = concat (utf8_encode <$> cps).
Proof. apply utf8_loop_spec. lia. Qed.

Example utf8_examples :
  opftp_utf8_valid (Some (B "plain")) = true ∧
  opftp_utf8_valid (Some (chr <$> [0x68; 0xC3; 0xA9])) = true ∧
  opftp_utf8_valid (Some (chr <$> [0xC0; 0xAF])) = false ∧
  opftp_utf8_valid (Some (chr <$> [0xED; 0xA0; 0x80])) = false ∧
  opftp_utf8_valid (Some (chr <$> [0xF4; 0x90; 0x80; 0x80])) = false ∧
  opftp_utf8_valid (Some (chr <$> [0xF0; 0x9F; 0x98; 0x80])) = true.
Proof. by vm_compute. Qed.

End Utf8.
