(* ===== verification/Resolve.v ===== *)
(** * src/resolve.c: lexical path resolution

    [opftp_path_resolve] and [opftp_path_parent] with their fixed-size
    buffers. The specification is resolution on lists of names: [walk] folds
    the components of the argument over a base directory, [render] prints
    the canonical path. *)

From S2P Require Import Prelude.

Module Resolve.

Definition OPFTP_MAX_PATH : nat := 1024.

(** ** The code *)

(** The inner scan [while ( *p && *p != '/') p++]: the component and the
    rest, which starts at the separator. *)
Fixpoint scan_comp (p : bytes) : bytes * bytes :=
  match p with
  | [] => ([], [])
  | c :: r => if ceq c SLASH then ([], p)
              else let '(a, q) := scan_comp r in (c :: a, q)
  end.

(** The tokenizer loop of [split_components]; components past [cap] are
    scanned and dropped. *)
Fixpoint split_loop (fuel cap : nat) (p : bytes) : list bytes :=
  match fuel with
  | O => []
  | S f =>
     match skip_char SLASH p with
     | [] => []
     | p' =>
        let '(start, q) := scan_comp p' in
        let rest k := match q with [] => [] | _ :: q' => split_loop f k q' end in
        match cap with
        | S k => start :: rest k
        | O => rest O
        end
     end
  end.

Definition split_components (path : bytes) (bufsz cap : nat) : list bytes :=
  if (bufsz <? length path + 1)%nat then []
  else split_loop (S (length path)) cap path.

(** The argument loop over the component stack: [.] skipped, [..] pops and
    clamps, anything else is pushed while there is room. *)
Definition push_arg (stack : list bytes) (c : bytes) : list bytes :=
  if streq c (B ".") then stack
  else if streq c (B "..") then take (length stack - 1) stack
  else if (length stack <? 512)%nat then stack ++ [c] else stack.

(** The rebuild loop into [result[OPFTP_MAX_PATH * 2]]. *)
Fixpoint rebuild (result : bytes) (stack : list bytes) : option bytes :=
  match stack with
  | [] => Some result
  | c :: r =>
     let sz := (OPFTP_MAX_PATH * 2)%nat in
     let with_sep :=
       if ((length result =? 1)%nat && streq result [SLASH]) then Some result
       else if ((0 <? length result)%nat && negb (bool_decide (last result = Some SLASH)))
       then if (sz <=? length result + 1)%nat then None else Some (result ++ [SLASH])
       else Some result in
     match with_sep with
     | None => None
     | Some res1 =>
        if (sz <? length res1 + length c + 1)%nat then None
        else rebuild (res1 ++ c) r
     end
  end.

(** [opftp_path_resolve] on non-NULL arguments: the path written to [out]
    and the trailing-slash flag, or [None] for the -1 return. *)
Definition opftp_path_resolve (root cwd arg : bytes) (outsz : nat)
  : option (bytes * bool) :=
  let base := match arg with
              | c :: _ => if ceq c SLASH then B "/" else cwd
              | [] => cwd
              end in
  if (OPFTP_MAX_PATH <=? length base)%nat then None
  else
    let tsl := bool_decide (last arg = Some SLASH) in
    let stack0 := split_components base OPFTP_MAX_PATH 512 in
    let stack1 :=
      if bool_decide (head base = Some SLASH) then
        let rcomp := split_components root OPFTP_MAX_PATH 64 in
        if (length rcomp <=? length stack0)%nat then drop (length rcomp) stack0
        else stack0
      else stack0 in
    let astack := split_components arg OPFTP_MAX_PATH 512 in
    let stack := fold_left push_arg astack stack1 in
    let start :=
      if (1 <? length root)%nat then
        if (OPFTP_MAX_PATH * 2 <? length root + 1)%nat then None else Some root
      else Some (B "/") in
    match start with
    | None => None
    | Some result0 =>
       match rebuild result0 stack with
       | None => None
       | Some result =>
          if (outsz <? length result + 1)%nat then None else Some (result, tsl)
       end
    end.

(** [opftp_path_parent]. *)
Fixpoint strip_len (path : bytes) (len : nat) : nat :=
  match len with
  | S ((S _) as l') =>
     if bool_decide (path !! l' = Some SLASH) then strip_len path l' else len
  | _ => len
  end.

(** The index of the last ['/'] among the first [len] bytes. *)
Fixpoint last_slash (path : bytes) (len : nat) : option nat :=
  match len with
  | O => None
  | S l => if bool_decide (path !! l = Some SLASH) then Some l else last_slash path l
  end.

Definition opftp_path_parent (path : bytes) (outsz : nat) : option bytes :=
  if (length path <=? 1)%nat then
    if (outsz <? 1)%nat then None else Some []
  else
    match last_slash path (strip_len path (length path)) with
    | None => if (outsz <? 1)%nat then None else Some []
    | Some i =>
       let plen := if (i =? 0)%nat then 1%nat else i in
       if (outsz <? plen + 1)%nat then None else Some (take plen path)
    end.

(** ** Specification: paths as lists of names *)

(** A name that can stand between two slashes. *)
Definition good (c : bytes) : Prop := c ≠ [] ∧ SLASH ∉ c.

(** A name that is not [.] or [..] either. *)
Definition plain (c : bytes) : Prop := good c ∧ c ≠ B "." ∧ c ≠ B "..".

Definition join (cs : list bytes) : bytes := concat (cons SLASH <$> cs).
Definition render (cs : list bytes) : bytes :=
  match cs with [] => B "/" | _ => join cs end.

Definition canonical (p : bytes) : Prop := ∃ cs, Forall plain cs ∧ p = render cs.

(** One component of the argument applied to a directory. *)
Definition walk1 (dir : list bytes) (c : bytes) : list bytes :=
  if streq c (B ".") then dir
  else if streq c (B "..") then take (length dir - 1) dir
  else dir ++ [c].

Definition walk (dir cs : list bytes) : list bytes := fold_left walk1 cs dir.

(** The components of a path, with no buffer limits. *)
Fixpoint comps_loop (fuel : nat) (p : bytes) : list bytes :=
  match fuel with
  | O => []
  | S f =>
     match skip_char SLASH p with
     | [] => []
     | p' => let '(start, q) := scan_comp p' in
             start :: match q with [] => [] | _ :: q' => comps_loop f q' end
     end
  end.
Definition comps (p : bytes) : list bytes := comps_loop (S (length p)) p.

(** ** The tokenizer *)

Lemma scan_comp_spec p a q :
  scan_comp p = (a, q) →
  p = a ++ q ∧ SLASH ∉ a ∧ (q = [] ∨ (∃ q', q = SLASH :: q')).
Proof.
  revert a q. induction p as [|c p IH]; intros a q H; simpl in H.
  { simplify_eq. repeat split; [set_solver|auto]. }
  destruct (ceq_spec c SLASH) as [->|Hc]; [simplify_eq; split_and!; set_solver|].
  destruct (scan_comp p) as [a' q'] eqn:E. simplify_eq.
  destruct (IH _ _ eq_refl) as (->&?&?). split_and!; set_solver.
Qed.

Lemma scan_comp_app a q :
  SLASH ∉ a → (q = [] ∨ ∃ q', q = SLASH :: q') → scan_comp (a ++ q) = (a, q).
Proof.
  intros Ha Hq. induction a as [|c a IH]; simpl.
  { by destruct Hq as [->|[q' ->]]. }
  rewrite (proj2 (ceq_false c SLASH)) by set_solver.
  by rewrite IH by set_solver.
Qed.

Lemma skip_slash_id c r : c ≠ SLASH → skip_char SLASH (c :: r) = c :: r.
Proof. intros H. simpl. by rewrite (proj2 (ceq_false c SLASH) H). Qed.

Lemma skip_slash_inv p c r :
  skip_char SLASH p = c :: r → c ≠ SLASH ∧ (length (c :: r) ≤ length p)%nat.
Proof.
  intros H. pose proof (skip_char_head SLASH p) as Hh. rewrite H in Hh.
  destruct (skip_char_suffix SLASH p) as [k Hk].
  split; [by intros ->|]. rewrite <-H, Hk at 1. rewrite <-Hk.
  rewrite Hk at 2. rewrite length_app. lia.
Qed.

(** One unrolling of the tokenizer at a non-empty component. *)
Lemma comps_loop_step f p c r a q :
  skip_char SLASH p = c :: r → scan_comp (c :: r) = (a, q) →
  comps_loop (S f) p = a :: (match q with [] => [] | _ :: q' => comps_loop f q' end).
Proof. intros H1 H2. cbn [comps_loop]. rewrite H1. by rewrite H2. Qed.

Lemma scan_head_good c r a q :
  c ≠ SLASH → scan_comp (c :: r) = (a, q) →
  good a ∧ (length a + length q = length (c :: r))%nat.
Proof.
  intros Hc H. destruct (scan_comp_spec _ _ _ H) as (E&Hs&_).
  split; [|by rewrite E, length_app]. split; [|done].
  intros ->. simpl in E. subst q. apply scan_comp_spec in H as (_&_&[?|[? [=]]]); done.
Qed.

Ltac comps_ind p :=
  match goal with
  | |- context [comps_loop (S ?f) p] =>
     destruct (skip_char SLASH p) as [|c r] eqn:Esk;
     [cbn [comps_loop]; rewrite Esk|
      destruct (scan_comp (c :: r)) as [a q] eqn:Esc;
      rewrite (comps_loop_step _ _ _ _ _ _ Esk Esc);
      destruct (skip_slash_inv _ _ _ Esk) as [Hns Hlen];
      destruct (scan_head_good _ _ _ _ Hns Esc) as [Hgood Hlq]]
  end.

Lemma comps_loop_good f p : Forall good (comps_loop f p).
Proof.
  revert p. induction f as [|f IH]; intros p; [constructor|].
  comps_ind p; [constructor|]. constructor; [done|].
  destruct q; [constructor|apply IH].
Qed.

Lemma comps_loop_fuel f f' p :
  (length p < f)%nat → (length p < f')%nat → comps_loop f p = comps_loop f' p.
Proof.
  revert f' p. induction f as [|f IH]; intros [|f'] p H H'; try lia.
  cbn [comps_loop]. destruct (skip_char SLASH p) as [|c r] eqn:Esk; [done|].
  destruct (scan_comp (c :: r)) as [a q] eqn:Esc.
  destruct (skip_slash_inv _ _ _ Esk) as [Hns Hlen].
  destruct (scan_head_good _ _ _ _ Hns Esc) as [[Hne _] Hlq].
  destruct q as [|x q]; [done|]. f_equal. simpl in *. apply IH; lia.
Qed.

(** Components are separated by at least one byte. *)
Lemma comps_loop_count f p : (2 * length (comps_loop f p) ≤ length p + 1)%nat.
Proof.
  revert p. induction f as [|f IH]; intros p; [simpl; lia|].
  comps_ind p; [simpl; lia|]. destruct Hgood as [Hne _].
  destruct a; [done|]. destruct q as [|x q]; simpl in *; [lia|].
  specialize (IH q). lia.
Qed.

Lemma split_loop_take f k p : split_loop f k p = take k (comps_loop f p).
Proof.
  revert k p. induction f as [|f IH]; intros k p; [by destruct k|].
  cbn [split_loop comps_loop]. destruct (skip_char SLASH p) as [|c r]; [by destruct k|].
  destruct (scan_comp (c :: r)) as [a q].
  destruct k; simpl; destruct q; try done; try by rewrite IH.
  by destruct k.
Qed.

Lemma comps_good p : Forall good (comps p).
Proof. apply comps_loop_good. Qed.

Lemma split_components_comps p bufsz cap :
  (length p < bufsz)%nat → split_components p bufsz cap = take cap (comps p).
Proof.
  intros H. unfold split_components. rewrite (proj2 (Nat.ltb_ge _ _)) by lia.
  apply split_loop_take.
Qed.

(** 1023 bytes hold at most 512 components: the 512-slot stacks suffice. *)
Lemma split_components_full p bufsz :
  (length p < bufsz ≤ OPFTP_MAX_PATH)%nat → split_components p bufsz 512 = comps p.
Proof.
  intros H. rewrite split_components_comps by lia. apply take_ge.
  pose proof (comps_loop_count (S (length p)) p). unfold comps, OPFTP_MAX_PATH in *. lia.
Qed.

Lemma split_components_good p bufsz cap : Forall good (split_components p bufsz cap).
Proof.
  unfold split_components. case_match; [constructor|].
  rewrite split_loop_take. apply Forall_take, comps_loop_good.
Qed.

Lemma comps_slash f p : comps_loop f (SLASH :: p) = comps_loop f p.
Proof. by destruct f. Qed.

Lemma comps_join_loop cs f :
  Forall good cs → (length (join cs) < f)%nat → comps_loop f (join cs) = cs.
Proof.
  intros Hcs. revert f. induction Hcs as [|c cs [Hne Hns] Hcs IH]; intros f Hf.
  { by destruct f. }
  change (join (c :: cs)) with (SLASH :: (c ++ join cs)) in *. rewrite comps_slash.
  destruct f as [|f]; [lia|]. destruct c as [|x c]; [done|].
  assert (x ≠ SLASH) by set_solver.
  assert (scan_comp ((x :: c) ++ join cs) = (x :: c, join cs)) as Hsc.
  { apply scan_comp_app; [done|]. destruct cs as [|d cs]; [by left|right].
    by exists (d ++ join cs). }
  erewrite comps_loop_step; [|by apply skip_slash_id|exact Hsc].
  destruct cs as [|d cs]; [done|].
  change (join (d :: cs)) with (SLASH :: (d ++ join cs)) in *.
  f_equal. rewrite <-comps_slash. apply IH.
  clear Hsc IH. simpl in *. rewrite length_app in Hf. simpl in *. lia.
Qed.

Lemma comps_render cs : Forall good cs → comps (render cs) = cs.
Proof.
  intros H. destruct cs as [|c cs]; [done|].
  unfold comps. apply comps_join_loop; [done|]. cbn [render]. lia.
Qed.

(** ** Rebuilding the path *)

Lemma join_app a b : join (a ++ b) = join a ++ join b.
Proof. unfold join. by rewrite fmap_app, concat_app. Qed.

Lemma join_singleton c : join [c] = SLASH :: c.
Proof. unfold join. cbn. by rewrite app_nil_r. Qed.

Lemma render_snoc rs c :
  render (rs ++ [c]) = (if decide (rs = []) then B "/" else join rs ++ [SLASH]) ++ c.
Proof.
  destruct rs as [|r rs]; [by cbn; rewrite app_nil_r|].
  rewrite decide_False by done. change (render ((r :: rs) ++ [c])) with (join ((r :: rs) ++ [c])).
  by rewrite join_app, join_singleton, <-app_assoc.
Qed.

Lemma last_join rs : Forall good rs → last (join rs) ≠ Some SLASH.
Proof.
  destruct rs as [|c rs _] using rev_ind; [done|]. intros [_ [[Hne Hns] _]%Forall_cons_1]%Forall_app.
  rewrite join_app, join_singleton, last_app. destruct c as [|x c]; [done|].
  rewrite last_cons_cons. destruct (last (x :: c)) as [y|] eqn:E; [|by apply last_None in E].
  intros [= ->]. apply Hns. apply last_Some in E as [l' ->]. set_solver.
Qed.

Lemma join_length_2 c rs : good c → (2 ≤ length (join (c :: rs)))%nat.
Proof. intros [Hne _]. destruct c; [done|]. simpl. lia. Qed.

Lemma rebuild_step rs c st :
  Forall good rs → good c →
  rebuild (render rs) (c :: st) =
    if (length (render (rs ++ [c])) <? 2048)%nat then rebuild (render (rs ++ [c])) st else None.
Proof.
  intros Hrs [Hne _]. rewrite render_snoc. cbn [rebuild].
  change (OPFTP_MAX_PATH * 2)%nat with 2048%nat.
  destruct rs as [|r rs].
  - simpl. destruct (Nat.ltb_spec (S (length c)) 2048).
    + by rewrite (proj2 (Nat.ltb_ge _ _)) by lia.
    + by rewrite (proj2 (Nat.ltb_lt _ _)) by lia.
  - rewrite decide_False by done. change (render (r :: rs)) with (join (r :: rs)).
    pose proof (last_join (r :: rs) Hrs) as Hlast.
    assert (2 ≤ length (join (r :: rs)))%nat as Hl2 by (apply join_length_2; by inversion Hrs).
    remember (join (r :: rs)) as p eqn:Ep. clear Ep.
    rewrite (proj2 (Nat.eqb_neq (length p) 1)) by lia.
    rewrite (proj2 (Nat.ltb_lt 0 (length p))) by lia.
    rewrite bool_decide_false by done. cbn [andb negb].
    assert (1 ≤ length c)%nat by (destruct c; [done|simpl; lia]).
    rewrite !length_app. cbn [length].
    destruct (Nat.leb_spec 2048 (length p + 1)).
    { by rewrite (proj2 (Nat.ltb_ge _ _)) by lia. }
    rewrite length_app. cbn [length].
    destruct (Nat.ltb_spec 2048 (length p + 1 + length c + 1)).
    + by rewrite (proj2 (Nat.ltb_ge _ _)) by lia.
    + by rewrite (proj2 (Nat.ltb_lt _ _)) by lia.
Qed.

Lemma render_length_mono rs st : (length (render rs) ≤ length (render (rs ++ st)))%nat ∨ rs = [].
Proof.
  destruct rs as [|r rs]; [by right|left].
  change (render (r :: rs)) with (join (r :: rs)).
  change (render ((r :: rs) ++ st)) with (join ((r :: rs) ++ st)).
  rewrite join_app, length_app. lia.
Qed.

Lemma rebuild_spec st rs :
  Forall good rs → Forall good st → (length (render rs) < 2048)%nat →
  rebuild (render rs) st =
    if (length (render (rs ++ st)) <? 2048)%nat then Some (render (rs ++ st)) else None.
Proof.
  intros Hrs Hst. revert rs Hrs.
  induction Hst as [|c st Hc Hst IH]; intros rs Hrs Hl.
  { rewrite app_nil_r, (proj2 (Nat.ltb_lt _ _)) by lia. done. }
  rewrite rebuild_step by done.
  replace (rs ++ c :: st) with ((rs ++ [c]) ++ st) by (by rewrite <-app_assoc).
  destruct (Nat.ltb_spec (length (render (rs ++ [c]))) 2048).
  - apply IH; [|done]. apply Forall_app; split; [done|by constructor].
  - rewrite (proj2 (Nat.ltb_ge _ _)); [done|].
    destruct (render_length_mono (rs ++ [c]) st) as [|E]; [lia|by destruct rs].
Qed.

(** ** Resolution *)

(** The directory an argument is resolved from, as the code computes it: the
    root for an absolute argument, otherwise the components of [cwd] with as
    many leading ones removed as the root has. *)
Definition base_dir (rs : list bytes) (cwd arg : bytes) : list bytes :=
  if bool_decide (head arg = Some SLASH) then []
  else let cs := comps cwd in
       if bool_decide (head cwd = Some SLASH) && (length rs <=? length cs)%nat
       then drop (length rs) cs else cs.

Lemma push_arg_good st c : Forall good st → good c → Forall good (push_arg st c).
Proof.
  intros. unfold push_arg. repeat case_match; [done|by apply Forall_take| |done].
  apply Forall_app; split; [done|by constructor].
Qed.

Lemma push_args_good st cs : Forall good st → Forall good cs → Forall good (fold_left push_arg cs st).
Proof. intros H Hcs. revert st H. induction Hcs; simpl; auto using push_arg_good. Qed.

Lemma push_args_plain st cs :
  Forall plain st → Forall good cs → Forall plain (fold_left push_arg cs st).
Proof.
  intros H Hcs. revert st H. induction Hcs as [|c cs Hc Hcs IH]; simpl; intros st Hst; [done|].
  apply IH. unfold push_arg. repeat case_match; btests; [done|by apply Forall_take| |done].
  apply Forall_app; split; [done|]. apply Forall_singleton. done.
Qed.

(** The stack has 512 entries; a name that finds it full is left out. *)
Lemma push_args_walk st cs :
  (∀ k, length (walk st (take k cs)) ≤ 512)%nat → fold_left push_arg cs st = walk st cs.
Proof.
  unfold walk. revert st. induction cs as [|c cs IH]; simpl; intros st Hl; [done|].
  assert (push_arg st c = walk1 st c) as ->.
  { specialize (Hl 1%nat). simpl in Hl. unfold push_arg, walk1 in *.
    repeat case_match; btests; try done. rewrite length_app in Hl. simpl in Hl. lia. }
  apply IH. intros k. apply (Hl (S k)).
Qed.

Lemma base_dir_good rs cwd arg : Forall good (base_dir rs cwd arg).
Proof.
  unfold base_dir. repeat case_match; auto using comps_good, Forall_drop.
Qed.

(** What the function returns, on every branch, for a canonical root. *)
Lemma resolve_eq rs cwd arg outsz :
  Forall good rs → (length rs ≤ 64)%nat → (length (render rs) < 1024)%nat →
  (length cwd < 1024)%nat → (length arg < 1024)%nat → (outsz ≤ 2048)%nat →
  let p := render (rs ++ fold_left push_arg (comps arg) (base_dir rs cwd arg)) in
  opftp_path_resolve (render rs) cwd arg outsz =
    if (length p <? outsz)%nat then Some (p, bool_decide (last arg = Some SLASH)) else None.
Proof.
  intros Hrs H64 Hrl Hcl Hal Hout. cbn zeta. unfold opftp_path_resolve.
  set (base := match arg with [] => cwd | c :: _ => if ceq c SLASH then B "/" else cwd end).
  assert (length base < 1024)%nat as Hbl.
  { unfold base. repeat case_match; simpl; lia. }
  rewrite (proj2 (Nat.leb_gt _ _)) by (unfold OPFTP_MAX_PATH; lia).
  rewrite !split_components_full by (unfold OPFTP_MAX_PATH; lia).
  rewrite (split_components_comps (render rs)) by (unfold OPFTP_MAX_PATH; lia).
  rewrite comps_render, take_ge by (done || lia).
  assert ((if bool_decide (head base = Some SLASH)
           then if (length rs <=? length (comps base))%nat
                then drop (length rs) (comps base) else comps base
           else comps base) = base_dir rs cwd arg) as ->.
  { unfold base, base_dir. destruct arg as [|c arg]; simpl.
    - by repeat case_bool_decide.
    - destruct (ceq_spec c SLASH) as [->|]; [simpl|rewrite (bool_decide_false (Some c = _)) by congruence];
        repeat case_bool_decide; simpl; try done. by destruct rs. }
  assert ((if (1 <? length (render rs))%nat
           then if (OPFTP_MAX_PATH * 2 <? length (render rs) + 1)%nat then None
                else Some (render rs)
           else Some (B "/")) = Some (render rs)) as ->.
  { destruct rs as [|r rs]; [done|].
    pose proof (join_length_2 r rs) as H2. cbn [render] in *.
    rewrite (proj2 (Nat.ltb_lt 1 _)) by (apply H2; by inversion Hrs).
    rewrite (proj2 (Nat.ltb_ge _ _)) by (unfold OPFTP_MAX_PATH; lia). done. }
  rewrite rebuild_spec by (auto using push_args_good, comps_good, base_dir_good || lia).
  set (p := render _). destruct (Nat.ltb_spec (length p) 2048).
  - destruct (Nat.ltb_spec (length p) outsz);
      [rewrite (proj2 (Nat.ltb_ge _ _)) by lia|rewrite (proj2 (Nat.ltb_lt _ _)) by lia]; done.
  - by rewrite (proj2 (Nat.ltb_ge _ _)) by lia.
Qed.

Lemma plain_good c : plain c → good c.
Proof. by intros [? _]. Qed.

Lemma Forall_plain_good cs : Forall plain cs → Forall good cs.
Proof. intros H. eapply List.Forall_impl; [apply plain_good|exact H]. Qed.

Lemma base_dir_plain rs ds arg :
  Forall plain ds → Forall plain (base_dir rs (render ds) arg).
Proof.
  intros H. unfold base_dir. rewrite comps_render by (by apply Forall_plain_good).
  repeat case_match; auto using Forall_drop.
Qed.

(** The shape every caller relies on: whatever the argument, a successful
    resolution is the root followed by plain names, and it fits. *)
Lemma resolve_inv rs ds arg outsz p t :
  Forall good rs → (length rs ≤ 64)%nat → (length (render rs) < 1024)%nat →
  Forall plain ds → (length (render ds) < 1024)%nat → (length arg < 1024)%nat →
  (outsz ≤ 2048)%nat →
  opftp_path_resolve (render rs) (render ds) arg outsz = Some (p, t) →
  ∃ st, Forall plain st ∧ p = render (rs ++ st) ∧ (length p < outsz)%nat.
Proof.
  intros Hrs H64 Hrl Hds Hdl Hal Hout H.
  rewrite resolve_eq in H by done. case_match; [|done]. btests. simplify_eq.
  eexists. split_and!; [|done|done].
  apply push_args_plain; [by apply base_dir_plain|apply comps_good].
Qed.

(** For a working directory below the root, the code's starting point is the
    working directory as seen from the root. *)
Lemma base_dir_inside rs ds arg :
  Forall good rs → Forall good ds →
  base_dir rs (render (rs ++ ds)) arg = if bool_decide (head arg = Some SLASH) then [] else ds.
Proof.
  intros Hrs Hds. unfold base_dir. case_bool_decide; [done|].
  rewrite comps_render by (by apply Forall_app). rewrite bool_decide_true by (by destruct (rs ++ ds)).
  rewrite length_app, (proj2 (Nat.leb_le _ _)) by lia. by rewrite drop_app_length.
Qed.

(** C15. Resolution refines the walk on names. Let the root be [rs] and the
    working directory [rs ++ ds], both canonical and, like the argument, below
    the path limit. Then the function returns the root followed by the
    directory that walking the argument leads to, from [ds] or, for an absolute
    argument, from the root itself ([.] stays, [..] goes up and stops at the
    root, any other name goes down), with the trailing-slash flag of the
    argument, exactly when that path fits the output buffer, and fails
    otherwise. Two limits of the code are hypotheses: the root has at most 64
    names, and no directory on the way is more than 512 names below the root;
    past that depth names are lost ([deep_walk_loses_names]). *)
Theorem resolve_refines_walk rs ds arg outsz :
  Forall good rs → Forall good ds → (length rs ≤ 64)%nat →
  (length (render rs) < 1024)%nat → (length (render (rs ++ ds)) < 1024)%nat →
  (length arg < 1024)%nat → (outsz ≤ 2048)%nat →
  let base := if bool_decide (head arg = Some SLASH) then [] else ds in
  (∀ k, length (walk base (take k (comps arg))) ≤ 512)%nat →
  let p := render (rs ++ walk base (comps arg)) in
  opftp_path_resolve (render rs) (render (rs ++ ds)) arg outsz =
    if (length p <? outsz)%nat then Some (p, bool_decide (last arg = Some SLASH)) else None.
Proof.
  intros Hrs Hds. intros. rewrite resolve_eq by done. rewrite base_dir_inside by done. by rewrite push_args_walk.
Qed.

(** Discharge the concrete side conditions of the witnesses. *)
Ltac concrete :=
  repeat match goal with
  | |- Forall _ [] => constructor
  | |- Forall _ (_ :: _) => constructor
  end;
  first [ by vm_compute | vm_compute; lia
        | repeat split; (by vm_compute) || (vm_compute; set_solver) | done ].

Lemma resolve_refines_walk_witness :
  opftp_path_resolve (B "/srv") (B "/srv/a") (B "../b//./c/") 1024
    = Some (B "/srv/b/c", true).
Proof.
  etransitivity; [apply (resolve_refines_walk [B "srv"] [B "a"] (B "../b//./c/") 1024)|];
    [concrete|concrete|concrete|concrete|concrete|concrete|unfold OPFTP_MAX_PATH; lia| |by vm_compute].
  intros k. change (comps (B "../b//./c/")) with [B ".."; B "b"; B "."; B "c"].
  do 5 (destruct k as [|k]; [vm_compute; lia|]). vm_compute; lia.
Defined.

(** From a directory 400 names deep, down 200 and up 200 again: 88 of the
    names that went down were left out, so the way up leads 88 directories
    too high. *)
Definition deep_dir : bytes := concat (replicate 400 (B "/a")).
Definition down_and_up : bytes := concat (replicate 200 (B "x/")) ++ concat (replicate 200 (B "../")).

Example deep_walk_loses_names :
  walk (comps deep_dir) (comps down_and_up) = comps deep_dir ∧
  opftp_path_resolve (B "/") deep_dir down_and_up OPFTP_MAX_PATH
    = Some (concat (replicate 312 (B "/a")), true).
Proof. by vm_compute. Qed.

(** C14. Containment: from a canonical root and a canonical working
    directory, no argument (however many [..], [.] or [//] it has) resolves
    outside the root; the result is the root followed by names other than
    [.] and [..], and it fits the buffer. *)
Theorem resolve_contained rs ds arg outsz p t :
  Forall good rs → (length rs ≤ 64)%nat → (length (render rs) < 1024)%nat →
  Forall plain ds → (length (render ds) < 1024)%nat → (length arg < 1024)%nat →
  (outsz ≤ 2048)%nat →
  opftp_path_resolve (render rs) (render ds) arg outsz = Some (p, t) →
  ∃ st, Forall plain st ∧ p = render (rs ++ st) ∧ (length p < outsz)%nat.
Proof. apply resolve_inv. Qed.

Lemma resolve_contained_witness :
  ∃ st, Forall plain st ∧ B "/srv/etc" = render ([B "srv"] ++ st) ∧ (length (B "/srv/etc") < 1024)%nat.
Proof.
  apply (resolve_contained [B "srv"] [B "x"; B "y"] (B "../../../../etc") 1024 (B "/srv/etc") false);
    [concrete|concrete|concrete|concrete|concrete|concrete|unfold OPFTP_MAX_PATH; lia|by vm_compute].
Defined.

(** ** Parent directory *)

Lemma last_slash_app p c n :
  SLASH ∉ c → (length p < n ≤ length (p ++ SLASH :: c))%nat →
  last_slash (p ++ SLASH :: c) n = Some (length p).
Proof.
  intros Hc. induction n as [|n IH]; intros Hn; [lia|]. cbn [last_slash].
  destruct (decide (n = length p)) as [->|Hne].
  { rewrite bool_decide_true; [done|]. by rewrite list_lookup_middle. }
  rewrite bool_decide_false; [apply IH; lia|].
  rewrite lookup_app_r by lia.
  destruct (n - length p)%nat as [|k] eqn:E; [lia|]. simpl. intros Hl.
  apply Hc. by eapply list_elem_of_lookup_2.
Qed.

Lemma strip_len_id p n :
  p !! (n - 1)%nat ≠ Some SLASH → strip_len p n = n.
Proof.
  intros H. destruct n as [|[|n]]; [done|done|]. cbn [strip_len].
  replace (S (S n) - 1)%nat with (S n) in H by lia. by rewrite bool_decide_false.
Qed.

Lemma parent_render cs c outsz :
  Forall good cs → good c → (length (render cs) < outsz)%nat →
  opftp_path_parent (render (cs ++ [c])) outsz = Some (render cs).
Proof.
  intros Hcs [Hne Hns] Hl. unfold opftp_path_parent.
  assert (render (cs ++ [c]) = join cs ++ SLASH :: c) as ->.
  { rewrite render_snoc. destruct cs; [done|].
    rewrite decide_False by done. by rewrite <-app_assoc. }
  set (q := join cs ++ SLASH :: c).
  assert (length q = length (join cs) + S (length c))%nat as Hq
    by (unfold q; rewrite length_app; done).
  assert (1 ≤ length c)%nat by (destruct c; [done|simpl; lia]).
  rewrite (proj2 (Nat.leb_gt _ _)) by lia.
  rewrite strip_len_id.
  2:{ rewrite Hq. unfold q. rewrite lookup_app_r by lia.
      replace (length (join cs) + S (length c) - 1 - length (join cs))%nat
        with (S (length c - 1)) by lia.
      simpl. intros Hx. apply Hns. by eapply list_elem_of_lookup_2. }
  unfold q at 1. rewrite last_slash_app by (done || (fold q; lia)).
  destruct cs as [|d cs].
  - simpl in *. rewrite (proj2 (Nat.ltb_ge _ _)) by lia. done.
  - pose proof (join_length_2 d cs) as H2. inversion_clear Hcs.
    change (render (d :: cs)) with (join (d :: cs)) in *.
    rewrite (proj2 (Nat.eqb_neq _ _)) by (specialize (H2 H0); lia).
    rewrite (proj2 (Nat.ltb_ge _ _)) by lia. unfold q. by rewrite take_app_length.
Qed.

(** The parent of a canonical path is the canonical path of its
    directory: [/a/b] gives [/a], [/a] gives [/], for every buffer that can
    hold it. *)
Theorem parent_of_canonical cs c outsz :
  Forall good cs → good c → (length (render cs) < outsz)%nat →
  opftp_path_parent (render (cs ++ [c])) outsz = Some (render cs).
Proof. apply parent_render. Qed.

Lemma parent_of_canonical_witness :
  opftp_path_parent (B "/a/b") 1024 = Some (B "/a").
Proof. apply (parent_of_canonical [B "a"] (B "b")); concrete. Defined.

End Resolve.
