(* ===== verification/CLib.v ===== *)
(** * The C library functions the program calls

    Number parsing ([strtol], [strtoull], [atoi], [sscanf] conversions),
    number printing ([printf] conversions) and the UTC calendar ([gmtime_r],
    [timegm]) as the C standard and glibc define them, for an LP64 target. *)

From S2P Require Import Prelude.

Local Open Scope Z_scope.

Module CLib.

(** ** printf conversions *)

Definition digit (d : Z) : ascii := chr (48 + d).

Fixpoint dec_loop (fuel : nat) (n : Z) (acc : bytes) : bytes :=
  match fuel with
  | O => acc
  | S f =>
     let acc' := digit (n mod 10) :: acc in
     if n <? 10 then acc' else dec_loop f (n / 10) acc'
  end.

(** [%u], [%llu] on a non-negative number. *)
Definition fmt_u (n : Z) : bytes := dec_loop (S (Z.to_nat (Z.log2 n))) n [].

(** [%d]. *)
Definition fmt_d (n : Z) : bytes :=
  if n <? 0 then "-"%char :: fmt_u (- n) else fmt_u n.

(** [%0<w>d]. *)
Definition fmt_0d (w : nat) (n : Z) : bytes :=
  if n <? 0
  then "-"%char :: (replicate (w - 1 - length (fmt_u (- n))) "0"%char ++ fmt_u (- n))
  else replicate (w - length (fmt_u n)) "0"%char ++ fmt_u n.

(** [%<w>llu]. *)
Definition fmt_pad (w : nat) (n : Z) : bytes :=
  replicate (w - length (fmt_u n)) SPACE ++ fmt_u n.

(** ** strtol and friends *)

Fixpoint skip_isspace (s : bytes) : bytes :=
  match s with
  | [] => []
  | c :: r => if isspace c then skip_isspace r else s
  end.

(** The digits of [s] in [base], accumulated without bound; the number of
    digits and the rest. *)
Fixpoint scan_digits (base acc : Z) (n : nat) (s : bytes) : Z * nat * bytes :=
  match s with
  | [] => (acc, n, [])
  | c :: r =>
     if (48 <=? cv c) && (cv c <? 48 + base)
     then scan_digits base (acc * base + (cv c - 48)) (S n) r
     else (acc, n, s)
  end.

Definition scan_sign (s : bytes) : bool * bytes :=
  match s with
  | c :: r => if ceq c "-" then (true, r) else if ceq c "+" then (false, r) else (false, s)
  | [] => (false, s)
  end.

(** The subject sequence of the [strto*] family: sign, unbounded value and
    the rest; [None] when there is no digit (then [*end = s]). *)
Definition scan_number (base : Z) (s : bytes) : option (bool * Z * bytes) :=
  let '(neg, s1) := scan_sign (skip_isspace s) in
  match scan_digits base 0 0 s1 with
  | (_, O, _) => None
  | (v, S _, r) => Some (neg, v, r)
  end.

(** [strtoull(s, &end, base)]: the value, and [*end] when digits were read. *)
Definition strtoull (base : Z) (s : bytes) : Z * option bytes :=
  match scan_number base s with
  | None => (0, None)
  | Some (neg, v, r) =>
     (if 2 ^ 64 - 1 <? v then 2 ^ 64 - 1 else if neg then u64 (- v) else v, Some r)
  end.

(** [strtol(s, &end, base)] for a 64-bit long. *)
Definition strtol (base : Z) (s : bytes) : Z * option bytes :=
  match scan_number base s with
  | None => (0, None)
  | Some (neg, v, r) =>
     let w := if neg then - v else v in
     (Z.max (- 2 ^ 63) (Z.min (2 ^ 63 - 1) w), Some r)
  end.

Definition atoi (s : bytes) : Z := s32 (fst (strtol 10 s)).

(** The [%u] conversion of [sscanf]: the value stored in an unsigned int and
    the rest of the input. *)
Definition sscanf_u (s : bytes) : option (Z * bytes) :=
  match strtoull 10 s with
  | (v, Some r) => Some (u32 v, r)
  | (_, None) => None
  end.

(** A literal character in a [sscanf] format. *)
Definition sscanf_lit (c : ascii) (s : bytes) : option bytes :=
  match s with
  | d :: r => if ceq c d then Some r else None
  | [] => None
  end.

(** The [%<w>[^d]] conversion: up to [w] bytes other than [d], at least one. *)
Fixpoint scan_until (w : nat) (d : ascii) (s : bytes) : bytes * bytes :=
  match w, s with
  | S w', c :: r =>
     if ceq c d then ([], s) else let '(a, q) := scan_until w' d r in (c :: a, q)
  | _, _ => ([], s)
  end.

Definition sscanf_until (w : nat) (d : ascii) (s : bytes) : option (bytes * bytes) :=
  match scan_until w d s with
  | ([], _) => None
  | r => Some r
  end.

(** ** The UTC calendar *)

Record tm := { tm_year : Z; tm_mon : Z; tm_mday : Z; tm_hour : Z; tm_min : Z; tm_sec : Z }.

(** Days before year [y] of a 400-year era that starts in March. *)
Definition year_start (y : Z) : Z := 365 * y + y / 4 - y / 100.
Definition month_start (mp : Z) : Z := (153 * mp + 2) / 5.

(** Days since 1970-01-01 of the proleptic Gregorian date [y]-[m]-[d]. *)
Definition days_from_civil (y m d : Z) : Z :=
  let y' := if m <=? 2 then y - 1 else y in
  let mp := (m + 9) mod 12 in
  (y' / 400) * 146097 + year_start (y' mod 400) + month_start mp + (d - 1) - 719468.

(** The year of an era a day falls in. *)
Definition year_of_doe (doe : Z) : Z :=
  (doe - doe / 1460 + doe / 36524 - doe / 146096) / 365.

Definition civil_from_days (z : Z) : Z * Z * Z :=
  let z' := z + 719468 in
  let doe := z' mod 146097 in
  let yoe := year_of_doe doe in
  let doy := doe - year_start yoe in
  let mp := (5 * doy + 2) / 153 in
  let m := if mp <? 10 then mp + 3 else mp - 9 in
  let y := yoe + z' / 146097 * 400 in
  (if m <=? 2 then y + 1 else y, m, doy - month_start mp + 1).

(** [timegm]: field overflow in the day of the month carries on, as in C. *)
Definition timegm (t : tm) : Z :=
  86400 * days_from_civil (tm_year t + 1900) (tm_mon t + 1) (tm_mday t)
  + 3600 * tm_hour t + 60 * tm_min t + tm_sec t.

(** [gmtime_r]: NULL when the year does not fit an int. *)
Definition gmtime_r (t : Z) : option tm :=
  let '(y, m, d) := civil_from_days (t / 86400) in
  let s := t mod 86400 in
  if (- 2 ^ 31 <=? y - 1900) && (y - 1900 <? 2 ^ 31)
  then Some {| tm_year := y - 1900; tm_mon := m - 1; tm_mday := d;
               tm_hour := s / 3600; tm_min := s mod 3600 / 60; tm_sec := s mod 60 |}
  else None.

(** ["%04d%02d%02d%02d%02d%02d"] on a broken-down time. *)
Definition fmt_tm14 (t : tm) : bytes :=
  fmt_0d 4 (tm_year t + 1900) ++ fmt_0d 2 (tm_mon t + 1) ++ fmt_0d 2 (tm_mday t)
  ++ fmt_0d 2 (tm_hour t) ++ fmt_0d 2 (tm_min t) ++ fmt_0d 2 (tm_sec t).

(** ** Printing and reading decimals *)

Lemma dec_loop_acc f n acc : dec_loop f n acc = dec_loop f n [] ++ acc.
Proof.
  revert n acc. induction f as [|f IH]; intros n acc; [done|]. cbn [dec_loop].
  case_match; [done|]. rewrite IH, (IH _ [_]), <-app_assoc. done.
Qed.

Lemma log2_div10 n : 10 ≤ n → Z.log2 (n / 10) < Z.log2 n.
Proof.
  intros H. assert (n / 10 ≤ n / 2) by (Z.div_mod_to_equations; lia).
  assert (1 ≤ n / 10) by (apply Z.div_le_lower_bound; lia).
  apply Z.le_lt_trans with (Z.log2 (n / 2)); [by apply Z.log2_le_mono|].
  replace (n / 2) with (Z.shiftr n 1) by (by rewrite Z.shiftr_div_pow2).
  rewrite Z.log2_shiftr by lia. assert (0 < Z.log2 n) by (apply Z.log2_pos; lia). lia.
Qed.

Lemma dec_loop_fuel f f' n acc :
  0 ≤ n → Z.log2 n < Z.of_nat f → Z.log2 n < Z.of_nat f' →
  dec_loop f n acc = dec_loop f' n acc.
Proof.
  revert f' n acc. induction f as [|f IH]; intros f' n acc Hn H H'.
  { pose proof (Z.log2_nonneg n). lia. }
  destruct f' as [|f']; [pose proof (Z.log2_nonneg n); lia|]. cbn [dec_loop].
  destruct (Z.ltb_spec n 10); [done|]. pose proof (log2_div10 n).
  apply IH; [apply Z.div_pos; lia|lia|lia].
Qed.

Lemma fmt_u_small n : 0 ≤ n < 10 → fmt_u n = [digit n].
Proof.
  intros. unfold fmt_u. cbn [dec_loop]. ztests. by rewrite Z.mod_small.
Qed.

Lemma fmt_u_step n : 10 ≤ n → fmt_u n = fmt_u (n / 10) ++ [digit (n mod 10)].
Proof.
  intros H. unfold fmt_u at 1. cbn [dec_loop]. ztests.
  rewrite dec_loop_acc. f_equal. unfold fmt_u.
  pose proof (log2_div10 n H). pose proof (Z.log2_nonneg (n / 10)).
  apply dec_loop_fuel; [apply Z.div_pos; lia|lia|lia].
Qed.

Lemma cv_digit d : 0 ≤ d < 10 → cv (digit d) = 48 + d.
Proof. intros. unfold digit. apply cv_chr. lia. Qed.

Lemma isdigit_digit d : 0 ≤ d < 10 → isdigit (digit d) = true.
Proof. intros. unfold isdigit. rewrite cv_digit by done. by ztests. Qed.

Lemma scan_digits_app base acc n s t :
  scan_digits base acc n (s ++ t) =
    let '(v, k, r) := scan_digits base acc n s in
    match r with [] => scan_digits base v k t | _ => (v, k, r ++ t) end.
Proof.
  revert acc n. induction s as [|c s IH]; intros acc n; [done|]. simpl.
  case_match; [apply IH|done].
Qed.

Lemma skip_isspace_length s : (length (skip_isspace s) ≤ length s)%nat.
Proof. induction s as [|c s IH]; cbn [skip_isspace]; [lia|]. case_match; cbn; lia. Qed.

Lemma scan_digits_length base s : ∀ acc n v k r,
  scan_digits base acc n s = (v, k, r) → (length r ≤ length s)%nat.
Proof.
  induction s as [|c s IH]; intros acc n v k r Hs; cbn [scan_digits] in Hs; [by simplify_eq|].
  case_match; [|by simplify_eq]. apply IH in Hs. cbn. lia.
Qed.

(** What a number leaves of the string is no longer than the string. *)
Lemma strtol_rest_length base s v r : strtol base s = (v, Some r) → (length r ≤ length s)%nat.
Proof.
  unfold strtol, scan_number. pose proof (skip_isspace_length s) as Hsp.
  assert (length (snd (scan_sign (skip_isspace s))) ≤ length (skip_isspace s))%nat as Hsg.
  { unfold scan_sign. repeat case_match; cbn; lia. }
  destruct (scan_sign (skip_isspace s)) as [neg s1]. cbn [snd] in Hsg.
  destruct (scan_digits base 0 0 s1) as [[w k] q] eqn:E. apply scan_digits_length in E.
  destruct k; [done|]. intros. simplify_eq. lia.
Qed.

Lemma fmt_u_scan n :
  0 ≤ n → scan_digits 10 0 0 (fmt_u n) = (n, length (fmt_u n), []).
Proof.
  induction n as [n IH] using (well_founded_induction (Z.lt_wf 0)). intros Hn.
  destruct (Z.lt_ge_cases n 10).
  - rewrite fmt_u_small by lia. simpl. rewrite cv_digit by lia. ztests. do 2 f_equal. lia.
  - pose proof (Z.mod_pos_bound n 10). pose proof (Z.div_mod n 10).
    rewrite fmt_u_step, scan_digits_app, IH by (lia || (split; [apply Z.div_pos|apply Z.div_lt]; lia)).
    simpl. rewrite cv_digit by lia. ztests.
    rewrite length_app, Nat.add_comm. simpl. do 2 f_equal. lia.
Qed.

Lemma fmt_u_digits n : 0 ≤ n → Forall (λ c, isdigit c = true) (fmt_u n).
Proof.
  induction n as [n IH] using (well_founded_induction (Z.lt_wf 0)). intros Hn. destruct (Z.lt_ge_cases n 10).
  - rewrite fmt_u_small by lia. constructor; [|constructor]. by apply isdigit_digit.
  - pose proof (Z.mod_pos_bound n 10). rewrite fmt_u_step by lia. apply Forall_app. split.
    + apply IH; [split; [apply Z.div_pos|apply Z.div_lt]; lia|apply Z.div_pos; lia].
    + constructor; [|constructor]. apply isdigit_digit. lia.
Qed.

Lemma fmt_u_nonempty n : 0 ≤ n → (0 < length (fmt_u n))%nat.
Proof.
  intros. destruct (Z.lt_ge_cases n 10).
  - rewrite fmt_u_small by lia. simpl. lia.
  - rewrite fmt_u_step by lia. rewrite length_app. simpl. lia.
Qed.

Lemma isdigit_cases c : isdigit c = true → isspace c = false ∧ c ≠ "-"%char ∧ c ≠ "+"%char.
Proof. destruct c as [[] [] [] [] [] [] [] []]; vm_compute; intros H; split_and!; congruence. Qed.

(** [strtoull] reads back what [%llu] printed. *)
Lemma strtoull_fmt_u n r :
  0 ≤ n < 2 ^ 64 → (∀ c, head r = Some c → isdigit c = false) →
  strtoull 10 (fmt_u n ++ r) = (n, Some r).
Proof.
  intros Hn Hr. unfold strtoull, scan_number.
  pose proof (fmt_u_digits n) as Hd. pose proof (fmt_u_nonempty n) as Hne.
  pose proof (fmt_u_scan n) as Hs.
  destruct (fmt_u n) as [|c l]; [simpl in Hne; lia|].
  assert (isdigit c = true) as Hc by (specialize (Hd ltac:(lia)); by inversion Hd).
  destruct (isdigit_cases c Hc) as (Hsp&Hm&Hp). simpl. rewrite Hsp. simpl.
  rewrite (proj2 (ceq_false c _) Hm), (proj2 (ceq_false c _) Hp).
  change (c :: l ++ r) with ((c :: l) ++ r). rewrite scan_digits_app, Hs by lia.
  assert (scan_digits 10 n (length (c :: l)) r = (n, length (c :: l), r)) as ->.
  { destruct r as [|x r]; [done|]. cbn [scan_digits]. specialize (Hr x eq_refl).
    unfold isdigit in Hr. destruct (48 <=? cv x) eqn:E1; [|done].
    destruct (cv x <=? 57) eqn:E2; [done|]. btests. by ztests. }
  simpl. ztests. done.
Qed.

Lemma fmt_u_length k n : (1 ≤ k)%nat → 0 ≤ n < 10 ^ Z.of_nat k → (length (fmt_u n) ≤ k)%nat.
Proof.
  revert n. induction k as [|k IH]; intros n Hk Hn; [lia|].
  destruct (Z.lt_ge_cases n 10); [rewrite fmt_u_small by lia; simpl; lia|].
  rewrite fmt_u_step, length_app by lia. simpl.
  destruct k as [|k]; [simpl in Hn; lia|].
  rewrite Nat2Z.inj_succ, Z.pow_succ_r in Hn by lia.
  assert (length (fmt_u (n / 10)) ≤ S k)%nat; [|lia].
  apply IH; [lia|split; [apply Z.div_pos; lia|apply Z.div_lt_upper_bound; lia]].
Qed.

(** Two- and four-digit fields. *)
Lemma fmt_0d_2 n : 0 ≤ n < 100 → fmt_0d 2 n = [digit (n / 10); digit (n mod 10)].
Proof.
  intros H. unfold fmt_0d. ztests. destruct (Z.lt_ge_cases n 10).
  - rewrite fmt_u_small, Z.div_small, Z.mod_small by lia. done.
  - rewrite fmt_u_step, (fmt_u_small (n / 10)) by (lia || (Z.div_mod_to_equations; lia)). done.
Qed.

Lemma fmt_0d_4 n : 0 ≤ n < 10000 →
  fmt_0d 4 n = [digit (n / 1000); digit (n / 100 mod 10); digit (n / 10 mod 10); digit (n mod 10)].
Proof.
  intros H. unfold fmt_0d. ztests.
  destruct (Z.lt_ge_cases n 10); [|destruct (Z.lt_ge_cases n 100); [|destruct (Z.lt_ge_cases n 1000)]].
  - rewrite fmt_u_small, (Z.div_small n 1000), (Z.div_small n 100), (Z.div_small n 10), (Z.mod_small n 10) by lia. done.
  - rewrite fmt_u_step, (fmt_u_small (n / 10)) by (lia || (Z.div_mod_to_equations; lia)).
    rewrite (Z.div_small n 1000), (Z.div_small n 100), (Z.mod_small (n / 10))
      by (lia || (Z.div_mod_to_equations; lia)). done.
  - rewrite !fmt_u_step, (fmt_u_small (n / 10 / 10)) by (lia || (Z.div_mod_to_equations; lia)).
    rewrite Z.div_div by lia. change (10 * 10) with 100.
    rewrite (Z.div_small n 1000), (Z.mod_small (n / 100)) by (lia || (Z.div_mod_to_equations; lia)). done.
  - rewrite !fmt_u_step, (fmt_u_small (n / 10 / 10 / 10)) by (lia || (Z.div_mod_to_equations; lia)).
    rewrite !Z.div_div by lia. done.
Qed.

(** ** Calendar lemmas *)

Definition year_end (y : Z) : Z := if y =? 399 then 146096 else year_start (y + 1) - 1.

Lemma year_start_step y : 0 ≤ y → year_start y + 365 ≤ year_start (y + 1) ≤ year_start y + 366.
Proof. intros. unfold year_start. Z.div_mod_to_equations. lia. Qed.

Lemma year_of_doe_step d : 0 ≤ d < 146096 → year_of_doe d ≤ year_of_doe (d + 1).
Proof.
  intros H. unfold year_of_doe. apply Z.div_le_mono; [lia|].
  assert (d / 146096 = 0) as -> by (apply Z.div_small; lia).
  destruct (Z.eq_dec d 146095) as [->|]; [by vm_compute|].
  assert ((d + 1) / 146096 = 0) as -> by (apply Z.div_small; lia).
  Z.div_mod_to_equations. lia.
Qed.

Lemma year_of_doe_mono d e : 0 ≤ d ≤ e → e ≤ 146096 → year_of_doe d ≤ year_of_doe e.
Proof.
  intros [H0 H]. pattern e. revert e H. apply Zlt_lower_bound_ind.
  intros e IH H He. destruct (Z.eq_dec d e) as [->|]; [done|].
  transitivity (year_of_doe (e - 1)); [apply IH; lia|].
  replace (year_of_doe e) with (year_of_doe (e - 1 + 1)) by (f_equal; lia).
  apply year_of_doe_step. lia.
Qed.

(** The first and last day of each of the 400 years. *)
Lemma year_bounds_ok y :
  0 ≤ y < 400 → year_of_doe (year_start y) = y ∧ year_of_doe (year_end y) = y.
Proof.
  intros H.
  assert (forallb (λ n, (year_of_doe (year_start (Z.of_nat n)) =? Z.of_nat n)
                        && (year_of_doe (year_end (Z.of_nat n)) =? Z.of_nat n))
                  (seq 0 400) = true) as Hall by (by vm_compute).
  rewrite forallb_forall in Hall. specialize (Hall (Z.to_nat y)).
  rewrite Z2Nat.id in Hall by lia. rewrite in_seq in Hall.
  specialize (Hall ltac:(lia)). btests. done.
Qed.

Lemma year_of_doe_unique y doe :
  0 ≤ y < 400 → year_start y ≤ doe ≤ year_end y → year_of_doe doe = y.
Proof.
  intros Hy [H1 H2]. destruct (year_bounds_ok y Hy) as [Hs He].
  assert (0 ≤ year_start y) by (unfold year_start; Z.div_mod_to_equations; lia).
  assert (year_end y ≤ 146096).
  { unfold year_end. case_match; [done|]. btests.
    unfold year_start. Z.div_mod_to_equations. lia. }
  pose proof (year_of_doe_mono (year_start y) doe). pose proof (year_of_doe_mono doe (year_end y)).
  lia.
Qed.

Lemma year_bracket doe :
  0 ≤ doe ≤ 146096 → ∃ y, 0 ≤ y < 400 ∧ year_start y ≤ doe ≤ year_end y.
Proof.
  intros H.
  assert (∀ n : nat, (n < 400)%nat →
    (∃ y, 0 ≤ y < Z.of_nat n ∧ year_start y ≤ doe ≤ year_end y) ∨ year_start (Z.of_nat n) ≤ doe) as Hn.
  { induction n as [|n IH]; intros Hlt; [right; change (0 ≤ doe); lia|].
    destruct IH as [(y&?&?)|Hle]; [lia|left; exists y; lia|].
    destruct (Z.le_gt_cases (year_start (Z.of_nat (S n))) doe); [by right|left].
    exists (Z.of_nat n). split; [lia|]. split; [done|]. unfold year_end.
    rewrite (proj2 (Z.eqb_neq _ _)) by lia. replace (Z.of_nat n + 1) with (Z.of_nat (S n)) by lia. lia. }
  destruct (Hn 399%nat) as [(y&?&?)|Hle]; [lia|exists y; lia|].
  exists 399. split; [lia|]. split; [done|]. unfold year_end. simpl. lia.
Qed.

Lemma year_length y : 0 ≤ y < 400 → year_end y ≤ year_start y + 365.
Proof.
  intros H. unfold year_end. case_match; btests.
  - subst. done.
  - pose proof (year_start_step y). lia.
Qed.

(** The month a day of the March-based year falls in. *)
Lemma month_of_doy doy :
  0 ≤ doy ≤ 365 → let mp := (5 * doy + 2) / 153 in
  0 ≤ mp ≤ 11 ∧ month_start mp ≤ doy < month_start (mp + 1).
Proof.
  intros H mp. subst mp. unfold month_start. Z.div_mod_to_equations. lia.
Qed.

Lemma month_unique doy mp :
  0 ≤ mp ≤ 11 → 0 ≤ doy ≤ 365 → month_start mp ≤ doy < month_start (mp + 1) →
  (5 * doy + 2) / 153 = mp.
Proof. intros. unfold month_start in *. Z.div_mod_to_equations. lia. Qed.

Lemma days_civil z :
  let '(y, m, d) := civil_from_days z in days_from_civil y m d = z.
Proof.
  unfold civil_from_days. set (z' := z + 719468).
  pose proof (Z.mod_pos_bound z' 146097 ltac:(lia)) as Hdoe.
  pose proof (Z.div_mod z' 146097 ltac:(lia)) as Hz.
  set (doe := z' mod 146097) in *. set (era := z' / 146097) in *.
  destruct (year_bracket doe) as (y&Hy&Hb); [lia|].
  rewrite (year_of_doe_unique y doe) by done.
  pose proof (year_length y Hy). set (doy := doe - year_start y).
  destruct (month_of_doy doy) as [Hmp _]; [lia|]. set (mp := (5 * doy + 2) / 153) in *.
  unfold days_from_civil.
  assert ((if (if mp <? 10 then mp + 3 else mp - 9) <=? 2
           then (if (if mp <? 10 then mp + 3 else mp - 9) <=? 2 then y + era * 400 + 1 else y + era * 400) - 1
           else if (if mp <? 10 then mp + 3 else mp - 9) <=? 2 then y + era * 400 + 1 else y + era * 400)
          = y + era * 400) as ->.
  { destruct (Z.ltb_spec mp 10); ztests; lia. }
  assert (((if mp <? 10 then mp + 3 else mp - 9) + 9) mod 12 = mp) as ->.
  { destruct (Z.ltb_spec mp 10).
    - symmetry. apply Z.mod_unique_pos with 1; lia.
    - rewrite Z.mod_small by lia. lia. }
  rewrite Z.div_add, Z.mod_add by lia. rewrite Z.div_small, (Z.mod_small y) by lia.
  unfold doy, z' in *. lia.
Qed.

Lemma civil_ranges z :
  let '(_, m, d) := civil_from_days z in 1 ≤ m ≤ 12 ∧ 1 ≤ d ≤ 31.
Proof.
  unfold civil_from_days. set (z' := z + 719468).
  pose proof (Z.mod_pos_bound z' 146097 ltac:(lia)) as Hdoe. set (doe := z' mod 146097) in *.
  destruct (year_bracket doe) as (y&Hy&Hb); [lia|].
  rewrite (year_of_doe_unique y doe) by done.
  pose proof (year_length y Hy). set (doy := doe - year_start y).
  destruct (month_of_doy doy) as [Hmp Hm]; [lia|]. set (mp := (5 * doy + 2) / 153) in *.
  clearbody mp doy. split; [destruct (Z.ltb_spec mp 10); lia|].
  unfold month_start in *. Z.div_mod_to_equations. lia.
Qed.

Lemma gmtime_ranges t b : gmtime_r t = Some b →
  0 ≤ tm_mon b < 12 ∧ 1 ≤ tm_mday b ≤ 31 ∧ 0 ≤ tm_hour b < 24 ∧
  0 ≤ tm_min b < 60 ∧ 0 ≤ tm_sec b < 60.
Proof.
  unfold gmtime_r. pose proof (civil_ranges (t / 86400)) as Hr.
  destruct (civil_from_days (t / 86400)) as [[y m] d].
  case_match; [|done]. intros [= <-]. cbn. pose proof (Z.mod_pos_bound t 86400).
  split_and!; try lia; Z.div_mod_to_equations; lia.
Qed.

(** [timegm] inverts [gmtime_r]. *)
Lemma timegm_gmtime t b : gmtime_r t = Some b → timegm b = t.
Proof.
  unfold gmtime_r, timegm. pose proof (days_civil (t / 86400)) as Hd.
  destruct (civil_from_days (t / 86400)) as [[y m] d].
  case_match; [|done]. intros [= <-]. cbn [tm_year tm_mon tm_mday tm_hour tm_min tm_sec].
  replace (y - 1900 + 1900) with y by lia. replace (m - 1 + 1) with m by lia. rewrite Hd.
  clear. Z.div_mod_to_equations. lia.
Qed.

Example gmtime_ex : (fmt_tm14 <$> gmtime_r 1700000000) = Some (B "20231114221320").
Proof. by vm_compute. Qed.
Example gmtime_ex2 : (timegm <$> gmtime_r (-1234567)) = Some (-1234567).
Proof. by vm_compute. Qed.
Example strtoull_ex : strtoull 10 (B " -1x") = (2 ^ 64 - 1, Some (B "x")).
Proof. by vm_compute. Qed.

End CLib.
