(* ===== verification/Types.v ===== *)
(** * include/openps3ftp/openps3ftp.h and src/opftp.h: the shared structs

    Client and job objects live in heaps and are referred to by identifiers
    ([cid], [jid]), which stand for their addresses. *)

From S2P Require Import Prelude.

Local Open Scope Z_scope.

(** ** Open flags, stat and directory entries *)

Definition OPFTP_O_RDONLY : Z := 1.
Definition OPFTP_O_WRONLY : Z := 2.
Definition OPFTP_O_RDWR : Z := 3.
Definition OPFTP_O_CREAT : Z := 0x40.
Definition OPFTP_O_TRUNC : Z := 0x200.
Definition OPFTP_O_APPEND : Z := 0x400.

Definition has_flag (flags f : Z) : bool := negb (Z.land flags f =? 0).

Record opftp_stat := mk_stat
  { st_mode : Z; st_size : Z; st_mtime : Z; st_uid : Z; st_gid : Z }.

Record opftp_dirent := mk_dirent
  { de_name : bytes; de_mode : Z; de_size : Z; de_mtime : Z; de_uid : Z; de_gid : Z }.

(** ** Reply texts (src/opftp.h) *)

Definition R150 := B "Accepted data connection.".
Definition R200 := B "OK.".
Definition R202 := B "Already logged in.".
Definition R215 := B "UNIX Type: L8".
Definition R221 := B "Bye.".
Definition R226 := B "Transfer complete.".
Definition R250 := B "File operation successful.".
Definition R331 (user : bytes) := B "Username " ++ user ++ B " OK. Password required.".
Definition R350A := B "Ready for next command.".
Definition R421 := B "Closing control connection.".
Definition R425 := B "Cannot open data connection.".
Definition R426 := B "Connection closed; transfer aborted.".
Definition R450 := B "Another data transfer is already in progress.".
Definition R451 := B "Data transfer error (network).".
Definition R501 := B "Bad command syntax.".
Definition R502 := B "Command not implemented.".
Definition R503 := B "Bad command usage.".
Definition R504 := B "Parameter not accepted.".
Definition R530 := B "Not logged in.".
Definition R550 := B "Cannot access specified file or directory.".
Definition R554 := B "Invalid REST restart point.".

(** ** Socket addresses

    Addresses are raw network-order bytes: 4 for IPv4, 16 for IPv6.
    [SA_unspec] is the zeroed storage. *)

Inductive sockaddr :=
  | SA_unspec
  | SA_in (addr : bytes) (port : Z)
  | SA_in6 (addr : bytes) (port : Z).

#[global] Instance sockaddr_eq_dec : EqDecision sockaddr.
Proof. solve_decision. Defined.

Inductive family := AF_UNSPEC | AF_INET | AF_INET6.

#[global] Instance family_eq_dec : EqDecision family.
Proof. solve_decision. Defined.

Definition opftp_sockaddr_family (a : sockaddr) : family :=
  match a with
  | SA_unspec => AF_UNSPEC | SA_in _ _ => AF_INET | SA_in6 _ _ => AF_INET6
  end.

Definition v4mapped_prefix : bytes := replicate 10 NUL ++ [chr 255; chr 255].

(** [opftp_is_v4mapped] on the 16 address bytes. *)
Definition opftp_is_v4mapped (a : bytes) : bool := streq (take 12 a) v4mapped_prefix.

(** ** Clients and jobs *)

Definition cid := positive.
Definition jid := positive.

(** A TLS session as tls.c keeps it, next to the mbedtls context. *)
Record tls_session := mk_tls { t_fd : Z; t_deadline_ms : Z; t_pending : bytes }.
#[export] Instance tls_session_settable : Settable tls_session :=
  λ x, mk_tls (t_fd x) (t_deadline_ms x) (t_pending x).

Definition OPFTP_MAX_NAME : nat := 256.
Definition OPFTP_RBUF : nat := 4096.

Record opftp_client := mk_client {
  c_refs : Z;                     (* atomic_int *)
  c_generation : Z;
  c_fd : Z;
  c_peer : sockaddr;
  c_peerlen : Z;
  c_rbuf : bytes;                 (* the first [rlen] bytes of rbuf *)
  c_rpos : nat;
  c_logged_in : bool;
  c_disconnect_requested : bool;
  c_user : bytes;
  c_cwd : bytes;
  c_job : option jid;
  c_abor_pending : bool;
  c_rest : Z;
  c_rnfr : bytes;
  c_have_rnfr : bool;
  c_cpfr : bytes;
  c_have_cpfr : bool;
  c_tls : option tls_session;
  c_tls_handshaking : bool;
  c_tls_prot : Z;
  c_pasv_fd : Z;
  c_data_peer : sockaddr;
  c_data_peerlen : Z;
  c_have_data_peer : bool;
  c_poll_handle : Z
}.

#[export] Instance opftp_client_settable : Settable opftp_client := λ x,
  mk_client (c_refs x) (c_generation x) (c_fd x) (c_peer x) (c_peerlen x) (c_rbuf x)
    (c_rpos x) (c_logged_in x) (c_disconnect_requested x) (c_user x) (c_cwd x) (c_job x)
    (c_abor_pending x) (c_rest x) (c_rnfr x) (c_have_rnfr x) (c_cpfr x) (c_have_cpfr x)
    (c_tls x) (c_tls_handshaking x) (c_tls_prot x) (c_pasv_fd x) (c_data_peer x)
    (c_data_peerlen x) (c_have_data_peer x) (c_poll_handle x).

(** [c->rlen]. *)
Definition c_rlen (c : opftp_client) : nat := length (c_rbuf c).

Inductive opftp_job_op :=
  | OPFTP_JOB_LIST | OPFTP_JOB_STOR | OPFTP_JOB_APPE | OPFTP_JOB_RETR | OPFTP_JOB_COPY.

#[global] Instance opftp_job_op_eq_dec : EqDecision opftp_job_op.
Proof. solve_decision. Defined.

Record opftp_transfer_job := mk_job {
  j_client : cid;
  j_generation : Z;
  j_op : opftp_job_op;
  j_path : bytes;
  j_dst : bytes;
  j_rest : Z;
  j_nlst : bool;
  j_mlsd : bool;
  j_cancelled : bool;             (* atomic_bool *)
  j_cancel_pipe : Z * Z;
  j_data_fd : Z;
  j_need_tls : bool;
  j_tls : option tls_session;
  j_pasv_fd : Z;
  j_data_peer : sockaddr;
  j_data_peerlen : Z;
  j_have_data_peer : bool;
  j_ctl_peer : sockaddr;
  j_ctl_peerlen : Z;
  j_conn_ok : bool;
  j_bytes : Z;                    (* _Atomic uint64_t *)
  j_total : Z;
  j_result : res unit;            (* 0 or -errno *)
  j_final_bytes : Z;
  j_posted : bool
}.

#[export] Instance opftp_transfer_job_settable : Settable opftp_transfer_job := λ x,
  mk_job (j_client x) (j_generation x) (j_op x) (j_path x) (j_dst x) (j_rest x) (j_nlst x)
    (j_mlsd x) (j_cancelled x) (j_cancel_pipe x) (j_data_fd x) (j_need_tls x) (j_tls x)
    (j_pasv_fd x) (j_data_peer x) (j_data_peerlen x) (j_have_data_peer x) (j_ctl_peer x)
    (j_ctl_peerlen x) (j_conn_ok x) (j_bytes x) (j_total x) (j_result x) (j_final_bytes x)
    (j_posted x).
