(* ===== verification/Listing.v ===== *)
(** * src/listing.c and the timestamps of src/commands.c

    LIST and MLSD lines, mode strings, [parse_ftp_time]. [localtime_r]
    depends on the time zone and is a parameter. *)

From S2P Require Import Prelude CLib Types.
Import CLib.

Local Open Scope Z_scope.

Module Listing.

(** [opftp_mode_str]. *)
Definition rwx : bytes := B "rwxrwxrwx".

Definition mode_bit (mode : Z) (i : nat) (c : ascii) : ascii :=
  let bit := u16 (Z.shiftr 0x100 (Z.of_nat i)) in
  if negb (Z.land mode bit =? 0) then c else "-"%char.

Definition opftp_mode_str (mode : Z) : bytes :=
  (if is_dir mode then "d"%char else "-"%char) :: imap (mode_bit mode) rwx.

Definition MONTHS : list bytes :=
  [B "Jan"; B "Feb"; B "Mar"; B "Apr"; B "May"; B "Jun";
   B "Jul"; B "Aug"; B "Sep"; B "Oct"; B "Nov"; B "Dec"].

Section Format.
Context (localtime_r : Z → option tm).

(** The full text [opftp_listing_format] hands to snprintf. *)
Definition listing_text (de : opftp_dirent) (display_name : option bytes) : bytes :=
  let t := match localtime_r (de_mtime de) with
           | Some t => t
           | None => Build_tm 0 0 1 0 0 0
           end in
  let '(uid, gid) := if (de_uid de =? 0) && (de_gid de =? 0) then (1, 1)
                     else (de_uid de, de_gid de) in
  opftp_mode_str (de_mode de) ++ B " 1 " ++ fmt_u uid ++ B " " ++ fmt_u gid ++ B " "
  ++ fmt_pad 12 (de_size de) ++ B " "
  ++ default [] (MONTHS !! (if tm_mon t <? 12 then Z.to_nat (tm_mon t) else 0%nat)) ++ B " "
  ++ fmt_0d 2 (tm_mday t) ++ B " " ++ fmt_0d 2 (tm_hour t) ++ B ":" ++ fmt_0d 2 (tm_min t)
  ++ B " " ++ default (de_name de) display_name ++ CRLF.

(** [opftp_listing_format]: the return value and the buffer. *)
Definition opftp_listing_format (n : nat) (de : opftp_dirent) (display_name : option bytes)
  : Z * bytes :=
  let s := listing_text de display_name in (Z.of_nat (length s), bprintf n s).

End Format.

Definition mlsd_modify (mtime : Z) : bytes :=
  match gmtime_r mtime with
  | Some t => bprintf 16 (fmt_tm14 t)
  | None => B "19700101000000"
  end.

Definition mlsd_text (de : opftp_dirent) : bytes :=
  let dir := is_dir (de_mode de) in
  B "type=" ++ (if dir then B "dir" else B "file") ++ B ";size="
  ++ fmt_u (if dir then 0 else de_size de) ++ B ";modify=" ++ mlsd_modify (de_mtime de)
  ++ B ";perm=" ++ (if dir then B "eladfmp" else B "adfrw") ++ B "; " ++ de_name de ++ CRLF.

Definition opftp_listing_format_mlsd (n : nat) (de : opftp_dirent) : Z * bytes :=
  let s := mlsd_text de in (Z.of_nat (length s), bprintf n s).

(** [parse_ftp_time] (src/commands.c). *)
Definition digit_at (s : bytes) (i : nat) : Z :=
  match s !! i with Some c => cv c - 48 | None => - 48 end.

Definition isdigit_at (s : bytes) (i : nat) : bool :=
  match s !! i with Some c => isdigit c | None => false end.

Definition parse_ftp_time (s : bytes) : option Z :=
  if negb (forallb (isdigit_at s) (seq 0 14)) then None
  else
    let d := digit_at s in
    let yy := d 0%nat * 1000 + d 1%nat * 100 + d 2%nat * 10 + d 3%nat in
    let mm := d 4%nat * 10 + d 5%nat in
    let dd := d 6%nat * 10 + d 7%nat in
    let hh := d 8%nat * 10 + d 9%nat in
    let mi := d 10%nat * 10 + d 11%nat in
    let ss := d 12%nat * 10 + d 13%nat in
    if (mm <? 1) || (12 <? mm) || (dd <? 1) || (31 <? dd) || (23 <? hh) || (59 <? mi) || (59 <? ss)
    then None
    else
      let t := timegm (Build_tm (yy - 1900) (mm - 1) dd hh mi ss) in
      if t =? -1 then None else Some t.

(** ** Mode strings can be read back *)

Definition perm_value (s : bytes) : Z :=
  fold_left (λ acc c, acc * 2 + if ceq c "-" then 0 else 1) s 0.

Lemma mode_bit_mod m i c :
  (i < 9)%nat → mode_bit (m mod 512) i c = mode_bit m i c.
Proof.
  intros Hi. unfold mode_bit.
  assert (∃ k, 0 ≤ k < 9 ∧ u16 (Z.shiftr 256 (Z.of_nat i)) = 2 ^ k) as (k&Hk&->).
  { exists (8 - Z.of_nat i). split; [lia|].
    do 9 (destruct i as [|i]; [done|]). lia. }
  assert (Z.land (m mod 512) (2 ^ k) = Z.land m (2 ^ k)) as ->; [|done].
  apply Z.bits_inj'. intros n Hn. rewrite !Z.land_spec.
  destruct (Z.eq_dec n k) as [->|].
  - f_equal. change 512 with (2 ^ 9). apply Z.mod_pow2_bits_low. lia.
  - rewrite Z.pow2_bits_false by lia. by rewrite !andb_false_r.
Qed.

Lemma perm_value_small m :
  0 ≤ m < 512 → perm_value (imap (mode_bit m) rwx) = m.
Proof.
  intros H.
  assert (forallb (λ n, perm_value (imap (mode_bit (Z.of_nat n)) rwx) =? Z.of_nat n)
            (seq 0 512) = true) as Hall by (by vm_compute).
  rewrite forallb_forall in Hall. specialize (Hall (Z.to_nat m)).
  rewrite in_seq, Z2Nat.id in Hall by lia. apply Z.eqb_eq, Hall. lia.
Qed.

(** The ten characters of [opftp_mode_str] determine the directory flag
    and the nine permission bits, and nothing else of the mode. *)
Theorem mode_str_roundtrip mode :
  let s := opftp_mode_str mode in
  length s = 10%nat ∧
  (head s = Some "d"%char ↔ is_dir mode = true) ∧
  perm_value (tail s) = Z.land mode 0x1FF.
Proof.
  cbv zeta. split_and!; [done| |].
  - unfold opftp_mode_str. simpl. by destruct (is_dir mode).
  - unfold opftp_mode_str. cbn [tail].
    change 511 with (Z.ones 9). rewrite Z.land_ones by lia. change (2 ^ 9) with 512.
    rewrite <-(perm_value_small (mode mod 512)) by (apply Z.mod_pos_bound; lia).
    f_equal. apply imap_ext. intros i c Hi. symmetry. apply mode_bit_mod.
    apply lookup_lt_Some in Hi. done.
Qed.

(** ** Lines fit their buffers *)

(** A directory entry as the backends fill it: a name of at most 255 bytes
    and integer fields within their C types. *)
Definition wf_dirent (de : opftp_dirent) : Prop :=
  (length (de_name de) ≤ 255)%nat ∧ 0 ≤ de_mode de < 2 ^ 16 ∧ 0 ≤ de_size de < 2 ^ 64 ∧
  0 ≤ de_uid de < 2 ^ 32 ∧ 0 ≤ de_gid de < 2 ^ 32.

(** A broken-down time as [localtime_r] fills it. *)
Definition wf_tm (t : tm) : Prop :=
  0 ≤ tm_mon t < 12 ∧ 1 ≤ tm_mday t ≤ 31 ∧ 0 ≤ tm_hour t < 24 ∧ 0 ≤ tm_min t < 60.

Lemma fmt_u_u32 n : 0 ≤ n < 2 ^ 32 → (length (fmt_u n) ≤ 10)%nat.
Proof. intros. apply fmt_u_length; lia. Qed.

Lemma fmt_u_u64 n : 0 ≤ n < 2 ^ 64 → (length (fmt_u n) ≤ 20)%nat.
Proof. intros. apply fmt_u_length; lia. Qed.

Lemma fmt_0d_2_length n : 0 ≤ n < 100 → length (fmt_0d 2 n) = 2%nat.
Proof. intros. by rewrite fmt_0d_2. Qed.

Lemma months_length k : (length (default [] (MONTHS !! k)) ≤ 3)%nat.
Proof. do 12 (destruct k as [|k]; [simpl; lia|]). simpl. lia. Qed.

Lemma mode_str_length m : length (opftp_mode_str m) = 10%nat.
Proof. done. Qed.

Lemma fmt_pad_length w n : length (fmt_pad w n) = Nat.max w (length (fmt_u n)).
Proof. unfold fmt_pad. rewrite length_app, length_replicate. lia. Qed.

Lemma listing_text_length localtime_r de :
  wf_dirent de → (∀ t, localtime_r (de_mtime de) = Some t → wf_tm t) →
  (length (listing_text localtime_r de None) < 1024)%nat.
Proof.
  intros (Hn&_&Hs&Hu&Hg) Ht. unfold listing_text.
  set (t := match localtime_r (de_mtime de) with Some t => t | None => Build_tm 0 0 1 0 0 0 end).
  assert (wf_tm t) as (_&Hd&Hh&Hm).
  { unfold t. destruct (localtime_r _) eqn:E; [by apply Ht|]. repeat split; simpl; lia. }
  pose proof (fmt_u_u64 _ Hs). pose proof (fmt_u_u32 _ Hu). pose proof (fmt_u_u32 _ Hg).
  destruct (if (de_uid de =? 0) && (de_gid de =? 0) then (1, 1) else (de_uid de, de_gid de))
    as [uid gid] eqn:Eu.
  assert (length (fmt_u uid) ≤ 10 ∧ length (fmt_u gid) ≤ 10)%nat as [??].
  { destruct (_ && _); simplify_eq; [split; by vm_compute; lia|done]. }
  repeat rewrite length_app. rewrite mode_str_length, fmt_pad_length.
  rewrite !fmt_0d_2_length by lia.
  pose proof (months_length (if tm_mon t <? 12 then Z.to_nat (tm_mon t) else 0%nat)).
  cbn [B String.list_ascii_of_string length default CRLF] in *. lia.
Qed.

Lemma mlsd_modify_length t : (length (mlsd_modify t) ≤ 15)%nat.
Proof.
  unfold mlsd_modify. case_match; [|simpl; lia].
  unfold bprintf. rewrite length_take. lia.
Qed.

Lemma mlsd_text_length de : wf_dirent de → (length (mlsd_text de) < 1024)%nat.
Proof.
  intros (Hn&_&Hs&_). unfold mlsd_text. repeat rewrite length_app.
  pose proof (mlsd_modify_length (de_mtime de)).
  pose proof (fmt_u_u64 (if is_dir (de_mode de) then 0 else de_size de)) as Hz.
  assert (length (fmt_u (if is_dir (de_mode de) then 0 else de_size de)) ≤ 20)%nat
    by (apply Hz; case_match; lia).
  destruct (is_dir (de_mode de)); cbn [B String.list_ascii_of_string length CRLF] in *; lia.
Qed.

(** C21. A listing line is never truncated by the 1024-byte buffers of its
    callers: for every well-formed entry the value the formatters return is
    the length of what the buffer holds, and the line ends in CRLF, so the
    [memcpy] of the returned length reads only what was written. *)
Theorem listing_lines_fit localtime_r de :
  wf_dirent de → (∀ t, localtime_r (de_mtime de) = Some t → wf_tm t) →
  let '(n, line) := opftp_listing_format localtime_r 1024 de None in
  let '(m, mline) := opftp_listing_format_mlsd 1024 de in
  n = Z.of_nat (length line) ∧ n < 1024 ∧ (∃ s, line = s ++ CRLF) ∧
  m = Z.of_nat (length mline) ∧ m < 1024 ∧ (∃ s, mline = s ++ CRLF).
Proof.
  intros Hde Ht. unfold opftp_listing_format, opftp_listing_format_mlsd.
  pose proof (listing_text_length localtime_r de Hde Ht). pose proof (mlsd_text_length de Hde).
  rewrite !bprintf_short by done. split_and!; try lia.
  - unfold listing_text. destruct (_ && _); eexists; repeat rewrite app_assoc; reflexivity.
  - unfold mlsd_text. eexists. repeat rewrite app_assoc. reflexivity.
Qed.

Lemma listing_lines_fit_witness :
  let de := mk_dirent (B "file.txt") 33188 42 1700000000 0 0 in
  let '(n, line) := opftp_listing_format gmtime_r 1024 de None in
  let '(m, mline) := opftp_listing_format_mlsd 1024 de in
  n = Z.of_nat (length line) ∧ n < 1024 ∧ (∃ s, line = s ++ CRLF) ∧
  m = Z.of_nat (length mline) ∧ m < 1024 ∧ (∃ s, mline = s ++ CRLF).
Proof.
  apply (listing_lines_fit gmtime_r (mk_dirent (B "file.txt") 33188 42 1700000000 0 0)).
  - split_and!; vm_compute; try done; lia.
  - intros t Ht. vm_compute in Ht. injection Ht as <-. repeat split; by vm_compute.
Defined.

(** ** Timestamps *)

Lemma digit_at_digit s i d : s !! i = Some (digit d) → 0 ≤ d < 10 → digit_at s i = d.
Proof. intros H Hd. unfold digit_at. rewrite H, cv_digit by done. lia. Qed.

Lemma fmt_tm14_digits b :
  0 ≤ tm_year b + 1900 < 10000 → 0 ≤ tm_mon b < 12 → 1 ≤ tm_mday b ≤ 31 →
  0 ≤ tm_hour b < 24 → 0 ≤ tm_min b < 60 → 0 ≤ tm_sec b < 60 →
  let y := tm_year b + 1900 in
  fmt_tm14 b = digit <$>
    [y / 1000; y / 100 mod 10; y / 10 mod 10; y mod 10;
     (tm_mon b + 1) / 10; (tm_mon b + 1) mod 10; tm_mday b / 10; tm_mday b mod 10;
     tm_hour b / 10; tm_hour b mod 10; tm_min b / 10; tm_min b mod 10;
     tm_sec b / 10; tm_sec b mod 10].
Proof.
  intros. unfold fmt_tm14. rewrite fmt_0d_4, !fmt_0d_2 by lia. done.
Qed.

Lemma parse_fmt_tm14 b rest :
  0 ≤ tm_year b + 1900 < 10000 → 0 ≤ tm_mon b < 12 → 1 ≤ tm_mday b ≤ 31 →
  0 ≤ tm_hour b < 24 → 0 ≤ tm_min b < 60 → 0 ≤ tm_sec b < 60 → timegm b ≠ -1 →
  parse_ftp_time (fmt_tm14 b ++ rest) = Some (timegm b).
Proof.
  intros Hy Hmo Hd Hh Hmi Hs Ht. rewrite fmt_tm14_digits by done. cbv zeta.
  set (y := tm_year b + 1900) in *.
  unfold parse_ftp_time. cbn [fmap list_fmap app seq forallb isdigit_at lookup list_lookup].
  rewrite !isdigit_digit by (Z.div_mod_to_equations; lia). cbn [andb negb].
  unfold digit_at. cbn [fmap list_fmap app lookup list_lookup].
  rewrite !cv_digit by (Z.div_mod_to_equations; lia).
  replace ((48 + y / 1000 - 48) * 1000 + (48 + y / 100 mod 10 - 48) * 100 +
           (48 + y / 10 mod 10 - 48) * 10 + (48 + y mod 10 - 48)) with y
    by (Z.div_mod_to_equations; lia).
  replace ((48 + (tm_mon b + 1) / 10 - 48) * 10 + (48 + (tm_mon b + 1) mod 10 - 48))
    with (tm_mon b + 1) by (Z.div_mod_to_equations; lia).
  replace ((48 + tm_mday b / 10 - 48) * 10 + (48 + tm_mday b mod 10 - 48))
    with (tm_mday b) by (Z.div_mod_to_equations; lia).
  replace ((48 + tm_hour b / 10 - 48) * 10 + (48 + tm_hour b mod 10 - 48))
    with (tm_hour b) by (Z.div_mod_to_equations; lia).
  replace ((48 + tm_min b / 10 - 48) * 10 + (48 + tm_min b mod 10 - 48))
    with (tm_min b) by (Z.div_mod_to_equations; lia).
  replace ((48 + tm_sec b / 10 - 48) * 10 + (48 + tm_sec b mod 10 - 48))
    with (tm_sec b) by (Z.div_mod_to_equations; lia).
  ztests. replace (y - 1900) with (tm_year b) by lia.
  replace (tm_mon b + 1 - 1) with (tm_mon b) by lia.
  replace (Build_tm _ _ _ _ _ _) with b by (by destruct b).
  by rewrite (proj2 (Z.eqb_neq _ _) Ht).
Qed.

(** Timestamps round trip: the 14 digits MDTM and MLSD print for a time
    of the years 0 to 9999 are parsed by MFMT and SITE UTIME back to the same
    time, whatever follows them; the one exception is the second before the
    epoch, which the code reserves as an error value. *)
Theorem ftp_time_roundtrip t b rest :
  gmtime_r t = Some b → 0 ≤ tm_year b + 1900 < 10000 → t ≠ -1 →
  parse_ftp_time (fmt_tm14 b ++ rest) = Some t.
Proof.
  intros Hg Hy Ht. pose proof (timegm_gmtime t b Hg) as Hb.
  destruct (gmtime_ranges t b Hg) as (?&?&?&?&?).
  rewrite parse_fmt_tm14; [by rewrite Hb|done..|by rewrite Hb].
Qed.

Lemma ftp_time_roundtrip_witness :
  parse_ftp_time (fmt_tm14 (Build_tm 123 10 14 22 13 20) ++ B " /f") = Some 1700000000.
Proof.
  apply (ftp_time_roundtrip 1700000000 (Build_tm 123 10 14 22 13 20)); by vm_compute.
Defined.

End Listing.
