(* ===== verification/FsIface.v ===== *)
(** * The filesystem backend interface (struct opftp_fs)

    [FsOps] is the vtable a base backend fills in (include/openps3ftp/
    openps3ftp.h): one operation per function pointer, on a backend state.
    [Err e] stands for the -1 return with [errno = e]. The C library's
    [realpath], which the rooted wrapper calls beside the backend, belongs to
    the same machine state and is an operation here too.

    The code that calls a backend sees [errno] as a variable: [FsM] is the
    state monad over the backend and [errno], [fs_lift] turns an operation of
    the vtable into it. [Logged] instruments a backend with the list of paths
    it is asked to act on, which is how containment is stated. *)

From S2P Require Import Prelude Types.

Local Open Scope Z_scope.

(** ** The state monad of the development *)

Definition ST (S A : Type) : Type := S → A * S.

#[export] Instance ST_ret S : MRet (ST S) := λ _ a s, (a, s).
#[export] Instance ST_bind S : MBind (ST S) := λ _ _ k m s,
  let '(a, s') := m s in k a s'.

Definition st_get {S} : ST S S := λ s, (s, s).
Definition st_put {S} (s : S) : ST S () := λ _, ((), s).
Definition st_modify {S} (f : S → S) : ST S () := λ s, ((), f s).
Definition st_gets {S A} (f : S → A) : ST S A := λ s, (f s, s).

Lemma ST_bind_eq {S A B} (m : ST S A) (k : A → ST S B) s :
  (m ≫= k) s = let '(a, s') := m s in k a s'.
Proof. done. Qed.

(** ** The backend vtable *)

Inductive whence := SEEK_SET | SEEK_CUR | SEEK_END.

Definition dirh := positive.

Class FsOps (FS : Type) := {
  fs_open : bytes → Z → Z → FS → res Z * FS;
  fs_close : Z → FS → res () * FS;
  fs_read : Z → nat → FS → res bytes * FS;
  fs_write : Z → bytes → FS → res nat * FS;
  fs_seek : Z → Z → whence → FS → res Z * FS;
  fs_fstat : Z → FS → res opftp_stat * FS;
  fs_stat : bytes → FS → res opftp_stat * FS;
  fs_opendir : bytes → FS → res dirh * FS;
  fs_readdir : dirh → FS → res (option opftp_dirent) * FS;
  fs_closedir : dirh → FS → res () * FS;
  fs_mkdir : bytes → Z → FS → res () * FS;
  fs_rmdir : bytes → FS → res () * FS;
  fs_unlink : bytes → FS → res () * FS;
  fs_rename : bytes → bytes → FS → res () * FS;
  fs_chmod : bytes → Z → FS → res () * FS;
  fs_utimes : bytes → Z → FS → res () * FS;
  fs_realpath : bytes → FS → res bytes * FS;
  (** How many entries a directory stream has left. *)
  fs_dir_left : dirh → FS → nat
}.

(** What the callers of [readdir] rely on to terminate: in a well-formed
    backend a stream that yields an entry gets shorter. *)
Class FsDirLaws (FS : Type) `{FsOps FS} := {
  fs_wf : FS → Prop;
  readdir_wf d fs r fs' : fs_wf fs → fs_readdir d fs = (r, fs') → fs_wf fs';
  readdir_progress d fs de fs' :
    fs_wf fs → fs_readdir d fs = (Ok (Some de), fs') →
    (fs_dir_left d fs' < fs_dir_left d fs)%nat
}.

(** ** Calls with errno *)

Abbreviation FsM FS A := (ST (FS * errno) (option A)).

Definition fs_lift {FS A} (op : FS → res A * FS) : FsM FS A := λ '(fs, e),
  match op fs with
  | (Ok a, fs') => (Some a, (fs', e))
  | (Err e', fs') => (None, (fs', e'))
  end.

Definition set_errno {FS} (e : errno) : ST (FS * errno) () := λ '(fs, _), ((), (fs, e)).
Definition get_errno {FS} : ST (FS * errno) errno := λ '(fs, e), (e, (fs, e)).

(** ** The instrumented backend *)

Record Logged (FS : Type) := mk_logged { lg_fs : FS; lg_paths : list bytes }.
Arguments mk_logged {_}.
Arguments lg_fs {_}.
Arguments lg_paths {_}.

Section Logged.
Context {FS : Type} `{FsOps FS}.

(** Run an operation of the backend and record the paths [ps] it is given. *)
Definition lg_run {A} (ps : list bytes) (op : FS → A * FS) (l : Logged FS)
  : A * Logged FS :=
  let '(r, fs') := op (lg_fs l) in (r, mk_logged fs' (lg_paths l ++ ps)).

#[export] Instance FsOps_Logged : FsOps (Logged FS) := {
  fs_open p fl m := lg_run [p] (fs_open p fl m);
  fs_close fd := lg_run [] (fs_close fd);
  fs_read fd n := lg_run [] (fs_read fd n);
  fs_write fd b := lg_run [] (fs_write fd b);
  fs_seek fd o w := lg_run [] (fs_seek fd o w);
  fs_fstat fd := lg_run [] (fs_fstat fd);
  fs_stat p := lg_run [p] (fs_stat p);
  fs_opendir p := lg_run [p] (fs_opendir p);
  fs_readdir d := lg_run [] (fs_readdir d);
  fs_closedir d := lg_run [] (fs_closedir d);
  fs_mkdir p m := lg_run [p] (fs_mkdir p m);
  fs_rmdir p := lg_run [p] (fs_rmdir p);
  fs_unlink p := lg_run [p] (fs_unlink p);
  fs_rename a b := lg_run [a; b] (fs_rename a b);
  fs_chmod p m := lg_run [p] (fs_chmod p m);
  fs_utimes p t := lg_run [p] (fs_utimes p t);
  (* realpath only inspects; it is not an access of the backend *)
  fs_realpath p := lg_run [] (fs_realpath p);
  fs_dir_left d l := fs_dir_left d (lg_fs l)
}.

#[export] Program Instance FsDirLaws_Logged `{!FsDirLaws FS} : FsDirLaws (Logged FS) := {|
  fs_wf l := fs_wf (lg_fs l)
|}.
Next Obligation.
  intros ? d [fs ps] r l' Hwf. cbn. unfold lg_run. cbn.
  destruct (fs_readdir d fs) as [r' fs'] eqn:E. intros [= -> <-]. by eapply readdir_wf.
Qed.
Next Obligation.
  intros ? d [fs ps] de l' Hwf. cbn. unfold lg_run. cbn.
  destruct (fs_readdir d fs) as [r fs'] eqn:E.
  intros [= -> <-]. by eapply readdir_progress.
Qed.

End Logged.

(** A backend on which every operation but [realpath] is refused. *)
Definition refuse {A} : () → res A * () := λ u, (Err ENOSYS, u).

Definition refuse_ops (rp : bytes → res bytes) : FsOps () := {|
  fs_open _ _ _ := refuse; fs_close _ := refuse; fs_read _ _ := refuse;
  fs_write _ _ := refuse; fs_seek _ _ _ := refuse; fs_fstat _ := refuse;
  fs_stat _ := refuse; fs_opendir _ := refuse; fs_readdir _ := refuse;
  fs_closedir _ := refuse; fs_mkdir _ _ := refuse; fs_rmdir _ := refuse;
  fs_unlink _ := refuse; fs_rename _ _ := refuse; fs_chmod _ _ := refuse;
  fs_utimes _ _ := refuse; fs_realpath p u := (rp p, u); fs_dir_left _ _ := 0%nat
|}.
