(* ===== verification/FsRooted.v ===== *)
(** * src/fs_rooted.c: the per-server rooted filesystem wrapper

    [rooted] is [struct rooted] without the base pointer (the base backend is
    the [FsOps] instance in scope). Every [r_*] function is an [FsM] action;
    the theorems say which paths reach the base backend. *)

From S2P Require Import Prelude Types Resolve FsIface.
Import Resolve.

Local Open Scope Z_scope.

Module FsRooted.

Record rooted := mk_rooted { r_root : bytes; r_check_realpath : bool }.

(** [under_root]. *)
Definition under_root (r : rooted) (path : bytes) : bool :=
  let rl := length (r_root r) in
  if negb (strneq path (r_root r) rl) then false
  else if (rl =? 1)%nat then bool_decide (head path = Some SLASH)
  else match path !! rl with
       | None => true
       | Some c => ceq c SLASH
       end.

Section Base.
Context {FS : Type} `{FsOps FS}.

(** The walk of [realpath_contained] to the nearest existing ancestor. *)
Fixpoint probe_loop (fuel : nat) (r : rooted) (path probe : bytes)
  : ST (FS * errno) bool :=
  match fuel with
  | O => mret false
  | S f =>
     match opftp_path_parent probe OPFTP_MAX_PATH with
     | None => mret false
     | Some [] => mret (under_root r path)
     | Some parent =>
        res ← fs_lift (fs_realpath parent);
        match res with
        | Some resolved => mret (under_root r resolved)
        | None =>
           e ← get_errno;
           if bool_decide (e ≠ ENOENT) then mret false
           else probe_loop f r path (bprintf OPFTP_MAX_PATH parent)
        end
     end
  end.

Definition realpath_contained (r : rooted) (path : bytes) : ST (FS * errno) bool :=
  res ← fs_lift (fs_realpath path);
  match res with
  | Some resolved => mret (under_root r resolved)
  | None =>
     e ← get_errno;
     if bool_decide (e = ENOENT)
     then let probe := bprintf OPFTP_MAX_PATH path in
          probe_loop (S (length probe)) r path probe
     else mret false
  end.

Definition check (r : rooted) (path : bytes) : ST (FS * errno) bool :=
  if negb (under_root r path) then _ ← set_errno EACCES; mret false
  else if r_check_realpath r then
    ok ← realpath_contained r path;
    if (ok : bool) then mret true
    else
      e ← get_errno;
      _ ← (if bool_decide (e ≠ ENOENT) then set_errno EACCES else mret ());
      mret false
  else mret true.

(** The shape of every path operation: [if (!check(r, path)) return -1;]
    then the base operation. *)
Definition guarded {A} (r : rooted) (path : bytes) (op : FS → res A * FS) : FsM FS A :=
  ok ← check r path;
  if (ok : bool) then fs_lift op else mret None.

Definition r_open r path flags mode := guarded r path (fs_open path flags mode).
Definition r_close (r : rooted) fd : FsM FS () := fs_lift (fs_close fd).
Definition r_read (r : rooted) fd n : FsM FS bytes := fs_lift (fs_read fd n).
Definition r_write (r : rooted) fd b : FsM FS nat := fs_lift (fs_write fd b).
Definition r_seek (r : rooted) fd off w : FsM FS Z := fs_lift (fs_seek fd off w).
Definition r_fstat (r : rooted) fd : FsM FS opftp_stat := fs_lift (fs_fstat fd).
Definition r_stat r path := guarded r path (fs_stat path).
Definition r_opendir r path := guarded r path (fs_opendir path).
Definition r_readdir (r : rooted) d : FsM FS (option opftp_dirent) := fs_lift (fs_readdir d).
Definition r_closedir (r : rooted) d : FsM FS () := fs_lift (fs_closedir d).
Definition r_mkdir r path mode := guarded r path (fs_mkdir path mode).
Definition r_rmdir r path := guarded r path (fs_rmdir path).
Definition r_unlink r path := guarded r path (fs_unlink path).
Definition r_rename (r : rooted) (a b : bytes) : FsM FS () :=
  oka ← check r a;
  okb ← (if (oka : bool) then check r b else mret false);
  if (okb : bool) then fs_lift (fs_rename a b)
  else _ ← set_errno EACCES; mret None.
Definition r_chmod r path mode := guarded r path (fs_chmod path mode).
Definition r_utimes r path mtime := guarded r path (fs_utimes path mtime).

End Base.

(** The trailing-slash loop of [opftp_fs_rooted]. *)
Fixpoint strip_slashes (fuel : nat) (root : bytes) : bytes :=
  match fuel with
  | O => root
  | S f =>
     if (1 <? length root)%nat && bool_decide (last root = Some SLASH)
     then strip_slashes f (take (length root - 1) root) else root
  end.

(** [opftp_fs_rooted]; [posix] is [base == &opftp_fs_posix]. *)
Definition opftp_fs_rooted (posix : bool) (root : bytes) : option rooted :=
  if negb (bool_decide (head root = Some SLASH)) then None
  else
    let r0 := bprintf OPFTP_MAX_PATH root in
    Some (mk_rooted (strip_slashes (length r0) r0) posix).
(** ** Textual containment is containment of directories *)

Lemma strneq_prefix p r : strneq p r (length r) = true ↔ ∃ k, p = r ++ k.
Proof.
  unfold strneq. rewrite streq_true, firstn_all. split.
  - intros E. exists (drop (length r) p). by rewrite <-E at 1; rewrite take_drop.
  - intros [k ->]. apply take_app_length.
Qed.

Lemma join_prefix_inv rs : ∀ ps k,
  Forall good rs → Forall good ps → join ps = join rs ++ k →
  (k = [] ∨ ∃ k', k = SLASH :: k') → ∃ st, ps = rs ++ st ∧ k = join st.
Proof.
  induction rs as [|r rs IH]; intros ps k Hrs Hps E Hk; [by exists ps|].
  apply Forall_cons_1 in Hrs as [Hr Hrs].
  destruct ps as [|p ps]; [done|]. apply Forall_cons_1 in Hps as [Hp Hps].
  unfold join in E. cbn [fmap list_fmap concat] in E. injection E as E.
  fold (join ps) (join rs) in E. rewrite <-app_assoc in E.
  assert (p = r ∧ join ps = join rs ++ k) as [-> E'].
  { assert (scan_comp (p ++ join ps) = (p, join ps)) as H1.
    { apply scan_comp_app; [apply Hp|]. destruct ps; [by left|right; by eexists]. }
    assert (scan_comp (r ++ join rs ++ k) = (r, join rs ++ k)) as H2.
    { apply scan_comp_app; [apply Hr|]. destruct rs; [|right; by eexists].
      destruct Hk as [->|[k' ->]]; [by left|right; by eexists]. }
    rewrite E, H2 in H1. by simplify_eq. }
  destruct (IH ps k Hrs Hps E' Hk) as (st & -> & ->). by exists st.
Qed.

Lemma render_join rs : rs ≠ [] → render rs = join rs.
Proof. by destruct rs. Qed.

Lemma render_head ps : head (render ps) = Some SLASH.
Proof. by destruct ps. Qed.

Lemma render_inj ps qs : Forall good ps → Forall good qs → render ps = render qs → ps = qs.
Proof.
  intros Hps Hqs E. destruct qs as [|q qs].
  - destruct ps as [|p ps]; [done|]. rewrite (render_join (p :: ps)) in E by done.
    pose proof (join_length_2 p ps (Forall_inv Hps)) as Hl. rewrite E in Hl. cbn in Hl. lia.
  - destruct ps as [|p ps].
    { rewrite (render_join (q :: qs)) in E by done.
      pose proof (join_length_2 q qs (Forall_inv Hqs)) as Hl. rewrite <-E in Hl. cbn in Hl. lia. }
    rewrite !render_join in E by done.
    destruct (join_prefix_inv (q :: qs) (p :: ps) []) as (st & -> & Hst); [done..|by rewrite app_nil_r|by left|].
    destruct st; [by rewrite app_nil_r|done].
Qed.

Lemma under_root_prefix rs ps b :
  Forall good rs → Forall good ps →
  under_root (mk_rooted (render rs) b) (render ps) = true ↔ rs `prefix_of` ps.
Proof.
  intros Hrs Hps. unfold under_root. cbn [r_root].
  destruct rs as [|r rs].
  { cbn [render B String.list_ascii_of_string length]. unfold strneq.
    replace (take 1 (render ps)) with [SLASH] by (by destruct ps).
    rewrite streq_refl. cbn. rewrite render_head, bool_decide_true by done.
    split; [intros _; apply prefix_nil|done]. }
  rewrite (render_join (r :: rs)) by done. pose proof (join_length_2 r rs (Forall_inv Hrs)) as H2.
  rewrite (proj2 (Nat.eqb_neq (length (join (r :: rs))) 1)) by lia.
  split.
  - destruct (strneq _ _ _) eqn:E; [|done]. cbn [negb]. apply strneq_prefix in E as [k E].
    intros Hk. rewrite E in Hk. rewrite lookup_app_r, Nat.sub_diag in Hk by lia.
    destruct ps as [|p ps].
    { apply (f_equal length) in E. rewrite length_app in E. change (length (render [])) with 1%nat in E. lia. }
    destruct (join_prefix_inv (r :: rs) (p :: ps) k) as (st & -> & _); [done..| |by exists st].
    destruct k as [|c k]; [by left|]. cbn in Hk. btests. subst. right. by eexists.
  - intros [st ->]. rewrite render_join by done. rewrite join_app.
    rewrite (proj2 (strneq_prefix _ _)) by (by eexists). cbn [negb].
    rewrite lookup_app_r, Nat.sub_diag by lia. by destruct st.
Qed.

(** The wrapper's textual check is containment of directories: for a
    canonical root and a canonical path, [under_root] accepts the path exactly
    when the root's components are a prefix of the path's components, so
    neither a sibling such as [/srvx] nor a shorter path passes for [/srv]. *)
Theorem under_root_iff_inside rs ps b :
  Forall good rs → Forall good ps →
  under_root (mk_rooted (render rs) b) (render ps) = true ↔ rs `prefix_of` ps.
Proof. apply under_root_prefix. Qed.

Lemma under_root_iff_inside_witness :
  under_root (mk_rooted (B "/srv") true) (B "/srv/a") = true ↔ [B "srv"] `prefix_of` [B "srv"; B "a"].
Proof. apply (under_root_iff_inside [B "srv"] [B "srv"; B "a"]); concrete. Defined.

(** ** What reaches the base backend *)

(** [p] names the directory [rs] or something below it: its components are
    those of [rs] and then plain names, no [.] or [..] among them. *)
Definition inside (rs : list bytes) (p : bytes) : Prop :=
  ∃ st, Forall plain st ∧ p = render (rs ++ st).

Lemma under_root_inside rs b p :
  Forall plain rs → canonical p → under_root (mk_rooted (render rs) b) p = true ↔ inside rs p.
Proof.
  intros Hrs (ps & Hps & ->). rewrite under_root_prefix by (by apply Forall_plain_good). split.
  - intros [st ->]. apply Forall_app in Hps as [_ Hst]. by exists st.
  - intros (st & Hst & E). exists st.
    apply render_inj; [by apply Forall_plain_good| |done]. apply Forall_plain_good. by apply Forall_app.
Qed.

(** An action on the instrumented backend only adds paths that satisfy [P]. *)
Definition logs {FS A} (P : bytes → Prop) (m : ST (Logged FS * errno) A) : Prop :=
  ∀ l e, ∃ ps, Forall P ps ∧ lg_paths (m (l, e)).2.1 = lg_paths l ++ ps.

Section Logs.
Context {FS : Type} `{FsOps FS}.

Lemma logs_mono {A} (P Q : bytes → Prop) (m : ST (Logged FS * errno) A) :
  (∀ p, P p → Q p) → logs P m → logs Q m.
Proof.
  intros HPQ Hm l e. destruct (Hm l e) as (ps & Hps & E). exists ps. split; [|done].
  eapply Forall_impl; [exact Hps|exact HPQ].
Qed.

Section Rules.
Context (P : bytes → Prop).

Lemma logs_ret {A} (a : A) : logs (FS:=FS) P (mret a).
Proof. intros l e. exists []. split; [constructor|by rewrite app_nil_r]. Qed.

Lemma logs_bind {A B} (m : ST (Logged FS * errno) A) (k : A → ST (Logged FS * errno) B) :
  logs P m → (∀ a, logs P (k a)) → logs P (m ≫= k).
Proof.
  intros Hm Hk l e. rewrite ST_bind_eq. destruct (Hm l e) as (ps & Hps & E).
  destruct (m (l, e)) as [a [l' e']]. cbn [fst snd] in *.
  destruct (Hk a l' e') as (qs & Hqs & E'). exists (ps ++ qs).
  split; [by apply Forall_app|]. by rewrite E', E, app_assoc.
Qed.

Lemma logs_get_errno : logs (FS:=FS) P get_errno.
Proof. intros l e. exists []. split; [constructor|by rewrite app_nil_r]. Qed.

Lemma logs_set_errno e' : logs (FS:=FS) P (set_errno e').
Proof. intros l e. exists []. split; [constructor|by rewrite app_nil_r]. Qed.

Lemma logs_lift {A} ps (op : FS → res A * FS) :
  Forall P ps → logs P (fs_lift (lg_run ps op)).
Proof.
  intros Hps l e. exists ps. split; [done|]. unfold fs_lift, lg_run.
  destruct (op (lg_fs l)) as [[a|e'] fs']; done.
Qed.

Hint Resolve logs_ret logs_get_errno logs_set_errno logs_lift Forall_nil_2 : opftp.

Ltac logs_steps :=
  repeat first
    [ progress intros
    | match goal with
      | |- logs _ (_ ≫= _) => apply logs_bind
      | |- logs _ (match ?x with _ => _ end) => destruct x
      | |- logs _ (fs_lift _) => apply (logs_lift []), Forall_nil_2
      end
    | solve [eauto 2 with opftp nocore] ].

Lemma logs_probe r f path probe : logs (FS:=FS) P (probe_loop f r path probe).
Proof. revert probe. induction f as [|f IH]; intros probe; cbn [probe_loop]; logs_steps. Qed.
Hint Resolve logs_probe : opftp.

(** The containment checks do not act on the backend. *)
Lemma logs_check r path : logs (FS:=FS) P (check r path).
Proof. unfold check, realpath_contained. logs_steps. Qed.

End Rules.

(** The base operation runs only when the textual check passed. *)
Lemma check_true {G} `{FsOps G} r path (s s' : G * errno) :
  check r path s = (true, s') → under_root r path = true.
Proof.
  unfold check. destruct (under_root r path); [done|]. cbn [negb].
  destruct s. by intros [= ].
Qed.

Lemma logs_guarded {A} r path (op : FS → res A * FS) :
  logs (λ q, q = path ∧ under_root r q = true) (guarded r path (lg_run [path] op)).
Proof.
  intros l e. unfold guarded. rewrite ST_bind_eq.
  destruct (logs_check (λ q, q = path ∧ under_root r q = true) r path l e) as (ps & Hps & E).
  destruct (check r path (l, e)) as [ok [l' e']] eqn:Ec. cbn [fst snd] in *.
  destruct ok; [|by exists ps]. pose proof (check_true _ _ _ _ Ec) as Hu.
  destruct (logs_lift (λ q, q = path ∧ under_root r q = true) [path] op) with (l:=l') (e:=e')
    as (qs & Hqs & E'); [by constructor|].
  exists (ps ++ qs). split; [by apply Forall_app|]. by rewrite E', E, app_assoc.
Qed.

Lemma logs_rename r a b :
  logs (FS:=FS) (λ q, (q = a ∨ q = b) ∧ under_root r q = true) (r_rename r a b).
Proof.
  set (P := λ q, (q = a ∨ q = b) ∧ under_root r q = true).
  intros l e. unfold r_rename. rewrite ST_bind_eq.
  destruct (logs_check P r a l e) as (ps & Hps & E).
  destruct (check r a (l, e)) as [oka [l1 e1]] eqn:Ea. cbn [fst snd] in *.
  rewrite ST_bind_eq. destruct oka; [|by exists ps].
  destruct (logs_check P r b l1 e1) as (qs & Hqs & E').
  destruct (check r b (l1, e1)) as [okb [l2 e2]] eqn:Eb. cbn [fst snd] in *.
  destruct okb.
  2:{ exists (ps ++ qs). split; [by apply Forall_app|].
      change (lg_paths l2 = lg_paths l ++ ps ++ qs). by rewrite E', E, app_assoc. }
  pose proof (check_true _ _ _ _ Ea) as Ha. pose proof (check_true _ _ _ _ Eb) as Hb.
  destruct (logs_lift P [a; b] (fs_rename a b)) with (l:=l2) (e:=e2) as (ws & Hws & E'').
  { constructor; [by split; [left|]|]. constructor; [by split; [right|]|constructor]. }
  exists ((ps ++ qs) ++ ws). split; [by repeat apply Forall_app_2|].
  change (fs_rename (FS:=Logged FS) a b) with (lg_run [a; b] (fs_rename (FS:=FS) a b)).
  by rewrite E'', E', E, !app_assoc.
Qed.

End Logs.

(** The calls a client of the wrapper can make. *)
Inductive rop :=
  | ROpen (path : bytes) (flags mode : Z) | RClose (fd : Z) | RRead (fd : Z) (n : nat)
  | RWrite (fd : Z) (b : bytes) | RSeek (fd off : Z) (w : whence) | RFstat (fd : Z)
  | RStat (path : bytes) | ROpendir (path : bytes) | RReaddir (d : dirh) | RClosedir (d : dirh)
  | RMkdir (path : bytes) (mode : Z) | RRmdir (path : bytes) | RUnlink (path : bytes)
  | RRename (a b : bytes) | RChmod (path : bytes) (mode : Z) | RUtimes (path : bytes) (t : Z).

Definition ignore {S A} (m : ST S A) : ST S () := _ ← m; mret ().

Definition rop_run {FS} `{FsOps FS} (r : rooted) (o : rop) : ST (FS * errno) () :=
  match o with
  | ROpen p f m => ignore (r_open r p f m) | RClose fd => ignore (r_close r fd)
  | RRead fd n => ignore (r_read r fd n) | RWrite fd b => ignore (r_write r fd b)
  | RSeek fd o w => ignore (r_seek r fd o w) | RFstat fd => ignore (r_fstat r fd)
  | RStat p => ignore (r_stat r p) | ROpendir p => ignore (r_opendir r p)
  | RReaddir d => ignore (r_readdir r d) | RClosedir d => ignore (r_closedir r d)
  | RMkdir p m => ignore (r_mkdir r p m) | RRmdir p => ignore (r_rmdir r p)
  | RUnlink p => ignore (r_unlink r p) | RRename a b => ignore (r_rename r a b)
  | RChmod p m => ignore (r_chmod r p m) | RUtimes p t => ignore (r_utimes r p t)
  end.

Fixpoint rops_run {FS} `{FsOps FS} (r : rooted) (os : list rop) : ST (FS * errno) () :=
  match os with
  | [] => mret ()
  | o :: os' => _ ← rop_run r o; rops_run r os'
  end.

(** The paths a call names. *)
Definition op_paths (o : rop) : list bytes :=
  match o with
  | ROpen p _ _ | RStat p | ROpendir p | RMkdir p _ | RRmdir p | RUnlink p
  | RChmod p _ | RUtimes p _ => [p]
  | RRename a b => [a; b]
  | RClose _ | RRead _ _ | RWrite _ _ | RSeek _ _ _ | RFstat _ | RReaddir _ | RClosedir _ => []
  end.

Lemma logs_rop {FS} `{FsOps FS} r o :
  logs (FS:=FS) (λ p, p ∈ op_paths o ∧ under_root r p = true) (rop_run r o).
Proof.
  destruct o; unfold rop_run, ignore; apply logs_bind; try (intros; apply logs_ret);
    first [ eapply logs_mono; [|apply logs_rename]; intros p [[->| ->] ?]; set_solver
          | eapply logs_mono; [|apply logs_guarded]; intros p [-> ?]; set_solver
          | apply logs_lift, Forall_nil_2 ].
Qed.

(** The wrapper made for a canonical root keeps it as it is. *)
Lemma rooted_canonical posix rs :
  Forall plain rs → (length (render rs) < OPFTP_MAX_PATH)%nat →
  opftp_fs_rooted posix (render rs) = Some (mk_rooted (render rs) posix).
Proof.
  intros Hrs Hl. unfold opftp_fs_rooted. rewrite render_head, bool_decide_true by done. cbn [negb].
  rewrite bprintf_short by done. do 2 f_equal.
  destruct (length (render rs)) as [|n] eqn:En; [done|]. cbn [strip_slashes]. rewrite En.
  destruct (Nat.ltb_spec 1 (S n)); [|done]. rewrite bool_decide_false; [done|].
  destruct rs as [|c rs _] using rev_ind; [cbn in En; lia|].
  apply Forall_app in Hrs as [_ [[[Hne Hc] _] _]%Forall_cons_1].
  rewrite render_join by (by destruct rs). rewrite join_app.
  destruct c as [|x c _] using rev_ind; [done|].
  unfold join at 2. cbn [fmap list_fmap concat]. rewrite app_nil_r, app_comm_cons, app_assoc, last_snoc.
  intros [= ->]. set_solver.
Qed.

Lemma lift_logged {FS A} ps (op : FS → res A * FS) (l : Logged FS) e :
  lg_paths (fs_lift (lg_run ps op) (l, e)).2.1 = lg_paths l ++ ps.
Proof. unfold fs_lift, lg_run. by destruct (op (lg_fs l)) as [[a|e'] fs']. Qed.

Lemma check_passes {FS} `{FsOps FS} r path (s : FS * errno) :
  r_check_realpath r = false → under_root r path = true → check r path s = (true, s).
Proof. intros Hr Hu. unfold check. by rewrite Hu, Hr. Qed.

Lemma ignore_state {S A} (m : ST S A) s : (ignore m s).2 = (m s).2.
Proof. unfold ignore. rewrite ST_bind_eq. by destruct (m s). Qed.

(** Without the check of links, a call on paths inside the root is passed on. *)
Lemma rop_passed {FS} `{FsOps FS} r o (fs : FS) l e :
  r_check_realpath r = false → Forall (λ p, under_root r p = true) (op_paths o) →
  lg_paths (rop_run r o (mk_logged fs l, e)).2.1 = l ++ op_paths o.
Proof.
  intros Hr Hu. destruct o; unfold rop_run; rewrite ignore_state; cbn [op_paths] in *;
    try (apply lift_logged);
    unfold r_open, r_stat, r_opendir, r_mkdir, r_rmdir, r_unlink, r_chmod, r_utimes, r_rename, guarded;
    apply Forall_cons_1 in Hu as [Hp Hu];
    rewrite ST_bind_eq, check_passes by done; try (apply lift_logged).
  apply Forall_cons_1 in Hu as [Hb _].
  rewrite ST_bind_eq, check_passes by done. apply lift_logged.
Qed.

(** C5. A server that serves a canonical directory cannot be made to leave it:
    whatever backend is wrapped and whatever calls are made on canonical
    paths, as the resolver produces them, every path the backend is asked to
    act on is the root or the root followed by plain names (no [..]), both
    paths of a rename included; a sibling such as [/srvx] of [/srv] is never
    passed on. On a backend without symbolic links no call on paths inside the
    root is held back. *)
Theorem rooted_calls_contained {FS} `{FsOps FS} posix rs r os (fs : FS) e :
  Forall plain rs → (length (render rs) < OPFTP_MAX_PATH)%nat →
  opftp_fs_rooted posix (render rs) = Some r →
  Forall (λ o, Forall canonical (op_paths o)) os →
  Forall (inside rs) (lg_paths (rops_run r os (mk_logged fs [], e)).2.1) ∧
  (posix = false → ∀ o (fs' : FS) l e', Forall (inside rs) (op_paths o) →
     lg_paths (rop_run r o (mk_logged fs' l, e')).2.1 = l ++ op_paths o).
Proof.
  intros Hrs Hl Hr Hos. rewrite rooted_canonical in Hr by done. injection Hr as <-. split.
  - assert (logs (FS:=FS) (inside rs) (rops_run (mk_rooted (render rs) posix) os)) as Hc.
    { induction Hos as [|o os Ho _ IH]; cbn [rops_run]; [apply logs_ret|].
      apply logs_bind; [|done]. eapply logs_mono; [|apply logs_rop].
      intros p [Hp Hu]. eapply under_root_inside; [done| |exact Hu]. by eapply Forall_forall in Ho. }
    destruct (Hc (mk_logged fs []) e) as (ps & Hps & ->). done.
  - intros -> o fs' l e' Ho. apply rop_passed; [done|].
    eapply Forall_impl; [exact Ho|]. intros p Hp. apply under_root_inside; [done| |done].
    destruct Hp as (st & Hst & ->). exists (rs ++ st). split; [by apply Forall_app|done].
Qed.

Lemma rooted_calls_contained_witness :
  let r := mk_rooted (B "/srv") false in
  let os := [RRename (B "/srv/a") (B "/srvx/b"); RUnlink (B "/srv/c")] in
  opftp_fs_rooted false (B "/srv") = Some r ∧
  Forall (inside [B "srv"]) (lg_paths (rops_run (H:=FsOps_Logged (H:=refuse_ops (λ _, Err ENOENT))) r os (mk_logged () [], E0)).2.1) ∧
  lg_paths (rops_run (H:=FsOps_Logged (H:=refuse_ops (λ _, Err ENOENT))) r os (mk_logged () [], E0)).2.1 = [B "/srv/c"].
Proof.
  split; [done|]. split; [|done].
  apply (rooted_calls_contained (H:=refuse_ops (λ _, Err ENOENT)) false [B "srv"]); [concrete|by vm_compute; lia|done|].
  constructor; [|constructor; [|constructor]].
  - constructor; [exists [B "srv"; B "a"]; split; [concrete|done]|].
    constructor; [exists [B "srvx"; B "b"]; split; [concrete|done]|constructor].
  - constructor; [exists [B "srv"; B "c"]; split; [concrete|done]|constructor].
Defined.

(** ** Symlink containment *)

(** The proper ancestors of a path, nearest first, the root included. *)
Definition ancestors (cs : list bytes) : list bytes :=
  (λ k, render (take k cs)) <$> reverse (seq 0 (length cs)).

Lemma ancestors_snoc cs c : ancestors (cs ++ [c]) = render cs :: ancestors cs.
Proof.
  unfold ancestors. rewrite length_app, Nat.add_1_r, seq_S, reverse_app. cbn [fmap].
  rewrite fmap_app. cbn. rewrite take_app_length. f_equal.
  apply list_fmap_ext. intros i k Hk. apply list_elem_of_lookup_2 in Hk.
  rewrite elem_of_reverse, elem_of_seq in Hk. by rewrite take_app_le by lia.
Qed.

(** The decision of [realpath_contained] in terms of what [realpath] says of
    the path and its ancestors: the first that exists must resolve under the
    root. *)
Fixpoint first_existing_under (r : rooted) (rp : bytes → res bytes) (path : bytes)
  (l : list bytes) : bool :=
  match l with
  | [] => under_root r path
  | a :: l' =>
     match rp a with
     | Ok q => under_root r q
     | Err e => if bool_decide (e = ENOENT) then first_existing_under r rp path l' else false
     end
  end.

Section Realpath.
Context {FS : Type} `{FsOps FS} (rp : bytes → res bytes).
Hypothesis realpath_pure : ∀ p (fs : FS), fs_realpath p fs = (rp p, fs).

Lemma probe_loop_spec r path cs f (fs : FS) e :
  Forall good cs → (length (render cs) < 1024)%nat → (length cs < f)%nat →
  (probe_loop f r path (render cs) (fs, e)).1 = first_existing_under r rp path (ancestors cs).
Proof.
  revert f e. induction cs as [|c cs IH] using rev_ind; intros f e Hcs Hl Hf.
  { destruct f; [lia|]. done. }
  apply Forall_app in Hcs as [Hcs [Hc _]%Forall_cons_1].
  assert (length (render cs) < 1024)%nat as Hl'.
  { pose proof (render_length_mono cs [c]) as [?| ->]; [|unfold render; cbn [length B String.list_ascii_of_string]]; lia. }
  rewrite length_app in Hf. cbn [length] in Hf. destruct f as [|f]; [lia|].
  cbn [probe_loop]. rewrite parent_render by done. rewrite ancestors_snoc.
  destruct (render cs) as [|x q] eqn:Er; [by destruct cs|]. rewrite <-Er in *.
  rewrite ST_bind_eq. unfold fs_lift. rewrite realpath_pure. cbn [first_existing_under].
  destruct (rp (render cs)) as [q'|e']; [done|].
  rewrite ST_bind_eq. cbn [get_errno].
  destruct (decide (e' = ENOENT)).
  - rewrite bool_decide_false, bool_decide_true by naive_solver.
    rewrite bprintf_short by done. apply IH; [done|done|lia].
  - by rewrite bool_decide_true, bool_decide_false by naive_solver.
Qed.

Lemma length_render_ge cs : Forall good cs → (length cs ≤ length (render cs))%nat.
Proof.
  intros Hg. destruct cs as [|c cs]; [simpl; lia|]. rewrite render_join by done.
  induction Hg as [|x l Hx Hl IH]; [simpl; lia|].
  unfold join in *. cbn [fmap list_fmap concat length]. rewrite length_app. cbn [length]. lia.
Qed.

Lemma check_realpath r cs (fs : FS) e :
  r_check_realpath r = true → Forall good cs → (length (render cs) < 1024)%nat →
  (check r (render cs) (fs, e)).1 =
    under_root r (render cs) &&
    first_existing_under r rp (render cs) (render cs :: ancestors cs).
Proof.
  intros Hr Hcs Hl. unfold check. destruct (under_root r (render cs)) eqn:Hu; [|done].
  cbn [negb andb]. rewrite Hr, ST_bind_eq. unfold realpath_contained.
  rewrite ST_bind_eq. unfold fs_lift at 1. rewrite realpath_pure. cbn [first_existing_under].
  destruct (rp (render cs)) as [q|e'].
  { cbn [mret ST_ret]. destruct (under_root r q); [done|]. rewrite ST_bind_eq. cbn [get_errno]. by case_match. }
  rewrite ST_bind_eq. cbn [get_errno]. destruct (decide (e' = ENOENT)) as [->|Hne].
  - rewrite !bool_decide_true by done. rewrite bprintf_short by done.
    pose proof (length_render_ge cs Hcs).
    pose proof (probe_loop_spec r (render cs) cs (S (length (render cs))) fs ENOENT Hcs Hl
                  ltac:(lia)) as Hp.
    destruct (probe_loop _ _ _ _ _) as [b [fs' e'']]. cbn [fst] in Hp. rewrite <-Hp.
    destruct b; [done|]. rewrite ST_bind_eq. cbn [get_errno]. by case_match.
  - rewrite !(bool_decide_false (_ = ENOENT)) by done. cbn [mret ST_ret]. rewrite ST_bind_eq. cbn [get_errno]. by case_match.
Qed.

(** C16. Symlink containment on the POSIX base: for a canonical path, [check]
    accepts exactly when the path is textually under the root and the nearest
    of the path and its ancestors that exists resolves, through [realpath],
    to something under the root; any error of [realpath] but ENOENT refuses.
    The walk to the nearest ancestor always ends. *)
Theorem check_realpath_contained r cs (fs : FS) e :
  r_check_realpath r = true → Forall good cs → (length (render cs) < 1024)%nat →
  (check r (render cs) (fs, e)).1 =
    under_root r (render cs) &&
    first_existing_under r rp (render cs) (render cs :: ancestors cs).
Proof. apply check_realpath. Qed.

End Realpath.

(** A link out of the root: [/srv/link] is a symlink to [/etc]. *)
Definition rp_example (p : bytes) : res bytes :=
  if streq p (B "/srv/link") then Ok (B "/etc")
  else if streq p (B "/srv/link/new") then Err ENOENT
  else if streq p (B "/srv") then Ok p else Err ENOENT.

Lemma check_realpath_contained_witness :
  (check (H:=refuse_ops rp_example) (mk_rooted (B "/srv") true) (B "/srv/link/new") ((), E0)).1
    = false.
Proof.
  etransitivity;
    [apply (check_realpath_contained (H:=refuse_ops rp_example) rp_example (λ _ _, eq_refl)
              (mk_rooted (B "/srv") true) [B "srv"; B "link"; B "new"] () E0)|];
    [done|concrete|vm_compute; lia|by vm_compute].
Defined.

End FsRooted.
