(* ===== verification/FsMem.v ===== *)
(** * src/fs_mem.c: the in-memory backend

    [mctx] is [struct mctx]: a heap of nodes keyed by identifiers that stand
    for their addresses, the 64-entry descriptor table, the open directory
    streams and the clock [time(NULL)] reads. A node keeps its children in
    the order of the sibling links ([children], [next]); [data] and [size]
    are one byte list. Allocation does not fail. Where the code has undefined
    behaviour (a descriptor or stream whose node was freed, a stream that is
    not open, a path of more components than the array it is split into
    holds) the operations answer [EFAULT], an error the code itself never
    returns; FsMemTree turns it into the end of the run. *)

From S2P Require Import Prelude Types Resolve FsIface.
Import Resolve.

Local Open Scope Z_scope.

Module FsMem.

Definition nid := positive.

Record mnode := mk_mnode {
  m_name : bytes; m_mode : Z; m_mtime : Z; m_uid : Z; m_gid : Z;
  m_data : bytes; m_children : list nid; m_parent : option nid
}.
#[export] Instance mnode_settable : Settable mnode := λ x,
  mk_mnode (m_name x) (m_mode x) (m_mtime x) (m_uid x) (m_gid x) (m_data x)
    (m_children x) (m_parent x).

Definition m_size (n : mnode) : Z := Z.of_nat (length (m_data n)).

Record mfd := mk_mfd { f_node : option nid; f_pos : Z; f_flags : Z; f_open : bool }.
#[export] Instance mfd_settable : Settable mfd := λ x,
  mk_mfd (f_node x) (f_pos x) (f_flags x) (f_open x).

Record mctx := mk_mctx {
  x_root : nid;
  x_heap : gmap nid mnode;
  x_fds : list mfd;
  x_dirs : gmap dirh (option nid);   (* struct mdir: the next node *)
  x_fresh : positive;                (* address of the next allocation *)
  x_clock : Z                        (* time(NULL) *)
}.
#[export] Instance mctx_settable : Settable mctx := λ x,
  mk_mctx (x_root x) (x_heap x) (x_fds x) (x_dirs x) (x_fresh x) (x_clock x).

(** [node_create]. *)
Definition node_create (name : bytes) (mode clock : Z) : mnode :=
  mk_mnode (bprintf 256 name) mode clock 0 0 [] [] None.

(** [struct comp]: the rest of the path from the component on, and the
    component's length. *)
Record comp := mk_comp { cp_p : bytes; cp_len : nat }.
Definition cp_name (c : comp) : bytes := take (cp_len c) (cp_p c).

(** The loop of [split_path]; each round consumes a byte at least. *)
Fixpoint split_path_loop (fuel : nat) (p : bytes) : list comp :=
  match fuel with
  | O => []
  | S f =>
     match skip_char SLASH p with
     | [] => []
     | q => let '(a, rest) := scan_comp q in
            mk_comp q (length a) :: split_path_loop f rest
     end
  end.

(** [split_path]: the components it stores in the caller's [comps[256]].
    Nothing stops it at 256: [None] is the write past that array. *)
Definition split_path (path : bytes) : option (list comp) :=
  let comps := split_path_loop (S (length path)) path in
  if (256 <? length comps)%nat then None else Some comps.

Definition child_named (h : gmap nid mnode) (name : bytes) (ch : nid) : bool :=
  match h !! ch with Some c => streq (m_name c) name | None => false end.

(** The sibling scan: the first child whose name has the bytes [name]. *)
Definition find_name (h : gmap nid mnode) (children : list nid) (name : bytes) : option nid :=
  head (filter (λ ch, child_named h name ch = true) children).

(** [node_lookup], from the node [cur]. *)
Fixpoint walk_nodes (h : gmap nid mnode) (cur : nid) (comps : list bytes) : res nid :=
  match comps with
  | [] => Ok cur
  | c :: cs =>
     match h !! cur with
     | None => Err EFAULT
     | Some n =>
        match find_name h (m_children n) c with
        | None => Err ENOENT
        | Some ch => walk_nodes h ch cs
        end
     end
  end.

Definition node_lookup (x : mctx) (path : bytes) : res nid :=
  if streq path (B "/") then Ok (x_root x)
  else match split_path path with
       | None => Err EFAULT
       | Some comps => walk_nodes (x_heap x) (x_root x) (cp_name <$> comps)
       end.

(** [node_lookup_parent]'s loop: every component walked to is a directory. *)
Fixpoint walk_dirs (h : gmap nid mnode) (cur : nid) (comps : list bytes) : res nid :=
  match comps with
  | [] => Ok cur
  | c :: cs =>
     match h !! cur with
     | None => Err EFAULT
     | Some n =>
        match find_name h (m_children n) c with
        | None => Err ENOENT
        | Some ch =>
           match h !! ch with
           | None => Err EFAULT
           | Some chn => if is_dir (m_mode chn) then walk_dirs h ch cs else Err ENOTDIR
           end
        end
     end
  end.

(** The parent and the name: the tail of the path from its last component. *)
Definition node_lookup_parent (x : mctx) (path : bytes) : res (nid * bytes) :=
  if streq path (B "/") then Err EEXIST
  else
    match split_path path with
    | None => Err EFAULT
    | Some comps =>
       match last comps with
       | None => Err ENOENT
       | Some lc =>
          match walk_dirs (x_heap x) (x_root x) (cp_name <$> take (length comps - 1) comps) with
          | Ok p => Ok (p, cp_p lc)
          | Err e => Err e
          end
       end
    end.

Definition node_find_child (x : mctx) (parent : nid) (name : bytes) : option nid :=
  match x_heap x !! parent with
  | Some n => find_name (x_heap x) (m_children n) name
  | None => None
  end.

(** A new node at the head of the children of [parent]. *)
Definition link_new (x : mctx) (parent : nid) (n : mnode) : nid * mctx :=
  let id := x_fresh x in
  (id, x <| x_heap := alter (λ p, p <| m_children := id :: m_children p |>) parent
                        (<[id := n <| m_parent := Some parent |>]> (x_heap x)) |>
         <| x_fresh := Pos.succ id |>).

(** Taking a node out of its parent's list of children. *)
Definition unlink_child (n : nid) (p : mnode) : mnode :=
  p <| m_children := filter (λ ch, ch ≠ n) (m_children p) |>.

Definition detach (x : mctx) (n : nid) : mctx :=
  match x_heap x !! n with
  | Some nd =>
     match m_parent nd with
     | Some p => x <| x_heap := alter (unlink_child n) p (x_heap x) |>
     | None => x
     end
  | None => x
  end.

Definition free_node (x : mctx) (n : nid) : mctx := x <| x_heap := delete n (x_heap x) |>.

(** The first closed descriptor from 1 to 63. *)
Definition free_slot (fds : list mfd) : option nat :=
  head (filter (λ i, f_open <$> fds !! i = Some false) (seq 1 63)).

(** [mem_open] after the lookup: directory test, truncation, descriptor. *)
Definition open_node (x : mctx) (n : nid) (flags : Z) : res Z * mctx :=
  match x_heap x !! n with
  | None => (Err EFAULT, x)
  | Some nd =>
     if is_dir (m_mode nd) then (Err EISDIR, x)
     else
       let x1 := if has_flag flags OPFTP_O_TRUNC
                 then x <| x_heap := <[n := nd <| m_data := [] |>]> (x_heap x) |> else x in
       let size := if has_flag flags OPFTP_O_TRUNC then 0 else m_size nd in
       match free_slot (x_fds x1) with
       | None => (Err EMFILE, x1)
       | Some slot =>
          let pos := if has_flag flags OPFTP_O_APPEND then size else 0 in
          (Ok (Z.of_nat slot),
           x1 <| x_fds := <[slot := mk_mfd (Some n) pos (Z.land flags 3) true]> (x_fds x1) |>)
       end
  end.

Definition mem_open (path : bytes) (flags mode : Z) (x : mctx) : res Z * mctx :=
  match node_lookup x path with
  | Ok n => open_node x n flags
  | Err err =>
     if has_flag flags OPFTP_O_CREAT then
       match node_lookup_parent x path with
       | Err e => (Err e, x)
       | Ok (parent, name) =>
          match x_heap x !! parent with
          | None => (Err EFAULT, x)
          | Some p =>
             if negb (is_dir (m_mode p)) then (Err ENOTDIR, x)
             else
               let '(n, x1) := link_new x parent
                 (node_create name (Z.lor S_IFREG (if mode =? 0 then 420 else mode)) (x_clock x)) in
               open_node x1 n flags
          end
       end
     else (Err err, x)
  end.

(** An open descriptor: [fd <= 0 || fd >= 64 || !open] is EBADF. *)
Definition get_fd (x : mctx) (fd : Z) : option mfd :=
  if (fd <=? 0) || (64 <=? fd) then None
  else match x_fds x !! Z.to_nat fd with
       | Some f => if f_open f then Some f else None
       | None => None
       end.

Definition set_fd (x : mctx) (fd : Z) (f : mfd) : mctx :=
  x <| x_fds := <[Z.to_nat fd := f]> (x_fds x) |>.

Definition fd_node (x : mctx) (f : mfd) : option (nid * mnode) :=
  match f_node f with
  | Some n => match x_heap x !! n with Some nd => Some (n, nd) | None => None end
  | None => None
  end.

Definition mem_close (fd : Z) (x : mctx) : res () * mctx :=
  match get_fd x fd with
  | None => (Err EBADF, x)
  | Some f => (Ok (), set_fd x fd (f <| f_open := false |> <| f_node := None |>))
  end.

Definition mem_read (fd : Z) (n : nat) (x : mctx) : res bytes * mctx :=
  match get_fd x fd with
  | None => (Err EBADF, x)
  | Some f =>
     if Z.land (f_flags f) 3 =? OPFTP_O_WRONLY then (Err EBADF, x)
     else match fd_node x f with
     | None => (Err EFAULT, x)
     | Some (_, nd) =>
        let got := take n (drop (Z.to_nat (f_pos f)) (m_data nd)) in
        (Ok got, set_fd x fd (f <| f_pos := f_pos f + Z.of_nat (length got) |>))
     end
  end.

(** The buffer after [realloc], [memset] and [memcpy]. *)
Definition splice (data : bytes) (pos : nat) (b : bytes) : bytes :=
  let data1 := data ++ replicate (pos + length b - length data) NUL in
  take pos data1 ++ b ++ drop (pos + length b) data1.

Definition mem_write (fd : Z) (b : bytes) (x : mctx) : res nat * mctx :=
  match get_fd x fd with
  | None => (Err EBADF, x)
  | Some f =>
     if Z.land (f_flags f) 3 =? OPFTP_O_RDONLY then (Err EBADF, x)
     else match fd_node x f with
     | None => (Err EFAULT, x)
     | Some (n, nd) =>
        let nd' := nd <| m_data := splice (m_data nd) (Z.to_nat (f_pos f)) b |>
                      <| m_mtime := x_clock x |> in
        (Ok (length b),
         set_fd (x <| x_heap := <[n := nd']> (x_heap x) |>) fd
           (f <| f_pos := f_pos f + Z.of_nat (length b) |>))
     end
  end.

Definition mem_seek (fd off : Z) (w : whence) (x : mctx) : res Z * mctx :=
  match get_fd x fd with
  | None => (Err EBADF, x)
  | Some f =>
     let base := match w with
                 | SEEK_SET => Some 0
                 | SEEK_CUR => Some (f_pos f)
                 | SEEK_END => (λ '(_, nd), m_size nd) <$> fd_node x f
                 end in
     match base with
     | None => (Err EFAULT, x)
     | Some b =>
        if b + off <? 0 then (Err EINVAL, x)
        else (Ok (b + off), set_fd x fd (f <| f_pos := b + off |>))
     end
  end.

Definition node_to_stat (n : mnode) : opftp_stat :=
  mk_stat (m_mode n) (m_size n) (m_mtime n) (m_uid n) (m_gid n).

Definition mem_fstat (fd : Z) (x : mctx) : res opftp_stat * mctx :=
  match get_fd x fd with
  | None => (Err EBADF, x)
  | Some f => match fd_node x f with
              | None => (Err EFAULT, x)
              | Some (_, nd) => (Ok (node_to_stat nd), x)
              end
  end.

(** Run [k] on the node a path names, or fail with the lookup's errno. *)
Definition with_node {A} (x : mctx) (path : bytes) (k : nid → mnode → res A * mctx)
  : res A * mctx :=
  match node_lookup x path with
  | Err e => (Err e, x)
  | Ok n => match x_heap x !! n with None => (Err EFAULT, x) | Some nd => k n nd end
  end.

Definition mem_stat (path : bytes) (x : mctx) : res opftp_stat * mctx :=
  with_node x path (λ _ nd, (Ok (node_to_stat nd), x)).

Definition mem_opendir (path : bytes) (x : mctx) : res dirh * mctx :=
  with_node x path (λ _ nd,
    if negb (is_dir (m_mode nd)) then (Err ENOTDIR, x)
    else (Ok (x_fresh x),
          x <| x_dirs := <[x_fresh x := head (m_children nd)]> (x_dirs x) |>
            <| x_fresh := Pos.succ (x_fresh x) |>)).

(** [n->next]: the sibling after [n] in its parent's list. *)
Fixpoint after (n : nid) (l : list nid) : option nid :=
  match l with
  | [] => None
  | c :: l' => if bool_decide (c = n) then head l' else after n l'
  end.

Definition next_of (x : mctx) (n : nid) (nd : mnode) : option nid :=
  match m_parent nd with
  | Some p => match x_heap x !! p with Some pn => after n (m_children pn) | None => None end
  | None => None
  end.

Definition mem_readdir (d : dirh) (x : mctx) : res (option opftp_dirent) * mctx :=
  match x_dirs x !! d with
  | None => (Err EFAULT, x)
  | Some None => (Ok None, x)
  | Some (Some n) =>
     match x_heap x !! n with
     | None => (Err EFAULT, x)
     | Some nd =>
        (Ok (Some (mk_dirent (bprintf 256 (m_name nd)) (m_mode nd) (m_size nd) (m_mtime nd)
                     (m_uid nd) (m_gid nd))),
         x <| x_dirs := <[d := next_of x n nd]> (x_dirs x) |>)
     end
  end.

Definition mem_closedir (d : dirh) (x : mctx) : res () * mctx :=
  match x_dirs x !! d with
  | None => (Err EFAULT, x)
  | Some _ => (Ok (), x <| x_dirs := delete d (x_dirs x) |>)
  end.

Definition mem_mkdir (path : bytes) (mode : Z) (x : mctx) : res () * mctx :=
  match node_lookup_parent x path with
  | Err e => (Err e, x)
  | Ok (parent, name) =>
     match node_find_child x parent name with
     | Some _ => (Err EEXIST, x)
     | None =>
        (Ok (), snd (link_new x parent
                  (node_create name (Z.lor S_IFDIR (if mode =? 0 then 493 else mode)) (x_clock x))))
     end
  end.

Definition mem_rmdir (path : bytes) (x : mctx) : res () * mctx :=
  with_node x path (λ n nd,
    if negb (is_dir (m_mode nd)) then (Err ENOTDIR, x)
    else if negb (bool_decide (m_children nd = [])) then (Err ENOTEMPTY, x)
    else if bool_decide (m_parent nd = None) then (Err EBUSY, x)
    else (Ok (), free_node (detach x n) n)).

Definition mem_unlink (path : bytes) (x : mctx) : res () * mctx :=
  with_node x path (λ n nd,
    if is_dir (m_mode nd) then (Err EISDIR, x)
    else (Ok (), free_node (detach x n) n)).

(** The loop up the parents of [p] looking for [n]; [None] when it does not
    end within the fuel (a cycle of parents). *)
Fixpoint has_ancestor (fuel : nat) (h : gmap nid mnode) (p : option nid) (n : nid) : option bool :=
  match p with
  | None => Some false
  | Some q =>
     if bool_decide (q = n) then Some true
     else match fuel with
          | O => None
          | S f => match h !! q with
                   | None => None
                   | Some qn => has_ancestor f h (m_parent qn) n
                   end
          end
  end.

(** The end of [mem_rename]: unlink from the old parent, rename, relink. *)
Definition move_node (x : mctx) (n np : nid) (nn : bytes) : mctx :=
  let x1 := detach x n in
  let h := x_heap x1 in
  x1 <| x_heap :=
    alter (λ p, p <| m_children := n :: m_children p |>) np
      (alter (λ nd, nd <| m_name := bprintf 256 nn |> <| m_parent := Some np |>) n h) |>.

Definition mem_rename (oldp newp : bytes) (x : mctx) : res () * mctx :=
  with_node x oldp (λ n nd,
    if bool_decide (m_parent nd = None) then (Err EBUSY, x)
    else match node_lookup_parent x newp with
    | Err e => (Err e, x)
    | Ok (np, nn) =>
       match has_ancestor (S (size (x_heap x))) (x_heap x) (Some np) n with
       | None => (Err EFAULT, x)
       | Some true => (Err EINVAL, x)
       | Some false =>
          match node_find_child x np nn with
          | None => (Ok (), move_node x n np nn)
          | Some ex =>
             if bool_decide (ex = n) then (Ok (), x)
             else match x_heap x !! ex with
             | None => (Err EFAULT, x)
             | Some exn =>
                if is_dir (m_mode exn) || is_dir (m_mode nd) then (Err EISDIR, x)
                else (Ok (), move_node (free_node (detach x ex) ex) n np nn)
             end
          end
       end
    end).

Definition mem_chmod (path : bytes) (mode : Z) (x : mctx) : res () * mctx :=
  with_node x path (λ n nd,
    (Ok (), x <| x_heap := <[n := nd <| m_mode := u16 (Z.lor (ifmt (m_mode nd)) (Z.land mode 4095)) |>]>
                            (x_heap x) |>)).

Definition mem_utimes (path : bytes) (mtime : Z) (x : mctx) : res () * mctx :=
  with_node x path (λ n nd,
    (Ok (), x <| x_heap := <[n := nd <| m_mtime := mtime |>]> (x_heap x) |>)).

(** The part of a list of children from [n] on. *)
Fixpoint from (n : nid) (l : list nid) : list nid :=
  match l with
  | [] => []
  | c :: l' => if bool_decide (c = n) then l else from n l'
  end.

(** How many nodes a directory stream still has to yield. *)
Definition mem_dir_left (d : dirh) (x : mctx) : nat :=
  match x_dirs x !! d with
  | Some (Some n) =>
     match x_heap x !! n with
     | Some nd =>
        match m_parent nd with
        | Some p =>
           match x_heap x !! p with
           | Some pn => length (from n (m_children pn))
           | None => 1
           end
        | None => 1
        end
     | None => 1
     end
  | _ => 0
  end.

(** [mem_vtable]; the wrapper never asks [realpath] about this backend. *)
#[export] Instance mem_vtable : FsOps mctx := {|
  fs_open := mem_open; fs_close := mem_close; fs_read := mem_read;
  fs_write := mem_write; fs_seek := mem_seek; fs_fstat := mem_fstat;
  fs_stat := mem_stat; fs_opendir := mem_opendir; fs_readdir := mem_readdir;
  fs_closedir := mem_closedir; fs_mkdir := mem_mkdir; fs_rmdir := mem_rmdir;
  fs_unlink := mem_unlink; fs_rename := mem_rename; fs_chmod := mem_chmod;
  fs_utimes := mem_utimes; fs_realpath _ x := (Err ENOSYS, x); fs_dir_left := mem_dir_left
|}.

(** [opftp_fs_mem_create]. *)
Definition opftp_fs_mem_create (clock : Z) : mctx :=
  mk_mctx 1%positive
    {[ 1%positive := node_create (B "/") (Z.lor S_IFDIR 493) clock ]}
    (replicate 64 (mk_mfd None 0 0 false)) ∅ 2%positive clock.

End FsMem.
