(* ===== verification/FsMemTree.v ===== *)
(** * The tree of the in-memory backend

    [tree] is the shape fs_mem.c relies on: one root, every other node the
    child of the directory its [parent] points to, no node listed twice, no
    cycle. Every operation of the vtable keeps it, so no path operation ever
    follows a pointer to a freed node, and the ancestor walk of [mem_rename]
    ends. *)

From S2P Require Import Prelude Types Resolve FsIface FsRooted FsMem.
Import Resolve FsMem FsRooted.

Local Open Scope Z_scope.

Module FsMemTree.

Local Abbreviation heap := (gmap nid mnode).

(** [n] is in the heap and its chain of parents is finite. *)
Inductive reach (h : heap) : nid → Prop :=
  | reach_intro n nd :
     h !! n = Some nd → (∀ p, m_parent nd = Some p → reach h p) → reach h n.

Record tree (root : nid) (h : heap) : Prop := mk_tree {
  tr_root : ∃ nd, h !! root = Some nd ∧ is_dir (m_mode nd) = true ∧ m_parent nd = None;
  tr_child p pn c :
    h !! p = Some pn → c ∈ m_children pn → ∃ cn, h !! c = Some cn ∧ m_parent cn = Some p;
  tr_parent n nd :
    h !! n = Some nd → n ≠ root →
    ∃ p pn, m_parent nd = Some p ∧ h !! p = Some pn ∧ n ∈ m_children pn;
  tr_nodup p pn : h !! p = Some pn → NoDup (m_children pn);
  tr_files n nd : h !! n = Some nd → is_dir (m_mode nd) = false → m_children nd = [];
  tr_reach n : is_Some (h !! n) → reach h n
}.

Definition mem_ok (x : mctx) : Prop :=
  tree (x_root x) (x_heap x) ∧ ∀ n, is_Some (x_heap x !! n) → (n < x_fresh x)%positive.

(** ** Updates that keep the shape *)

(** A node changed in its data, times or permissions. *)
Definition same_shape (nd nd' : mnode) : Prop :=
  m_children nd' = m_children nd ∧ m_parent nd' = m_parent nd ∧
  is_dir (m_mode nd') = is_dir (m_mode nd).

Lemma tree_update root h n nd nd' :
  tree root h → h !! n = Some nd → same_shape nd nd' → tree root (<[n := nd']> h).
Proof.
  intros [Hr Hc Hp Hn Hf Hre] Hnd (Ec & Ep & Ed).
  assert (∀ m md', <[n := nd']> h !! m = Some md' → ∃ md, h !! m = Some md ∧ same_shape md md') as Hback.
  { intros m md'. rewrite lookup_insert_Some. intros [[<- <-]|[_ Hm]]; [by exists nd|].
    exists md'. by split. }
  assert (∀ m md, h !! m = Some md → ∃ md', <[n := nd']> h !! m = Some md' ∧ same_shape md md') as Hfwd.
  { intros m md Hm. destruct (decide (m = n)) as [->|].
    - rewrite Hnd in Hm. injection Hm as <-. exists nd'. by rewrite lookup_insert_eq.
    - exists md. rewrite lookup_insert_ne by done. by split. }
  split.
  - destruct Hr as (rd & Hrd & Hdir & Hpar). destruct (Hfwd _ _ Hrd) as (rd' & ? & _ & E1 & E2).
    exists rd'. split_and!; congruence.
  - intros p pn' c (pn & Hpn & E1 & _)%Hback Hin. rewrite E1 in Hin.
    destruct (Hc _ _ _ Hpn Hin) as (cn & Hcn & Hpar). destruct (Hfwd _ _ Hcn) as (cn' & ? & _ & E & _).
    exists cn'. split; congruence.
  - intros m md' (md & Hmd & _ & E & _)%Hback Hne. destruct (Hp _ _ Hmd Hne) as (p & pn & Hpar & Hpn & Hin).
    destruct (Hfwd _ _ Hpn) as (pn' & ? & E' & _). exists p, pn'. split_and!; congruence.
  - intros p pn' (pn & Hpn & E & _)%Hback. rewrite E. eauto.
  - intros m md' (md & Hmd & E & _ & E')%Hback. rewrite E, E'. eauto.
  - intros m [md' (md & Hmd & _)%Hback]. specialize (Hre m (mk_is_Some _ _ Hmd)).
    clear -Hre Hfwd. induction Hre as [m md Hm _ IH]. destruct (Hfwd _ _ Hm) as (md' & Hm' & _ & E & _).
    apply (reach_intro _ _ _ Hm'). intros p. rewrite E. apply IH.
Qed.

(** Chains of parents that are the same in both heaps. *)
Lemma reach_mono h h' (P : nid → Prop) n :
  reach h n → P n →
  (∀ m md, P m → h !! m = Some md →
     ∃ md', h' !! m = Some md' ∧
       ∀ q, m_parent md' = Some q → reach h' q ∨ (m_parent md = Some q ∧ P q)) →
  reach h' n.
Proof.
  intros Hn HP Hstep. induction Hn as [n nd Hnd _ IH].
  destruct (Hstep _ _ HP Hnd) as (nd' & Hnd' & Hq). apply (reach_intro _ _ _ Hnd').
  intros q Hpar. destruct (Hq _ Hpar) as [?|[? ?]]; [done|by apply (IH q)].
Qed.

(** A new node without children under a directory. *)
Lemma tree_link root h p pn id nd :
  tree root h → h !! p = Some pn → is_dir (m_mode pn) = true → h !! id = None →
  m_children nd = [] →
  tree root (alter (λ q, q <| m_children := id :: m_children q |>) p
               (<[id := nd <| m_parent := Some p |>]> h)).
Proof.
  intros [Hr Hc Hp Hn Hf Hre] Hpn Hdir Hid Hch. set (h' := alter _ _ _).
  assert (p ≠ id) as Hpid by congruence.
  assert (h' !! id = Some (nd <| m_parent := Some p |>)) as Lid.
  { unfold h'. by rewrite lookup_alter_ne, lookup_insert_eq. }
  assert (∀ m md, h !! m = Some md → ∃ md', h' !! m = Some md' ∧ m_parent md' = m_parent md ∧
    is_dir (m_mode md') = is_dir (m_mode md) ∧
    m_children md' = (if decide (m = p) then [id] else []) ++ m_children md) as Hfwd.
  { intros m md Hm. unfold h'. destruct (decide (m = p)) as [->|].
    - rewrite lookup_alter_eq, lookup_insert_ne, Hm by done. by eexists.
    - rewrite lookup_alter_ne, lookup_insert_ne by congruence. exists md. by split_and!. }
  assert (∀ m md', h' !! m = Some md' → (m = id ∧ md' = nd <| m_parent := Some p |>) ∨
    m ≠ id ∧ ∃ md, h !! m = Some md) as Hback.
  { intros m md' Hm. destruct (decide (m = id)) as [->|]; [left; split; congruence|]. right. split; [done|].
    unfold h' in Hm. rewrite lookup_alter in Hm.
    case_decide; rewrite lookup_insert_ne in Hm by done; [|by eexists]. subst. by eexists. }
  split.
  - destruct Hr as (rd & Hrd & Hd & Hpar). destruct (Hfwd _ _ Hrd) as (rd' & ? & ? & ? & _).
    exists rd'. split_and!; congruence.
  - intros q qn c Hq Hin. destruct (Hback _ _ Hq) as [[-> ->]|(Hne & qd & Hqd)].
    { cbn in Hin. rewrite Hch in Hin. by apply elem_of_nil in Hin. }
    destruct (Hfwd _ _ Hqd) as (qd' & E & _ & _ & Eq). rewrite Hq in E. injection E as <-.
    rewrite Eq in Hin. apply elem_of_app in Hin as [Hin|Hin].
    + case_decide; [|by apply elem_of_nil in Hin]. apply list_elem_of_singleton in Hin as ->. subst q.
      by eexists.
    + destruct (Hc _ _ _ Hqd Hin) as (cn & Hcn & Hcp). destruct (Hfwd _ _ Hcn) as (cn' & ? & ? & _).
      exists cn'. split; congruence.
  - intros m md' Hm Hne. destruct (Hback _ _ Hm) as [[-> ->]|(Hnid & md & Hmd)].
    + destruct (Hfwd _ _ Hpn) as (pn' & Hpn' & _ & _ & Ec). exists p, pn'. split_and!; [done..|].
      rewrite Ec, decide_True by done. by left.
    + destruct (Hp _ _ Hmd Hne) as (q & qn & Hpar & Hqn & Hin).
      destruct (Hfwd _ _ Hmd) as (md2 & E & Epar & _). rewrite Hm in E. injection E as <-.
      destruct (Hfwd _ _ Hqn) as (qn' & ? & _ & _ & Ec). exists q, qn'.
      split_and!; [congruence|done|]. rewrite Ec. apply elem_of_app. by right.
  - intros q qn Hq. destruct (Hback _ _ Hq) as [[-> ->]|(Hne & qd & Hqd)].
    { cbn. rewrite Hch. constructor. }
    destruct (Hfwd _ _ Hqd) as (qd' & E & _ & _ & Eq). rewrite Hq in E. injection E as <-. rewrite Eq.
    case_decide; [|by eauto]. subst q. apply NoDup_cons. split; [|by eauto].
    intros Hin. destruct (Hc _ _ _ Hqd Hin) as (? & ? & _). congruence.
  - intros m md' Hm Hd. destruct (Hback _ _ Hm) as [[-> ->]|(Hne & md & Hmd)]; [done|].
    destruct (Hfwd _ _ Hmd) as (md2 & E & _ & Ed & Ec). rewrite Hm in E. injection E as <-. rewrite Ec.
    rewrite Ed in Hd. case_decide; [subst; congruence|]. by apply (Hf m).
  - assert (∀ m, is_Some (h !! m) → reach h' m) as Hold.
    { intros m Hm. apply (reach_mono h h' (λ _, True)); [by apply Hre|done|].
      intros q qd _ Hqd. destruct (Hfwd _ _ Hqd) as (qd' & ? & E & _). exists qd'. rewrite E. eauto. }
    intros m [md' Hm]. destruct (Hback _ _ Hm) as [[-> ->]|(_ & md & Hmd)]; [|by apply Hold].
    apply (reach_intro _ _ _ Lid). cbn. intros q [= <-]. apply Hold. by eexists.
Qed.

(** A parent that exists is a directory with a child. *)
Lemma tree_parent_of root h n nd p :
  tree root h → h !! n = Some nd → m_parent nd = Some p →
  ∃ pn, h !! p = Some pn ∧ n ∈ m_children pn ∧ n ≠ root.
Proof.
  intros [Hr _ Hp _ _ _] Hn Hpar. destruct (decide (n = root)) as [->|Hne].
  - destruct Hr as (rd & Hrd & _ & E). congruence.
  - destruct (Hp _ _ Hn Hne) as (q & qn & E & Hqn & Hin). rewrite Hpar in E. injection E as <-. by exists qn.
Qed.

(** Taking away a node without children. *)
Lemma tree_remove root h n nd p :
  tree root h → h !! n = Some nd → m_parent nd = Some p → m_children nd = [] →
  tree root (delete n (alter (unlink_child n) p h)).
Proof.
  intros Ht Hnd Hpar Hch. destruct (tree_parent_of _ _ _ _ _ Ht Hnd Hpar) as (pn & Hpn & Hin & Hnr).
  pose proof Ht as [Hr Hc Hp Hn Hf Hre]. set (h' := delete _ _).
  assert (∀ m md, h !! m = Some md → m ≠ n → ∃ md', h' !! m = Some md' ∧ m_parent md' = m_parent md ∧
    is_dir (m_mode md') = is_dir (m_mode md) ∧
    m_children md' = if decide (m = p) then filter (λ ch, ch ≠ n) (m_children md) else m_children md) as Hfwd.
  { intros m md Hm Hne. unfold h'. rewrite lookup_delete_ne by done. destruct (decide (m = p)) as [->|].
    - rewrite lookup_alter_eq, Hm. by eexists.
    - rewrite lookup_alter_ne by done. exists md. by split_and!. }
  assert (∀ m md', h' !! m = Some md' → m ≠ n ∧ ∃ md, h !! m = Some md) as Hback.
  { intros m md' Hm. unfold h' in Hm. apply lookup_delete_Some in Hm as [Hne Hm]. split; [done|].
    rewrite lookup_alter in Hm. case_decide; [|by eexists]. subst. destruct (h !! m); [by eexists|done]. }
  assert (∀ m md' md, h' !! m = Some md' → h !! m = Some md → ∀ c, c ∈ m_children md' → c ∈ m_children md ∧ c ≠ n)
    as Hsub.
  { intros m md' md Hm Hmd c Hcin. destruct (Hback _ _ Hm) as [Hne _].
    destruct (Hfwd _ _ Hmd Hne) as (md2 & E & _ & _ & Ec). rewrite Hm in E. injection E as <-.
    rewrite Ec in Hcin. case_decide as Hd.
    - apply list_elem_of_filter in Hcin as [? ?]. done.
    - split; [done|]. intros ->. destruct (Hc _ _ _ Hmd Hcin) as (? & E & Epar). congruence. }
  split.
  - destruct Hr as (rd & Hrd & Hd & Hrp). destruct (Hfwd _ _ Hrd) as (rd' & ? & ? & ? & _); [congruence|].
    exists rd'. split_and!; congruence.
  - intros q qn c Hq Hcin. destruct (Hback _ _ Hq) as (_ & qd & Hqd).
    destruct (Hsub _ _ _ Hq Hqd c Hcin) as [Hcq Hne]. destruct (Hc _ _ _ Hqd Hcq) as (cn & Hcn & Hcp).
    destruct (Hfwd _ _ Hcn Hne) as (cn' & ? & ? & _). exists cn'. split; congruence.
  - intros m md' Hm Hne. destruct (Hback _ _ Hm) as (Hmn & md & Hmd).
    destruct (Hp _ _ Hmd Hne) as (q & qn & Hmpar & Hqn & Hmin).
    destruct (Hfwd _ _ Hmd Hmn) as (md2 & E & Epar & _). rewrite Hm in E. injection E as <-.
    assert (q ≠ n) as Hqne by (intros ->; rewrite Hnd in Hqn; injection Hqn as <-;
      rewrite Hch in Hmin; by apply elem_of_nil in Hmin).
    destruct (Hfwd _ _ Hqn Hqne) as (qn' & ? & _ & _ & Ec). exists q, qn'. split_and!; [congruence|done|].
    rewrite Ec. case_decide; [|done]. by apply list_elem_of_filter.
  - intros q qn Hq. destruct (Hback _ _ Hq) as (Hne & qd & Hqd).
    destruct (Hfwd _ _ Hqd Hne) as (qd' & E & _ & _ & Ec). rewrite Hq in E. injection E as <-. rewrite Ec.
    case_decide; [apply NoDup_filter|]; by eauto.
  - intros m md' Hm Hd. destruct (Hback _ _ Hm) as (Hne & md & Hmd).
    destruct (Hfwd _ _ Hmd Hne) as (md2 & E & _ & Ed & Ec). rewrite Hm in E. injection E as <-.
    rewrite Ec, (Hf m md) by congruence. by case_decide.
  - intros m [md' Hm]. destruct (Hback _ _ Hm) as (Hne & md & Hmd).
    apply (reach_mono h h' (λ m, m ≠ n)); [apply Hre; by eexists|done|].
    intros q qd Hqn Hqd. destruct (Hfwd _ _ Hqd Hqn) as (qd' & ? & E & _). exists qd'. split; [done|].
    intros z Hz. right. rewrite <-E. split; [done|]. intros ->. rewrite E in Hz.
    destruct (tree_parent_of _ _ _ _ _ Ht Hqd Hz) as (zn & Hzn & Hzin & _).
    rewrite Hnd in Hzn. injection Hzn as <-. rewrite Hch in Hzin. by apply elem_of_nil in Hzin.
Qed.

(** [q]'s chain of parents does not meet [n]. *)
Inductive avoids (h : heap) (n : nid) : nid → Prop :=
  | avoids_intro q qd :
     q ≠ n → h !! q = Some qd → (∀ p, m_parent qd = Some p → avoids h n p) → avoids h n q.

Lemma has_ancestor_false f h p n : has_ancestor f h (Some p) n = Some false → avoids h n p.
Proof.
  revert p. induction f as [|f IH]; intros p; cbn [has_ancestor]; case_bool_decide; try done.
  destruct (h !! p) as [pd|] eqn:E; [|done]. intros Hf. apply (avoids_intro _ _ _ pd); [done..|].
  intros q Hq. rewrite Hq in Hf. by apply IH.
Qed.

Section Move.
Context (root : nid) (h : heap) (n np p : nid) (nd npn : mnode) (name : bytes).
Context (Ht : tree root h) (Hnd : h !! n = Some nd) (Hpar : m_parent nd = Some p)
  (Hnpn : h !! np = Some npn) (Hdir : is_dir (m_mode npn) = true) (Hav : avoids h n np).

Let h' : heap :=
  alter (λ q, q <| m_children := n :: m_children q |>) np
    (alter (λ q, q <| m_name := name |> <| m_parent := Some np |>) n (alter (unlink_child n) p h)).

(** What became of a node: the moved one has a new parent, lists changed at
    its old and at its new place. *)
Lemma move_fwd m md :
  h !! m = Some md →
  ∃ md', h' !! m = Some md' ∧ m_parent md' = (if decide (m = n) then Some np else m_parent md) ∧
    is_dir (m_mode md') = is_dir (m_mode md) ∧
    m_children md' = (if decide (m = np) then [n] else [])
                     ++ (if decide (m = p) then filter (λ ch, ch ≠ n) (m_children md) else m_children md).
Proof.
  intros Hm. assert (np ≠ n) as Hne by by destruct Hav. unfold h'.
  rewrite !lookup_alter. repeat case_decide; subst; try done; rewrite Hm; by eexists.
Qed.

Lemma move_back m md' : h' !! m = Some md' → ∃ md, h !! m = Some md.
Proof.
  unfold h'. rewrite !lookup_alter. intros Hm. destruct (h !! m) as [md|] eqn:E; [by eexists|].
  repeat case_decide; subst; rewrite ?E in Hm; done.
Qed.

Lemma move_children m md md' c :
  h !! m = Some md → h' !! m = Some md' → c ∈ m_children md' →
  (m = np ∧ c = n) ∨ (c ≠ n ∧ c ∈ m_children md).
Proof.
  intros Hm Hm' Hin. destruct (move_fwd _ _ Hm) as (md2 & E & _ & _ & Ec).
  rewrite Hm' in E. injection E as <-. rewrite Ec in Hin. clear Ec. apply elem_of_app in Hin as [Hin|Hin].
  - case_decide; [|by apply elem_of_nil in Hin]. apply list_elem_of_singleton in Hin. by left.
  - right. case_decide as Hd; [by apply list_elem_of_filter in Hin|]. split; [|done]. intros ->.
    destruct (tr_child _ _ Ht _ _ _ Hm Hin) as (? & ? & ?). congruence.
Qed.

Lemma reach_avoid q : avoids h n q → reach h' q.
Proof.
  intros Hq. induction Hq as [q qd Hne Hqd _ IH].
  destruct (move_fwd _ _ Hqd) as (qd' & Hqd' & Ep & _). apply (reach_intro _ _ _ Hqd').
  intros z. rewrite Ep, decide_False by done. apply IH.
Qed.

Lemma tree_move : tree root h'.
Proof.
  pose proof Ht as [Hr Hc Hp Hn Hf Hre].
  destruct (tree_parent_of _ _ _ _ _ Ht Hnd Hpar) as (pn & Hpn & Hin & Hnr).
  split.
  - destruct Hr as (rd & Hrd & Hd & Hrp). destruct (move_fwd _ _ Hrd) as (rd' & ? & E & ? & _).
    rewrite decide_False in E by done. exists rd'. split_and!; congruence.
  - intros q qn c Hq Hcin. destruct (move_back _ _ Hq) as [qd Hqd].
    destruct (move_children _ _ _ _ Hqd Hq Hcin) as [[-> ->]|[Hne Hcq]].
    + destruct (move_fwd _ _ Hnd) as (nd' & ? & E & _). rewrite decide_True in E by done. by exists nd'.
    + destruct (Hc _ _ _ Hqd Hcq) as (cn & Hcn & Hcp). destruct (move_fwd _ _ Hcn) as (cn' & ? & E & _).
      rewrite decide_False in E by done. exists cn'. split; congruence.
  - intros m md' Hm Hne. destruct (move_back _ _ Hm) as [md Hmd].
    destruct (move_fwd _ _ Hmd) as (md2 & E & Ep & _). rewrite Hm in E. injection E as <-.
    destruct (decide (m = n)) as [->|Hmn].
    + destruct (move_fwd _ _ Hnpn) as (np' & ? & _ & _ & Ec). exists np, np'. split_and!; [done..|].
      rewrite Ec, decide_True by done. by left.
    + destruct (Hp _ _ Hmd Hne) as (q & qn & Hmpar & Hqn & Hmin).
      destruct (move_fwd _ _ Hqn) as (qn' & ? & _ & _ & Ec). exists q, qn'.
      split_and!; [congruence|done|]. rewrite Ec. clear Ec Ep. apply elem_of_app. right.
      case_decide; [|done]. by apply list_elem_of_filter.
  - intros q qn Hq. destruct (move_back _ _ Hq) as [qd Hqd].
    destruct (move_fwd _ _ Hqd) as (qd' & E & _ & _ & Ec). rewrite Hq in E. injection E as <-. rewrite Ec. clear Ec.
    assert (NoDup (if decide (q = p) then filter (λ ch, ch ≠ n) (m_children qd) else m_children qd)) as Hnd2.
    { case_decide; [apply NoDup_filter|]; by eauto. }
    destruct (decide (q = np)); [|done]. apply NoDup_cons. split; [|done].
    destruct (decide (q = p)).
    + intros [? _]%list_elem_of_filter. done.
    + intros Hnin. destruct (Hc _ _ _ Hqd Hnin) as (? & ? & ?). congruence.
  - intros m md' Hm Hd. destruct (move_back _ _ Hm) as [md Hmd].
    destruct (move_fwd _ _ Hmd) as (md2 & E & _ & Ed & Ec). rewrite Hm in E. injection E as <-.
    rewrite Ed in Hd. rewrite Ec, (Hf m md Hmd Hd). clear Ec. rewrite decide_False by congruence.
    by case_decide.
  - assert (reach h' n) as Hrn.
    { destruct (move_fwd _ _ Hnd) as (nd' & Hnd' & E & _). rewrite decide_True in E by done.
      apply (reach_intro _ _ _ Hnd'). rewrite E. intros q [= <-]. by apply reach_avoid. }
    intros m [md' Hm]. destruct (move_back _ _ Hm) as [md Hmd].
    apply (reach_mono h h' (λ _, True)); [apply Hre; by eexists|done|].
    intros q qd _ Hqd. destruct (move_fwd _ _ Hqd) as (qd' & ? & E & _). exists qd'. split; [done|].
    intros z Hz. rewrite E in Hz. case_decide; [|by right]. left. injection Hz as <-. by apply reach_avoid.
Qed.

End Move.

(** ** Walking paths *)

(** A path that [split_path] can split: at most 256 components. *)
Definition short (p : bytes) : Prop := (length (comps p) ≤ 256)%nat.

Lemma split_skip f p : split_path_loop (S f) (SLASH :: p) = split_path_loop (S f) p.
Proof. cbn [split_path_loop skip_char]. by rewrite ceq_refl. Qed.

Lemma split_comps f : ∀ f' p, (length p < f)%nat → (length p < f')%nat →
  cp_name <$> split_path_loop f p = comps_loop f' p.
Proof.
  induction f as [|f IH]; intros f' p Hf Hf'; [lia|]. destruct f' as [|f']; [lia|].
  cbn [split_path_loop comps_loop].
  destruct (skip_char_suffix SLASH p) as [k Hk].
  assert (length (skip_char SLASH p) ≤ length p)%nat as Hl.
  { rewrite Hk at 2. rewrite length_app. lia. }
  destruct (skip_char SLASH p) as [|c q] eqn:Eq; [done|].
  pose proof (skip_char_head SLASH p) as Hh. rewrite Eq in Hh.
  destruct (scan_comp (c :: q)) as [a rest] eqn:Es. cbn [fmap list_fmap].
  apply scan_comp_spec in Es as (E & Hns & Hr). f_equal.
  { unfold cp_name. cbn [cp_len cp_p]. by rewrite E, take_app_length. }
  assert (a ≠ []) as Ha.
  { intros ->. destruct Hr as [->|[q' ->]]; simpl in E; [done|]. by simplify_eq. }
  assert (length (c :: q) = length a + length rest)%nat as Hlen by (by rewrite E, length_app).
  assert (0 < length a)%nat by (destruct a; [done|simpl; lia]).
  destruct Hr as [->|[q' ->]].
  { destruct f; [|done]. done. }
  simpl in Hlen, Hl. destruct f as [|f]; [lia|]. rewrite split_skip. apply IH; lia.
Qed.

Lemma split_path_short p : short p → ∃ l, split_path p = Some l.
Proof.
  unfold short, comps, split_path. intros H.
  rewrite <-(split_comps (S (length p))), length_fmap in H by lia.
  destruct (Nat.ltb_spec 256 (length (split_path_loop (S (length p)) p))); [lia|]. by eexists.
Qed.

(** A longer one is never looked up: the array overflows first. *)
Lemma long_fault x p :
  ¬ short p → node_lookup x p = Err EFAULT ∧ node_lookup_parent x p = Err EFAULT.
Proof.
  intros H. assert (split_path p = None) as E.
  { unfold short, comps, split_path in *.
    rewrite <-(split_comps (S (length p))), length_fmap in H by lia. case_match eqn:E; [done|].
    apply Nat.ltb_ge in E. lia. }
  unfold node_lookup, node_lookup_parent. destruct (streq p (B "/")) eqn:Es; [|by rewrite E].
  apply streq_true in Es as ->. by destruct H; vm_compute; lia.
Qed.

Lemma find_name_in h l name c : find_name h l name = Some c → c ∈ l.
Proof.
  unfold find_name. intros Hc.
  assert (c ∈ filter (λ ch, child_named h name ch = true) l) as Hin.
  { destruct (filter _ l) as [|y ys]; [done|]. injection Hc as ->. by left. }
  by apply list_elem_of_filter in Hin as [_ Hin].
Qed.

Lemma walk_nodes_live root h cur comps :
  tree root h → is_Some (h !! cur) →
  match walk_nodes h cur comps with Ok n => is_Some (h !! n) | Err e => e = ENOENT end.
Proof.
  intros Ht. revert cur. induction comps as [|c cs IH]; intros cur [nd Hnd]; cbn [walk_nodes].
  { by eexists. }
  rewrite Hnd. destruct (find_name h (m_children nd) c) as [ch|] eqn:E; [|done].
  apply find_name_in in E. destruct (tr_child _ _ Ht _ _ _ Hnd E) as (cn & Hcn & _).
  apply IH. by eexists.
Qed.

Lemma walk_dirs_live root h cur comps :
  tree root h → (∃ nd, h !! cur = Some nd ∧ is_dir (m_mode nd) = true) →
  match walk_dirs h cur comps with
  | Ok n => ∃ nd, h !! n = Some nd ∧ is_dir (m_mode nd) = true
  | Err e => e = ENOENT ∨ e = ENOTDIR
  end.
Proof.
  intros Ht. revert cur. induction comps as [|c cs IH]; intros cur (nd & Hnd & Hd); cbn [walk_dirs].
  { by eexists. }
  rewrite Hnd. destruct (find_name h (m_children nd) c) as [ch|] eqn:E; [|by left].
  apply find_name_in in E. destruct (tr_child _ _ Ht _ _ _ Hnd E) as (cn & Hcn & _). rewrite Hcn.
  destruct (is_dir (m_mode cn)) eqn:Ed; [|by right]. apply IH. by eexists.
Qed.

Lemma node_lookup_live x p :
  mem_ok x → short p →
  match node_lookup x p with Ok n => is_Some (x_heap x !! n) | Err e => e = ENOENT end.
Proof.
  intros [Ht _] Hp. unfold node_lookup. destruct (tr_root _ _ Ht) as (rd & Hrd & _).
  destruct (streq p (B "/")); [by eexists|]. destruct (split_path_short p Hp) as [l ->]. eapply walk_nodes_live; [done|by eexists].
Qed.

Lemma node_lookup_parent_live x p :
  mem_ok x → short p →
  match node_lookup_parent x p with
  | Ok (n, _) => ∃ nd, x_heap x !! n = Some nd ∧ is_dir (m_mode nd) = true
  | Err e => e ≠ EFAULT
  end.
Proof.
  intros [Ht _] Hp. unfold node_lookup_parent. destruct (tr_root _ _ Ht) as (rd & Hrd & Hd & _).
  destruct (streq p (B "/")); [done|]. destruct (split_path_short p Hp) as [cs ->]. destruct (last cs); [|done].
  match goal with |- context [walk_dirs ?h ?c ?l] => pose proof (walk_dirs_live _ h c l Ht) as Hw;
    destruct (walk_dirs h c l) as [n|e] end.
  - apply Hw. by eexists.
  - destruct Hw as [-> | ->]; [by eexists|done..].
Qed.

(** ** The operations *)

(** The result of an operation that keeps the tree and never follows a freed
    node. *)
Definition sound {A} (r : res A * mctx) : Prop := mem_ok r.2 ∧ r.1 ≠ Err EFAULT.

Lemma mem_ok_heap x h :
  mem_ok x → tree (x_root x) h → (∀ n, is_Some (h !! n) → is_Some (x_heap x !! n)) →
  mem_ok (x <| x_heap := h |>).
Proof. intros [_ Hf] Ht Hd. split; [done|]. intros n Hn. by apply Hf, Hd. Qed.

Lemma mem_ok_update x n nd nd' :
  mem_ok x → x_heap x !! n = Some nd → same_shape nd nd' →
  mem_ok (x <| x_heap := <[n := nd']> (x_heap x) |>).
Proof.
  intros Hx Hn Hs. apply mem_ok_heap; [done|by eapply tree_update; [apply Hx|..]|].
  intros m. rewrite lookup_insert_is_Some. intros [<-|[_ ?]]; [by eexists|done].
Qed.

Lemma mem_ok_link x p pn nd :
  mem_ok x → x_heap x !! p = Some pn → is_dir (m_mode pn) = true → m_children nd = [] →
  mem_ok (link_new x p nd).2.
Proof.
  intros [Ht Hf] Hp Hd Hc. assert (x_heap x !! x_fresh x = None) as Hfresh.
  { destruct (x_heap x !! x_fresh x) eqn:E; [|done]. specialize (Hf (x_fresh x) (mk_is_Some _ _ E)). lia. }
  split; [by eapply tree_link|]. intros n. cbn. intros Hn.
  destruct (decide (n = x_fresh x)) as [->|Hne]; [lia|].
  enough (n < x_fresh x)%positive by lia. apply Hf. revert Hn. rewrite lookup_alter.
  case_decide; [subst|]; rewrite lookup_insert_ne by done; [by intros ?%fmap_is_Some|done].
Qed.

Lemma open_node_ok x n fl : mem_ok x → is_Some (x_heap x !! n) → sound (open_node x n fl).
Proof.
  intros Hx [nd Hnd]. unfold open_node. rewrite Hnd. destruct (is_dir (m_mode nd)) eqn:Ed; [done|].
  set (x1 := if has_flag fl OPFTP_O_TRUNC then _ else x).
  assert (mem_ok x1) as H1.
  { unfold x1. case_match; [|done]. by eapply mem_ok_update. }
  destruct (free_slot (x_fds x1)); by split.
Qed.

Lemma mem_open_ok p fl m x : mem_ok x → short p → sound (mem_open p fl m x).
Proof.
  intros Hx Hs. unfold mem_open. pose proof (node_lookup_live x p Hx Hs) as Hl.
  destruct (node_lookup x p) as [n|e]; [by apply open_node_ok|]. subst e.
  destruct (has_flag fl OPFTP_O_CREAT); [|done].
  pose proof (node_lookup_parent_live x p Hx Hs) as Hp.
  destruct (node_lookup_parent x p) as [[par name]|e]; [|split; [done|]; by intros [= ->]].
  destruct Hp as (pn & Hpn & Hd). rewrite Hpn, Hd. cbn [negb].
  pose proof (mem_ok_link x par pn (node_create name (Z.lor S_IFREG (if m =? 0 then 420 else m)) (x_clock x))
                Hx Hpn Hd eq_refl) as Hlk.
  destruct (link_new _ _ _) as [n x1] eqn:El. apply open_node_ok; [done|].
  injection El as <- <-. cbn. rewrite lookup_alter. case_decide; subst; rewrite lookup_insert_eq; by eexists.
Qed.

Lemma mem_write_ok fd b x : mem_ok x → mem_ok (mem_write fd b x).2.
Proof.
  intros Hx. unfold mem_write. destruct (get_fd x fd) as [f|]; [|done]. case_match; [done|].
  unfold fd_node. destruct (f_node f) as [n|]; [|done]. destruct (x_heap x !! n) as [nd|] eqn:E; [|done].
  cbn. eapply (mem_ok_update x) in E; [|done|]; [exact E|by split].
Qed.

Lemma mem_mkdir_ok p m x : mem_ok x → short p → sound (mem_mkdir p m x).
Proof.
  intros Hx Hs. unfold mem_mkdir. pose proof (node_lookup_parent_live x p Hx Hs) as Hp.
  destruct (node_lookup_parent x p) as [[par name]|e]; [|split; [done|]; by intros [= ->]].
  destruct Hp as (pn & Hpn & Hd). destruct (node_find_child x par name); [done|].
  split; [by eapply mem_ok_link|done].
Qed.

Lemma with_node_ok {A} x p (k : nid → mnode → res A * mctx) :
  mem_ok x → short p → (∀ n nd, x_heap x !! n = Some nd → sound (k n nd)) → sound (with_node x p k).
Proof.
  intros Hx Hs Hk. unfold with_node. pose proof (node_lookup_live x p Hx Hs) as Hl.
  destruct (node_lookup x p) as [n|e]; [|by subst e]. destruct Hl as [nd Hnd]. rewrite Hnd. by apply Hk.
Qed.

(** Freeing a node without children. *)
Lemma free_ok x n nd :
  mem_ok x → x_heap x !! n = Some nd → m_children nd = [] → m_parent nd ≠ None →
  mem_ok (free_node (detach x n) n).
Proof.
  intros Hx Hn Hc Hp. unfold free_node, detach. rewrite Hn.
  destruct (m_parent nd) as [p|] eqn:Ep; [|done]. cbn.
  apply (mem_ok_heap x); [done|by eapply tree_remove; [apply Hx|..]|].
  intros m [_ Hm]%lookup_delete_is_Some. revert Hm. rewrite lookup_alter.
  case_decide; [subst; by intros ?%fmap_is_Some|done].
Qed.

Lemma mem_rmdir_ok p x : mem_ok x → short p → sound (mem_rmdir p x).
Proof.
  intros Hx Hs. apply with_node_ok; [done|done|]. intros n nd Hn. destruct (negb _); [done|].
  destruct (bool_decide (m_children nd = [])) eqn:Ec; [|done]. cbn [negb].
  apply bool_decide_eq_true in Ec. case_bool_decide; [done|].
  split; [|done]. by apply (free_ok x n nd).
Qed.

Lemma root_is_dir x n nd : mem_ok x → x_heap x !! n = Some nd → m_parent nd = None → is_dir (m_mode nd) = true.
Proof.
  intros [Ht _] Hn Hp. destruct (decide (n = x_root x)) as [->|Hne].
  - destruct (tr_root _ _ Ht) as (rd & Hrd & Hd & _). congruence.
  - destruct (tr_parent _ _ Ht _ _ Hn Hne) as (? & ? & ? & _). congruence.
Qed.

Lemma mem_unlink_ok p x : mem_ok x → short p → sound (mem_unlink p x).
Proof.
  intros Hx Hs. apply with_node_ok; [done|done|]. intros n nd Hn. destruct (is_dir (m_mode nd)) eqn:Ed; [done|].
  split; [|done]. apply (free_ok x n nd); [done|done|by eapply tr_files; [apply Hx|..]|].
  intros E. apply (root_is_dir x n nd Hx Hn) in E. congruence.
Qed.

(** ** The ancestor walk ends *)

(** [l] is [q] and its parents up to a node without one. *)
Inductive chain (h : heap) : nid → list nid → Prop :=
  | chain_top q qd : h !! q = Some qd → m_parent qd = None → chain h q [q]
  | chain_step q qd p l : h !! q = Some qd → m_parent qd = Some p → chain h p l → chain h q (q :: l).

Lemma reach_chain h q : reach h q → ∃ l, chain h q l.
Proof.
  induction 1 as [q qd Hq _ IH]. destruct (m_parent qd) as [p|] eqn:E.
  - destruct (IH p eq_refl) as [l Hl]. exists (q :: l). by eapply chain_step.
  - exists [q]. by eapply chain_top.
Qed.

Lemma chain_unique h q l l' : chain h q l → chain h q l' → l = l'.
Proof.
  intros Hl. revert l'. induction Hl as [q qd Hq Hp|q qd p l Hq Hp _ IH]; intros l' Hl';
    inversion Hl'; simplify_eq; try done. f_equal. by apply IH.
Qed.

Lemma chain_tail h q l m : chain h q l → m ∈ l → ∃ l', chain h m l' ∧ (length l' ≤ length l)%nat.
Proof.
  induction 1 as [q qd Hq Hp|q qd p l Hq Hp Hl IH]; intros Hm.
  - apply list_elem_of_singleton in Hm as ->. exists [q]. split; [by eapply chain_top|done].
  - apply elem_of_cons in Hm as [->|Hm].
    + exists (q :: l). split; [by eapply chain_step|done].
    + destruct (IH Hm) as (l' & ? & ?). exists l'. split; [done|cbn; lia].
Qed.

Lemma chain_size h q l : chain h q l → (length l ≤ size h)%nat.
Proof.
  intros Hl. assert (NoDup l ∧ ∀ m, m ∈ l → is_Some (h !! m)) as [Hn Hd].
  { induction Hl as [q qd Hq Hp|q qd p l Hq Hp Hl [IHn IHd]].
    - split; [apply NoDup_singleton|]. intros m ->%list_elem_of_singleton. by eexists.
    - split.
      + apply NoDup_cons. split; [|done]. intros Hin. destruct (chain_tail _ _ _ _ Hl Hin) as (l' & Hl' & Hle).
        assert (l' = q :: l) as -> by (eapply chain_unique; [done|by eapply chain_step]). cbn in Hle. lia.
      + intros m [->|Hm]%elem_of_cons; [by eexists|by apply IHd]. }
  rewrite <-size_dom, <-(size_list_to_set (C := gset nid) l Hn). apply subseteq_size.
  intros m Hm%elem_of_list_to_set. by apply elem_of_dom, Hd.
Qed.

Lemma has_ancestor_total f h q l n :
  chain h q l → (length l ≤ f)%nat → has_ancestor f h (Some q) n ≠ None.
Proof.
  intros Hl. revert f. induction Hl as [q qd Hq Hp|q qd p l Hq Hp Hl IH]; intros f Hf;
    (destruct f as [|f]; [cbn in Hf; lia|]); cbn [has_ancestor]; case_bool_decide; try done; rewrite Hq, Hp.
  - by destruct f.
  - apply IH. cbn in Hf. lia.
Qed.

Lemma ancestor_ends x n p nd :
  mem_ok x → x_heap x !! p = Some nd → has_ancestor (S (size (x_heap x))) (x_heap x) (Some p) n ≠ None.
Proof.
  intros [Ht _] Hp. destruct (reach_chain _ _ (tr_reach _ _ Ht p (mk_is_Some _ _ Hp))) as [l Hl].
  apply (has_ancestor_total _ _ _ l); [done|]. apply chain_size in Hl. lia.
Qed.

(** Removing a plain file does not put anything on the chain of a directory. *)
Lemma avoids_remove root h n ex exd p q :
  tree root h → h !! ex = Some exd → m_children exd = [] → m_parent exd = Some p →
  avoids h n q → q ≠ ex → avoids (delete ex (alter (unlink_child ex) p h)) n q.
Proof.
  intros Ht Hex Hc Hp Hq. induction Hq as [q qd Hne Hqd _ IH]. intros Hqe.
  set (h' := delete _ _).
  assert (∃ qd', h' !! q = Some qd' ∧ m_parent qd' = m_parent qd) as (qd' & Hqd' & E).
  { unfold h'. rewrite lookup_delete_ne, lookup_alter by done.
    case_decide; subst; rewrite Hqd; by eexists. }
  apply (avoids_intro _ _ _ qd'); [done..|]. rewrite E. intros z Hz. apply (IH z Hz). intros ->.
  destruct (tree_parent_of _ _ _ _ _ Ht Hqd Hz) as (zn & Hzn & Hin & _).
  rewrite Hex in Hzn. injection Hzn as <-. rewrite Hc in Hin. by apply elem_of_nil in Hin.
Qed.

Lemma move_ok x n nd p np npn name :
  mem_ok x → x_heap x !! n = Some nd → m_parent nd = Some p →
  x_heap x !! np = Some npn → is_dir (m_mode npn) = true → avoids (x_heap x) n np →
  mem_ok (move_node x n np name).
Proof.
  intros Hx Hn Hp Hnp Hd Ha. unfold move_node, detach. rewrite Hn, Hp.
  apply (mem_ok_heap x); [done|by eapply tree_move; [apply Hx|..]|].
  intros m Hm. revert Hm. cbn. rewrite !lookup_alter.
  repeat case_decide; subst; rewrite ?fmap_is_Some; done.
Qed.

Lemma mem_rename_ok a b x : mem_ok x → short a → short b → sound (mem_rename a b x).
Proof.
  intros Hx Ha Hs. apply with_node_ok; [done|done|]. intros n nd Hn.
  destruct (m_parent nd) as [p|] eqn:Ep; [|done]. rewrite bool_decide_false by done.
  pose proof (node_lookup_parent_live x b Hx Hs) as Hl.
  destruct (node_lookup_parent x b) as [[np nn]|e]; [|split; [done|]; by intros [= ->]].
  destruct Hl as (npn & Hnp & Hd). pose proof (ancestor_ends x n np npn Hx Hnp) as Hend.
  destruct (has_ancestor _ _ _ _) as [[|]|] eqn:Ea; [done| |done].
  apply has_ancestor_false in Ea. unfold node_find_child. rewrite Hnp.
  destruct (find_name (x_heap x) (m_children npn) nn) as [ex|] eqn:Ef; [|split; [by eapply move_ok|done]].
  case_bool_decide as Hexn; [done|]. apply find_name_in in Ef.
  destruct (tr_child _ _ (proj1 Hx) _ _ _ Hnp Ef) as (exn & Hex & Hexp). rewrite Hex.
  destruct (is_dir (m_mode exn)) eqn:Ed; [done|]. destruct (is_dir (m_mode nd)) eqn:En; [done|]. cbn [orb].
  assert (m_children exn = []) as Hec by (by eapply tr_files; [apply Hx|..]).
  split; [|done]. assert (np ≠ n) as Hnpn by by destruct Ea. assert (np ≠ ex) as Hnpe by congruence.
  assert (x_heap (free_node (detach x ex) ex) = delete ex (alter (unlink_child ex) np (x_heap x))) as Eh.
  { unfold free_node, detach. by rewrite Hex, Hexp. }
  eapply (move_ok _ n nd p np (unlink_child ex npn)); rewrite ?Eh; try done.
  - apply (free_ok x ex exn); [done|done|done|by rewrite Hexp].
  - by rewrite lookup_delete_ne, lookup_alter_ne.
  - by rewrite lookup_delete_ne, lookup_alter_eq, Hnp.
  - by eapply avoids_remove; [apply Hx|..].
Qed.

(** chmod keeps the file type. *)
Lemma chmod_type m k : is_dir (u16 (Z.lor (ifmt m) (Z.land k 4095))) = is_dir m.
Proof.
  unfold is_dir. f_equal. unfold ifmt, u16, S_IFMT.
  rewrite <-(Z.land_ones _ 16) by done. rewrite <-Z.land_assoc, Z.land_lor_distr_l, <-!Z.land_assoc.
  change (Z.land 4095 (Z.land (Z.ones 16) 61440)) with 0.
  by rewrite Z.land_0_r, Z.lor_0_r.
Qed.

Lemma mem_chmod_ok p m x : mem_ok x → short p → sound (mem_chmod p m x).
Proof.
  intros Hx Hs. apply with_node_ok; [done|done|]. intros n nd Hn. split; [|done].
  eapply mem_ok_update; [done..|]. split_and!; [done|done|apply chmod_type].
Qed.

Lemma mem_utimes_ok p t x : mem_ok x → short p → sound (mem_utimes p t x).
Proof.
  intros Hx Hs. apply with_node_ok; [done|done|]. intros n nd Hn. split; [|done].
  by eapply mem_ok_update.
Qed.

(** ** Every call of the backend *)

(** One call on the backend's table: the errno it answers with ([None] on
    success) and the new state; [None] when the call has undefined
    behaviour, after which nothing is known. *)
Definition answer {A} (r : res A * mctx) : option (option errno * mctx) :=
  match r.1 with
  | Ok _ => Some (None, r.2)
  | Err e => if bool_decide (e = EFAULT) then None else Some (Some e, r.2)
  end.

Definition mem_call (o : rop) (x : mctx) : option (option errno * mctx) :=
  match o with
  | ROpen p f m => answer (mem_open p f m x) | RClose fd => answer (mem_close fd x)
  | RRead fd n => answer (mem_read fd n x) | RWrite fd b => answer (mem_write fd b x)
  | RSeek fd o w => answer (mem_seek fd o w x) | RFstat fd => answer (mem_fstat fd x)
  | RStat p => answer (mem_stat p x) | ROpendir p => answer (mem_opendir p x)
  | RReaddir d => answer (mem_readdir d x) | RClosedir d => answer (mem_closedir d x)
  | RMkdir p m => answer (mem_mkdir p m x) | RRmdir p => answer (mem_rmdir p x)
  | RUnlink p => answer (mem_unlink p x) | RRename a b => answer (mem_rename a b x)
  | RChmod p m => answer (mem_chmod p m x) | RUtimes p t => answer (mem_utimes p t x)
  end.

(** The state after a sequence of calls, and what they answered. *)
Fixpoint mem_calls (os : list rop) (x : mctx) : option (list (option errno) * mctx) :=
  match os with
  | [] => Some ([], x)
  | o :: os =>
     match mem_call o x with
     | None => None
     | Some (a, x1) =>
        match mem_calls os x1 with
        | None => None
        | Some (l, x2) => Some (a :: l, x2)
        end
     end
  end.

(** What a caller has to see to, for a call to be defined: paths that can be
    split, descriptors whose file was not removed or replaced, streams that
    are open and whose next entry was not removed. *)
Definition safe_call (o : rop) (x : mctx) : Prop :=
  match o with
  | RRead fd _ | RWrite fd _ | RSeek fd _ _ | RFstat fd =>
     ∀ f, get_fd x fd = Some f → is_Some (fd_node x f)
  | RReaddir d => ∃ next, x_dirs x !! d = Some next ∧ ∀ n, next = Some n → is_Some (x_heap x !! n)
  | RClosedir d => is_Some (x_dirs x !! d)
  | _ => Forall short (op_paths o)
  end.

(** A call that names its object by a path, not by a descriptor or a stream. *)
Definition by_path (o : rop) : bool :=
  match o with
  | ROpen _ _ _ | RStat _ | ROpendir _ | RMkdir _ _ | RRmdir _ | RUnlink _
  | RRename _ _ | RChmod _ _ | RUtimes _ _ => true
  | _ => false
  end.

(** Defined, and the tree is kept. *)
Definition kept (r : option (option errno * mctx)) : Prop :=
  match r with Some (_, x) => mem_ok x | None => False end.

Lemma answer_sound {A} (r : res A * mctx) : sound r → kept (answer r).
Proof.
  intros [H1 H2]. unfold answer. destruct r as [[a|e] x]; cbn in *; [done|].
  rewrite bool_decide_false; [done|congruence].
Qed.

Lemma mem_opendir_ok p x : mem_ok x → short p → sound (mem_opendir p x).
Proof.
  intros Hx Hs. apply with_node_ok; [done|done|]. intros n nd Hn.
  destruct (negb _); [done|]. split; [|done]. destruct Hx as [Ht Hf].
  split; [exact Ht|]. intros m Hm. specialize (Hf m Hm). cbn. lia.
Qed.

Lemma mem_stat_ok p x : mem_ok x → short p → sound (mem_stat p x).
Proof. intros Hx Hs. by apply with_node_ok. Qed.

Create HintDb memfs discriminated.
#[local] Hint Resolve mem_open_ok mem_mkdir_ok mem_rmdir_ok mem_unlink_ok mem_rename_ok
  mem_chmod_ok mem_utimes_ok mem_opendir_ok mem_stat_ok mem_write_ok : memfs.

(** The calls by path. *)
Lemma path_call_ok o x :
  by_path o = true → Forall short (op_paths o) → mem_ok x → kept (mem_call o x).
Proof.
  destruct o; intros [=] Hs Hx; cbn [op_paths] in Hs; rewrite ?Forall_cons in Hs; destruct_and?;
    apply answer_sound; auto with memfs.
Qed.

(** The calls on a descriptor or a stream leave the tree alone, but for the
    data of the file written. *)
Lemma fd_call_ok o x : by_path o = false → safe_call o x → mem_ok x → kept (mem_call o x).
Proof.
  destruct o; intros [=] Hs Hx; cbn [safe_call mem_call] in *; apply answer_sound; split; auto with memfs;
    unfold mem_close, mem_read, mem_write, mem_seek, mem_fstat, mem_readdir, mem_closedir;
    try (destruct (get_fd x _) as [f|]; [|done]); try (specialize (Hs f eq_refl) as [[m md] ->]);
    try (destruct Hs as (nx & -> & Hn); destruct nx as [m|]; [destruct (Hn m eq_refl) as [md ->]|]);
    try (destruct Hs as [nx ->]); repeat case_match; try done; exact Hx.
Qed.

Lemma mem_call_ok o x : safe_call o x → mem_ok x → kept (mem_call o x).
Proof.
  intros Hs Hx. destruct (by_path o) eqn:E; [|by apply fd_call_ok].
  apply path_call_ok; [done| |done]. by destruct o.
Qed.

(** Safe or not, a call that is defined keeps the tree. *)
Lemma fd_call_keeps o x a x' :
  by_path o = false → mem_ok x → mem_call o x = Some (a, x') → mem_ok x'.
Proof.
  intros Ho Hx E. assert (∃ B (r : res B * mctx), mem_call o x = answer r ∧ mem_ok r.2) as (B & r & Er & Hr).
  { destruct o; try done; do 2 eexists; (split; [reflexivity|]); auto with memfs;
      unfold mem_close, mem_read, mem_seek, mem_fstat, mem_readdir, mem_closedir; repeat case_match; done. }
  rewrite Er in E. unfold answer in E. repeat case_match; by simplify_eq.
Qed.

Lemma long_call_keeps o x a x' :
  by_path o = true → ¬ Forall short (op_paths o) → mem_ok x → mem_call o x = Some (a, x') → mem_ok x'.
Proof.
  intros Ho Hl Hx E.
  destruct o; try done; cbn [op_paths mem_call] in *.
  7:{ destruct (decide (short b)) as [Hb|Hb].
      - assert (¬ short a0) as [Ea _]%(long_fault x) by (intros Ha; apply Hl; auto).
        unfold mem_rename, with_node in E. by rewrite Ea in E.
      - apply (long_fault x) in Hb as [_ Eb]. unfold mem_rename, with_node in E. rewrite Eb in E.
        unfold answer in E. repeat case_match; by simplify_eq. }
  all: assert (¬ short path) as [El Ep]%(long_fault x) by (intros Hs; apply Hl; auto).
  all: unfold mem_open, mem_stat, mem_opendir, mem_mkdir, mem_rmdir, mem_unlink, mem_chmod, mem_utimes, with_node in E;
    rewrite ?El, ?Ep in E; repeat case_match; done.
Qed.

Lemma call_keeps o x a x' : mem_ok x → mem_call o x = Some (a, x') → mem_ok x'.
Proof.
  intros Hx E. destruct (by_path o) eqn:Ho; [|by eapply fd_call_keeps].
  destruct (decide (Forall short (op_paths o))) as [Hs|Hs]; [|by eapply long_call_keeps].
  pose proof (path_call_ok o x Ho Hs Hx) as Hk. by rewrite E in Hk.
Qed.

Lemma mem_calls_ok os : ∀ x l x', mem_ok x → mem_calls os x = Some (l, x') → mem_ok x'.
Proof.
  induction os as [|o os IH]; intros x l x' Hx E; cbn [mem_calls] in E; [by simplify_eq|].
  destruct (mem_call o x) as [[a x1]|] eqn:Ec; [|done].
  destruct (mem_calls os x1) as [[l2 x2]|] eqn:Es; [|done]. simplify_eq.
  eapply IH; [|exact Es]. by eapply call_keeps.
Qed.

Lemma mem_calls_fault os : ∀ x, mem_ok x → mem_calls os x = None →
  ∃ os1 o os2 l x1, os = os1 ++ o :: os2 ∧ mem_calls os1 x = Some (l, x1) ∧ mem_ok x1 ∧ ¬ safe_call o x1.
Proof.
  induction os as [|o os IH]; intros x Hx E; cbn [mem_calls] in E; [done|].
  destruct (mem_call o x) as [[a x1]|] eqn:Ec.
  - destruct (IH x1) as (os1 & o' & os2 & l & x2 & -> & El & Hx2 & Hu).
    { by eapply call_keeps. } { by destruct (mem_calls os x1) as [[]|]. }
    exists (o :: os1), o', os2, (a :: l), x2. cbn [mem_calls]. by rewrite Ec, El.
  - exists [], o, os, [], x. split_and!; [done..|]. intros Hs%mem_call_ok; [|done]. by rewrite Ec in Hs.
Qed.

Lemma create_ok clock : mem_ok (opftp_fs_mem_create clock).
Proof.
  split.
  - split; cbn.
    + eexists. by rewrite lookup_singleton_eq.
    + intros p pn c [<- <-]%lookup_singleton_Some. cbn. by intros ?%not_elem_of_nil.
    + by intros n nd [<- <-]%lookup_singleton_Some ?.
    + intros p pn [<- <-]%lookup_singleton_Some. constructor.
    + by intros n nd [<- <-]%lookup_singleton_Some.
    + intros n [nd Hn]. econstructor; [exact Hn|].
      by apply lookup_singleton_Some in Hn as [<- <-].
  - intros n [nd Hn]. cbn in Hn. by apply lookup_singleton_Some in Hn as [<- _].
Qed.

(** ** The claims *)

(** C10. Whatever calls a server makes on the in-memory filesystem, with
    whatever paths, descriptors and flags, its nodes stay one tree: parents
    and children agree, no node is listed twice, files have no children,
    every node reaches the root; a rename into the renamed directory itself,
    which would tie a cycle no walk from the root could reach, is refused.
    The only way out is undefined behaviour, and then one of three calls was
    made in a state that was still a tree: a path of more than 256 components,
    a descriptor whose file was removed or replaced, a stream that is not open
    or whose next entry was removed. *)
Theorem mem_tree_invariant clock os :
  match mem_calls os (opftp_fs_mem_create clock) with
  | Some (_, x) => mem_ok x
  | None => ∃ os1 o os2 l x, os = os1 ++ o :: os2 ∧
      mem_calls os1 (opftp_fs_mem_create clock) = Some (l, x) ∧ mem_ok x ∧ ¬ safe_call o x
  end.
Proof.
  pose proof (create_ok clock) as H0.
  destruct (mem_calls os _) as [[l x]|] eqn:E; [by eapply mem_calls_ok|by apply mem_calls_fault].
Qed.



(** A file that is removed while a descriptor is open on it: the next write
    through the descriptor is undefined. *)
Example write_after_unlink :
  mem_calls [ROpen (B "/f") (Z.lor OPFTP_O_CREAT OPFTP_O_WRONLY) 0; RUnlink (B "/f")] (opftp_fs_mem_create 0) ≠ None ∧
  mem_calls [ROpen (B "/f") (Z.lor OPFTP_O_CREAT OPFTP_O_WRONLY) 0; RUnlink (B "/f"); RWrite 1 (B "x")]
    (opftp_fs_mem_create 0) = None.
Proof. by vm_compute. Qed.

End FsMemTree.
