(* ===== verification/FsMemEnd.v ===== *)
(** * Releasing the in-memory filesystem (src/fs_mem.c)

    [opftp_fs_mem_destroy] frees the nodes without recursion: a stack of 512
    entries holds the nodes still to be freed, and a child that no longer fits
    is freed at once, without looking at its own children. On the tree of
    FsMemTree no node is read after it was freed and none is freed twice; all
    are freed when there are at most 513 of them, and a wide directory can make
    the function forget whole subtrees. *)

From S2P Require Import Prelude Types Resolve FsIface FsRooted FsMem FsMemTree.
Import FsMem FsRooted FsMemTree.

Module FsMemEnd.

Local Abbreviation heap := (gmap nid mnode).

(** [free(p)] of a node; a freed node is no longer in the heap. *)
Definition free (n : nid) (h : heap) : option heap :=
  match h !! n with Some _ => Some (delete n h) | None => None end.

(** The children of the node just popped; the top of [stack] is its head.
    Reading [ch->next] of a freed child is a fault. *)
Fixpoint push_children (ch : list nid) (stack : list nid) (h : heap) : option (list nid * heap) :=
  match ch with
  | [] => Some (stack, h)
  | c :: next =>
     match h !! c with
     | None => None
     | Some _ =>
        if (length stack <? 512)%nat then push_children next (c :: stack) h
        else match free c h with
             | Some h' => push_children next stack h'
             | None => None
             end
     end
  end.

(** The loop over the stack. *)
Fixpoint free_nodes (fuel : nat) (stack : list nid) (h : heap) : option heap :=
  match fuel, stack with
  | _, [] => Some h
  | O, _ => None
  | S f, n :: stack =>
     match h !! n with
     | None => None
     | Some node =>
        match push_children (m_children node) stack h with
        | None => None
        | Some (stack', h') =>
           match free n h' with
           | None => None
           | Some h'' => free_nodes f stack' h''
           end
        end
     end
  end.

(** [opftp_fs_mem_destroy]: the nodes and the open directories that are still
    allocated afterwards; [None] is a fault. A null filesystem is left alone. *)
Definition opftp_fs_mem_destroy (fs : option mctx) : option (heap * gmap dirh (option nid)) :=
  match fs with
  | None => Some (∅, ∅)
  | Some c =>
     match free_nodes (size (x_heap c)) [x_root c] (x_heap c) with
     | Some h => Some (h, x_dirs c)
     | None => None
     end
  end.

(** ** The children of one node *)

Lemma free_live n h : is_Some (h !! n) → free n h = Some (delete n h).
Proof. intros [nd E]. unfold free. by rewrite E. Qed.

(** [ch] was split into [pu], now on the stack, and [dr], freed at once. *)
Record pushed (ch st : list nid) (h : heap) (st' : list nid) (h' : heap) (pu dr : list nid) : Prop := mk_pushed {
  pu_split : ch ≡ₚ pu ++ dr;
  pu_stack : st' ≡ₚ pu ++ st;
  pu_kept n : n ∉ dr → h' !! n = h !! n;
  pu_freed n : n ∈ dr → h' !! n = None;
  pu_room : (length st + length ch ≤ 512)%nat → dr = []
}.

Lemma push_children_spec ch : ∀ st h,
  NoDup ch → (∀ c, c ∈ ch → is_Some (h !! c)) →
  ∃ st' h' pu dr, push_children ch st h = Some (st', h') ∧ pushed ch st h st' h' pu dr.
Proof.
  induction ch as [|c ch IH]; intros st h Hnd Hlive; simpl.
  { exists st, h, [], []. split; [done|]. by split; auto; intros ? ?%not_elem_of_nil. }
  apply NoDup_cons in Hnd as [Hc Hnd].
  destruct (Hlive c) as [cn Ec]; [left|]. rewrite Ec.
  destruct (Nat.ltb_spec (length st) 512) as [Hroom|Hfull].
  - destruct (IH (c :: st) h) as (st' & h' & pu & dr & E & [H1 H2 H3 H4 H5]); [done|intros; apply Hlive; by right|].
    exists st', h', (c :: pu), dr. split; [done|]. split; auto.
    + by rewrite H1.
    + rewrite H2. by rewrite <-Permutation_middle.
    + intros Hle. apply H5. simpl in *. lia.
  - rewrite (free_live c h) by eauto.
    destruct (IH st (delete c h)) as (st' & h' & pu & dr & E & [H1 H2 H3 H4 H5]); [done| |].
    { intros d Hd. rewrite lookup_delete_ne by congruence. apply Hlive. by right. }
    exists st', h', pu, (c :: dr). split; [done|]. split; auto.
    + by rewrite H1, Permutation_middle.
    + intros n [Hn1 Hn2]%not_elem_of_cons. rewrite H3 by done. by rewrite lookup_delete_ne.
    + intros n [->|Hn]%elem_of_cons; [|auto].
      destruct (decide (c ∈ dr)); [auto|]. rewrite H3 by done. apply lookup_delete_eq.
    + intros Hle. simpl in Hle. lia.
Qed.

(** Distinct live nodes are no more than the heap holds. *)
Lemma live_length (l : list nid) (h : heap) :
  NoDup l → (∀ n, n ∈ l → is_Some (h !! n)) → (length l ≤ size h)%nat.
Proof.
  intros Hnd Hl. rewrite <-size_dom, <-(size_list_to_set (C := gset nid) l) by done.
  apply subseteq_size. intros n Hn%elem_of_list_to_set. by apply elem_of_dom, Hl.
Qed.

(** ** The loop

    Between two rounds the nodes on the stack are live and their parents are
    gone, and a live node has all its children: children go only after their
    parent was popped. *)

Section loop.
Context (root : nid) (h0 : heap) (Htree : tree root h0).

Record freeing (st : list nid) (h : heap) : Prop := mk_freeing {
  fr_sub : h ⊆ h0;
  fr_nodup : NoDup st;
  fr_live n : n ∈ st → is_Some (h !! n);
  fr_top n nd p : n ∈ st → h0 !! n = Some nd → m_parent nd = Some p → h !! p = None;
  fr_kids p pn c : h !! p = Some pn → c ∈ m_children pn → is_Some (h !! c)
}.

(** Nothing was dropped so far: every live node still hangs below the stack. *)
Definition complete (st : list nid) (h : heap) : Prop :=
  ∀ n nd, h !! n = Some nd → n ∈ st ∨ ∃ p, m_parent nd = Some p ∧ is_Some (h !! p).

Lemma freeing_start : freeing [root] h0 ∧ complete [root] h0.
Proof using Htree.
  destruct Htree as [(rd & Er & _ & Epar) Hc Hp _ _ _]. split; [split|].
  - done.
  - apply NoDup_singleton.
  - intros n ->%list_elem_of_singleton. eauto.
  - intros n nd p ->%list_elem_of_singleton. congruence.
  - intros p pn c Epn Hin. destruct (Hc _ _ _ Epn Hin) as (cn & ? & _). eauto.
  - intros n nd En. destruct (decide (n = root)) as [->|Hne]; [left; by apply list_elem_of_singleton|].
    right. destruct (Hp _ _ En Hne) as (p & pn & ? & ? & _). eauto.
Qed.

Lemma child_parent h p pn c :
  h ⊆ h0 → h !! p = Some pn → c ∈ m_children pn → ∃ cn, h0 !! c = Some cn ∧ m_parent cn = Some p.
Proof using Htree. intros Hs Ep Hin. eapply (tr_child _ _ Htree); [eapply lookup_weaken|]; eauto. Qed.

Lemma child_listed h m md p pn :
  h ⊆ h0 → h !! m = Some md → m_parent md = Some p → h !! p = Some pn → m ∈ m_children pn.
Proof using Htree.
  intros Hs Em Ep Epn. pose proof (lookup_weaken _ _ _ _ Em Hs) as Em0.
  destruct (decide (m = root)) as [->|Hne].
  - destruct (tr_root _ _ Htree) as (rd & Er & _ & Hr). congruence.
  - destruct (tr_parent _ _ Htree _ _ Em0 Hne) as (q & qn & Eq & Eqn & Hin).
    pose proof (lookup_weaken _ _ _ _ Epn Hs). congruence.
Qed.

(** A heap in which every node has a live parent is empty, for the chain of
    parents of a node of the tree ends. *)
Lemma rootless_empty h : h ⊆ h0 → complete [] h → h = ∅.
Proof using Htree.
  intros Hs Hco. apply map_empty. intros n. destruct (h !! n) as [nd|] eqn:En; [exfalso|done].
  pose proof (lookup_weaken _ _ _ _ En Hs) as En0.
  assert (reach h0 n) as Hr by (apply (tr_reach _ _ Htree); eauto).
  clear En0. revert nd En. induction Hr as [n nd0 En0 _ IH]; intros nd En.
  pose proof (lookup_weaken _ _ _ _ En Hs).
  destruct (Hco n nd En) as [[]%not_elem_of_nil|(p & Ep & [pn Epn])].
  eapply (IH p); [congruence|exact Epn].
Qed.

(** One round: the popped node [n] was live, its children were too. *)
Lemma round_freeing n st h :
  freeing (n :: st) h →
  ∃ nd st' h' pu dr,
    h !! n = Some nd ∧ push_children (m_children nd) st h = Some (st', h') ∧
    pushed (m_children nd) st h st' h' pu dr ∧ is_Some (h' !! n) ∧ freeing st' (delete n h').
Proof using Htree.
  intros [Hsub Hnd Hlive Htop Hkids]. apply NoDup_cons in Hnd as [Hn Hnd].
  destruct (Hlive n) as [nd En]; [left|].
  assert (∀ c, c ∈ m_children nd → ∃ cn, h0 !! c = Some cn ∧ m_parent cn = Some n) as Hpar
    by (intros; eapply child_parent; eauto).
  assert (∀ c, c ∈ m_children nd → c ∉ n :: st) as Hfresh.
  { intros c Hc Hin. destruct (Hpar c Hc) as (cn & Ec & Ep). rewrite (Htop c cn n Hin Ec Ep) in En. done. }
  destruct (push_children_spec (m_children nd) st h) as (st' & h' & pu & dr & E & Hp).
  { eapply (tr_nodup _ _ Htree). eapply lookup_weaken; eauto. }
  { intros c. by apply (Hkids n). }
  pose proof Hp as [Hsplit Hst Hkept Hfreed _].
  assert (∀ c, c ∈ pu ∨ c ∈ dr → c ∈ m_children nd) as Hin by (intros c; rewrite Hsplit, elem_of_app; tauto).
  assert (n ∉ dr) as Hndr by (intros Hd; eapply Hfresh; [eauto|left]).
  assert (∀ m md, h' !! m = Some md → h !! m = Some md ∧ m ∉ dr) as Hback.
  { intros m md Em. destruct (decide (m ∈ dr)) as [Hd|Hd]; [by rewrite Hfreed in Em|]. by rewrite <-Hkept. }
  exists nd, st', h', pu, dr. split_and!; [done..|by rewrite Hkept|].
  assert (NoDup (pu ++ dr)) as Hpd.
  { rewrite <-Hsplit. eapply (tr_nodup _ _ Htree). eapply lookup_weaken; eauto. }
  apply NoDup_app in Hpd as (Hpu & Hdisj & _).
  split.
  - apply map_subseteq_spec. intros m md [_ Em]%lookup_delete_Some.
    eapply lookup_weaken; [|done]. by apply Hback.
  - rewrite Hst. apply NoDup_app. split_and!; [done| |done].
    intros c Hc Hcs. eapply Hfresh; [eauto|by right].
  - intros m Hm. rewrite Hst, elem_of_app in Hm. rewrite lookup_delete_ne.
    + rewrite Hkept; [|destruct Hm; [auto|intros Hd; eapply Hfresh; [eauto|by right]]].
      destruct Hm; [apply (Hkids n nd); auto|apply Hlive; by right].
    + intros ->. destruct Hm as [Hm|Hm]; [|done]. eapply Hfresh; [eauto|left].
  - intros m md p Hm Em Ep. apply lookup_delete_None. destruct (decide (n = p)) as [|Hne]; [by left|right].
    rewrite Hst, elem_of_app in Hm. destruct Hm as [Hm|Hm].
    + destruct (Hpar m) as (cn & Ec & Ep'); [auto|]. congruence.
    + destruct (h' !! p) eqn:Ehp; [|done]. apply Hback in Ehp as [Ehp _].
      rewrite (Htop m md p) in Ehp; [done|by right|done..].
  - intros p pn c [Hne Epn]%lookup_delete_Some Hc. apply Hback in Epn as [Epn _].
    destruct (child_parent h p pn c) as (cn & Ecn & Ecp); [done..|].
    rewrite lookup_delete_ne.
    + rewrite Hkept; [eauto|]. intros Hd. destruct (Hpar c) as (cn' & Ec' & Ep'); [auto|]. congruence.
    + intros <-. rewrite (Htop n cn p) in Epn; [done|left|done..].
Qed.
Lemma pushed_size ch st h st' h' pu dr n nd :
  pushed ch st h st' h' pu dr → h !! n = Some nd → is_Some (h' !! n) →
  (size (delete n h') < size h)%nat.
Proof.
  intros [_ _ Hkept Hfreed _] En Hn.
  rewrite map_size_delete_Some by done.
  assert (size h' ≤ size h)%nat.
  { apply map_subseteq_size, map_subseteq_spec. intros m md Em.
    destruct (decide (m ∈ dr)) as [Hd|Hd]; [by rewrite Hfreed in Em|by rewrite <-Hkept]. }
  assert (size h' ≠ 0)%nat by (intros ->%map_size_empty_inv; by destruct Hn).
  lia.
Qed.

(** The loop ends without a fault, whatever is dropped. *)
Lemma free_nodes_safe f : ∀ st h,
  freeing st h → (size h ≤ f)%nat → ∃ h', free_nodes f st h = Some h' ∧ h' ⊆ h0.
Proof using Htree.
  induction f as [|f IH]; intros st h Hfr Hf.
  { destruct st as [|n st]; [exists h; split; [done|apply Hfr]|].
    destruct (fr_live _ _ Hfr n) as [nd En]; [left|].
    assert (h = ∅) as -> by (apply map_size_empty_inv; lia). done. }
  destruct st as [|n st]; [exists h; split; [done|apply Hfr]|].
  destruct (round_freeing n st h Hfr) as (nd & st' & h' & pu & dr & En & Ep & Hp & Hn & Hfr').
  pose proof (pushed_size _ _ _ _ _ _ _ _ _ Hp En Hn).
  cbn [free_nodes]. rewrite En, Ep, (free_live n h' Hn). apply IH; [done|lia].
Qed.

(** The stack never holds more nodes than are live, so nothing is dropped
    when at most 513 are. *)
Lemma round_complete n st h nd st' h' pu dr :
  freeing (n :: st) h → complete (n :: st) h → (size h ≤ 513)%nat →
  h !! n = Some nd → pushed (m_children nd) st h st' h' pu dr →
  dr = [] ∧ complete st' (delete n h').
Proof using Htree.
  intros Hfr Hco Hsz En [Hsplit Hst Hkept Hfreed Hroom].
  pose proof Hfr as [Hsub Hnd Hlive Htop Hkids].
  assert (∀ c, c ∈ m_children nd → ∃ cn, h0 !! c = Some cn ∧ m_parent cn = Some n) as Hpar
    by (intros; eapply child_parent; eauto).
  assert (NoDup ((n :: st) ++ m_children nd)) as Hall.
  { apply NoDup_app. split_and!; [done| |eapply (tr_nodup _ _ Htree), lookup_weaken; eauto].
    intros c Hin Hc. destruct (Hpar c Hc) as (cn & Ec & Epc). by rewrite (Htop c cn n Hin Ec Epc) in En. }
  assert (length st + length (m_children nd) ≤ 512)%nat as Hle.
  { apply live_length with (h := h) in Hall; [rewrite length_app in Hall; simpl in Hall; lia|].
    intros c [Hc|Hc]%elem_of_app; [by apply Hlive|by apply (Hkids n nd)]. }
  rewrite (Hroom Hle) in *. split; [done|].
  intros m md [Hne Em]%lookup_delete_Some. rewrite Hkept in Em by apply not_elem_of_nil.
  rewrite Hst, elem_of_app.
  destruct (Hco m md Em) as [[->|Hin]%elem_of_cons|(p & Epm & Hp)]; [done|tauto|].
  destruct (decide (p = n)) as [->|Hpn].
  - left. left. rewrite app_nil_r in Hsplit. rewrite <-Hsplit.
    apply (child_listed h m md n nd); auto.
  - right. exists p. split; [done|]. rewrite lookup_delete_ne by done.
    rewrite Hkept; [done|apply not_elem_of_nil].
Qed.

Lemma free_nodes_all f : ∀ st h h',
  freeing st h → complete st h → (size h ≤ 513)%nat →
  free_nodes f st h = Some h' → h' = ∅.
Proof using Htree.
  induction f as [|f IH]; intros [|n st] h h' Hfr Hco Hsz E; simpl in E; simplify_eq.
  1,2: by eapply rootless_empty; [apply Hfr|].
  destruct (round_freeing n st h Hfr) as (nd & st' & h1 & pu & dr & En & Ep & Hp & Hn & Hfr').
  pose proof (pushed_size _ _ _ _ _ _ _ _ _ Hp En Hn).
  destruct (round_complete _ _ _ _ _ _ _ _ Hfr Hco Hsz En Hp) as [_ Hco'].
  rewrite En, Ep, (free_live n h1 Hn) in E. eapply IH; [done..|lia|done].
Qed.
End loop.

(** ** What is left *)

Lemma destroy_safe x :
  mem_ok x → ∃ h, opftp_fs_mem_destroy (Some x) = Some (h, x_dirs x) ∧ h ⊆ x_heap x ∧
    ((size (x_heap x) ≤ 513)%nat → h = ∅).
Proof.
  intros [Ht _]. destruct (freeing_start _ _ Ht) as [Hfr Hco].
  destruct (free_nodes_safe _ _ Ht (size (x_heap x)) _ _ Hfr) as (h & E & Hs); [done|].
  exists h. unfold opftp_fs_mem_destroy. rewrite E. split_and!; [done..|].
  intros Hsz. by eapply (free_nodes_all _ _ Ht).
Qed.

(** Whatever calls were made on an in-memory filesystem, as long as they were
    defined, releasing it reads no freed node, frees no node twice and ends;
    nothing is left of a filesystem of at most 513 nodes. *)
Theorem mem_destroy_safe clock os l x :
  mem_calls os (opftp_fs_mem_create clock) = Some (l, x) →
  ∃ h, opftp_fs_mem_destroy (Some x) = Some (h, x_dirs x) ∧ h ⊆ x_heap x ∧
    ((size (x_heap x) ≤ 513)%nat → h = ∅).
Proof. intros E. by eapply destroy_safe, mem_calls_ok; [apply create_ok|]. Qed.

(** With 515 nodes a node can be left: the directory made first is the last of
    513 children, is freed without being looked into, and its own directory is
    never freed. Directories opened and not closed are never freed either. *)
Definition wide_calls : list rop :=
  RMkdir (B "/a") 493 :: RMkdir (B "/a/b") 493 ::
  ((λ i, RMkdir (SLASH :: chr (65 + Z.of_nat (i / 26)) :: [chr (65 + Z.of_nat (i mod 26))]) 493) <$> seq 0 512).

Example wide_directory_leaks :
  (λ '(_, x), (size (x_heap x), (λ '(h, _), (m_name ∘ snd) <$> map_to_list h) <$> opftp_fs_mem_destroy (Some x)))
    <$> mem_calls wide_calls (opftp_fs_mem_create 0)
  = Some (515%nat, Some [B "b"]).
Proof. by vm_compute. Qed.

Example open_directory_leaks :
  (λ '(_, x), (λ '(h, ds), (size h, size ds)) <$> opftp_fs_mem_destroy (Some x))
    <$> mem_calls [ROpendir (B "/")] (opftp_fs_mem_create 0)
  = Some (Some (0%nat, 1%nat)).
Proof. by vm_compute. Qed.

End FsMemEnd.
