(* ===== verification/FsPosix.v ===== *)
(** * src/fs_posix.c: the host backend

    [PosixOps] has one operation per POSIX call the two host backends make on
    files; none is defined here. [posix_vtable] is the table
    [opftp_fs_posix]. A directory stream has finitely many entries left
    ([px_entries]), of which [readdir] takes the first ([PosixDirs]). *)

From S2P Require Import Prelude Types FsIface FsMem.

Local Open Scope Z_scope.

Module FsPosix.

(** fcntl.h of the host. *)
Definition O_RDONLY : Z := 0.
Definition O_WRONLY : Z := 1.
Definition O_RDWR : Z := 2.
Definition O_CREAT : Z := 64.
Definition O_TRUNC : Z := 512.
Definition O_APPEND : Z := 1024.

(** A directory entry as readdir(3) gives it: the name, and whether [d_type]
    is DT_DIR. *)
Record dirent := mk_raw { d_name : bytes; d_dir : bool }.

Class PosixOps (P : Type) := {
  px_open : bytes → Z → Z → P → res Z * P;
  px_close : Z → P → res () * P;
  px_read : Z → nat → P → res bytes * P;
  px_write : Z → bytes → P → res nat * P;
  px_lseek : Z → Z → whence → P → res Z * P;
  px_fstat : Z → P → res opftp_stat * P;
  px_stat : bytes → P → res opftp_stat * P;
  px_opendir : bytes → P → res dirh * P;
  px_readdir : dirh → P → res (option dirent) * P;
  (** [fstatat] relative to the directory of the stream. *)
  px_fstatat : dirh → bytes → P → res opftp_stat * P;
  px_closedir : dirh → P → res () * P;
  px_mkdir : bytes → Z → P → res () * P;
  px_rmdir : bytes → P → res () * P;
  px_unlink : bytes → P → res () * P;
  px_rename : bytes → bytes → P → res () * P;
  px_chmod : bytes → Z → P → res () * P;
  (** [utimensat] with the access time set to now. *)
  px_utimes : bytes → Z → P → res () * P;
  px_realpath : bytes → P → res bytes * P;
  (** The entries a stream has not yielded yet. *)
  px_entries : dirh → P → list dirent
}.

(** readdir(3): the entries come in order and end; [fstatat] takes none. *)
Class PosixDirs (P : Type) `{PosixOps P} := {
  px_readdir_entry d p e p' :
    px_readdir d p = (Ok (Some e), p') → px_entries d p = e :: px_entries d p';
  px_readdir_end d p p' : px_readdir d p = (Ok None, p') → px_entries d p = [] ∧ px_entries d p' = [];
  px_fstatat_keeps d n p r p' : px_fstatat d n p = (r, p') → ∀ d', px_entries d' p' = px_entries d' p
}.

Section Posix.
Context {P : Type} `{PosixOps P}.

(** The flags of open(2). *)
Definition posix_oflags (flags : Z) : Z :=
  let acc := Z.land flags 3 in
  let o := if acc =? OPFTP_O_RDONLY then O_RDONLY
           else if acc =? OPFTP_O_WRONLY then O_WRONLY else O_RDWR in
  let o := if has_flag flags OPFTP_O_CREAT then Z.lor o O_CREAT else o in
  let o := if has_flag flags OPFTP_O_TRUNC then Z.lor o O_TRUNC else o in
  if has_flag flags OPFTP_O_APPEND then Z.lor o O_APPEND else o.

Definition posix_open (path : bytes) (flags mode : Z) (p : P) : res Z * P :=
  px_open path (posix_oflags flags) (if mode =? 0 then 420 else mode) p.

Definition posix_close (fd : Z) (p : P) : res () * P := px_close fd p.
Definition posix_read (fd : Z) (n : nat) (p : P) : res bytes * P := px_read fd n p.
Definition posix_write (fd : Z) (b : bytes) (p : P) : res nat * P := px_write fd b p.
Definition posix_seek (fd off : Z) (w : whence) (p : P) : res Z * P := px_lseek fd off w p.

(** [st_mode & (S_IFMT | 07777)], as a uint16_t. *)
Definition mode16 (m : Z) : Z := u16 (Z.land m (Z.lor S_IFMT 4095)).

Definition stat_to_opftp (st : opftp_stat) : opftp_stat :=
  mk_stat (mode16 (st_mode st)) (u64 (st_size st)) (s64 (st_mtime st)) (st_uid st) (st_gid st).

Definition map_ok {A C} (f : A → C) (r : res A * P) : res C * P :=
  match r with (Ok a, p) => (Ok (f a), p) | (Err e, p) => (Err e, p) end.

Definition posix_fstat (fd : Z) (p : P) : res opftp_stat * P := map_ok stat_to_opftp (px_fstat fd p).
Definition posix_stat (path : bytes) (p : P) : res opftp_stat * P := map_ok stat_to_opftp (px_stat path p).

Definition posix_opendir (path : bytes) (p : P) : res dirh * P := px_opendir path p.

Definition is_dots (n : bytes) : bool := streq n (B ".") || streq n (B "..").

(** The loop that skips "." and ".."; [None] when the fuel runs out. *)
Fixpoint skip_dots (fuel : nat) (d : dirh) (p : P) : option (res (option dirent) * P) :=
  match fuel with
  | O => None
  | S f =>
     match px_readdir d p with
     | (Ok (Some e), p1) => if is_dots (d_name e) then skip_dots f d p1 else Some (Ok (Some e), p1)
     | r => Some r
     end
  end.

(** The entry reported for a name: the metadata of the file, or a guess from
    [d_type] when it cannot be had. *)
Definition dirent_of (e : dirent) (st : res opftp_stat) : opftp_dirent :=
  match st with
  | Ok s => mk_dirent (bprintf 256 (d_name e)) (mode16 (st_mode s)) (u64 (st_size s)) (s64 (st_mtime s))
              (st_uid s) (st_gid s)
  | Err _ => mk_dirent (bprintf 256 (d_name e)) (if d_dir e then Z.lor S_IFDIR 493 else Z.lor S_IFREG 420)
               0 0 0 0
  end.

Definition posix_readdir (d : dirh) (p : P) : res (option opftp_dirent) * P :=
  match skip_dots (S (length (px_entries d p))) d p with
  | Some (Ok (Some e), p1) =>
     let '(st, p2) := px_fstatat d (d_name e) p1 in (Ok (Some (dirent_of e st)), p2)
  | Some (Ok None, p1) => (Ok None, p1)
  | Some (Err e, p1) => (Err e, p1)
  | None => (Err EFAULT, p)
  end.

Definition posix_closedir (d : dirh) (p : P) : res () * P := px_closedir d p.
Definition posix_mkdir (path : bytes) (mode : Z) (p : P) : res () * P :=
  px_mkdir path (if mode =? 0 then 493 else mode) p.
Definition posix_rmdir (path : bytes) (p : P) : res () * P := px_rmdir path p.
Definition posix_unlink (path : bytes) (p : P) : res () * P := px_unlink path p.
Definition posix_rename (a b : bytes) (p : P) : res () * P := px_rename a b p.
Definition posix_chmod (path : bytes) (mode : Z) (p : P) : res () * P := px_chmod path mode p.
Definition posix_utimes (path : bytes) (mtime : Z) (p : P) : res () * P := px_utimes path mtime p.

#[export] Instance posix_vtable : FsOps P := {|
  fs_open := posix_open; fs_close := posix_close; fs_read := posix_read;
  fs_write := posix_write; fs_seek := posix_seek; fs_fstat := posix_fstat;
  fs_stat := posix_stat; fs_opendir := posix_opendir; fs_readdir := posix_readdir;
  fs_closedir := posix_closedir; fs_mkdir := posix_mkdir; fs_rmdir := posix_rmdir;
  fs_unlink := posix_unlink; fs_rename := posix_rename; fs_chmod := posix_chmod;
  fs_utimes := posix_utimes; fs_realpath := px_realpath;
  fs_dir_left d p := length (px_entries d p)
|}.

(** ** The stream of entries *)

Context `{!PosixDirs P}.

(** The entries of a stream that are not "." or "..". *)
Definition visible (l : list dirent) : list dirent := filter (λ e, is_dots (d_name e) = false) l.

(** The skipping loop ends: at the next visible entry, at the end, or on an
    error. *)
Lemma skip_dots_spec f d p :
  (length (px_entries d p) < f)%nat →
  match skip_dots f d p with
  | Some (Ok (Some e), p1) => is_dots (d_name e) = false ∧ visible (px_entries d p) = e :: visible (px_entries d p1) ∧
                              (length (px_entries d p1) < length (px_entries d p))%nat
  | Some (Ok None, p1) => visible (px_entries d p) = [] ∧ px_entries d p1 = []
  | Some (Err _, _) => True
  | None => False
  end.
Proof.
  revert p. induction f as [|f IH]; intros p Hf; [lia|]. cbn [skip_dots].
  destruct (px_readdir d p) as [[[e|]|er] p1] eqn:E; [|apply px_readdir_end in E as [-> ->]; done|done].
  apply px_readdir_entry in E. rewrite E in *. cbn [length] in Hf.
  unfold visible. rewrite filter_cons. destruct (is_dots (d_name e)) eqn:Ed.
  - rewrite decide_False by done. specialize (IH p1 ltac:(lia)).
    destruct (skip_dots f d p1) as [[[[e'|]|er] p2]|]; [|done..].
    destruct IH as (? & ? & ?). split_and!; [done|done|cbn; lia].
  - rewrite decide_True by done. split_and!; [done|done|cbn; lia].
Qed.

#[export] Program Instance posix_dir_laws : FsDirLaws P := {| fs_wf _ := True |}.
Next Obligation. done. Qed.
Next Obligation.
  intros d p de p' _. cbn. unfold posix_readdir.
  pose proof (skip_dots_spec (S (length (px_entries d p))) d p ltac:(lia)) as Hs.
  destruct (skip_dots _ d p) as [[[[e|]|er] p1]|]; [|done..].
  destruct (px_fstatat d (d_name e) p1) as [st p2] eqn:Ef. intros [= _ <-].
  rewrite (px_fstatat_keeps _ _ _ _ _ Ef). lia.
Qed.

(** Reading a directory to its end, or to the first error. *)
Fixpoint read_all (fuel : nat) (d : dirh) (p : P) : option (list opftp_dirent * res () * P) :=
  match fuel with
  | O => None
  | S f =>
     match posix_readdir d p with
     | (Ok (Some de), p1) => (λ '(l, r, p2), (de :: l, r, p2)) <$> read_all f d p1
     | (Ok None, p1) => Some ([], Ok (), p1)
     | (Err e, p1) => Some ([], Err e, p1)
     end
  end.

Lemma read_all_spec f d p :
  (length (px_entries d p) < f)%nat →
  ∃ l r p', read_all f d p = Some (l, r, p') ∧
    (de_name <$> l) `prefix_of` ((λ e, bprintf 256 (d_name e)) <$> visible (px_entries d p)) ∧
    (r = Ok () → de_name <$> l = (λ e, bprintf 256 (d_name e)) <$> visible (px_entries d p)).
Proof.
  revert p. induction f as [|f IH]; intros p Hf; [lia|]. cbn [read_all]. unfold posix_readdir.
  pose proof (skip_dots_spec (S (length (px_entries d p))) d p ltac:(lia)) as Hs.
  destruct (skip_dots _ d p) as [[[[e|]|er] p1]|]; [| | |done].
  - destruct Hs as (Hd & Hv & Hl). destruct (px_fstatat d (d_name e) p1) as [st p2] eqn:Ef.
    pose proof (px_fstatat_keeps _ _ _ _ _ Ef d) as Hk.
    destruct (IH p2) as (l & r & p' & -> & Hp & Hr); [rewrite Hk; lia|].
    rewrite Hk in Hp, Hr. eexists _, _, _. split; [done|]. rewrite Hv. cbn.
    assert (de_name (dirent_of e st) = bprintf 256 (d_name e)) as -> by by destruct st.
    split; [by apply prefix_cons|]. intros ->. by rewrite Hr.
  - destruct Hs as [-> _]. eexists _, _, _. split; [done|]. done.
  - eexists _, _, _. split; [done|]. split; [apply prefix_nil|done].
Qed.

End Posix.

(** ** A host to run the definitions on

    Files live in the in-memory backend; a directory stream is the list of
    names read when it was opened, "." and ".." first. *)
Record host := mk_host { hf_mem : FsMem.mctx; hf_dirs : gmap dirh (list dirent); hf_next : dirh }.

Definition on_mem {A} (f : FsMem.mctx → res A * FsMem.mctx) (h : host) : res A * host :=
  let '(r, x) := f (hf_mem h) in (r, mk_host x (hf_dirs h) (hf_next h)).

Definition opftp_flags (o : Z) : Z :=
  Z.lor (Z.land o 3 + 1) (Z.land o (Z.lor O_CREAT (Z.lor O_TRUNC O_APPEND))).

Definition child_entry (x : FsMem.mctx) (n : FsMem.nid) : option dirent :=
  (λ nd, mk_raw (FsMem.m_name nd) (is_dir (FsMem.m_mode nd))) <$> FsMem.x_heap x !! n.

Definition list_dir (path : bytes) (x : FsMem.mctx) : res (list dirent) :=
  match FsMem.node_lookup x path with
  | Err e => Err e
  | Ok n =>
     match FsMem.x_heap x !! n with
     | Some nd => if is_dir (FsMem.m_mode nd)
                  then Ok (mk_raw (B ".") true :: mk_raw (B "..") true :: omap (child_entry x) (FsMem.m_children nd))
                  else Err ENOTDIR
     | None => Err EFAULT
     end
  end.

#[export] Instance PosixOps_host : PosixOps host := {|
  px_open p o m := on_mem (FsMem.mem_open p (opftp_flags o) m);
  px_close fd := on_mem (FsMem.mem_close fd);
  px_read fd n := on_mem (FsMem.mem_read fd n);
  px_write fd b := on_mem (FsMem.mem_write fd b);
  px_lseek fd o w := on_mem (FsMem.mem_seek fd o w);
  px_fstat fd := on_mem (FsMem.mem_fstat fd);
  px_stat p := on_mem (FsMem.mem_stat p);
  px_opendir p h :=
    match list_dir p (hf_mem h) with
    | Ok l => (Ok (hf_next h), mk_host (hf_mem h) (<[hf_next h := l]> (hf_dirs h)) (Pos.succ (hf_next h)))
    | Err e => (Err e, h)
    end;
  px_readdir d h :=
    match hf_dirs h !! d with
    | Some (e :: l) => (Ok (Some e), mk_host (hf_mem h) (<[d := l]> (hf_dirs h)) (hf_next h))
    | Some [] => (Ok None, h)
    | None => (Err EBADF, h)
    end;
  px_fstatat _ _ h := (Err ENOENT, h);
  px_closedir d h := (Ok (), mk_host (hf_mem h) (delete d (hf_dirs h)) (hf_next h));
  px_mkdir p m := on_mem (FsMem.mem_mkdir p m);
  px_rmdir p := on_mem (FsMem.mem_rmdir p);
  px_unlink p := on_mem (FsMem.mem_unlink p);
  px_rename a b := on_mem (FsMem.mem_rename a b);
  px_chmod p m := on_mem (FsMem.mem_chmod p m);
  px_utimes p t := on_mem (FsMem.mem_utimes p t);
  px_realpath p h := (Err ENOENT, h);
  px_entries d h := default [] (hf_dirs h !! d)
|}.

#[export] Program Instance PosixDirs_host : PosixDirs host.
Next Obligation.
  intros d h e h'. cbn. destruct (hf_dirs h !! d) as [[|e' l]|]; [done| |done].
  intros [= <- <-]. cbn. by rewrite lookup_insert_eq.
Qed.
Next Obligation.
  intros d h h'. cbn. destruct (hf_dirs h !! d) as [[|e' l]|] eqn:E; [|done|done].
  intros [= <-]. by rewrite E.
Qed.
Next Obligation. cbn. by intros d n h r h' [= _ <-]. Qed.

Definition host0 : host := mk_host (FsMem.opftp_fs_mem_create 0) ∅ 1%positive.

(** Listing a directory of the host terminates and shows what is there:
    reading the stream to its end yields, in order, every entry but "." and
    "..", each once, under its name cut to 255 bytes; when [readdir] fails on
    the way, a prefix of them. *)
Theorem posix_listing_complete {P : Type} `{PosixDirs P} (d : dirh) (p : P) :
  ∃ l r p', read_all (S (length (px_entries d p))) d p = Some (l, r, p') ∧
    (de_name <$> l) `prefix_of` ((λ e, bprintf 256 (d_name e)) <$> visible (px_entries d p)) ∧
    (r = Ok () → de_name <$> l = (λ e, bprintf 256 (d_name e)) <$> visible (px_entries d p)).
Proof. apply read_all_spec. lia. Qed.

Lemma posix_listing_complete_witness :
  let p := (px_opendir (B "/") (px_mkdir (B "/a") 493 host0).2).2 in
  ∃ l r p', read_all (S (length (px_entries 1%positive p))) 1%positive p = Some (l, r, p') ∧
    (de_name <$> l) `prefix_of` ((λ e, bprintf 256 (d_name e)) <$> visible (px_entries 1%positive p)) ∧
    (r = Ok () → de_name <$> l = (λ e, bprintf 256 (d_name e)) <$> visible (px_entries 1%positive p)).
Proof. exact (@posix_listing_complete host _ PosixDirs_host 1%positive _). Defined.

(** The directory of the witness has one visible entry. *)
Example listing_one :
  option_map (λ x : list opftp_dirent * res () * host, map de_name x.1.1)
    (read_all 5 1%positive (px_opendir (B "/") (px_mkdir (B "/a") 493 host0).2).2) = Some [B "a"].
Proof. vm_compute. reflexivity. Qed.

(** The open flags reach the host unchanged in meaning: for a flag word
    made of one access mode and any of the create, truncate and append flags,
    open(2) gets the access mode of the same name and exactly the flags of the
    same name. *)
Theorem posix_flags_faithful (acc : Z) (c t a : bool)
    (Hacc : acc = OPFTP_O_RDONLY ∨ acc = OPFTP_O_WRONLY ∨ acc = OPFTP_O_RDWR) :
  let flag (b : bool) (f : Z) := if b then f else 0 in
  posix_oflags (Z.lor acc (Z.lor (flag c OPFTP_O_CREAT) (Z.lor (flag t OPFTP_O_TRUNC) (flag a OPFTP_O_APPEND)))) =
  Z.lor (if acc =? OPFTP_O_RDONLY then O_RDONLY else if acc =? OPFTP_O_WRONLY then O_WRONLY else O_RDWR)
    (Z.lor (flag c O_CREAT) (Z.lor (flag t O_TRUNC) (flag a O_APPEND))).
Proof. destruct Hacc as [-> | [-> | ->]], c, t, a; reflexivity. Qed.

Lemma posix_flags_faithful_witness :
  posix_oflags (Z.lor OPFTP_O_WRONLY (Z.lor OPFTP_O_CREAT (Z.lor 0 OPFTP_O_APPEND))) =
  Z.lor O_WRONLY (Z.lor O_CREAT (Z.lor 0 O_APPEND)).
Proof. exact (posix_flags_faithful OPFTP_O_WRONLY true false true (or_intror (or_introl eq_refl))). Defined.

End FsPosix.
