(* ===== verification/FsPs3.v ===== *)
(** * src/fs_ps3.c: the console backend

    [CellOps] has one operation per call of the console's file library; a
    failing call returns a non-zero 32-bit code, [inr] here. The backend turns
    codes into errno values ([cell_to_errno]) and hands directory entries out
    of a buffer it refills from [cellFsGetDirectoryEntries]. A directory
    handle is the heap object [struct ps3_dir]. The shared I/O buffer only
    changes the speed of the calls and is left out. *)

From S2P Require Import Prelude Types FsIface.

Local Open Scope Z_scope.

Module FsPs3.

(** ** Errors *)

(** errno values by number, as the console's headers define them. *)
Definition errno_of (n : Z) : errno :=
  match n with
  | 1 => EPERM | 2 => ENOENT | 5 => EIO | 9 => EBADF | 11 => EAGAIN | 12 => ENOMEM | 13 => EACCES
  | 14 => EFAULT | 16 => EBUSY | 17 => EEXIST | 20 => ENOTDIR | 21 => EISDIR | 22 => EINVAL
  | 24 => EMFILE | 27 => EFBIG | 28 => ENOSPC | 29 => ESPIPE | 30 => EROFS | 32 => EPIPE
  | _ => EOTHER n
  end.

(** The table of CELL codes. *)
Definition cell_table : list (Z * errno) :=
  [(0x80010001, EPERM); (0x80010005, EIO); (0x80010006, ENOENT); (0x80010009, EBADF);
   (0x8001000A, EBUSY); (0x8001000C, ENOMEM); (0x8001000D, EACCES); (0x8001000E, EFAULT);
   (0x80010011, EEXIST); (0x80010014, ENOTDIR); (0x80010015, EISDIR); (0x80010016, EINVAL);
   (0x80010018, EMFILE); (0x8001001C, ENOSPC); (0x8001001E, EROFS); (0x8001001F, EFBIG);
   (0x80010020, ESPIPE); (0x80010021, EPIPE); (0x80010022, ENAMETOOLONG);
   (0x80010027, ENOTEMPTY); (0x8001002B, ENOSYS)].

Fixpoint find_code (e : Z) (l : list (Z * errno)) : errno :=
  match l with
  | [] => EIO
  | (c, r) :: l' => if e =? c then r else find_code e l'
  end.

(** [cell_to_errno], of a signed 32-bit code. *)
Definition cell_to_errno (ret : Z) : errno :=
  let e := u32 ret in
  if (ret <? 0) && (0 <? - ret) && (- ret <? 4096) then errno_of (- ret)
  else if (0 <? e) && (e <? 4096) then errno_of e
  else find_code e cell_table.

(** ** The calls *)

(** The open flags of the console. *)
Definition CELL_FS_O_RDONLY : Z := 0.
Definition CELL_FS_O_WRONLY : Z := 1.
Definition CELL_FS_O_RDWR : Z := 2.
Definition CELL_FS_O_CREAT : Z := 64.
Definition CELL_FS_O_TRUNC : Z := 512.
Definition CELL_FS_O_APPEND : Z := 1024.

Record cell_entry := mk_cell { ce_name : bytes; ce_attr : opftp_stat }.

(** A result, or the code of the failure. *)
Definition cell_res (A : Type) : Type := A + Z.

Class CellOps (C : Type) := {
  cellFsOpen : bytes → Z → C → cell_res Z * C;
  cellFsClose : Z → C → Z * C;
  cellFsRead : Z → nat → C → cell_res bytes * C;
  cellFsWrite : Z → bytes → C → cell_res nat * C;
  cellFsLseek : Z → Z → whence → C → cell_res Z * C;
  cellFsFstat : Z → C → cell_res opftp_stat * C;
  cellFsStat : bytes → C → cell_res opftp_stat * C;
  cellFsOpendir : bytes → C → cell_res Z * C;
  (** The entries that fit the buffer size given, none at the end. *)
  cellFsGetDirectoryEntries : Z → nat → C → cell_res (list cell_entry) * C;
  cellFsClosedir : Z → C → Z * C;
  cellFsMkdir : bytes → Z → C → Z * C;
  cellFsRmdir : bytes → C → Z * C;
  cellFsUnlink : bytes → C → Z * C;
  cellFsRename : bytes → bytes → C → Z * C;
  cellFsChmod : bytes → Z → C → Z * C;
  cellFsUtime : bytes → Z → C → Z * C;
  (** The entries a directory descriptor has not returned yet. *)
  cell_entries : Z → C → list cell_entry
}.

(** [struct ps3_dir]: the batch from [idx] on, [idx < count]. *)
Record ps3_dir := mk_dir { pd_fd : Z; pd_batch : list cell_entry }.

(** The backend's state: the console and the heap of handles. *)
Record ps3 (C : Type) := mk_ps3 { p_cell : C; p_dirs : gmap dirh ps3_dir; p_fresh : dirh }.
#[global] Arguments mk_ps3 {_}.
#[global] Arguments p_cell {_}.
#[global] Arguments p_dirs {_}.
#[global] Arguments p_fresh {_}.
#[export] Instance ps3_settable C : Settable (ps3 C) := λ x, mk_ps3 (p_cell x) (p_dirs x) (p_fresh x).

Section Ps3.
Context {C : Type} `{CellOps C}.
Implicit Types s : ps3 C.

(** A call that answers with a value, its code turned into an errno. *)
Definition value {A} (f : C → cell_res A * C) (err : Z → errno) (s : ps3 C) : res A * ps3 C :=
  match f (p_cell s) with
  | (inl a, c) => (Ok a, s <| p_cell := c |>)
  | (inr rc, c) => (Err (err rc), s <| p_cell := c |>)
  end.

(** A call that answers with a code. *)
Definition status (f : C → Z * C) (s : ps3 C) : res () * ps3 C :=
  match f (p_cell s) with
  | (rc, c) => (if rc =? 0 then Ok () else Err (cell_to_errno rc), s <| p_cell := c |>)
  end.

Definition ps3_oflags (flags : Z) : Z :=
  let acc := Z.land flags 3 in
  let o := if acc =? OPFTP_O_WRONLY then CELL_FS_O_WRONLY
           else if acc =? OPFTP_O_RDWR then CELL_FS_O_RDWR else CELL_FS_O_RDONLY in
  let o := if has_flag flags OPFTP_O_CREAT then Z.lor o CELL_FS_O_CREAT else o in
  let o := if has_flag flags OPFTP_O_TRUNC then Z.lor o CELL_FS_O_TRUNC else o in
  if has_flag flags OPFTP_O_APPEND then Z.lor o CELL_FS_O_APPEND else o.

Definition ps3_open (path : bytes) (flags mode : Z) : ps3 C → res Z * ps3 C :=
  value (cellFsOpen path (ps3_oflags flags)) cell_to_errno.

(** [ps3_close] returns the code and leaves errno alone; a caller sees a
    failure without an errno of its own. *)
Definition ps3_close (fd : Z) (s : ps3 C) : res () * ps3 C :=
  match cellFsClose fd (p_cell s) with
  | (rc, c) => (if rc =? 0 then Ok () else Err E0, s <| p_cell := c |>)
  end.

Definition ps3_read (fd : Z) (n : nat) : ps3 C → res bytes * ps3 C := value (cellFsRead fd n) (λ _, EIO).
Definition ps3_write (fd : Z) (b : bytes) : ps3 C → res nat * ps3 C := value (cellFsWrite fd b) (λ _, EIO).
Definition ps3_seek (fd off : Z) (w : whence) : ps3 C → res Z * ps3 C :=
  value (cellFsLseek fd off w) cell_to_errno.

Definition fsstat_to_opftp (st : opftp_stat) : opftp_stat :=
  mk_stat (u16 (st_mode st)) (st_size st) (s64 (st_mtime st)) 0 0.

Definition map_ok {A D} (f : A → D) (r : res A * ps3 C) : res D * ps3 C :=
  match r with (Ok a, p) => (Ok (f a), p) | (Err e, p) => (Err e, p) end.

Definition ps3_fstat (fd : Z) (s : ps3 C) : res opftp_stat * ps3 C :=
  map_ok fsstat_to_opftp (value (cellFsFstat fd) (λ _, EIO) s).
Definition ps3_stat (path : bytes) (s : ps3 C) : res opftp_stat * ps3 C :=
  map_ok fsstat_to_opftp (value (cellFsStat path) cell_to_errno s).

Definition ps3_opendir (path : bytes) (s : ps3 C) : res dirh * ps3 C :=
  match value (cellFsOpendir path) cell_to_errno s with
  | (Ok fd, s1) =>
     (Ok (p_fresh s1), s1 <| p_dirs := <[p_fresh s1 := mk_dir fd []]> (p_dirs s1) |>
                          <| p_fresh := Pos.succ (p_fresh s1) |>)
  | (Err e, s1) => (Err e, s1)
  end.

(** The name test of the loop, character by character. *)
Definition is_dots (n : bytes) : bool :=
  match n with
  | c :: r =>
     ceq c DOT && match r with
                  | [] => true
                  | c1 :: r1 => ceq c1 DOT && match r1 with [] => true | _ => false end
                  end
  | [] => false
  end.

(** The size of one entry is passed, whatever the batch can hold. *)
Definition ENTRIES : nat := 1.

(** The loop of [ps3_readdir]: refill when the batch is used up, take the
    next entry, go on at "." and "..". *)
Fixpoint ps3_next (fuel : nat) (d : ps3_dir) (c : C) : option (res (option cell_entry) * ps3_dir * C) :=
  match fuel with
  | O => None
  | S f =>
     match pd_batch d with
     | e :: b =>
        if is_dots (ce_name e) then ps3_next f (mk_dir (pd_fd d) b) c
        else Some (Ok (Some e), mk_dir (pd_fd d) b, c)
     | [] =>
        match cellFsGetDirectoryEntries (pd_fd d) ENTRIES c with
        | (inr rc, c1) => Some (Err (cell_to_errno rc), d, c1)
        | (inl [], c1) => Some (Ok None, d, c1)
        | (inl (e :: b), c1) =>
           if is_dots (ce_name e) then ps3_next f (mk_dir (pd_fd d) b) c1
           else Some (Ok (Some e), mk_dir (pd_fd d) b, c1)
        end
     end
  end.

(** The entries a handle will still look at. *)
Definition pending (d : ps3_dir) (c : C) : list cell_entry := pd_batch d ++ cell_entries (pd_fd d) c.

Definition dirent_of (e : cell_entry) : opftp_dirent :=
  let a := ce_attr e in
  mk_dirent (bprintf 256 (ce_name e)) (u16 (st_mode a)) (st_size a) (s64 (st_mtime a))
    (u32 (st_uid a)) (u32 (st_gid a)).

Definition ps3_readdir (h : dirh) (s : ps3 C) : res (option opftp_dirent) * ps3 C :=
  match p_dirs s !! h with
  | None => (Err EFAULT, s)
  | Some d =>
     match ps3_next (S (length (pending d (p_cell s)))) d (p_cell s) with
     | Some (r, d1, c1) =>
        (match r with
         | Ok (Some e) => Ok (Some (dirent_of e))
         | Ok None => Ok None
         | Err e => Err e
         end, s <| p_cell := c1 |> <| p_dirs := <[h := d1]> (p_dirs s) |>)
     | None => (Err EFAULT, s)
     end
  end.

Definition ps3_closedir (h : dirh) (s : ps3 C) : res () * ps3 C :=
  match p_dirs s !! h with
  | None => (Err EFAULT, s)
  | Some d =>
     match cellFsClosedir (pd_fd d) (p_cell s) with
     | (rc, c) => (if rc =? 0 then Ok () else Err E0, s <| p_cell := c |> <| p_dirs := delete h (p_dirs s) |>)
     end
  end.

Definition ps3_mkdir (path : bytes) (mode : Z) : ps3 C → res () * ps3 C := status (cellFsMkdir path mode).
Definition ps3_rmdir (path : bytes) : ps3 C → res () * ps3 C := status (cellFsRmdir path).
Definition ps3_unlink (path : bytes) : ps3 C → res () * ps3 C := status (cellFsUnlink path).
Definition ps3_rename (a b : bytes) : ps3 C → res () * ps3 C := status (cellFsRename a b).
Definition ps3_chmod (path : bytes) (mode : Z) : ps3 C → res () * ps3 C := status (cellFsChmod path mode).
Definition ps3_utimes (path : bytes) (mtime : Z) : ps3 C → res () * ps3 C := status (cellFsUtime path mtime).

(** [opftp_fs_ps3]; the rooted wrapper does not call realpath on the console. *)
#[export] Instance opftp_fs_ps3 : FsOps (ps3 C) := {|
  fs_open := ps3_open; fs_close := ps3_close; fs_read := ps3_read;
  fs_write := ps3_write; fs_seek := ps3_seek; fs_fstat := ps3_fstat;
  fs_stat := ps3_stat; fs_opendir := ps3_opendir; fs_readdir := ps3_readdir;
  fs_closedir := ps3_closedir; fs_mkdir := ps3_mkdir; fs_rmdir := ps3_rmdir;
  fs_unlink := ps3_unlink; fs_rename := ps3_rename; fs_chmod := ps3_chmod;
  fs_utimes := ps3_utimes; fs_realpath _ s := (Err ENOSYS, s);
  fs_dir_left h s := match p_dirs s !! h with Some d => length (pending d (p_cell s)) | None => 0%nat end
|}.

(** ** The stream of entries *)

Lemma is_dots_spec n : is_dots n = true ↔ n = B "." ∨ n = B "..".
Proof.
  change (B ".") with [DOT]. change (B "..") with [DOT; DOT].
  destruct n as [|a [|b [|c r]]]; cbn; rewrite ?andb_true_iff, ?andb_false_r, ?ceq_true; naive_solver.
Qed.

End Ps3.

(** The console hands its entries out in order, at least one per call until
    the end. *)
Class CellDirs (C : Type) `{CellOps C} := {
  cell_batch fd n c l c' :
    cellFsGetDirectoryEntries fd n c = (inl l, c') → cell_entries fd c = l ++ cell_entries fd c';
  cell_end fd n c c' :
    cellFsGetDirectoryEntries fd n c = (inl [], c') → cell_entries fd c = []
}.

Section Stream.
Context {C : Type} `{CellDirs C}.

Definition visible (l : list cell_entry) : list cell_entry := filter (λ e, is_dots (ce_name e) = false) l.

Lemma visible_cons e l :
  visible (e :: l) = if is_dots (ce_name e) then visible l else e :: visible l.
Proof. unfold visible. rewrite filter_cons. by destruct (is_dots (ce_name e)). Qed.

(** The loop ends, at the next visible entry, at the end or on an error. *)
Lemma ps3_next_spec f d c :
  (length (pending d c) < f)%nat →
  match ps3_next f d c with
  | Some (Ok (Some e), d1, c1) =>
     is_dots (ce_name e) = false ∧ visible (pending d c) = e :: visible (pending d1 c1) ∧
     (length (pending d1 c1) < length (pending d c))%nat
  | Some (Ok None, d1, c1) => visible (pending d c) = []
  | Some (Err _, _, _) => True
  | None => False
  end.
Proof.
  revert d c. induction f as [|f IH]; intros d c Hf; [lia|]. cbn [ps3_next].
  destruct d as [fd [|e b]]; unfold pending in *; cbn [pd_batch pd_fd app] in *.
  - destruct (cellFsGetDirectoryEntries fd ENTRIES c) as [[l|rc] c1] eqn:E; [|done].
    pose proof (cell_batch _ _ _ _ _ E) as Hb.
    destruct l as [|e b]; [by rewrite (cell_end _ _ _ _ E)|].
    rewrite Hb in *. cbn [app length] in *. rewrite visible_cons.
    destruct (is_dots (ce_name e)) eqn:Ed; [|split_and!; [done|done|cbn; lia]].
    specialize (IH (mk_dir fd b) c1). cbn [pd_batch pd_fd] in IH. specialize (IH ltac:(lia)).
    destruct (ps3_next f (mk_dir fd b) c1) as [[[[[e'|]|er] d2] c2]|]; [|done..].
    destruct IH as (? & ? & ?). split_and!; [done|done|cbn; lia].
  - rewrite visible_cons. cbn [length] in Hf.
    destruct (is_dots (ce_name e)) eqn:Ed; [|split_and!; [done|done|cbn; lia]].
    specialize (IH (mk_dir fd b) c). cbn [pd_batch pd_fd] in IH. specialize (IH ltac:(lia)).
    destruct (ps3_next f (mk_dir fd b) c) as [[[[[e'|]|er] d2] c2]|]; [|done..].
    destruct IH as (? & ? & ?). split_and!; [done|done|cbn; lia].
Qed.

(** What the callers of [readdir] rely on. *)
#[export] Program Instance ps3_dir_laws : FsDirLaws (ps3 C) := {| fs_wf _ := True |}.
Next Obligation. done. Qed.
Next Obligation.
  intros h s de s' _. cbn. unfold ps3_readdir. destruct (p_dirs s !! h) as [d|]; [|done].
  pose proof (ps3_next_spec (S (length (pending d (p_cell s)))) d (p_cell s) ltac:(lia)) as Hs.
  destruct (ps3_next _ d (p_cell s)) as [[[[[e|]|er] d1] c1]|]; [|done..].
  intros [= _ <-]. cbn. rewrite lookup_insert_eq. cbn in *. lia.
Qed.

End Stream.

(** Every failure of the console leaves an errno: for each non-zero code
    the errno is a real one, the plain errno values come through unchanged
    whichever sign they have, and the codes of the CELL table come out as the
    errno of the same name; anything else is EIO. *)
Theorem cell_errno_sound (ret : Z) (Hrange : - 2 ^ 31 < ret < 2 ^ 31) (Hne : ret ≠ 0) :
  cell_to_errno ret ≠ E0 ∧
  (0 < Z.abs ret < 4096 → cell_to_errno ret = errno_of (Z.abs ret)) ∧
  (4096 ≤ Z.abs ret → cell_to_errno ret = find_code (u32 ret) cell_table).
Proof.
  assert (∀ n, errno_of n ≠ E0) as Hn.
  { intros n. unfold errno_of. by repeat case_match. }
  assert (∀ l e, Forall (λ x : Z * errno, x.2 ≠ E0) l → find_code e l ≠ E0) as Hl.
  { induction l as [|[c r] l IH]; intros e Hf; [done|]. apply Forall_cons_1 in Hf as [Hr Hf].
    cbn. case_match; [done|by apply IH]. }
  assert (0 < Z.abs ret < 4096 → cell_to_errno ret = errno_of (Z.abs ret)) as H1.
  { intros Ha. unfold cell_to_errno, u32. destruct (Z.ltb_spec ret 0).
    - destruct (Z.ltb_spec 0 (- ret)); [|lia]. destruct (Z.ltb_spec (- ret) 4096); [|lia].
      cbn [andb]. f_equal. lia.
    - rewrite Z.mod_small by lia. cbn [andb].
      destruct (Z.ltb_spec 0 ret); [|lia]. destruct (Z.ltb_spec ret 4096); [|lia]. cbn [andb]. f_equal. lia. }
  assert (4096 ≤ Z.abs ret → cell_to_errno ret = find_code (u32 ret) cell_table) as H2.
  { intros Ha. unfold cell_to_errno. replace (- ret <? 4096) with (negb (ret <? 0)).
    - assert ((0 <? u32 ret) && (u32 ret <? 4096) = false) as ->; [|by destruct (ret <? 0), (0 <? - ret)].
      unfold u32. destruct (Z.ltb_spec ret 0).
      + replace (ret mod 2 ^ 32) with (ret + 2 ^ 32); [|apply Z.mod_unique with (-1); lia].
        destruct (Z.ltb_spec (ret + 2 ^ 32) 4096); [lia|by rewrite andb_false_r].
      + rewrite Z.mod_small by lia. destruct (Z.ltb_spec ret 4096); [lia|by rewrite andb_false_r].
    - destruct (Z.ltb_spec ret 0), (Z.ltb_spec (- ret) 4096); cbn; try done; lia. }
  split_and!; [|done|done]. destruct (decide (Z.abs ret < 4096)).
  - rewrite H1 by lia. apply Hn.
  - rewrite H2 by lia. apply Hl. by repeat constructor.
Qed.

Lemma cell_errno_sound_witness :
  cell_to_errno (-2147418106) ≠ E0 ∧
  (0 < Z.abs (-2147418106) < 4096 → cell_to_errno (-2147418106) = errno_of (Z.abs (-2147418106))) ∧
  (4096 ≤ Z.abs (-2147418106) → cell_to_errno (-2147418106) = find_code (u32 (-2147418106)) cell_table).
Proof. apply (cell_errno_sound (-2147418106)); [lia|done]. Defined.

Example cell_enoent : cell_to_errno (-2147418106) = ENOENT.
Proof. reflexivity. Qed.

End FsPs3.
