(* ===== verification/Sys.v ===== *)
(** * The operating system and mbedtls, as the program sees them

    [SysOps] has one operation per system or library call the modelled code
    makes on sockets, pipes, clocks and TLS contexts, on a machine state; [Err
    e] is the -1 return with [errno = e]. None of them is defined here: they
    are parameters of every definition that uses them. Socket options and
    the non-blocking flag change nothing the model observes, so the calls that
    set them are left out. *)

From S2P Require Import Prelude Types CLib.
Import CLib.

Local Open Scope Z_scope.

(** ** poll(2) *)

Definition POLLIN : Z := 1.
Definition POLLPRI : Z := 2.
Definition POLLOUT : Z := 4.
Definition POLLERR : Z := 8.
Definition POLLHUP : Z := 16.
Definition POLLNVAL : Z := 32.

Definition has (revents mask : Z) : bool := negb (Z.land revents mask =? 0).

(** ** mbedtls results *)

Inductive ssl_res (A : Type) :=
  | SslOk (a : A) | SslWantRead | SslWantWrite | SslCloseNotify | SslErr.
Arguments SslOk {_} a.
Arguments SslWantRead {_}.
Arguments SslWantWrite {_}.
Arguments SslCloseNotify {_}.
Arguments SslErr {_}.

Class SysOps (OS : Type) := {
  sys_socket : family → OS → res Z * OS;
  sys_bind : Z → sockaddr → OS → res () * OS;
  sys_listen : Z → OS → res () * OS;
  sys_getsockname : Z → OS → res sockaddr * OS;
  sys_accept : Z → OS → res (Z * sockaddr) * OS;
  sys_connect : Z → sockaddr → OS → res () * OS;
  sys_so_error : Z → OS → errno * OS;
  sys_send : Z → bytes → OS → res nat * OS;
  sys_recv : Z → nat → OS → res bytes * OS;
  (** The descriptors with the events asked for, and the timeout; the
      [revents] of each descriptor (all zero, or no list, on a timeout). *)
  sys_poll : list (Z * Z) → Z → OS → res (list Z) * OS;
  sys_close : Z → OS → OS;
  sys_pipe : OS → res (Z * Z) * OS;
  (** One byte written to a pipe; the result is ignored everywhere. *)
  sys_wake : Z → OS → OS;
  (** Reading a pipe until it is empty. *)
  sys_drain : Z → OS → OS;
  sys_time : OS → Z;
  sys_now_ms : OS → Z;
  sys_localtime_r : OS → Z → option tm;
  inet_pton : family → bytes → option bytes;
  inet_ntop6 : bytes → bytes;
  (** mbedtls: the session carries what tls.c keeps beside the context. *)
  ssl_setup : OS → bool * OS;
  ssl_handshake : tls_session → OS → ssl_res () * (tls_session * OS);
  ssl_read : nat → tls_session → OS → ssl_res bytes * (tls_session * OS);
  ssl_write : bytes → tls_session → OS → ssl_res nat * (tls_session * OS);
  ssl_close_notify : tls_session → OS → ssl_res () * (tls_session * OS);
  ssl_free : tls_session → OS → OS
}.

(** ** Assumptions on a stream socket

    [wire os fd] is what the kernel has accepted on a descriptor. [send]
    appends a prefix of the buffer to it or fails and appends nothing; [poll]
    appends nothing. [stall] bounds how often the kernel will still answer
    EAGAIN after [poll] reported the socket writable. *)
Class SysStream (OS : Type) `{SysOps OS} := {
  wire : OS → Z → bytes;
  stall : OS → nat;
  send_ok fd b os n os' :
    sys_send fd b os = (Ok n, os') →
    (n ≤ length b)%nat ∧ wire os' fd = wire os fd ++ take n b ∧ (stall os' ≤ stall os)%nat;
  send_err fd b os e os' :
    sys_send fd b os = (Err e, os') →
    wire os' fd = wire os fd ∧ (stall os' ≤ stall os)%nat ∧
    (e = EAGAIN → (stall os' < stall os)%nat);
  poll_keeps l t os r os' fd :
    sys_poll l t os = (r, os') → wire os' fd = wire os fd ∧ (stall os' ≤ stall os)%nat
}.

(** ** A scripted machine

    A concrete machine on which the definitions run: sockets are always ready,
    accept what is sent and receive from a script (an empty chunk is the end
    of the stream); pipes, numbered from 1000, are readable once their other
    end was written; every other call succeeds. *)
Record script := mk_script {
  sc_recv : list bytes;        (* what successive [recv] calls return *)
  sc_sent : list (Z * bytes);
  sc_closed : list Z;
  sc_fd : Z;                   (* next socket *)
  sc_pipe : Z;                 (* next pipe *)
  sc_woken : list Z;           (* pipes written to and not drained *)
  sc_clock : Z
}.
#[export] Instance script_settable : Settable script := λ x,
  mk_script (sc_recv x) (sc_sent x) (sc_closed x) (sc_fd x) (sc_pipe x) (sc_woken x) (sc_clock x).

Definition sc_wire (os : script) (fd : Z) : bytes :=
  concat (snd <$> filter (λ '(f, _), f = fd) (sc_sent os)).

(** The events [poll] reports. *)
Definition sc_ready (os : script) (fd ev : Z) : Z :=
  if fd <? 0 then 0
  else if fd <? 1000 then ev
  else if bool_decide (fd + 1 ∈ sc_woken os) then ev else 0.

#[export] Instance SysOps_script : SysOps script := {|
  sys_socket _ os := (Ok (sc_fd os), os <| sc_fd := sc_fd os + 1 |>);
  sys_bind _ _ os := (Ok (), os);
  sys_listen _ os := (Ok (), os);
  sys_getsockname _ os := (Ok (SA_in [chr 127; chr 0; chr 0; chr 1] 2121), os);
  sys_accept _ os := (Err EAGAIN, os);
  sys_connect _ _ os := (Ok (), os);
  sys_so_error _ os := (E0, os);
  sys_send fd b os := (Ok (length b), os <| sc_sent := sc_sent os ++ [(fd, b)] |>);
  sys_recv _ n os :=
    match sc_recv os with
    | [] => (Err EAGAIN, os)
    | b :: bs =>
       (Ok (take n b), os <| sc_recv := match drop n b with [] => bs | r => r :: bs end |>)
    end;
  sys_poll l _ os := (Ok ((λ '(fd, ev), sc_ready os fd ev) <$> l), os);
  sys_close fd os := os <| sc_closed := sc_closed os ++ [fd] |>;
  sys_pipe os := (Ok (sc_pipe os, sc_pipe os + 1), os <| sc_pipe := sc_pipe os + 2 |>);
  sys_wake w os := os <| sc_woken := w :: sc_woken os |>;
  sys_drain r os := os <| sc_woken := filter (λ w, w ≠ r + 1) (sc_woken os) |>;
  sys_time := sc_clock;
  sys_now_ms os := sc_clock os * 1000;
  sys_localtime_r _ t := gmtime_r t;
  inet_pton f a := None;
  inet_ntop6 a := [];
  ssl_setup os := (true, os);
  ssl_handshake t os := (SslOk (), (t, os));
  ssl_read _ t os := (SslWantRead, (t, os));
  ssl_write b t os := (SslOk (length b), (t, os));
  ssl_close_notify t os := (SslOk (), (t, os));
  ssl_free _ os := os
|}.

#[export] Program Instance SysStream_script : SysStream script := {|
  wire := sc_wire; stall _ := 0%nat
|}.
Next Obligation.
  intros fd b os n os' [= <- <-]. split_and!; [done| |done].
  unfold sc_wire. cbn. rewrite list.filter_app, fmap_app, concat_app, firstn_all.
  by rewrite filter_cons_True, filter_nil by done; cbn; rewrite app_nil_r.
Qed.
Next Obligation. done. Qed.
Next Obligation. intros l t os r os' fd [= <- <-]. done. Qed.

Definition script_with (input : list bytes) : script :=
  mk_script input [] [] 10 1000 [] 1700000000.
Definition script0 : script := script_with [].
