(* ===== verification/Tls.v ===== *)
(** * src/tls.c: TLS sessions

    What tls.c itself decides around mbedtls: the read-ahead bytes handed
    over with AUTH TLS ([pending]), the BIO callbacks mbedtls calls, and the
    translation of its results. *)

From S2P Require Import Prelude Types Sys.

Local Open Scope Z_scope.

Module Tls.

Definition TLS_PENDING : nat := 1024.

(** tls.h: results of a handshake step, and of a read or write. *)
Inductive hs_res := HS_DONE | HS_WANT_READ | HS_WANT_WRITE | HS_ERR.
Inductive io_res (A : Type) := IO_DONE (a : A) | IO_WANT_READ | IO_WANT_WRITE | IO_ERR.
Arguments IO_DONE {_} a.
Arguments IO_WANT_READ {_}.
Arguments IO_WANT_WRITE {_}.
Arguments IO_ERR {_}.

#[export] Instance hs_res_eq_dec : EqDecision hs_res.
Proof. solve_decision. Defined.

Section Tls.
Context {OS : Type} `{SysOps OS}.

(** [bio_recv]: pending bytes first, then the socket; [Err] for any fatal
    error. *)
Definition bio_recv (t : tls_session) (len : nat) (os : OS)
  : ssl_res bytes * (tls_session * OS) :=
  match t_pending t with
  | _ :: _ =>
     let n := Nat.min len (length (t_pending t)) in
     (SslOk (take n (t_pending t)), (t <| t_pending := drop n (t_pending t) |>, os))
  | [] =>
     match sys_recv (t_fd t) len os with
     | (Ok b, os') => (SslOk b, (t, os'))
     | (Err e, os') =>
        (if bool_decide (e = EAGAIN ∨ e = EINTR) then SslWantRead else SslErr, (t, os'))
     end
  end.

Definition bio_send (t : tls_session) (buf : bytes) (os : OS) : ssl_res nat * OS :=
  match sys_send (t_fd t) buf os with
  | (Ok O, os') => (SslErr, os')
  | (Ok n, os') => (SslOk n, os')
  | (Err e, os') =>
     (if bool_decide (e = EAGAIN ∨ e = EINTR) then SslWantWrite else SslErr, os')
  end.

(** [opftp_tls_session_create]; [ctx] tells whether there is an enabled
    context. *)
Definition opftp_tls_session_create (ctx : bool) (fd : Z) (pending : bytes) (deadline : Z)
  (os : OS) : res tls_session * OS :=
  if negb ctx then (Err EINVAL, os)
  else
    let n := Nat.min (length pending) TLS_PENDING in
    let t := mk_tls fd deadline (take n pending) in
    match ssl_setup os with
    | (true, os') => (Ok t, os')
    | (false, os') => (Err EINVAL, os')
    end.

Definition opftp_tls_handshake (t : tls_session) (os : OS) : hs_res * (tls_session * OS) :=
  match ssl_handshake t os with
  | (SslOk _, r) => (HS_DONE, r)
  | (SslWantRead, r) => (HS_WANT_READ, r)
  | (SslWantWrite, r) => (HS_WANT_WRITE, r)
  | (_, r) => (HS_ERR, r)
  end.

Definition opftp_tls_read (len : nat) (t : tls_session) (os : OS)
  : io_res bytes * (tls_session * OS) :=
  match ssl_read len t os with
  | (SslOk b, r) => (IO_DONE b, r)
  | (SslCloseNotify, r) => (IO_DONE [], r)
  | (SslWantRead, r) => (IO_WANT_READ, r)
  | (SslWantWrite, r) => (IO_WANT_WRITE, r)
  | (SslErr, r) => (IO_ERR, r)
  end.

Definition opftp_tls_write (buf : bytes) (t : tls_session) (os : OS)
  : io_res nat * (tls_session * OS) :=
  match ssl_write buf t os with
  | (SslOk (S n), r) => (IO_DONE (S n), r)
  | (SslWantRead, r) => (IO_WANT_READ, r)
  | (SslWantWrite, r) => (IO_WANT_WRITE, r)
  | (_, r) => (IO_ERR, r)
  end.

Definition opftp_tls_close_notify (t : tls_session) (os : OS) : hs_res * (tls_session * OS) :=
  match ssl_close_notify t os with
  | (SslOk _, r) => (HS_DONE, r)
  | (SslWantRead, r) => (HS_WANT_READ, r)
  | (SslWantWrite, r) => (HS_WANT_WRITE, r)
  | (_, r) => (HS_ERR, r)
  end.

Definition opftp_tls_session_free (t : tls_session) (os : OS) : OS := ssl_free t os.

End Tls.

(** ** The context of a server

    What [opftp_tls_ctx_init] does is the list of its calls, in order; [rc] is
    what mbedtls answers to each. The objects are the members of the struct. *)

Inductive tls_obj := entropy | drbg | cert | key | conf | tickets.

Inductive tls_call :=
  | T_init (o : tls_obj) | T_free (o : tls_obj)
  | T_mutex_create | T_mutex_destroy
  | T_seed | T_parse_cert (pem : bytes) | T_parse_key (pem : bytes)
  | T_config_defaults | T_authmode_none | T_conf_rng
  | T_min_version (major minor : Z) | T_max_version (major minor : Z)
  | T_own_cert | T_ticket_setup (lifetime : Z) | T_ticket_cb | T_tickets_enabled.

(** The calls after the mutex; the flag says whether the result is checked. *)
Definition ctx_calls (cert_pem key_pem : bytes) : list (tls_call * bool) :=
  [(T_init entropy, false); (T_init drbg, false); (T_init cert, false); (T_init key, false);
   (T_init conf, false); (T_init tickets, false);
   (T_seed, true); (T_parse_cert cert_pem, true); (T_parse_key key_pem, true); (T_config_defaults, true);
   (T_authmode_none, false); (T_conf_rng, false); (T_min_version 3 3, false); (T_max_version 3 3, false);
   (T_own_cert, true); (T_ticket_setup 86400, true); (T_ticket_cb, false); (T_tickets_enabled, false)].

(** Until the first checked call that fails. *)
Fixpoint run_calls (rc : tls_call → Z) (l : list (tls_call * bool)) : list tls_call * bool :=
  match l with
  | [] => ([], true)
  | (c, checked) :: l' =>
     if (checked : bool) && negb (rc c =? 0) then ([c], false)
     else let '(t, ok) := run_calls rc l' in (c :: t, ok)
  end.

(** [ctx] and [mutex] tell whether the allocations succeed. *)
Definition opftp_tls_ctx_free : list tls_call :=
  [T_mutex_destroy; T_free tickets; T_free conf; T_free key; T_free cert; T_free drbg; T_free entropy].

Definition opftp_tls_ctx_init (ctx mutex : bool) (rc : tls_call → Z) (cert_pem key_pem : option bytes)
  : res () * list tls_call :=
  match cert_pem, key_pem with
  | Some cert_pem, Some key_pem =>
     if negb ctx then (Err ENOMEM, [])
     else if negb mutex then (Err ENOMEM, [])
     else
       let '(t, ok) := run_calls rc (ctx_calls cert_pem key_pem) in
       if ok then (Ok (), T_mutex_create :: t) else (Err EINVAL, T_mutex_create :: t ++ opftp_tls_ctx_free)
  | _, _ => (Err EINVAL, [])
  end.

(** What is held after a list of calls; [None] when something is released
    that is not held, or taken twice. *)
#[export] Instance tls_obj_eq_dec : EqDecision tls_obj.
Proof. solve_decision. Defined.

Definition held_step (h : list (option tls_obj)) (c : tls_call) : option (list (option tls_obj)) :=
  let take o := if decide (o ∈ h) then None else Some (o :: h) in
  let drop o := if decide (o ∈ h) then Some (filter (λ x, x ≠ o) h) else None in
  match c with
  | T_init o => take (Some o)
  | T_free o => drop (Some o)
  | T_mutex_create => take None
  | T_mutex_destroy => drop None
  | _ => Some h
  end.

Fixpoint held (h : list (option tls_obj)) (l : list tls_call) : option (list (option tls_obj)) :=
  match l with [] => Some h | c :: l' => h ← held_step h c; held h l' end.

(** Every path of [opftp_tls_ctx_init] is balanced: a failure leaves nothing
    held, success leaves exactly what [opftp_tls_ctx_free] releases, and only
    a context restricted to TLS 1.2 is handed out. *)
Theorem tls_ctx_balanced ctx mutex rc cert_pem key_pem :
  match opftp_tls_ctx_init ctx mutex rc cert_pem key_pem with
  | (Err _, t) => held [] t = Some []
  | (Ok _, t) => held [] (t ++ opftp_tls_ctx_free) = Some [] ∧ T_min_version 3 3 ∈ t ∧ T_max_version 3 3 ∈ t ∧
                 rc T_own_cert = 0
  end.
Proof.
  unfold opftp_tls_ctx_init. destruct cert_pem as [c|], key_pem as [k|]; try done. destruct ctx; [|done]. destruct mutex; [|done].
  cbn [negb ctx_calls run_calls andb].
  repeat match goal with |- context [rc ?x =? 0] => destruct (Z.eqb_spec (rc x) 0); cbn [negb andb]; [|by vm_compute] end.
  split; [by vm_compute|]. split_and!; [set_solver|set_solver|done].
Qed.

End Tls.
