(* ===== verification/Streams.v ===== *)
(** * What a transfer relies on

    Two interfaces between transfer.c and its environment. [FsFiles] is the
    descriptor half of [struct opftp_fs]: what [read], [write] and [seek] do
    to the bytes behind an open descriptor when they succeed; [FsHealthy] adds
    that they do succeed on a descriptor opened for them. [SysConn] describes
    an established data connection whose peer stays: a bounded number of idle
    waits, no errors, and a cancel pipe nobody writes to. The in-memory
    backend and the scripted machine are instances. *)

From S2P Require Import Prelude Types Sys FsIface FsMem.
Import FsMem.

Local Open Scope Z_scope.

(** ** Files behind descriptors *)

(** An open file description: the file, the offset, the access mode. *)
Record ofile (I : Type) := mk_ofile { o_ino : I; o_pos : nat; o_rd : bool; o_wr : bool }.
Arguments mk_ofile {_}.
Arguments o_ino {_}.
Arguments o_pos {_}.
Arguments o_rd {_}.
Arguments o_wr {_}.

Definition o_seek {I} (o : ofile I) (p : nat) : ofile I := mk_ofile (o_ino o) p (o_rd o) (o_wr o).
Definition o_skip {I} (o : ofile I) (n : nat) : ofile I := o_seek o (o_pos o + n).

(** A description of a file with content [c] just opened with [fl]. *)
Definition opened {I} (fl : Z) (c : bytes) (o : ofile I) : Prop :=
  o_rd o = negb (Z.land fl 3 =? OPFTP_O_WRONLY) ∧ o_wr o = negb (Z.land fl 3 =? OPFTP_O_RDONLY) ∧
  o_pos o = (if has_flag fl OPFTP_O_APPEND then length c else 0%nat) ∧
  (has_flag fl OPFTP_O_TRUNC = true → c = []).

Class FsFiles (FS : Type) `{FsOps FS} := {
  ino : Type;
  fd_at : FS → Z → option (ofile ino);
  content : FS → ino → bytes;
  (** The offset of [fd] may change, nothing else. *)
  same_files (fd : Z) (fs fs' : FS) : Prop :=
    (∀ i, content fs' i = content fs i) ∧ (∀ fd', fd' ≠ fd → fd_at fs' fd' = fd_at fs fd');
  read_law fd n fs b fs' o :
    fd_at fs fd = Some o → fs_read fd n fs = (Ok b, fs') → (0 < n)%nat →
    b `prefix_of` drop (o_pos o) (content fs (o_ino o)) ∧
    (b = [] → drop (o_pos o) (content fs (o_ino o)) = []) ∧
    fd_at fs' fd = Some (o_skip o (length b)) ∧ same_files fd fs fs';
  write_law fd b fs n fs' o :
    fd_at fs fd = Some o → fs_write fd b fs = (Ok n, fs') →
    (n ≤ length b)%nat ∧
    content fs' (o_ino o) = splice (content fs (o_ino o)) (o_pos o) (take n b) ∧
    fd_at fs' fd = Some (o_skip o n) ∧
    (∀ i, i ≠ o_ino o → content fs' i = content fs i) ∧
    (∀ fd', fd' ≠ fd → fd_at fs' fd' = fd_at fs fd');
  seek_law fd off fs p fs' o :
    fd_at fs fd = Some o → fs_seek fd off SEEK_SET fs = (Ok p, fs') →
    p = off ∧ 0 ≤ off ∧ fd_at fs' fd = Some (o_seek o (Z.to_nat off)) ∧ same_files fd fs fs';
  fstat_law fd fs r fs' :
    fs_fstat fd fs = (r, fs') → same_files fd fs fs' ∧ fd_at fs' fd = fd_at fs fd;
  close_law fd fs r fs' : fs_close fd fs = (r, fs') → same_files fd fs fs';
  stat_law p fs r fs' :
    fs_stat p fs = (r, fs') → (∀ i, content fs' i = content fs i) ∧ (∀ fd, fd_at fs' fd = fd_at fs fd);
  realpath_law p fs r fs' :
    fs_realpath p fs = (r, fs') → (∀ i, content fs' i = content fs i) ∧ (∀ fd, fd_at fs' fd = fd_at fs fd);
  (** A new descriptor at the start or the end of a file, emptied if asked;
      every other file and open descriptor is as before. *)
  open_law p fl m fs fd fs' :
    fs_open p fl m fs = (Ok fd, fs') →
    ∃ o, fd_at fs' fd = Some o ∧ opened fl (content fs' (o_ino o)) o ∧
      (∀ i, i ≠ o_ino o → content fs' i = content fs i) ∧
      (∀ fd' o', fd_at fs fd' = Some o' → fd' ≠ fd ∧ fd_at fs' fd' = Some o')
}.

Class FsHealthy (FS : Type) `{FsFiles FS} := {
  read_succeeds fd n fs o :
    fd_at fs fd = Some o → o_rd o = true → ∃ b, (fs_read fd n fs).1 = Ok b;
  write_succeeds fd b fs o :
    fd_at fs fd = Some o → o_wr o = true → b ≠ [] → ∃ n, (fs_write fd b fs).1 = Ok (S n);
  seek_succeeds fd off fs o :
    fd_at fs fd = Some o → 0 ≤ off → (fs_seek fd off SEEK_SET fs).1 = Ok off
}.

(** ** Writing at an offset *)

Lemma splice_length d p b :
  length (splice d p b) = Nat.max (length d) (p + length b).
Proof.
  unfold splice. rewrite !length_app, length_take, length_drop, length_app, length_replicate. lia.
Qed.

(** Byte by byte: the written range, the old bytes, zeros in a gap. *)
Lemma splice_lookup d p b k :
  splice d p b !! k =
    if decide (p ≤ k < p + length b)%nat then b !! (k - p)%nat
    else if decide (k < length d)%nat then d !! k
    else if decide (k < p)%nat then Some NUL else None.
Proof.
  unfold splice. set (d1 := d ++ _).
  assert (length (take p d1) = p) as Lp.
  { unfold d1. rewrite length_take, length_app, length_replicate. lia. }
  assert (∀ i, d1 !! i = if decide (i < length d)%nat then d !! i
                         else if decide (i < p + length b)%nat then Some NUL else None) as Ld.
  { intros i. unfold d1. case_decide; [by rewrite lookup_app_l by lia|].
    rewrite lookup_app_r by lia. case_decide.
    - by rewrite lookup_replicate_2 by lia.
    - apply lookup_replicate_None. lia. }
  destruct (decide (k < p)%nat) as [Hk|Hk].
  - rewrite lookup_app_l, lookup_take_lt, Ld by lia.
    rewrite (decide_False (P := (p ≤ k < _)%nat)) by lia. repeat case_decide; (done || lia).
  - rewrite lookup_app_r, Lp by lia. case_decide.
    + by rewrite lookup_app_l by lia.
    + rewrite lookup_app_r, lookup_drop by lia.
      replace (p + length b + (k - p - length b))%nat with k by lia. rewrite Ld.
      repeat case_decide; (done || lia).
Qed.

Lemma splice_splice d p a b :
  splice (splice d p a) (p + length a) b = splice d p (a ++ b).
Proof.
  apply list_eq. intros k. rewrite !splice_lookup, splice_length, length_app.
  repeat case_decide; try lia; try done.
  - rewrite lookup_app_r by lia. f_equal. lia.
  - by rewrite lookup_app_l by lia.
Qed.

Lemma splice_nil d p : (p ≤ length d)%nat → splice d p [] = d.
Proof.
  intros Hp. apply list_eq. intros k. rewrite splice_lookup. cbn [length].
  repeat case_decide; try lia; [done|]. symmetry. apply lookup_ge_None. lia.
Qed.

Lemma splice_end d b : splice d (length d) b = d ++ b.
Proof.
  apply list_eq. intros k. rewrite splice_lookup. repeat case_decide; try lia.
  - by rewrite lookup_app_r by lia.
  - by rewrite lookup_app_l by lia.
  - symmetry. apply lookup_ge_None. rewrite length_app. lia.
Qed.

Lemma splice_empty b : splice [] 0 b = b.
Proof. apply (splice_end []). Qed.

(** ** The in-memory backend *)

Definition mem_fd_at (x : mctx) (fd : Z) : option (ofile nid) :=
  f ← get_fd x fd;
  guard (0 ≤ f_pos f);;
  '(n, _) ← fd_node x f;
  Some (mk_ofile n (Z.to_nat (f_pos f)) (negb (Z.land (f_flags f) 3 =? OPFTP_O_WRONLY))
          (negb (Z.land (f_flags f) 3 =? OPFTP_O_RDONLY))).

Definition mem_content (x : mctx) (n : nid) : bytes := default [] (m_data <$> x_heap x !! n).

Lemma get_set_fd x fd f f' :
  get_fd x fd = Some f → f_open f' = true → get_fd (set_fd x fd f') fd = Some f'.
Proof.
  unfold get_fd, set_fd. intros Hf Ho. destruct ((fd <=? 0) || (64 <=? fd)); [done|].
  cbn. destruct (x_fds x !! Z.to_nat fd) as [g|] eqn:E; [|done].
  rewrite list_lookup_insert_eq by (by eapply lookup_lt_Some). by rewrite Ho.
Qed.

Lemma get_set_fd_ne x fd fd' f' : fd' ≠ fd → get_fd (set_fd x fd f') fd' = get_fd x fd'.
Proof.
  intros Hne. unfold get_fd, set_fd. destruct ((fd' <=? 0) || (64 <=? fd')) eqn:Er; [done|]. cbn.
  apply orb_false_iff in Er as [E1%Z.leb_gt E2%Z.leb_gt].
  destruct (decide (0 ≤ fd)); [rewrite list_lookup_insert_ne by lia; done|].
  replace (Z.to_nat fd) with 0%nat by lia. by rewrite list_lookup_insert_ne by lia.
Qed.

Lemma get_fd_open x fd f : get_fd x fd = Some f → f_open f = true.
Proof. unfold get_fd. repeat case_match; naive_solver. Qed.

Lemma mem_fd_at_Some x fd o :
  mem_fd_at x fd = Some o →
  ∃ f nd, get_fd x fd = Some f ∧ 0 ≤ f_pos f ∧ f_node f = Some (o_ino o) ∧
    x_heap x !! o_ino o = Some nd ∧ o_pos o = Z.to_nat (f_pos f) ∧
    o_rd o = negb (Z.land (f_flags f) 3 =? OPFTP_O_WRONLY) ∧
    o_wr o = negb (Z.land (f_flags f) 3 =? OPFTP_O_RDONLY).
Proof.
  unfold mem_fd_at. intros (f & Hf & H)%bind_Some.
  apply bind_Some in H as (Hp & _ & ([n nd] & Hn & [= <-])%bind_Some).
  unfold fd_node in Hn. exists f, nd. cbn [o_ino o_pos o_rd o_wr].
  destruct (f_node f) as [n'|]; [|done]. destruct (x_heap x !! n') as [nd'|] eqn:E; [|done].
  by injection Hn as -> ->.
Qed.

(** The descriptor after a call that only moved its offset. *)
Lemma mem_fd_at_moved x fd f nd n p h :
  get_fd x fd = Some f → 0 ≤ p → f_node f = Some n → h !! n = Some nd →
  mem_fd_at (set_fd (x <| x_heap := h |>) fd (f <| f_pos := p |>)) fd =
  Some (mk_ofile n (Z.to_nat p) (negb (Z.land (f_flags f) 3 =? OPFTP_O_WRONLY))
          (negb (Z.land (f_flags f) 3 =? OPFTP_O_RDONLY))).
Proof.
  intros Hf Hp Hn Hh. unfold mem_fd_at.
  assert (get_fd (x <| x_heap := h |>) fd = Some f) as Hf' by done.
  rewrite (get_set_fd _ _ _ _ Hf') by (apply (get_fd_open _ _ _ Hf)). cbn [mbind option_bind].
  rewrite option_guard_True by done. unfold fd_node. cbn. by rewrite Hn, Hh.
Qed.

Lemma mem_fd_at_other x h fd fd' f :
  fd' ≠ fd → (∀ n, is_Some (h !! n) ↔ is_Some (x_heap x !! n)) →
  mem_fd_at (set_fd (x <| x_heap := h |>) fd f) fd' = mem_fd_at x fd'.
Proof.
  intros Hne Hdom. unfold mem_fd_at. rewrite get_set_fd_ne by done.
  change (get_fd (x <| x_heap := h |>) fd') with (get_fd x fd').
  destruct (get_fd x fd') as [g|]; [|done]. cbn [mbind option_bind].
  case_guard; [|done]. cbn. unfold fd_node. cbn. destruct (f_node g) as [n|]; [|done].
  specialize (Hdom n). destruct (h !! n), (x_heap x !! n); naive_solver.
Qed.

Lemma heap_id (x : mctx) : x <| x_heap := x_heap x |> = x.
Proof. by destruct x. Qed.

Lemma mem_same_files x fd f :
  (∀ i, mem_content (set_fd x fd f) i = mem_content x i) ∧
  (∀ fd', fd' ≠ fd → mem_fd_at (set_fd x fd f) fd' = mem_fd_at x fd').
Proof.
  split; [done|]. intros fd' Hne. rewrite <-(heap_id x) at 1. by apply mem_fd_at_other.
Qed.

Lemma mem_read_law fd n x b x' o :
  mem_fd_at x fd = Some o → mem_read fd n x = (Ok b, x') → (0 < n)%nat →
  b `prefix_of` drop (o_pos o) (mem_content x (o_ino o)) ∧
  (b = [] → drop (o_pos o) (mem_content x (o_ino o)) = []) ∧
  mem_fd_at x' fd = Some (o_skip o (length b)) ∧
  (∀ i, mem_content x' i = mem_content x i) ∧
  (∀ fd', fd' ≠ fd → mem_fd_at x' fd' = mem_fd_at x fd').
Proof.
  intros Ho Hr Hn. unfold mem_read in Hr.
  destruct (mem_fd_at_Some _ _ _ Ho) as (f & nd & Hf & Hp & Hi & Hh & Ep & Er & Ew).
  rewrite Hf in Hr. destruct (Z.land _ _ =? _) in Hr; [done|]. unfold fd_node in Hr. rewrite Hi, Hh in Hr.
  injection Hr as <- <-. unfold mem_content at 1 2. rewrite Hh, Ep. cbn [fmap option_fmap option_map default].
  split_and!; [apply prefix_take| | |done|apply mem_same_files].
  - intros E. destruct (drop _ _); [done|]. by destruct n; [lia|].
  - rewrite <-(heap_id x) at 1. rewrite (mem_fd_at_moved _ _ _ nd (o_ino o)) by (done || lia).
    unfold o_skip, o_seek. rewrite Er, Ew, Ep. do 2 f_equal. lia.
Qed.

Lemma mem_write_law fd b x n x' o :
  mem_fd_at x fd = Some o → mem_write fd b x = (Ok n, x') →
  (n ≤ length b)%nat ∧
  mem_content x' (o_ino o) = splice (mem_content x (o_ino o)) (o_pos o) (take n b) ∧
  mem_fd_at x' fd = Some (o_skip o n) ∧
  (∀ i, i ≠ o_ino o → mem_content x' i = mem_content x i) ∧
  (∀ fd', fd' ≠ fd → mem_fd_at x' fd' = mem_fd_at x fd').
Proof.
  intros Ho Hr. unfold mem_write in Hr.
  destruct (mem_fd_at_Some _ _ _ Ho) as (f & nd & Hf & Hp & Hi & Hh & Ep & Er & Ew).
  rewrite Hf in Hr. destruct (Z.land _ _ =? _) in Hr; [done|]. unfold fd_node in Hr. rewrite Hi, Hh in Hr.
  injection Hr as <- <-. set (nd' := nd <| m_data := _ |> <| m_mtime := _ |>).
  split_and!.
  - done.
  - unfold mem_content, set_fd. cbn. rewrite Hh, lookup_insert_eq. cbn. by rewrite firstn_all, Ep.
  - rewrite (mem_fd_at_moved _ _ _ nd' (o_ino o)); [|done|lia|done|apply lookup_insert_eq].
    unfold o_skip, o_seek. rewrite Er, Ew, Ep. do 2 f_equal. lia.
  - intros i Hne. unfold mem_content, set_fd. cbn. by rewrite lookup_insert_ne.
  - intros fd' Hne. apply mem_fd_at_other; [done|]. intros m.
    destruct (decide (m = o_ino o)) as [->|].
    + rewrite lookup_insert_eq, Hh. done.
    + by rewrite lookup_insert_ne.
Qed.

Lemma mem_seek_law fd off x p x' o :
  mem_fd_at x fd = Some o → mem_seek fd off SEEK_SET x = (Ok p, x') →
  p = off ∧ 0 ≤ off ∧ mem_fd_at x' fd = Some (o_seek o (Z.to_nat off)) ∧
  (∀ i, mem_content x' i = mem_content x i) ∧
  (∀ fd', fd' ≠ fd → mem_fd_at x' fd' = mem_fd_at x fd').
Proof.
  intros Ho Hr. unfold mem_seek in Hr.
  destruct (mem_fd_at_Some _ _ _ Ho) as (f & nd & Hf & Hp & Hi & Hh & Ep & Er & Ew).
  rewrite Hf in Hr. rewrite !Z.add_0_l in Hr. destruct (Z.ltb_spec off 0) as [|E]; [done|].
  injection Hr as <- <-. split_and!; [done|done| |done|apply mem_same_files].
  rewrite <-(heap_id x) at 1. rewrite (mem_fd_at_moved _ _ _ nd (o_ino o)) by (done || lia).
  unfold o_seek. by rewrite Er, Ew.
Qed.

(** The heap grew: other descriptors are as before. *)
Lemma mem_fd_at_grown x x' fd o :
  mem_fd_at x fd = Some o → get_fd x' fd = get_fd x fd →
  (∀ n, is_Some (x_heap x !! n) → is_Some (x_heap x' !! n)) → mem_fd_at x' fd = Some o.
Proof.
  intros Ho Hg Hh. destruct (mem_fd_at_Some _ _ _ Ho) as (f & nd & Hf & Hp & Hi & Hn & Ep & Er & Ew).
  unfold mem_fd_at. rewrite Hg, Hf. cbn [mbind option_bind]. rewrite option_guard_True by done.
  cbn [mbind option_bind]. unfold fd_node. rewrite Hi.
  destruct (Hh (o_ino o)) as [nd' ->]; [by eexists|]. cbn. rewrite <-Er, <-Ew, <-Ep. by destruct o.
Qed.

Lemma free_slot_closed x slot :
  free_slot (x_fds x) = Some slot →
  (1 ≤ slot < 64)%nat ∧ get_fd x (Z.of_nat slot) = None ∧
  ∀ f, f_open f = true → get_fd (set_fd x (Z.of_nat slot) f) (Z.of_nat slot) = Some f.
Proof.
  unfold free_slot. intros Hs.
  assert (slot ∈ filter (λ i, f_open <$> x_fds x !! i = Some false) (seq 1 63)) as Hin.
  { destruct (filter _ _) as [|y l]; [done|]. injection Hs as ->. by left. }
  apply list_elem_of_filter in Hin as [Ho Hseq%elem_of_seq].
  destruct (x_fds x !! slot) as [g|] eqn:Eg; [|done]. cbn in Ho. injection Ho as Ho.
  assert ((Z.of_nat slot <=? 0) || (64 <=? Z.of_nat slot) = false) as Er.
  { apply orb_false_iff. split; apply Z.leb_gt; lia. }
  split; [lia|]. unfold get_fd, set_fd. rewrite Er, Nat2Z.id. cbn. rewrite Eg, Ho. split; [done|].
  intros f Hf. rewrite list_lookup_insert_eq by (by eapply lookup_lt_Some). by rewrite Hf.
Qed.

Lemma mem_open_node_law x n fl fd x' :
  open_node x n fl = (Ok fd, x') →
  ∃ o, mem_fd_at x' fd = Some o ∧ o_ino o = n ∧ opened fl (mem_content x' n) o ∧
    (∀ i, i ≠ n → mem_content x' i = mem_content x i) ∧
    (∀ fd' o', mem_fd_at x fd' = Some o' → fd' ≠ fd ∧ mem_fd_at x' fd' = Some o').
Proof.
  unfold open_node. destruct (x_heap x !! n) as [nd|] eqn:En; [|done].
  destruct (is_dir (m_mode nd)); [done|]. set (tr := has_flag fl OPFTP_O_TRUNC).
  set (h := if tr then <[n := nd <| m_data := [] |>]> (x_heap x) else x_heap x).
  assert ((if tr then x <| x_heap := <[n := nd <| m_data := [] |>]> (x_heap x) |> else x)
          = x <| x_heap := h |>) as -> by (unfold h; destruct tr; [done|by rewrite heap_id]).
  destruct (free_slot (x_fds (x <| x_heap := h |>))) as [slot|] eqn:Es; [|done].
  pose proof (free_slot_closed (x <| x_heap := h |>) slot Es) as (Hr & Hclosed & Hset).
  change (get_fd (x <| x_heap := h |>)) with (get_fd x) in Hclosed.
  assert (∃ nd', h !! n = Some nd' ∧ m_data nd' = if tr then [] else m_data nd) as (nd' & Hn & Hd).
  { unfold h. destruct tr; [rewrite lookup_insert_eq; by eexists|by eexists]. }
  set (f := mk_mfd (Some n) _ (Z.land fl 3) true).
  intros [= <- <-]. set (x' := x <| x_heap := h |> <| x_fds := _ |>).
  assert (x' = set_fd (x <| x_heap := h |>) (Z.of_nat slot) f) as Ex.
  { unfold x', set_fd. by rewrite Nat2Z.id. }
  assert (mem_content x' n = if tr then [] else m_data nd) as Hcn.
  { unfold mem_content. change (x_heap x') with h. by rewrite Hn. }
  assert (f_pos f = if has_flag fl OPFTP_O_APPEND then Z.of_nat (length (mem_content x' n)) else 0) as Hp.
  { rewrite Hcn. unfold f, m_size. cbn. by destruct tr. }
  assert (0 ≤ f_pos f) as Hp0 by (rewrite Hp; case_match; lia).
  assert (Z.land (Z.land fl 3) 3 = Z.land fl 3) as Hl by (by rewrite <-Z.land_assoc).
  eexists. split_and!.
  - unfold mem_fd_at. rewrite Ex, Hset by done. cbn [mbind option_bind].
    rewrite option_guard_True by done. unfold fd_node. change (f_node f) with (Some n). cbn [x_heap set_fd set].
    change (x_heap (set_fd (x <| x_heap := h |>) (Z.of_nat slot) f)) with h. rewrite Hn. reflexivity.
  - done.
  - unfold opened. cbn [o_rd o_wr o_pos]. change (f_flags f) with (Z.land fl 3). rewrite Hl, Hp.
    split_and!; [done..| |].
    + by case_match; [apply Nat2Z.id|].
    + fold tr. rewrite Hcn. by intros ->.
  - intros i Hi. unfold mem_content. change (x_heap x') with h. unfold h.
    by destruct tr; [rewrite lookup_insert_ne|].
  - intros fd' o' Ho'. assert (fd' ≠ Z.of_nat slot) as Hne.
    { intros ->. unfold mem_fd_at in Ho'. by rewrite Hclosed in Ho'. }
    split; [done|]. apply (mem_fd_at_grown x); [done|by rewrite Ex, get_set_fd_ne|].
    intros m Hm. change (x_heap x') with h. unfold h. destruct tr; [|done].
    destruct (decide (m = n)) as [->|]; [by rewrite lookup_insert_eq|by rewrite lookup_insert_ne].
Qed.

(** A new node changes no file and no descriptor. *)
Lemma mem_link_new x p n id x1 :
  link_new x p n = (id, x1) →
  (∀ i, i ≠ id → mem_content x1 i = mem_content x i) ∧
  (∀ fd o, mem_fd_at x fd = Some o → mem_fd_at x1 fd = Some o).
Proof.
  intros [= <- <-]. split.
  - intros i Hi. unfold mem_content. cbn. rewrite lookup_alter. case_decide; subst.
    + rewrite lookup_insert_ne by done. by destruct (x_heap x !! i).
    + by rewrite lookup_insert_ne.
  - intros fd o Ho. apply (mem_fd_at_grown x); [done..|]. intros m Hm. cbn.
    rewrite lookup_alter. case_decide; subst; rewrite ?fmap_is_Some;
      (destruct (decide (m = x_fresh x)) as [->|];
       [by rewrite lookup_insert_eq|by rewrite lookup_insert_ne]).
Qed.

Lemma mem_open_law p fl m x fd x' :
  mem_open p fl m x = (Ok fd, x') →
  ∃ o, mem_fd_at x' fd = Some o ∧ opened fl (mem_content x' (o_ino o)) o ∧
    (∀ i, i ≠ o_ino o → mem_content x' i = mem_content x i) ∧
    (∀ fd' o', mem_fd_at x fd' = Some o' → fd' ≠ fd ∧ mem_fd_at x' fd' = Some o').
Proof.
  unfold mem_open. destruct (node_lookup x p) as [n|err].
  { intros (o & Ho & <- & Hop & Hc & Hf)%mem_open_node_law. by exists o. }
  destruct (has_flag fl OPFTP_O_CREAT); [|done].
  destruct (node_lookup_parent x p) as [[par name]|e]; [|done].
  destruct (x_heap x !! par) as [pn|]; [|done]. destruct (negb _); [done|].
  destruct (link_new _ _ _) as [n x1] eqn:El. apply mem_link_new in El as [Hc1 Hf1].
  intros (o & Ho & <- & Hop & Hc & Hf)%mem_open_node_law. exists o. split_and!; [done..| |].
  - intros i Hi. by rewrite Hc, Hc1.
  - intros fd' o' Ho'. by apply Hf, Hf1.
Qed.

#[export] Program Instance FsFiles_mem : FsFiles mctx := {|
  ino := nid; fd_at := mem_fd_at; content := mem_content;
  read_law := mem_read_law; write_law := mem_write_law; seek_law := mem_seek_law;
  open_law := mem_open_law
|}.
Next Obligation.
  intros fd x r x'. cbn. unfold mem_fstat. repeat case_match; intros [= <- <-]; done.
Qed.
Next Obligation.
  intros fd x r x'. cbn. unfold mem_close. destruct (get_fd x fd) as [f|]; intros [= <- <-]; [|done].
  apply mem_same_files.
Qed.
Next Obligation.
  intros p x r x'. cbn. unfold mem_stat, with_node. repeat case_match; intros [= <- <-]; done.
Qed.
Next Obligation. by intros p x r x' [= <- <-]. Qed.

#[export] Program Instance FsHealthy_mem : FsHealthy mctx.
Next Obligation.
  intros fd n x o Ho Hrd. destruct (mem_fd_at_Some _ _ _ Ho) as (f & nd & Hf & _ & Hi & Hh & _ & Er & _).
  cbn. unfold mem_read, fd_node. rewrite Hf, Hi, Hh.
  pose proof (eq_trans (eq_sym Er) Hrd) as E%negb_true_iff. rewrite E. by eexists.
Qed.
Next Obligation.
  intros fd b x o Ho Hwr Hb.
  destruct (mem_fd_at_Some _ _ _ Ho) as (f & nd & Hf & _ & Hi & Hh & _ & _ & Ew).
  cbn. unfold mem_write, fd_node. rewrite Hf, Hi, Hh.
  pose proof (eq_trans (eq_sym Ew) Hwr) as E%negb_true_iff. rewrite E.
  destruct b as [|c b]; [done|]. by eexists.
Qed.
Next Obligation.
  intros fd off x o Ho Hoff. destruct (mem_fd_at_Some _ _ _ Ho) as (f & nd & Hf & _).
  cbn [fs_seek mem_vtable]. unfold mem_seek. rewrite Hf, ?Z.add_0_l. destruct (Z.ltb_spec off 0); [lia|]. done.
Qed.

(** ** An established data connection *)

(** What [poll] says of a data socket polled for [ev] beside the cancel pipe. *)
Definition poll_ready (ev : Z) (revs : list Z) : Prop :=
  ∃ r0 r1, revs = [r0; r1] ∧ has r1 (Z.lor POLLIN (Z.lor POLLERR POLLHUP)) = false ∧
    has r0 (Z.lor POLLERR (Z.lor POLLHUP POLLNVAL)) = false ∧ has r0 ev = true.
Definition poll_idle (revs : list Z) : Prop := Forall (λ x, x = 0) revs.

(** [conn os fd cfd]: [fd] is a connected data socket whose peer stays, and
    nobody writes to the cancel pipe [cfd]. [incoming] is what the peer still
    sends before it closes. [stall] bounds the idle waits. *)
Class SysConn (OS : Type) `{SysStream OS} := {
  conn : OS → Z → Z → Prop;
  incoming : OS → Z → bytes;
  conn_poll fd cfd ev tmo os :
    conn os fd cfd → ev = POLLIN ∨ ev = POLLOUT →
    ∃ revs os', sys_poll [(fd, ev); (cfd, POLLIN)] tmo os = (Ok revs, os') ∧
      conn os' fd cfd ∧ incoming os' fd = incoming os fd ∧
      (poll_ready ev revs ∨ poll_idle revs ∧ (stall os' < stall os)%nat);
  conn_send fd cfd b os :
    conn os fd cfd → b ≠ [] →
    ∃ r os', sys_send fd b os = (r, os') ∧ conn os' fd cfd ∧
      (r = Err EAGAIN ∨ ∃ n, r = Ok (S n));
  conn_recv fd cfd n os :
    conn os fd cfd → (0 < n)%nat →
    ∃ r os', sys_recv fd n os = (r, os') ∧ (stall os' ≤ stall os)%nat ∧
      match r with
      | Ok [] => incoming os fd = []
      | Ok b => incoming os fd = b ++ incoming os' fd ∧ conn os' fd cfd
      | Err e => e = EAGAIN ∧ (stall os' < stall os)%nat ∧ conn os' fd cfd ∧
                 incoming os' fd = incoming os fd
      end
}.

(** The scripted peer sends its chunks up to the first empty one. *)
Fixpoint sc_incoming (chunks : list bytes) : bytes :=
  match chunks with
  | [] | [] :: _ => []
  | b :: bs => b ++ sc_incoming bs
  end.

Definition sc_conn (os : script) (fd cfd : Z) : Prop :=
  0 ≤ fd < 1000 ∧ cfd + 1 ∉ sc_woken os ∧ (cfd < 0 ∨ 1000 ≤ cfd) ∧ [] ∈ sc_recv os.

#[export] Program Instance SysConn_script : SysConn script := {|
  conn := sc_conn; incoming os _ := sc_incoming (sc_recv os)
|}.
Next Obligation.
  intros fd cfd ev tmo os (Hfd & Hw & Hc & Hr) Hev. eexists _, os. split; [reflexivity|].
  split_and!; [done|done|]. left. unfold poll_ready. cbn.
  exists ev, 0. split.
  - unfold sc_ready. destruct (Z.ltb_spec fd 0); [lia|]. destruct (Z.ltb_spec fd 1000); [|lia].
    rewrite bool_decide_false by done. repeat case_match; (done || lia).
  - by destruct Hev as [-> | ->].
Qed.
Next Obligation.
  intros fd cfd b os Hc Hb. eexists _, _. split; [reflexivity|]. split; [done|].
  right. destruct b; [done|]. by eexists.
Qed.
Next Obligation.
  intros fd cfd n os (Hfd & Hw & Hc & Hr) Hn. cbn.
  destruct (sc_recv os) as [|b bs] eqn:E; [by apply elem_of_nil in Hr|].
  eexists _, _. split; [reflexivity|]. split; [done|].
  destruct b as [|x b]; [by rewrite take_nil|]. destruct n as [|n]; [lia|]. cbn [take drop].
  assert ([] ∈ bs) as Hbs by (by apply elem_of_cons in Hr as [|]).
  rewrite <-(take_drop n b) at 1. destruct (drop n b) as [|y r]; cbn.
  - rewrite app_nil_r. split; [done|]. exact (conj Hfd (conj Hw (conj Hc Hbs))).
  - rewrite <-app_assoc. split; [done|]. refine (conj Hfd (conj Hw (conj Hc _))).
    apply elem_of_cons. by right.
Qed.
