(* ===== verification/Dispatch.v ===== *)
(** * src/dispatch.c: the command registry

    A flat array of 64 entries searched linearly. [Fn] is the type of what an
    entry calls (function pointer and context). The registry is shown to
    implement a finite map from upper-case names to handlers. *)

From S2P Require Import Prelude.

Module Dispatch.

Definition DISPATCH_CAP : nat := 64.

Section Dispatch.
Context {Fn : Type}.

(** [struct opftp_cmd_entry]; a [calloc]ed entry is unused. *)
Record opftp_cmd_entry := mk_entry { e_name : bytes; e_fn : option Fn; e_used : bool }.

Definition empty_entry : opftp_cmd_entry := mk_entry [] None false.

(** [s->dispatch_entries], NULL before the first [opftp_dispatch_init]. *)
Definition table : Type := option (list opftp_cmd_entry).

Definition opftp_dispatch_init (t : table) : table :=
  match t with
  | Some es => Some es
  | None => Some (replicate DISPATCH_CAP empty_entry)
  end.

Definition opftp_dispatch_free (t : table) : table := None.

(** The scan of [opftp_dispatch_register]: the index of the entry that has the
    name, and the first unused index seen before it. *)
Fixpoint scan_slots (up : bytes) (es : list opftp_cmd_entry) (i : nat)
  (first_unused : option nat) : option nat * option nat :=
  match es with
  | [] => (None, first_unused)
  | e :: es' =>
     if negb (e_used e)
     then scan_slots up es' (S i)
            (match first_unused with None => Some i | Some _ => first_unused end)
     else if streq (e_name e) up then (Some i, first_unused)
     else scan_slots up es' (S i) first_unused
  end.

Definition opftp_dispatch_register (t : table) (name : bytes) (fn : Fn) : res () * table :=
  match t with
  | None => (Err EINVAL, t)
  | Some es =>
     if (length name =? 0)%nat || (8 <=? length name)%nat then (Err EINVAL, t)
     else
       let up := toupper <$> name in
       match scan_slots up es 0 None with
       | (Some i, _) =>
          (Ok (), Some (alter (λ e, mk_entry (e_name e) (Some fn) (e_used e)) i es))
       | (None, Some i) => (Ok (), Some (<[i := mk_entry up (Some fn) true]> es))
       | (None, None) => (Err ENOSPC, t)
       end
  end.

(** The search of [opftp_dispatch_call]: the handler it runs, [None] for the
    return value 1. *)
Fixpoint find_entry (name : bytes) (es : list opftp_cmd_entry) : option Fn :=
  match es with
  | [] => None
  | e :: es' =>
     if negb (e_used e) then find_entry name es'
     else if streq (e_name e) name then e_fn e
     else find_entry name es'
  end.

Definition dispatch_lookup (t : table) (name : bytes) : option Fn :=
  match t with Some es => find_entry name es | None => None end.

(** ** The map the registry implements *)

Definition entry_ok (e : opftp_cmd_entry) : Prop :=
  if e_used e
  then is_Some (e_fn e) ∧ (0 < length (e_name e) < 8)%nat ∧ toupper <$> e_name e = e_name e
  else True.

Definition used_names (es : list opftp_cmd_entry) : list bytes :=
  e_name <$> filter (λ e, e_used e = true) es.

Definition wf (es : list opftp_cmd_entry) : Prop :=
  length es = DISPATCH_CAP ∧ Forall entry_ok es ∧ NoDup (used_names es).

Definition entry_pair (e : opftp_cmd_entry) : option (bytes * Fn) :=
  match e_used e, e_fn e with true, Some f => Some (e_name e, f) | _, _ => None end.

Definition abs (es : list opftp_cmd_entry) : gmap bytes Fn :=
  list_to_map (omap entry_pair es).

Lemma find_entry_abs name es : Forall entry_ok es → find_entry name es = abs es !! name.
Proof.
  unfold abs. induction 1 as [|e es He Hes IH]; cbn [find_entry omap list_omap]; [done|].
  unfold entry_ok in He. unfold entry_pair at 1.
  destruct (e_used e); [|done]. destruct He as [[f Hf] _]. rewrite Hf. cbn [negb].
  cbn [list_to_map foldr]. destruct (streq (e_name e) name) eqn:E; btests; subst.
  - by rewrite lookup_insert_eq.
  - by rewrite lookup_insert_ne.
Qed.

Lemma used_names_app l r : used_names (l ++ r) = used_names l ++ used_names r.
Proof. unfold used_names. by rewrite list.filter_app, fmap_app. Qed.

Lemma used_names_cons e es :
  used_names (e :: es) = if e_used e then e_name e :: used_names es else used_names es.
Proof. unfold used_names. rewrite filter_cons. by destruct (e_used e). Qed.

Lemma find_entry_app name l r :
  find_entry name (l ++ r) =
    if decide (name ∈ used_names l) then find_entry name l else find_entry name r.
Proof.
  induction l as [|e l IH]; cbn [app find_entry].
  { rewrite decide_False; [done|]. apply not_elem_of_nil. }
  rewrite used_names_cons, IH. destruct (e_used e); cbn [negb]; [|done].
  destruct (streq (e_name e) name) eqn:E; btests; subst.
  - rewrite decide_True; [done|]. apply list_elem_of_here.
  - case_decide as H1; case_decide as H2; try done; exfalso.
    + apply H2. by apply list_elem_of_further.
    + apply elem_of_cons in H2 as [->|]; done.
Qed.

Lemma scan_hit up es i fu k fu' :
  scan_slots up es i fu = (Some k, fu') →
  ∃ l e r, es = l ++ e :: r ∧ k = (i + length l)%nat ∧ e_used e = true ∧ e_name e = up.
Proof.
  revert i fu. induction es as [|e es IH]; intros i fu H; cbn [scan_slots] in H; [done|].
  destruct (e_used e) eqn:Eu; cbn [negb] in H;
    [destruct (streq (e_name e) up) eqn:En; btests|].
  - simplify_eq. exists [], e, es. split_and!; [done|cbn; lia|done|done].
  - destruct (IH _ _ H) as (l & e' & r & -> & -> & ? & ?).
    exists (e :: l), e', r. split_and!; [done|cbn; lia|done|done].
  - destruct (IH _ _ H) as (l & e' & r & -> & -> & ? & ?).
    exists (e :: l), e', r. split_and!; [done|cbn; lia|done|done].
Qed.

Lemma scan_miss up es i fu fu' :
  scan_slots up es i fu = (None, fu') →
  up ∉ used_names es ∧
  match fu with
  | Some _ => fu' = fu
  | None =>
     match fu' with
     | None => Forall (λ e, e_used e = true) es
     | Some k => ∃ l e r, es = l ++ e :: r ∧ k = (i + length l)%nat ∧ e_used e = false
     end
  end.
Proof.
  revert i fu. induction es as [|e es IH]; intros i fu H; cbn [scan_slots] in H.
  { simplify_eq. split; [apply not_elem_of_nil|]. by destruct fu'. }
  rewrite used_names_cons. destruct (e_used e) eqn:Eu; cbn [negb] in H.
  - destruct (streq (e_name e) up) eqn:En; btests; [done|].
    destruct (IH _ _ H) as [Hn Hf]. split; [by apply not_elem_of_cons|].
    destruct fu; [done|]. destruct fu' as [k|]; [|by constructor].
    destruct Hf as (l & e' & r & -> & -> & ?).
    exists (e :: l), e', r. split_and!; [done|cbn; lia|done].
  - destruct (IH _ _ H) as [Hn Hf]. split; [done|].
    destruct fu; [done|]. subst. exists [], e, es. split_and!; [done|cbn; lia|done].
Qed.

Lemma alter_middle {A} (f : A → A) l e r : alter f (length l) (l ++ e :: r) = l ++ f e :: r.
Proof. induction l as [|x l IH]; [done|]. cbn. f_equal. exact IH. Qed.

Lemma NoDup_middle_notin {A} (l r : list A) x : NoDup (l ++ x :: r) → x ∉ l ∧ x ∉ r.
Proof. intros (_ & Hd & [Hx _]%NoDup_cons)%NoDup_app. split; [|done]. intros Hl. apply (Hd x Hl). apply list_elem_of_here. Qed.

(** Registration updates the search result at the one name and nowhere else. *)
Lemma register_find es name fn es' :
  wf es → opftp_dispatch_register (Some es) name fn = (Ok (), Some es') →
  wf es' ∧ ∀ n, find_entry n es' =
                  if streq n (toupper <$> name) then Some fn else find_entry n es.
Proof.
  intros (Hlen & Hok & Hnd) H. unfold opftp_dispatch_register in H.
  destruct (_ || _) eqn:Eg; [done|]. apply orb_false_elim in Eg as [Eg1 Eg2]. btests.
  set (up := toupper <$> name) in *.
  assert (0 < length up < 8)%nat as Hul by (unfold up; rewrite length_fmap; lia).
  assert (toupper <$> up = up) as Hup.
  { unfold up. rewrite <-list_fmap_compose. apply list_fmap_ext. intros. apply toupper_idem. }
  destruct (scan_slots up es 0 None) as [[k|] fu] eqn:Es.
  - apply scan_hit in Es as (l & e & r & -> & -> & Eu & En). cbn [Nat.add] in H.
    rewrite alter_middle in H. injection H as <-. rewrite En, Eu.
    unfold wf in *. rewrite used_names_app, used_names_cons, Eu, En in Hnd.
    destruct (NoDup_middle_notin _ _ _ Hnd) as [Hl Hr].
    apply Forall_app in Hok as [Hokl [Hoke Hokr]%Forall_cons_1].
    split; [split_and!|].
    + by rewrite length_app in *.
    + apply Forall_app_2; [done|]. constructor; [|done].
      unfold entry_ok. cbn. split_and!; [by eexists|lia|lia|done].
    + rewrite used_names_app, used_names_cons. done.
    + intros n. rewrite !find_entry_app. cbn [find_entry e_used e_name e_fn negb]. rewrite Eu, En.
      cbn [negb]. destruct (streq n up) eqn:E; btests.
      * subst n. rewrite decide_False by done. by rewrite streq_refl.
      * rewrite (proj2 (streq_false up n)) by congruence. done.
  - destruct (scan_miss _ _ _ _ _ Es) as [Hnew Hfu]. destruct fu as [k|]; [|done].
    destruct Hfu as (l & e & r & -> & -> & Eu). cbn [Nat.add] in H.
    rewrite insert_app_r_alt, Nat.sub_diag in H by lia. cbn in H. injection H as <-.
    rewrite used_names_app, used_names_cons, Eu in Hnd, Hnew.
    apply Forall_app in Hok as [Hokl [Hoke Hokr]%Forall_cons_1].
    split; [split_and!|].
    + by rewrite length_app in *.
    + apply Forall_app_2; [done|]. constructor; [|done].
      unfold entry_ok. cbn. split_and!; [by eexists|lia|lia|done].
    + rewrite used_names_app, used_names_cons. cbn [e_used e_name].
      rewrite <-Permutation_middle. by apply NoDup_cons.
    + intros n. rewrite !find_entry_app. cbn [find_entry e_used e_name e_fn negb]. rewrite Eu.
      cbn [negb]. destruct (streq n up) eqn:E; btests.
      * subst n. rewrite decide_False by set_solver. by rewrite streq_refl.
      * rewrite (proj2 (streq_false up n)) by congruence. done.
Qed.

Lemma wf_dispatch_init : wf (replicate DISPATCH_CAP empty_entry).
Proof.
  split_and!; [by rewrite length_replicate| |].
  - by apply Forall_replicate.
  - apply NoDup_nil_2.
Qed.

(** The registry implements a finite map on upper-case names. A lookup is
    the lookup of the abstract map; a registration that succeeds inserts the
    handler under the upper-cased name, leaves every other command as it was
    and keeps the table well formed; it fails with EINVAL exactly on a name
    that is empty or longer than 7 bytes, and otherwise with ENOSPC exactly
    when all 64 entries are used and none has the name. *)
Theorem dispatch_refines_map es name fn :
  wf es →
  (∀ n, dispatch_lookup (Some es) n = abs es !! n) ∧
  match opftp_dispatch_register (Some es) name fn with
  | (Ok _, Some es') => wf es' ∧ abs es' = <[toupper <$> name := fn]> (abs es)
  | (Ok _, None) => False
  | (Err EINVAL, t) => t = Some es ∧ ¬ (0 < length name < 8)%nat
  | (Err e, t) => e = ENOSPC ∧ t = Some es ∧ (0 < length name < 8)%nat ∧
                  abs es !! (toupper <$> name) = None ∧ Forall (λ x, e_used x = true) es
  end.
Proof.
  intros Hwf. split; [intros n; apply find_entry_abs, Hwf|].
  destruct (opftp_dispatch_register (Some es) name fn) as [[[]|e] t] eqn:E.
  - assert (∃ es', t = Some es') as [es' ->].
    { unfold opftp_dispatch_register in E. repeat case_match; simplify_eq; eauto. }
    destruct (register_find es name fn es' Hwf E) as [Hwf' Hf]. split; [done|].
    apply map_eq. intros n. rewrite <-find_entry_abs, Hf by apply Hwf'.
    destruct (streq n _) eqn:En; btests; subst.
    + by rewrite lookup_insert_eq.
    + rewrite lookup_insert_ne by done. apply find_entry_abs, Hwf.
  - unfold opftp_dispatch_register in E. destruct (_ || _) eqn:Eg.
    { simplify_eq. split; [done|]. apply orb_prop in Eg as [?|?]; btests; lia. }
    apply orb_false_elim in Eg as [? ?]; btests.
    destruct (scan_slots _ _ _ _) as [[?|] [?|]] eqn:Es; simplify_eq.
    apply scan_miss in Es as [Hn Hu]. split_and!; [done|done|lia|lia| |done].
    rewrite <-find_entry_abs by apply Hwf.
    clear -Hn. induction es as [|x es IH]; [done|]. rewrite used_names_cons in Hn.
    cbn [find_entry]. destruct (e_used x); cbn [negb]; [|by apply IH].
    apply not_elem_of_cons in Hn as [? ?].
    rewrite (proj2 (streq_false _ _)) by congruence. by apply IH.
Qed.

End Dispatch.

Lemma dispatch_refines_map_witness :
  let es := replicate DISPATCH_CAP (@empty_entry nat) in
  (∀ n, dispatch_lookup (Some es) n = abs es !! n) ∧
  match opftp_dispatch_register (Some es) (B "noop") 7%nat with
  | (Ok _, Some es') => wf es' ∧ abs es' = <[B "NOOP" := 7%nat]> (abs es)
  | (Ok _, None) => False
  | (Err EINVAL, t) => t = Some es ∧ ¬ (0 < length (B "noop") < 8)%nat
  | (Err e, t) => e = ENOSPC ∧ t = Some es ∧ (0 < length (B "noop") < 8)%nat ∧
                  abs es !! (toupper <$> B "noop") = None ∧ Forall (λ x, e_used x = true) es
  end.
Proof.
  apply (dispatch_refines_map (replicate DISPATCH_CAP (@empty_entry nat)) (B "noop") 7%nat).
  apply wf_dispatch_init.
Defined.

End Dispatch.
