(* ===== verification/Avl.v ===== *)
(** * legacy/src/avlutils.c: the AVL tree of descriptors

    The legacy server keeps its poll descriptors and its clients in AVL trees
    keyed by the socket. A node's address is its place in the tree; [NULL] is
    [AVLLeaf]. Every pointer of a node is owned by its parent, so a tree value
    stands for the linked nodes. Allocation does not fail. The rotations read
    the child that the balance factor promises; where it is missing the code
    would read through a null pointer and the model returns the node itself,
    which [avl_map] shows is never needed for its conclusions. *)

From S2P Require Import Prelude.
From stdpp Require Import sorting.

Local Open Scope Z_scope.

Module Avl.

Section Avl.
Context {A : Type}.

Inductive AVLNode :=
  | AVLLeaf
  | AVLN (key : Z) (data : A) (left right : AVLNode).

(** ** The operations *)

Fixpoint avlnode_search (n : AVLNode) (key : Z) : option A :=
  match n with
  | AVLLeaf => None
  | AVLN k d l r =>
     if k =? key then Some d
     else if key <? k then avlnode_search l key else avlnode_search r key
  end.

(** [int], but the height of a tree of allocated nodes is far below 2^31. *)
Fixpoint avlnode_height (n : AVLNode) : Z :=
  match n with
  | AVLLeaf => 0
  | AVLN _ _ l r =>
     let height_left := avlnode_height l in
     let height_right := avlnode_height r in
     if height_left <? height_right then height_right + 1 else height_left + 1
  end.

Definition avlnode_balance_factor (n : AVLNode) : Z :=
  match n with
  | AVLLeaf => 0
  | AVLN _ _ l r => 0 - avlnode_height l + avlnode_height r
  end.

Definition avlnode_rotate_ll (n : AVLNode) : AVLNode :=
  match n with
  | AVLN a ad (AVLN b bd bl br) ar => AVLN b bd bl (AVLN a ad br ar)
  | _ => n
  end.

Definition avlnode_rotate_lr (n : AVLNode) : AVLNode :=
  match n with
  | AVLN a ad (AVLN b bd bl (AVLN c cd cl cr)) ar =>
     AVLN c cd (AVLN b bd bl cl) (AVLN a ad cr ar)
  | _ => n
  end.

Definition avlnode_rotate_rl (n : AVLNode) : AVLNode :=
  match n with
  | AVLN a ad al (AVLN b bd (AVLN c cd cl cr) br) =>
     AVLN c cd (AVLN a ad al cl) (AVLN b bd cr br)
  | _ => n
  end.

Definition avlnode_rotate_rr (n : AVLNode) : AVLNode :=
  match n with
  | AVLN a ad al (AVLN b bd bl br) => AVLN b bd (AVLN a ad al bl) br
  | _ => n
  end.

(** The part of [avlnode_balance] after the two recursive calls. *)
Definition rebalance (n : AVLNode) : AVLNode :=
  match n with
  | AVLLeaf => n
  | AVLN _ _ l r =>
     let bf := avlnode_balance_factor n in
     if 2 <=? bf then
       if avlnode_balance_factor r <? 0 then avlnode_rotate_rl n else avlnode_rotate_rr n
     else if bf <=? -2 then
       if 0 <? avlnode_balance_factor l then avlnode_rotate_lr n else avlnode_rotate_ll n
     else n
  end.

Fixpoint avlnode_balance (n : AVLNode) : AVLNode :=
  match n with
  | AVLLeaf => AVLLeaf
  | AVLN k d l r => rebalance (AVLN k d (avlnode_balance l) (avlnode_balance r))
  end.

(** The last node on the right spine of [n->left]. *)
Fixpoint rightmost (k : Z) (d : A) (r : AVLNode) : Z * A :=
  match r with
  | AVLLeaf => (k, d)
  | AVLN k' d' _ r' => rightmost k' d' r'
  end.

Definition avlnode_ip (l : AVLNode) : option (Z * A) :=
  match l with AVLLeaf => None | AVLN k d _ r => Some (rightmost k d r) end.

(** [avlnode_removenode], [remove] being [avlnode_remove] on the left child. *)
Definition avlnode_removenode (remove : Z → AVLNode) (l r : AVLNode) : AVLNode :=
  match r, avlnode_ip l with
  | AVLN _ _ _ _, Some (ik, id) => AVLN ik id (remove ik) r
  | _, _ => match l with AVLLeaf => r | _ => l end
  end.

Fixpoint avlnode_remove (n : AVLNode) (key : Z) : AVLNode :=
  match n with
  | AVLLeaf => AVLLeaf
  | AVLN k d l r =>
     avlnode_balance
       (if key =? k then avlnode_removenode (avlnode_remove l) l r
        else if key <? k then AVLN k d (avlnode_remove l key) r
        else AVLN k d l (avlnode_remove r key))
  end.

(** The new leaf hung where the search for [key] ended. *)
Fixpoint avlnode_link (n : AVLNode) (key : Z) (data : A) : AVLNode :=
  match n with
  | AVLLeaf => AVLN key data AVLLeaf AVLLeaf
  | AVLN k d l r =>
     if key =? k then n
     else if key <? k then AVLN k d (avlnode_link l key data) r
     else AVLN k d l (avlnode_link r key data)
  end.

(** [avltree_*]: the tree is its [root]. *)
Definition avltree_create : AVLNode := AVLLeaf.
Definition avltree_search (t : AVLNode) (key : Z) : option A := avlnode_search t key.
Definition avltree_balance (t : AVLNode) : AVLNode := avlnode_balance t.
Definition avltree_remove (t : AVLNode) (key : Z) : AVLNode := avlnode_remove t key.

Definition avltree_insert (t : AVLNode) (key : Z) (data : A) : AVLNode :=
  match avlnode_search t key with
  | Some _ => t
  | None =>
     match t with
     | AVLLeaf => AVLN key data AVLLeaf AVLLeaf
     | _ => avltree_balance (avlnode_link t key data)
     end
  end.

(** ** The invariant *)

Fixpoint elements (n : AVLNode) : list (Z * A) :=
  match n with
  | AVLLeaf => []
  | AVLN k d l r => elements l ++ (k, d) :: elements r
  end.

Definition key_lt (x y : Z * A) : Prop := x.1 < y.1.
Definition bst (n : AVLNode) : Prop := StronglySorted key_lt (elements n).

Fixpoint balanced (n : AVLNode) : Prop :=
  match n with
  | AVLLeaf => True
  | AVLN _ _ l r => -1 ≤ avlnode_height r - avlnode_height l ≤ 1 ∧ balanced l ∧ balanced r
  end.

Lemma height_node k d l r :
  avlnode_height (AVLN k d l r) = Z.max (avlnode_height l) (avlnode_height r) + 1.
Proof. cbn. destruct (Z.ltb_spec (avlnode_height l) (avlnode_height r)); lia. Qed.

Lemma height_nonneg n : 0 ≤ avlnode_height n.
Proof. induction n; [done|]. rewrite height_node. lia. Qed.

Lemma bst_node k d l r :
  bst (AVLN k d l r) ↔
  bst l ∧ bst r ∧ (∀ x, x ∈ elements l → x.1 < k) ∧ (∀ x, x ∈ elements r → k < x.1).
Proof.
  unfold bst. cbn. rewrite StronglySorted_app. setoid_rewrite elem_of_cons. split.
  - intros (H1 & H2 & H3). apply StronglySorted_inv in H3 as [H3 H4].
    rewrite Forall_forall in H4. unfold key_lt in *. naive_solver.
  - intros (H1 & H2 & H3 & H4). unfold key_lt in *. split_and!; [|done|].
    + intros x y Hx [->|Hy]; [by apply H3|]. specialize (H3 x Hx). specialize (H4 y Hy). cbn in *. lia.
    + constructor; [done|]. by apply Forall_forall.
Qed.

(** Balancing moves nodes about but keeps their order. *)
Lemma rebalance_elements n : elements (rebalance n) = elements n.
Proof.
  destruct n as [|k d l r]; [done|]. unfold rebalance.
  repeat case_match; try done; subst; cbn.
  - destruct r as [|? ? [|????] ?]; cbn; [done|done|]. by rewrite <-!app_assoc.
  - destruct r as [|????]; cbn; [done|]. by rewrite <-!app_assoc.
  - destruct l as [|? ? ? [|????]]; cbn; [done|done|]. by rewrite <-!app_assoc; cbn; rewrite <-!app_assoc.
  - destruct l as [|????]; cbn; [done|]. by rewrite <-!app_assoc.
Qed.

Lemma balance_elements n : elements (avlnode_balance n) = elements n.
Proof.
  induction n as [|k d l IHl r IHr]; [done|]. cbn [avlnode_balance].
  rewrite rebalance_elements. cbn. by rewrite IHl, IHr.
Qed.

Lemma balance_id n : balanced n → avlnode_balance n = n.
Proof.
  induction n as [|k d l IHl r IHr]; [done|]. cbn [avlnode_balance balanced].
  intros (Hb & Hl & Hr). rewrite IHl, IHr by done. unfold rebalance. cbn.
  by repeat (case_match; try lia).
Qed.

(** A node whose balanced subtrees differ in height by two at most becomes
    balanced, and no higher than it was. *)
Lemma rebalance_ok k d l r :
  balanced l → balanced r → -2 ≤ avlnode_height r - avlnode_height l ≤ 2 →
  balanced (rebalance (AVLN k d l r)) ∧
  avlnode_height (AVLN k d l r) - 1 ≤ avlnode_height (rebalance (AVLN k d l r)) ≤ avlnode_height (AVLN k d l r) ∧
  (-1 ≤ avlnode_height r - avlnode_height l ≤ 1 → rebalance (AVLN k d l r) = AVLN k d l r).
Proof.
  intros Hl Hr Hd. pose proof (height_nonneg l). pose proof (height_nonneg r).
  unfold rebalance. cbn [avlnode_balance_factor].
  destruct (Z.leb_spec 2 (0 - avlnode_height l + avlnode_height r)).
  - destruct r as [|rk rd rl rr]; [cbn in *; lia|]. destruct Hr as (Hb & Hrl & Hrr).
    pose proof (height_nonneg rl). pose proof (height_nonneg rr). cbn [avlnode_balance_factor].
    rewrite !height_node in *. destruct (Z.ltb_spec (0 - avlnode_height rl + avlnode_height rr) 0).
    + destruct rl as [|ck cd cl cr]; [cbn in *; lia|]. destruct Hrl as (Hc & Hcl & Hcr).
      cbn [avlnode_rotate_rl]. rewrite !height_node in *. cbn [balanced]. rewrite !height_node.
      split_and!; try done; lia.
    + cbn [avlnode_rotate_rr]. rewrite !height_node in *. cbn [balanced]. rewrite !height_node.
      split_and!; try done; lia.
  - destruct (Z.leb_spec (0 - avlnode_height l + avlnode_height r) (-2)).
    + destruct l as [|lk ld ll lr]; [cbn in *; lia|]. destruct Hl as (Hb & Hll & Hlr).
      pose proof (height_nonneg ll). pose proof (height_nonneg lr). cbn [avlnode_balance_factor].
      rewrite !height_node in *. destruct (Z.ltb_spec 0 (0 - avlnode_height ll + avlnode_height lr)).
      * destruct lr as [|ck cd cl cr]; [cbn in *; lia|]. destruct Hlr as (Hc & Hcl & Hcr).
        cbn [avlnode_rotate_lr]. rewrite !height_node in *. cbn [balanced]. rewrite !height_node.
        split_and!; try done; lia.
      * cbn [avlnode_rotate_ll]. rewrite !height_node in *. cbn [balanced]. rewrite !height_node.
        split_and!; try done; lia.
    + split_and!; [cbn; split_and!; try done; lia|lia|lia|done].
Qed.

Lemma balance_node k d l r :
  balanced l → balanced r → avlnode_balance (AVLN k d l r) = rebalance (AVLN k d l r).
Proof. intros. cbn [avlnode_balance]. by rewrite !balance_id. Qed.

(** ** Insertion *)

Lemma link_balanced n key data :
  balanced n →
  let m := avlnode_balance (avlnode_link n key data) in
  balanced m ∧ avlnode_height n ≤ avlnode_height m ≤ avlnode_height n + 1.
Proof.
  induction n as [|k d l IHl r IHr]; [by cbn|]. intros Hn m. subst m.
  pose proof Hn as (Hb & Hl & Hr). cbn [avlnode_link].
  destruct (key =? k); [rewrite balance_id by done; split; [done|lia]|].
  destruct (key <? k); cbn [avlnode_balance].
  - destruct (IHl Hl) as [Hb' Hh]. rewrite (balance_id r) by done.
    destruct (rebalance_ok k d (avlnode_balance (avlnode_link l key data)) r) as (R1 & R2 & R3); [done|done|lia|].
    split; [done|]. rewrite !height_node in *.
    destruct (decide (-1 ≤ avlnode_height r - avlnode_height (avlnode_balance (avlnode_link l key data)) ≤ 1));
      [rewrite R3, height_node by lia; lia|lia].
  - destruct (IHr Hr) as [Hb' Hh]. rewrite (balance_id l) by done.
    destruct (rebalance_ok k d l (avlnode_balance (avlnode_link r key data))) as (R1 & R2 & R3); [done|done|lia|].
    split; [done|]. rewrite !height_node in *.
    destruct (decide (-1 ≤ avlnode_height (avlnode_balance (avlnode_link r key data)) - avlnode_height l ≤ 1));
      [rewrite R3, height_node by lia; lia|lia].
Qed.

Lemma search_elem n key d : bst n → avlnode_search n key = Some d ↔ (key, d) ∈ elements n.
Proof.
  induction n as [|k e l IHl r IHr]; [by cbn; rewrite elem_of_nil|].
  intros (Hl & Hr & Hll & Hrr)%bst_node. cbn.
  rewrite elem_of_app, elem_of_cons. destruct (Z.eqb_spec k key) as [->|Hne].
  - split; [intros [= ->]; auto|]. intros [H|[[= ->]|H]]; [|done|].
    + apply Hll in H. cbn in H. lia.
    + apply Hrr in H. cbn in H. lia.
  - destruct (Z.ltb_spec key k).
    + rewrite IHl by done. split; [auto|]. intros [H'|[[= -> ->]|H']]; [done|done|].
      apply Hrr in H'. cbn in H'. lia.
    + rewrite IHr by done. split; [auto|]. intros [H'|[[= -> ->]|H']]; [|done|done].
      apply Hll in H'. cbn in H'. lia.
Qed.

Lemma search_none n key : bst n → avlnode_search n key = None ↔ ∀ d, (key, d) ∉ elements n.
Proof.
  intros Hn. split.
  - intros E d H%(search_elem n key d Hn). congruence.
  - intros H. destruct (avlnode_search n key) eqn:E; [|done]. by apply search_elem, H in E.
Qed.

Lemma link_elem n key data x :
  avlnode_search n key = None → x ∈ elements (avlnode_link n key data) ↔ x = (key, data) ∨ x ∈ elements n.
Proof.
  induction n as [|k e l IHl r IHr]; cbn; [by rewrite list_elem_of_singleton, elem_of_nil; intuition|].
  rewrite (Z.eqb_sym key k). destruct (k =? key); [done|]. intros Hs.
  destruct (key <? k); cbn; rewrite !elem_of_app, !elem_of_cons, ?IHl, ?IHr by done; tauto.
Qed.

Lemma link_bst n key data : avlnode_search n key = None → bst n → bst (avlnode_link n key data).
Proof.
  induction n as [|k e l IHl r IHr]; [repeat constructor|]. cbn [avlnode_link avlnode_search].
  rewrite (Z.eqb_sym key k). destruct (Z.eqb_spec k key) as [|Hne]; [done|].
  intros Hs (Hl & Hr & Hll & Hrr)%bst_node. destruct (Z.ltb_spec key k); apply bst_node; split_and!; auto.
  - intros x [->|Hx]%link_elem; [done|by apply Hll|done].
  - intros x [->|Hx]%link_elem; [cbn; lia|by apply Hrr|done].
Qed.

(** ** Removal *)

Lemma rightmost_spec k d r l0 :
  bst (AVLN k d l0 r) →
  rightmost k d r ∈ elements (AVLN k d l0 r) ∧
  ∀ x, x ∈ elements (AVLN k d l0 r) → x = rightmost k d r ∨ x.1 < (rightmost k d r).1.
Proof.
  revert k d l0. induction r as [|k' d' l' _ r' IH]; intros k d l0 Hb.
  - cbn. split; [rewrite elem_of_app, elem_of_cons; auto|]. intros x.
    apply bst_node in Hb as (_ & _ & Hll & _). rewrite elem_of_app, list_elem_of_singleton.
    intros [H|H]; [right; by apply Hll|by left].
  - apply bst_node in Hb as (Hl & Hr & Hll & Hrr). destruct (IH k' d' l' Hr) as [Hin Hmax].
    cbn [rightmost elements] in *. split; [by apply elem_of_app; right; apply elem_of_cons; right|].
    intros x. rewrite elem_of_app, elem_of_cons. specialize (Hrr _ Hin).
    intros [Hx|[->|Hx]]; [right; specialize (Hll _ Hx); lia|right; done|by apply Hmax].
Qed.

Lemma ip_spec l ik id :
  bst l → avlnode_ip l = Some (ik, id) →
  (ik, id) ∈ elements l ∧ ∀ x, x ∈ elements l → x = (ik, id) ∨ x.1 < ik.
Proof.
  destruct l as [|k d l r]; [done|]. intros Hb [= E].
  pose proof (rightmost_spec k d r l Hb) as H. by rewrite E in H.
Qed.

(** What removal does to the ordered contents. *)
Definition removed (n m : AVLNode) (key : Z) : Prop :=
  bst m ∧ ∀ x, x ∈ elements m ↔ x ∈ elements n ∧ x.1 ≠ key.

Lemma removed_balance n m key : removed n m key → removed n (avlnode_balance m) key.
Proof. unfold removed, bst. by rewrite balance_elements. Qed.

Lemma removenode_spec k d l r :
  bst (AVLN k d l r) → (∀ key, removed l (avlnode_remove l key) key) →
  removed (AVLN k d l r) (avlnode_removenode (avlnode_remove l) l r) k.
Proof.
  intros (Hl & Hr & Hll & Hrr)%bst_node IH. unfold avlnode_removenode.
  assert (∀ x, x ∈ elements (AVLN k d l r) ∧ x.1 ≠ k ↔ x ∈ elements l ∨ x ∈ elements r) as He.
  { intros x. cbn. rewrite elem_of_app, elem_of_cons. split; [intros [[?|[->|?]] ?]; auto; done|].
    intros [H|H]; (split; [auto|]); [apply Hll in H|apply Hrr in H]; lia. }
  destruct (avlnode_ip l) as [[ik id]|] eqn:Ei.
  2: { destruct l; [|done]. assert (removed (AVLN k d AVLLeaf r) r k) as H.
       { split; [done|]. intros x. rewrite He. cbn. rewrite elem_of_nil. tauto. }
       by destruct r. }
  destruct r as [|rk rd rl rr].
  { assert (removed (AVLN k d l AVLLeaf) l k) as H.
    { split; [done|]. intros x. rewrite He. cbn. rewrite elem_of_nil. tauto. }
    by destruct l. }
  destruct (ip_spec l ik id Hl Ei) as [Hin Hmax]. destruct (IH ik) as [Hb Hel].
  split.
  - apply bst_node. split_and!; [done|done| |].
    + intros x [Hx Hne]%Hel. destruct (Hmax x Hx) as [->|]; done.
    + intros x Hx. apply Hrr in Hx. apply Hll in Hin. cbn in Hin. lia.
  - intros x. rewrite He. cbn [elements]. rewrite elem_of_app, elem_of_cons, Hel.
    split; [intros [[? _]|[->|?]]; auto|]. intros [Hx|Hx]; [|auto].
    destruct (Hmax x Hx) as [->|]; [auto|]. left. split; [done|lia].
Qed.

Lemma avl_remove_spec n key : bst n → removed n (avlnode_remove n key) key.
Proof.
  revert key. induction n as [|k d l IHl r IHr]; intros key Hb.
  { split; [done|]. intros x. cbn. rewrite elem_of_nil. tauto. }
  pose proof Hb as (Hl & Hr & Hll & Hrr)%bst_node.
  cbn [avlnode_remove]. apply removed_balance. destruct (Z.eqb_spec key k) as [->|Hne].
  { apply removenode_spec; auto. }
  assert (∀ x, x ∈ elements (AVLN k d l r) ∧ x.1 ≠ key ↔
    (x ∈ elements l ∧ x.1 ≠ key) ∨ x = (k, d) ∨ (x ∈ elements r ∧ x.1 ≠ key)) as He.
  { intros x. cbn. rewrite elem_of_app, elem_of_cons.
    split; [intros [[?|[->|?]] ?]; auto|]. intros [[? ?]|[->|[? ?]]]; auto. }
  destruct (Z.ltb_spec key k); [destruct (IHl key Hl) as [H1 H2]|destruct (IHr key Hr) as [H1 H2]]; split.
  - apply bst_node. split_and!; [done..| |done]. intros x [Hx _]%H2. by apply Hll.
  - intros x. rewrite He. cbn [elements]. rewrite elem_of_app, elem_of_cons, H2.
    assert (x ∈ elements r → x.1 ≠ key) by (intros Hx%Hrr; lia). tauto.
  - apply bst_node. split_and!; [done..|]. intros x [Hx _]%H2. by apply Hrr.
  - intros x. rewrite He. cbn [elements]. rewrite elem_of_app, elem_of_cons, H2.
    assert (x ∈ elements l → x.1 ≠ key) by (intros Hx%Hll; lia). tauto.
Qed.

Lemma remove_balanced n key :
  balanced n →
  balanced (avlnode_remove n key) ∧
  avlnode_height n - 1 ≤ avlnode_height (avlnode_remove n key) ≤ avlnode_height n.
Proof.
  revert key. induction n as [|k d l IHl r IHr]; intros key Hn; [by cbn|].
  pose proof Hn as (Hb & Hl & Hr). cbn [avlnode_remove].
  pose proof (height_nonneg l). pose proof (height_nonneg r).
  assert (∀ k' d' l', balanced l' → avlnode_height l - 1 ≤ avlnode_height l' ≤ avlnode_height l →
    balanced (avlnode_balance (AVLN k' d' l' r)) ∧
    avlnode_height (AVLN k d l r) - 1 ≤ avlnode_height (avlnode_balance (AVLN k' d' l' r)) ≤ avlnode_height (AVLN k d l r)) as HL.
  { intros k' d' l' Hb' Hh. rewrite balance_node by done.
    destruct (rebalance_ok k' d' l' r) as (R1 & R2 & R3); [done|done|lia|]. split; [done|]. rewrite !height_node in *.
    destruct (decide (-1 ≤ avlnode_height r - avlnode_height l' ≤ 1)); [rewrite R3, height_node by lia; lia|lia]. }
  destruct (key =? k).
  - unfold avlnode_removenode. destruct (avlnode_ip l) as [[ik id]|] eqn:Ei.
    + destruct r as [|rk rd rl rr]; [|by apply HL; apply IHl].
      destruct l; [done|]. rewrite balance_id by done. split; [done|].
      rewrite (height_node k d). change (avlnode_height AVLLeaf) with 0 in *. lia.
    + destruct l; [|done]. assert (avlnode_height (AVLN k d AVLLeaf r) = avlnode_height r + 1) as E
        by (rewrite height_node; cbn [avlnode_height]; lia).
      destruct r; rewrite balance_id by done; (split; [done|lia]).
  - destruct (key <? k); [by apply HL; apply IHl|].
    destruct (IHr key Hr) as [Hb' Hh]. rewrite balance_node by done.
    destruct (rebalance_ok k d l (avlnode_remove r key)) as (R1 & R2 & R3); [done|done|lia|].
    split; [done|]. rewrite !height_node in *.
    destruct (decide (-1 ≤ avlnode_height (avlnode_remove r key) - avlnode_height l ≤ 1));
      [rewrite R3, height_node by lia; lia|lia].
Qed.

(** ** The tree as a finite map *)

Record represents (t : AVLNode) (m : gmap Z A) : Prop := mk_represents {
  rep_bst : bst t;
  rep_balanced : balanced t;
  rep_search k : avltree_search t k = m !! k
}.

(** The insertion the tree performs: an existing key keeps its data. *)
Definition insert_new (k : Z) (d : A) (m : gmap Z A) : gmap Z A :=
  match m !! k with Some _ => m | None => <[k := d]> m end.

Lemma create_represents : represents avltree_create ∅.
Proof. split; [constructor|done|done]. Qed.

Lemma represents_ext t m m' : represents t m → (∀ k, m !! k = m' !! k) → represents t m'.
Proof. intros [? ? Hs] He. split; [done..|]. intros k. by rewrite Hs. Qed.

Lemma represents_elements t m m' :
  bst t → balanced t → (∀ k d, (k, d) ∈ elements t ↔ m' !! k = Some d) → m = m' → represents t m.
Proof.
  intros Hb Hbal He ->. split; [done..|]. intros k. unfold avltree_search.
  apply option_eq. intros d. by rewrite search_elem.
Qed.

Lemma insert_represents t m k d : represents t m → represents (avltree_insert t k d) (insert_new k d m).
Proof.
  intros [Hb Hbal Hs]. unfold avltree_insert, insert_new. rewrite <-Hs. unfold avltree_search in *.
  destruct (avlnode_search t k) as [e|] eqn:E; [by split|].
  assert (∀ t', elements t' = elements (avlnode_link t k d) → balanced t' → represents t' (<[k := d]> m)) as H.
  { intros t' Ee Hb'. eapply represents_elements; [|done| |done].
    - unfold bst. rewrite Ee. by apply link_bst.
    - intros j e. rewrite Ee, link_elem, lookup_insert_Some, <-Hs, search_elem by done.
      split; [|naive_solver]. intros [[= -> ->]|Hin]; [by left|]. destruct (decide (k = j)) as [->|]; [|by right].
      apply search_elem in Hin; [|done]. congruence. }
  destruct t as [|k0 d0 l0 r0] eqn:Et; [by apply H|]. rewrite <-Et in *. apply H; [apply balance_elements|].
  apply (link_balanced t k d Hbal).
Qed.

Lemma remove_represents t m k : represents t m → represents (avltree_remove t k) (delete k m).
Proof.
  intros [Hb Hbal Hs]. destruct (avl_remove_spec t k Hb) as [Hb' He].
  eapply represents_elements; [done|by apply remove_balanced| |done].
  intros j e. unfold avltree_remove. rewrite He, lookup_delete_Some, <-Hs. unfold avltree_search.
  rewrite search_elem by done. cbn. split; intros [? ?]; split; congruence.
Qed.

(** A sequence of insertions and removals, on trees and on maps. *)
Inductive tree_op := TInsert (k : Z) (d : A) | TRemove (k : Z).

Definition tree_step (t : AVLNode) (o : tree_op) : AVLNode :=
  match o with TInsert k d => avltree_insert t k d | TRemove k => avltree_remove t k end.

Definition map_step (m : gmap Z A) (o : tree_op) : gmap Z A :=
  match o with TInsert k d => insert_new k d m | TRemove k => delete k m end.

Lemma run_represents os : ∀ t m,
  represents t m → represents (foldl tree_step t os) (foldl map_step m os).
Proof.
  induction os as [|o os IH]; intros t m Hr; [done|]. cbn. apply IH.
  destruct o; [by apply insert_represents|by apply remove_represents].
Qed.

(** The number of nodes. *)
Fixpoint nodes (n : AVLNode) : Z :=
  match n with AVLLeaf => 0 | AVLN _ _ l r => nodes l + nodes r + 1 end.

Lemma nodes_nonneg n : 0 ≤ nodes n.
Proof. induction n; cbn; lia. Qed.

(** The two subtrees of a balanced node: the higher one holds the square root
    of [2 X] nodes, the other the square root of [X]. *)
Lemma square_sum a b X : 0 ≤ a → 0 ≤ b → 2 * X ≤ a ^ 2 → X ≤ b ^ 2 → 4 * X ≤ (a + b) ^ 2.
Proof. intros. destruct (Z.le_ge_cases a b); nia. Qed.

Lemma balanced_nodes n : balanced n → 2 ^ avlnode_height n ≤ (nodes n + 1) ^ 2.
Proof.
  induction n as [|k d l IHl r IHr]; [done|]. intros (Hb & Hl & Hr). rewrite height_node.
  specialize (IHl Hl). specialize (IHr Hr). cbn [nodes].
  pose proof (height_nonneg l). pose proof (height_nonneg r).
  pose proof (nodes_nonneg l). pose proof (nodes_nonneg r).
  destruct (decide (Z.max (avlnode_height l) (avlnode_height r) = 0)) as [E|E].
  { rewrite E. change (2 ^ (0 + 1)) with 2. nia. }
  assert (∀ a b n1 n2, 0 < a → a - 1 ≤ b → 2 ^ a ≤ (n1 + 1) ^ 2 → 2 ^ b ≤ (n2 + 1) ^ 2 → 0 ≤ n1 → 0 ≤ n2 →
    2 ^ (a + 1) ≤ (n1 + n2 + 2) ^ 2) as HS.
  { intros a b n1 n2 Ha Hab Ha2 Hb2 Hn1 Hn2.
    replace (n1 + n2 + 2) with ((n1 + 1) + (n2 + 1)) by lia.
    replace (2 ^ (a + 1)) with (4 * 2 ^ (a - 1)).
    - apply square_sum; [lia|lia| |].
      + rewrite <-Z.pow_succ_r by lia. by replace (Z.succ (a - 1)) with a by lia.
      + etrans; [|exact Hb2]. apply Z.pow_le_mono_r; lia.
    - replace (a + 1) with ((a - 1) + 2) by lia. rewrite Z.pow_add_r by lia. lia. }
  destruct (Z.max_spec (avlnode_height l) (avlnode_height r)) as [[? ->]|[? ->]].
  - replace (nodes l + nodes r + 1 + 1) with (nodes r + nodes l + 2) by lia. eapply HS; eauto; lia.
  - replace (nodes l + nodes r + 1 + 1) with (nodes l + nodes r + 2) by lia. eapply HS; eauto; lia.
Qed.

End Avl.

Arguments AVLNode : clear implicits.
Arguments tree_op : clear implicits.

Lemma balanced_height {A} (t : AVLNode A) :
  balanced t → avlnode_height t ≤ 2 * Z.log2_up (nodes t + 1).
Proof.
  intros Hb. pose proof (nodes_nonneg t). pose proof (height_nonneg t).
  apply (Z.pow_le_mono_r_iff 2); [lia|pose proof (Z.log2_up_nonneg (nodes t + 1)); lia|]. etrans; [by apply balanced_nodes|].
  rewrite Z.mul_comm, Z.pow_mul_r by (try apply Z.log2_up_nonneg; lia).
  apply Z.pow_le_mono_l. split; [lia|].
  destruct (decide (nodes t = 0)) as [->|]; [done|]. apply Z.log2_up_spec. lia.
Qed.

(** C27. The AVL tree is a finite map, kept balanced: after any sequence of
    insertions and removals from the empty tree, searching a key finds exactly
    the data the map has for it, where inserting a key that is present changes
    nothing; the keys are in order from left to right; the heights of the two
    subtrees of every node differ by one at most; and so a tree of [n] nodes
    has height at most [2 log2 (n + 1)], which bounds the steps of a search. *)
Theorem avl_refines_map {A : Type} (os : list (tree_op A)) :
  let t := foldl tree_step avltree_create os in
  (∀ k, avltree_search t k = foldl map_step ∅ os !! k) ∧
  bst t ∧ balanced t ∧ avlnode_height t ≤ 2 * Z.log2_up (nodes t + 1).
Proof.
  intros t. assert (represents t (foldl map_step ∅ os)) as [Hb Hbal Hs] by apply run_represents, create_represents.
  split_and!; [exact Hs|done|done|by apply balanced_height].
Qed.

End Avl.
