(* ===== verification/PrefixTree.v ===== *)
(** * legacy/src/pftutils.c: the prefix tree of names

    The legacy library keeps its command callbacks and the variables of a
    client in prefix trees: a node holds one character, [right] leads to the
    alternatives of that character, [down] to the next position. A null
    pointer is [PTNull]; keys are C strings, their terminator is the
    character the empty rest of a key shows. *)

From S2P Require Import Prelude.

Module PrefixTree.

Section PrefixTree.
Context {A : Type}.

Inductive PTNode :=
  | PTNull
  | PTN (key : ascii) (data_ptr : option A) (right down : PTNode).

(** [*key_ptr]. *)
Definition cur (key_ptr : bytes) : ascii := default NUL (head key_ptr).

Definition ptnode_create (key : ascii) (data_ptr : option A) : PTNode :=
  PTN key data_ptr PTNull PTNull.

(** [ptnode_search]: the data of the node found, [None] where there is none.
    The two cases a caller could tell apart, no node and a node whose data is
    null, are told apart by no caller. *)
Fixpoint ptnode_search (n : PTNode) (key_ptr : bytes) : option A :=
  match n with
  | PTNull => None
  | PTN k d rt dn =>
     if negb (ceq k (cur key_ptr)) then ptnode_search rt key_ptr
     else if ceq (cur key_ptr) NUL then d
     else ptnode_search dn (tail key_ptr)
  end.

(** Insertion into a node [ptnode_create] has just made for [*key_ptr]: the
    rest of the key hangs below it ([insert_created]). *)
Fixpoint ptnode_new (key_ptr : bytes) (data_ptr : option A) : PTNode :=
  match key_ptr with
  | [] => PTN NUL data_ptr PTNull PTNull
  | c :: r => PTN c None PTNull (ptnode_new r data_ptr)
  end.

Fixpoint ptnode_insert (n : PTNode) (key_ptr : bytes) (data_ptr : option A) : PTNode :=
  match n with
  | PTNull => ptnode_new key_ptr data_ptr
  | PTN k d rt dn =>
     if ceq k NUL then PTN k data_ptr rt dn
     else if negb (ceq k (cur key_ptr))
     then PTN k d (ptnode_insert rt key_ptr data_ptr) dn
     else PTN k d rt (ptnode_insert dn (tail key_ptr) data_ptr)
  end.

(** [pttree_*]: the tree is its [root]. *)
Definition pttree_create : PTNode := PTNull.
Definition pttree_search (t : PTNode) (key_ptr : bytes) : option A := ptnode_search t key_ptr.
Definition pttree_insert (t : PTNode) (key_ptr : bytes) (data_ptr : option A) : PTNode :=
  ptnode_insert (match t with PTNull => ptnode_create (cur key_ptr) None | _ => t end)
    key_ptr data_ptr.

(** Creating a node and inserting into it, as [pttree_insert] and the two
    branches of [ptnode_insert] do, is inserting at the null pointer. *)
Lemma insert_created key d :
  no_nul key → ptnode_insert (ptnode_create (cur key) None) key d = ptnode_new key d.
Proof.
  destruct key as [|c key]; intros Hk; cbn; [done|].
  apply Forall_cons_1 in Hk as [Hc _]. rewrite (proj2 (ceq_false c NUL)), ceq_refl by done. done.
Qed.

Lemma tree_insert_node t key d : no_nul key → pttree_insert t key d = ptnode_insert t key d.
Proof. intros Hk. destruct t; [by apply insert_created|done]. Qed.

(** ** What a tree holds *)

(** [key] is one of the tree's keys: its path ends in a node for its NUL. *)
Fixpoint has_key (n : PTNode) (key : bytes) : bool :=
  match n with
  | PTNull => false
  | PTN k _ rt dn =>
     if negb (ceq k (cur key)) then has_key rt key
     else if ceq (cur key) NUL then true
     else has_key dn (tail key)
  end.

(** No key of the tree is a proper prefix of [key]. *)
Definition no_shorter (n : PTNode) (key : bytes) : Prop :=
  ∀ a b, key = a ++ b → b ≠ [] → has_key n a = false.

Lemma search_new key d key' :
  no_nul key → no_nul key' →
  ptnode_search (ptnode_new key d) key' = if streq key key' then d else None.
Proof.
  revert key'. induction key as [|c key IH]; intros [|c' key'] Hk Hk'; cbn;
    try apply Forall_cons_1 in Hk as [Hc Hk]; try apply Forall_cons_1 in Hk' as [Hc' Hk'].
  - done.
  - rewrite (proj2 (ceq_false NUL c')) by done. done.
  - rewrite (proj2 (ceq_false c NUL)) by done. done.
  - rewrite (proj2 (ceq_false c' NUL)) by done. destruct (ceq_spec c c') as [<-|Hne]; cbn.
    + rewrite IH by done. unfold streq. repeat case_bool_decide; naive_solver.
    + unfold streq. case_bool_decide; [naive_solver|done].
Qed.

Lemma has_key_new key d key' :
  no_nul key → no_nul key' → has_key (ptnode_new key d) key' = streq key key'.
Proof.
  revert key'. induction key as [|c key IH]; intros [|c' key'] Hk Hk'; cbn;
    try apply Forall_cons_1 in Hk as [Hc Hk]; try apply Forall_cons_1 in Hk' as [Hc' Hk'].
  - done.
  - rewrite (proj2 (ceq_false NUL c')) by done. done.
  - rewrite (proj2 (ceq_false c NUL)) by done. done.
  - rewrite (proj2 (ceq_false c' NUL)) by done. destruct (ceq_spec c c') as [<-|Hne]; cbn.
    + rewrite IH by done. unfold streq. repeat case_bool_decide; naive_solver.
    + unfold streq. case_bool_decide; [naive_solver|done].
Qed.

(** Where the insertion goes when nothing shorter is in the way. *)
Lemma no_shorter_right k d rt dn key :
  k ≠ NUL → k ≠ cur key → no_shorter (PTN k d rt dn) key → no_shorter rt key.
Proof.
  intros Hk Hc Hs a b -> Hb. specialize (Hs a b eq_refl Hb). cbn in Hs.
  destruct (ceq_spec k (cur a)) as [E|E]; [|done]. destruct a as [|c a]; [done|]. by destruct Hc.
Qed.

Lemma no_shorter_down d rt dn key :
  cur key ≠ NUL → no_shorter (PTN (cur key) d rt dn) key → no_shorter dn (tail key).
Proof.
  destruct key as [|c key]; [done|]. cbn. intros Hc Hs a b -> Hb.
  specialize (Hs (c :: a) b eq_refl Hb). cbn in Hs. rewrite ceq_refl in Hs. cbn in Hs.
  by rewrite (proj2 (ceq_false c NUL)) in Hs.
Qed.

Lemma no_shorter_nul d rt dn key :
  no_shorter (PTN NUL d rt dn) key → key = [].
Proof.
  intros Hs. destruct key as [|c key]; [done|]. specialize (Hs [] (c :: key) eq_refl).
  by specialize (Hs ltac:(done)).
Qed.

Lemma streq_cons c a b : streq (c :: a) (c :: b) = streq a b.
Proof. unfold streq. repeat case_bool_decide; naive_solver. Qed.

Lemma cur_not_nul key : no_nul key → cur key = NUL → key = [].
Proof. destruct key; [done|]. intros [? _]%Forall_cons_1. done. Qed.

Lemma streq_cur key key' : cur key ≠ cur key' → streq key key' = false.
Proof. intros H. apply streq_false. by intros ->. Qed.

Lemma tail_no_nul key : no_nul key → no_nul (tail key).
Proof. destruct key; [done|]. by intros [_ ?]%Forall_cons_1. Qed.

Lemma streq_tail key key' :
  cur key = cur key' → cur key ≠ NUL → streq (tail key) (tail key') = streq key key'.
Proof. destruct key, key'; cbn; try done. intros -> _. by rewrite streq_cons. Qed.

(** Insertion with nothing shorter in the way is the update of a map. *)
Lemma search_insert n key d key' :
  no_nul key → no_nul key' → no_shorter n key →
  ptnode_search (ptnode_insert n key d) key' = if streq key key' then d else ptnode_search n key'.
Proof.
  revert key key'. induction n as [|k e rt IHr dn IHd]; intros key key' Hk Hk' Hs.
  { cbn. by apply search_new. }
  cbn [ptnode_insert]. destruct (ceq_spec k NUL) as [->|Hkn].
  { apply no_shorter_nul in Hs as ->. destruct key' as [|c' key']; [done|]. cbn.
    apply Forall_cons_1 in Hk' as [Hc' _]. by rewrite (proj2 (ceq_false NUL c')). }
  destruct (ceq_spec k (cur key)) as [->|Hne]; cbn [negb ptnode_search].
  - destruct (ceq_spec (cur key) (cur key')) as [E|E]; cbn [negb]; [|by rewrite (streq_cur _ _ E)].
    rewrite <-E. rewrite (proj2 (ceq_false (cur key) NUL)) by done.
    rewrite IHd, streq_tail by (eauto using tail_no_nul, no_shorter_down). done.
  - destruct (ceq_spec k (cur key')) as [->|E]; cbn [negb].
    + rewrite streq_cur by done. done.
    + apply IHr; eauto using no_shorter_right.
Qed.

Lemma has_key_insert n key d key' :
  no_nul key → no_nul key' → no_shorter n key →
  has_key (ptnode_insert n key d) key' = streq key key' || has_key n key'.
Proof.
  revert key key'. induction n as [|k e rt IHr dn IHd]; intros key key' Hk Hk' Hs.
  { cbn. rewrite has_key_new by done. by rewrite orb_false_r. }
  cbn [ptnode_insert]. destruct (ceq_spec k NUL) as [->|Hkn].
  { apply no_shorter_nul in Hs as ->. destruct key' as [|c' key']; [done|]. cbn.
    apply Forall_cons_1 in Hk' as [Hc' _]. by rewrite (proj2 (ceq_false NUL c')). }
  destruct (ceq_spec k (cur key)) as [->|Hne]; cbn [negb has_key].
  - destruct (ceq_spec (cur key) (cur key')) as [E|E]; cbn [negb]; [|by rewrite (streq_cur _ _ E)].
    rewrite <-E. rewrite (proj2 (ceq_false (cur key) NUL)) by done.
    rewrite IHd, streq_tail by (eauto using tail_no_nul, no_shorter_down). done.
  - destruct (ceq_spec k (cur key')) as [->|E]; cbn [negb].
    + rewrite streq_cur by done. done.
    + apply IHr; eauto using no_shorter_right.
Qed.

(** ** The tree as a finite map *)

(** A tree that holds the keys and data of [m]; a null datum is a key of [m]
    without a value. *)
Record stores (t : PTNode) (m : gmap bytes (option A)) : Prop := mk_stores {
  sto_search key : no_nul key → pttree_search t key = m !! key ≫= id;
  sto_keys key : no_nul key → has_key t key = bool_decide (is_Some (m !! key))
}.

(** [key] extends no key of [m]. *)
Definition fresh_end (m : gmap bytes (option A)) (key : bytes) : Prop :=
  ∀ a b, key = a ++ b → b ≠ [] → m !! a = None.

Lemma create_stores : stores pttree_create ∅.
Proof. split; intros key _; by rewrite lookup_empty. Qed.

Lemma insert_stores t m key d :
  no_nul key → fresh_end m key → stores t m → stores (pttree_insert t key d) (<[key := d]> m).
Proof.
  intros Hk Hf [Hs Hh]. rewrite tree_insert_node by done.
  assert (no_shorter t key) as Hn.
  { intros a b -> Hb. apply Forall_app in Hk as [Ha _]. rewrite Hh by done.
    rewrite (Hf a b) by done. by apply bool_decide_eq_false_2, is_Some_None. }
  split; intros key' Hk'; unfold pttree_search in *.
  - rewrite search_insert by done. destruct (decide (key = key')) as [<-|Hne].
    + by rewrite streq_refl, lookup_insert_eq.
    + rewrite (proj2 (streq_false key key')), lookup_insert_ne by done. by apply Hs.
  - rewrite has_key_insert by done. destruct (decide (key = key')) as [<-|Hne].
    + rewrite streq_refl, lookup_insert_eq. symmetry. by apply bool_decide_eq_true_2.
    + rewrite (proj2 (streq_false key key')), lookup_insert_ne by done. by apply Hh.
Qed.

(** A list of insertions none of which extends an earlier key. *)
Fixpoint prefix_free (m : gmap bytes (option A)) (kds : list (bytes * option A)) : Prop :=
  match kds with
  | [] => True
  | (k, d) :: kds => no_nul k ∧ fresh_end m k ∧ prefix_free (<[k := d]> m) kds
  end.

Definition insert_all (t : PTNode) (kds : list (bytes * option A)) : PTNode :=
  foldl (λ t '(k, d), pttree_insert t k d) t kds.

Definition map_all (m : gmap bytes (option A)) (kds : list (bytes * option A)) : gmap bytes (option A) :=
  foldl (λ m '(k, d), <[k := d]> m) m kds.

Lemma insert_all_stores kds : ∀ t m,
  prefix_free m kds → stores t m → stores (insert_all t kds) (map_all m kds).
Proof.
  induction kds as [|[k d] kds IH]; intros t m Hp Hs; [done|].
  destruct Hp as (Hk & Hf & Hp). cbn. apply IH; [done|]. by apply insert_stores.
Qed.

(** ** A way to check [prefix_free] by evaluation *)

Definition extends_none (ks : list bytes) (key : bytes) : bool :=
  forallb (λ a, negb (streq (take (length a) key) a && (length a <? length key))) ks.

Lemma extends_none_fresh (m : gmap bytes (option A)) (ks : list bytes) key :
  (∀ a, is_Some (m !! a) → a ∈ ks) → extends_none ks key = true → fresh_end m key.
Proof.
  intros Hm He a b -> Hb. apply eq_None_not_Some. intros Ha%Hm.
  unfold extends_none in He. apply forallb_forall with (x := a) in He; [|by apply list_elem_of_In].
  rewrite take_app_length, streq_refl, length_app in He.
  destruct (Nat.ltb_spec (length a) (length a + length b)); [done|]. destruct b; [done|cbn in *; lia].
Qed.

Fixpoint prefix_free_keys (ks : list bytes) (new : list bytes) : bool :=
  match new with
  | [] => true
  | k :: new => extends_none ks k && prefix_free_keys (k :: ks) new
  end.

Lemma prefix_free_check kds : ∀ m ks,
  (∀ a, is_Some (m !! a) → a ∈ ks) → Forall no_nul (kds.*1) →
  prefix_free_keys ks (kds.*1) = true → prefix_free m kds.
Proof.
  induction kds as [|[k d] kds IH]; intros m ks Hm Hn Hp; [done|].
  cbn in *. apply andb_prop in Hp as [He Hp]. apply Forall_cons_1 in Hn as [Hk Hn].
  split_and!; [done|by eapply extends_none_fresh|]. eapply IH; [|done|exact Hp].
  intros a. rewrite lookup_insert_is_Some'. rewrite elem_of_cons. naive_solver.
Qed.

End PrefixTree.

Arguments PTNode : clear implicits.

(** The prefix tree is a finite map as long as no inserted key extends an
    earlier one: after the insertions, searching a key finds the data last
    inserted for it and nothing for the other keys. *)
Theorem prefix_tree_refines_map {A : Type} (kds : list (bytes * option A)) (key : bytes)
    (Hfree : prefix_free ∅ kds) (Hkey : no_nul key) :
  pttree_search (insert_all pttree_create kds) key = map_all ∅ kds !! key ≫= id.
Proof. apply sto_search; [|done]. apply insert_all_stores; [done|apply create_stores]. Qed.

Lemma prefix_tree_refines_map_witness :
  let kds := [(B "CDUP", Some 1); (B "CWD", Some 2); (B "CDUP", Some 3)] in
  pttree_search (insert_all pttree_create kds) (B "CDUP") = Some 3.
Proof.
  intros kds. refine (prefix_tree_refines_map kds (B "CDUP") _ _).
  - apply (prefix_free_check _ _ []); [by intros a [? ?]|by repeat constructor|done].
  - by repeat constructor.
Defined.

(** A key that extends an earlier one is lost, and takes the place of
    the earlier one's data: after inserting a name and then a longer name
    that starts with it, into an empty tree, the short name finds the data of
    the long one and the long name finds nothing. *)
Theorem prefix_tree_overwrites {A : Type} (a b : bytes) (d e : A)
    (Ha : no_nul a) (Hb : no_nul b) (Hne : b ≠ []) :
  let t := pttree_insert (pttree_insert pttree_create a (Some d)) (a ++ b) (Some e) in
  pttree_search t a = Some e ∧ pttree_search t (a ++ b) = None.
Proof.
  intros t. assert (t = ptnode_new a (Some e)) as ->.
  { unfold t. rewrite !tree_insert_node by (try apply Forall_app; done). cbn. clear t Hne.
    induction Ha as [|c a Hc Ha IH]; [done|]. cbn.
    rewrite (proj2 (ceq_false c NUL)), ceq_refl by done. cbn. by rewrite IH. }
  unfold pttree_search. rewrite !search_new by (try apply Forall_app; done). rewrite streq_refl.
  split; [done|]. rewrite (proj2 (streq_false _ _)); [done|].
  intros E. apply (f_equal length) in E. rewrite length_app in E. destruct b; [done|cbn in E; lia].
Qed.

Lemma prefix_tree_overwrites_witness :
  let t := pttree_insert (pttree_insert pttree_create (B "RET") (Some 1)) (B "RETR") (Some 2) in
  pttree_search t (B "RET") = Some 2 ∧ pttree_search t (B "RETR") = None.
Proof. apply (prefix_tree_overwrites (B "RET") (B "R") 1 2); by repeat constructor. Defined.

End PrefixTree.
