(* ===== verification/LegacyUtil.v ===== *)
(** * legacy/src/ftputil.c: the string helpers of the legacy library

    The functions write into buffers of fixed size without checking it. A
    result is [Some] of the C string left in the buffer, or [None] when the
    call writes past its end (or reads before its start): what the program
    does then is undefined. The buffer sizes are those of a build: [Limits].
    Strings are C strings, without their NUL. *)

From S2P Require Import Prelude CLib Types Listing.
Import CLib.

Module LegacyUtil.

(** [MAX_PATH] and [MAX_NAME] of include/common.h. *)
Class Limits := mk_limits { MAX_PATH : nat; MAX_NAME : nat }.

(** The PS3 build, and a host where PATH_MAX is 4096 and NAME_MAX 255. *)
Definition psl1ght_limits : Limits := mk_limits 1056 256.
Definition linux_limits : Limits := mk_limits 4096 255.

(** Storing the string [s] and its NUL in a buffer of [n] bytes. *)
Definition store (n : nat) (s : bytes) : option bytes :=
  if length s <? n then Some s else None.

Section Util.
Context `{Limits}.

(** [struct Path]: the names of the levels. *)
Abbreviation Path := (list bytes).

Fixpoint gwd_loop (path_str : bytes) (len : nat) (dirs : Path) : option bytes :=
  match dirs with
  | [] => Some path_str
  | d :: dirs' =>
     let len := len + length d in
     if MAX_PATH <? len then Some path_str
     else
       path_str ← store MAX_PATH (path_str ++ d);
       match dirs' with
       | [] => Some path_str
       | _ => path_str ← store MAX_PATH (path_str ++ [SLASH]); gwd_loop path_str (S len) dirs'
       end
  end.

Definition get_working_directory (path : Path) : option bytes :=
  path_str ← store MAX_PATH [SLASH]; gwd_loop path_str 1 path.

(** [strtok(s, d)] called until it returns NULL. *)
Fixpoint strtok_all (d : ascii) (tok : bytes) (s : bytes) : list bytes :=
  match s with
  | [] => match tok with [] => [] | _ => [tok] end
  | c :: s' =>
     if ceq c d then match tok with [] => strtok_all d [] s' | _ => tok :: strtok_all d [] s' end
     else strtok_all d (tok ++ [c]) s'
  end.

Definition strtok (d : ascii) (s : bytes) : list bytes := strtok_all d [] s.

Definition set_working_directory (new_path : bytes) : option Path :=
  mapM (store MAX_NAME) (strtok SLASH new_path).

(** [abs_path[strlen(abs_path) - 1]]. *)
Definition last_char (s : bytes) : option ascii := last s.

Definition get_absolute_path (old_path new_path : bytes) : option bytes :=
  match new_path with
  | c :: _ =>
     if ceq c SLASH then store MAX_PATH new_path
     else
       abs ← store MAX_PATH old_path;
       l ← last_char abs;
       abs ← (if ceq l SLASH then Some abs else store MAX_PATH (abs ++ [SLASH]));
       abs ← store MAX_PATH (abs ++ new_path);
       l ← last_char abs;
       Some (if ceq l SLASH then take (length abs - 1) abs else abs)
  | [] =>
     abs ← store MAX_PATH old_path;
     l ← last_char abs;
     abs ← (if ceq l SLASH then Some abs else store MAX_PATH (abs ++ [SLASH]));
     l ← last_char abs;
     Some (if ceq l SLASH then take (length abs - 1) abs else abs)
  end.

(** [str_toupper]: the bytes written before the final NUL; the loop copies at
    least one character, the NUL of an empty string included. *)
Fixpoint str_toupper_loop (src : bytes) (len : nat) : bytes :=
  match src with
  | [] => [NUL]
  | c :: src' =>
     toupper c :: match len with S (S l) => str_toupper_loop src' (S l) | _ => [] end
  end.

Definition str_toupper (cap : nat) (src : bytes) (len : nat) : option bytes :=
  let w := str_toupper_loop src len in
  if length w <? cap then Some (cstr_of w) else None.

(** [parse_command_string]: the name, of 32 bytes, and the parameter, of
    [cap] bytes. *)
Definition parse_command_string (cap : nat) (to_parse : bytes) : option (bytes * bytes) :=
  let token := strchr to_parse SPACE in
  let namelen := match token with
                 | Some t => length to_parse - length t
                 | None => length to_parse
                 end in
  let namelen := if 32 <? namelen then 32 else namelen in
  name ← str_toupper 32 to_parse namelen;
  param ← store cap (match token with Some t => tail t | None => [] end);
  Some (name, param).

(** The [%hu] conversion of [sscanf]. *)
Definition sscanf_hu (s : bytes) : option (Z * bytes) :=
  match strtoull 10 s with (v, Some r) => Some (u16 v, r) | (_, None) => None end.

(** The values the format "%hu,%hu,..." converts, [n] conversions at most;
    their number is what sscanf returns, but for its EOF on an empty input. *)
Fixpoint scan_tuple (n : nat) (s : bytes) : list Z :=
  match n with
  | O => []
  | S n' =>
     match sscanf_hu s with
     | None => []
     | Some (v, r) => v :: match sscanf_lit "," r with Some r' => scan_tuple n' r' | None => [] end
     end
  end.

Definition parse_port_tuple (to_parse : bytes) : list Z := scan_tuple 6 to_parse.

Definition S_IFLNK : Z := 40960.

Definition mode_char (mode bit : Z) (c : ascii) : ascii :=
  if (Z.land mode bit =? 0)%Z then "-"%char else c.

Definition get_file_mode (mode : Z) : bytes :=
  (if (ifmt mode =? S_IFLNK)%Z then "l"%char
   else if (ifmt mode =? S_IFREG)%Z then "-"%char
   else if (ifmt mode =? S_IFDIR)%Z then "d"%char else "?"%char)
  :: [mode_char mode 256 "r"; mode_char mode 128 "w"; mode_char mode 64 "x";
      mode_char mode 32 "r"; mode_char mode 16 "w"; mode_char mode 8 "x";
      mode_char mode 4 "r"; mode_char mode 2 "w"; mode_char mode 1 "x"].

Definition str_startswith (str sub : bytes) : bool := strneq str sub (length sub).

(** [get_ntfspath]: "/dev_<mount>/rest" becomes "<mount>:/rest"; the mount
    name is copied into 16 bytes, [path + 5] must be within the path. *)
Definition get_ntfspath (path : bytes) : option bytes :=
  if length path <? 5 then None
  else match strchr (tail path) SLASH with
  | Some mount_path =>
     let n := length path - length mount_path in
     if n <? 5 then None
     else mount_name ← store 16 (take (n - 5) (drop 5 path));
          Some (mount_name ++ B ":" ++ mount_path)
  | None => mount_name ← store 16 (drop 5 path); Some (mount_name ++ B ":/")
  end.

(** ** Paths *)

(** A directory name [set_working_directory] can store. *)
Definition level_ok (d : bytes) : Prop :=
  d ≠ [] ∧ SLASH ∉ d ∧ length d < MAX_NAME.

Definition path_ok (p : Path) : Prop := Forall level_ok p.

(** The text of a path: its names separated by slashes. *)
Fixpoint join_levels (p : Path) : bytes :=
  match p with
  | [] => []
  | [d] => d
  | d :: p' => d ++ SLASH :: join_levels p'
  end.

Definition path_text (p : Path) : bytes := SLASH :: join_levels p.

Lemma join_cons d d' p : join_levels (d :: d' :: p) = d ++ SLASH :: join_levels (d' :: p).
Proof. done. Qed.

Lemma store_some n s t : store n s = Some t ↔ t = s ∧ length s < n.
Proof.
  unfold store. destruct (Nat.ltb_spec (length s) n); split; [intros [= <-]; auto|intros [-> _]; done|done|].
  intros [_ ?]. lia.
Qed.

Lemma store_fits n s : length s < n → store n s = Some s.
Proof. intros. by apply store_some. Qed.

Lemma gwd_loop_fits p : ∀ s len,
  len = length s → length s + length (join_levels p) < MAX_PATH →
  gwd_loop s len p = Some (s ++ join_levels p).
Proof.
  induction p as [|d p IH]; intros s len -> Hf; cbn [gwd_loop]; [by rewrite app_nil_r|].
  destruct p as [|d' p].
  - cbn [join_levels] in *. destruct (Nat.ltb_spec MAX_PATH (length s + length d)); [lia|].
    by rewrite store_fits by (rewrite length_app; lia).
  - rewrite join_cons in *. rewrite length_app in Hf. cbn [length] in Hf.
    destruct (Nat.ltb_spec MAX_PATH (length s + length d)); [lia|].
    rewrite store_fits by (rewrite length_app; lia). cbn [mbind option_bind].
    rewrite store_fits by (rewrite !length_app; cbn; lia). cbn [mbind option_bind].
    rewrite IH; [by rewrite <-!app_assoc|rewrite !length_app; cbn; lia|].
    rewrite !length_app. cbn [length]. lia.
Qed.

Lemma gwd_fits p : length (path_text p) < MAX_PATH → get_working_directory p = Some (path_text p).
Proof.
  intros Hf. unfold path_text in Hf. cbn [length] in Hf. unfold get_working_directory.
  rewrite store_fits by (cbn; lia). cbn [mbind option_bind].
  by rewrite (gwd_loop_fits p [SLASH] 1) by (cbn [length]; lia).
Qed.

Lemma strtok_word d w : ∀ tok s,
  d ∉ w → strtok_all d tok (w ++ s) = strtok_all d (tok ++ w) s.
Proof.
  induction w as [|c w IH]; intros tok s Hw; cbn; [by rewrite app_nil_r|].
  apply not_elem_of_cons in Hw as [Hc Hw].
  rewrite (proj2 (ceq_false c d)) by done. rewrite IH by done. by rewrite <-app_assoc.
Qed.

Lemma strtok_join p : path_ok p → strtok SLASH (join_levels p) = p.
Proof.
  unfold strtok. induction 1 as [|d p (Hd & Hs & _) _ IH]; [done|].
  destruct p as [|d' p].
  - cbn [join_levels]. rewrite <-(app_nil_r d) at 1. rewrite strtok_word by done. cbn. by destruct d.
  - rewrite join_cons, strtok_word by done. cbn [app strtok_all]. rewrite ceq_refl.
    destruct d; [done|]. by rewrite IH.
Qed.

Lemma set_wd_text p : path_ok p → set_working_directory (path_text p) = Some p.
Proof.
  intros Hp. unfold set_working_directory, path_text. unfold strtok. cbn [strtok_all].
  rewrite ceq_refl. fold (strtok SLASH (join_levels p)). rewrite strtok_join by done.
  induction Hp as [|d p (_ & _ & Hd) _ IH]; [done|].
  cbn. rewrite store_fits by done. cbn. rewrite IH. done.
Qed.

(** What [strtok] returns can be stored again. *)
Lemma strtok_tokens d s : ∀ tok, d ∉ tok → Forall (λ t, t ≠ [] ∧ d ∉ t) (strtok_all d tok s).
Proof.
  induction s as [|c s IH]; intros tok Ht; cbn.
  { destruct tok; repeat constructor; done. }
  destruct (ceq_spec c d) as [->|Hc].
  - destruct tok; [apply IH, not_elem_of_nil|]. constructor; [done|]. apply IH, not_elem_of_nil.
  - apply IH. rewrite elem_of_app, list_elem_of_singleton. naive_solver.
Qed.

Lemma set_wd_ok s p : set_working_directory s = Some p → path_ok p.
Proof.
  unfold set_working_directory. rewrite mapM_Some. intros Hp.
  pose proof (strtok_tokens SLASH s [] ltac:(apply not_elem_of_nil)) as Ht.
  fold (strtok SLASH s) in Ht. induction Hp as [|a b l l' Hab Hl IH]; [constructor|].
  apply Forall_cons_1 in Ht as [[H1 H2] Ht]. apply store_some in Hab as [-> Hlen].
  constructor; [done|by apply IH].
Qed.

Lemma gap_length old new p : get_absolute_path old new = Some p → length p < MAX_PATH.
Proof.
  unfold get_absolute_path.
  assert (∀ s q (l : ascii), store MAX_PATH s = Some q →
    length (if ceq l SLASH then take (length q - 1) q else q) < MAX_PATH) as HT.
  { intros s q l [-> Hq]%store_some. case_match; rewrite ?length_take; lia. }
  destruct new as [|c new].
  - intros (a & Ha & (l & Hl & (b & Hb & (l' & Hl' & [= <-])%bind_Some)%bind_Some)%bind_Some)%bind_Some.
    destruct (ceq l SLASH); [injection Hb as <-; by eapply HT|by eapply HT].
  - destruct (ceq c SLASH); [by intros [-> ?]%store_some|].
    intros (a & Ha & (l & Hl & (b & Hb & (b' & Hb' & (l' & Hl' & [= <-])%bind_Some)%bind_Some)%bind_Some)%bind_Some)%bind_Some.
    by eapply HT.
Qed.

(** A path that fits is built. *)
Lemma gap_fits old new :
  old ≠ [] → length old + 1 + length new < MAX_PATH → is_Some (get_absolute_path old new).
Proof.
  intros Ho Hf. unfold get_absolute_path. unfold last_char.
  assert (∀ s : bytes, s ≠ [] → is_Some (last s)) as HL by (intros s; apply last_is_Some).
  destruct (HL old Ho) as [l Hl].
  destruct new as [|c new].
  - rewrite store_fits by (cbn in *; lia). cbn [mbind option_bind]. rewrite Hl. cbn [mbind option_bind].
    destruct (ceq l SLASH); cbn [mbind option_bind]; [rewrite Hl; by eexists|].
    rewrite store_fits by (rewrite length_app; cbn in *; lia). cbn [mbind option_bind].
    destruct (HL (old ++ [SLASH])) as [l' ->]; [by destruct old|by eexists].
  - destruct (ceq c SLASH); [rewrite store_fits by lia; by eexists|].
    rewrite store_fits by lia. cbn [mbind option_bind]. rewrite Hl. cbn [mbind option_bind].
    destruct (ceq l SLASH); cbn [mbind option_bind].
    + rewrite store_fits by (rewrite length_app; lia). cbn [mbind option_bind].
      destruct (HL (old ++ c :: new)) as [l' ->]; [by destruct old|by eexists].
    + rewrite store_fits by (rewrite length_app; cbn [length] in *; lia). cbn [mbind option_bind].
      rewrite store_fits by (rewrite !length_app; cbn [length] in *; lia). cbn [mbind option_bind].
      destruct (HL ((old ++ [SLASH]) ++ c :: new)) as [l' ->]; [by destruct old|by eexists].
Qed.

(** ** Command names *)

Lemma toupper_loop_word w : ∀ s len,
  no_nul w → len = length w → w ≠ [] → str_toupper_loop (w ++ s) len = toupper <$> w.
Proof.
  induction w as [|c w IH]; intros s len Hw -> Hne; [done|].
  apply Forall_cons_1 in Hw as [Hc Hw]. cbn. f_equal.
  destruct w as [|c' w]; [done|]. cbn [length]. by rewrite (IH s (S (length w))).
Qed.

Lemma strchr_word w s : SPACE ∉ w → strchr (w ++ SPACE :: s) SPACE = Some (SPACE :: s).
Proof.
  induction w as [|c w IH]; intros Hw; cbn; [by rewrite ceq_refl|].
  apply not_elem_of_cons in Hw as [Hc Hw].
  rewrite (proj2 (ceq_false c SPACE)) by done. by apply IH.
Qed.

Lemma strchr_none w : SPACE ∉ w → strchr w SPACE = None.
Proof.
  induction w as [|c w IH]; intros Hw; cbn; [done|].
  apply not_elem_of_cons in Hw as [Hc Hw].
  rewrite (proj2 (ceq_false c SPACE)) by done. by apply IH.
Qed.

Lemma toupper_nul c : toupper c = NUL → c = NUL.
Proof.
  unfold toupper, is_lower. destruct (97 <=? cv c)%Z eqn:E; [|done]. destruct (cv c <=? 122)%Z eqn:E2; [|done].
  intros Hc. btests. apply (f_equal cv) in Hc. cbn [andb] in Hc. rewrite cv_chr in Hc by lia.
  change (cv NUL) with 0%Z in Hc. lia.
Qed.

Lemma upper_no_nul w : no_nul w → no_nul (toupper <$> w).
Proof. intros Hw. apply Forall_fmap. eapply Forall_impl; [exact Hw|]. intros c Hc E. by apply Hc, toupper_nul. Qed.

(** A name of at most 31 bytes followed by a parameter is split at the first
    space. *)
Lemma parse_command_split cap name param :
  no_nul name → name ≠ [] → SPACE ∉ name → length name < 32 → length param < cap →
  parse_command_string cap (name ++ SPACE :: param) = Some (toupper <$> name, param).
Proof.
  intros Hn Hne Hs Hl Hp. unfold parse_command_string. rewrite strchr_word by done.
  rewrite length_app, Nat.add_sub. destruct (Nat.ltb_spec 32 (length name)); [lia|].
  unfold str_toupper. rewrite toupper_loop_word by done.
  rewrite length_fmap. destruct (Nat.ltb_spec (length name) 32); [|lia].
  rewrite cstr_of_id by by apply upper_no_nul. cbn [mbind option_bind tail].
  by rewrite store_fits.
Qed.

End Util.

(** The legacy mode string of a directory or a regular file is the mode
    string of the core listing. *)
Theorem file_mode_agrees (mode : Z) (Hkind : is_dir mode = true ∨ is_reg mode = true) :
  get_file_mode mode = Listing.opftp_mode_str mode.
Proof.
  unfold get_file_mode, Listing.opftp_mode_str. f_equal.
  - unfold is_dir, is_reg in *. destruct Hkind as [E|E]; btests; rewrite E; done.
  - unfold Listing.rwx, Listing.mode_bit, mode_char. cbn [B String.list_ascii_of_string imap Z.of_nat].
    repeat f_equal; cbn; by destruct (_ =? 0)%Z.
Qed.

Lemma file_mode_agrees_witness : get_file_mode 16877 = Listing.opftp_mode_str 16877.
Proof. apply file_mode_agrees. by left. Defined.

(** The working directory survives being printed and read back: the text
    [get_working_directory] writes for a path of storable names that fits its
    buffer is split into the same names by [set_working_directory]. *)
Theorem working_directory_roundtrip `{Limits} (p : list bytes)
    (Hok : path_ok p) (Hfits : (length (path_text p) < MAX_PATH)%nat) :
  get_working_directory p ≫= set_working_directory = Some p.
Proof. rewrite gwd_fits by done. cbn. by apply set_wd_text. Qed.

Lemma working_directory_roundtrip_witness :
  @get_working_directory psl1ght_limits [B "dev_hdd0"; B "game"] ≫=
  @set_working_directory psl1ght_limits = Some [B "dev_hdd0"; B "game"].
Proof.
  refine (@working_directory_roundtrip psl1ght_limits [B "dev_hdd0"; B "game"] _ _).
  - repeat (constructor; [split_and!; [done| |apply Nat.ltb_lt; vm_compute; reflexivity]|]);
      [..|constructor]; by apply (bool_decide_unpack _); vm_compute.
  - apply Nat.ltb_lt. vm_compute. reflexivity.
Defined.

End LegacyUtil.
