(* ===== verification/ThreadPool.v ===== *)
(** * legacy/src/thread.c: the worker pool of the legacy server

    A pool has one slot for a job, a mutex and two condition variables.
    [threadpool_dispatch] puts a job into the slot and waits until a worker
    has taken it; [threadpool_stop] clears [running], wakes the workers and
    joins them. One thread dispatches and stops (the thread of server_run),
    [n] threads run [threadpool_thread].

    The program counters below are the places where another thread may come
    in between; what happens while the mutex is held is one step, except that
    [running] is read in steps of its own because [threadpool_stop] writes it
    without the mutex. A wait on a condition variable ends by a broadcast or,
    when [spurious] is on, at any time; the timed wait of the dispatcher ends
    at any time. *)

From S2P Require Import Prelude.

Module ThreadPool.

Section Pool.
Context {J : Type}.
Context (spurious : bool).

(** A worker in [threadpool_thread]. *)
Inductive wpc :=
  | W_lock            (* before sys_thread_mutex_lock *)
  | W_loop            (* holds the mutex, at the test of the wait loop *)
  | W_towait          (* the test was true, about to wait *)
  | W_wait            (* in sys_thread_cond_wait *)
  | W_relock          (* woken, about to get the mutex back *)
  | W_after           (* the test was false *)
  | W_run (j : J)     (* runs a job *)
  | W_exit.

(** The thread that dispatches [js] and then stops the pool. *)
Inductive cpc :=
  | C_idle (js : list J)
  | C_loop (js : list J)      (* in dispatch, holds the mutex *)
  | C_wait (js : list J)      (* in the timed wait *)
  | C_relock (js : list J)
  | C_bcast                   (* in stop: [running] is cleared *)
  | C_join
  | C_done.

Inductive holder := H_control | H_worker (i : nat).

Record pool := mk_pool {
  tp_running : bool;
  tp_job : option J;
  tp_mutex : option holder;
  tp_workers : list wpc;
  tp_control : cpc;
  tp_taken : list J;          (* jobs taken out of the slot, in order *)
  tp_finished : list J        (* jobs whose function returned *)
}.
#[export] Instance pool_settable : Settable pool := λ x,
  mk_pool (tp_running x) (tp_job x) (tp_mutex x) (tp_workers x) (tp_control x) (tp_taken x) (tp_finished x).

(** [threadpool_create] and [threadpool_start]: [n] workers, an empty slot. The
    result of [sys_thread_create2] is ignored; the pool here is one whose
    threads were all created. *)
Definition threadpool_start (n : nat) (js : list J) : pool :=
  mk_pool true None None (replicate n W_lock) (C_idle js) [] [].

(** [sys_thread_cond_broadcast(cond_job)]. *)
Definition wake (p : wpc) : wpc := if p is W_wait then W_relock else p.
Definition broadcast (s : pool) : pool := s <| tp_workers := wake <$> tp_workers s |>.

Definition exited (p : wpc) : bool := if p is W_exit then true else false.

(** A step in [threadpool_dispatch]. [None]: the thread is blocked, or is not
    in it. *)
Definition dispatch_step (s : pool) : option pool :=
  match tp_control s with
  | C_idle (j :: js) =>
     match tp_mutex s with
     | None => Some (s <| tp_mutex := Some H_control |> <| tp_job := Some j |> <| tp_control := C_loop js |>)
     | Some _ => None
     end
  | C_loop js =>
     if tp_running s && bool_decide (is_Some (tp_job s))
     then Some (broadcast s <| tp_mutex := None |> <| tp_control := C_wait js |>)
     else Some (s <| tp_mutex := None |> <| tp_control := C_idle js |>)
  | C_wait js => Some (s <| tp_control := C_relock js |>)
  | C_relock js =>
     match tp_mutex s with
     | None => Some (s <| tp_mutex := Some H_control |> <| tp_control := C_loop js |>)
     | Some _ => None
     end
  | _ => None
  end.

(** A step in [threadpool_stop]. *)
Definition stop_step (s : pool) : option pool :=
  match tp_control s with
  | C_idle [] => Some (s <| tp_running := false |> <| tp_control := C_bcast |>)
  | C_bcast => Some (broadcast s <| tp_control := C_join |>)
  | C_join => if forallb exited (tp_workers s) then Some (s <| tp_control := C_done |>) else None
  | _ => None
  end.

(** The controlling thread dispatches every job, then stops the pool. *)
Definition control_step (s : pool) : option pool :=
  match tp_control s with
  | C_idle [] | C_bcast | C_join | C_done => stop_step s
  | _ => dispatch_step s
  end.

Definition set_worker (i : nat) (p : wpc) (s : pool) : pool := s <| tp_workers := <[i := p]> (tp_workers s) |>.

(** Getting the mutex. *)
Definition worker_lock (i : nat) (s : pool) : option pool :=
  match tp_mutex s with
  | None => Some (set_worker i W_loop s <| tp_mutex := Some (H_worker i) |>)
  | Some _ => None
  end.

(** A step of worker [i] in [threadpool_thread]. *)
Definition worker_step (i : nat) (s : pool) : option pool :=
  match tp_workers s !! i with
  | Some W_lock | Some W_relock => worker_lock i s
  | Some W_loop =>
     Some (set_worker i (if tp_running s && bool_decide (tp_job s = None) then W_towait else W_after) s)
  | Some W_towait => Some (set_worker i W_wait s <| tp_mutex := None |>)
  | Some W_wait => if spurious then Some (set_worker i W_relock s) else None
  | Some W_after =>
     if negb (tp_running s) then Some (set_worker i W_exit s <| tp_mutex := None |>)
     else
       match tp_job s with
       | Some j => Some (set_worker i (W_run j) s <| tp_job := None |> <| tp_taken := tp_taken s ++ [j] |>
                           <| tp_mutex := None |>)
       | None => Some (set_worker i W_lock s <| tp_mutex := None |>)
       end
  | Some (W_run j) => Some (set_worker i W_lock s <| tp_finished := tp_finished s ++ [j] |>)
  | Some W_exit | None => None
  end.

(** Which thread moves. *)
Definition pool_step (t : holder) (s : pool) : option pool :=
  match t with H_control => control_step s | H_worker i => worker_step i s end.

(** A schedule; [None] when a thread was to move that cannot. *)
Fixpoint pool_run (ts : list holder) (s : pool) : option pool :=
  match ts with
  | [] => Some s
  | t :: ts' => s' ← pool_step t s; pool_run ts' s'
  end.

(** ** Every job once *)

Definition running_job (p : wpc) : option J := if p is W_run j then Some j else None.
Definition running_jobs (s : pool) : list J := omap running_job (tp_workers s).

(** The jobs not yet put into the slot. *)
Definition pending (c : cpc) : list J :=
  match c with C_idle js | C_loop js | C_wait js | C_relock js => js | _ => [] end.
Definition stopping (c : cpc) : bool := match c with C_bcast | C_join | C_done => true | _ => false end.

(** Where the slot must be empty. *)
Definition slot_empty (c : cpc) : bool := match c with C_idle _ | C_bcast | C_join | C_done => true | _ => false end.

Definition holds (p : wpc) : bool := match p with W_loop | W_towait | W_after => true | _ => false end.

Record pool_ok (js : list J) (s : pool) : Prop := {
  po_running : tp_running s = negb (stopping (tp_control s));
  po_account : js = tp_taken s ++ option_list (tp_job s) ++ pending (tp_control s);
  po_finished : tp_finished s ++ running_jobs s ≡ₚ tp_taken s;
  po_slot : slot_empty (tp_control s) = true → tp_job s = None;
  po_control : (∃ js, tp_control s = C_loop js) ↔ tp_mutex s = Some H_control;
  po_worker i : (∃ p, tp_workers s !! i = Some p ∧ holds p = true) ↔ tp_mutex s = Some (H_worker i);
  po_exit : Exists (λ p, p = W_exit) (tp_workers s) → stopping (tp_control s) = true;
  po_done : tp_control s = C_done → Forall (λ p, p = W_exit) (tp_workers s)
}.

End Pool.
Arguments wpc : clear implicits.
Arguments cpc : clear implicits.
Arguments pool : clear implicits.

Section PoolFacts.
Context {J : Type}.
Implicit Types (s : pool J) (js : list J).

(** Replacing a worker, for what is read off the list of workers. *)
Lemma workers_split s i p : tp_workers s !! i = Some p →
  ∃ l r, tp_workers s = l ++ p :: r ∧ length l = i ∧ ∀ q, <[i := q]> (tp_workers s) = l ++ q :: r.
Proof.
  intros Hi. exists (take i (tp_workers s)), (drop (S i) (tp_workers s)). pose proof (lookup_lt_Some _ _ _ Hi) as Hlt.
  split_and!; [by rewrite take_drop_middle|rewrite length_take; lia|]. intros q. by apply insert_take_drop.
Qed.

(** A worker that moves from [p] to [q]. *)
Lemma running_insert s i p q : tp_workers s !! i = Some p →
  option_list (running_job p) ++ omap running_job (<[i := q]> (tp_workers s)) ≡ₚ
  option_list (running_job q) ++ running_jobs s.
Proof.
  intros Hi. destruct (workers_split s i p Hi) as (l & r & E & _ & Eq). unfold running_jobs. rewrite Eq, E.
  rewrite !omap_app. cbn [omap list_omap]. destruct (running_job p), (running_job q); cbn; solve_Permutation.
Qed.

Lemma running_wake (ws : list (wpc J)) : omap running_job (wake <$> ws) = omap running_job ws.
Proof. induction ws as [|p ws IH]; [done|]. cbn. rewrite IH. by destruct p. Qed.

Lemma holds_wake (ws : list (wpc J)) i :
  (∃ p, (wake <$> ws) !! i = Some p ∧ holds p = true) ↔ (∃ p, ws !! i = Some p ∧ holds p = true).
Proof.
  rewrite list_lookup_fmap. split.
  - intros (p & Hp & Hh). destruct (ws !! i) as [q|]; [|done]. injection Hp as <-. exists q. by destruct q.
  - intros (q & Hq & Hh). rewrite Hq. exists (wake q). by destruct q.
Qed.

Lemma exit_wake (ws : list (wpc J)) : Exists (λ p, p = W_exit) (wake <$> ws) → Exists (λ p, p = W_exit) ws.
Proof. rewrite Exists_fmap. intros H. eapply Exists_impl; [exact H|]. by intros [] ?. Qed.

(** Which worker holds the mutex after worker [i] moved. *)
Lemma holds_insert s i p q : tp_workers s !! i = Some p → ∀ k,
  (∃ x, <[i := q]> (tp_workers s) !! k = Some x ∧ holds x = true) ↔
  if decide (k = i) then holds q = true else ∃ x, tp_workers s !! k = Some x ∧ holds x = true.
Proof.
  intros Hi k. pose proof (lookup_lt_Some _ _ _ Hi). case_decide as E.
  - subst k. rewrite list_lookup_insert_eq by done. split; [by intros (x & [= <-] & Hx)|by exists q].
  - by rewrite list_lookup_insert_ne.
Qed.

Lemma exit_insert s i q : q ≠ W_exit → Exists (λ p, p = W_exit) (<[i := q]> (tp_workers s)) → Exists (λ p, p = W_exit) (tp_workers s).
Proof.
  intros Hq [p [Hp ->]]%Exists_exists. apply list_elem_of_lookup in Hp as [k Hk]. apply Exists_exists.
  destruct (decide (k = i)) as [->|Hne].
  - apply list_lookup_insert_Some in Hk as [(_ & ? & _)|(? & _)]; congruence.
  - rewrite list_lookup_insert_ne in Hk by done. exists W_exit. split; [by eapply list_elem_of_lookup_2|done].
Qed.

Lemma start_ok n js : pool_ok js (threadpool_start n js).
Proof.
  split; cbn; try done.
  - unfold running_jobs. cbn. by induction n.
  - split; [by intros [? ?]|done].
  - intros i. split; [|done]. intros (p & [-> _]%lookup_replicate & Hp). done.
  - intros [p [[-> _]%elem_of_replicate Hp]]%Exists_exists. done.
Qed.

Lemma control_ok js s s' : pool_ok js s → control_step s = Some s' → pool_ok js s'.
Proof.
  intros [Hr Ha Hf Hs Hc Hw He Hd]. unfold control_step, dispatch_step, stop_step. destruct (tp_control s) as [js0|js0|js0|js0| | |] eqn:Ec.
  - destruct js0 as [|j js0].
    + intros [= <-]. specialize (Hs eq_refl). split; cbn; try done. rewrite <-Hc. by split; intros [? ?].
    + destruct (tp_mutex s) eqn:Em; [done|]. intros [= <-]. specialize (Hs eq_refl). rewrite Hs in Ha. cbn in Ha. split; cbn; try done.
      * split; [done|]. by eexists.
      * intros i. rewrite Hw. by split.
  - assert (tp_mutex s = Some H_control) as Em by (apply Hc; by eexists). cbn in Hr. rewrite Hr. cbn [andb].
    assert (∀ i, ¬ ∃ p, tp_workers s !! i = Some p ∧ holds p = true) as Hnw by (intros i Hi%Hw; congruence).
    destruct (tp_job s) as [j|] eqn:Ej; cbn [bool_decide]; intros [= <-]; split; cbn; rewrite ?Ej; try done.
    + unfold running_jobs. cbn. by rewrite running_wake.
    + split; [by intros [? ?]|done].
    + intros i. rewrite holds_wake. split; [by intros ?%Hnw|done].
    + intros ?%exit_wake. by apply He.
    + split; [by intros [? ?]|done].
    + intros i. split; [by intros ?%Hnw|done].
  - intros [= <-]. split; cbn; try done. rewrite <-Hc. by split; intros [? ?].
  - destruct (tp_mutex s) eqn:Em; [done|]. intros [= <-]. split; cbn; try done.
    + split; [done|]. by eexists.
    + intros i. rewrite Hw. by split.
  - intros [= <-]. specialize (Hs eq_refl). split; cbn; try done.
    + unfold running_jobs. cbn. by rewrite running_wake.
    + rewrite <-Hc. by split; intros [? ?].
    + intros i. rewrite holds_wake. apply Hw.
  - destruct (forallb exited (tp_workers s)) eqn:Ef; [|done]. intros [= <-]. split; cbn; try done.
    + rewrite <-Hc. by split; intros [? ?].
    + intros _. apply Forall_forall. intros p Hp. eapply forallb_forall in Ef; [|by apply list_elem_of_In]. by destruct p.
  - done.
Qed.

(** A worker moves from [p] to [q] and hands on the mutex as [m]. *)
Lemma worker_moves js s i p q m :
  pool_ok js s → tp_workers s !! i = Some p → p ≠ W_exit → q ≠ W_exit → running_job p = None → running_job q = None →
  ((m = tp_mutex s ∧ holds q = holds p) ∨ (tp_mutex s = None ∧ m = Some (H_worker i) ∧ holds q = true) ∨
   (holds p = true ∧ m = None ∧ holds q = false)) →
  pool_ok js (set_worker i q s <| tp_mutex := m |>).
Proof.
  intros [Hr Ha Hf Hs Hc Hw He Hd] Hi Hp Hq Rp Rq Hm.
  assert (holds p = true → tp_mutex s = Some (H_worker i)) as Hh by (intros ?; apply Hw; by exists p).
  split; cbn; try done.
  - unfold running_jobs in *. cbn. pose proof (running_insert s i p q Hi) as Hx. rewrite Rp, Rq in Hx. cbn in Hx. by rewrite Hx.
  - destruct Hm as [[-> _]|[(E & -> & _)|(E & -> & _)]]; [done|..]; rewrite Hc; [rewrite E|rewrite (Hh E)]; by split.
  - intros k. rewrite (holds_insert s i p q Hi k). destruct Hm as [[-> E]|[(E & -> & Eq)|(E & -> & Eq)]].
    + case_decide; [subst k|apply Hw]. rewrite E, <-Hw. split; [by exists p|]. intros (x & Hx & ?). congruence.
    + case_decide as Ek; [by subst k|]. rewrite Hw, E. split; [done|]. congruence.
    + rewrite Eq. case_decide; [done|]. rewrite Hw, (Hh E). split; [congruence|done].
  - intros ?%exit_insert; [|done]. by apply He.
  - intros E. specialize (Hd E). rewrite Forall_forall in Hd. destruct Hp. apply Hd. by eapply list_elem_of_lookup_2.
Qed.

(** A worker that holds the mutex lets it go. *)
Lemma released js s i p : pool_ok js s → tp_workers s !! i = Some p → holds p = true →
  tp_mutex s = Some (H_worker i) ∧ (∀ l, tp_control s ≠ C_loop l) ∧
  ∀ q k, holds q = false → ¬ ∃ x, <[i := q]> (tp_workers s) !! k = Some x ∧ holds x = true.
Proof.
  intros Hok Hi Hh. assert (tp_mutex s = Some (H_worker i)) as Em by (apply (po_worker _ _ Hok); by exists p).
  split_and!; [done| |].
  - intros l Hl. assert (tp_mutex s = Some H_control) by (apply (po_control _ _ Hok); by exists l). congruence.
  - intros q k Hq. rewrite (holds_insert s i p q Hi k). case_decide as Ek; [by rewrite Hq|].
    rewrite (po_worker _ _ Hok), Em. congruence.
Qed.

Lemma pool_take_ok js s i j : pool_ok js s → tp_workers s !! i = Some W_after → tp_job s = Some j →
  pool_ok js (set_worker i (W_run j) s <| tp_job := None |> <| tp_taken := tp_taken s ++ [j] |> <| tp_mutex := None |>).
Proof.
  intros Hok Hi Hj. destruct (released js s i W_after Hok Hi eq_refl) as (Em & Hnc & Hnh).
  destruct Hok as [Hr Ha Hf Hs Hc Hw He Hd]. split; cbn; try done.
  - rewrite Ha, Hj at 1. cbn. by rewrite <-app_assoc.
  - unfold running_jobs in *. cbn. pose proof (running_insert s i W_after (W_run j) Hi) as Hx. cbn [running_job option_list app] in Hx.
    rewrite Hx, <-Hf. unfold running_jobs. solve_Permutation.
  - split; [by intros [l Hl%Hnc]|done].
  - intros k. split; [by intros ?%Hnh|done].
  - intros ?%exit_insert; [|done]. by apply He.
  - intros E. specialize (Hd E). rewrite Forall_forall in Hd. by specialize (Hd W_after (list_elem_of_lookup_2 _ _ _ Hi)).
Qed.

Lemma exit_ok js s i : pool_ok js s → tp_workers s !! i = Some W_after → tp_running s = false →
  pool_ok js (set_worker i W_exit s <| tp_mutex := None |>).
Proof.
  intros Hok Hi Hrun. destruct (released js s i W_after Hok Hi eq_refl) as (Em & Hnc & Hnh).
  destruct Hok as [Hr Ha Hf Hs Hc Hw He Hd]. split; cbn; try done.
  - unfold running_jobs in *. cbn. pose proof (running_insert s i W_after W_exit Hi) as Hx. cbn in Hx. by rewrite Hx.
  - split; [by intros [l Hl%Hnc]|done].
  - intros k. split; [by intros ?%Hnh|done].
  - intros _. rewrite Hrun in Hr. by destruct (stopping (tp_control s)).
  - intros E. apply Forall_insert; [by apply Hd|done].
Qed.

Lemma finish_ok js s i j : pool_ok js s → tp_workers s !! i = Some (W_run j) →
  pool_ok js (set_worker i W_lock s <| tp_finished := tp_finished s ++ [j] |>).
Proof.
  intros [Hr Ha Hf Hs Hc Hw He Hd] Hi. split; cbn; try done.
  - unfold running_jobs in *. cbn. pose proof (running_insert s i (W_run j) W_lock Hi) as Hx. cbn [running_job option_list app] in Hx.
    rewrite <-Hf. rewrite <-app_assoc. cbn [app]. by rewrite Hx.
  - intros k. rewrite (holds_insert s i (W_run j) W_lock Hi k). case_decide; [subst k|apply Hw].
    rewrite <-Hw. split; [done|]. intros (x & Hx & Hh). rewrite Hi in Hx. by injection Hx as <-.
  - intros ?%exit_insert; [|done]. by apply He.
  - intros E. specialize (Hd E). rewrite Forall_forall in Hd. by specialize (Hd (W_run j) (list_elem_of_lookup_2 _ _ _ Hi)).
Qed.

Lemma pool_worker_ok sp js s i s' : pool_ok js s → worker_step sp i s = Some s' → pool_ok js s'.
Proof.
  intros Hok. unfold worker_step, worker_lock. destruct (tp_workers s !! i) as [p|] eqn:Hi; [|done].
  destruct p as [| | | | | |j|].
  - destruct (tp_mutex s) eqn:Em; [done|]. intros [= <-]. apply (worker_moves js s i W_lock); try done. right; left. done.
  - intros [= <-].
    assert (∀ q, q ≠ W_exit → running_job q = None → holds q = true → pool_ok js (set_worker i q s)) as Hq.
    { intros q H1 H2 H3. apply (worker_moves js s i W_loop q (tp_mutex s)) in Hok; [by destruct s|done..|]. by left. }
    destruct (_ && _); by apply Hq.
  - intros [= <-]. apply (worker_moves js s i W_towait); try done. right; right. done.
  - destruct sp; [|done]. intros [= <-].
    apply (worker_moves js s i W_wait W_relock (tp_mutex s)) in Hok; [by destruct s|done..|]. by left.
  - destruct (tp_mutex s) eqn:Em; [done|]. intros [= <-]. apply (worker_moves js s i W_relock); try done. right; left. done.
  - destruct (tp_running s) eqn:Er; cbn [negb].
    + destruct (tp_job s) as [j|] eqn:Ej; intros [= <-]; [by apply pool_take_ok|].
      apply (worker_moves js s i W_after); try done. right; right. done.
    + intros [= <-]. by apply exit_ok.
  - intros [= <-]. by apply finish_ok.
  - done.
Qed.

Lemma pool_step_ok sp js t s s' : pool_ok js s → pool_step sp t s = Some s' → pool_ok js s'.
Proof. destruct t; [apply control_ok|apply pool_worker_ok]. Qed.

Lemma pool_run_ok sp js ts : ∀ s s', pool_ok js s → pool_run sp ts s = Some s' → pool_ok js s'.
Proof.
  induction ts as [|t ts IH]; intros s s' Hok; cbn; [by intros [= <-]|].
  destruct (pool_step sp t s) as [s1|] eqn:E; [|done]. apply IH. by eapply pool_step_ok.
Qed.

Lemma pool_run_app sp ts ts' s s1 s2 : pool_run sp ts s = Some s1 → pool_run sp ts' s1 = Some s2 → pool_run sp (ts ++ ts') s = Some s2.
Proof.
  revert s. induction ts as [|t ts IH]; intros s; cbn; [by intros [= ->]|].
  destruct (pool_step sp t s) as [s0|]; [|done]. apply IH.
Qed.

Lemma pool_run_length sp ts : ∀ s s', pool_run sp ts s = Some s' → length (tp_workers s') = length (tp_workers s).
Proof.
  induction ts as [|t ts IH]; intros s s'; cbn; [by intros [= <-]|].
  destruct (pool_step sp t s) as [s1|] eqn:E; [|done]. intros R. rewrite (IH _ _ R). clear R IH.
  destruct t as [|i]; cbn in E.
  - unfold control_step, dispatch_step, stop_step in E. repeat case_match; simplify_eq; cbn; by rewrite ?length_fmap.
  - unfold worker_step, worker_lock in E. repeat case_match; simplify_eq; cbn; by rewrite ?length_insert.
Qed.

(** ** A dispatch can always go on *)

(** The mutex can be set free while the dispatcher waits. *)
Definition waits_at (js0 : list J) (s : pool J) : Prop := tp_control s = C_wait js0 ∨ tp_control s = C_relock js0.

Lemma free_mutex sp js s js0 : pool_ok js s → waits_at js0 s →
  ∃ ts s', pool_run sp ts s = Some s' ∧ waits_at js0 s' ∧ tp_mutex s' = None.
Proof.
  intros Hok Hc. destruct (tp_mutex s) as [[|i]|] eqn:Em; [..|by exists [], s].
  - destruct (proj2 (po_control _ _ Hok) Em) as [l El]. destruct Hc as [Hc|Hc]; congruence.
  - destruct (proj2 (po_worker _ _ Hok i) Em) as (p & Hi & Hp). pose proof (lookup_lt_Some _ _ _ Hi) as Hlt.
    assert (∀ s0 q, tp_workers s0 !! i = Some q → waits_at js0 s0 → q = W_towait ∨ q = W_after →
              ∃ s', pool_step sp (H_worker i) s0 = Some s' ∧ waits_at js0 s' ∧ tp_mutex s' = None) as Hgo.
    { intros s0 q Hq H0 [-> | ->]; unfold pool_step, worker_step; rewrite Hq; [by eexists|].
      destruct (negb (tp_running s0)); [by eexists|]. destruct (tp_job s0); by eexists. }
    destruct p; try done.
    + set (q := (if tp_running s && bool_decide (tp_job s = None) then W_towait else W_after) : wpc J).
      destruct (Hgo (set_worker i q s) q) as (s' & H1 & H2 & H3).
      { cbn. by rewrite list_lookup_insert_eq. }
      { done. }
      { unfold q. destruct (_ && _); [by left|by right]. }
      exists [H_worker i; H_worker i], s'. split_and!; [|done|done]. 
      assert (pool_step sp (H_worker i) s = Some (set_worker i q s)) as E by (cbn; unfold worker_step; by rewrite Hi).
      cbn [pool_run]. rewrite E. cbn [mbind option_bind]. by rewrite H1.
    + destruct (Hgo s W_towait Hi Hc ltac:(by left)) as (s' & H1 & H2 & H3). exists [H_worker i], s'. split_and!; [|done|done]. cbn [pool_run]. by rewrite H1.
    + destruct (Hgo s W_after Hi Hc ltac:(by right)) as (s' & H1 & H2 & H3). exists [H_worker i], s'. split_and!; [|done|done]. cbn [pool_run]. by rewrite H1.
Qed.

(** The dispatcher looks at the slot: it returns, or has woken everybody. *)
Lemma look_again sp s js0 : waits_at js0 s → tp_mutex s = None → tp_running s = true →
  ∃ ts s', pool_run sp ts s = Some s' ∧ tp_mutex s' = None ∧ tp_running s' = true ∧
    (tp_control s' = C_idle js0 ∨
     ∃ j, tp_job s' = Some j ∧ tp_job s = Some j ∧ tp_control s' = C_wait js0 ∧ tp_workers s' = wake <$> tp_workers s).
Proof.
  intros Hc Em Hr.
  assert (∀ s0, tp_control s0 = C_relock js0 → tp_mutex s0 = None → tp_running s0 = true →
    ∃ s', pool_run sp [H_control; H_control] s0 = Some s' ∧ tp_mutex s' = None ∧ tp_running s' = true ∧
    (tp_control s' = C_idle js0 ∨
     ∃ j, tp_job s' = Some j ∧ tp_job s0 = Some j ∧ tp_control s' = C_wait js0 ∧ tp_workers s' = wake <$> tp_workers s0)) as Hgo.
  { intros s0 H1 H2 H3. set (sA := s0 <| tp_mutex := Some H_control |> <| tp_control := C_loop js0 |>).
    assert (pool_step sp H_control s0 = Some sA) as E1 by (cbn; unfold control_step, dispatch_step; by rewrite H1, H2).
    cbn [pool_run]. rewrite E1. cbn [mbind option_bind]. cbn [pool_step]. unfold control_step, dispatch_step.
    change (tp_control sA) with (C_loop js0). change (tp_running sA) with (tp_running s0). change (tp_job sA) with (tp_job s0).
    rewrite H3. destruct (tp_job s0) as [j|] eqn:Ej; cbn; eexists; (split; [reflexivity|]); cbn;
      (split_and!; [done|done|]); [right|by left]. by exists j. }
  destruct Hc as [Hc|Hc].
  - destruct (Hgo (s <| tp_control := C_relock js0 |>)) as (s' & H1 & H2); [done..|].
    exists [H_control; H_control; H_control], s'. split; [|done].
    assert (pool_step sp H_control s = Some (s <| tp_control := C_relock js0 |>)) as E by (cbn; unfold control_step, dispatch_step; by rewrite Hc).
    change (pool_run sp ([H_control] ++ [H_control; H_control]) s = Some s').
    eapply pool_run_app; [cbn [pool_run]; by rewrite E|exact H1].
  - destruct (Hgo s) as (s' & H1 & H2); [done..|]. by exists [H_control; H_control], s'.
Qed.

(** A woken worker takes the job. *)
Lemma take_job sp s js0 j p :
  tp_mutex s = None → tp_running s = true → tp_job s = Some j → tp_workers s !! 0%nat = Some p →
  p = W_lock ∨ p = W_relock ∨ (∃ k, p = W_run k) → waits_at js0 s →
  ∃ ts s', pool_run sp ts s = Some s' ∧ tp_mutex s' = None ∧ tp_running s' = true ∧ tp_job s' = None ∧ waits_at js0 s'.
Proof.
  intros Em Hr Hj Hp Hcase Hc. pose proof (lookup_lt_Some _ _ _ Hp) as Hlt.
  assert (∀ s0 q, tp_mutex s0 = None → tp_running s0 = true → tp_job s0 = Some j → tp_workers s0 !! 0%nat = Some q →
    q = W_lock ∨ q = W_relock → waits_at js0 s0 →
    ∃ s', pool_run sp [H_worker 0; H_worker 0; H_worker 0] s0 = Some s' ∧ tp_mutex s' = None ∧ tp_running s' = true ∧
      tp_job s' = None ∧ waits_at js0 s') as Hgo.
  { intros s0 q H1 H2 H3 H4 H5 H6. pose proof (lookup_lt_Some _ _ _ H4) as Hl.
    assert (worker_step sp 0 s0 = worker_lock 0 s0) as E1 by (unfold worker_step; rewrite H4; by destruct H5 as [-> | ->]).
    set (sA := set_worker 0 W_loop s0 <| tp_mutex := Some (H_worker 0) |>). set (sB := set_worker 0 W_after sA).
    assert (worker_step sp 0 s0 = Some sA) as F1 by (rewrite E1; unfold worker_lock; by rewrite H1).
    assert (tp_workers sA !! 0%nat = Some W_loop) as K1 by (cbn; by rewrite list_lookup_insert_eq).
    assert (worker_step sp 0 sA = Some sB) as F2.
    { unfold worker_step. rewrite K1. change (tp_running sA) with (tp_running s0). change (tp_job sA) with (tp_job s0). by rewrite H2, H3. }
    assert (tp_workers sB !! 0%nat = Some W_after) as K2 by (cbn; rewrite list_lookup_insert_eq; [done|by rewrite length_insert]).
    assert (worker_step sp 0 sB = Some (set_worker 0 (W_run j) sB <| tp_job := None |> <| tp_taken := tp_taken sB ++ [j] |>
                           <| tp_mutex := None |>)) as F3.
    { unfold worker_step. rewrite K2. change (tp_running sB) with (tp_running s0). change (tp_job sB) with (tp_job s0). by rewrite H2, H3. }
    eexists. cbn [pool_run pool_step]. rewrite F1. cbn [mbind option_bind]. rewrite F2. cbn [mbind option_bind]. rewrite F3.
    split; [reflexivity|]. done. }
  destruct Hcase as [E|[E|[k ->]]].
  - destruct (Hgo s p) as (s' & H1 & H2); try done; [by left|]. by eexists _, s'.
  - destruct (Hgo s p) as (s' & H1 & H2); try done; [by right|]. by eexists _, s'.
  - destruct (Hgo (set_worker 0 W_lock s <| tp_finished := tp_finished s ++ [k] |>) W_lock) as (s' & H1 & H2); try done.
    { cbn. by rewrite list_lookup_insert_eq. }
    { by left. }
    exists [H_worker 0; H_worker 0; H_worker 0; H_worker 0], s'. split; [|done].
    assert (pool_step sp (H_worker 0) s = Some (set_worker 0 W_lock s <| tp_finished := tp_finished s ++ [k] |>)) as E
      by (cbn; unfold worker_step; by rewrite Hp).
    change (pool_run sp ([H_worker 0] ++ [H_worker 0; H_worker 0; H_worker 0]) s = Some s').
    eapply pool_run_app; [cbn [pool_run]; by rewrite E|exact H1].
Qed.

Lemma wake_ready js s p : pool_ok js s → tp_mutex s = None → tp_running s = true → tp_workers s !! 0%nat = Some p →
  wake p = W_lock ∨ wake p = W_relock ∨ (∃ k, wake p = W_run k).
Proof.
  intros Hok Em Hr Hp. destruct p as [| | | | | |k|]; cbn; try by auto; try by eauto.
  - assert (tp_mutex s = Some (H_worker 0)) by (apply (po_worker _ _ Hok); by exists W_loop). congruence.
  - assert (tp_mutex s = Some (H_worker 0)) by (apply (po_worker _ _ Hok); by exists W_towait). congruence.
  - assert (tp_mutex s = Some (H_worker 0)) by (apply (po_worker _ _ Hok); by exists W_after). congruence.
  - assert (stopping (tp_control s) = true) as Hx.
    { apply (po_exit _ _ Hok), Exists_exists. exists W_exit. split; [by eapply list_elem_of_lookup_2|done]. }
    rewrite (po_running _ _ Hok), Hx in Hr. done.
Qed.

Lemma dispatch_goes_on sp js s js0 : pool_ok js s → (0 < length (tp_workers s))%nat → waits_at js0 s →
  ∃ ts s', pool_run sp ts s = Some s' ∧ tp_control s' = C_idle js0.
Proof.
  intros Hok Hn Hc.
  assert (∀ s0, waits_at js0 s0 → pool_ok js s0 → tp_running s0 = true) as Hrun.
  { intros s0 H0 H1. rewrite (po_running _ _ H1). by destruct H0 as [-> | ->]. }
  destruct (free_mutex sp js s js0 Hok Hc) as (t1 & s1 & R1 & C1 & M1). pose proof (pool_run_ok _ _ _ _ _ Hok R1) as Hok1.
  assert (length (tp_workers s1) = length (tp_workers s)) as L1 by (by eapply pool_run_length).
  destruct (look_again sp s1 js0 C1 M1 (Hrun _ C1 Hok1)) as (t2 & s2 & R2 & M2 & U2 & [C2|(j & J2 & J1 & C2 & W2)]).
  { exists (t1 ++ t2), s2. split; [by eapply pool_run_app|done]. }
  destruct (lookup_lt_is_Some_2 (tp_workers s1) 0) as [p Hp]; [lia|].
  destruct (take_job sp s2 js0 j (wake p) M2 U2 J2) as (t3 & s3 & R3 & M3 & U3 & J3 & C3).
  { rewrite W2, list_lookup_fmap, Hp. done. }
  { eapply (wake_ready js s1); [done|done|by apply Hrun|done]. }
  { by left. }
  destruct (look_again sp s3 js0 C3 M3 U3) as (t4 & s4 & R4 & M4 & U4 & [C4|(j' & J4 & J4' & _)]); [|congruence].
  exists (t1 ++ t2 ++ t3 ++ t4), s4. split; [|done]. by repeat (eapply pool_run_app; [done|]).
Qed.

(** C39. The pool runs every job it was given exactly once: in every state any
    schedule can reach, the jobs dispatched so far are those a worker took, in
    order, and the one in the slot; those taken have finished or are running;
    when [threadpool_stop] has returned, all have finished. While a dispatch
    waits, some schedule lets it return, so it is never stuck. *)
Theorem pool_runs_jobs_once (spurious : bool) (n : nat) (js : list J) (ts : list holder) (s : pool J) :
  pool_run spurious ts (threadpool_start n js) = Some s →
  js = tp_taken s ++ option_list (tp_job s) ++ pending (tp_control s) ∧
  tp_finished s ++ running_jobs s ≡ₚ tp_taken s ∧
  (tp_control s = C_done → tp_finished s ≡ₚ js) ∧
  ((0 < n)%nat → ∀ js0, waits_at js0 s → ∃ ts' s', pool_run spurious ts' s = Some s' ∧ tp_control s' = C_idle js0).
Proof.
  intros HR. pose proof (pool_run_ok _ _ _ _ _ (start_ok n js) HR) as Hok. pose proof Hok as [Hr Ha Hf Hs Hc Hw He Hd].
  split_and!; [done|done| |].
  - intros E. rewrite E in Ha. rewrite (Hs ltac:(by rewrite E)) in Ha. cbn in Ha. rewrite app_nil_r in Ha. rewrite Ha, <-Hf.
    assert (running_jobs s = []) as ->; [|by rewrite app_nil_r].
    unfold running_jobs. specialize (Hd E). clear - Hd. induction Hd as [|p ws -> _ IH]; [done|]. exact IH.
  - intros Hn js0 Hj. apply (dispatch_goes_on spurious js); [done| |done].
    rewrite (pool_run_length _ _ _ _ HR). cbn. by rewrite length_replicate.
Qed.

(** A worker that waits while the pool is being joined stays there. *)
Lemma hung_step i t s s' : pool_step false t s = Some s' → tp_control s = C_join → tp_workers s !! i = Some W_wait →
  tp_control s' = C_join ∧ tp_workers s' !! i = Some W_wait.
Proof.
  intros Hstep Hc Hi. destruct t as [|k]; cbn in Hstep.
  - unfold control_step, stop_step in Hstep. rewrite Hc in Hstep. destruct (forallb exited (tp_workers s)) eqn:Ef; [|done].
    eapply forallb_forall in Ef; [|apply list_elem_of_In; by eapply list_elem_of_lookup_2]. done.
  - destruct (decide (k = i)) as [->|Hne]; [unfold worker_step in Hstep; by rewrite Hi in Hstep|].
    assert (tp_control s' = tp_control s ∧ tp_workers s' !! i = tp_workers s !! i) as [-> ->]; [|done].
    unfold worker_step, worker_lock in Hstep. repeat case_match; simplify_eq; cbn; by rewrite ?list_lookup_insert_ne by done.
Qed.

(** C40. Stopping the pool may hang: [threadpool_stop] clears [running] without
    the mutex, so a worker that has just seen it set misses the wake-up. From
    every state a schedule reaches in which the last dispatch has returned and
    a worker is about to look for its next job, there is a schedule after
    which [threadpool_stop] does not return in any continuation. *)
Theorem stop_may_hang (n : nat) (js : list J) (ts : list holder) (s : pool J) (i : nat) :
  pool_run false ts (threadpool_start n js) = Some s →
  tp_control s = C_idle [] → tp_mutex s = None → tp_workers s !! i = Some W_lock →
  ∃ ts' s', pool_run false ts' s = Some s' ∧
    ∀ ts'' s'', pool_run false ts'' s' = Some s'' → tp_control s'' = C_join.
Proof.
  intros HR Hc Hm Hi. pose proof (pool_run_ok _ _ _ _ _ (start_ok n js) HR) as Hok. pose proof (lookup_lt_Some _ _ _ Hi) as Hlt.
  assert (tp_running s = true) as Hr by (rewrite (po_running _ _ Hok), Hc; done).
  assert (tp_job s = None) as Hj by (apply (po_slot _ _ Hok); by rewrite Hc).
  set (s1 := set_worker i W_loop s <| tp_mutex := Some (H_worker i) |>). set (s2 := set_worker i W_towait s1).
  set (s3 := s2 <| tp_running := false |> <| tp_control := C_bcast |>). set (s4 := broadcast s3 <| tp_control := C_join |>).
  set (s5 := set_worker i W_wait s4 <| tp_mutex := None |>).
  assert (tp_workers s1 !! i = Some W_loop) as K1 by (cbn; by rewrite list_lookup_insert_eq).
  assert (tp_workers s2 !! i = Some W_towait) as K2 by (cbn; rewrite list_lookup_insert_eq; [done|by rewrite length_insert]).
  assert (tp_workers s4 !! i = Some W_towait) as K4.
  { change (tp_workers s4) with (wake <$> tp_workers s2). by rewrite list_lookup_fmap, K2. }
  assert (worker_step false i s = Some s1) as F1 by (unfold worker_step; rewrite Hi; unfold worker_lock; by rewrite Hm).
  assert (worker_step false i s1 = Some s2) as F2.
  { unfold worker_step. rewrite K1. change (tp_running s1) with (tp_running s). change (tp_job s1) with (tp_job s). by rewrite Hr, Hj. }
  assert (control_step s2 = Some s3) as F3 by (unfold control_step, stop_step; change (tp_control s2) with (tp_control s); by rewrite Hc).
  assert (control_step s3 = Some s4) as F4 by done.
  assert (worker_step false i s4 = Some s5) as F5 by (unfold worker_step; by rewrite K4).
  exists [H_worker i; H_worker i; H_control; H_control; H_worker i], s5. split.
  { cbn [pool_run pool_step]. rewrite F1. cbn [mbind option_bind]. rewrite F2. cbn [mbind option_bind]. rewrite F3.
    cbn [mbind option_bind]. rewrite F4. cbn [mbind option_bind]. rewrite F5. done. }
  assert (tp_workers s5 !! i = Some W_wait) as K5.
  { change (tp_workers s5) with (<[i := W_wait]> (tp_workers s4)). rewrite list_lookup_insert_eq; [done|by eapply lookup_lt_Some]. }
  assert (tp_control s5 = C_join) as C5 by done. clear - K5 C5. clearbody s5. intros ts''. revert s5 K5 C5.
  induction ts'' as [|t ts'' IH]; intros s0 K C s''; cbn; [by intros [= <-]|].
  destruct (pool_step false t s0) as [s0'|] eqn:E; [|done]. destruct (hung_step i t s0 s0' E C K). by apply IH.
Qed.

End PoolFacts.

(** ** Witnesses *)

(** Two workers, two jobs, then the stop; the second worker runs both. *)
Definition two_jobs : list holder :=
  [H_control; H_control; H_worker 1; H_worker 1; H_worker 1; H_control; H_control; H_control; H_worker 1;
   H_control; H_control; H_worker 1; H_worker 1; H_worker 1; H_control; H_control; H_control; H_worker 1].
Definition after_two : pool nat := default (threadpool_start 2 [7; 8]) (pool_run false two_jobs (threadpool_start 2 [7; 8])).

Lemma after_two_reached : pool_run false two_jobs (threadpool_start 2 [7; 8]) = Some after_two.
Proof. by vm_compute. Qed.

Lemma pool_runs_jobs_once_witness : [7; 8] = tp_taken after_two ++ [] ∧ tp_finished after_two ≡ₚ tp_taken after_two.
Proof.
  destruct (pool_runs_jobs_once false 2 [7; 8] two_jobs after_two after_two_reached) as (H1 & H2 & _).
  split; [exact H1|]. rewrite <-H2. by vm_compute.
Defined.

Lemma stop_may_hang_witness :
  ∃ ts' s', pool_run false ts' after_two = Some s' ∧
    ∀ ts'' s'', pool_run false ts'' s' = Some s'' → tp_control s'' = C_join.
Proof. apply (stop_may_hang 2 [7; 8] two_jobs after_two 0); [exact after_two_reached|by vm_compute..]. Defined.

End ThreadPool.
