(* ===== verification/Pollset.v ===== *)
(** * src/pollset.c: the reactor's poll multiplexer (host build)

    Slots are never moved: a handle is the index of its slot from [add] to
    [remove]. Slot 0 is the wake pipe. [U] is the type of the user pointer,
    [None] for NULL. *)

From S2P Require Import Prelude Types Sys.

Local Open Scope Z_scope.

Module Pollset.

Section Pollset.
Context {U : Type}.

(** One [struct pollfd] with its [users] entry. *)
Record slot := mk_slot { p_fd : Z; p_events : Z; p_revents : Z; p_user : option U }.

(** [fds] and [users] up to [count]; [cap] is the allocated size. *)
Record opftp_pollset := mk_pollset {
  ps_slots : list slot; ps_cap : nat; ps_wake_r : Z; ps_wake_w : Z
}.

Definition with_slots (p : opftp_pollset) (l : list slot) : opftp_pollset :=
  mk_pollset l (ps_cap p) (ps_wake_r p) (ps_wake_w p).

(** [opftp_pollset_create] on the two ends of its pipe. *)
Definition opftp_pollset_create (pipefd : Z * Z) : opftp_pollset :=
  mk_pollset [mk_slot (fst pipefd) POLLIN 0 None] 8 (fst pipefd) (snd pipefd).

Definition ensure_cap (cap need : nat) : nat :=
  if (need <=? cap)%nat then cap else (cap * 2)%nat.

Definition is_free (p : opftp_pollset) (i : nat) : bool :=
  match ps_slots p !! i with Some s => p_fd s <? 0 | None => false end.

(** The search for a freed slot, from slot 1 on. *)
Definition first_free (p : opftp_pollset) : option nat :=
  head (filter (λ i, is_free p i = true) (seq 1 (length (ps_slots p) - 1))).

Definition opftp_pollset_add (p : opftp_pollset) (fd events : Z) (user : option U)
  : option nat * opftp_pollset :=
  if fd <? 0 then (None, p)
  else
    let s := mk_slot fd events 0 user in
    match first_free p with
    | Some i => (Some i, with_slots p (<[i := s]> (ps_slots p)))
    | None =>
       let h := length (ps_slots p) in
       (Some h, mk_pollset (ps_slots p ++ [s]) (ensure_cap (ps_cap p) (h + 1))
                  (ps_wake_r p) (ps_wake_w p))
    end.

(** The guard of [mod] and [remove]: a live index other than the wake slot. *)
Definition valid_handle (p : opftp_pollset) (handle : Z) : bool :=
  negb ((handle <? 0) || (Z.of_nat (length (ps_slots p)) <=? handle) || (handle =? 0)).

Definition opftp_pollset_mod (p : opftp_pollset) (handle events : Z) : opftp_pollset :=
  if valid_handle p handle
  then with_slots p (alter (λ s, mk_slot (p_fd s) events (p_revents s) (p_user s))
                       (Z.to_nat handle) (ps_slots p))
  else p.

Definition opftp_pollset_remove (p : opftp_pollset) (handle : Z) : opftp_pollset :=
  if valid_handle p handle
  then with_slots p (alter (λ s, mk_slot (-1) (p_events s) 0 None)
                       (Z.to_nat handle) (ps_slots p))
  else p.

(** [poll] writes every [revents]; a negative descriptor gets none. *)
Definition set_revents (revs : list Z) (l : list slot) : list slot :=
  imap (λ i s, mk_slot (p_fd s) (p_events s)
                 (if p_fd s <? 0 then 0 else default 0 (revs !! i)) (p_user s)) l.

Definition ready (s : slot) : bool := (0 <=? p_fd s) && negb (p_revents s =? 0).

(** Clearing the wake slot after its pipe was drained. *)
Definition wake_ready (l : list slot) : bool :=
  match l with s :: _ => has (p_revents s) (Z.lor POLLIN POLLERR) | [] => false end.

Definition clear_wake (l : list slot) : list slot :=
  match l with s :: r => mk_slot (p_fd s) (p_events s) 0 (p_user s) :: r | [] => [] end.

Definition opftp_pollset_wait {OS} `{SysOps OS} (p : opftp_pollset) (timeout : Z) (os : OS)
  : res nat * opftp_pollset * OS :=
  match sys_poll ((λ s, (p_fd s, p_events s)) <$> ps_slots p) timeout os with
  | (Err e, os1) => (Err e, p, os1)
  | (Ok revs, os1) =>
     let l := set_revents revs (ps_slots p) in
     if bool_decide (Forall (λ s, p_revents s = 0) l)
     then (Ok 0%nat, with_slots p l, os1)
     else if wake_ready l
     then let l' := clear_wake l in
          (Ok (length (filter (λ s, ready s = true) l')), with_slots p l',
           sys_drain (ps_wake_r p) os1)
     else (Ok (length (filter (λ s, ready s = true) l)), with_slots p l, os1)
  end.

Definition opftp_pollset_wake {OS} `{SysOps OS} (p : opftp_pollset) (os : OS) : OS :=
  sys_wake (ps_wake_w p) os.

(** [opftp_pollset_destroy]: both ends of the wake pipe are closed. *)
Definition opftp_pollset_destroy {OS} `{SysOps OS} (p : opftp_pollset) (os : OS) : OS :=
  sys_close (ps_wake_w p) (sys_close (ps_wake_r p) os).

(** [opftp_pollset_collect]: the ready slots but the wake slot, in order. *)
Definition opftp_pollset_collect (p : opftp_pollset) (max : nat) : list (option U * Z) :=
  take max ((λ s, (p_user s, p_revents s)) <$> filter (λ s, ready s = true) (tail (ps_slots p))).

(** ** The registrations the pollset implements *)

Definition live (s : slot) : option (Z * Z * option U) :=
  if p_fd s <? 0 then None else Some (p_fd s, p_events s, p_user s).

(** The registration a handle stands for. *)
Definition reg (p : opftp_pollset) (h : nat) : option (Z * Z * option U) :=
  match h with
  | O => None
  | S _ => ps_slots p !! h ≫= live
  end.

Definition wf (p : opftp_pollset) : Prop :=
  (∃ s l, ps_slots p = s :: l ∧ p_fd s = ps_wake_r p ∧ p_user s = None ∧ p_events s = POLLIN) ∧
  (length (ps_slots p) ≤ ps_cap p)%nat.

Lemma wf_create pipefd : wf (opftp_pollset_create pipefd).
Proof. split; [by eexists _, []|cbn; lia]. Qed.

Lemma first_free_spec p i :
  first_free p = Some i →
  (1 ≤ i < length (ps_slots p))%nat ∧ ∃ s, ps_slots p !! i = Some s ∧ p_fd s < 0.
Proof.
  intros H. unfold first_free in H. apply head_Some_elem_of in H.
  apply list_elem_of_filter in H as [Hf Hs]. apply elem_of_seq in Hs.
  split; [lia|]. unfold is_free in Hf. case_match; [|done]. btests. eauto.
Qed.

Lemma reg_with_slots p l h : reg (with_slots p l) (S h) = l !! S h ≫= live.
Proof. done. Qed.

Lemma reg_insert p i s h :
  (1 ≤ i < length (ps_slots p))%nat →
  reg (with_slots p (<[i := s]> (ps_slots p))) h = if decide (h = i) then live s else reg p h.
Proof.
  intros Hi. destruct h as [|h]; [rewrite decide_False by lia; done|].
  rewrite reg_with_slots. case_decide as E.
  - subst. by rewrite list_lookup_insert_eq by lia.
  - by rewrite list_lookup_insert_ne by done.
Qed.

Lemma wf_insert p i s :
  wf p → (1 ≤ i)%nat → wf (with_slots p (<[i := s]> (ps_slots p))).
Proof.
  intros [(w & l & E & ?) Hc] Hi. split; cbn; [|by rewrite length_insert].
  rewrite E. destruct i; [lia|]. by eexists _, _.
Qed.

Lemma alter_insert {A} (f : A → A) i (l : list A) x :
  l !! i = Some x → alter f i l = <[i := f x]> l.
Proof.
  revert l. induction i as [|i IH]; intros [|y l] H; try done; cbn in *; [by simplify_eq|].
  f_equal. by apply IH.
Qed.

Lemma add_spec p fd events user h p' :
  wf p → opftp_pollset_add p fd events user = (Some h, p') →
  wf p' ∧ 0 ≤ fd ∧ (1 ≤ h)%nat ∧ reg p h = None ∧
  (∀ k, reg p' k = if decide (k = h) then Some (fd, events, user) else reg p k).
Proof.
  intros Hwf H. unfold opftp_pollset_add in H. destruct (fd <? 0) eqn:Efd; btests; [done|].
  assert (live (mk_slot fd events 0 user) = Some (fd, events, user)) as Hlive
    by (unfold live; cbn; by ztests).
  destruct (first_free p) as [i|] eqn:Ef; injection H as <- <-.
  - apply first_free_spec in Ef as (Hi & s & Es & Hs). split_and!; [|done|lia| |].
    + apply wf_insert; [done|lia].
    + destruct i as [|i]; [lia|]. cbn. rewrite Es. cbn. unfold live. by ztests.
    + intros k. by rewrite reg_insert, Hlive by done.
  - destruct Hwf as [(w & l & E & Hw) Hc]. rewrite E in *. cbn [length] in *. split_and!.
    + split; cbn; [by eexists _, _|]. rewrite length_app. cbn.
      unfold ensure_cap. destruct (Nat.leb_spec (S (length l + 1)) (ps_cap p)); lia.
    + done.
    + lia.
    + unfold reg. rewrite E. by rewrite lookup_ge_None_2 by (cbn; lia).
    + intros [|k]; [rewrite decide_False by lia; done|]. unfold reg. cbn [ps_slots]. rewrite E.
      cbn [app]. rewrite !lookup_cons_S. case_decide as Ek.
      * replace k with (length l) by lia. by rewrite list_lookup_middle by done.
      * destruct (decide (k < length l)%nat).
        { by rewrite lookup_app_l by lia. }
        rewrite lookup_ge_None_2 by (rewrite length_app; cbn; lia).
        by rewrite lookup_ge_None_2 by lia.
Qed.

Lemma valid_handle_spec p h :
  valid_handle p h = true → ∃ s, ps_slots p !! Z.to_nat h = Some s ∧ (1 ≤ Z.to_nat h)%nat ∧ 0 < h.
Proof.
  unfold valid_handle. intros [[H1 H2]%orb_false_elim H3]%negb_true_iff%orb_false_elim. btests.
  destruct (lookup_lt_is_Some_2 (ps_slots p) (Z.to_nat h)) as [s Hs]; [lia|].
  exists s. split_and!; [done|lia|lia].
Qed.

(** The registrations after [remove] and [mod] of a handle [add] returned. *)
Lemma remove_spec p h :
  wf p → (1 ≤ h)%nat →
  wf (opftp_pollset_remove p (Z.of_nat h)) ∧
  ∀ k, reg (opftp_pollset_remove p (Z.of_nat h)) k = if decide (k = h) then None else reg p k.
Proof.
  intros Hwf Hh. unfold opftp_pollset_remove. destruct (valid_handle p (Z.of_nat h)) eqn:Ev.
  - destruct (valid_handle_spec _ _ Ev) as (s & Hs & _ & _). rewrite Nat2Z.id in *.
    rewrite (alter_insert _ _ _ _ Hs). apply lookup_lt_Some in Hs.
    split; [by apply wf_insert|]. intros k. by rewrite reg_insert.
  - split; [done|]. intros k. case_decide as E; [|done]. subst k.
    unfold valid_handle in Ev. apply negb_false_iff in Ev.
    destruct h as [|h]; [lia|]. cbn [reg]. rewrite lookup_ge_None_2; [done|].
    apply orb_prop in Ev as [Ev|Ev]; [apply orb_prop in Ev as [Ev|Ev]|]; btests; lia.
Qed.

Lemma mod_spec p h events :
  wf p → (1 ≤ h)%nat →
  wf (opftp_pollset_mod p (Z.of_nat h) events) ∧
  ∀ k, reg (opftp_pollset_mod p (Z.of_nat h) events) k =
         if decide (k = h) then (λ '(fd, _, u), (fd, events, u)) <$> reg p h else reg p k.
Proof.
  intros Hwf Hh. unfold opftp_pollset_mod. destruct (valid_handle p (Z.of_nat h)) eqn:Ev.
  - destruct (valid_handle_spec _ _ Ev) as (s & Hs & _ & _). rewrite Nat2Z.id in *.
    rewrite (alter_insert _ _ _ _ Hs). pose proof Hs as Hl. apply lookup_lt_Some in Hl.
    split; [by apply wf_insert|]. intros k. rewrite reg_insert by done.
    case_decide; [|done]. destruct h as [|h]; [lia|]. cbn [reg]. rewrite Hs. cbn.
    unfold live. cbn. by case_match.
  - split; [done|]. intros k. case_decide as E; [|done]. subst k.
    unfold valid_handle in Ev. apply negb_false_iff in Ev.
    destruct h as [|h]; [lia|]. cbn [reg]. rewrite lookup_ge_None_2; [done|].
    apply orb_prop in Ev as [Ev|Ev]; [apply orb_prop in Ev as [Ev|Ev]|]; btests; lia.
Qed.

(** Handles are stable. An [add] that succeeds returns a handle that no
    live registration had, never the wake slot, and registers exactly there;
    a [remove] or [mod] of a handle changes the registration of that handle
    only; so the registration a handle stands for never moves while other
    descriptors come and go, and the wake slot is never touched. *)
Theorem pollset_handles_stable p fd events user h p' g :
  wf p → opftp_pollset_add p fd events user = (Some h, p') → (1 ≤ g)%nat →
  wf p' ∧ h ≠ 0%nat ∧ reg p h = None ∧ reg p' h = Some (fd, events, user) ∧
  (∀ k, k ≠ h → reg p' k = reg p k) ∧
  (∀ k, k ≠ g → reg (opftp_pollset_remove p' (Z.of_nat g)) k = reg p' k) ∧
  reg (opftp_pollset_remove p' (Z.of_nat g)) g = None ∧
  (∀ ev k, k ≠ g → reg (opftp_pollset_mod p' (Z.of_nat g) ev) k = reg p' k) ∧
  wf (opftp_pollset_remove p' (Z.of_nat g)).
Proof.
  intros Hwf Ha Hg. destruct (add_spec _ _ _ _ _ _ Hwf Ha) as (Hwf' & _ & Hh & Hn & Hr).
  destruct (remove_spec p' g Hwf' Hg) as [Hwr Hrr].
  split_and!; [done|lia|done| | | | | |done].
  - by rewrite Hr, decide_True.
  - intros k Hk. by rewrite Hr, decide_False.
  - intros k Hk. by rewrite Hrr, decide_False.
  - by rewrite Hrr, decide_True.
  - intros ev k Hk. destruct (mod_spec p' g ev Hwf' Hg) as [_ ->]. by rewrite decide_False.
Qed.

(** [collect] hands the reactor what is ready and nothing else: each pair
    it returns is the user and the events of a live registration, the wake
    pipe is never among them, and when the caller's arrays are large enough
    no ready registration is missed. *)
Theorem collect_exact p max u ev :
  wf p →
  ((u, ev) ∈ opftp_pollset_collect p max →
     ∃ h s, ps_slots p !! S h = Some s ∧ 0 ≤ p_fd s ∧ p_user s = u ∧ p_revents s = ev ∧ ev ≠ 0) ∧
  ((length (ps_slots p) ≤ max)%nat →
     ∀ h s, ps_slots p !! S h = Some s → 0 ≤ p_fd s → p_revents s ≠ 0 →
       (p_user s, p_revents s) ∈ opftp_pollset_collect p max).
Proof.
  intros [(w & l & E & _) _]. unfold opftp_pollset_collect. rewrite E. cbn [tail].
  split.
  - intros H. apply elem_of_take in H as (i & H & _). apply list_elem_of_lookup_2 in H.
    apply list_elem_of_fmap in H as (s & [= -> ->] & Hs).
    apply list_elem_of_filter in Hs as [Hr Hs]. apply list_elem_of_lookup_1 in Hs as [h Hs].
    unfold ready in Hr. btests. exists h, s. done.
  - intros Hm h s Hs Hfd Hr. cbn in Hs. apply list_elem_of_lookup_2 in Hs.
    rewrite take_ge.
    + apply list_elem_of_fmap. exists s. split; [done|]. apply list_elem_of_filter. split; [|done].
      unfold ready. by ztests.
    + rewrite length_fmap. cbn in Hm. pose proof (length_filter (λ s, ready s = true) l). lia.
Qed.

End Pollset.

Lemma pollset_handles_stable_witness :
  let p := opftp_pollset_create (U:=nat) (3, 4) in
  let p' := with_slots p (ps_slots p ++ [mk_slot 9 POLLIN 0 (Some 5%nat)]) in
  reg p' 1 = Some (9, POLLIN, Some 5%nat) ∧
  reg (opftp_pollset_remove p' 1) 1 = None.
Proof.
  destruct (pollset_handles_stable (opftp_pollset_create (U:=nat) (3, 4)) 9 POLLIN (Some 5%nat) 1
    (snd (opftp_pollset_add (opftp_pollset_create (U:=nat) (3, 4)) 9 POLLIN (Some 5%nat))) 1)
    as (_ & _ & _ & H1 & _ & _ & H2 & _); [apply wf_create|done|lia|].
  split; [exact H1|exact H2].
Defined.

Lemma collect_exact_witness :
  let p := mk_pollset [mk_slot 3 POLLIN 0 None; mk_slot 9 POLLIN POLLIN (Some 5%nat)] 8 3 4 in
  (Some 5%nat, POLLIN) ∈ opftp_pollset_collect p 20.
Proof.
  destruct (collect_exact
    (mk_pollset [mk_slot 3 POLLIN 0 None; mk_slot 9 POLLIN POLLIN (Some 5%nat)] 8 3 4)
    20 (Some 5%nat) POLLIN) as [_ H].
  - split; [by eexists _, _|cbn; lia].
  - apply (H ltac:(cbn; lia) 0%nat (mk_slot 9 POLLIN POLLIN (Some 5%nat))); [done|cbn; lia|done].
Defined.

End Pollset.
