(* ===== verification/Queue.v ===== *)
(** * src/datachan.c: the job queue

    The ring buffer between the reactor, which enqueues, and the workers,
    which dequeue under the same mutex. [J] is the type of a job pointer. *)

From S2P Require Import Prelude.

Module Queue.

Section Queue.
Context {J : Type}.

Record ring := mk_ring {
  q_slots : list (option J); q_head : nat; q_tail : nat; q_count : nat; q_cap : nat
}.

(** The queue part of [opftp_datachan_init]: twice the worker count. *)
Definition queue_init (workers_req : nat) : ring :=
  mk_ring (replicate (workers_req * 2) None) 0 0 0 (workers_req * 2).

(** [opftp_job_dispatch]. *)
Definition opftp_job_dispatch (q : ring) (j : J) : res () * ring :=
  if (q_cap q <=? q_count q)%nat then (Err EAGAIN, q)
  else (Ok (), mk_ring (<[q_tail q := Some j]> (q_slots q)) (q_head q)
                 ((q_tail q + 1) mod q_cap q) (q_count q + 1) (q_cap q)).

(** The dequeue of [opftp_transfer_worker], when the queue is not empty. *)
Definition worker_take (q : ring) : option J * ring :=
  if (q_count q =? 0)%nat then (None, q)
  else (q_slots q !! q_head q ≫= id,
        mk_ring (q_slots q) ((q_head q + 1) mod q_cap q) (q_tail q) (q_count q - 1) (q_cap q)).

(** The queued jobs as the loops of [opftp_datachan_shutdown] visit them. *)
Definition queued (q : ring) : list J :=
  omap (λ i, q_slots q !! ((q_head q + i) mod q_cap q) ≫= id) (seq 0 (q_count q)).

(** ** First in, first out *)

Definition slot_at (q : ring) (i : nat) : nat := (q_head q + i) mod q_cap q.

Definition wf (q : ring) : Prop :=
  (0 < q_cap q)%nat ∧ length (q_slots q) = q_cap q ∧ (q_head q < q_cap q)%nat ∧
  (q_count q ≤ q_cap q)%nat ∧ q_tail q = slot_at q (q_count q) ∧
  (∀ i, (i < q_count q)%nat → ∃ j, q_slots q !! slot_at q i = Some (Some j)).

Lemma wf_queue_init n : (0 < n)%nat → wf (queue_init n).
Proof.
  intros. split_and!; cbn; try lia.
  - by rewrite length_replicate.
  - unfold slot_at. cbn. by rewrite Nat.Div0.mod_0_l.
Qed.

Lemma slot_at_lt q i : (0 < q_cap q)%nat → (slot_at q i < q_cap q)%nat.
Proof. intros. apply Nat.mod_upper_bound. lia. Qed.

(** Distinct positions of a window of [cap] use distinct slots. *)
Lemma slot_at_inj q i j :
  (i < q_cap q)%nat → (j < q_cap q)%nat → slot_at q i = slot_at q j → i = j.
Proof.
  unfold slot_at. intros Hi Hj E.
  pose proof (Nat.div_mod_eq (q_head q + i) (q_cap q)).
  pose proof (Nat.div_mod_eq (q_head q + j) (q_cap q)).
  assert ((q_head q + i) / q_cap q = (q_head q + j) / q_cap q)%nat by nia. nia.
Qed.

Lemma queued_lookup q i :
  wf q → (i < q_count q)%nat → queued q !! i = q_slots q !! slot_at q i ≫= id.
Proof.
  intros (Hc & Hl & Hh & Hn & Ht & Hs) Hi. unfold queued.
  assert (∀ n k, (k + n ≤ q_count q)%nat →
    Some <$> omap (λ i, q_slots q !! slot_at q i ≫= id) (seq k n) =
      (λ i, q_slots q !! slot_at q i ≫= id) <$> seq k n) as Hom.
  { induction n as [|n IH]; intros k Hk; [done|]. cbn [seq omap list_omap fmap list_fmap].
    destruct (Hs k ltac:(lia)) as [j Hj]. rewrite Hj. cbn. f_equal. apply IH. lia. }
  specialize (Hom (q_count q) 0%nat ltac:(lia)).
  apply (f_equal (λ l, l !! i)) in Hom. rewrite !list_lookup_fmap in Hom.
  rewrite lookup_seq_lt in Hom by done. cbn in Hom.
  destruct (Hs i Hi) as [j Hj]. change ((q_head q + i) mod q_cap q) with (slot_at q i) in *.
  rewrite Hj in *. cbn in *.
  by destruct (omap _ _ !! i); simplify_eq/=.
Qed.

Lemma queued_length q : wf q → length (queued q) = q_count q.
Proof.
  intros (Hc & Hl & Hh & Hn & Ht & Hs). unfold queued.
  assert (∀ n k, (k + n ≤ q_count q)%nat →
    length (omap (λ i, q_slots q !! slot_at q i ≫= id) (seq k n)) = n) as Hom.
  { induction n as [|n IH]; intros k Hk; [done|]. cbn [seq omap list_omap].
    destruct (Hs k ltac:(lia)) as [j Hj]. rewrite Hj. cbn. f_equal. apply IH. lia. }
  apply Hom. lia.
Qed.

Lemma slot_at_succ q i h :
  (0 < q_cap q)%nat → h = (q_head q + 1) mod q_cap q →
  (h + i) mod q_cap q = slot_at q (S i).
Proof.
  intros Hc ->. unfold slot_at. rewrite Nat.Div0.add_mod_idemp_l. f_equal. lia.
Qed.

Lemma dispatch_ok q j q' :
  wf q → opftp_job_dispatch q j = (Ok (), q') → wf q' ∧ queued q' = queued q ++ [j].
Proof.
  intros Hwf H. pose proof Hwf as (Hc & Hl & Hh & Hn & Ht & Hs).
  unfold opftp_job_dispatch in H. destruct (_ <=? _)%nat eqn:E; btests; [done|].
  injection H as <-.
  assert (∀ i, (i < q_count q)%nat →
    <[q_tail q := Some j]> (q_slots q) !! slot_at q i = q_slots q !! slot_at q i) as Hold.
  { intros i Hi. apply list_lookup_insert_ne. rewrite Ht.
    intros Heq. apply slot_at_inj in Heq; lia. }
  assert (<[q_tail q := Some j]> (q_slots q) !! slot_at q (q_count q) = Some (Some j)) as Hnew.
  { rewrite <-Ht. apply list_lookup_insert_eq. rewrite Hl, Ht. by apply slot_at_lt. }
  assert (wf (mk_ring (<[q_tail q := Some j]> (q_slots q)) (q_head q)
                ((q_tail q + 1) mod q_cap q) (q_count q + 1) (q_cap q))) as Hwf'.
  { unfold wf, slot_at. cbn. fold (slot_at q (q_count q)). split_and!; try lia.
    - by rewrite length_insert.
    - rewrite Ht. unfold slot_at. rewrite Nat.Div0.add_mod_idemp_l. f_equal. lia.
    - intros i Hi. fold (slot_at q i). destruct (decide (i = q_count q)) as [->|].
      + eauto.
      + rewrite Hold by lia. apply Hs. lia. }
  split; [done|]. apply list_eq_same_length with (n := S (q_count q)).
  - rewrite length_app, queued_length by done. cbn. lia.
  - rewrite queued_length by done. cbn. lia.
  - intros i x y Hi Hx Hy. rewrite queued_lookup in Hx by (done || (cbn; lia)).
    unfold slot_at in Hx. cbn in Hx. fold (slot_at q i) in Hx.
    destruct (decide (i = q_count q)) as [->|].
    + rewrite Hnew in Hx. rewrite lookup_app_r, queued_length, Nat.sub_diag in Hy
        by (try rewrite queued_length by done; done). by simplify_eq/=.
    + rewrite lookup_app_l in Hy by (rewrite queued_length by done; lia).
      rewrite queued_lookup in Hy by (done || lia). rewrite Hold in Hx by lia. congruence.
Qed.

Lemma take_ok q r q' :
  wf q → worker_take q = (r, q') →
  match r with
  | None => q' = q ∧ queued q = []
  | Some j => wf q' ∧ queued q = j :: queued q'
  end.
Proof.
  intros Hwf H. pose proof Hwf as (Hc & Hl & Hh & Hn & Ht & Hs).
  unfold worker_take in H. destruct (q_count q =? 0)%nat eqn:E; btests.
  { injection H as <- <-. split; [done|]. apply nil_length_inv. by rewrite queued_length. }
  injection H as <- <-. destruct (Hs 0%nat ltac:(lia)) as [j Hj].
  unfold slot_at in Hj. rewrite Nat.add_0_r, Nat.mod_small in Hj by done. rewrite Hj. cbn [mbind option_bind id].
  set (q' := mk_ring _ _ _ _ _).
  assert (∀ i, slot_at q' i = slot_at q (S i)) as Hsl
    by (intros i; exact (slot_at_succ q i _ Hc eq_refl)).
  assert (wf q') as Hwf'.
  { unfold wf. rewrite Hsl. cbn. split_and!; try done; try lia.
    - apply Nat.mod_upper_bound. lia.
    - rewrite Ht. f_equal. lia.
    - intros i Hi. rewrite Hsl. apply Hs. lia. }
  split; [done|]. apply list_eq_same_length with (n := q_count q).
  - cbn [length]. rewrite queued_length by done. cbn. lia.
  - by rewrite queued_length.
  - intros [|i] x y Hi Hx Hy.
    + cbn in Hy. rewrite queued_lookup in Hx by (done || lia). unfold slot_at in Hx.
      rewrite Nat.add_0_r, Nat.mod_small, Hj in Hx by done. by simplify_eq/=.
    + rewrite lookup_cons_S in Hy. rewrite queued_lookup in Hx by (done || lia).
      rewrite queued_lookup in Hy by (done || (cbn; lia)). rewrite Hsl in Hy.
      cbn in Hy. congruence.
Qed.

(** A schedule of the queue's users: the reactor enqueues, a worker dequeues. *)
Inductive qop := Enq (j : J) | Deq.

(** The jobs accepted, the jobs taken, and the final ring. *)
Fixpoint qrun (q : ring) (ops : list qop) : list J * list J * ring :=
  match ops with
  | [] => ([], [], q)
  | Enq j :: ops' =>
     let '(r, q1) := opftp_job_dispatch q j in
     let '(acc, out, q2) := qrun q1 ops' in
     (match r with Ok _ => j :: acc | Err _ => acc end, out, q2)
  | Deq :: ops' =>
     let '(r, q1) := worker_take q in
     let '(acc, out, q2) := qrun q1 ops' in
     (acc, match r with Some j => j :: out | None => out end, q2)
  end.

Lemma qrun_spec ops : ∀ q acc out q',
  wf q → qrun q ops = (acc, out, q') → wf q' ∧ queued q ++ acc = out ++ queued q'.
Proof.
  induction ops as [|[j|] ops IH]; intros q acc out q' Hwf H; cbn [qrun] in H.
  - simplify_eq. by rewrite app_nil_r.
  - destruct (opftp_job_dispatch q j) as [r q1] eqn:Ed.
    destruct (qrun q1 ops) as [[acc' out'] q2] eqn:Er. simplify_eq.
    destruct r as [[]|e].
    + destruct (dispatch_ok _ _ _ Hwf Ed) as [Hwf1 Hq1].
      destruct (IH _ _ _ _ Hwf1 Er) as [? <-]. split; [done|].
      by rewrite Hq1, <-app_assoc.
    + assert (q1 = q) as -> by (unfold opftp_job_dispatch in Ed; case_match; by simplify_eq).
      by apply IH.
  - destruct (worker_take q) as [r q1] eqn:Ed.
    destruct (qrun q1 ops) as [[acc' out'] q2] eqn:Er. simplify_eq.
    pose proof (take_ok _ _ _ Hwf Ed) as Ht. destruct r as [j|].
    + destruct Ht as [Hwf1 Hq]. destruct (IH _ _ _ _ Hwf1 Er) as [? Heq].
      split; [done|]. by rewrite Hq, <-!app_comm_cons, Heq.
    + destruct Ht as [-> _]. by apply IH.
Qed.

(** C19. The job queue is first in, first out and loses nothing: from a fresh
    pool, for every interleaving of enqueues and dequeues, the jobs accepted
    are, in order, exactly the jobs taken followed by the jobs still queued,
    and never more than twice the worker count are waiting. *)
Theorem job_queue_fifo n ops acc out q' :
  (0 < n)%nat → qrun (queue_init n) ops = (acc, out, q') →
  acc = out ++ queued q' ∧ (length (queued q') ≤ n * 2)%nat.
Proof.
  intros Hn H. destruct (qrun_spec _ _ _ _ _ (wf_queue_init n Hn) H) as [Hwf Heq].
  split; [exact Heq|]. rewrite queued_length by done.
  assert (∀ ops q a o q2, qrun q ops = (a, o, q2) → q_cap q2 = q_cap q) as Hcap.
  { clear. induction ops as [|[j|] ops IH]; intros q a o q2 H; cbn [qrun] in H; [by simplify_eq| |].
    - destruct (opftp_job_dispatch q j) as [r q1] eqn:Ed.
      destruct (qrun q1 ops) as [[? ?] ?] eqn:Er. simplify_eq. rewrite (IH _ _ _ _ Er).
      unfold opftp_job_dispatch in Ed. case_match; by simplify_eq.
    - destruct (worker_take q) as [r q1] eqn:Ed.
      destruct (qrun q1 ops) as [[? ?] ?] eqn:Er. simplify_eq. rewrite (IH _ _ _ _ Er).
      unfold worker_take in Ed. case_match; by simplify_eq. }
  rewrite <-(Hcap _ _ _ _ _ H : q_cap q' = (n * 2)%nat). apply Hwf.
Qed.

End Queue.

Lemma job_queue_fifo_witness :
  [1; 2]%nat = [1]%nat ++ [2]%nat ∧ (1 ≤ 1 * 2)%nat.
Proof.
  apply (job_queue_fifo 1 [Enq 1; Enq 2; Enq 3; Deq]%nat [1; 2]%nat [1]%nat
           (mk_ring [Some 1; Some 2]%nat 1 0 1 2)); [lia|done].
Defined.

End Queue.
