(* ===== verification/World.v ===== *)
(** * The server object and the state the reactor thread works on

    [opftp_server] is [struct opftp_server] (src/opftp.h) less its mutexes
    and thread handles. [hstate] is what a command handler sees: its client,
    the server, the job heap, the filesystem, [errno], the operating system
    and the lines it hands to [opftp_client_send_raw], in order. [HM] is the
    state monad over it. *)

From S2P Require Import Prelude Types Sys FsIface FsRooted Dispatch Pollset Queue.
Export FsRooted.

Local Open Scope Z_scope.

(** The handlers the command table points to. *)
Inductive handler :=
  | H_user | H_pass | H_quit | H_noop | H_syst | H_feat | H_help | H_opts | H_acct | H_allo
  | H_type | H_mode | H_stru | H_stop | H_pwd | H_cwd | H_cdup | H_mkd | H_rmd | H_dele
  | H_rnfr | H_rnto | H_cpfr | H_cpto | H_site | H_size | H_mdtm | H_rest | H_stat | H_pasv
  | H_port | H_epsv | H_eprt | H_auth | H_pbsz | H_prot | H_abor | H_list | H_nlst | H_mlsd
  | H_mlst | H_mfmt | H_stou | H_retr | H_stor | H_appe
  | H_custom (n : nat).   (* installed by the application's after_commands *)

#[export] Instance handler_eq_dec : EqDecision handler.
Proof. solve_decision. Defined.

(** [struct opftp_pending_reply]: a line a worker queued for the reactor. *)
Record opftp_pending_reply := mk_pending { pr_c : cid; pr_generation : Z; pr_text : bytes }.

(** [struct opftp_snapshot_client] and [struct opftp_snapshot]. *)
Record opftp_snapshot_client := mk_snap_client {
  sc_peer : bytes; sc_user : bytes; sc_cwd : bytes; sc_logged_in : bool;
  sc_xfer_active : bool; sc_xfer_op : bytes; sc_xfer_path : bytes;
  sc_xfer_bytes : Z; sc_xfer_total : Z
}.

Record opftp_snapshot := mk_snapshot {
  sn_started : bool; sn_port : Z; sn_root : bytes; sn_workers : Z;
  sn_num_clients : Z; sn_clients : list opftp_snapshot_client
}.
#[export] Instance opftp_snapshot_settable : Settable opftp_snapshot := λ x,
  mk_snapshot (sn_started x) (sn_port x) (sn_root x) (sn_workers x) (sn_num_clients x)
    (sn_clients x).

Definition pollset := @Pollset.opftp_pollset cid.
Definition cmd_table := @Dispatch.table handler.

Record opftp_server := mk_server {
  s_auth : option (bytes → bytes → bool);   (* cb.auth *)
  s_skip_banner : bool;                     (* cb.skip_banner *)
  s_port : Z;
  s_fs_posix : bool;                        (* fs_base == &opftp_fs_posix *)
  s_fs : option rooted;                     (* the rooted wrapper in use *)
  s_root : bytes;
  s_fs_root_applied : bytes;
  s_workers_req : Z;
  s_stop_timeout_ms : Z;
  s_require_tls : bool;
  s_allow_foreign_port : bool;
  s_allow_stop : bool;
  s_v4only : bool;
  s_tls : bool;                             (* tls context present *)
  s_pasv_min : Z;
  s_pasv_max : Z;
  s_listen_fd : Z;
  s_poll_handle_listener : Z;
  s_started : bool;
  s_stopping : bool;
  s_reactor_running : bool;
  s_reactor_done : bool;
  s_pollset : option pollset;
  s_clients : list cid;                     (* most recent first *)
  s_completions : list jid;                 (* stack *)
  s_replies : list opftp_pending_reply;     (* FIFO *)
  s_reactor_tid_set : bool;
  s_ready : bool;
  s_starting : bool;
  s_dispatch : cmd_table;
  s_queue : @Queue.ring jid;
  s_num_workers : Z;
  s_pool_running : bool;
  s_workers_alive : Z;
  s_snap_cache : opftp_snapshot
}.

#[export] Instance opftp_server_settable : Settable opftp_server := λ x,
  mk_server (s_auth x) (s_skip_banner x) (s_port x) (s_fs_posix x) (s_fs x) (s_root x)
    (s_fs_root_applied x) (s_workers_req x) (s_stop_timeout_ms x) (s_require_tls x)
    (s_allow_foreign_port x) (s_allow_stop x) (s_v4only x) (s_tls x) (s_pasv_min x)
    (s_pasv_max x) (s_listen_fd x) (s_poll_handle_listener x) (s_started x) (s_stopping x)
    (s_reactor_running x) (s_reactor_done x) (s_pollset x) (s_clients x) (s_completions x)
    (s_replies x) (s_reactor_tid_set x) (s_ready x) (s_starting x) (s_dispatch x) (s_queue x)
    (s_num_workers x) (s_pool_running x) (s_workers_alive x) (s_snap_cache x).

(** ** The state of a handler *)

Record hstate (FS OS : Type) := mk_hstate {
  h_cid : cid;
  h_cl : opftp_client;
  h_srv : opftp_server;
  h_jobs : gmap jid opftp_transfer_job;
  h_fresh : positive;
  h_fs : FS;
  h_errno : errno;
  h_os : OS;
  h_out : list bytes;
  h_seq : Z                      (* the static [seq] of cmd_stou *)
}.
Arguments mk_hstate {_ _}.
Arguments h_cid {_ _}.
Arguments h_cl {_ _}.
Arguments h_srv {_ _}.
Arguments h_jobs {_ _}.
Arguments h_fresh {_ _}.
Arguments h_fs {_ _}.
Arguments h_errno {_ _}.
Arguments h_os {_ _}.
Arguments h_out {_ _}.
Arguments h_seq {_ _}.

#[export] Instance hstate_settable FS OS : Settable (hstate FS OS) := λ x,
  mk_hstate (h_cid x) (h_cl x) (h_srv x) (h_jobs x) (h_fresh x) (h_fs x) (h_errno x)
    (h_os x) (h_out x) (h_seq x).

Abbreviation HM FS OS A := (ST (hstate FS OS) A).

Section Actions.
Context {FS OS : Type} `{FsOps FS} `{SysOps OS}.

Definition get_cl : HM FS OS opftp_client := st_gets h_cl.
Definition get_srv : HM FS OS opftp_server := st_gets h_srv.
Definition mod_cl (f : opftp_client → opftp_client) : HM FS OS () :=
  st_modify (λ h, h <| h_cl := f (h_cl h) |>).
Definition mod_srv (f : opftp_server → opftp_server) : HM FS OS () :=
  st_modify (λ h, h <| h_srv := f (h_srv h) |>).
Definition mod_job (j : jid) (f : opftp_transfer_job → opftp_transfer_job) : HM FS OS () :=
  st_modify (λ h, h <| h_jobs := alter f j (h_jobs h) |>).
Definition mod_os (f : OS → OS) : HM FS OS () := st_modify (λ h, h <| h_os := f (h_os h) |>).

(** A line handed to [opftp_client_send_raw] on the reactor thread. *)
Definition send_raw (line : bytes) : HM FS OS () :=
  st_modify (λ h, h <| h_out := h_out h ++ [line] |>).

(** A call through [s->fs]: the rooted wrapper over the base backend. *)
Definition fs_call {A} (op : rooted → FsM FS A) : HM FS OS (option A) := λ h,
  match s_fs (h_srv h) with
  | None => (None, h <| h_errno := EFAULT |>)
  | Some r =>
     let '(a, (fs', e')) := op r (h_fs h, h_errno h) in
     (a, h <| h_fs := fs' |> <| h_errno := e' |>)
  end.

(** A system call that sets [errno] when it fails. *)
Definition os_call {A} (op : OS → res A * OS) : HM FS OS (option A) := λ h,
  match op (h_os h) with
  | (Ok a, os') => (Some a, h <| h_os := os' |>)
  | (Err e, os') => (None, h <| h_os := os' |> <| h_errno := e |>)
  end.

(** [opftp_close_fd]. *)
Definition opftp_close_fd (fd : Z) : HM FS OS () := mod_os (sys_close fd).

End Actions.
