(* ===== verification/Ui.v ===== *)
(** * app/ui.c: the model behind the status screens

    The state every renderer shares: views and selections, the text being
    edited, the rings of events and finished transfers, and one tracking
    record per connected peer, kept up to date by comparing successive
    snapshots of the server. Character arrays are the strings in them,
    doubles are IEEE 754 binary64 numbers ([SpecFloat]). The fields that only
    the renderers use (version, local address, the copy of the last snapshot)
    are left out. *)

From Stdlib Require Import SpecFloat.
From S2P Require Import Prelude CLib World.
Import CLib.

Local Open Scope Z_scope.

Module Ui.

(** ** Doubles *)

Abbreviation double := spec_float.
Definition d_add : double → double → double := SFadd 53 1024.
Definition d_mul : double → double → double := SFmul 53 1024.
Definition d_div : double → double → double := SFdiv 53 1024.
Definition d_lt (x y : double) : bool := match SFcompare x y with Some Lt => true | _ => false end.
Definition d_ge (x y : double) : bool := match SFcompare x y with Some (Gt | Eq) => true | _ => false end.
(** Conversion of an integer, rounding to nearest even. *)
Definition d_of_Z (z : Z) : double := binary_normalize 53 1024 z 0 false.
Definition d_zero : double := S754_zero false.
Definition d_half : double := d_div (d_of_Z 1) (d_of_Z 2).

(** [m * 2 ^ e * 10 ^ k] rounded to an integer, ties to even, as printf does. *)
Definition scaled (m e k : Z) : Z :=
  let n := m * 10 ^ k in
  if 0 <=? e then n * 2 ^ e
  else
    let d := 2 ^ (- e) in
    let q := n / d in
    let r := n mod d in
    if 2 * r <? d then q else if d <? 2 * r then q + 1 else if Z.even q then q else q + 1.

(** ["%.1f"] and ["%.0f"]. *)
Definition with_sign (s : bool) (t : bytes) : bytes := if s then "-"%char :: t else t.
Definition fmt_f1 (x : double) : bytes :=
  match x with
  | S754_zero s => with_sign s (B "0.0")
  | S754_infinity s => with_sign s (B "inf")
  | S754_nan => B "nan"
  | S754_finite s m e =>
     let n := scaled (Z.pos m) e 1 in with_sign s (fmt_u (n / 10) ++ B "." ++ fmt_u (n mod 10))
  end.
Definition fmt_f0 (x : double) : bytes :=
  match x with
  | S754_zero s => with_sign s (B "0")
  | S754_infinity s => with_sign s (B "inf")
  | S754_nan => B "nan"
  | S754_finite s m e => with_sign s (fmt_u (scaled (Z.pos m) e 0))
  end.

(** ** Data *)

Definition OPFTP_UI_MAX_HIST : nat := 48.
Definition OPFTP_UI_MAX_EVENTS : nat := 4.
Definition OPFTP_UI_MAX_TRACK : nat := 24.
Definition OPFTP_UI_SETTINGS_ROWS : Z := 5.
Definition OPFTP_UI_EDIT_MAX : nat := 256.

(** The views, in tab order, the results of transfers, the overlays and the
    edited fields are the constants of the C enums. *)
Definition OPFTP_UI_V_STATUS : Z := 0.
Definition OPFTP_UI_V_TRANSFERS : Z := 1.
Definition OPFTP_UI_V_CLIENTS : Z := 2.
Definition OPFTP_UI_V_SETTINGS : Z := 3.
Definition OPFTP_UI_V_COUNT : Z := 4.
Definition OPFTP_UI_H_OK : Z := 0.
Definition OPFTP_UI_H_ABORTED : Z := 1.
Definition OPFTP_UI_H_ERROR : Z := 2.
Definition OPFTP_UI_D_NONE : Z := -1.
Definition OPFTP_UI_D_HIST : Z := 0.
Definition OPFTP_UI_D_XFER : Z := 1.
Definition OPFTP_UI_D_CLIENT : Z := 2.
Definition OPFTP_UI_EDIT_NONE : Z := -1.
Definition OPFTP_UI_EDIT_COUNT : Z := 1.

Record opftp_ui_hist := mk_hist {
  hi_op : bytes; hi_path : bytes; hi_bytes : Z; hi_total : Z; hi_hh : Z; hi_mm : Z; hi_result : Z
}.
Record opftp_ui_ev := mk_ev { ev_text : bytes; ev_hh : Z; ev_mm : Z; ev_warn : bool }.

Record opftp_ui_trk := mk_trk {
  t_peer : bytes; t_present : bool; t_seen : bool; t_logged_in : bool; t_xfer_active : bool;
  t_xfer_op : bytes; t_xfer_path : bytes; t_xfer_bytes : Z; t_xfer_total : Z;
  t_idle_reset_us : Z; t_xfer_t0_us : Z; t_last_bytes_us : Z; t_rate : double
}.
#[export] Instance opftp_ui_trk_settable : Settable opftp_ui_trk := λ x,
  mk_trk (t_peer x) (t_present x) (t_seen x) (t_logged_in x) (t_xfer_active x) (t_xfer_op x)
    (t_xfer_path x) (t_xfer_bytes x) (t_xfer_total x) (t_idle_reset_us x) (t_xfer_t0_us x)
    (t_last_bytes_us x) (t_rate x).

Record opftp_ui := mk_ui {
  u_view : Z; u_sel_status : Z; u_sel_hist : Z; u_sel_cli : Z; u_sel_settings : Z;
  u_scroll_hist : Z; u_scroll_cli : Z; u_help : bool; u_detail_kind : Z; u_detail_idx : Z;
  u_edit_field : Z; u_edit_buf : bytes; u_edit_len : Z;
  u_t0_us : Z; u_snap : opftp_snapshot;
  u_events : list opftp_ui_ev; u_ev_head : Z; u_ev_count : Z;
  u_hist : list opftp_ui_hist; u_hist_head : Z; u_hist_count : Z;
  u_trk : list opftp_ui_trk;
  u_session_xfers : Z; u_session_bytes : Z
}.
#[export] Instance opftp_ui_settable : Settable opftp_ui := λ x,
  mk_ui (u_view x) (u_sel_status x) (u_sel_hist x) (u_sel_cli x) (u_sel_settings x) (u_scroll_hist x)
    (u_scroll_cli x) (u_help x) (u_detail_kind x) (u_detail_idx x) (u_edit_field x) (u_edit_buf x)
    (u_edit_len x) (u_t0_us x) (u_snap x) (u_events x) (u_ev_head x) (u_ev_count x) (u_hist x)
    (u_hist_head x) (u_hist_count x) (u_trk x) (u_session_xfers x) (u_session_bytes x).

Definition ev0 : opftp_ui_ev := mk_ev [] 0 0 false.
Definition hist0 : opftp_ui_hist := mk_hist [] [] 0 0 0 0 0.
(** A tracking record after [memset], and one for a new peer. *)
Definition trk0 : opftp_ui_trk := mk_trk [] false false false false [] [] 0 0 0 0 0 d_zero.
Definition trk_new (peer : bytes) : opftp_ui_trk := trk0 <| t_peer := bprintf 64 peer |>.

(** ** Formatting *)

Definition opftp_ui_fmt_size (n : nat) (b : Z) : bytes :=
  bprintf n (
    if 2 ^ 30 <=? b then fmt_f1 (d_div (d_of_Z b) (d_of_Z (2 ^ 30))) ++ B " GB"
    else if 2 ^ 20 <=? b then fmt_f1 (d_div (d_of_Z b) (d_of_Z (2 ^ 20))) ++ B " MB"
    else if 2 ^ 10 <=? b then fmt_f1 (d_div (d_of_Z b) (d_of_Z (2 ^ 10))) ++ B " KB"
    else fmt_u b ++ B " B").

Definition opftp_ui_fmt_rate (n : nat) (bps : double) : bytes :=
  bprintf n (
    if d_ge bps (d_of_Z (2 ^ 30)) then fmt_f1 (d_div bps (d_of_Z (2 ^ 30))) ++ B " GB/s"
    else if d_ge bps (d_of_Z (2 ^ 20)) then fmt_f1 (d_div bps (d_of_Z (2 ^ 20))) ++ B " MB/s"
    else if d_ge bps (d_of_Z (2 ^ 10)) then fmt_f1 (d_div bps (d_of_Z (2 ^ 10))) ++ B " KB/s"
    else fmt_f0 bps ++ B " B/s").

Definition opftp_ui_fmt_dur (n : nat) (sec : Z) : bytes :=
  bprintf n (fmt_0d 2 (sec / 3600) ++ B ":" ++ fmt_0d 2 ((sec / 60) mod 60) ++ B ":" ++ fmt_0d 2 (sec mod 60)).

Definition opftp_ui_fmt_idle (n : nat) (sec : Z) : bytes :=
  bprintf n (fmt_0d 2 (sec / 60) ++ B ":" ++ fmt_0d 2 (sec mod 60)).

(** ** Rings *)

Definition hour_of (now_us : Z) : Z := u8 ((now_us / 1000000 / 3600) mod 24).
Definition minute_of (now_us : Z) : Z := u8 ((now_us / 1000000 / 60) mod 60).

Definition mk_event (text : bytes) (warn : bool) (now_us : Z) : opftp_ui_ev :=
  mk_ev (bprintf 72 text) (hour_of now_us) (minute_of now_us) warn.

Definition ev_push (text : bytes) (warn : bool) (now_us : Z) (ui : opftp_ui) : opftp_ui :=
  let head := (u_ev_head ui + 1) mod Z.of_nat OPFTP_UI_MAX_EVENTS in
  ui <| u_ev_head := head |>
     <| u_events := <[Z.to_nat head := mk_event text warn now_us]> (u_events ui) |>
     <| u_ev_count := if u_ev_count ui <? Z.of_nat OPFTP_UI_MAX_EVENTS then u_ev_count ui + 1 else u_ev_count ui |>.

Definition mk_entry (op path : bytes) (b total result now_us : Z) : opftp_ui_hist :=
  mk_hist (bprintf 8 op) (bprintf 1024 path) b total (hour_of now_us) (minute_of now_us) (u8 result).

Definition hist_push (op path : bytes) (b total result now_us : Z) (ui : opftp_ui) : opftp_ui :=
  let head := (u_hist_head ui + 1) mod Z.of_nat OPFTP_UI_MAX_HIST in
  ui <| u_hist_head := head |>
     <| u_hist := <[Z.to_nat head := mk_entry op path b total result now_us]> (u_hist ui) |>
     <| u_hist_count := if u_hist_count ui <? Z.of_nat OPFTP_UI_MAX_HIST then u_hist_count ui + 1 else u_hist_count ui |>
     <| u_session_xfers := u64 (u_session_xfers ui + 1) |>
     <| u_session_bytes := u64 (u_session_bytes ui + b) |>.

(** A ring as the renderers read it, newest entry first. *)
Definition ring_view {A} (d : A) (cap : nat) (arr : list A) (head count : Z) : list A :=
  (λ i, default d (arr !! Z.to_nat ((head - Z.of_nat i + Z.of_nat cap) mod Z.of_nat cap))) <$> seq 0 (Z.to_nat count).

Definition opftp_ui_event (text : bytes) (warn : bool) (now_us : Z) (ui : opftp_ui) : opftp_ui :=
  ev_push text warn now_us ui.

(** ** Tracking *)

Definition tracks (peer : bytes) (t : opftp_ui_trk) : bool := t_present t && streq (t_peer t) peer.

(** The slot of a peer: the one that tracks it, or the first free one, which
    is cleared and named. *)
Definition trk_find (trk : list opftp_ui_trk) (peer : bytes) : option (nat * opftp_ui_trk) :=
  match list_find (λ t, tracks peer t = true) trk with
  | Some (i, t) => Some (i, t)
  | None =>
     match list_find (λ t, t_present t = false) trk with
     | Some (i, _) => Some (i, trk_new peer)
     | None => None
     end
  end.

Definition EM_DASH : bytes := [chr 226; chr 128; chr 148].
Definition connected_text (peer : bytes) : bytes := bprintf 72 (B "CLIENT CONNECTED " ++ EM_DASH ++ B " " ++ peer).
Definition disconnected_text (peer : bytes) : bytes :=
  bprintf 72 (B "CLIENT DISCONNECTED " ++ EM_DASH ++ B " " ++ peer).

(** The smoothed rate after [c] moved on from the recorded byte count. *)
Definition next_rate (now_us : Z) (c : opftp_snapshot_client) (t : opftp_ui_trk) : double :=
  let dt := u64 (now_us - t_last_bytes_us t) in
  if (0 <? dt) && (t_xfer_bytes t <=? sc_xfer_bytes c) then
    let inst := d_div (d_mul (d_of_Z (sc_xfer_bytes c - t_xfer_bytes t)) (d_of_Z 1000000)) (d_of_Z dt) in
    if d_lt d_zero (t_rate t) then d_add (d_mul (t_rate t) d_half) (d_mul inst d_half) else inst
  else t_rate t.

(** One client of the snapshot. *)
Definition poll_client (now_us : Z) (ui : opftp_ui) (c : opftp_snapshot_client) : opftp_ui :=
  match trk_find (u_trk ui) (sc_peer c) with
  | None => ui
  | Some (i, t) =>
     let is_new := negb (t_present t) in
     let ui := if is_new then ev_push (connected_text (sc_peer c)) false now_us ui else ui in
     let t := if is_new then t <| t_idle_reset_us := now_us |> <| t_logged_in := sc_logged_in c |> else t in
     let t := t <| t_present := true |> <| t_seen := true |> in
     let t := if Bool.eqb (sc_logged_in c) (t_logged_in t) then t
              else t <| t_logged_in := sc_logged_in c |> <| t_idle_reset_us := now_us |> in
     let '(t, ui) :=
       if sc_xfer_active c then
         if negb (t_xfer_active t) then
           (t <| t_xfer_active := true |> <| t_xfer_op := bprintf 8 (sc_xfer_op c) |>
              <| t_xfer_path := bprintf 1024 (sc_xfer_path c) |> <| t_xfer_bytes := sc_xfer_bytes c |>
              <| t_xfer_total := sc_xfer_total c |> <| t_xfer_t0_us := now_us |>
              <| t_last_bytes_us := now_us |> <| t_rate := d_zero |> <| t_idle_reset_us := now_us |>, ui)
         else
           (t <| t_rate := next_rate now_us c t |> <| t_xfer_bytes := sc_xfer_bytes c |>
              <| t_xfer_total := sc_xfer_total c |> <| t_last_bytes_us := now_us |>, ui)
       else if t_xfer_active t then
         let result := if negb (t_xfer_bytes t =? 0) && negb (t_xfer_total t =? 0) &&
                          (t_xfer_bytes t <? t_xfer_total t) then OPFTP_UI_H_ABORTED else OPFTP_UI_H_OK in
         (t <| t_xfer_active := false |> <| t_idle_reset_us := now_us |>,
          hist_push (t_xfer_op t) (t_xfer_path t) (t_xfer_bytes t) (t_xfer_total t) result now_us ui)
       else (t, ui) in
     ui <| u_trk := <[i := t]> (u_trk ui) |>
  end.

(** One slot of the table, after the snapshot was gone through. *)
Definition poll_gone (now_us : Z) (ui : opftp_ui) (i : nat) : opftp_ui :=
  match u_trk ui !! i with
  | None => ui
  | Some t =>
     if negb (t_present t) || t_seen t then ui
     else
       let ui := ev_push (disconnected_text (t_peer t)) true now_us ui in
       let ui := if t_xfer_active t
                 then hist_push (t_xfer_op t) (t_xfer_path t) (t_xfer_bytes t) (t_xfer_total t)
                        OPFTP_UI_H_ERROR now_us ui
                 else ui in
       ui <| u_trk := <[i := trk0]> (u_trk ui) |>
  end.

Definition snap_list (s : opftp_snapshot) : list opftp_snapshot_client :=
  take (Z.to_nat (sn_num_clients s)) (sn_clients s).

Definition opftp_ui_poll (now_us : Z) (ui : opftp_ui) : opftp_ui :=
  let ui := ui <| u_trk := (λ t, t <| t_seen := false |>) <$> u_trk ui |> in
  let ui := foldl (poll_client now_us) ui (snap_list (u_snap ui)) in
  foldl (poll_gone now_us) ui (seq 0 OPFTP_UI_MAX_TRACK).

(** ** Selection *)

Definition active_clients (ui : opftp_ui) : list opftp_snapshot_client :=
  filter (λ c, sc_xfer_active c = true) (snap_list (u_snap ui)).

Definition sel_count (ui : opftp_ui) : Z :=
  if u_view ui =? OPFTP_UI_V_STATUS then Z.of_nat (length (active_clients ui))
  else if u_view ui =? OPFTP_UI_V_TRANSFERS then u_hist_count ui
  else if u_view ui =? OPFTP_UI_V_CLIENTS then sn_num_clients (u_snap ui)
  else if u_view ui =? OPFTP_UI_V_SETTINGS then OPFTP_UI_SETTINGS_ROWS
  else 0.

(** [sel_ptr], as reading and writing the selection of the view. *)
Definition get_sel (ui : opftp_ui) : option Z :=
  if u_view ui =? OPFTP_UI_V_STATUS then Some (u_sel_status ui)
  else if u_view ui =? OPFTP_UI_V_TRANSFERS then Some (u_sel_hist ui)
  else if u_view ui =? OPFTP_UI_V_CLIENTS then Some (u_sel_cli ui)
  else if u_view ui =? OPFTP_UI_V_SETTINGS then Some (u_sel_settings ui)
  else None.

Definition set_sel (z : Z) (ui : opftp_ui) : opftp_ui :=
  if u_view ui =? OPFTP_UI_V_STATUS then ui <| u_sel_status := z |>
  else if u_view ui =? OPFTP_UI_V_TRANSFERS then ui <| u_sel_hist := z |>
  else if u_view ui =? OPFTP_UI_V_CLIENTS then ui <| u_sel_cli := z |>
  else if u_view ui =? OPFTP_UI_V_SETTINGS then ui <| u_sel_settings := z |>
  else ui.

Definition opftp_ui_sel_move (dir : Z) (ui : opftp_ui) : opftp_ui :=
  match get_sel ui with
  | None => ui
  | Some s =>
     let n := sel_count ui in
     if n <=? 0 then set_sel (-1) ui
     else
       let s := s + dir in
       let s := if s <? 0 then 0 else s in
       set_sel (if n <=? s then n - 1 else s) ui
  end.

Definition opftp_ui_clear_sel (ui : opftp_ui) : opftp_ui := set_sel (-1) ui.

(** The loop of [opftp_ui_sel_to_client]: [i] is the index, [k] the active
    clients seen. *)
Fixpoint find_active (l : list opftp_snapshot_client) (idx i k : Z) : Z :=
  match l with
  | [] => -1
  | c :: l' =>
     if sc_xfer_active c then if k =? idx then i else find_active l' idx (i + 1) (k + 1)
     else find_active l' idx (i + 1) k
  end.

Definition opftp_ui_sel_to_client (ui : opftp_ui) (idx : Z) : Z :=
  if u_view ui =? OPFTP_UI_V_CLIENTS then idx else find_active (snap_list (u_snap ui)) idx 0 0.

Definition opftp_ui_open_detail (ui : opftp_ui) : opftp_ui :=
  match get_sel ui with
  | None => ui
  | Some s =>
     if s <? 0 then ui
     else if u_view ui =? OPFTP_UI_V_TRANSFERS then
       ui <| u_detail_kind := OPFTP_UI_D_HIST |> <| u_detail_idx := s |>
     else if u_view ui =? OPFTP_UI_V_STATUS then
       let ci := opftp_ui_sel_to_client ui s in
       if 0 <=? ci then ui <| u_detail_kind := OPFTP_UI_D_XFER |> <| u_detail_idx := ci |> else ui
     else if u_view ui =? OPFTP_UI_V_CLIENTS then
       ui <| u_detail_kind := OPFTP_UI_D_CLIENT |> <| u_detail_idx := s |>
     else ui
  end.

(** [%] of C truncates towards zero. *)
Definition opftp_ui_switch_view (dir : Z) (ui : opftp_ui) : opftp_ui :=
  ui <| u_view := Z.rem (u_view ui + dir + OPFTP_UI_V_COUNT) OPFTP_UI_V_COUNT |>
     <| u_sel_status := -1 |> <| u_sel_hist := -1 |> <| u_sel_cli := -1 |> <| u_sel_settings := -1 |>
     <| u_scroll_hist := 0 |> <| u_scroll_cli := 0 |>
     <| u_detail_kind := OPFTP_UI_D_NONE |> <| u_help := false |>.

Definition opftp_ui_clamp_scroll (sel scroll visible total : Z) : Z :=
  let sel := if sel <? 0 then 0 else sel in
  let sel := if total <=? sel then total - 1 else sel in
  let scroll := if sel <? scroll then sel else scroll in
  let scroll := if scroll + visible <=? sel then sel - visible + 1 else scroll in
  let scroll := if total - visible <? scroll then total - visible else scroll in
  if scroll <? 0 then 0 else scroll.

(** ** Lifecycle and text input *)

Definition snapshot_zero : opftp_snapshot := mk_snapshot false 0 [] 0 0 [].

Definition opftp_ui_init (now_us : Z) : opftp_ui :=
  mk_ui 0 (-1) (-1) (-1) (-1) 0 0 false OPFTP_UI_D_NONE 0 OPFTP_UI_EDIT_NONE [] 0 now_us snapshot_zero
    (replicate OPFTP_UI_MAX_EVENTS ev0) 0 0 (replicate OPFTP_UI_MAX_HIST hist0) 0 0
    (replicate OPFTP_UI_MAX_TRACK trk0) 0 0.

Definition opftp_ui_edit_begin (field : Z) (initial : option bytes) (ui : opftp_ui) : opftp_ui :=
  if (field <? 0) || (OPFTP_UI_EDIT_COUNT <=? field) then ui
  else
    let buf := match initial with Some s => bprintf OPFTP_UI_EDIT_MAX s | None => [] end in
    ui <| u_edit_field := field |> <| u_edit_buf := buf |> <| u_edit_len := Z.of_nat (length buf) |>.

Definition opftp_ui_edit_cancel (ui : opftp_ui) : opftp_ui :=
  ui <| u_edit_field := OPFTP_UI_EDIT_NONE |> <| u_edit_len := 0 |> <| u_edit_buf := [] |>.

Definition opftp_ui_edit_commit (ui : opftp_ui) : bytes * opftp_ui :=
  (u_edit_buf ui, ui <| u_edit_field := OPFTP_UI_EDIT_NONE |>).

(** [memcpy] at [len] replaces the text from there on. *)
Definition opftp_ui_edit_type (utf8 : bytes) (ui : opftp_ui) : res () * opftp_ui :=
  if u_edit_field ui =? OPFTP_UI_EDIT_NONE then (Err EINVAL, ui)
  else if Z.of_nat OPFTP_UI_EDIT_MAX <=? u_edit_len ui + Z.of_nat (length utf8) then (Err ENOSPC, ui)
  else (Ok (), ui <| u_edit_buf := take (Z.to_nat (u_edit_len ui)) (u_edit_buf ui) ++ utf8 |>
                  <| u_edit_len := u_edit_len ui + Z.of_nat (length utf8) |>).

Definition is_cont (c : ascii) : bool := Z.land (cv c) 192 =? 128.

(** The index where the last character starts. *)
Fixpoint back_to (buf : bytes) (i : nat) : nat :=
  match i with
  | O => O
  | S i' => match buf !! i with Some c => if is_cont c then back_to buf i' else i | None => i end
  end.

Definition opftp_ui_edit_backspace (ui : opftp_ui) : opftp_ui :=
  if (u_edit_field ui =? OPFTP_UI_EDIT_NONE) || (u_edit_len ui <=? 0) then ui
  else
    let i := back_to (u_edit_buf ui) (Z.to_nat (u_edit_len ui - 1)) in
    ui <| u_edit_buf := take i (u_edit_buf ui) |> <| u_edit_len := Z.of_nat i |>.

Definition opftp_ui_view_name (view : Z) : bytes :=
  if (view <? 0) || (OPFTP_UI_V_COUNT <=? view) then []
  else default [] ([B "STATUS"; B "TRANSFERS"; B "CLIENTS"; B "SETTINGS"] !! Z.to_nat view).

(** ** Rings show the newest entries *)

Record ring_ok {A} (cap : nat) (arr : list A) (head count : Z) : Prop := mk_ring_ok {
  ro_length : length arr = cap;
  ro_head : 0 ≤ head < Z.of_nat cap;
  ro_count : 0 ≤ count ≤ Z.of_nat cap
}.

Lemma ring_view_length {A} (d : A) cap arr head count : length (ring_view d cap arr head count) = Z.to_nat count.
Proof. unfold ring_view. by rewrite length_fmap, length_seq. Qed.

Lemma ring_view_lookup {A} (d : A) cap arr head count (i : nat) :
  (i < Z.to_nat count)%nat →
  ring_view d cap arr head count !! i =
  Some (default d (arr !! Z.to_nat ((head - Z.of_nat i + Z.of_nat cap) mod Z.of_nat cap))).
Proof. intros Hi. unfold ring_view. by rewrite list_lookup_fmap, lookup_seq_lt. Qed.

Section Ring.
Context {A : Type} (d : A) (cap : nat) (arr : list A) (head count : Z) (x : A).
Hypothesis Hok : ring_ok cap arr head count.

Let head' := (head + 1) mod Z.of_nat cap.
Let count' := if count <? Z.of_nat cap then count + 1 else count.

Lemma ring_push_ok : ring_ok cap (<[Z.to_nat head' := x]> arr) head' count'.
Proof.
  destruct Hok as [Hl Hh Hc]. split; [by rewrite length_insert|apply Z.mod_pos_bound; lia|].
  unfold count'. destruct (Z.ltb_spec count (Z.of_nat cap)); lia.
Qed.

(** Pushing puts the entry in front; the oldest goes when the ring is full. *)
Lemma ring_push_view :
  ring_view d cap (<[Z.to_nat head' := x]> arr) head' count' = take cap (x :: ring_view d cap arr head count).
Proof.
  destruct Hok as [Hl Hh Hc]. assert (0 ≤ head' < Z.of_nat cap) as Hh' by (apply Z.mod_pos_bound; lia).
  apply list_eq. intros i. destruct (decide (i < Z.to_nat count')%nat) as [Hi|Hi].
  - rewrite ring_view_lookup by done.
    assert (i < cap)%nat as Hic by (unfold count' in Hi; destruct (Z.ltb_spec count (Z.of_nat cap)); lia).
    rewrite lookup_take_lt by done. destruct i as [|i].
    + change ((x :: ring_view d cap arr head count) !! 0%nat) with (Some x). rewrite Z.sub_0_r, Z.add_mod, Z.mod_same, Z.add_0_r, Z.mod_mod, (Z.mod_small head') by lia.
      rewrite list_lookup_insert_eq by lia. done.
    + change ((x :: ring_view d cap arr head count) !! S i) with (ring_view d cap arr head count !! i).
      rewrite ring_view_lookup by (unfold count' in Hi; destruct (Z.ltb_spec count (Z.of_nat cap)); lia).
      f_equal. f_equal. assert ((head' - Z.of_nat (S i) + Z.of_nat cap) mod Z.of_nat cap =
        (head - Z.of_nat i + Z.of_nat cap) mod Z.of_nat cap) as ->.
      { unfold head'. replace ((head + 1) mod Z.of_nat cap - Z.of_nat (S i) + Z.of_nat cap)
          with ((head + 1) mod Z.of_nat cap + (Z.of_nat cap - Z.of_nat (S i))) by lia.
        rewrite Zplus_mod_idemp_l. f_equal. lia. }
      apply list_lookup_insert_ne. intros E. apply Z2Nat.inj in E; [|lia|apply Z.mod_pos_bound; lia].
      assert (head' = (head + 1) mod Z.of_nat cap) as E1 by done.
      assert (((head - Z.of_nat i + Z.of_nat cap) - (head + 1)) mod Z.of_nat cap = 0) as E2.
      { rewrite Zminus_mod, <-E, E1, Z.sub_diag. apply Z.mod_0_l. lia. }
      replace (head - Z.of_nat i + Z.of_nat cap - (head + 1)) with (Z.of_nat cap - Z.of_nat (S i)) in E2 by lia.
      rewrite Z.mod_small in E2 by lia. lia.
  - rewrite !lookup_ge_None_2; [done| |by rewrite ring_view_length; lia].
    rewrite length_take. cbn [length]. rewrite ring_view_length. unfold count' in Hi.
    destruct (Z.ltb_spec count (Z.of_nat cap)); lia.
Qed.
End Ring.

(** ** What one poll does *)

(** The rings are well formed. *)
Definition rings_ok (ui : opftp_ui) : Prop :=
  ring_ok OPFTP_UI_MAX_EVENTS (u_events ui) (u_ev_head ui) (u_ev_count ui) ∧
  ring_ok OPFTP_UI_MAX_HIST (u_hist ui) (u_hist_head ui) (u_hist_count ui).

Definition events_view (ui : opftp_ui) : list opftp_ui_ev :=
  ring_view ev0 OPFTP_UI_MAX_EVENTS (u_events ui) (u_ev_head ui) (u_ev_count ui).
Definition hist_view (ui : opftp_ui) : list opftp_ui_hist :=
  ring_view hist0 OPFTP_UI_MAX_HIST (u_hist ui) (u_hist_head ui) (u_hist_count ui).

Definition sum_bytes (hs : list opftp_ui_hist) : Z := foldr (λ h z, hi_bytes h + z) 0 hs.

(** [ui'] is [ui] with these events and history entries pushed, oldest first. *)
Record logged (evs : list opftp_ui_ev) (hs : list opftp_ui_hist) (ui ui' : opftp_ui) : Prop := mk_logged {
  lg_events : events_view ui' = take OPFTP_UI_MAX_EVENTS (reverse evs ++ events_view ui);
  lg_hist : hist_view ui' = take OPFTP_UI_MAX_HIST (reverse hs ++ hist_view ui);
  lg_xfers : u64 (u_session_xfers ui') = u64 (u_session_xfers ui + Z.of_nat (length hs));
  lg_bytes : u64 (u_session_bytes ui') = u64 (u_session_bytes ui + sum_bytes hs);
  lg_rings : rings_ok ui';
  lg_snap : u_snap ui' = u_snap ui
}.

Lemma view_cap {A} (d : A) cap arr head count :
  ring_ok cap arr head count → take cap (ring_view d cap arr head count) = ring_view d cap arr head count.
Proof. intros [_ _ Hc]. apply take_ge. rewrite ring_view_length. lia. Qed.

Lemma logged_nil ui ui' :
  rings_ok ui → u_events ui' = u_events ui → u_ev_head ui' = u_ev_head ui → u_ev_count ui' = u_ev_count ui →
  u_hist ui' = u_hist ui → u_hist_head ui' = u_hist_head ui → u_hist_count ui' = u_hist_count ui →
  u_session_xfers ui' = u_session_xfers ui → u_session_bytes ui' = u_session_bytes ui → u_snap ui' = u_snap ui →
  logged [] [] ui ui'.
Proof.
  intros [Hr1 Hr2] E1 E2 E3 E4 E5 E6 E7 E8 E9.
  split; unfold events_view, hist_view, rings_ok; rewrite ?E1, ?E2, ?E3, ?E4, ?E5, ?E6, ?E7, ?E8, ?E9; cbn [reverse]; try done.
  - symmetry. by apply view_cap.
  - symmetry. by apply view_cap.
  - cbn. by rewrite Z.add_0_r.
  - cbn. by rewrite Z.add_0_r.
Qed.

Lemma sum_bytes_app a b : sum_bytes (a ++ b) = sum_bytes a + sum_bytes b.
Proof. unfold sum_bytes. induction a as [|h a IH]; [done|]. cbn [app foldr]. lia. Qed.

Lemma u64_add_l a b : u64 (u64 a + b) = u64 (a + b).
Proof. unfold u64. apply Zplus_mod_idemp_l. Qed.

Lemma u64_cong a b n : u64 a = u64 b → u64 (a + n) = u64 (b + n).
Proof. intros E. by rewrite <-(u64_add_l a), E, u64_add_l. Qed.

Lemma take_twice {A} n (a b : list A) : take n (a ++ take n b) = take n (a ++ b).
Proof. rewrite !take_app, take_take. f_equal. f_equal. lia. Qed.

Lemma logged_trans e1 e2 h1 h2 a b c : logged e1 h1 a b → logged e2 h2 b c → logged (e1 ++ e2) (h1 ++ h2) a c.
Proof.
  intros [E1 H1 X1 B1 R1 S1] [E2 H2 X2 B2 R2 S2]. split; [| | | |done|congruence].
  - by rewrite E2, E1, take_twice, reverse_app, app_assoc.
  - by rewrite H2, H1, take_twice, reverse_app, app_assoc.
  - rewrite X2, (u64_cong _ _ _ X1), length_app. f_equal. lia.
  - rewrite B2, (u64_cong _ _ _ B1), sum_bytes_app. f_equal. lia.
Qed.

Lemma ev_push_logged text warn now ui : rings_ok ui → logged [mk_event text warn now] [] ui (ev_push text warn now ui).
Proof.
  intros [Hr1 Hr2]. split; unfold events_view, hist_view, rings_ok; cbn; try done; try (by rewrite Z.add_0_r).
  - by rewrite (ring_push_view ev0 _ _ _ _ (mk_event text warn now) Hr1).
  - symmetry. by apply view_cap.
  - split; [by apply (ring_push_ok _ _ _ _ _ Hr1)|done].
Qed.

Lemma hist_push_logged op path b total result now ui :
  rings_ok ui →
  logged [] [mk_entry op path b total result now] ui (hist_push op path b total result now ui).
Proof.
  intros [Hr1 Hr2]. split; unfold events_view, hist_view, rings_ok; cbn; try done.
  - symmetry. by apply view_cap.
  - by rewrite (ring_push_view hist0 _ _ _ _ (mk_entry op path b total result now) Hr2).
  - unfold u64. by rewrite Z.mod_mod.
  - unfold u64. rewrite Z.mod_mod by done. f_equal. lia.
  - split; [done|]. by apply (ring_push_ok _ _ _ _ _ Hr2).
Qed.

(** A change of the table pushes nothing. *)
Lemma trk_logged evs hs ui ui' L : logged evs hs ui ui' → logged evs hs ui (ui' <| u_trk := L |>).
Proof. intros [? ? ? ? ? ?]. by split. Qed.
Lemma trk_logged_from evs hs ui ui' L : logged evs hs (ui <| u_trk := L |>) ui' → logged evs hs ui ui'.
Proof. intros [? ? ? ? ? ?]. by split. Qed.

(** The history entry of a client whose recorded transfer is over. *)
Definition finished (now_us : Z) (c : opftp_snapshot_client) (t : opftp_ui_trk) : list opftp_ui_hist :=
  if negb (sc_xfer_active c) && t_xfer_active t then
    [mk_entry (t_xfer_op t) (t_xfer_path t) (t_xfer_bytes t) (t_xfer_total t)
       (if negb (t_xfer_bytes t =? 0) && negb (t_xfer_total t =? 0) && (t_xfer_bytes t <? t_xfer_total t)
        then OPFTP_UI_H_ABORTED else OPFTP_UI_H_OK) now_us]
  else [].

Definition greeting (now_us : Z) (peer : bytes) : opftp_ui_ev := mk_event (connected_text peer) false now_us.

(** A record that says what the snapshot says of its client. *)
Record agrees (c : opftp_snapshot_client) (t : opftp_ui_trk) : Prop := mk_agrees {
  ag_present : t_present t = true;
  ag_seen : t_seen t = true;
  ag_logged_in : t_logged_in t = sc_logged_in c;
  ag_active : t_xfer_active t = sc_xfer_active c;
  ag_bytes : sc_xfer_active c = true → t_xfer_bytes t = sc_xfer_bytes c ∧ t_xfer_total t = sc_xfer_total c
}.

Lemma poll_client_step now ui c i t :
  rings_ok ui → trk_find (u_trk ui) (sc_peer c) = Some (i, t) →
  ∃ t', u_trk (poll_client now ui c) = <[i := t']> (u_trk ui) ∧ t_peer t' = t_peer t ∧ agrees c t' ∧
    logged (if t_present t then [] else [greeting now (sc_peer c)]) (finished now c t) ui (poll_client now ui c).
Proof.
  intros Hr Hf. unfold poll_client. rewrite Hf. cbv zeta.
  set (ui1 := if negb (t_present t) then _ else ui).
  assert (u_trk ui1 = u_trk ui ∧ logged (if t_present t then [] else [greeting now (sc_peer c)]) [] ui ui1) as [Et Hl].
  { unfold ui1. destruct (t_present t); cbn [negb]; [split; [done|by apply logged_nil]|].
    split; [done|by apply ev_push_logged]. }
  set (t1 := if Bool.eqb _ _ then _ else _).
  assert (t_peer t1 = t_peer t ∧ t_present t1 = true ∧ t_seen t1 = true ∧ t_logged_in t1 = sc_logged_in c ∧
    t_xfer_active t1 = t_xfer_active t ∧ t_xfer_op t1 = t_xfer_op t ∧ t_xfer_path t1 = t_xfer_path t ∧
    t_xfer_bytes t1 = t_xfer_bytes t ∧ t_xfer_total t1 = t_xfer_total t) as (P1 & P2 & P3 & P4 & P5 & P6 & P7 & P8 & P9).
  { unfold t1. destruct (t_present t); cbn [negb]; destruct (Bool.eqb _ _) eqn:Eb; cbn in *; split_and!; try done;
      by apply eqb_prop in Eb. }
  clearbody t1 ui1. unfold finished. destruct (sc_xfer_active c) eqn:Ea; cbn [negb andb].
  - destruct (t_xfer_active t1) eqn:Ex; cbn [negb]; eexists;
      (split; [cbn; by rewrite Et|split; [done|split; [split; cbn; first [done|congruence]|by apply trk_logged]]]).
  - rewrite <-P5. destruct (t_xfer_active t1) eqn:Ex; eexists;
      (split; [cbn; by rewrite Et|split; [done|split; [split; cbn; first [done|congruence]|apply trk_logged]]]); [|done].
    rewrite P6, P7, P8, P9. rewrite <-(app_nil_r (if t_present t then [] else _)). rewrite <-(app_nil_l [mk_entry _ _ _ _ _ _]).
    eapply logged_trans; [exact Hl|]. apply hist_push_logged. apply Hl.
Qed.

(** ** The table *)

Definition present (L : list opftp_ui_trk) : list opftp_ui_trk := filter (λ t, t_present t = true) L.
Definition unseen (L : list opftp_ui_trk) : list opftp_ui_trk :=
  filter (λ t, t_present t = true ∧ t_seen t = false) L.
Definition free_slots (L : list opftp_ui_trk) : nat := length (filter (λ t, t_present t = false) L).
Definition tracked (L : list opftp_ui_trk) (peer : bytes) : option opftp_ui_trk :=
  snd <$> list_find (λ t, tracks peer t = true) L.
Definition peers (L : list opftp_ui_trk) : list bytes := t_peer <$> present L.

Lemma tracks_true p t : tracks p t = true ↔ t_present t = true ∧ t_peer t = p.
Proof. unfold tracks. rewrite andb_true_iff. by rewrite streq_true. Qed.

Lemma tracked_Some L p t : NoDup (peers L) → tracked L p = Some t ↔ t ∈ L ∧ t_present t = true ∧ t_peer t = p.
Proof.
  intros Hnd. unfold tracked. split.
  - intros ([i t'] & Hf & [= ->])%fmap_Some. apply list_find_Some in Hf as (Hl & Ht%tracks_true & _).
    split; [by eapply list_elem_of_lookup_2|done].
  - intros (Hin & Hp & Hq). destruct (list_find (λ t, tracks p t = true) L) as [[i t']|] eqn:E.
    + apply list_find_Some in E as (Hl & [Hp' Hq']%tracks_true & _). cbn. f_equal.
      assert (t' ∈ present L ∧ t ∈ present L) as [Hin1 Hin2].
      { unfold present. rewrite !list_elem_of_filter. split; [split; [done|by eapply list_elem_of_lookup_2]|done]. }
      apply list_elem_of_lookup in Hin1 as [j Hj]. apply list_elem_of_lookup in Hin2 as [k Hk].
      assert (j = k) as ->; [|congruence]. unfold peers in Hnd.
      apply (NoDup_lookup _ j k p Hnd); rewrite list_lookup_fmap; [rewrite Hj|rewrite Hk]; cbn; congruence.
    + apply list_find_None in E. rewrite Forall_forall in E. exfalso. apply (E t Hin). by apply tracks_true.
Qed.

Lemma tracked_None L p : tracked L p = None ↔ p ∉ peers L.
Proof.
  unfold tracked, peers, present. rewrite fmap_None, list_find_None, Forall_forall. split.
  - intros Hn (t & -> & [Hp Hin]%list_elem_of_filter)%list_elem_of_fmap. apply (Hn t Hin). by apply tracks_true.
  - intros Hn t Hin [Hp Hq]%tracks_true. apply Hn, list_elem_of_fmap. exists t. split; [done|].
    by apply list_elem_of_filter.
Qed.

(** Where [trk_find] lands. *)
Lemma trk_find_split L p i t0 :
  trk_find L p = Some (i, t0) →
  ∃ l1 t l2, L = l1 ++ t :: l2 ∧ i = length l1 ∧
    ((t_present t = true ∧ t_peer t = p ∧ t0 = t ∧ tracked L p = Some t) ∨
     (t_present t = false ∧ t0 = trk_new p ∧ p ∉ peers L)).
Proof.
  unfold trk_find. intros Hf. destruct (list_find (λ t, tracks p t = true) L) as [[j t]|] eqn:E.
  - injection Hf as <- <-. pose proof E as E'. apply list_find_Some in E as (Hl & [Hp Hq]%tracks_true & _).
    apply list_elem_of_split_length in Hl as (l1 & l2 & -> & ->). exists l1, t, l2. split; [done|]. split; [done|].
    left. split_and!; try done. unfold tracked. by rewrite E'.
  - destruct (list_find (λ t, t_present t = false) L) as [[j t]|] eqn:E2; [|done]. injection Hf as <- <-.
    apply list_find_Some in E2 as (Hl & Hp & _).
    apply list_elem_of_split_length in Hl as (l1 & l2 & -> & ->). exists l1, t, l2. split; [done|]. split; [done|].
    right. split_and!; try done. apply tracked_None. unfold tracked. by rewrite E.
Qed.

Lemma trk_find_room L p : p ∈ peers L ∨ (0 < free_slots L)%nat → is_Some (trk_find L p).
Proof.
  intros Hr. unfold trk_find. destruct (list_find (λ t, tracks p t = true) L) as [[j t]|] eqn:E; [done|].
  destruct Hr as [Hp|Hf]; [exfalso; apply (tracked_None L p); [unfold tracked; by rewrite E|done]|].
  destruct (list_find (λ t, t_present t = false) L) as [[j t]|] eqn:E2; [done|].
  apply list_find_None in E2. unfold free_slots in Hf. rewrite Forall_forall in E2.
  destruct (filter (λ t, t_present t = false) L) as [|t l] eqn:El; [cbn in Hf; lia|].
  assert (t ∈ filter (λ t, t_present t = false) L) as [Hp Hin]%list_elem_of_filter by (rewrite El; left). exfalso. by apply (E2 t).
Qed.

(** Putting a record of [p] in the slot [trk_find] gave. *)
Record tracked_in (L : list opftp_ui_trk) (p : bytes) (t' : opftp_ui_trk) (L' : list opftp_ui_trk) : Prop := mk_tracked_in {
  ti_length : length L' = length L;
  ti_nodup : NoDup (peers L');
  ti_unseen : unseen L' = filter (λ x, t_peer x ≠ p) (unseen L);
  ti_peers q : q ∈ peers L' ↔ q = p ∨ q ∈ peers L;
  ti_other q : q ≠ p → tracked L' q = tracked L q;
  ti_self : tracked L' p = Some t';
  ti_free : (free_slots L' + (if decide (p ∈ peers L) then 0 else 1) = free_slots L)%nat
}.

Lemma peers_app l1 l2 : peers (l1 ++ l2) = peers l1 ++ peers l2.
Proof. unfold peers, present. by rewrite list.filter_app, fmap_app. Qed.
Lemma peers_cons t l : peers (t :: l) = if t_present t then t_peer t :: peers l else peers l.
Proof. unfold peers, present. rewrite filter_cons. by destruct (t_present t). Qed.
Lemma unseen_app l1 l2 : unseen (l1 ++ l2) = unseen l1 ++ unseen l2.
Proof. unfold unseen. by rewrite list.filter_app. Qed.
Lemma unseen_cons t l : unseen (t :: l) = if t_present t && negb (t_seen t) then t :: unseen l else unseen l.
Proof. unfold unseen. rewrite filter_cons. by destruct (t_present t), (t_seen t). Qed.

Lemma unseen_present L t : t ∈ unseen L → t ∈ L ∧ t_peer t ∈ peers L.
Proof.
  unfold unseen, peers, present. rewrite list_elem_of_filter. intros [[Hp _] Hin]. split; [done|].
  apply list_elem_of_fmap. exists t. split; [done|]. by apply list_elem_of_filter.
Qed.

Lemma unseen_other l p : p ∉ peers l → filter (λ x, t_peer x ≠ p) (unseen l) = unseen l.
Proof.
  intros Hp. assert (Forall (λ x, t_peer x ≠ p) (unseen l)) as Hf.
  { apply Forall_forall. intros x [_ Hx]%unseen_present E. apply Hp. by rewrite <-E. }
  induction Hf as [|x l' Hx _ IH]; [done|]. by rewrite filter_cons_True, IH.
Qed.

Lemma put_tracked l1 t l2 p t' :
  let L := l1 ++ t :: l2 in
  NoDup (peers L) → t_present t' = true → t_seen t' = true → t_peer t' = p →
  (t_present t = true ∧ t_peer t = p) ∨ (t_present t = false ∧ p ∉ peers L) →
  tracked_in L p t' (l1 ++ t' :: l2).
Proof.
  intros L Hnd Hp Hs Hq Ht.
  assert (p ∉ peers l1 ∧ p ∉ peers l2 ∧ NoDup (peers l1 ++ peers l2)) as (N1 & N2 & N3).
  { unfold L in *. rewrite peers_app, peers_cons in Hnd, Ht. destruct Ht as [[E1 <-]|[E1 Hn]]; rewrite E1 in *.
    - rewrite <-Permutation_middle in Hnd. apply NoDup_cons in Hnd as [Hn Hnd]. set_solver.
    - set_solver. }
  assert (NoDup (peers (l1 ++ t' :: l2))) as Hnd'.
  { rewrite peers_app, peers_cons, Hp, Hq, <-Permutation_middle. apply NoDup_cons. set_solver. }
  assert (∀ q, q ∈ peers (l1 ++ t' :: l2) ↔ q = p ∨ q ∈ peers L) as Hpe.
  { intros q. unfold L. rewrite !peers_app, !peers_cons, Hp, Hq. destruct Ht as [[-> <-]|[-> Hn]]; set_solver. }
  split; [by unfold L; rewrite !length_app|done| |done| | |].
  - unfold L. rewrite !unseen_app, !unseen_cons, Hp, Hs, list.filter_app, (unseen_other l1 p N1). f_equal. cbn [negb andb].
    destruct Ht as [[-> <-]|[-> Hn]]; cbn [andb].
    + destruct (t_seen t); cbn [negb]; rewrite ?filter_cons_False by (intros Hx; by apply Hx); by rewrite unseen_other.
    + by rewrite unseen_other.
  - intros q Hqp. apply option_eq. intros x. rewrite !tracked_Some by done. unfold L.
    rewrite !elem_of_app, !elem_of_cons. destruct Ht as [[Hpt Hqt]|[Hpt _]]; naive_solver congruence.
  - apply tracked_Some; [done|]. rewrite elem_of_app, elem_of_cons. tauto.
  - unfold free_slots, L. rewrite !list.filter_app, !filter_cons, !length_app. rewrite (decide_False (P:=t_present t' = false)) by congruence.
    destruct Ht as [[Hpt Hqt]|[Hpt Hn]].
    + rewrite (decide_False (P:=t_present t = false)) by congruence. rewrite decide_True; [lia|].
      rewrite peers_app, peers_cons, Hpt, Hqt. set_solver.
    + rewrite (decide_True (P:=t_present t = false)) by done. rewrite decide_False by done. cbn [length]. lia.
Qed.

(** The table after a client, with room for it. *)
Lemma poll_client_table now ui c :
  rings_ok ui → NoDup (peers (u_trk ui)) → (length (sc_peer c) < 64)%nat →
  sc_peer c ∈ peers (u_trk ui) ∨ (0 < free_slots (u_trk ui))%nat →
  ∃ t', tracked_in (u_trk ui) (sc_peer c) t' (u_trk (poll_client now ui c)) ∧ agrees c t' ∧
    logged (if decide (sc_peer c ∈ peers (u_trk ui)) then [] else [greeting now (sc_peer c)])
      (match tracked (u_trk ui) (sc_peer c) with Some t => finished now c t | None => [] end)
      ui (poll_client now ui c).
Proof.
  intros Hr Hnd Hlen Hroom. destruct (trk_find_room _ _ Hroom) as [[i t0] Hf].
  destruct (poll_client_step now ui c i t0 Hr Hf) as (t' & Et & Hpe & Hag & Hl).
  destruct (trk_find_split _ _ _ _ Hf) as (l1 & t & l2 & EL & -> & Hcase).
  assert (bprintf 64 (sc_peer c) = sc_peer c) as Eb by (unfold bprintf; apply take_ge; lia).
  exists t'. rewrite Et, EL, <-(Nat.add_0_r (length l1)), insert_app_r. cbn [insert list_insert]. rewrite EL in Hnd.
  split_and!; [|done|].
  - apply put_tracked; [done|apply Hag|apply Hag| |].
    + rewrite Hpe. destruct Hcase as [(_ & <- & -> & _)|(_ & -> & _)]; [done|]. exact Eb.
    + rewrite EL in Hcase. destruct Hcase as [(? & ? & _)|(? & _ & ?)]; auto.
  - rewrite <-EL. destruct Hcase as [(Hp & Hq & -> & Htr)|(Hp & -> & Hn)].
    + rewrite decide_True; [by rewrite Htr, Hp in *|]. rewrite EL, peers_app, peers_cons, Hp, Hq. set_solver.
    + rewrite decide_False by done. rewrite (proj2 (tracked_None _ _) Hn).
      unfold finished in Hl. cbn in Hl. by rewrite andb_false_r in Hl.
Qed.

(** The peers of the snapshot that are new, and the transfers that are over. *)
Definition new_peers (L : list opftp_ui_trk) (cs : list opftp_snapshot_client) : list bytes :=
  filter (λ p, p ∉ peers L) (sc_peer <$> cs).
Definition all_finished (now_us : Z) (L : list opftp_ui_trk) (cs : list opftp_snapshot_client) : list opftp_ui_hist :=
  concat ((λ c, match tracked L (sc_peer c) with Some t => finished now_us c t | None => [] end) <$> cs).

Record polled (now_us : Z) (cs : list opftp_snapshot_client) (ui ui' : opftp_ui) : Prop := mk_polled {
  po_length : length (u_trk ui') = length (u_trk ui);
  po_nodup : NoDup (peers (u_trk ui'));
  po_unseen : unseen (u_trk ui') = filter (λ x, t_peer x ∉ sc_peer <$> cs) (unseen (u_trk ui));
  po_peers q : q ∈ peers (u_trk ui') ↔ q ∈ sc_peer <$> cs ∨ q ∈ peers (u_trk ui);
  po_other q : q ∉ sc_peer <$> cs → tracked (u_trk ui') q = tracked (u_trk ui) q;
  po_agrees c : c ∈ cs → ∃ t, tracked (u_trk ui') (sc_peer c) = Some t ∧ agrees c t;
  po_logged : logged (greeting now_us <$> new_peers (u_trk ui) cs) (all_finished now_us (u_trk ui) cs) ui ui'
}.

Lemma new_peers_step L L1 p cs :
  (∀ q, q ∈ peers L1 ↔ q = p ∨ q ∈ peers L) → p ∉ sc_peer <$> cs → new_peers L1 cs = new_peers L cs.
Proof.
  intros Hp Hn. unfold new_peers. induction (sc_peer <$> cs) as [|q l IH]; [done|].
  rewrite !filter_cons. rewrite IH by set_solver.
  assert (q ∉ peers L1 ↔ q ∉ peers L) as Hq by (rewrite Hp; set_solver).
  repeat case_decide; naive_solver.
Qed.

Lemma all_finished_step now L L1 p cs :
  (∀ q, q ≠ p → tracked L1 q = tracked L q) → p ∉ sc_peer <$> cs → all_finished now L1 cs = all_finished now L cs.
Proof.
  intros Ht Hn. unfold all_finished. f_equal. apply list_fmap_ext. intros i c Hc.
  rewrite Ht; [done|]. intros <-. apply Hn, list_elem_of_fmap_2. by eapply list_elem_of_lookup_2.
Qed.

Lemma poll_clients now cs : ∀ ui,
  rings_ok ui → NoDup (peers (u_trk ui)) → NoDup (sc_peer <$> cs) → Forall (λ c, (length (sc_peer c) < 64)%nat) cs →
  (length (new_peers (u_trk ui) cs) ≤ free_slots (u_trk ui))%nat →
  polled now cs ui (foldl (poll_client now) ui cs).
Proof.
  induction cs as [|c cs IH]; intros ui Hr Hnd Hcs Hlen Hroom.
  - cbn [foldl]. split; try done.
    + clear. induction (unseen (u_trk ui)) as [|x l IHl]; [done|]. rewrite filter_cons_True by set_solver. by f_equal.
    + set_solver.
    + set_solver.
    + by apply logged_nil.
  - cbn [fmap list_fmap] in Hcs. apply NoDup_cons in Hcs as [Hc Hcs]. apply Forall_cons in Hlen as [Hl Hlen].
    unfold new_peers in Hroom. cbn [fmap list_fmap] in Hroom. rewrite filter_cons in Hroom.
    destruct (poll_client_table now ui c Hr Hnd Hl) as (t' & Hti & Hag & Hlg).
    { destruct (decide (sc_peer c ∈ peers (u_trk ui))); [by left|right].
      rewrite decide_True in Hroom by done. cbn in Hroom. lia. }
    set (ui1 := poll_client now ui c) in *. destruct Hti as [T1 T2 T3 T4 T5 T6 T7].
    assert (new_peers (u_trk ui1) cs = new_peers (u_trk ui) cs) as En by (by eapply new_peers_step).
    assert (polled now cs ui1 (foldl (poll_client now) ui1 cs)) as [P1 P2 P3 P4 P5 P6 P7].
    { apply IH; [apply Hlg|done|done|done|]. rewrite En. unfold new_peers.
      destruct (decide (sc_peer c ∈ peers (u_trk ui))) as [Hin|Hin];
        [rewrite decide_False in Hroom by naive_solver|rewrite decide_True in Hroom by done];
        cbn [length] in Hroom; lia. }
    cbn [foldl]. fold ui1. split; [congruence|done| | | | |].
    + rewrite P3, T3, list_filter_filter. apply list_filter_iff. intros x. cbn [fmap list_fmap]. set_solver.
    + intros q. rewrite P4, T4. cbn [fmap list_fmap]. set_solver.
    + intros q Hq. cbn [fmap list_fmap] in Hq. rewrite P5, T5; set_solver.
    + intros c' [->|Hc']%elem_of_cons; [|by apply P6]. exists t'. rewrite P5 by done. done.
    + rewrite (all_finished_step now (u_trk ui) (u_trk ui1) (sc_peer c)) in P7 by done. rewrite En in P7.
      pose proof (logged_trans _ _ _ _ _ _ _ Hlg P7) as Hall.
      unfold all_finished, new_peers. cbn [fmap list_fmap concat]. rewrite filter_cons.
      destruct (decide (sc_peer c ∈ peers (u_trk ui))) as [Hin|Hin];
        [by rewrite decide_False by naive_solver|by rewrite decide_True by done].
Qed.

(** The slots of clients that are gone. *)
Definition farewell (now_us : Z) (t : opftp_ui_trk) : opftp_ui_ev :=
  mk_event (disconnected_text (t_peer t)) true now_us.
Definition broken (now_us : Z) (t : opftp_ui_trk) : list opftp_ui_hist :=
  if t_xfer_active t
  then [mk_entry (t_xfer_op t) (t_xfer_path t) (t_xfer_bytes t) (t_xfer_total t) OPFTP_UI_H_ERROR now_us]
  else [].
Definition forget (t : opftp_ui_trk) : opftp_ui_trk := if negb (t_present t) || t_seen t then t else trk0.

Lemma poll_gone_step now ui l1 t l2 :
  rings_ok ui → u_trk ui = l1 ++ t :: l2 →
  u_trk (poll_gone now ui (length l1)) = l1 ++ forget t :: l2 ∧
  logged (farewell now <$> unseen [t]) (concat (broken now <$> unseen [t])) ui (poll_gone now ui (length l1)).
Proof.
  intros Hr EL. unfold poll_gone, forget. rewrite EL, list_lookup_middle by done.
  rewrite unseen_cons. destruct (negb (t_present t) || t_seen t) eqn:Eg.
  - assert (t_present t && negb (t_seen t) = false) as -> by (by destruct (t_present t), (t_seen t)).
    split; [done|]. by apply logged_nil.
  - assert (t_present t && negb (t_seen t) = true) as -> by (by destruct (t_present t), (t_seen t)).
    cbn [fmap list_fmap unseen concat]. rewrite app_nil_r.
    pose proof (ev_push_logged (disconnected_text (t_peer t)) true now ui Hr) as Hl.
    set (ui1 := ev_push _ true now ui) in *. assert (u_trk ui1 = u_trk ui) as E1 by done. clearbody ui1.
    unfold broken. destruct (t_xfer_active t); cbv zeta; 
      (split; [cbn; rewrite E1, EL, <-(Nat.add_0_r (length l1)), insert_app_r; done|]);
      apply trk_logged; [|exact Hl].
    rewrite <-(app_nil_l [mk_entry _ _ _ _ _ _]), <-(app_nil_r [farewell _ _]). eapply logged_trans; [exact Hl|].
    apply hist_push_logged, Hl.
Qed.

Lemma poll_gone_all now l2 : ∀ l1 ui,
  rings_ok ui → u_trk ui = l1 ++ l2 →
  let ui' := foldl (poll_gone now) ui (seq (length l1) (length l2)) in
  u_trk ui' = l1 ++ (forget <$> l2) ∧
  logged (farewell now <$> unseen l2) (concat (broken now <$> unseen l2)) ui ui'.
Proof.
  induction l2 as [|t l2 IH]; intros l1 ui Hr EL; cbn zeta; cbn [length seq foldl].
  { split; [done|]. by apply logged_nil. }
  destruct (poll_gone_step now ui l1 t l2 Hr EL) as [E1 L1].
  destruct (IH (l1 ++ [forget t]) (poll_gone now ui (length l1))) as [E2 L2]; [apply L1|by rewrite <-app_assoc|].
  rewrite length_app in E2, L2. cbn [length] in E2, L2. rewrite Nat.add_1_r in E2, L2.
  split; [by rewrite E2, <-app_assoc|].
  change (t :: l2) with ([t] ++ l2). rewrite unseen_app, !fmap_app, concat_app. by eapply logged_trans.
Qed.

(** ** The table before and after a poll *)

Definition unsee (L : list opftp_ui_trk) : list opftp_ui_trk := (λ t, t <| t_seen := false |>) <$> L.

Lemma poll_unfold now ui :
  opftp_ui_poll now ui =
  foldl (poll_gone now) (foldl (poll_client now) (ui <| u_trk := unsee (u_trk ui) |>) (snap_list (u_snap ui)))
    (seq 0 OPFTP_UI_MAX_TRACK).
Proof. unfold opftp_ui_poll, unsee. reflexivity. Qed.

Lemma unsee_peers L : peers (unsee L) = peers L.
Proof.
  unfold unsee. induction L as [|t L IH]; [done|]. cbn [fmap list_fmap]. rewrite !peers_cons. cbn.
  rewrite IH. by destruct (t_present t).
Qed.

Lemma unsee_unseen L : unseen (unsee L) = (λ t, t <| t_seen := false |>) <$> present L.
Proof.
  unfold unsee, present. induction L as [|t L IH]; [done|]. cbn [fmap list_fmap]. rewrite unseen_cons, filter_cons, IH. cbn.
  rewrite andb_true_r. by destruct (t_present t).
Qed.

Lemma free_peers L : (free_slots L + length (peers L) = length L)%nat.
Proof.
  unfold free_slots. induction L as [|t L IH]; [done|]. rewrite peers_cons, filter_cons.
  destruct (t_present t); [rewrite decide_False by done|rewrite decide_True by done]; cbn [length]; lia.
Qed.

Lemma unsee_free L : free_slots (unsee L) = free_slots L.
Proof.
  pose proof (free_peers L) as H1. pose proof (free_peers (unsee L)) as H2. rewrite unsee_peers in H2.
  assert (length (unsee L) = length L) by (unfold unsee; by rewrite length_fmap). lia.
Qed.

Lemma tracked_unsee L q : tracked (unsee L) q = (λ t, t <| t_seen := false |>) <$> tracked L q.
Proof.
  unfold tracked, unsee. rewrite list_find_fmap.
  change ((λ t, tracks q t = true) ∘ (λ t, t <| t_seen := false |>)) with (λ t, tracks q t = true).
  by destruct (list_find _ L) as [[i t]|].
Qed.

Lemma present_forget L : present (forget <$> L) = filter (λ t, t_seen t = true) (present L).
Proof.
  unfold present. induction L as [|t L IH]; [done|]. cbn [fmap list_fmap].
  destruct (t_present t) eqn:Ep; [destruct (t_seen t) eqn:Es|].
  - assert (forget t = t) as -> by (unfold forget; by rewrite Ep, Es). by rewrite !filter_cons_True, IH by done.
  - assert (forget t = trk0) as -> by (unfold forget; by rewrite Ep, Es).
    rewrite filter_cons_False, IH by done. rewrite (filter_cons_True _ t) by done. by rewrite filter_cons_False by congruence.
  - assert (forget t = t) as -> by (unfold forget; by rewrite Ep). by rewrite !filter_cons_False, IH by congruence.
Qed.

Lemma peers_forget L q :
  q ∈ peers (forget <$> L) ↔ ∃ t, t ∈ L ∧ t_present t = true ∧ t_seen t = true ∧ t_peer t = q.
Proof.
  unfold peers. rewrite present_forget, list_elem_of_fmap. split.
  - intros (t & -> & [Hs [Hp Hin]%list_elem_of_filter]%list_elem_of_filter). eauto.
  - intros (t & Hin & Hp & Hs & <-). exists t. split; [done|]. apply list_elem_of_filter. split; [done|].
    by apply list_elem_of_filter.
Qed.

Lemma nodup_forget L : NoDup (peers L) → NoDup (peers (forget <$> L)).
Proof.
  unfold peers. rewrite present_forget. induction (present L) as [|t l IH]; [done|]. cbn [fmap list_fmap].
  intros [Hn Hnd]%NoDup_cons. rewrite filter_cons. case_decide; [|by apply IH]. cbn [fmap list_fmap]. apply NoDup_cons.
  split; [|by apply IH]. intros (x & Ex & [_ Hx]%list_elem_of_filter)%list_elem_of_fmap. apply Hn. rewrite Ex.
  by apply list_elem_of_fmap_2.
Qed.

Lemma tracked_forget L q t : NoDup (peers L) → tracked L q = Some t → t_seen t = true → tracked (forget <$> L) q = Some t.
Proof.
  intros Hnd Ht Hs. apply tracked_Some in Ht as (Hin & Hp & Hq); [|done].
  apply tracked_Some; [by apply nodup_forget|]. split; [|done]. apply list_elem_of_fmap. exists t. split; [|done].
  unfold forget. by rewrite Hp, Hs.
Qed.

(** The flag cleared at the start of a poll matters to no entry. *)
Lemma cleared_logs {C} (f : opftp_ui_trk → C) (P : opftp_ui_trk → Prop) `{!∀ t, Decision (P t)} (l : list opftp_ui_trk) :
  (∀ t, f (t <| t_seen := false |>) = f t) → (∀ t, P (t <| t_seen := false |>) ↔ P t) →
  f <$> filter P ((λ t, t <| t_seen := false |>) <$> l) = f <$> filter P l.
Proof.
  intros Hf HP. induction l as [|t l IH]; [done|]. cbn [fmap list_fmap]. rewrite !filter_cons.
  destruct (decide (P t)) as [Ht|Ht].
  - rewrite decide_True by (by apply HP). cbn [fmap list_fmap]. by rewrite Hf, IH.
  - rewrite decide_False by (by rewrite HP). exact IH.
Qed.

Lemma unsee_new L cs : new_peers (unsee L) cs = new_peers L cs.
Proof. unfold new_peers. by rewrite unsee_peers. Qed.

Lemma unsee_finished now L cs : all_finished now (unsee L) cs = all_finished now L cs.
Proof.
  unfold all_finished. f_equal. apply list_fmap_ext. intros i c _. rewrite tracked_unsee. by destruct (tracked L _).
Qed.

(** Who is tracked at the end. *)
Lemma polled_peers now cs ui ui1 L :
  u_trk ui = unsee L → NoDup (peers L) → polled now cs ui ui1 →
  ∀ p, p ∈ peers (forget <$> u_trk ui1) ↔ p ∈ sc_peer <$> cs.
Proof.
  intros EL Hnd [P1 P2 P3 P4 P5 P6 P7] p. rewrite peers_forget. split.
  - intros (t & Hin & Hp & Hs & <-). destruct (decide (t_peer t ∈ sc_peer <$> cs)) as [?|Hn]; [done|exfalso].
    assert (tracked (u_trk ui1) (t_peer t) = Some t) as Ht by (by apply tracked_Some).
    rewrite P5, EL, tracked_unsee in Ht by done. apply fmap_Some in Ht as (t0 & _ & ->). done.
  - intros (c & -> & Hc)%list_elem_of_fmap. destruct (P6 c Hc) as (t & Ht & Hag).
    apply tracked_Some in Ht as (Hin & Hp & Hq); [|done]. exists t. split_and!; try done. apply Hag.
Qed.

(** The state of the model is consistent. *)
Record ui_ok (ui : opftp_ui) : Prop := mk_ui_ok {
  uo_rings : rings_ok ui;
  uo_length : length (u_trk ui) = OPFTP_UI_MAX_TRACK;
  uo_peers : NoDup (peers (u_trk ui))
}.

(** C29. A poll of the status model is exact. With distinct peers in the
    snapshot and room for the new ones, the records are afterwards those of
    exactly the clients in the snapshot and say what it says of them; the
    event ring has one connect event per new peer and one disconnect event per
    vanished one in front of what it had; the history has one entry per
    transfer that ended or whose client vanished, and the session counters
    grew by their number and bytes. *)
Theorem ui_poll_exact (now_us : Z) (ui : opftp_ui) :
  let cs := snap_list (u_snap ui) in
  let L := u_trk ui in
  let ui' := opftp_ui_poll now_us ui in
  let gone := filter (λ t, t_peer t ∉ sc_peer <$> cs) (present L) in
  let hs := all_finished now_us L cs ++ concat (broken now_us <$> gone) in
  ui_ok ui → NoDup (sc_peer <$> cs) → Forall (λ c, (length (sc_peer c) < 64)%nat) cs →
  (length (peers L) + length (new_peers L cs) ≤ OPFTP_UI_MAX_TRACK)%nat →
  ui_ok ui' ∧ (∀ p, p ∈ peers (u_trk ui') ↔ p ∈ sc_peer <$> cs) ∧
  (∀ c, c ∈ cs → ∃ t, tracked (u_trk ui') (sc_peer c) = Some t ∧ agrees c t) ∧
  events_view ui' = take OPFTP_UI_MAX_EVENTS
    (reverse ((greeting now_us <$> new_peers L cs) ++ (farewell now_us <$> gone)) ++ events_view ui) ∧
  hist_view ui' = take OPFTP_UI_MAX_HIST (reverse hs ++ hist_view ui) ∧
  u64 (u_session_xfers ui') = u64 (u_session_xfers ui + Z.of_nat (length hs)) ∧
  u64 (u_session_bytes ui') = u64 (u_session_bytes ui + sum_bytes hs).
Proof.
  intros cs L ui' gone hs [Hr Hlen Hnd] Hcs Hshort Hroom.
  set (ui0 := ui <| u_trk := unsee L |>).
  assert (polled now_us cs ui0 (foldl (poll_client now_us) ui0 cs)) as HP.
  { apply poll_clients; try done; [change (u_trk ui0) with (unsee L); by rewrite unsee_peers|].
    change (u_trk ui0) with (unsee L). unfold new_peers. rewrite unsee_peers, unsee_free.
    fold (new_peers L cs). pose proof (free_peers L). unfold L in *. lia. }
  set (ui1 := foldl (poll_client now_us) ui0 cs) in *.
  pose proof (poll_unfold now_us ui) as Eu. fold cs L ui0 ui1 ui' in Eu. clearbody ui1 ui'. pose proof HP as [P1 P2 P3 P4 P5 P6 P7].
  destruct (poll_gone_all now_us (u_trk ui1) [] ui1 (lg_rings _ _ _ _ P7) eq_refl) as [E2 L2].
  rewrite P1 in E2, L2. assert (length (u_trk ui0) = OPFTP_UI_MAX_TRACK) as E0 by (cbn; unfold unsee; by rewrite length_fmap).
  rewrite E0 in E2, L2. change (length []) with 0%nat in E2, L2. rewrite <-Eu in E2, L2. rewrite app_nil_l in E2.
  assert (logged ((greeting now_us <$> new_peers L cs) ++ (farewell now_us <$> gone)) hs ui ui') as [G1 G2 G3 G4 G5 G6].
  { rewrite P3 in L2. change (u_trk ui0) with (unsee L) in L2, P7. rewrite unsee_unseen in L2.
    rewrite !cleared_logs in L2 by done. rewrite unsee_new, unsee_finished in P7.
    eapply logged_trans; [by apply (trk_logged_from _ _ ui ui1 (unsee L))|exact L2]. }
  assert (∀ p, p ∈ peers (u_trk ui') ↔ p ∈ sc_peer <$> cs) as Hpe by (rewrite E2; exact (polled_peers now_us cs ui0 ui1 L eq_refl Hnd HP)).
  split_and!; try done.
  - split; [done|rewrite E2, length_fmap; congruence|rewrite E2; by apply nodup_forget].
  - intros c Hc. destruct (P6 c Hc) as (t & Ht & Hag). exists t. split; [|done]. rewrite E2.
    apply tracked_forget; [done|done|apply Hag].
Qed.

(** ** Two clients of one host *)

(** A table that tracks one peer only, with a transfer. *)
Record only (ui : opftp_ui) (p : bytes) : Prop := mk_only {
  on_rings : rings_ok ui;
  on_length : length (u_trk ui) = OPFTP_UI_MAX_TRACK;
  on_peers q : q ∈ peers (u_trk ui) ↔ q = p;
  on_nodup : NoDup (peers (u_trk ui));
  on_active : ∃ t, tracked (u_trk ui) p = Some t ∧ t_xfer_active t = true
}.

Lemma shared_poll now ui a b :
  only ui (sc_peer a) → (length (sc_peer a) < 64)%nat → sc_peer b = sc_peer a →
  sc_xfer_active a = false → sc_xfer_active b = true → snap_list (u_snap ui) = [a; b] →
  let ui' := opftp_ui_poll now ui in
  only ui' (sc_peer a) ∧ u_snap ui' = u_snap ui ∧ u64 (u_session_xfers ui') = u64 (u_session_xfers ui + 1).
Proof.
  intros [Hr Hlen Hp Hnd (t & Ht & Hact)] Hsh Eab Ha Hb Hs ui'. pose proof (poll_unfold now ui) as Eu. fold ui' in Eu.
  rewrite Hs in Eu. cbn [foldl] in Eu. set (ui0 := ui <| u_trk := unsee (u_trk ui) |>) in Eu. clearbody ui'.
  assert (u_trk ui0 = unsee (u_trk ui)) as Et0 by done.
  assert (∀ q, q ∈ peers (u_trk ui0) ↔ q = sc_peer a) as Hp0 by (intros q; rewrite Et0, unsee_peers; apply Hp).
  assert (NoDup (peers (u_trk ui0))) as Hnd0 by (by rewrite Et0, unsee_peers).
  assert (tracked (u_trk ui0) (sc_peer a) = Some (t <| t_seen := false |>)) as Ht0 by (by rewrite Et0, tracked_unsee, Ht).
  assert (length (u_trk ui0) = OPFTP_UI_MAX_TRACK) as Hl0 by (rewrite Et0; unfold unsee; by rewrite length_fmap).
  assert (rings_ok ui0) as Hr0 by done.
  assert (u_snap ui0 = u_snap ui ∧ u_session_xfers ui0 = u_session_xfers ui) as [Es0 Ex0] by done. clearbody ui0.
  destruct (poll_client_table now ui0 a Hr0 Hnd0 Hsh) as (ta & [A1 A2 A3 A4 A5 A6 A7] & Hga & La); [by left; apply Hp0|].
  rewrite decide_True, Ht0 in La by (by apply Hp0). set (ui1 := poll_client now ui0 a) in *. clearbody ui1.
  assert (∀ q, q ∈ peers (u_trk ui1) ↔ q = sc_peer a) as Hp1 by (intros q; rewrite A4, Hp0; tauto).
  destruct (poll_client_table now ui1 b (lg_rings _ _ _ _ La) A2) as (tb & [B1 B2 B3 B4 B5 B6 B7] & Hgb & Lb);
    [by rewrite Eab|left; by apply Hp1|].
  rewrite decide_True in Lb by (by apply Hp1). rewrite Eab, A6 in Lb. set (ui2 := poll_client now ui1 b) in *. clearbody ui2.
  assert (∀ q, q ∈ peers (u_trk ui2) ↔ q = sc_peer a) as Hp2 by (intros q; rewrite B4, Hp1, Eab; tauto).
  assert (unseen (u_trk ui2) = []) as Hun.
  { rewrite B3, A3. apply elem_of_nil_inv. intros x [Hx1 [Hx2 Hx3]%list_elem_of_filter]%list_elem_of_filter.
    apply unseen_present in Hx3 as [_ Hx3%Hp0]. done. }
  destruct (poll_gone_all now (u_trk ui2) [] ui2 (lg_rings _ _ _ _ Lb) eq_refl) as [E3 L3].
  rewrite B1, A1, Hl0 in E3, L3. change (length []) with 0%nat in E3, L3. rewrite <-Eu in E3, L3. rewrite Hun in L3.
  rewrite app_nil_l in E3. pose proof (logged_trans _ _ _ _ _ _ _ La (logged_trans _ _ _ _ _ _ _ Lb L3)) as [G1 G2 G3 G4 G5 G6].
  split_and!; [|congruence|].
  - split; [done|rewrite E3, length_fmap; congruence| |rewrite E3; by apply nodup_forget|].
    + intros q. rewrite E3, peers_forget. split.
      * intros (x & Hx & Hxp & _ & <-). apply Hp2. apply list_elem_of_fmap. exists x. split; [done|]. by apply list_elem_of_filter.
      * intros ->. rewrite Eab in B6. apply tracked_Some in B6 as (X1 & X2 & X3); [|done]. exists tb. split_and!; try done. apply Hgb.
    + exists tb. split; [|rewrite (ag_active _ _ Hgb); done]. rewrite E3. rewrite Eab in B6. apply tracked_forget; [done|done|apply Hgb].
  - rewrite G3, Ex0. f_equal. f_equal. unfold finished. rewrite Ha, Hb. cbn. by rewrite Hact.
Qed.

(** Two connections of one host share a tracking record, because the
    snapshot names a peer by its address without the port. While one of them
    transfers and the other is idle, every poll records a finished transfer
    that has not finished: after [n] polls the session counts [n] transfers
    more, and the record says one is still running. *)
Theorem shared_peer_false_history (nows : list Z) (ui : opftp_ui) (a b : opftp_snapshot_client) :
  only ui (sc_peer a) → (length (sc_peer a) < 64)%nat → sc_peer b = sc_peer a →
  sc_xfer_active a = false → sc_xfer_active b = true → snap_list (u_snap ui) = [a; b] →
  let ui' := foldl (λ ui now, opftp_ui_poll now ui) ui nows in
  u64 (u_session_xfers ui') = u64 (u_session_xfers ui + Z.of_nat (length nows)) ∧ only ui' (sc_peer a).
Proof.
  intros Ho Hsh Eab Ha Hb. revert ui Ho. induction nows as [|now nows IH]; intros ui Ho Hs; cbn zeta; cbn [foldl].
  { by rewrite Z.add_0_r. }
  destruct (shared_poll now ui a b Ho Hsh Eab Ha Hb Hs) as (O1 & S1 & X1).
  destruct (IH (opftp_ui_poll now ui) O1) as [X2 O2]; [by rewrite S1|]. split; [|done].
  rewrite X2, (u64_cong _ _ _ X1). f_equal. cbn [length]. lia.
Qed.

(** ** Witnesses *)

Definition host_a : opftp_snapshot_client :=
  mk_snap_client (B "192.168.1.50") (B "u") (B "/") true false [] [] 0 0.
Definition host_b : opftp_snapshot_client :=
  mk_snap_client (B "192.168.1.50") (B "u") (B "/") true true (B "RETR") (B "/f") 10 100.
Definition host_c : opftp_snapshot_client :=
  mk_snap_client (B "10.0.0.7") (B "v") (B "/") true true (B "STOR") (B "/g") 5 0.

Definition with_clients (l : list opftp_snapshot_client) (ui : opftp_ui) : opftp_ui :=
  ui <| u_snap := mk_snapshot true 21 (B "/") 4 (Z.of_nat (length l)) l |>.

Definition ui_start : opftp_ui := opftp_ui_init 1000000.

Lemma init_ok now : ui_ok (opftp_ui_init now).
Proof. split; [split; (split; [done|done|done])|done|apply NoDup_nil_2]. Qed.

(** One client comes while another is there. *)
Definition ui_one : opftp_ui := with_clients [host_b; host_c] (opftp_ui_poll 2000000 (with_clients [host_b] ui_start)).

Ltac ring_check :=
  split; [vm_compute; reflexivity
         |split; [apply Z.leb_le|apply Z.ltb_lt]; vm_compute; reflexivity
         |split; apply Z.leb_le; vm_compute; reflexivity].

Lemma ui_one_ok : ui_ok ui_one.
Proof.
  split; [split; ring_check|vm_compute; reflexivity|].
  apply (bool_decide_unpack _). by vm_compute.
Qed.

Lemma ui_poll_exact_witness :
  ui_ok (opftp_ui_poll 3000000 ui_one) ∧
  (∀ p, p ∈ peers (u_trk (opftp_ui_poll 3000000 ui_one)) ↔ p ∈ [B "192.168.1.50"; B "10.0.0.7"]).
Proof.
  pose proof (ui_poll_exact 3000000 ui_one ui_one_ok) as Hx. cbv zeta in Hx.
  destruct Hx as (H1 & H2 & _).
  - apply (bool_decide_unpack _). by vm_compute.
  - apply (bool_decide_unpack _). by vm_compute.
  - apply Nat.leb_le. by vm_compute.
  - split; [exact H1|exact H2].
Defined.

Definition ui_shared : opftp_ui := opftp_ui_poll 2000000 (with_clients [host_a; host_b] ui_start).

Lemma ui_shared_only : only ui_shared (sc_peer host_a).
Proof.
  assert (peers (u_trk ui_shared) = [sc_peer host_a]) as Ep by (vm_compute; reflexivity).
  split; [split; ring_check|vm_compute; reflexivity| | |].
  - intros q. rewrite Ep. apply list_elem_of_singleton.
  - rewrite Ep. apply NoDup_singleton.
  - eexists. split; vm_compute; reflexivity.
Qed.

Lemma shared_peer_false_history_witness :
  u64 (u_session_xfers (foldl (λ ui now, opftp_ui_poll now ui) ui_shared [3000000; 4000000; 5000000])) = 3.
Proof.
  rewrite (proj1 (shared_peer_false_history [3000000; 4000000; 5000000] ui_shared host_a host_b ui_shared_only
    ltac:(apply Nat.ltb_lt; by vm_compute) eq_refl eq_refl eq_refl eq_refl)). by vm_compute.
Defined.

(** ** Selection and scrolling *)

(** The selection stays on a row of its list, or is none when there is no row. *)
Lemma sel_move_in_range dir ui s :
  get_sel (opftp_ui_sel_move dir ui) = Some s →
  (sel_count ui ≤ 0 ∧ s = -1) ∨ 0 ≤ s < sel_count ui.
Proof.
  assert (∀ z, get_sel (set_sel z ui) = Some s → s = z) as Hset.
  { intros z. unfold set_sel, get_sel.
    destruct (u_view ui =? OPFTP_UI_V_STATUS) eqn:E1; [cbn; rewrite E1; congruence|].
    destruct (u_view ui =? OPFTP_UI_V_TRANSFERS) eqn:E2; [cbn; rewrite E1, E2; congruence|].
    destruct (u_view ui =? OPFTP_UI_V_CLIENTS) eqn:E3; [cbn; rewrite E1, E2, E3; congruence|].
    destruct (u_view ui =? OPFTP_UI_V_SETTINGS) eqn:E4; [cbn; rewrite E1, E2, E3, E4; congruence|].
    by rewrite E1, E2, E3, E4. }
  unfold opftp_ui_sel_move. destruct (get_sel ui) as [s0|] eqn:Es; [|congruence].
  destruct (Z.leb_spec (sel_count ui) 0); intros ->%Hset; [by left|right].
  destruct (Z.ltb_spec (s0 + dir) 0); case_match; lia.
Qed.

(** The window of a list: inside the list, and around the selected row. *)
Lemma clamp_scroll_window sel scroll visible total :
  0 < visible → 0 ≤ total →
  let r := opftp_ui_clamp_scroll sel scroll visible total in
  0 ≤ r ≤ Z.max 0 (total - visible) ∧ (0 ≤ sel < total → r ≤ sel < r + visible).
Proof.
  intros Hv Ht. unfold opftp_ui_clamp_scroll. cbv zeta.
  remember (if sel <? 0 then 0 else sel) as s1 eqn:E1.
  assert (s1 = Z.max 0 sel) as -> by (destruct (Z.ltb_spec sel 0); lia).
  remember (if total <=? _ then _ else _) as s2 eqn:E2.
  assert (s2 = Z.min (total - 1) (Z.max 0 sel)) as -> by (destruct (Z.leb_spec total (Z.max 0 sel)); lia).
  remember (if _ <? scroll then _ else scroll) as r1 eqn:E3.
  assert (r1 = Z.min scroll (Z.min (total - 1) (Z.max 0 sel))) as ->
    by (destruct (Z.ltb_spec (Z.min (total - 1) (Z.max 0 sel)) scroll); lia).
  set (s := Z.min (total - 1) (Z.max 0 sel)).
  remember (if _ + visible <=? s then _ else _) as r2 eqn:E4.
  assert (r2 = Z.max (Z.min scroll s) (s - visible + 1)) as -> by (destruct (Z.leb_spec (Z.min scroll s + visible) s); lia).
  remember (if total - visible <? _ then _ else _) as r3 eqn:E5.
  assert (r3 = Z.min (total - visible) (Z.max (Z.min scroll s) (s - visible + 1))) as ->
    by (destruct (Z.ltb_spec (total - visible) (Z.max (Z.min scroll s) (s - visible + 1))); lia).
  destruct (Z.ltb_spec (Z.min (total - visible) (Z.max (Z.min scroll s) (s - visible + 1))) 0); unfold s in *; lia.
Qed.

(** The row of the status view is mapped to the client it shows. *)
Lemma find_active_spec l : ∀ idx i k,
  k ≤ idx →
  match filter (λ c, sc_xfer_active c = true) l !! Z.to_nat (idx - k) with
  | Some c => i ≤ find_active l idx i k ∧ l !! Z.to_nat (find_active l idx i k - i) = Some c
  | None => find_active l idx i k = -1
  end.
Proof.
  induction l as [|c l IH]; intros idx i k Hk; [done|]. cbn [find_active]. rewrite filter_cons.
  destruct (sc_xfer_active c) eqn:Ea; [rewrite decide_True by done|rewrite decide_False by done].
  - destruct (Z.eqb_spec k idx) as [->|Hne].
    + rewrite !Z.sub_diag. cbn. split; [lia|done].
    + replace (Z.to_nat (idx - k)) with (S (Z.to_nat (idx - (k + 1)))) by lia.
      specialize (IH idx (i + 1) (k + 1) ltac:(lia)). set (F := filter _ l) in *.
      change ((c :: F) !! S (Z.to_nat (idx - (k + 1)))) with (F !! Z.to_nat (idx - (k + 1))).
      destruct (F !! Z.to_nat (idx - (k + 1))); [|done].
      destruct IH as [H1 H2]. split; [lia|].
      replace (Z.to_nat (find_active l idx (i + 1) (k + 1) - i)) with (S (Z.to_nat (find_active l idx (i + 1) (k + 1) - (i + 1)))) by lia.
      exact H2.
  - specialize (IH idx (i + 1) k Hk). destruct (_ !! Z.to_nat (idx - k)); [|done].
    destruct IH as [H1 H2]. split; [lia|].
    replace (Z.to_nat (find_active l idx (i + 1) k - i)) with (S (Z.to_nat (find_active l idx (i + 1) k - (i + 1)))) by lia.
    exact H2.
Qed.

(** ** Text input *)

Definition edit_ok (ui : opftp_ui) : Prop :=
  u_edit_len ui = Z.of_nat (length (u_edit_buf ui)) ∧ (length (u_edit_buf ui) < OPFTP_UI_EDIT_MAX)%nat.

(** One character: a byte that is no continuation byte, then continuation bytes. *)
Definition utf8_char (u : bytes) : Prop :=
  match u with c :: l => is_cont c = false ∧ Forall (λ x, is_cont x = true) l | [] => False end.

Lemma back_to_char buf c l : ∀ m,
  is_cont c = false → Forall (λ x, is_cont x = true) l → (m ≤ length l)%nat →
  back_to (buf ++ c :: l) (length buf + m) = length buf.
Proof.
  intros m Hc Hl. induction m as [|m IH]; intros Hm.
  - rewrite Nat.add_0_r. destruct (length buf) as [|n] eqn:En; [done|]. cbn [back_to].
    rewrite <-En, list_lookup_middle by done. by rewrite Hc.
  - rewrite Nat.add_succ_r. cbn [back_to]. rewrite lookup_app_r by lia.
    replace (S (length buf + m) - length buf)%nat with (S m) by lia.
    change ((c :: l) !! S m) with (l !! m).
    destruct (lookup_lt_is_Some_2 l m) as [x Hx]; [lia|]. rewrite Hx.
    rewrite Forall_forall in Hl. rewrite Hl by (by eapply list_elem_of_lookup_2). apply IH. lia.
Qed.

(** Typing keeps the text within its buffer, and a backspace takes back
    exactly the character that was typed, however many bytes it has. *)
Theorem edit_type_backspace (u : bytes) (ui ui' : opftp_ui) :
  edit_ok ui → utf8_char u → opftp_ui_edit_type u ui = (Ok (), ui') → edit_ok ui' ∧ opftp_ui_edit_backspace ui' = ui.
Proof.
  intros [El Hl] Hu. unfold opftp_ui_edit_type.
  destruct (Z.eqb_spec (u_edit_field ui) OPFTP_UI_EDIT_NONE) as [|Hf]; [done|].
  destruct (Z.leb_spec (Z.of_nat OPFTP_UI_EDIT_MAX) (u_edit_len ui + Z.of_nat (length u))) as [|Hs]; [done|].
  intros [= <-]. rewrite El, Nat2Z.id, firstn_all.
  destruct u as [|c l]; [done|]. destruct Hu as [Hc Hcs].
  split; [split; cbn; rewrite length_app; cbn [length] in *; lia|].
  unfold opftp_ui_edit_backspace. destruct ui. cbn in *. rewrite (proj2 (Z.eqb_neq _ _) Hf).
  destruct (Z.leb_spec (Z.of_nat (length u_edit_buf0) + Z.of_nat (S (length l))) 0); [lia|]. cbn [orb].
  replace (Z.to_nat _) with (length u_edit_buf0 + length l)%nat by lia.
  rewrite back_to_char by done. by rewrite take_app_length, El.
Qed.

(** ** Printing *)

Example size_text : opftp_ui_fmt_size 24 1536 = B "1.5 KB" ∧ opftp_ui_fmt_size 24 1023 = B "1023 B" ∧
  opftp_ui_fmt_size 24 (2 ^ 30 * 3 + 2 ^ 27) = B "3.1 GB".
Proof. vm_compute. done. Qed.

Example rate_text : opftp_ui_fmt_rate 24 (d_of_Z 999) = B "999 B/s" ∧ opftp_ui_fmt_rate 24 (d_of_Z 1048576) = B "1.0 MB/s".
Proof. vm_compute. done. Qed.

Example dur_text : opftp_ui_fmt_dur 24 3661 = B "01:01:01" ∧ opftp_ui_fmt_idle 24 75 = B "01:15".
Proof. vm_compute. done. Qed.

End Ui.
