(* ===== verification/Canvas.v ===== *)
(** * The drawing primitives of app/tui.c: the cell canvas

    The screen is an array of [scr_rows * scr_cols] cells; every view draws
    into it with the functions below. A drawing is a function on the array
    that is [None] when the code would touch memory outside of the canvas, or
    read a string past its end. The two sizes are set once, at the start. *)

From S2P Require Import Prelude CLib.
Import CLib.

Local Open Scope Z_scope.

Module Canvas.

(** [cell_t]; colours are 24-bit numbers, 0 is none. *)
Record cell := mk_cell { c_fg : Z; c_bg : Z; c_s : bytes }.
Definition cell0 : cell := mk_cell 0 0 [].

Abbreviation draw := (list cell → option (list cell)).

Definition nothing : draw := Some.
Definition seq_draw (d1 d2 : draw) : draw := λ s, s' ← d1 s; d2 s'.
Declare Scope draw_scope.
Delimit Scope draw_scope with draw.
Notation "a ;; b" := (seq_draw a b) (at level 100, b at level 200, right associativity) : draw_scope.

(** A drawing that needs a value which may not be there. *)
Definition with_value {A} (o : option A) (k : A → draw) : draw := λ s, x ← o; k x s.

(** A loop over a list of indices. *)
Fixpoint for_each {A} (l : list A) (body : A → draw) : draw :=
  match l with
  | [] => nothing
  | x :: l' => seq_draw (body x) (for_each l' body)
  end.

(** [for (c = a; c <= b; c++)]. *)
Definition range (a b : Z) : list Z := (λ i, a + Z.of_nat i) <$> seq 0 (Z.to_nat (b - a + 1)).

(** ** Characters *)

(** The length of a character by its first byte. *)
Definition ulen (c : ascii) : nat :=
  if cv c <? 128 then 1 else if cv c <? 224 then 2 else if cv c <? 240 then 3 else 4.

(** [uw]: the width of a string; [None] when a truncated character at its end
    leads past the terminator. *)
Fixpoint uw_loop (fuel : nat) (s : bytes) (n : Z) : option Z :=
  match s, fuel with
  | [], _ => Some n
  | _, O => None
  | c :: _, S f => if (length s <? ulen c)%nat then None else uw_loop f (drop (ulen c) s) (n + 1)
  end.
Definition uw (s : bytes) : option Z := uw_loop (length s) s 0.

(** [t_trunc]: the loop, with what was copied and its width. *)
Fixpoint trunc_loop (fuel : nat) (n : Z) (maxchars : Z) (p out : bytes) (w : Z) : option (bytes * bytes) :=
  match p with
  | [] => Some (out, p)
  | c :: _ =>
     if negb (w <? maxchars) || (n - 8 <? Z.of_nat (length out)) then Some (out, p)
     else
       match fuel with
       | O => None
       | S f => if (length p <? ulen c)%nat then None
                else trunc_loop f n maxchars (drop (ulen c) p) (out ++ take (ulen c) p) (w + 1)
       end
  end.

Definition ELLIPSIS : bytes := [chr 226; chr 128; chr 166].

Definition t_trunc (n : Z) (s : bytes) (maxchars : Z) : option bytes :=
  let maxchars := if maxchars <? 1 then 1 else maxchars in
  '(out, p) ← trunc_loop (length s) n maxchars s [] 0;
  Some (match p with
        | [] => out
        | _ => if Z.of_nat (length out) <? n - 4 then out ++ ELLIPSIS else out
        end).

Section Canvas.
Context (scr_rows scr_cols : Z).

(** ** Writing *)

(** The loop of [put]. *)
Fixpoint put_loop (fuel : nat) (row col fg bg : Z) (s : bytes) (cvs : list cell) : option (list cell) :=
  match s with
  | [] => Some cvs
  | c :: _ =>
     if scr_cols <=? col then Some cvs
     else
       match fuel with
       | O => None
       | S f =>
          let i := row * scr_cols + col in
          if (length s <? ulen c)%nat || (i <? 0) || (Z.of_nat (length cvs) <=? i) then None
          else put_loop f row (col + 1) fg bg (drop (ulen c) s)
                 (<[Z.to_nat i := mk_cell fg bg (take (ulen c) s)]> cvs)
       end
  end.

Definition put (row col fg bg : Z) (s : bytes) : draw := λ cvs,
  if (row <? 0) || (scr_rows <=? row) then Some cvs else put_loop (length s) row col fg bg s cvs.

Definition txt (row col fg bg : Z) (s : bytes) : draw := put row col fg bg (bprintf 512 s).

Definition txt_r (row xr fg bg : Z) (s : bytes) : draw :=
  let b := bprintf 512 s in with_value (uw b) (λ w, put row (xr - w) fg bg b).

Definition txt_c (row cx fg bg : Z) (s : bytes) : draw :=
  let b := bprintf 512 s in with_value (uw b) (λ w, put row (cx - w / 2) fg bg b).

Definition hline (y x0 x1 : Z) (ch : bytes) (fg bg : Z) : draw := for_each (range x0 x1) (λ c, put y c fg bg ch).
Definition vline (y0 y1 x : Z) (ch : bytes) (fg bg : Z) : draw := for_each (range y0 y1) (λ r, put r x fg bg ch).

Definition H_BAR : bytes := [chr 226; chr 148; chr 128].
Definition V_BAR : bytes := [chr 226; chr 148; chr 130].

Local Open Scope draw_scope.

Definition box (y x h w fg bg : Z) : draw :=
  for_each (range y (y + h - 1)) (λ r, for_each (range x (x + w - 1)) (λ c, put r c 0 bg (B " "))) ;;
  hline y (x + 1) (x + w - 2) H_BAR fg bg ;;
  hline (y + h - 1) (x + 1) (x + w - 2) H_BAR fg bg ;;
  vline (y + 1) (y + h - 2) x V_BAR fg bg ;;
  vline (y + 1) (y + h - 2) (x + w - 1) V_BAR fg bg ;;
  put y x fg bg [chr 226; chr 148; chr 140] ;;
  put y (x + w - 1) fg bg [chr 226; chr 148; chr 144] ;;
  put (y + h - 1) x fg bg [chr 226; chr 148; chr 148] ;;
  put (y + h - 1) (x + w - 1) fg bg [chr 226; chr 148; chr 152].

(** ** The frame *)

Definition ESC : ascii := chr 27.
Definition SGR0 : bytes := ESC :: B "[0m".

(** The colours of a cell, after a reset if some were set. *)
Definition sgr (open : bool) (fg bg : Z) : bytes :=
  (if open then SGR0 else []) ++ ESC :: B "[" ++
  (if fg =? 0 then B "39m"
   else B "38;2;" ++ fmt_d (Z.land (Z.shiftr fg 16) 255) ++ B ";" ++ fmt_d (Z.land (Z.shiftr fg 8) 255) ++ B ";" ++
        fmt_d (Z.land fg 255) ++ B "m") ++
  (if bg =? 0 then []
   else ESC :: B "[48;2;" ++ fmt_d (Z.land (Z.shiftr bg 16) 255) ++ B ";" ++ fmt_d (Z.land (Z.shiftr bg 8) 255) ++ B ";" ++
        fmt_d (Z.land bg 255) ++ B "m").

(** The state of the loop over a row: colours, whether some are set, the
    terminal's column, and the text. *)
Record row_state := mk_row { r_fg : Z; r_bg : Z; r_open : bool; r_cur : Z; r_out : bytes }.

Definition emit_cell (st : row_state) (c : Z) (x : cell) : option row_state :=
  match c_s x with
  | [] => Some st
  | _ =>
     let st := if r_cur st <? c
               then mk_row (if r_open st then 0 else r_fg st) (if r_open st then 0 else r_bg st) false c
                      (r_out st ++ (if r_open st then SGR0 else []) ++ replicate (Z.to_nat (c - r_cur st)) SPACE)
               else st in
     let st := if (c_fg x =? r_fg st) && (c_bg x =? r_bg st) then st
               else mk_row (c_fg x) (c_bg x) true (r_cur st) (r_out st ++ sgr (r_open st) (c_fg x) (c_bg x)) in
     w ← uw (c_s x);
     Some (mk_row (r_fg st) (r_bg st) (r_open st) (c + w) (r_out st ++ c_s x))
  end.

Fixpoint emit_cells (st : row_state) (c : Z) (l : list cell) : option row_state :=
  match l with
  | [] => Some st
  | x :: l' => st ← emit_cell st c x; emit_cells st (c + 1) l'
  end.

Definition emit_row (r : Z) (l : list cell) : option bytes :=
  st ← emit_cells (mk_row 0 0 false 0 []) 0 l;
  Some (r_out st ++ (if r_open st then SGR0 else []) ++ ESC :: B "[K" ++ (if r <? scr_rows - 1 then [LF] else [])).

Definition row_cells (r : Z) (cvs : list cell) : list cell := take (Z.to_nat scr_cols) (drop (Z.to_nat (r * scr_cols)) cvs).

Fixpoint emit_rows (rs : list Z) (cvs : list cell) : option bytes :=
  match rs with
  | [] => Some []
  | r :: rs' => a ← emit_row r (row_cells r cvs); b ← emit_rows rs' cvs; Some (a ++ b)
  end.

(** The size of the frame buffer. *)
Definition frame_need : Z := scr_rows * (scr_cols * 26 + 16) + 32.

(** [frame_emit]: what is written to the terminal; [None] when it does not fit
    into the buffer. *)
Definition frame_emit (cvs : list cell) : option bytes :=
  t ← emit_rows (range 0 (scr_rows - 1)) cvs;
  let out := ESC :: B "[H" ++ t ++ ESC :: B "[J" in
  if Z.of_nat (length out) <=? frame_need then Some out else None.

End Canvas.

(** ** Well-formed strings *)

(** [wide s n]: [s] is [n] whole characters. *)
Inductive wide : bytes → Z → Prop :=
  | wide_nil : wide [] 0
  | wide_cons c u s n : S (length u) = ulen c → wide s n → wide (c :: u ++ s) (n + 1).

Lemma ulen_pos c : (1 ≤ ulen c ≤ 4)%nat.
Proof. unfold ulen. repeat case_match; lia. Qed.

Lemma wide_len s n : wide s n → 0 ≤ n ≤ Z.of_nat (length s).
Proof. induction 1 as [|c u s n E H IH]; cbn [length]; rewrite ?length_app; lia. Qed.

Lemma uw_loop_wide s n : wide s n → ∀ f k, (length s ≤ f)%nat → uw_loop f s k = Some (k + n).
Proof.
  induction 1 as [|c u s n E H IH]; intros f k Hf; [destruct f; cbn; f_equal; lia|].
  cbn [length] in Hf. rewrite length_app in Hf. destruct f as [|f]; [lia|]. cbn [uw_loop length]. rewrite <-E, length_app.
  rewrite (proj2 (Nat.ltb_ge _ _)) by lia. cbn [drop]. rewrite drop_app_length, IH by lia. f_equal. lia.
Qed.

Lemma uw_wide s n : wide s n → uw s = Some n.
Proof. intros H. unfold uw. by rewrite (uw_loop_wide s n H). Qed.

Lemma wide_app s n t m : wide s n → wide t m → wide (s ++ t) (n + m).
Proof.
  intros Hs Ht. induction Hs as [|c u s n E H IH]; [done|]. cbn [app]. rewrite <-app_assoc.
  replace (n + 1 + m) with (n + m + 1) by lia. by apply wide_cons.
Qed.

Definition is_ascii (s : bytes) : Prop := Forall (λ c, cv c < 128) s.

Lemma wide_ascii s : is_ascii s → wide s (Z.of_nat (length s)).
Proof.
  induction 1 as [|c s Hc Hs IH]; [constructor|]. cbn [length]. replace (Z.of_nat (S (length s))) with (Z.of_nat (length s) + 1) by lia.
  apply (wide_cons c [] s); [|done]. unfold ulen. by rewrite (proj2 (Z.ltb_lt _ _) Hc).
Qed.

Lemma ascii_take n s : is_ascii s → is_ascii (take n s).
Proof. apply Forall_take. Qed.
Lemma ascii_bprintf n s : is_ascii s → is_ascii (bprintf n s).
Proof. apply Forall_take. Qed.
Lemma ascii_app s t : is_ascii s → is_ascii t → is_ascii (s ++ t).
Proof. intros. by apply Forall_app. Qed.

(** Strings that are whole characters, however many. *)
Definition whole (s : bytes) : Prop := ∃ n, wide s n.

Lemma whole_app s t : whole s → whole t → whole (s ++ t).
Proof. intros [n Hn] [m Hm]. exists (n + m). by apply wide_app. Qed.
Lemma whole_ascii s : is_ascii s → whole s.
Proof. intros. eexists. by apply wide_ascii. Qed.

(** [whole] is decided by [uw]. *)
Lemma uw_loop_whole f : ∀ s k r, uw_loop f s k = Some r → whole s.
Proof.
  induction f as [|f IH]; intros [|c s] k r; cbn [uw_loop]; [intros _; exists 0; constructor|done|intros _; exists 0; constructor|].
  destruct (length (c :: s) <? ulen c)%nat eqn:El; [done|]. btests. cbn [length] in El. pose proof (ulen_pos c) as Hp.
  intros [n Hn]%IH. exists (n + 1).
  replace (c :: s) with (c :: take (ulen c - 1) s ++ drop (ulen c - 1) s) by (by rewrite take_drop).
  replace (drop (ulen c) (c :: s)) with (drop (ulen c - 1) s) in Hn by (destruct (ulen c); [lia|cbn; f_equal; lia]).
  apply wide_cons; [rewrite length_take; lia|done].
Qed.

Lemma whole_uw s : bool_decide (is_Some (uw s)) = true → whole s.
Proof. intros [r Hr]%bool_decide_eq_true. by eapply uw_loop_whole. Qed.

Lemma trunc_loop_whole s : ∀ f n m out w, whole s → whole out → (length s ≤ f)%nat →
  ∃ out' p, trunc_loop f n m s out w = Some (out', p) ∧ whole out' ∧ Z.of_nat (length out') ≤ Z.max (Z.of_nat (length out)) (n - 4).
Proof.
  intros f n m out w [k Hs]. revert f out w. induction Hs as [|c u s k E H IH]; intros f out w Ho Hf.
  { destruct f; cbn; eexists _, _; (split; [done|]); (split; [done|lia]). }
  cbn [length] in Hf. rewrite length_app in Hf. destruct f as [|f]; [lia|]. cbn [trunc_loop].
  destruct (negb (w <? m) || (n - 8 <? Z.of_nat (length out))) eqn:Eb; [eexists _, _; split; [done|]; split; [done|lia]|].
  apply orb_false_elim in Eb as [_ Eb]. btests.
  cbn [length trunc_loop]. rewrite length_app. rewrite (proj2 (Nat.ltb_ge _ _)) by lia.
  rewrite <-E. cbn [drop take]. rewrite drop_app_length, take_app_length.
  pose proof (ulen_pos c) as Hu.
  destruct (IH f (out ++ c :: u) (w + 1)) as (out' & p & H1 & H2 & H3); [|lia|].
  { apply whole_app; [done|]. exists (0 + 1). pose proof (wide_cons c u [] 0 E wide_nil) as Hw. by rewrite app_nil_r in Hw. }
  exists out', p. split_and!; [done|done|]. rewrite length_app in H3. cbn [length] in H3. lia.
Qed.

Lemma t_trunc_whole n s m : whole s → 8 ≤ n → ∃ t, t_trunc n s m = Some t ∧ whole t ∧ Z.of_nat (length t) < n.
Proof.
  intros Hs Hn. unfold t_trunc.
  destruct (trunc_loop_whole s (length s) n (if m <? 1 then 1 else m) [] 0 Hs ltac:(exists 0; constructor) ltac:(lia)) as (out & p & -> & Hw & Hl).
  cbn [length] in Hl. cbn [mbind option_bind]. destruct p as [|x p]; [exists out; split_and!; [done|done|lia]|].
  destruct (Z.of_nat (length out) <? n - 4) eqn:El; eexists; (split; [done|]); [|split; [done|lia]].
  btests. split; [apply whole_app; [done|by apply whole_uw]|]. rewrite length_app. cbn [length ELLIPSIS]. lia.
Qed.

(** ** Drawing stays on the canvas *)

Section Safe.
Context (rows cols : Z).

Definition on_screen (cvs : list cell) : Prop := Z.of_nat (length cvs) = rows * cols.

(** A drawing that touches nothing but the canvas. *)
Definition safe (d : draw) : Prop := ∀ cvs, on_screen cvs → ∃ cvs', d cvs = Some cvs' ∧ on_screen cvs'.

Lemma safe_nothing : safe nothing.
Proof. intros cvs H. by exists cvs. Qed.

Lemma safe_seq d1 d2 : safe d1 → safe d2 → safe (seq_draw d1 d2).
Proof. intros H1 H2 cvs H. destruct (H1 cvs H) as (c1 & E1 & O1). unfold seq_draw. rewrite E1. by apply H2. Qed.

Lemma safe_if (b : bool) d1 d2 : (b = true → safe d1) → (b = false → safe d2) → safe (if b then d1 else d2).
Proof. destruct b; auto. Qed.

Lemma safe_value {A} (o : option A) k (x : A) : o = Some x → safe (k x) → safe (with_value o k).
Proof. intros -> H. exact H. Qed.

Lemma safe_each {A} (l : list A) body : (∀ x, x ∈ l → safe (body x)) → safe (for_each l body).
Proof.
  induction l as [|x l IH]; intros H; [apply safe_nothing|]. apply safe_seq; [apply H; left|]. apply IH. intros y Hy. apply H. by right.
Qed.

Lemma elem_of_range a b c : c ∈ range a b → a ≤ c ≤ b.
Proof. intros (i & -> & Hi%elem_of_seq)%list_elem_of_fmap. lia. Qed.

(** Where a string may be put: its first cell is on the canvas, or the row is
    off the screen. *)
Definition place (row col : Z) : Prop := 0 ≤ col ∨ (1 ≤ row ∧ - cols ≤ col) ∨ row < 0.

Lemma put_loop_safe s n : wide s n → ∀ f row col fg bg cvs,
  (length s ≤ f)%nat → 0 ≤ row < rows → 0 ≤ row * cols + col → on_screen cvs →
  ∃ cvs', put_loop cols f row col fg bg s cvs = Some cvs' ∧ on_screen cvs'.
Proof.
  induction 1 as [|c u s n E H IH]; intros f row col fg bg cvs Hf Hr Hi Ho; [destruct f; by eexists|].
  cbn [length] in Hf. rewrite length_app in Hf. destruct f as [|f]; [lia|]. cbn [put_loop].
  destruct (Z.leb_spec cols col) as [|Hc]; [by eexists|].
  unfold on_screen in Ho. cbn [length]. rewrite length_app, <-E.
  rewrite (proj2 (Nat.ltb_ge _ _)) by lia. rewrite (proj2 (Z.ltb_ge _ _)) by lia. rewrite (proj2 (Z.leb_gt _ _)) by nia.
  cbn [orb drop take]. rewrite drop_app_length. apply IH; [lia|done|lia|]. unfold on_screen. by rewrite length_insert.
Qed.

Lemma safe_put row col fg bg s : whole s → place row col → 0 < cols → safe (put rows cols row col fg bg s).
Proof.
  intros [n Hs] Hp Hc cvs Ho. unfold put. destruct ((row <? 0) || (rows <=? row)) eqn:Er; [by eexists|].
  apply orb_false_elim in Er as [E1 E2]. btests. apply (put_loop_safe s n); [done|lia|lia| |done]. unfold place in Hp. nia.
Qed.

Lemma safe_txt row col fg bg s : whole (bprintf 512 s) → place row col → 0 < cols → safe (txt rows cols row col fg bg s).
Proof. apply safe_put. Qed.

Lemma safe_txt_r row xr fg bg s : whole (bprintf 512 s) → place row (xr - Z.of_nat (length s)) → 0 < cols →
  safe (txt_r rows cols row xr fg bg s).
Proof.
  intros [n Hs] Hp Hc. unfold txt_r. eapply safe_value; [by apply uw_wide|]. apply safe_put; [by exists n| |done].
  pose proof (wide_len _ _ Hs) as Hn. unfold bprintf in Hn. rewrite length_take in Hn. unfold place in *. lia.
Qed.

Lemma safe_txt_c row cx fg bg s : whole (bprintf 512 s) → place row (cx - Z.of_nat (length s)) → 0 < cols →
  safe (txt_c rows cols row cx fg bg s).
Proof.
  intros [n Hs] Hp Hc. unfold txt_c. eapply safe_value; [by apply uw_wide|]. apply safe_put; [by exists n| |done].
  pose proof (wide_len _ _ Hs) as Hn. unfold bprintf in Hn. rewrite length_take in Hn.
  pose proof (Z.div_pos n 2). pose proof (Z.div_le_upper_bound n 2 n). unfold place in *. lia.
Qed.

Lemma safe_hline y x0 x1 ch fg bg : whole ch → 0 ≤ x0 → 0 < cols → safe (hline rows cols y x0 x1 ch fg bg).
Proof. intros Hw Hx Hc. apply safe_each. intros c ?%elem_of_range. apply safe_put; [done|left; lia|done]. Qed.

Lemma safe_vline y0 y1 x ch fg bg : whole ch → 0 ≤ x → 0 < cols → safe (vline rows cols y0 y1 x ch fg bg).
Proof. intros Hw Hx Hc. apply safe_each. intros c ?%elem_of_range. apply safe_put; [done|left; lia|done]. Qed.

Lemma safe_box y x h w fg bg : 0 ≤ x → 1 ≤ w → 0 < cols → safe (box rows cols y x h w fg bg).
Proof.
  intros Hx Hw Hc. unfold box.
  repeat first [apply safe_seq | apply safe_hline | apply safe_vline]; try (by apply whole_uw); try lia;
    try (apply safe_put; [by apply whole_uw|left; lia|done]).
  apply safe_each. intros r _. apply safe_each. intros c ?%elem_of_range. apply safe_put; [by apply whole_uw|left; lia|done].
Qed.

End Safe.

End Canvas.
