(* ===== verification/Json.v ===== *)
(** * JSON: values, the text the web console writes, and a reader

    The text of the state the web console serves is read by a JSON parser in
    the page. [print_json] is the text without white space, with the escapes
    [json_escape] of plugin/httpd.c knows; [parse_json] reads JSON (RFC 8259)
    without the [\u] escapes, which are not written. Numbers are kept as their
    text. Printing and reading are inverse, and no proper prefix of the text
    of an object is JSON. *)

From S2P Require Import Prelude.

Module Json.

Inductive json :=
  | JNum (t : bytes)
  | JBool (b : bool)
  | JStr (s : bytes)
  | JArr (l : list json)
  | JObj (l : list (bytes * json)).

(** Induction with the members of arrays and objects. *)
Section json_rec.
Context (P : json → Prop).
Context (Pnum : ∀ t, P (JNum t)) (Pbool : ∀ b, P (JBool b)) (Pstr : ∀ s, P (JStr s)).
Context (Parr : ∀ l, Forall P l → P (JArr l)) (Pobj : ∀ l, Forall (λ kv, P kv.2) l → P (JObj l)).

Fixpoint json_nested (j : json) : P j :=
  match j with
  | JNum t => Pnum t
  | JBool b => Pbool b
  | JStr s => Pstr s
  | JArr l => Parr l ((fix go l := match l return Forall P l with
                                   | [] => Forall_nil_2 _
                                   | x :: l => Forall_cons_2 _ _ _ (json_nested x) (go l)
                                   end) l)
  | JObj l => Pobj l ((fix go l := match l return Forall (λ kv, P kv.2) l with
                                   | [] => Forall_nil_2 _
                                   | kv :: l => Forall_cons_2 _ _ _ (json_nested kv.2) (go l)
                                   end) l)
  end.
End json_rec.

(** ** Printing *)

Definition BACKSLASH : ascii := "\"%char.

(** One character of a string. *)
Definition esc_char (c : ascii) : bytes :=
  if ceq c DQUOTE then [BACKSLASH; DQUOTE]
  else if ceq c BACKSLASH then [BACKSLASH; BACKSLASH]
  else if ceq c LF then [BACKSLASH; "n"%char]
  else if ceq c CR then [BACKSLASH; "r"%char]
  else if ceq c (chr 9) then [BACKSLASH; "t"%char]
  else [c].

Definition esc (s : bytes) : bytes := concat (esc_char <$> s).
Definition print_str (s : bytes) : bytes := DQUOTE :: esc s ++ [DQUOTE].

Fixpoint commas (l : list bytes) : bytes :=
  match l with
  | [] => []
  | [t] => t
  | t :: l => t ++ ","%char :: commas l
  end.

Fixpoint print_json (j : json) : bytes :=
  match j with
  | JNum t => t
  | JBool b => if b then B "true" else B "false"
  | JStr s => print_str s
  | JArr l => "["%char :: commas (print_json <$> l) ++ ["]"%char]
  | JObj l => "{"%char :: commas ((λ '(k, v), print_str k ++ ":"%char :: print_json v) <$> l) ++ ["}"%char]
  end.

(** ** Reading *)

Definition is_ws (c : ascii) : bool := ceq c SPACE || ceq c (chr 9) || ceq c LF || ceq c CR.

Fixpoint skip_ws (s : bytes) : bytes :=
  match s with
  | c :: r => if is_ws c then skip_ws r else s
  | [] => []
  end.

(** The rest of a string and what follows its closing quote. A control
    character may not stand for itself. *)
Fixpoint parse_str (s : bytes) : option (bytes * bytes) :=
  match s with
  | [] => None
  | c :: r =>
     if ceq c DQUOTE then Some ([], r)
     else if ceq c BACKSLASH then
       match r with
       | [] => None
       | e :: r' =>
          let out := if ceq e DQUOTE then Some DQUOTE
                     else if ceq e BACKSLASH then Some BACKSLASH
                     else if ceq e SLASH then Some SLASH
                     else if ceq e "b"%char then Some (chr 8)
                     else if ceq e "f"%char then Some (chr 12)
                     else if ceq e "n"%char then Some LF
                     else if ceq e "r"%char then Some CR
                     else if ceq e "t"%char then Some (chr 9)
                     else None in
          match out with
          | Some x => '(t, r'') ← parse_str r'; Some (x :: t, r'')
          | None => None
          end
       end
     else if (cv c <? 32)%Z then None
     else '(t, r') ← parse_str r; Some (c :: t, r')
  end.

(** Numbers: the characters one can have, and the grammar. *)
Definition num_char (c : ascii) : bool :=
  isdigit c || ceq c "-"%char || ceq c "+"%char || ceq c "."%char || ceq c "e"%char || ceq c "E"%char.

Fixpoint span (p : ascii → bool) (s : bytes) : bytes * bytes :=
  match s with
  | c :: r => if p c then let '(a, b) := span p r in (c :: a, b) else ([], s)
  | [] => ([], [])
  end.

Definition valid_exp (s : bytes) : bool :=
  match s with
  | [] => true
  | c :: r =>
     (ceq c "e"%char || ceq c "E"%char) &&
     let r := match r with d :: r' => if ceq d "-"%char || ceq d "+"%char then r' else r | [] => [] end in
     match span isdigit r with (_ :: _, []) => true | _ => false end
  end.

Definition valid_frac (s : bytes) : bool :=
  match s with
  | c :: r => if ceq c "."%char then match span isdigit r with (_ :: _, r') => valid_exp r' | _ => false end
              else valid_exp s
  | [] => true
  end.

Definition valid_int (s : bytes) : bool :=
  match span isdigit s with
  | ([], _) => false
  | (c :: d, r) => (negb (ceq c "0"%char) || bool_decide (d = [])) && valid_frac r
  end.

Definition valid_num (s : bytes) : bool :=
  match s with
  | c :: r => if ceq c "-"%char then valid_int r else valid_int s
  | [] => false
  end.

Fixpoint strip_prefix (p s : bytes) : option bytes :=
  match p, s with
  | [], _ => Some s
  | c :: p', d :: s' => if ceq c d then strip_prefix p' s' else None
  | _, [] => None
  end.

Definition parse_atom (s : bytes) : option (json * bytes) :=
  match strip_prefix (B "true") s with
  | Some r => Some (JBool true, r)
  | None =>
     match strip_prefix (B "false") s with
     | Some r => Some (JBool false, r)
     | None => let '(t, r) := span num_char s in if valid_num t then Some (JNum t, r) else None
     end
  end.

(** The next token is [c]. *)
Definition expect (c : ascii) (s : bytes) : option bytes :=
  match skip_ws s with d :: r => if ceq d c then Some r else None | [] => None end.

Fixpoint parse_value (f : nat) (s : bytes) : option (json * bytes) :=
  match f with
  | O => None
  | S f =>
     match skip_ws s with
     | [] => None
     | c :: r =>
        if ceq c "{"%char then
          match expect "}"%char r with
          | Some r' => Some (JObj [], r')
          | None => '(l, r') ← parse_members f r; Some (JObj l, r')
          end
        else if ceq c "["%char then
          match expect "]"%char r with
          | Some r' => Some (JArr [], r')
          | None => '(l, r') ← parse_elems f r; Some (JArr l, r')
          end
        else if ceq c DQUOTE then '(t, r') ← parse_str r; Some (JStr t, r')
        else parse_atom (c :: r)
     end
  end
with parse_elems (f : nat) (s : bytes) : option (list json * bytes) :=
  match f with
  | O => None
  | S f =>
     '(v, r) ← parse_value f s;
     match expect ","%char r with
     | Some r' => '(l, r'') ← parse_elems f r'; Some (v :: l, r'')
     | None => r' ← expect "]"%char r; Some ([v], r')
     end
  end
with parse_members (f : nat) (s : bytes) : option (list (bytes * json) * bytes) :=
  match f with
  | O => None
  | S f =>
     r ← expect DQUOTE s;
     '(k, r) ← parse_str r;
     r ← expect ":"%char r;
     '(v, r) ← parse_value f r;
     match expect ","%char r with
     | Some r' => '(l, r'') ← parse_members f r'; Some ((k, v) :: l, r'')
     | None => r' ← expect "}"%char r; Some ([(k, v)], r')
     end
  end.

Definition parse_json (s : bytes) : option json :=
  '(j, r) ← parse_value (S (2 * length s)) s;
  match skip_ws r with [] => Some j | _ => None end.

(** ** Well-formed values *)

(** A string that printing does not change: no control characters but the
    three that have escapes. *)
Definition text_char (c : ascii) : Prop := (32 ≤ cv c)%Z ∨ c = LF ∨ c = CR ∨ c = chr 9.
Definition text_ok (s : bytes) : Prop := Forall text_char s.

Inductive json_ok : json → Prop :=
  | ok_num t : valid_num t = true → Forall (λ c, num_char c = true) t → json_ok (JNum t)
  | ok_bool b : json_ok (JBool b)
  | ok_str s : text_ok s → json_ok (JStr s)
  | ok_arr l : Forall json_ok l → json_ok (JArr l)
  | ok_obj l : Forall (λ kv, text_ok kv.1 ∧ json_ok kv.2) l → json_ok (JObj l).

(** A text after which a number has ended. *)
Definition num_ended (s : bytes) : Prop := match s with c :: _ => num_char c = false | [] => True end.

(** ** Strings *)

Lemma ceq_ne c d : c ≠ d → ceq c d = false.
Proof. apply ceq_false. Qed.

Lemma parse_str_char c t : text_char c →
  parse_str (esc_char c ++ t) = '(u, r) ← parse_str t; Some (c :: u, r).
Proof.
  intros Hc. unfold esc_char.
  destruct (ceq_spec c DQUOTE) as [->|H1]; [done|].
  destruct (ceq_spec c BACKSLASH) as [->|H2]; [done|].
  destruct (ceq_spec c LF) as [->|H3]; [done|].
  destruct (ceq_spec c CR) as [->|H4]; [done|].
  destruct (ceq_spec c (chr 9)) as [->|H5]; [done|].
  cbn [app parse_str]. rewrite (ceq_ne _ _ H1), (ceq_ne _ _ H2).
  destruct Hc as [Hc|[->|[->| ->]]]; [|done..]. by rewrite (proj2 (Z.ltb_ge _ _) Hc).
Qed.

Lemma parse_str_esc s rest : text_ok s → parse_str (esc s ++ DQUOTE :: rest) = Some (s, rest).
Proof.
  induction 1 as [|c s Hc Hs IH]; [done|].
  unfold esc. cbn [fmap list_fmap concat]. rewrite <-app_assoc, parse_str_char by done. fold (esc s). by rewrite IH.
Qed.

(** ** Tokens *)

Lemma skip_ws_id c s : is_ws c = false → skip_ws (c :: s) = c :: s.
Proof. intros H. cbn. by rewrite H. Qed.

Lemma expect_hit c s : is_ws c = false → expect c (c :: s) = Some s.
Proof. intros H. unfold expect. rewrite skip_ws_id by done. by rewrite ceq_refl. Qed.

Lemma expect_miss c d s : is_ws d = false → d ≠ c → expect c (d :: s) = None.
Proof. intros H Hne. unfold expect. rewrite skip_ws_id by done. by rewrite ceq_ne. Qed.

Lemma span_app p a s : Forall (λ c, p c = true) a →
  match s with c :: _ => p c = false | [] => True end → span p (a ++ s) = (a, s).
Proof.
  intros Ha Hs. induction Ha as [|c a Hc Ha IH]; cbn.
  - destruct s as [|c s]; [done|]. cbn. by rewrite Hs.
  - by rewrite Hc, IH.
Qed.

Lemma num_char_start c : num_char c = true →
  is_ws c = false ∧ c ≠ "{"%char ∧ c ≠ "["%char ∧ c ≠ DQUOTE ∧ c ≠ "t"%char ∧ c ≠ "f"%char ∧ c ≠ "]"%char ∧ c ≠ "}"%char.
Proof. intros H. destruct c as [[] [] [] [] [] [] [] []]; vm_compute in H; try discriminate; by split_and!. Qed.

Lemma num_nonempty t : valid_num t = true → Forall (λ c, num_char c = true) t → ∃ c r, t = c :: r ∧ num_char c = true.
Proof. destruct t as [|c r]; [done|]. intros _ [Hc _]%Forall_cons. by exists c, r. Qed.

(** What the text of a value starts with. *)
Lemma print_start j : json_ok j →
  ∃ c r, print_json j = c :: r ∧ is_ws c = false ∧ c ≠ "]"%char ∧ c ≠ "}"%char.
Proof.
  destruct 1 as [t Hv Hn|b|s Hs|l Hl|l Hl]; cbn.
  - destruct (num_nonempty t Hv Hn) as (c & r & -> & Hc). exists c, r.
    destruct (num_char_start c Hc) as (?&?&?&?&?&?&?&?). done.
  - destruct b; by eexists _, _.
  - by eexists _, _.
  - by eexists _, _.
  - by eexists _, _.
Qed.

Lemma parse_num t rest : valid_num t = true → Forall (λ c, num_char c = true) t → num_ended rest →
  parse_atom (t ++ rest) = Some (JNum t, rest).
Proof.
  intros Hv Hn Hr. destruct (num_nonempty t Hv Hn) as (c & r & E & Hc).
  destruct (num_char_start c Hc) as (_&_&_&_&Ht&Hf&_&_). unfold parse_atom.
  rewrite (span_app num_char t rest Hn Hr), Hv. subst t. cbn [app B strip_prefix].
  change (B "true") with ("t"%char :: B "rue"). change (B "false") with ("f"%char :: B "alse"). cbn [strip_prefix].
  by rewrite !ceq_ne.
Qed.

(** ** Reading what was printed *)

Definition reads (j : json) : Prop := ∀ f rest,
  json_ok j → (2 * length (print_json j) ≤ f)%nat → num_ended rest →
  parse_value f (print_json j ++ rest) = Some (j, rest).

Lemma read_elems l : Forall reads l → Forall json_ok l → l ≠ [] → ∀ f rest,
  (2 * length (commas (print_json <$> l)) + 1 ≤ f)%nat →
  parse_elems f (commas (print_json <$> l) ++ "]"%char :: rest) = Some (l, rest).
Proof.
  induction l as [|j l IH]; [done|]. intros [Hj Hl]%Forall_cons [Oj Ol]%Forall_cons _ f rest Hf.
  destruct f as [|f]; [lia|]. cbn [parse_elems]. destruct l as [|j' l].
  - cbn [fmap list_fmap commas] in *. rewrite Hj; [|done|lia|done]. cbn [mbind option_bind].
    by rewrite expect_miss, expect_hit by done.
  - cbn [fmap list_fmap commas] in *. rewrite length_app in Hf. cbn [length] in Hf.
    rewrite <-app_assoc, Hj; [|done|lia|done]. cbn [mbind option_bind app].
    rewrite expect_hit by done.
    rewrite IH; [done|done|done|done|cbn [fmap list_fmap commas]; lia].
Qed.

Abbreviation print_member := (λ '(k, v), print_str k ++ ":"%char :: print_json v).

Lemma read_members l : Forall (λ kv, reads kv.2) l → Forall (λ kv, text_ok kv.1 ∧ json_ok kv.2) l → l ≠ [] → ∀ f rest,
  (2 * length (commas (print_member <$> l)) + 1 ≤ f)%nat →
  parse_members f (commas (print_member <$> l) ++ "}"%char :: rest) = Some (l, rest).
Proof.
  induction l as [|[k j] l IH]; [done|]. intros [Hj Hl]%Forall_cons [[Hk Oj] Ol]%Forall_cons _ f rest Hf.
  cbn [fst snd] in *. destruct f as [|f]; [lia|]. cbn [parse_members]. destruct l as [|j' l].
  - cbn [fmap list_fmap commas] in *. rewrite length_app in Hf. cbn [length print_str app] in *.
    rewrite <-!app_assoc. cbn [app]. rewrite expect_hit by done. cbn [mbind option_bind].
    rewrite <-?app_assoc. cbn [app]. rewrite parse_str_esc by done. cbn [mbind option_bind].
    rewrite expect_hit by done. cbn [mbind option_bind].
    rewrite Hj; [|done|lia|done]. cbn [mbind option_bind].
    by rewrite expect_miss, expect_hit by done.
  - cbn [fmap list_fmap commas] in *. rewrite !length_app in Hf. cbn [length print_str app] in *.
    rewrite <-!app_assoc. cbn [app]. rewrite expect_hit by done. cbn [mbind option_bind].
    rewrite <-?app_assoc. cbn [app]. rewrite parse_str_esc by done. cbn [mbind option_bind].
    rewrite expect_hit by done. cbn [mbind option_bind]. rewrite <-?app_assoc.
    rewrite Hj; [|done|lia|done]. cbn [mbind option_bind app].
    rewrite expect_hit by done.
    rewrite IH; [done|done|done|done|cbn [fmap list_fmap commas]; lia].
Qed.

Lemma commas_start {A} (p : A → bytes) x l : ∃ r, commas (p <$> x :: l) = p x ++ r.
Proof. destruct l; cbn; [exists []; by rewrite app_nil_r|by eexists]. Qed.

Lemma print_reads j : reads j.
Proof.
  induction j as [t|b|s|l Hl|l Hl] using json_nested; intros f rest Hok Hf Hr; (destruct f as [|f]; [destruct (print_start _ Hok) as (?&?&E&_); rewrite E in Hf; cbn in Hf; lia|]); inversion Hok; subst.
  - destruct (num_nonempty t) as (c & r & -> & Hc); [done..|].
    destruct (num_char_start c Hc) as (?&?&?&?&?&?&?&?). cbn [parse_value print_json].
    rewrite <-app_comm_cons, skip_ws_id by done. rewrite !ceq_ne by done. rewrite app_comm_cons. by apply parse_num.
  - by destruct b.
  - cbn [parse_value print_json print_str app]. rewrite skip_ws_id by done.
    cbn -[parse_str]. rewrite <-app_assoc. cbn [app]. by rewrite parse_str_esc.
  - cbn [parse_value print_json app]. rewrite skip_ws_id by done. rewrite ceq_ne by done. rewrite ceq_refl.
    cbn [print_json length] in Hf. rewrite length_app in Hf. cbn [length] in Hf. rewrite <-app_assoc. cbn [app].
    destruct l as [|x l]; [by cbn|]. destruct (commas_start print_json x l) as [r E].
    destruct (print_start x) as (c & r' & Ec & Hw & Hc & _); [by inversion H0|].
    assert (expect "]"%char (commas (print_json <$> x :: l) ++ "]"%char :: rest) = None) as ->
      by (rewrite E, Ec; by apply expect_miss).
    rewrite read_elems; [done|done|done|done|lia].
  - cbn [parse_value print_json app]. rewrite skip_ws_id by done. rewrite ceq_refl.
    cbn [print_json length] in Hf. rewrite length_app in Hf. cbn [length] in Hf. rewrite <-app_assoc. cbn [app].
    destruct l as [|[k x] l]; [by cbn|].
    assert (expect "}"%char (commas (print_member <$> (k, x) :: l) ++ "}"%char :: rest) = None) as ->
      by (destruct (commas_start print_member (k, x) l) as [r ->]; by apply expect_miss).
    rewrite read_members; [done|done|done|done|lia].
Qed.

Lemma parse_print j : json_ok j → parse_json (print_json j) = Some j.
Proof.
  intros Hok. unfold parse_json. pose proof (print_reads j (S (2 * length (print_json j))) [] Hok) as H.
  rewrite app_nil_r in H. rewrite H; [done|lia|done].
Qed.

(** ** Truncated texts

    A reader that has found a value in a text finds the same one when more
    text follows, unless it was a number at the very end. *)

Definition is_num (j : json) : bool := if j is JNum _ then true else false.

Lemma parse_str_more s : ∀ t r q, parse_str s = Some (t, r) → parse_str (s ++ q) = Some (t, r ++ q).
Proof.
  induction s as [s IH] using (induction_ltof1 _ (@length ascii)). unfold ltof in IH.
  intros t r q. destruct s as [|c s]; [done|]. cbn [parse_str app].
  destruct (ceq c DQUOTE); [by intros [= <- <-]|]. destruct (ceq c BACKSLASH).
  - destruct s as [|e s]; [done|]. cbn [app]. case_match; [|done].
    destruct (parse_str s) as [[u r']|] eqn:E; [|done]. intros [= <- <-]. by rewrite (IH s) with (t := u) (r := r') by (cbn; lia || done).
  - case_match; [done|]. destruct (parse_str s) as [[u r']|] eqn:E; [|done]. intros [= <- <-].
    by rewrite (IH s) with (t := u) (r := r') by (cbn; lia || done).
Qed.

Lemma skip_ws_more s c r q : skip_ws s = c :: r → skip_ws (s ++ q) = c :: r ++ q.
Proof. induction s as [|d s IH]; [done|]. cbn [skip_ws app]. destruct (is_ws d); [done|]. by intros [= <- <-]. Qed.

Lemma expect_more c s r q : expect c s = Some r → expect c (s ++ q) = Some (r ++ q).
Proof.
  unfold expect. destruct (skip_ws s) as [|d r'] eqn:E; [done|]. rewrite (skip_ws_more _ _ _ q E).
  case_match; [|done]. by intros [= ->].
Qed.

Lemma expect_some c d s r : expect c s = Some r → c ≠ d → ∀ q, expect d (s ++ q) = None.
Proof.
  unfold expect. destruct (skip_ws s) as [|e r'] eqn:E; [done|]. intros H Hne q. rewrite (skip_ws_more _ _ _ q E).
  destruct (ceq_spec e c) as [->|]; [|done]. by rewrite ceq_ne.
Qed.

Lemma strip_prefix_more p : ∀ s r q, strip_prefix p s = Some r → strip_prefix p (s ++ q) = Some (r ++ q).
Proof. induction p as [|c p IH]; intros [|d s] r q; cbn; try done; [by intros [= <-]|by intros [= <-]|]. case_match; [apply IH|done]. Qed.

Lemma span_more p s : ∀ a c r q, span p s = (a, c :: r) → span p (s ++ q) = (a, c :: r ++ q).
Proof.
  induction s as [|d s IH]; intros a c r q; [done|]. cbn. destruct (p d); [|by intros [= <- <- <-]].
  destruct (span p s) as [a' b'] eqn:E. intros [= <- ->]. by rewrite (IH a' c r q).
Qed.

Lemma strip_prefix_num p s q : num_char (default NUL (head s)) = true → head p = Some "t"%char ∨ head p = Some "f"%char →
  strip_prefix p (s ++ q) = None.
Proof.
  intros Hs Hp. destruct s as [|c s]; [done|]. destruct (num_char_start c Hs) as (_&_&_&_&?&?&_&_).
  destruct p as [|d p]; [by destruct Hp|]. cbn. rewrite ceq_ne; [done|]. destruct Hp as [[= ->]|[= ->]]; congruence.
Qed.

Lemma span_head p s a r : span p s = (a, r) → a ≠ [] → ∃ c s', s = c :: s' ∧ p c = true.
Proof. destruct s as [|c s]; cbn; [by intros [= <- <-]|]. destruct (p c) eqn:E; [by exists c, s|by intros [= <- <-]]. Qed.

Lemma parse_atom_more s j r q : parse_atom s = Some (j, r) → (is_num j = true → r ≠ []) →
  parse_atom (s ++ q) = Some (j, r ++ q).
Proof.
  unfold parse_atom. destruct (strip_prefix (B "true") s) as [r'|] eqn:Et.
  { intros [= <- <-] _. by rewrite (strip_prefix_more _ _ _ q Et). }
  destruct (strip_prefix (B "false") s) as [r'|] eqn:Ef.
  { intros [= <- <-] _. rewrite (strip_prefix_more _ _ _ q Ef).
    destruct s as [|c s]; [done|]. change (B "false") with ("f"%char :: B "alse") in Ef. cbn [strip_prefix] in Ef.
    destruct (ceq_spec "f"%char c) as [<-|]; [|done]. done. }
  destruct (span num_char s) as [t r'] eqn:Es. destruct (valid_num t) eqn:Ev; [|done]. intros [= <- <-] Hr.
  destruct (span_head _ _ _ _ Es) as (c & s' & E & Hc); [by intros ->|].
  rewrite !strip_prefix_num by (subst s; cbn; tauto).
  destruct r' as [|d r']; [by destruct (Hr eq_refl)|]. by rewrite (span_more _ _ _ _ _ q Es), Ev.
Qed.

Lemma expect_nonempty c s r : expect c s = Some r → s ≠ [].
Proof. by intros H ->. Qed.

(** The list readers and the value reader, with more fuel and more text. *)
Lemma parse_more f : ∀ f' s q, (f ≤ f')%nat →
  (∀ j r, parse_value f s = Some (j, r) → (is_num j = true → r ≠ []) → parse_value f' (s ++ q) = Some (j, r ++ q)) ∧
  (∀ l r, parse_elems f s = Some (l, r) → parse_elems f' (s ++ q) = Some (l, r ++ q)) ∧
  (∀ l r, parse_members f s = Some (l, r) → parse_members f' (s ++ q) = Some (l, r ++ q)).
Proof.
  induction f as [|f IH]; [done|]. intros [|f'] s q Hf; [lia|]. apply le_S_n in Hf.
  split_and!; cbn [parse_value parse_elems parse_members].
  - intros j r. destruct (skip_ws s) as [|c s'] eqn:Es; [done|]. rewrite (skip_ws_more _ _ _ q Es).
    destruct (ceq c "{"%char); [|destruct (ceq c "["%char); [|destruct (ceq c DQUOTE)]].
    + destruct (expect "}"%char s') as [r'|] eqn:Ee; [intros [= <- <-] _; by rewrite (expect_more _ _ _ q Ee)|].
      destruct (parse_members f s') as [[l r']|] eqn:Em; [|done]. intros [= <- <-] _.
      assert (expect "}"%char (s' ++ q) = None) as ->.
      { destruct f as [|f0]; [done|]. cbn in Em. destruct (expect DQUOTE s') as [b|] eqn:E1; [|done]. by apply (expect_some DQUOTE _ s' b). }
      by rewrite (proj2 (proj2 (IH f' s' q Hf)) l r' Em).
    + destruct (expect "]"%char s') as [r'|] eqn:Ee; [intros [= <- <-] _; by rewrite (expect_more _ _ _ q Ee)|].
      destruct (parse_elems f s') as [[l r']|] eqn:Em; [|done]. intros [= <- <-] _.
      assert (expect "]"%char (s' ++ q) = None) as ->.
      { destruct f as [|[|f0]]; [done..|]. cbn [parse_elems parse_value] in Em. unfold expect in *.
        destruct (skip_ws s') as [|d s''] eqn:E1; [done|]. rewrite (skip_ws_more _ _ _ q E1). by destruct (ceq d "]"%char). }
      by rewrite (proj1 (proj2 (IH f' s' q Hf)) l r' Em).
    + destruct (parse_str s') as [[t r']|] eqn:Em; [|done]. intros [= <- <-] _. by rewrite (parse_str_more _ _ _ q Em).
    + intros H Hr. rewrite app_comm_cons. by apply parse_atom_more.
  - intros l r. destruct (parse_value f s) as [[v r1]|] eqn:Ev; [|done]. cbn [mbind option_bind].
    destruct (expect ","%char r1) as [r2|] eqn:Ec.
    + rewrite (proj1 (IH f' s q Hf) v r1 Ev) by (intros _; by eapply expect_nonempty). cbn [mbind option_bind].
      rewrite (expect_more _ _ _ q Ec). destruct (parse_elems f r2) as [[l' r3]|] eqn:Em; [|done]. intros [= <- <-].
      by rewrite (proj1 (proj2 (IH f' r2 q Hf)) l' r3 Em).
    + destruct (expect "]"%char r1) as [r2|] eqn:Ed; [|done]. intros [= <- <-].
      rewrite (proj1 (IH f' s q Hf) v r1 Ev) by (intros _; by eapply expect_nonempty). cbn [mbind option_bind].
      rewrite (expect_some _ ","%char _ _ Ed) by done. by rewrite (expect_more _ _ _ q Ed).
  - intros l r. destruct (expect DQUOTE s) as [s1|] eqn:Eq; [|done]. rewrite (expect_more _ _ _ q Eq). cbn [mbind option_bind].
    destruct (parse_str s1) as [[k s2]|] eqn:Ek; [|done]. rewrite (parse_str_more _ _ _ q Ek). cbn [mbind option_bind].
    destruct (expect ":"%char s2) as [s3|] eqn:Ecol; [|done]. rewrite (expect_more _ _ _ q Ecol). cbn [mbind option_bind].
    destruct (parse_value f s3) as [[v r1]|] eqn:Ev; [|done]. cbn [mbind option_bind].
    destruct (expect ","%char r1) as [r2|] eqn:Ec.
    + rewrite (proj1 (IH f' s3 q Hf) v r1 Ev) by (intros _; by eapply expect_nonempty). cbn [mbind option_bind].
      rewrite (expect_more _ _ _ q Ec). destruct (parse_members f r2) as [[l' r3]|] eqn:Em; [|done]. intros [= <- <-].
      by rewrite (proj2 (proj2 (IH f' r2 q Hf)) l' r3 Em).
    + destruct (expect "}"%char r1) as [r2|] eqn:Ed; [|done]. intros [= <- <-].
      rewrite (proj1 (IH f' s3 q Hf) v r1 Ev) by (intros _; by eapply expect_nonempty). cbn [mbind option_bind].
      rewrite (expect_some _ ","%char _ _ Ed) by done. by rewrite (expect_more _ _ _ q Ed).
Qed.

Lemma object_not_num f s j r : parse_value f ("{"%char :: s) = Some (j, r) → is_num j = false.
Proof.
  destruct f as [|f]; [done|]. cbn [parse_value]. rewrite skip_ws_id, ceq_refl by done.
  destruct (expect "}"%char s); [by intros [= <- _]|]. destruct (parse_members f s) as [[l r']|]; [|done]. by intros [= <- _].
Qed.

(** No proper prefix of the text of an object is JSON. *)
Lemma truncated_not_json l k : json_ok (JObj l) → (k < length (print_json (JObj l)))%nat →
  parse_json (take k (print_json (JObj l))) = None.
Proof.
  intros Hok Hk. set (t := print_json (JObj l)) in *. destruct (parse_json (take k t)) as [j|] eqn:Ej; [exfalso|done].
  unfold parse_json in Ej. destruct (parse_value _ (take k t)) as [[j' r]|] eqn:Ep; [|done].
  assert (is_num j' = false) as Hn.
  { destruct k as [|k]; [done|]. change (take (S k) t) with ("{"%char :: take k (tail t)) in Ep. by eapply object_not_num. }
  assert (length (take k t) ≤ length t)%nat as Hl by (rewrite length_take; lia).
  destruct (parse_more (S (2 * length (take k t))) (S (2 * length t)) (take k t) (drop k t) ltac:(apply le_n_S, Nat.mul_le_mono_l, Hl)) as [Hv _].
  specialize (Hv _ _ Ep ltac:(by rewrite Hn)). rewrite take_drop in Hv.
  pose proof (print_reads (JObj l) (S (2 * length t)) [] Hok ltac:(fold t; lia) I) as Hw. rewrite app_nil_r in Hw.
  fold t in Hw. rewrite Hw in Hv. injection Hv as _ Hr. symmetry in Hr. apply app_eq_nil in Hr as [_ Hd].
  apply (f_equal length) in Hd. rewrite length_drop in Hd. change (length (@nil ascii)) with 0%nat in Hd. clear - Hd Hk. lia.
Qed.

(** The text of an object cut to a buffer is read back exactly when nothing was cut. *)
Lemma parse_buffered n l : json_ok (JObj l) → (0 < n)%nat →
  parse_json (bprintf n (print_json (JObj l))) =
    if (length (print_json (JObj l)) <? n)%nat then Some (JObj l) else None.
Proof.
  intros Hok Hn. destruct (Nat.ltb_spec (length (print_json (JObj l))) n) as [Hlt|Hge].
  - rewrite bprintf_short by done. by apply parse_print.
  - unfold bprintf. apply truncated_not_json; [done|lia].
Qed.

End Json.
