(* ===== verification/Client.v ===== *)
(** * src/client.c: per-connection state and control I/O *)

From S2P Require Import Prelude Types CLib Sys Tls FsIface Pollset World.
Import CLib Tls.

Local Open Scope Z_scope.

Module Client.

(** [opftp_client_new]: the [calloc]ed client with its initial fields;
    [peerlen] at most the size of the storage. *)
Definition opftp_client_new (fd : Z) (peer : sockaddr) (peerlen : Z) : opftp_client :=
  mk_client 1 1 fd (if 0 <? peerlen then peer else SA_unspec) (u16 peerlen) [] 0 false false
    [] (B "/") None false 0 [] false [] false None false 0 (-1) SA_unspec 0 false 0.

(** ** The read buffer *)

(** The shift of unread bytes to the front. *)
Definition compact (c : opftp_client) : opftp_client :=
  c <| c_rbuf := drop (c_rpos c) (c_rbuf c) |> <| c_rpos := 0%nat |>.

(** Bytes received into the free part of the buffer. *)
Definition append_rbuf (c : opftp_client) (b : bytes) : opftp_client :=
  c <| c_rbuf := c_rbuf c ++ b |>.

(** [opftp_client_read]: the number of bytes read, 0 for EOF, -2 when there
    is nothing yet, -1 for an error or a full buffer. *)
Definition opftp_client_read {OS} `{SysOps OS} (c0 : opftp_client) (os : OS)
  : Z * opftp_client * OS :=
  let c := compact c0 in
  if (OPFTP_RBUF <=? c_rlen c)%nat then (-1, c, os)
  else
    let room := (OPFTP_RBUF - c_rlen c)%nat in
    match c_tls c with
    | Some t =>
       if c_tls_handshaking c then
         match sys_recv (c_fd c) room os with
         | (Ok b, os') => (Z.of_nat (length b), append_rbuf c b, os')
         | (Err e, os') => (if bool_decide (e = EAGAIN) then -2 else -1, c, os')
         end
       else
         let '(r, (t', os')) := opftp_tls_read room t os in
         let c' := c <| c_tls := Some t' |> in
         match r with
         | IO_DONE b => (Z.of_nat (length b), append_rbuf c' b, os')
         | IO_WANT_READ | IO_WANT_WRITE => (-2, c', os')
         | IO_ERR => (-1, c', os')
         end
    | None =>
       match sys_recv (c_fd c) room os with
       | (Ok b, os') => (Z.of_nat (length b), append_rbuf c b, os')
       | (Err e, os') => (if bool_decide (e = EAGAIN) then -2 else -1, c, os')
       end
    end.

(** The bytes before the first LF and the bytes after it. *)
Fixpoint split_lf (s : bytes) : option (bytes * bytes) :=
  match s with
  | [] => None
  | c :: r =>
     if ceq c LF then Some ([], r)
     else match split_lf r with Some (a, q) => Some (c :: a, q) | None => None end
  end.

(** The line without a final CR. *)
Definition strip_cr (l : bytes) : bytes :=
  if bool_decide (last l = Some CR) then take (length l - 1) l else l.

(** [opftp_client_getline]: the bytes copied to [out], when a line is
    complete. *)
Definition opftp_client_getline (c : opftp_client) (outsz : nat)
  : option bytes * opftp_client :=
  match split_lf (drop (c_rpos c) (c_rbuf c)) with
  | None => (None, c)
  | Some (l, _) =>
     (Some (take (outsz - 1) (strip_cr l)),
      c <| c_rpos := (c_rpos c + length l + 1)%nat |>)
  end.

(** ** Writing to the control connection *)

Section Send.
Context {OS : Type} `{SysOps OS}.

(** The reactor-thread loop of [opftp_client_send_raw] from offset [off] on:
    [rest] are the bytes still to send. [None] when the fuel runs out. *)
Fixpoint send_loop (fuel : nat) (c : opftp_client) (rest : bytes) (os : OS)
  : option (bool * opftp_client * OS) :=
  match rest with
  | [] => Some (true, c, os)
  | _ :: _ =>
     match fuel with
     | O => None
     | S f =>
        match c_tls c, c_tls_handshaking c with
        | Some t, false =>
           let '(r, (t', os1)) := opftp_tls_write rest t os in
           let c1 := c <| c_tls := Some t' |> in
           match r with
           | IO_DONE n => send_loop f c1 (drop n rest) os1
           | IO_ERR => Some (false, c1, os1)
           | _ =>
              let ev := match r with IO_WANT_WRITE => POLLOUT | _ => POLLIN end in
              match sys_poll [(c_fd c, ev)] 1000 os1 with
              | (Ok revs, os2) =>
                 if bool_decide (Forall (λ r, r = 0) revs) then Some (false, c1, os2)
                 else send_loop f c1 rest os2
              | (Err _, os2) => Some (false, c1, os2)
              end
           end
        | _, _ =>
           match sys_send (c_fd c) rest os with
           | (Ok (S n), os1) => send_loop f c (drop (S n) rest) os1
           | (Ok O, os1) => Some (false, c, os1)
           | (Err e, os1) =>
              if bool_decide (e = EAGAIN) then
                match sys_poll [(c_fd c, POLLOUT)] 1000 os1 with
                | (Ok revs, os2) =>
                   if bool_decide (Forall (λ r, r = 0) revs) then Some (false, c, os2)
                   else send_loop f c rest os2
                | (Err _, os2) => Some (false, c, os2)
                end
              else Some (false, c, os1)
           end
        end
     end
  end.

End Send.

(** ** Replies queued off the reactor thread *)

(** [on_reactor_thread], for a caller that knows which thread it is. *)
Definition on_reactor_thread (s : opftp_server) (self_is_reactor : bool) : bool :=
  if negb (s_reactor_tid_set s) then true else self_is_reactor.

Definition opftp_client_retain (c : opftp_client) : opftp_client :=
  c <| c_refs := c_refs c + 1 |>.

(** Waking the reactor, when it has a pollset. *)
Definition wake_reactor {OS} `{SysOps OS} (s : opftp_server) (os : OS) : OS :=
  match s_pollset s with Some ps => Pollset.opftp_pollset_wake ps os | None => os end.

(** [queue_reply], on the worker that sends. *)
Definition queue_reply {OS} `{SysOps OS} (id : cid) (c : opftp_client) (text : bytes)
  (s : opftp_server) (os : OS) : opftp_client * opftp_server * OS :=
  (opftp_client_retain c,
   s <| s_replies := s_replies s ++ [mk_pending id (c_generation c) text] |>,
   wake_reactor s os).

Section Actions.
Context {FS OS : Type} `{FsOps FS} `{SysOps OS}.

(** [opftp_client_release] on the handler's client: a client whose count
    reaches 0 has been freed. *)
Definition opftp_client_release : HM FS OS () :=
  c ← get_cl;
  _ ← mod_cl (λ c, c <| c_refs := c_refs c - 1 |>);
  if c_refs c =? 1 then opftp_close_fd (c_fd c) else mret ().

Definition opftp_client_send (msg : bytes) : HM FS OS () :=
  send_raw (bprintf 1024 (msg ++ CRLF)).

Definition opftp_client_send_reply (code : Z) (msg : bytes) : HM FS OS () :=
  send_raw (bprintf 1024 (fmt_d code ++ B " " ++ msg ++ CRLF)).

Definition opftp_client_disconnect : HM FS OS () :=
  mod_cl (λ c, c <| c_disconnect_requested := true |>).

(** The pollset part of [opftp_client_start_tls] and of the handshake steps. *)
Definition pollset_mod_client (events : Z) : HM FS OS () :=
  c ← get_cl; s ← get_srv;
  match s_pollset s with
  | Some ps =>
     if 0 <=? c_poll_handle c
     then mod_srv (λ s, s <| s_pollset := Some (Pollset.opftp_pollset_mod ps (c_poll_handle c) events) |>)
     else mret ()
  | None => mret ()
  end.

(** [opftp_client_start_tls]: [true] for the return value 0. *)
Definition opftp_client_start_tls : HM FS OS bool :=
  c ← get_cl; s ← get_srv;
  if negb (s_tls s) || bool_decide (is_Some (c_tls c)) then mret false
  else if c_tls_handshaking c then mret false
  else
    let pending := drop (c_rpos c) (c_rbuf c) in
    _ ← mod_cl (λ c, c <| c_rbuf := [] |> <| c_rpos := 0%nat |>);
    h ← st_get;
    let deadline := sys_now_ms (h_os h) + 10000 in
    t ← os_call (opftp_tls_session_create (s_tls s) (c_fd c) pending deadline);
    match t with
    | None => mret false
    | Some t =>
       _ ← mod_cl (λ c, c <| c_tls := Some t |> <| c_tls_handshaking := true |>);
       _ ← pollset_mod_client (Z.lor POLLIN (Z.lor POLLPRI POLLOUT));
       mret true
    end.

End Actions.

(** ** Framing of control lines *)

(** The lines of a byte stream as RFC 959 clients delimit them, and the bytes
    after the last LF. *)
Fixpoint stream_lines (fuel : nat) (outsz : nat) (s : bytes) : list bytes * bytes :=
  match fuel with
  | O => ([], s)
  | S f =>
     match split_lf s with
     | None => ([], s)
     | Some (l, q) =>
        let '(ls, r) := stream_lines f outsz q in (take (outsz - 1) (strip_cr l) :: ls, r)
     end
  end.

(** The inner loop of the reactor: every line the buffer holds. *)
Fixpoint getlines (fuel : nat) (c : opftp_client) (outsz : nat) : list bytes * opftp_client :=
  match fuel with
  | O => ([], c)
  | S f =>
     match opftp_client_getline c outsz with
     | (None, c') => ([], c')
     | (Some l, c') => let '(ls, c'') := getlines f c' outsz in (l :: ls, c'')
     end
  end.

(** The read loop of [handle_client_events] without the commands: read, take
    out every complete line, repeat until nothing more is received. Returns
    the lines, and the bytes received for the statement below. *)
Fixpoint receive {OS} `{SysOps OS} (fuel : nat) (outsz : nat) (c : opftp_client) (os : OS)
  : list bytes * bytes * opftp_client * OS :=
  match fuel with
  | O => ([], [], c, os)
  | S f =>
     let '(n, c1, os1) := opftp_client_read c os in
     if 0 <? n then
       let got := drop (c_rlen c1 - Z.to_nat n) (c_rbuf c1) in
       let '(ls, c2) := getlines (S (c_rlen c1)) c1 outsz in
       let '(ls', got', c3, os3) := receive f outsz c2 os1 in
       (ls ++ ls', got ++ got', c3, os3)
     else ([], [], c1, os1)
  end.

Definition unread (c : opftp_client) : bytes := drop (c_rpos c) (c_rbuf c).

Lemma split_lf_Some s l q : split_lf s = Some (l, q) → s = l ++ LF :: q ∧ LF ∉ l.
Proof.
  revert l q. induction s as [|c s IH]; intros l q Hs; cbn [split_lf] in Hs; [done|].
  destruct (ceq_spec c LF) as [->|Hc].
  { simplify_eq. split; [done|set_solver]. }
  destruct (split_lf s) as [[a q']|]; [|done]. simplify_eq.
  destruct (IH _ _ eq_refl) as [-> ?]. set_solver.
Qed.

Lemma split_lf_None s : split_lf s = None ↔ LF ∉ s.
Proof.
  induction s as [|c s IH]; cbn [split_lf]; [split; [set_solver|done]|].
  destruct (ceq_spec c LF) as [->|Hc]; [split; [done|set_solver]|].
  destruct (split_lf s) as [[a q]|]; set_solver.
Qed.

Lemma split_lf_app l q : LF ∉ l → split_lf (l ++ LF :: q) = Some (l, q).
Proof.
  induction l as [|c l IH]; intros Hl; cbn [app split_lf]; [by rewrite ceq_refl|].
  rewrite (proj2 (ceq_false c LF)) by set_solver. by rewrite IH by set_solver.
Qed.

Lemma stream_lines_fuel n f f' s :
  (length s < f)%nat → (length s < f')%nat → stream_lines f n s = stream_lines f' n s.
Proof.
  revert f' s. induction f as [|f IH]; intros f' s Hf Hf'; [lia|].
  destruct f' as [|f']; [lia|]. cbn [stream_lines].
  destruct (split_lf s) as [[l q]|] eqn:E; [|done]. apply split_lf_Some in E as [-> _].
  rewrite length_app in *. cbn [length] in *. by rewrite (IH f') by lia.
Qed.

Lemma stream_lines_rest_le n f : ∀ s ls r,
  stream_lines f n s = (ls, r) → (length r ≤ length s)%nat.
Proof.
  induction f as [|f IH]; intros q ls r Er; cbn in Er; [by simplify_eq|].
  destruct (split_lf q) as [[a p]|] eqn:E; [|by simplify_eq].
  destruct (stream_lines f n p) as [ls' r'] eqn:E'. simplify_eq.
  apply split_lf_Some in E as [-> _]. apply IH in E'. rewrite length_app. cbn. lia.
Qed.

Lemma stream_lines_app n f s t :
  (length s + length t < f)%nat →
  stream_lines f n (s ++ t) =
    let '(ls, r) := stream_lines f n s in
    let '(ls', r') := stream_lines f n (r ++ t) in (ls ++ ls', r').
Proof.
  revert s. induction f as [|f IH]; intros s Hf; [lia|].
  cbn [stream_lines]. destruct (split_lf s) as [[l q]|] eqn:E.
  - apply split_lf_Some in E as [-> Hl]. rewrite length_app in Hf. cbn [length] in Hf.
    rewrite <-app_assoc. cbn [app]. rewrite split_lf_app by done.
    rewrite (IH q) by lia. destruct (stream_lines f n q) as [ls r] eqn:Er.
    pose proof (stream_lines_rest_le _ _ _ _ _ Er) as Hr.
    change (match split_lf (r ++ t) with
            | Some (l0, q0) => let '(ls0, r0) := stream_lines f n q0 in
                               (take (n - 1) (strip_cr l0) :: ls0, r0)
            | None => ([], r ++ t)
            end) with (stream_lines (S f) n (r ++ t)).
    rewrite (stream_lines_fuel n (S f) f (r ++ t)) by (rewrite length_app; lia).
    by destruct (stream_lines f n (r ++ t)).
  - destruct (split_lf (s ++ t)) as [[l q]|]; [|done]. by destruct (stream_lines f n q).
Qed.

Lemma getlines_spec f c n :
  (length (unread c) < f)%nat →
  (getlines f c n).1 = (stream_lines f n (unread c)).1 ∧
  unread (getlines f c n).2 = (stream_lines f n (unread c)).2.
Proof.
  revert c. induction f as [|f IH]; intros c Hf; [lia|].
  cbn [getlines stream_lines]. unfold opftp_client_getline. fold (unread c).
  destruct (split_lf (unread c)) as [[l q]|] eqn:E; [|done].
  set (c' := c <| c_rpos := (c_rpos c + length l + 1)%nat |>).
  assert (unread c' = q) as Hq.
  { apply split_lf_Some in E as [E _]. unfold unread in *. unfold c'. cbn.
    replace (c_rpos c + length l + 1)%nat with (c_rpos c + S (length l))%nat by lia.
    rewrite <-drop_drop, E. cbn. rewrite drop_app. rewrite drop_ge by lia.
    replace (S (length l) - length l)%nat with 1%nat by lia. done. }
  apply split_lf_Some in E as [E _].
  assert (length q < f)%nat by (rewrite E, length_app in Hf; cbn in Hf; lia).
  destruct (IH c') as [H1 H2]; [by rewrite Hq|]. rewrite Hq in *.
  destruct (getlines f c' n), (stream_lines f n q). cbn in *. by subst.
Qed.

Lemma stream_lines_rest n f s : (length s < f)%nat → LF ∉ (stream_lines f n s).2.
Proof.
  revert s. induction f as [|f IH]; intros s Hf; [lia|]. cbn [stream_lines].
  destruct (split_lf s) as [[l q]|] eqn:E; [|by apply split_lf_None in E].
  apply split_lf_Some in E as [-> _]. rewrite length_app in Hf. cbn [length] in Hf.
  specialize (IH q ltac:(lia)). by destruct (stream_lines f n q).
Qed.

(** What a read does to the unread bytes, on a plain or a TLS connection. *)
Lemma read_unread {OS} `{SysOps OS} c (os os' : OS) n c' :
  opftp_client_read c os = (n, c', os') →
  c_rpos c' = 0%nat ∧
  if 0 <? n then unread c' = unread c ++ drop (c_rlen c' - Z.to_nat n) (c_rbuf c')
  else unread c' = unread c.
Proof.
  unfold opftp_client_read. set (c0 := compact c). intros Hr.
  assert (∀ (d : opftp_client) b, c_rpos d = 0%nat → c_rbuf d = unread c →
    c_rpos (append_rbuf d b) = 0%nat ∧
    if 0 <? Z.of_nat (length b)
    then unread (append_rbuf d b) = unread c ++
           drop (c_rlen (append_rbuf d b) - Z.to_nat (Z.of_nat (length b))) (c_rbuf (append_rbuf d b))
    else unread (append_rbuf d b) = unread c) as Happ.
  { intros d b Hd Hb. split; [done|].
    assert (unread (append_rbuf d b) = unread c ++ b) as ->
      by (unfold unread at 1, append_rbuf; cbn; by rewrite Hd, Hb).
    destruct (0 <? Z.of_nat (length b)) eqn:Eb; btests.
    - unfold c_rlen, append_rbuf. cbn. rewrite Hb, Nat2Z.id, length_app, Nat.add_sub.
      by rewrite drop_app_length.
    - destruct b; [by rewrite app_nil_r|cbn in *; lia]. }
  assert (∀ e : errno, (0 <? (if bool_decide (e = EAGAIN) then -2 else -1)) = false) as Herr
    by (intros; by destruct (bool_decide (e = EAGAIN))).
  repeat case_match; simplify_eq; try done;
    match goal with
    | E : (0 <? Z.of_nat (length ?a)) = _ |- context [append_rbuf ?d ?a] =>
       pose proof (Happ d a eq_refl eq_refl) as HH; rewrite E in HH; exact HH
    end.
Qed.

Lemma receive_lines {OS} `{SysOps OS} f n : ∀ c (os : OS) ls got c' os',
  LF ∉ unread c → receive f n c os = (ls, got, c', os') →
  stream_lines (S (length (unread c ++ got))) n (unread c ++ got) = (ls, unread c').
Proof.
  induction f as [|f IH]; intros c os ls got c' os' Hlf Hr; cbn [receive] in Hr.
  { simplify_eq. rewrite app_nil_r. cbn [stream_lines]. by rewrite (proj2 (split_lf_None _)). }
  destruct (opftp_client_read c os) as [[k c1] os1] eqn:Ec.
  destruct (read_unread _ _ _ _ _ Ec) as [Hp Hu]. destruct (0 <? k).
  2:{ simplify_eq. rewrite app_nil_r. cbn [stream_lines]. by rewrite Hu, (proj2 (split_lf_None _)). }
  set (g := drop (c_rlen c1 - Z.to_nat k) (c_rbuf c1)) in *.
  assert (length (unread c1) ≤ c_rlen c1)%nat as Hlen
    by (unfold unread, c_rlen; rewrite length_drop; lia).
  destruct (getlines_spec (S (c_rlen c1)) c1 n ltac:(lia)) as [H1 H2].
  destruct (getlines _ c1 n) as [l1 c2]. cbn [fst snd] in H1, H2.
  destruct (receive f n c2 os1) as [[[l2 g2] c3] os3] eqn:E2. injection Hr as <- <- <- <-.
  rewrite (stream_lines_fuel n _ (S (length (unread c ++ g ++ g2)))) in H1
    by (rewrite Hu, ?length_app in *; lia).
  rewrite (stream_lines_fuel n _ (S (length (unread c ++ g ++ g2)))) in H2
    by (rewrite Hu, ?length_app in *; lia).
  assert (LF ∉ unread c2) as Hc2.
  { rewrite H2. apply stream_lines_rest. rewrite Hu, !length_app. lia. }
  pose proof (IH _ _ _ _ _ _ Hc2 E2) as IH2.
  rewrite app_assoc, stream_lines_app by (rewrite !length_app; lia).
  rewrite <-app_assoc, <-Hu.
  destruct (stream_lines _ n (unread c1)) as [a r] eqn:Ea. cbn [fst snd] in H1, H2. subst a r.
  rewrite (stream_lines_fuel n _ (S (length (unread c2 ++ g2)))).
  - by rewrite IH2.
  - pose proof (stream_lines_rest_le _ _ _ _ _ Ea).
    rewrite Hu, !length_app in *. lia.
  - lia.
Qed.

(** C18. Command framing does not depend on how the network cuts the stream:
    for any connection, plain or TLS, and any sequence of reads, the lines the
    reactor takes out of the buffer are the LF-terminated lines of the bytes
    received, each without its CR and cut at the line buffer, in order, each
    once; and what stays unread is what follows the last LF. *)
Theorem getline_framing {OS} `{SysOps OS} f n c (os os' : OS) ls got c' :
  LF ∉ unread c → receive f n c os = (ls, got, c', os') →
  stream_lines (S (length (unread c ++ got))) n (unread c ++ got) = (ls, unread c').
Proof. apply receive_lines. Qed.


Lemma getline_framing_witness :
  let c := opftp_client_new 5 SA_unspec 0 in
  let c' := c <| c_rbuf := B "PAS" |> in
  let got := B "NOOP" ++ CRLF ++ B "SYST" ++ [LF] ++ B "PAS" in
  stream_lines (S (length (unread c ++ got))) 1024 (unread c ++ got)
    = ([B "NOOP"; B "SYST"], unread c').
Proof.
  apply (getline_framing 4 1024 (opftp_client_new 5 SA_unspec 0)
           (script_with [B "NO"; B "OP" ++ [CR]; LF :: B "SYST" ++ [LF] ++ B "PAS"])
           script0).
  - vm_compute. intros H. inversion H.
  - vm_compute. reflexivity.
Defined.

(** ** Delivery of control replies *)

Section Delivery.
Context {OS : Type} `{SysStream OS}.

Lemma send_loop_total f c s : ∀ os,
  c_tls c = None → (length s + stall os ≤ f)%nat →
  ∃ ok os', send_loop f c s os = Some (ok, c, os') ∧
    ∃ p, wire os' (c_fd c) = wire os (c_fd c) ++ p ∧
         if (ok : bool) then p = s else p `prefix_of` s.
Proof.
  remember (length s) as k eqn:Hk. intros os Ht Hf. assert (length s ≤ k)%nat as Hs by lia.
  clear Hk. revert k s os Hs Hf. induction f as [|f IH]; intros k s os Hs Hf.
  { destruct s; [|cbn in Hs; lia]. exists true, os. split; [done|]. exists []. by rewrite app_nil_r. }
  destruct s as [|x s].
  { exists true, os. split; [done|]. exists []. by rewrite app_nil_r. }
  cbn [send_loop]. rewrite Ht. set (rest := x :: s) in *.
  destruct (sys_send (c_fd c) rest os) as [[n|e] os1] eqn:Es.
  - destruct (send_ok _ _ _ _ _ Es) as (Hn & Hw & Hst). destruct n as [|n].
    { exists false, os1. split; [done|]. exists []. rewrite Hw, take_0. split; [done|apply prefix_nil]. }
    destruct (IH (k - S n)%nat (drop (S n) rest) os1) as (ok & os' & -> & p & Hp & Hok).
    { rewrite length_drop. lia. } { lia. }
    exists ok, os'. split; [done|]. exists (take (S n) rest ++ p).
    rewrite Hp, Hw, <-app_assoc. split; [done|]. destruct ok.
    + subst p. apply take_drop.
    + rewrite <-(take_drop (S n) rest) at 2. by apply prefix_app.
  - destruct (send_err _ _ _ _ _ Es) as (Hw & Hst & Hag).
    assert (∃ p, wire os1 (c_fd c) = wire os (c_fd c) ++ p ∧ p `prefix_of` rest) as Hfail.
    { exists []. rewrite app_nil_r. split; [done|apply prefix_nil]. }
    case_bool_decide as Ee; [|by exists false, os1].
    destruct (sys_poll _ _ os1) as [[revs|e2] os2] eqn:Ep;
      destruct (poll_keeps _ _ _ _ _ (c_fd c) Ep) as [Hw2 Hst2];
      [|exists false, os2; by rewrite Hw2].
    case_bool_decide; [exists false, os2; by rewrite Hw2|].
    destruct (IH k rest os2) as (ok & os' & -> & p & Hp & Hok); [done|specialize (Hag Ee); lia|].
    exists ok, os'. split; [done|]. exists p. by rewrite Hp, Hw2, Hw.
Qed.

(** A control reply is delivered whole, in order and once, or the call
    reports failure: on a plain connection [opftp_client_send_raw] returns
    within as many rounds as there are bytes and EAGAIN answers; on success
    the kernel has been given exactly the line, on failure a prefix of it. *)
Theorem send_raw_delivers f c s os :
  c_tls c = None → (length s + stall os ≤ f)%nat →
  ∃ ok os', send_loop f c s os = Some (ok, c, os') ∧
    ∃ p, wire os' (c_fd c) = wire os (c_fd c) ++ p ∧
         if (ok : bool) then p = s else p `prefix_of` s.
Proof. apply send_loop_total. Qed.

End Delivery.

Lemma send_raw_delivers_witness :
  ∃ ok os', send_loop 8 (opftp_client_new 5 SA_unspec 0) (B "200 OK.") script0
              = Some (ok, opftp_client_new 5 SA_unspec 0, os') ∧
    ∃ p, wire os' 5 = wire script0 5 ++ p ∧
         if (ok : bool) then p = B "200 OK." else p `prefix_of` B "200 OK.".
Proof.
  apply (send_raw_delivers 8 (opftp_client_new 5 SA_unspec 0) (B "200 OK.") script0);
    [done|cbn; lia].
Defined.

End Client.
