(* ===== verification/Logic.v ===== *)
(** * Reasoning about reactor-thread code

    [keeps R m]: running [m] relates the state before and after by [R]; for a
    reflexive and transitive [R] it is proved statement by statement. [finals
    n m]: running [m] settles [n] replies: the final replies sent (RFC 959
    4.2) and the ones a running job owes the client add up to [n] more than
    was owed before. The tactics [keeps_steps] and [final_steps] follow the
    structure of a handler. *)

From S2P Require Import Prelude Types CLib Listing Sys FsIface FsRooted Queue World Client.
Import CLib Listing Client.

Local Open Scope Z_scope.

(** ** Relations every step keeps *)

Definition keeps {S A} (R : S → S → Prop) (m : ST S A) : Prop := ∀ s, R s (m s).2.

Section Keeps.
Context {S : Type} (R : S → S → Prop) `{!Reflexive R} `{!Transitive R}.

Lemma keeps_ret {A} (a : A) : keeps R (mret a).
Proof. intros s. reflexivity. Qed.

Lemma keeps_gets {A} (f : S → A) : keeps R (st_gets f).
Proof. intros s. reflexivity. Qed.

Lemma keeps_get : keeps R (st_get).
Proof. intros s. reflexivity. Qed.

Lemma keeps_bind {A B} (m : ST S A) (k : A → ST S B) :
  keeps R m → (∀ a, keeps R (k a)) → keeps R (m ≫= k).
Proof.
  intros Hm Hk s. rewrite ST_bind_eq. specialize (Hm s).
  destruct (m s) as [a s']. etrans; [exact Hm|apply Hk].
Qed.

End Keeps.

(** Split a handler into its steps; [leaf] closes the primitive ones. *)
Ltac keeps_steps leaf :=
  repeat first
    [ progress intros
    | match goal with
      | |- Reflexive _ => apply _
      | |- Transitive _ => apply _
      | |- keeps _ (mret _) => apply keeps_ret
      | |- keeps _ st_get => apply keeps_get
      | |- keeps _ get_cl => apply keeps_gets
      | |- keeps _ get_srv => apply keeps_gets
      | |- keeps _ (_ ≫= _) => apply keeps_bind
      | |- keeps _ (match ?x with _ => _ end) => destruct x
      end
    | solve [leaf] ].

(** ** Final replies *)

(** Three digits, the first not 1 (150 is a preliminary reply), and a space. *)
Definition is_final (l : bytes) : bool :=
  match l with
  | a :: b :: c :: d :: _ =>
     isdigit a && negb (ceq a "1") && isdigit b && isdigit c && ceq d SPACE
  | _ => false
  end.

Definition count_final (ls : list bytes) : nat := length (filter (λ l, is_final l = true) ls).

Lemma count_final_app a b : count_final (a ++ b) = (count_final a + count_final b)%nat.
Proof. unfold count_final. by rewrite list.filter_app, length_app. Qed.

Section Finals.
Context {FS OS : Type} `{FsOps FS} `{SysOps OS}.

(** Replies that come with the completion of the client's job: its own, and
    the one to an ABOR. *)
Definition owed (h : hstate FS OS) : nat :=
  (if c_job (h_cl h) then 1 else 0) + (if c_abor_pending (h_cl h) then 1 else 0).

Definition finals {A} (n : nat) (m : HM FS OS A) : Prop :=
  ∀ h, ∃ ls, h_out (m h).2 = h_out h ++ ls ∧ (count_final ls + owed (m h).2 = owed h + n)%nat.

Lemma finals_ret {A} (a : A) : finals 0 (mret a).
Proof. intros h. exists []. rewrite app_nil_r. split; [done|]. cbn. lia. Qed.

Lemma finals_bind {A B} n k (m : HM FS OS A) (f : A → HM FS OS B) :
  finals n m → (∀ a, finals k (f a)) → finals (n + k) (m ≫= f).
Proof.
  intros Hm Hf h. rewrite ST_bind_eq. destruct (Hm h) as (ls & E & Hc).
  destruct (m h) as [a h']. destruct (Hf a h') as (ls' & E' & Hc').
  cbn [fst snd] in *. exists (ls ++ ls'). rewrite E', E, app_assoc, count_final_app. split; [done|lia].
Qed.

Lemma finals_after {A B} n (m : HM FS OS A) (f : A → HM FS OS B) :
  finals 0 m → (∀ a, finals n (f a)) → finals n (m ≫= f).
Proof. intros. by apply (finals_bind 0 n). Qed.

Lemma finals_before {A B} n (m : HM FS OS A) (f : A → HM FS OS B) :
  finals n m → (∀ a, finals 0 (f a)) → finals n (m ≫= f).
Proof. intros. rewrite <-(Nat.add_0_r n). by apply finals_bind. Qed.

(** Actions that send nothing and leave what is owed. *)
Definition silent {A} (m : HM FS OS A) : Prop := ∀ h,
  h_out (m h).2 = h_out h ∧ c_job (h_cl (m h).2) = c_job (h_cl h) ∧
  c_abor_pending (h_cl (m h).2) = c_abor_pending (h_cl h).

Lemma silent_owed {A} (m : HM FS OS A) h : silent m → owed (m h).2 = owed h.
Proof. intros Hm. destruct (Hm h) as (_ & Hj & Ha). unfold owed. by rewrite Hj, Ha. Qed.

Lemma silent_finals {A} (m : HM FS OS A) : silent m → finals 0 m.
Proof.
  intros Hm h. exists []. rewrite app_nil_r, (silent_owed m h Hm). split; [apply Hm|]. cbn. lia.
Qed.

Lemma silent_ret {A} (a : A) : silent (mret a).
Proof. done. Qed.
Lemma silent_get : silent st_get.
Proof. done. Qed.
Lemma silent_gets {A} (f : hstate FS OS → A) : silent (st_gets f).
Proof. done. Qed.
Lemma silent_mod_srv f : silent (mod_srv f).
Proof. done. Qed.
Lemma silent_mod_job j f : silent (mod_job j f).
Proof. done. Qed.
Lemma silent_mod_os f : silent (mod_os f).
Proof. done. Qed.
Lemma silent_fs_call {A} (op : rooted → FsM FS A) : silent (fs_call op).
Proof. intros h. unfold fs_call. repeat case_match; done. Qed.
Lemma silent_os_call {A} (op : OS → res A * OS) : silent (os_call op).
Proof. intros h. unfold os_call. repeat case_match; done. Qed.
Lemma silent_bind {A B} (m : HM FS OS A) (f : A → HM FS OS B) :
  silent m → (∀ a, silent (f a)) → silent (m ≫= f).
Proof.
  intros Hm Hf h. rewrite ST_bind_eq. destruct (Hm h) as (E1 & E2 & E3). destruct (m h) as [a h'].
  destruct (Hf a h') as (F1 & F2 & F3). cbn [snd] in *. split_and!; congruence.
Qed.

Lemma silent_release : silent opftp_client_release.
Proof.
  unfold opftp_client_release. apply silent_bind; [done|]. intros c.
  apply silent_bind; [done|]. intros _. case_match; done.
Qed.

(** ** The reply functions *)

Lemma is_final_bprintf n s : (5 ≤ n)%nat → is_final (bprintf n s) = is_final s.
Proof.
  intros Hn. unfold bprintf. do 5 (destruct n as [|n]; [lia|]).
  replace (S (S (S (S (S n)))) - 1)%nat with (S (S (S (S n)))) by lia.
  by destruct s as [|? [|? [|? [|? ?]]]].
Qed.

Lemma finals_send_raw l : finals (if is_final l then 1 else 0) (send_raw l).
Proof.
  intros h. exists [l]. split; [done|]. change (owed (send_raw l h).2) with (owed h).
  unfold count_final. rewrite filter_cons, filter_nil.
  destruct (is_final l); [rewrite decide_True by done|rewrite decide_False by done]; cbn [length]; lia.
Qed.

Lemma fmt_d_3 code :
  100 ≤ code < 1000 →
  fmt_d code = [digit (code / 100); digit (code / 10 mod 10); digit (code mod 10)].
Proof.
  intros Hc. unfold fmt_d. ztests. rewrite fmt_u_step by lia.
  assert (10 ≤ code / 10) by (Z.div_mod_to_equations; lia).
  rewrite fmt_u_step by lia. rewrite Z.div_div by lia.
  rewrite fmt_u_small by (Z.div_mod_to_equations; lia). done.
Qed.

Lemma ceq_digit_1 d : 0 ≤ d < 10 → ceq (digit d) "1" = (d =? 1).
Proof.
  intros Hd. assert (d = 0 ∨ d = 1 ∨ d = 2 ∨ d = 3 ∨ d = 4 ∨ d = 5 ∨ d = 6 ∨ d = 7 ∨ d = 8 ∨ d = 9) as E by lia.
  by repeat destruct E as [-> | E]; [..|subst d].
Qed.

(** A reply is final unless its code is below 200. *)
Lemma reply_final code msg :
  100 ≤ code < 1000 →
  is_final (bprintf 1024 (fmt_d code ++ B " " ++ msg ++ CRLF)) = negb (code <? 200).
Proof.
  intros Hc. rewrite is_final_bprintf by (unfold Nat.le; lia). rewrite fmt_d_3 by done.
  cbn [app is_final B String.list_ascii_of_string].
  rewrite !isdigit_digit, ceq_digit_1 by (Z.div_mod_to_equations; lia).
  rewrite ceq_refl, !andb_true_r, !andb_true_l. f_equal.
  destruct (Z.eqb_spec (code / 100) 1), (Z.ltb_spec code 200);
    try done; exfalso; Z.div_mod_to_equations; lia.
Qed.

Lemma finals_reply code msg :
  200 ≤ code < 1000 → finals 1 (opftp_client_send_reply code msg).
Proof.
  intros Hc. unfold opftp_client_send_reply.
  pose proof (finals_send_raw (bprintf 1024 (fmt_d code ++ B " " ++ msg ++ CRLF))) as Hf.
  rewrite reply_final in Hf by lia. by destruct (Z.ltb_spec code 200); [lia|].
Qed.

(** A preliminary reply settles nothing. *)
Lemma finals_prelim code msg :
  100 ≤ code < 200 → finals 0 (opftp_client_send_reply code msg).
Proof.
  intros Hc. unfold opftp_client_send_reply.
  pose proof (finals_send_raw (bprintf 1024 (fmt_d code ++ B " " ++ msg ++ CRLF))) as Hf.
  rewrite reply_final in Hf by lia. by destruct (Z.ltb_spec code 200); [|lia].
Qed.

Lemma finals_send s n : is_final (s ++ CRLF) = (n =? 1)%nat → (n ≤ 1)%nat → finals n (opftp_client_send s).
Proof.
  intros Hs Hn. unfold opftp_client_send. pose proof (finals_send_raw (bprintf 1024 (s ++ CRLF))) as Hf.
  rewrite is_final_bprintf in Hf by lia. rewrite Hs in Hf.
  destruct n as [|[|n]]; [done|done|lia].
Qed.

(** A listing line starts with a type letter or a dash. *)
Lemma listing_not_final lt n de name :
  (5 ≤ n)%nat → is_final (snd (opftp_listing_format lt n de name)) = false.
Proof.
  intros Hn. unfold opftp_listing_format. cbn [snd]. rewrite is_final_bprintf by done.
  unfold listing_text. repeat case_match; unfold opftp_mode_str; cbn [app is_final];
    by destruct (is_dir (de_mode de)).
Qed.

End Finals.

#[export] Hint Resolve silent_ret silent_get silent_gets silent_mod_srv
  silent_mod_job silent_mod_os silent_fs_call silent_os_call silent_release : opftp.

(** Prove that an action sends nothing. *)
Ltac silent_steps :=
  repeat first
    [ progress intros
    | match goal with
      | |- silent (_ ≫= _) => apply silent_bind
      | |- silent (match ?x with _ => _ end) => destruct x
      | |- silent (mod_cl _) => solve [intros ?; done]
      end
    | solve [eauto 2 with opftp nocore]
    | progress unfold get_cl, get_srv, opftp_close_fd ].

(** Count the final replies of a handler: silent steps first. *)
Ltac final_steps :=
  repeat first
    [ progress intros
    | match goal with
      | |- finals 0 (mret _) => apply finals_ret
      | |- finals _ (opftp_client_send_reply _ _) => apply finals_reply; lia
      | |- finals _ (_ ≫= _) => apply finals_after; [solve [apply silent_finals; silent_steps]|]
      | |- finals 1 (_ ≫= _) => apply finals_before; [|solve [intros; apply silent_finals; silent_steps]]
      | |- finals _ (match ?x with _ => _ end) => destruct x
      end
    | solve [eauto 2 with opftp nocore] ].
