(* ===== verification/Datachan.v ===== *)
(** * src/datachan.c: the data connection and the end of a transfer

    Address comparison and the bounce checks, the establishment of the data
    connection on the worker, and the reactor's handling of a completion.
    The job queue is in Queue.v. *)

From S2P Require Import Prelude Types Sys FsIface World Client.
Import Client.

Local Open Scope Z_scope.

Module Datachan.

(** [addr_eq]: a v4-mapped IPv6 address equals its IPv4 form; ports are not
    compared. *)
Definition addr_eq (a b : sockaddr) : bool :=
  match a, b with
  | SA_in x _, SA_in y _ => streq x y
  | SA_in6 x _, SA_in6 y _ => streq x y
  | SA_unspec, SA_unspec => false
  | SA_in6 x _, SA_in y _ => opftp_is_v4mapped x && streq (take 4 (drop 12 x)) y
  | SA_in x _, SA_in6 y _ => opftp_is_v4mapped y && streq (take 4 (drop 12 y)) x
  | _, _ => false
  end.

Definition peer_matches (s : opftp_server) (c : opftp_client) (peer : sockaddr) : bool :=
  if s_allow_foreign_port s then true else addr_eq (c_peer c) peer.

(** [opftp_datachan_precheck]: [true] for the return value 0. *)
Definition opftp_datachan_precheck (s : opftp_server) (c : opftp_client) : bool :=
  negb (c_have_data_peer c && negb (peer_matches s c (c_data_peer c))).

(** ** Connection establishment (worker thread) *)

Section Connect.
Context {OS : Type} `{SysOps OS}.

(** The descriptors polled: [fd], and the cancel pipe when there is one. *)
Definition poll_set (j : opftp_transfer_job) (fd events : Z) : list (Z * Z) :=
  (fd, events) ::
  (if 0 <=? fst (j_cancel_pipe j) then [(fst (j_cancel_pipe j), POLLIN)] else []).

(** The bounded wait both branches share: [Ok] when [fd] decided. *)
Definition poll_data (j : opftp_transfer_job) (fd events : Z) (os : OS) : res () * OS :=
  match sys_poll (poll_set j fd events) 2000 os with
  | (Err e, os1) => (Err e, os1)
  | (Ok revs, os1) =>
     if bool_decide (Forall (λ r, r = 0) revs) then (Err ETIMEDOUT, os1)
     else if (0 <=? fst (j_cancel_pipe j)) &&
             has (default 0 (revs !! 1%nat)) (Z.lor POLLIN (Z.lor POLLERR POLLHUP))
     then (Err (if j_cancelled j then ECANCELED else EAGAIN), os1)
     else (Ok (), os1)
  end.

(** [opftp_datachan_connect_job]. *)
Definition opftp_datachan_connect_job (s : opftp_server) (j : opftp_transfer_job) (os : OS)
  : res () * opftp_transfer_job * OS :=
  if 0 <=? j_pasv_fd j then
    match poll_data j (j_pasv_fd j) POLLIN os with
    | (Err e, os1) => (Err e, j, os1)
    | (Ok _, os1) =>
       match sys_accept (j_pasv_fd j) os1 with
       | (Err e, os2) => (Err e, j, os2)
       | (Ok (fd, ss), os2) =>
          let j1 := j <| j_data_fd := fd |> in
          if negb (s_allow_foreign_port s) && negb (addr_eq ss (j_ctl_peer j))
          then (Err EACCES, j1, os2)
          else (Ok (), j1 <| j_conn_ok := true |>, os2)
       end
    end
  else if j_have_data_peer j then
    match sys_socket (opftp_sockaddr_family (j_data_peer j)) os with
    | (Err e, os1) => (Err e, j, os1)
    | (Ok fd, os1) =>
       let j1 := j <| j_data_fd := fd |> in
       let '(r, os2) := sys_connect fd (j_data_peer j) os1 in
       match (match r with
              | Ok _ => None
              | Err e => if bool_decide (e = EINPROGRESS) then None else Some e
              end) with
       | Some e => (Err e, j1, os2)
       | None =>
          match poll_data j1 fd POLLOUT os2 with
          | (Err e, os3) => (Err e, j1, os3)
          | (Ok _, os3) =>
             match sys_so_error fd os3 with
             | (E0, os4) => (Ok (), j1 <| j_conn_ok := true |>, os4)
             | (e, os4) => (Err e, j1, os4)
             end
          end
       end
    end
  else (Err ENOTCONN, j, os).

End Connect.

(** ** Completion (reactor thread) *)

(** The final reply of a job whose client is still there. *)
Definition completion_reply (j : opftp_transfer_job) : Z * bytes :=
  if negb (j_conn_ok j) && negb (bool_decide (j_op j = OPFTP_JOB_COPY)) then
    match j_result j with
    | Err ECANCELED => (426, R426)
    | Err ETIMEDOUT | Err EACCES => (425, R425)
    | _ => (451, R451)
    end
  else
    match j_result j with
    | Ok _ => if bool_decide (j_op j = OPFTP_JOB_COPY)
              then (250, B "Copy successful.") else (226, R226)
    | Err (ECANCELED | EPIPE | ECONNRESET | ETIMEDOUT) => (426, R426)
    | Err (ENOENT | EACCES | ENOTDIR | EISDIR | EINVAL | ENAMETOOLONG | ELOOP) => (550, R550)
    | Err _ => (451, R451)
    end.

Section Complete.
Context {FS OS : Type} `{FsOps FS} `{SysOps OS}.

(** The reactor's close of the job's descriptors. *)
Definition close_job_fds (j : opftp_transfer_job) : HM FS OS () :=
  _ ← (if 0 <=? j_data_fd j then opftp_close_fd (j_data_fd j) else mret ());
  _ ← (if 0 <=? j_pasv_fd j then opftp_close_fd (j_pasv_fd j) else mret ());
  if 0 <=? fst (j_cancel_pipe j) then
    _ ← opftp_close_fd (fst (j_cancel_pipe j)); opftp_close_fd (snd (j_cancel_pipe j))
  else mret ().

(** [opftp_datachan_complete] on the job's client. *)
Definition opftp_datachan_complete (id : jid) : HM FS OS () :=
  h ← st_get;
  match h_jobs h !! id with
  | None => mret ()
  | Some j =>
     _ ← close_job_fds j;
     c ← get_cl;
     _ ← (if negb (j_generation j =? c_generation c) then mret ()
          else
            _ ← mod_cl (λ c, c <| c_job := None |>);
            let '(code, msg) := completion_reply j in
            _ ← opftp_client_send_reply code msg;
            if c_abor_pending c then
              _ ← opftp_client_send_reply 226 (B "Abort successful.");
              mod_cl (λ c, c <| c_abor_pending := false |>)
            else mret ());
     _ ← opftp_client_release;
     st_modify (λ h, h <| h_jobs := delete id (h_jobs h) |>)
  end.

End Complete.

End Datachan.
