(* ===== verification/Commands.v ===== *)
(** * src/commands.c: the FTP command handlers

    One definition per handler, in the order of the source, on the state of
    World.v. [param] is the C string after the command name, [None] for NULL
    (only the out-of-band ABOR passes it). [cmd_run] maps the function
    pointers of the command table to the handlers, [opftp_commands_init]
    registers them. *)

From S2P Require Import Prelude Types Resolve CLib Listing Sys FsIface FsRooted Dispatch Pollset.
From S2P Require Import Queue World Client Datachan.
Import Resolve CLib Listing Client Datachan.

Local Open Scope Z_scope.

Module Commands.

(** [param && param[0]]. *)
Definition given (param : option bytes) : bool :=
  match param with Some (_ :: _) => true | _ => false end.

(** [param[0] == c], false on NULL. *)
Definition starts_with (c : ascii) (param : option bytes) : bool :=
  match param with Some (d :: _) => ceq d c | _ => false end.

(** The quoted path of a 257 reply. *)
Definition quoted (p : bytes) : bytes := DQUOTE :: p ++ [DQUOTE].

(** [path_is_under]. *)
Definition path_is_under (path dir : bytes) : bool :=
  if (length dir =? 1)%nat && bool_decide (head dir = Some SLASH)
  then bool_decide (head path = Some SLASH) && (1 <? length path)%nat
  else strneq path dir (length dir) && bool_decide (path !! length dir = Some SLASH).

(** The path shown by [strrchr(path, '/') + 1]. *)
Definition basename (path : bytes) : bytes :=
  match strrchr path SLASH with Some s => drop 1 s | None => path end.

(** The entry a single path is listed as. *)
Definition stat_dirent (path : bytes) (st : opftp_stat) : opftp_dirent :=
  mk_dirent (bprintf 256 (basename path)) (st_mode st) (st_size st) (st_mtime st)
    (st_uid st) (st_gid st).

(** The token scan of SITE UTIME: the suffix that starts at the last
    space-separated token. *)
Fixpoint skip_token (s : bytes) : bytes :=
  match s with
  | [] => []
  | c :: r => if ceq c SPACE then s else skip_token r
  end.

Fixpoint last_token (fuel : nat) (tok : option bytes) (cur : bytes) : option bytes :=
  match fuel, cur with
  | S f, _ :: _ => last_token f (Some cur) (skip_spaces (skip_token cur))
  | _, _ => tok
  end.

(** Trailing spaces, never the first byte. *)
Fixpoint trim_end (fuel : nat) (s : bytes) : bytes :=
  match fuel with
  | O => s
  | S f => if (1 <? length s)%nat && bool_decide (last s = Some SPACE)
           then trim_end f (take (length s - 1) s) else s
  end.

(** The six numbers of PORT. *)
Definition sscanf_port (s : bytes) : option (list Z) :=
  a ← sscanf_u s; let '(t0, s) := a in
  s ← sscanf_lit "," s; a ← sscanf_u s; let '(t1, s) := a in
  s ← sscanf_lit "," s; a ← sscanf_u s; let '(t2, s) := a in
  s ← sscanf_lit "," s; a ← sscanf_u s; let '(t3, s) := a in
  s ← sscanf_lit "," s; a ← sscanf_u s; let '(t4, s) := a in
  s ← sscanf_lit "," s; a ← sscanf_u s; let '(t5, _) := a in
  Some [t0; t1; t2; t3; t4; t5].

(** The three fields of EPRT. *)
Definition sscanf_eprt (s : bytes) : option (bytes * bytes * bytes) :=
  s ← sscanf_lit "|" s; a ← sscanf_until 7 "|" s; let '(proto, s) := a in
  s ← sscanf_lit "|" s; a ← sscanf_until 127 "|" s; let '(addr, s) := a in
  s ← sscanf_lit "|" s; a ← sscanf_until 15 "|" s; let '(port, _) := a in
  Some (proto, addr, port).

Definition zero_addr (n : nat) : bytes := replicate n NUL.

Section Commands.
Context {FS OS : Type} `{FsOps FS} `{SysOps OS}.

Local Abbreviation M A := (HM FS OS A).

(** ** Helpers *)

Definition reply (code : Z) (msg : bytes) : M () := opftp_client_send_reply code msg.

Definition reply_fs_error : M () :=
  h ← st_get;
  match h_errno h with
  | ENOENT | ENOTDIR => reply 550 (B "No such file or directory.")
  | EACCES | EPERM => reply 550 (B "Permission denied.")
  | EISDIR => reply 550 (B "Is a directory.")
  | _ => reply 550 R550
  end.

Definition resolve_arg (param : option bytes) : M (option bytes) :=
  s ← get_srv; c ← get_cl;
  let arg := match param with Some (x :: r) => x :: r | _ => c_cwd c end in
  mret (fst <$> opftp_path_resolve (s_root s) (c_cwd c) arg OPFTP_MAX_PATH).

Definition fstat_path (path : bytes) : M (option opftp_stat) := fs_call (λ r, r_stat r path).

Definition parent_is_dir (path : bytes) : M bool :=
  match opftp_path_parent path OPFTP_MAX_PATH with
  | None => mret false
  | Some [] => mret true
  | Some parent =>
     st ← fstat_path parent;
     mret (match st with Some st => is_dir (st_mode st) | None => false end)
  end.

(** [job_new] and [job_free]. *)
Definition job_new (op : opftp_job_op) : M (option jid) :=
  p ← os_call sys_pipe;
  match p with
  | None => mret None
  | Some pipe =>
     _ ← mod_cl opftp_client_retain;
     h ← st_get;
     let id := h_fresh h in
     let j := mk_job (h_cid h) (c_generation (h_cl h)) op [] [] 0 false false false pipe (-1)
                false None (-1) SA_unspec 0 false SA_unspec 0 false 0 0 (Ok ()) 0 false in
     _ ← st_modify (λ h, h <| h_jobs := <[id := j]> (h_jobs h) |> <| h_fresh := Pos.succ id |>);
     mret (Some id)
  end.

Definition job_free (id : jid) : M () :=
  h ← st_get;
  match h_jobs h !! id with
  | None => mret ()
  | Some j =>
     _ ← (if 0 <=? fst (j_cancel_pipe j) then
            _ ← opftp_close_fd (fst (j_cancel_pipe j)); opftp_close_fd (snd (j_cancel_pipe j))
          else mret ());
     _ ← (if 0 <=? j_pasv_fd j then opftp_close_fd (j_pasv_fd j) else mret ());
     _ ← opftp_client_release;
     st_modify (λ h, h <| h_jobs := delete id (h_jobs h) |>)
  end.

(** [opftp_job_dispatch] on the server's queue: [true] for 0. *)
Definition job_dispatch (id : jid) : M bool :=
  s ← get_srv;
  let '(r, q) := Queue.opftp_job_dispatch (s_queue s) id in
  _ ← mod_srv (λ s, s <| s_queue := q |>);
  mret (is_ok r).

(** ** Login *)

Definition cmd_user (param : option bytes) : M () :=
  match param with
  | Some ((_ :: _) as p) =>
     _ ← mod_cl (λ c, c <| c_user := bprintf OPFTP_MAX_NAME p |>);
     c ← get_cl;
     reply 331 (bprintf 256 (R331 (c_user c)))
  | _ => reply 501 R501
  end.

Definition cmd_pass (param : option bytes) : M () :=
  s ← get_srv; c ← get_cl;
  if bool_decide (c_user c = []) then reply 503 R503
  else
    let ok := match s_auth s with
              | Some auth => auth (c_user c) (default [] param)
              | None => true
              end in
    if (ok : bool) then
      _ ← mod_cl (λ c, c <| c_logged_in := true |>);
      reply 230 (bprintf 256 (B "Successfully logged in as " ++ c_user c ++ B "."))
    else
      _ ← mod_cl (λ c, c <| c_user := [] |>);
      reply 530 R530.

(** ** Session *)

Definition cmd_quit (param : option bytes) : M () :=
  _ ← reply 221 R221; mod_cl (λ c, c <| c_disconnect_requested := true |>).

Definition cmd_noop (param : option bytes) : M () := reply 200 R200.
Definition cmd_syst (param : option bytes) : M () := reply 215 R215.

Fixpoint send_lines (ls : list bytes) : M () :=
  match ls with [] => mret () | l :: ls' => _ ← opftp_client_send l; send_lines ls' end.

Definition cmd_feat (param : option bytes) : M () :=
  s ← get_srv;
  send_lines
    ([B "211-Features:"; B " UTF8"; B " SIZE"; B " MDTM"; B " MLSD";
      B " MLST type*;size*;modify*;perm*;"; B " MFMT"; B " REST STREAM"; B " EPSV"; B " EPRT";
      B " CPFR"; B " CPTO"]
     ++ (if s_tls s then [B " AUTH TLS"; B " PBSZ"; B " PROT"] else [])
     ++ [B "211 End"]).

Definition cmd_help (param : option bytes) : M () :=
  reply 214 (B "The following commands are recognized.").

Definition cmd_opts (param : option bytes) : M () :=
  match param with
  | Some p =>
     if strncaseeq p (B "UTF8") 4 && strcaseeq (skip_spaces (drop 4 p)) (B "ON")
     then reply 200 R200 else reply 501 R501
  | None => reply 501 R501
  end.

Definition cmd_acct (param : option bytes) : M () := reply 202 R202.
Definition cmd_allo (param : option bytes) : M () := reply 202 R202.

Definition cmd_type (param : option bytes) : M () :=
  match param with
  | Some (t0 :: p) =>
     let t := toupper t0 in
     let rest := skip_spaces p in
     if ceq t "I" then
       match rest with [] => reply 200 R200 | _ => reply 504 R504 end
     else if ceq t "A" then
       match rest with
       | [] => reply 200 R200
       | [f] => if ceq f "N" || ceq f "T" || ceq f "C" then reply 200 R200 else reply 504 R504
       | _ => reply 504 R504
       end
     else reply 504 R504
  | _ => reply 501 R501
  end.

Definition cmd_mode (param : option bytes) : M () :=
  if starts_with "S" param then reply 200 R200 else reply 504 R504.

Definition cmd_stru (param : option bytes) : M () :=
  if starts_with "F" param then reply 200 R200 else reply 504 R504.

Definition cmd_stop (param : option bytes) : M () :=
  _ ← reply 200 R200; mod_srv (λ s, s <| s_stopping := true |>).

(** ** Paths *)

Definition cmd_pwd (param : option bytes) : M () :=
  c ← get_cl; reply 257 (bprintf (OPFTP_MAX_PATH + 16) (quoted (c_cwd c))).

(** The FTP-visible form of a resolved path. *)
Definition visible (root path : bytes) : bytes :=
  if streq path root then B "/"
  else bprintf OPFTP_MAX_PATH (if (1 <? length root)%nat then drop (length root) path else path).

Definition cmd_cwd (param : option bytes) : M () :=
  s ← get_srv;
  p ← resolve_arg param;
  match p with
  | None => reply 501 R501
  | Some path =>
     st ← fstat_path path;
     if match st with Some st => is_dir (st_mode st) | None => false end then
       _ ← mod_cl (λ c, c <| c_cwd := visible (s_root s) path |>);
       reply 250 R250
     else reply_fs_error
  end.

Definition cmd_cdup (param : option bytes) : M () := cmd_cwd (Some (B "..")).

Definition cmd_mkd (param : option bytes) : M () :=
  if negb (given param) then reply 501 R501
  else
    p ← resolve_arg param;
    match p with
    | None => reply_fs_error
    | Some path =>
       ok ← parent_is_dir path;
       if negb ok then reply_fs_error
       else
         r ← fs_call (λ r, r_mkdir r path 493);
         match r with
         | None => reply_fs_error
         | Some _ => reply 257 (bprintf (OPFTP_MAX_PATH + 16) (quoted path))
         end
    end.

Definition cmd_rmd (param : option bytes) : M () :=
  p ← resolve_arg param;
  match p with
  | None => reply 501 R501
  | Some path =>
     r ← fs_call (λ r, r_rmdir r path);
     match r with None => reply_fs_error | Some _ => reply 250 R250 end
  end.

Definition cmd_dele (param : option bytes) : M () :=
  p ← resolve_arg param;
  match p with
  | None => reply 501 R501
  | Some path =>
     r ← fs_call (λ r, r_unlink r path);
     match r with None => reply_fs_error | Some _ => reply 250 R250 end
  end.

Definition cmd_rnfr (param : option bytes) : M () :=
  p ← resolve_arg param;
  match p with
  | None => reply 501 R501
  | Some path =>
     st ← fstat_path path;
     match st with
     | None => reply_fs_error
     | Some _ =>
        _ ← mod_cl (λ c, c <| c_rnfr := bprintf OPFTP_MAX_PATH path |> <| c_have_rnfr := true |>);
        reply 350 R350A
     end
  end.

(** The destination check RNTO and CPTO share: the resolved path when its
    parent is a directory. *)
Definition resolve_dest (param : option bytes) : M (option bytes) :=
  p ← resolve_arg param;
  match p with
  | None => mret None
  | Some path => ok ← parent_is_dir path; mret (if (ok : bool) then Some path else None)
  end.

Definition cmd_rnto (param : option bytes) : M () :=
  c ← get_cl;
  if negb (c_have_rnfr c) then reply 503 R503
  else
    p ← resolve_dest param;
    _ ← mod_cl (λ c, c <| c_have_rnfr := false |>);
    match p with
    | None => reply_fs_error
    | Some path =>
       r ← fs_call (λ r, r_rename r (c_rnfr c) path);
       match r with None => reply_fs_error | Some _ => reply 250 R250 end
    end.

(** ** CPFR / CPTO *)

Definition cmd_cpfr (param : option bytes) : M () :=
  p ← resolve_arg param;
  match p with
  | None => reply 501 R501
  | Some path =>
     st ← fstat_path path;
     let type := match st with Some st => ifmt (st_mode st) | None => 0 end in
     if negb (type =? S_IFREG) && negb (type =? S_IFDIR) then reply_fs_error
     else
       _ ← mod_cl (λ c, c <| c_cpfr := bprintf OPFTP_MAX_PATH path |> <| c_have_cpfr := true |>);
       reply 350 (if type =? S_IFDIR
                  then B "Directory exists, ready for destination name."
                  else B "File exists, ready for destination name.")
  end.

Definition cmd_cpto (param : option bytes) : M () :=
  c ← get_cl;
  if negb (c_have_cpfr c) then reply 503 R503
  else if bool_decide (is_Some (c_job c)) then reply 450 R450
  else
    p ← resolve_dest param;
    _ ← mod_cl (λ c, c <| c_have_cpfr := false |>);
    match p with
    | None => reply_fs_error
    | Some path =>
       if streq (c_cpfr c) path then reply 550 (B "Source and destination are the same file.")
       else if path_is_under path (c_cpfr c)
       then reply 550 (B "Destination is inside the source directory.")
       else
         j ← job_new OPFTP_JOB_COPY;
         match j with
         | None => reply 451 R451
         | Some id =>
            _ ← mod_job id (λ j, j <| j_path := bprintf OPFTP_MAX_PATH (c_cpfr c) |>
                                   <| j_dst := bprintf OPFTP_MAX_PATH path |>);
            ok ← job_dispatch id;
            if negb ok then _ ← job_free id; reply 451 R451
            else mod_cl (λ c, c <| c_job := Some id |>)
         end
    end.

(** ** SITE *)

Definition site_chmod (param : bytes) : M () :=
  let p := skip_spaces (drop 5 param) in
  match strtol 8 p with
  | (mode, Some ((sp :: _) as rest)) =>
     if negb (ceq sp SPACE) then reply 501 R501
     else
       path ← resolve_arg (Some (skip_spaces rest));
       match path with
       | None => reply 501 R501
       | Some path =>
          r ← fs_call (λ r, r_chmod r path (u16 mode));
          match r with None => reply_fs_error | Some _ => reply 200 R200 end
       end
  | _ => reply 501 R501
  end.

Definition site_utime (param : bytes) : M () :=
  let p := skip_spaces (drop 5 param) in
  match last_token (S (length p)) None p with
  | None => reply 501 R501
  | Some tok =>
     let off := (length p - length tok)%nat in
     if (off =? 0)%nat || (length tok <? 14)%nat then reply 501 R501
     else if negb (forallb (isdigit_at tok) (seq 0 14)) then reply 501 R501
     else
       let pathbuf := trim_end off (take off p) in
       if (OPFTP_MAX_PATH <=? length pathbuf)%nat then reply 501 R501
       else match parse_ftp_time tok with
       | None => reply 501 R501
       | Some t =>
          path ← resolve_arg (Some pathbuf);
          match path with
          | None => reply 501 R501
          | Some path =>
             st ← fstat_path path;
             match st with
             | None => reply_fs_error
             | Some _ =>
                r ← fs_call (λ r, r_utimes r path t);
                match r with None => reply_fs_error | Some _ => reply 200 R200 end
             end
          end
       end
  end.

Definition cmd_site (param : option bytes) : M () :=
  s ← get_srv;
  match param with
  | Some ((_ :: _) as p) =>
     if strncaseeq p (B "CHMOD") 5 then site_chmod p
     else if strncaseeq p (B "UTIME") 5 then site_utime p
     else if strncaseeq p (B "STOP") 4 then
       match skip_spaces (drop 4 p) with
       | [] => if negb (s_allow_stop s) then reply 502 R502 else cmd_stop param
       | _ => reply 501 R501
       end
     else reply 502 R502
  | _ => reply 502 R502
  end.

(** ** Stat-like *)

Definition cmd_size (param : option bytes) : M () :=
  p ← resolve_arg param;
  match p with
  | None => reply 501 R501
  | Some path =>
     st ← fstat_path path;
     match st with
     | Some st => if is_reg (st_mode st) then reply 213 (bprintf 64 (fmt_u (st_size st)))
                  else reply_fs_error
     | None => reply_fs_error
     end
  end.

Definition cmd_mdtm (param : option bytes) : M () :=
  p ← resolve_arg param;
  match p with
  | None => reply 501 R501
  | Some path =>
     st ← fstat_path path;
     match st with
     | None => reply_fs_error
     | Some st =>
        match gmtime_r (st_mtime st) with
        | None => reply_fs_error
        | Some tm => reply 213 (bprintf 64 (fmt_tm14 tm))
        end
     end
  end.

Definition cmd_rest (param : option bytes) : M () :=
  match param with
  | Some ((_ :: _) as p) =>
     match strtoull 10 p with
     | (v, Some []) =>
        _ ← mod_cl (λ c, c <| c_rest := v |>);
        reply 350 (bprintf 64 (B "Restarting at " ++ fmt_u v ++ B "."))
     | _ => reply 554 R554
     end
  | _ => reply 501 R501
  end.

(** The directory listing of STAT, one raw line per entry; the stream gets
    shorter with each entry, which bounds the rounds. *)
Fixpoint stat_entries (fuel : nat) (d : dirh) : M () :=
  match fuel with
  | O => mret ()
  | S f =>
     r ← fs_call (λ r, r_readdir r d);
     match r with
     | Some (Some de) =>
        h ← st_get;
        _ ← send_raw (snd (opftp_listing_format (sys_localtime_r (h_os h)) 1024 de None));
        stat_entries f d
     | _ => mret ()
     end
  end.

Definition cmd_stat (param : option bytes) : M () :=
  if negb (given param) then
    c ← get_cl;
    _ ← opftp_client_send (bprintf (OPFTP_MAX_PATH + 64) (B "211-Status of server: cwd=" ++ c_cwd c));
    opftp_client_send (B "211 End")
  else
    p ← resolve_arg param;
    match p with
    | None => reply 501 R501
    | Some path =>
       st ← fstat_path path;
       match st with
       | None => reply_fs_error
       | Some st =>
          _ ← opftp_client_send (bprintf 1024 (B "211-Status of " ++ path ++ B ":"));
          _ ← (if is_dir (st_mode st) then
                 d ← fs_call (λ r, r_opendir r path);
                 match d with
                 | None => mret ()
                 | Some d =>
                    h ← st_get;
                    _ ← stat_entries (S (fs_dir_left d (h_fs h))) d;
                    _ ← fs_call (λ r, r_closedir r d);
                    mret ()
                 end
               else
                 h ← st_get;
                 send_raw (snd (opftp_listing_format (sys_localtime_r (h_os h)) 1024
                                  (stat_dirent path st) None)));
          opftp_client_send (B "211 End")
       end
    end.

(** ** Data channel setup *)

(** The loop of [bind_listener_in_range] for a range [cand..hi]; [mk] is the
    address with a port. Returns success and the port left in the address. *)
Fixpoint bind_range (n : nat) (fd : Z) (mk : Z → sockaddr) (cand : Z) : M (bool * Z) :=
  match n with
  | O =>
     r ← os_call (sys_bind fd (mk 0));
     mret (bool_decide (is_Some r), 0)
  | S n' =>
     r ← os_call (sys_bind fd (mk cand));
     match r with
     | Some _ => mret (true, cand)
     | None => bind_range n' fd mk (cand + 1)
     end
  end.

Definition bind_listener_in_range (fd : Z) (mk : Z → sockaddr) (min max : Z) : M (bool * Z) :=
  if (min =? 0) || (max <? min)
  then bind_range 0 fd mk 0
  else bind_range (Z.to_nat (max - min + 1)) fd mk min.

(** The port [getsockname] reports for a listener, or the one in the address. *)
Definition sockaddr_port (a : sockaddr) : Z :=
  match a with SA_in _ p => p | SA_in6 _ p => p | SA_unspec => 0 end.

Definition close_pasv : M () :=
  c ← get_cl;
  if 0 <=? c_pasv_fd c then
    _ ← opftp_close_fd (c_pasv_fd c); mod_cl (λ c, c <| c_pasv_fd := -1 |>)
  else mret ().

(** Bind, listen and read back the port of a passive listener. *)
Definition open_listener (fd : Z) (mk : Z → sockaddr) : M (option Z) :=
  s ← get_srv;
  b ← bind_listener_in_range fd mk (s_pasv_min s) (s_pasv_max s);
  let '(bound, bport) := (b : bool * Z) in
  ok ← (if bound then r ← os_call (sys_listen fd); mret (bool_decide (is_Some r)) else mret false);
  if negb ok then _ ← opftp_close_fd fd; mret None
  else
    a ← os_call (sys_getsockname fd);
    mret (Some (match a with Some a => sockaddr_port a | None => bport end)).

Definition cmd_pasv (param : option bytes) : M () :=
  c ← get_cl;
  lss ← os_call (sys_getsockname (c_fd c));
  match (match lss with
         | Some (SA_in a _) => inl a
         | Some (SA_in6 a _) =>
            if opftp_is_v4mapped a then inl (take 4 (drop 12 a)) else inr true
         | _ => inr false
         end) with
  | inr true => reply 522 (B "Network protocol not supported, use (1)")
  | inr false => reply 425 R425
  | inl local4 =>
     _ ← close_pasv;
     fd ← os_call (sys_socket AF_INET);
     match fd with
     | None => reply 425 R425
     | Some fd =>
        p ← open_listener fd (SA_in (zero_addr 4));
        match p with
        | None => reply 425 R425
        | Some p =>
           let ip := if streq local4 (zero_addr 4) then [chr 127; chr 0; chr 0; chr 1] else local4 in
           _ ← mod_cl (λ c, c <| c_pasv_fd := fd |> <| c_have_data_peer := false |>);
           let oct := λ i : nat, fmt_u (cv (default NUL (ip !! i))) in
           reply 227 (bprintf 128
             (B "Entering Passive Mode (" ++ oct 0%nat ++ B "," ++ oct 1%nat ++ B "," ++ oct 2%nat
              ++ B "," ++ oct 3%nat ++ B "," ++ fmt_u (Z.land (Z.shiftr p 8) 255) ++ B ","
              ++ fmt_u (Z.land p 255) ++ B ")"))
        end
     end
  end.

(** The six octets of PORT as an address. *)
Definition port_addr (t : list Z) : sockaddr :=
  SA_in (chr <$> take 4 t)
    (Z.lor (Z.shiftl (default 0 (t !! 4%nat)) 8) (default 0 (t !! 5%nat))).

Definition cmd_port (param : option bytes) : M () :=
  match param ≫= sscanf_port with
  | None => reply 501 R501
  | Some t =>
     if existsb (λ x, 255 <? x) t then reply 501 R501
     else
       _ ← mod_cl (λ c, c <| c_data_peer := port_addr t |> <| c_data_peerlen := 16 |>
                          <| c_have_data_peer := true |>);
       _ ← close_pasv;
       reply 200 R200
  end.

Definition cmd_epsv (param : option bytes) : M () :=
  c ← get_cl;
  let ctrl := match c_peer c with
              | SA_in6 a _ => if opftp_is_v4mapped a then 1 else 2
              | _ => 1
              end in
  if (match param with Some ((_ :: _) as p) => negb (atoi p =? ctrl) | _ => false end)
  then reply 522 (B "Network protocol not supported, use (1,2)")
  else
    _ ← close_pasv;
    fd6 ← os_call (sys_socket AF_INET6);
    fd ← (match fd6 with Some fd => mret (Some fd) | None => os_call (sys_socket AF_INET) end);
    match fd with
    | None => reply 425 R425
    | Some fd =>
       p ← open_listener fd (match fd6 with
                             | Some _ => SA_in6 (zero_addr 16)
                             | None => SA_in (zero_addr 4)
                             end);
       match p with
       | None => reply 425 R425
       | Some p =>
          _ ← mod_cl (λ c, c <| c_pasv_fd := fd |> <| c_have_data_peer := false |>);
          reply 229 (bprintf 64 (B "Entering Extended Passive Mode (|||" ++ fmt_u p ++ B "|)"))
       end
    end.

(** The address EPRT leaves in [data_peer] before and after [inet_pton]. *)
Definition set_data_peer (a : sockaddr) (len : Z) : M () :=
  _ ← mod_cl (λ c, c <| c_data_peer := a |> <| c_data_peerlen := len |>
                     <| c_have_data_peer := true |>);
  _ ← close_pasv;
  reply 200 R200.

Definition cmd_eprt (param : option bytes) : M () :=
  match (if starts_with "|" param then param ≫= sscanf_eprt else None) with
  | None => reply 501 R501
  | Some (proto, addr, port) =>
     let p := atoi proto in
     let pnum := fst (strtol 10 port) in
     if (pnum <? 1) || (65535 <? pnum) then reply 501 R501
     else if p =? 1 then
       match inet_pton AF_INET addr with
       | None => _ ← mod_cl (λ c, c <| c_data_peer := SA_in (zero_addr 4) 0 |>); reply 501 R501
       | Some a => set_data_peer (SA_in a pnum) 16
       end
     else if p =? 2 then
       match inet_pton AF_INET6 addr with
       | None => _ ← mod_cl (λ c, c <| c_data_peer := SA_in6 (zero_addr 16) 0 |>); reply 501 R501
       | Some a => set_data_peer (SA_in6 a pnum) 28
       end
     else
       _ ← mod_cl (λ c, c <| c_data_peer := SA_unspec |>);
       reply 522 (B "Network protocol not supported, use (1,2)")
  end.

(** ** TLS *)

Definition cmd_auth (param : option bytes) : M () :=
  s ← get_srv; c ← get_cl;
  if negb (match param with Some p => strcaseeq p (B "TLS") | None => false end)
  then reply 504 R504
  else if negb (s_tls s) then reply 502 R502
  else if bool_decide (is_Some (c_tls c)) then reply 503 R503
  else
    ok ← opftp_client_start_tls;
    if negb ok then
      _ ← reply 421 R421; mod_cl (λ c, c <| c_disconnect_requested := true |>)
    else reply 234 (B "AUTH TLS successful.").

Definition cmd_pbsz (param : option bytes) : M () :=
  c ← get_cl;
  if negb (bool_decide (is_Some (c_tls c))) then reply 503 R503
  else if negb (given param) then reply 501 R501
  else reply 200 R200.

Definition cmd_prot (param : option bytes) : M () :=
  c ← get_cl;
  if negb (bool_decide (is_Some (c_tls c))) then reply 503 R503
  else if bool_decide (param = Some (B "P")) then
    _ ← mod_cl (λ c, c <| c_tls_prot := 1 |>); reply 200 R200
  else if bool_decide (param = Some (B "C")) then
    _ ← mod_cl (λ c, c <| c_tls_prot := 0 |>); reply 200 R200
  else reply 504 R504.

(** ** Transfers *)

(** Cancelling a job: the flag, and a byte on its pipe. *)
Definition cancel_job (id : jid) : M () :=
  h ← st_get;
  _ ← mod_job id (λ j, j <| j_cancelled := true |>);
  match h_jobs h !! id with
  | Some j => mod_os (sys_wake (snd (j_cancel_pipe j)))
  | None => mret ()
  end.

Definition cmd_abor (param : option bytes) : M () :=
  c ← get_cl;
  match c_job c with
  | Some id =>
     _ ← cancel_job id;
     mod_cl (λ c, c <| c_abor_pending := true |>)
  | None => reply 226 (B "Abort successful.")
  end.

(** The job fields [start_transfer] fills from the client. *)
Definition fill_job (c : opftp_client) (path : bytes) (nlst mlsd : bool)
  (j : opftp_transfer_job) : opftp_transfer_job :=
  j <| j_nlst := nlst |> <| j_mlsd := mlsd |> <| j_rest := c_rest c |>
    <| j_need_tls := negb (c_tls_prot c =? 0) |> <| j_path := bprintf OPFTP_MAX_PATH path |>
    <| j_pasv_fd := c_pasv_fd c |> <| j_data_peer := c_data_peer c |>
    <| j_data_peerlen := c_data_peerlen c |> <| j_have_data_peer := c_have_data_peer c |>
    <| j_ctl_peer := c_peer c |> <| j_ctl_peerlen := c_peerlen c |>.

Definition start_transfer (op : opftp_job_op) (path : bytes) (nlst mlsd : bool)
  (reply150 : option bytes) : M () :=
  s ← get_srv; c ← get_cl;
  if bool_decide (is_Some (c_job c)) then reply 450 R450
  else if negb (opftp_datachan_precheck s c) then reply 425 R425
  else if (c_pasv_fd c <? 0) && negb (c_have_data_peer c) then reply 425 R425
  else
    j ← job_new op;
    match j with
    | None => reply 425 R425
    | Some id =>
       _ ← mod_job id (fill_job c path nlst mlsd);
       _ ← mod_cl (λ c, c <| c_pasv_fd := -1 |> <| c_have_data_peer := false |>);
       ok ← job_dispatch id;
       if negb ok then _ ← job_free id; reply 425 R425
       else
         _ ← mod_cl (λ c, c <| c_job := Some id |> <| c_rest := 0 |>);
         reply 150 (default R150 reply150)
    end.

(** The argument of a listing without its flags: [LIST -la /path]. *)
Definition list_arg (param : option bytes) : option bytes :=
  if starts_with "-" param
  then match param ≫= (λ p, strchr p SPACE) with
       | Some s => Some (skip_spaces s)
       | None => None
       end
  else param.

Definition start_listing (param : option bytes) (nlst mlsd : bool) : M () :=
  p ← resolve_arg (list_arg param);
  match p with
  | None => reply 501 R501
  | Some path =>
     st ← fstat_path path;
     match st with
     | None => reply_fs_error
     | Some _ => start_transfer OPFTP_JOB_LIST path nlst mlsd None
     end
  end.

Definition cmd_list (param : option bytes) : M () := start_listing param false false.
Definition cmd_nlst (param : option bytes) : M () := start_listing param true false.

Definition cmd_retr (param : option bytes) : M () :=
  p ← resolve_arg param;
  match p with
  | None => reply 501 R501
  | Some path =>
     st ← fstat_path path;
     if match st with Some st => is_reg (st_mode st) | None => false end
     then start_transfer OPFTP_JOB_RETR path false false None
     else reply_fs_error
  end.

(** STOR and APPE differ in the job they start. *)
Definition start_store (op : opftp_job_op) (param : option bytes) : M () :=
  p ← resolve_arg param;
  match p with
  | None => reply 501 R501
  | Some path =>
     ok ← parent_is_dir path;
     if negb ok then reply_fs_error else start_transfer op path false false None
  end.

Definition cmd_stor (param : option bytes) : M () := start_store OPFTP_JOB_STOR param.
Definition cmd_appe (param : option bytes) : M () := start_store OPFTP_JOB_APPE param.

(** ** RFC 3659 and STOU *)

Definition cmd_mlsd (param : option bytes) : M () := start_listing param false true.

Definition cmd_mlst (param : option bytes) : M () :=
  if negb (given param) then reply 501 R501
  else
    p ← resolve_arg param;
    match p with
    | None => reply 501 R501
    | Some path =>
       st ← fstat_path path;
       match st with
       | None => reply_fs_error
       | Some st =>
          let line := snd (opftp_listing_format_mlsd 1024 (stat_dirent path st)) in
          _ ← opftp_client_send (B "250-Start of list");
          _ ← send_raw (bprintf 1025 (B " " ++ line));
          reply 250 (B "End")
       end
    end.

Definition cmd_mfmt (param : option bytes) : M () :=
  match param with
  | Some p =>
     if (length p <? 15)%nat || negb (bool_decide (p !! 14%nat = Some SPACE)) then reply 501 R501
     else match parse_ftp_time p with
     | None => reply 501 R501
     | Some t =>
        path ← resolve_arg (Some (skip_spaces (drop 15 p)));
        match path with
        | None => reply 501 R501
        | Some path =>
           st ← fstat_path path;
           match st with
           | None => reply_fs_error
           | Some _ =>
              r ← fs_call (λ r, r_utimes r path t);
              match r with
              | None => reply_fs_error
              | Some _ =>
                 match gmtime_r t with
                 | None => reply_fs_error
                 | Some tm => reply 213 (bprintf 64 (B "Modify=" ++ fmt_tm14 tm))
                 end
              end
           end
        end
     end
  | None => reply 501 R501
  end.

(** [seq++] and the candidate name of STOU. *)
Definition stou_name (seq : Z) : bytes :=
  bprintf 32 (B "ftp" ++ replicate (6 - length (fmt_u seq)) "0"%char ++ fmt_u seq).

(** The ten attempts of STOU: a name that does not exist, or the reply that
    ends the command. *)
Fixpoint stou_loop (n : nat) : M (bytes + (Z * bytes)) :=
  match n with
  | O => mret (inr (450, B "No unique file name available."))
  | S n' =>
     h ← st_get;
     let rel := stou_name (h_seq h) in
     _ ← st_modify (λ h, h <| h_seq := u32 (h_seq h + 1) |>);
     p ← resolve_arg (Some rel);
     match p with
     | None => mret (inr (550, R550))
     | Some name =>
        st ← fstat_path name;
        h' ← st_get;
        match st with
        | None => if bool_decide (h_errno h' = ENOENT) then mret (inl name) else stou_loop n'
        | Some _ => stou_loop n'
        end
     end
  end.

Definition cmd_stou (param : option bytes) : M () :=
  _ ← st_modify (λ h, if h_seq h =? 0
                      then h <| h_seq := u32 (sys_time (h_os h)) mod 1000000 |> else h);
  r ← stou_loop 10;
  match r with
  | inr (code, msg) => reply code msg
  | inl name =>
     start_transfer OPFTP_JOB_STOR name false false
       (Some (bprintf 64 (B "FILE: " ++ basename name)))
  end.

(** ** The table *)

Definition cmd_run (custom : nat → option bytes → M ()) (f : handler) : option bytes → M () :=
  match f with
  | H_user => cmd_user | H_pass => cmd_pass | H_quit => cmd_quit | H_noop => cmd_noop
  | H_syst => cmd_syst | H_feat => cmd_feat | H_help => cmd_help | H_opts => cmd_opts
  | H_acct => cmd_acct | H_allo => cmd_allo | H_type => cmd_type | H_mode => cmd_mode
  | H_stru => cmd_stru | H_stop => cmd_stop | H_pwd => cmd_pwd | H_cwd => cmd_cwd
  | H_cdup => cmd_cdup | H_mkd => cmd_mkd | H_rmd => cmd_rmd | H_dele => cmd_dele
  | H_rnfr => cmd_rnfr | H_rnto => cmd_rnto | H_cpfr => cmd_cpfr | H_cpto => cmd_cpto
  | H_site => cmd_site | H_size => cmd_size | H_mdtm => cmd_mdtm | H_rest => cmd_rest
  | H_stat => cmd_stat | H_pasv => cmd_pasv | H_port => cmd_port | H_epsv => cmd_epsv
  | H_eprt => cmd_eprt | H_auth => cmd_auth | H_pbsz => cmd_pbsz | H_prot => cmd_prot
  | H_abor => cmd_abor | H_list => cmd_list | H_nlst => cmd_nlst | H_mlsd => cmd_mlsd
  | H_mlst => cmd_mlst | H_mfmt => cmd_mfmt | H_stou => cmd_stou | H_retr => cmd_retr
  | H_stor => cmd_stor | H_appe => cmd_appe
  | H_custom n => custom n
  end.

End Commands.

(** The registrations of [opftp_commands_init], in order. *)
Definition command_list (allow_stop : bool) : list (bytes * handler) :=
  [(B "USER", H_user); (B "PASS", H_pass); (B "QUIT", H_quit); (B "NOOP", H_noop);
   (B "SYST", H_syst); (B "FEAT", H_feat); (B "HELP", H_help); (B "OPTS", H_opts);
   (B "ACCT", H_acct); (B "ALLO", H_allo); (B "TYPE", H_type); (B "MODE", H_mode);
   (B "STRU", H_stru)]
  ++ (if allow_stop then [(B "STOP", H_stop)] else []) ++
  [(B "PWD", H_pwd); (B "XPWD", H_pwd); (B "CWD", H_cwd); (B "XCWD", H_cwd);
   (B "CDUP", H_cdup); (B "XCUP", H_cdup); (B "MKD", H_mkd); (B "XMKD", H_mkd);
   (B "RMD", H_rmd); (B "XRMD", H_rmd); (B "DELE", H_dele); (B "RNFR", H_rnfr);
   (B "RNTO", H_rnto); (B "CPFR", H_cpfr); (B "CPTO", H_cpto); (B "SITE", H_site);
   (B "SIZE", H_size); (B "MDTM", H_mdtm); (B "REST", H_rest); (B "STAT", H_stat);
   (B "PASV", H_pasv); (B "PORT", H_port); (B "EPSV", H_epsv); (B "EPRT", H_eprt);
   (B "AUTH", H_auth); (B "PBSZ", H_pbsz); (B "PROT", H_prot); (B "ABOR", H_abor);
   (B "LIST", H_list); (B "NLST", H_nlst); (B "MLSD", H_mlsd); (B "MLST", H_mlst);
   (B "MFMT", H_mfmt); (B "STOU", H_stou); (B "RETR", H_retr); (B "STOR", H_stor);
   (B "APPE", H_appe)].

Definition opftp_commands_init (allow_stop : bool) (t : cmd_table) : cmd_table :=
  fold_left (λ t '(n, f), snd (Dispatch.opftp_dispatch_register t n f))
    (command_list allow_stop) t.

End Commands.
