(* ===== verification/LegacyCommand.v ===== *)
(** * legacy/src/ftpcommand.c: the legacy command registry

    A [struct Command] maps names to callbacks in a prefix tree and keeps the
    lists of connect and disconnect callbacks. Every registration is recorded
    in the table [shim_cmds] too, from which [legacy_command_overlay]
    installs one adapter per legacy command in the dispatch table of the core.
    A command is identified by its address, a number here; [Cb] is the type of
    command callbacks. *)

From S2P Require Import Prelude PrefixTree Dispatch World Commands.
Import PrefixTree.

Module LegacyCommand.

Definition SHIM_MAX_CMDS : nat := 128.

(** [struct shim_cmdreg]. *)
Record shim_cmdreg := mk_reg { r_cmd : nat; r_name : bytes; r_used : bool }.

Definition free_reg : shim_cmdreg := mk_reg 0 [] false.
Definition shim_cmds_init : list shim_cmdreg := replicate SHIM_MAX_CMDS free_reg.

Section Command.
Context {Cb Hook : Type}.

(** [struct Command]; the arrays of hooks grow by [realloc], which does not
    fail here. *)
Record Command := mk_command {
  command_callbacks : PTNode Cb;
  connect_callbacks : list Hook;
  disconnect_callbacks : list Hook
}.
#[export] Instance Command_settable : Settable Command := λ x,
  mk_command (command_callbacks x) (connect_callbacks x) (disconnect_callbacks x).

Definition command_init : Command := mk_command pttree_create [] [].

Definition command_register_connect (c : Command) (h : Hook) : Command :=
  c <| connect_callbacks := connect_callbacks c ++ [h] |>.

Definition command_register_disconnect (c : Command) (h : Hook) : Command :=
  c <| disconnect_callbacks := disconnect_callbacks c ++ [h] |>.

(** The callback [command_call] runs; [None] where it returns false. *)
Definition command_call (c : Command) (name : bytes) : option Cb :=
  pttree_search (command_callbacks c) name.

(** Is this registration recorded already? *)
Definition recorded (cmd : nat) (name : bytes) (r : shim_cmdreg) : bool :=
  r_used r && (r_cmd r =? cmd) && streq (r_name r) name.

(** The first free entry of the table filled. *)
Fixpoint record_free (cmd : nat) (name : bytes) (rs : list shim_cmdreg) : list shim_cmdreg :=
  match rs with
  | [] => []
  | r :: rs' =>
     if r_used r then r :: record_free cmd name rs'
     else mk_reg cmd (bprintf 32 name) true :: rs'
  end.

Definition shim_record (cmd : nat) (name : bytes) (rs : list shim_cmdreg) : list shim_cmdreg :=
  if existsb (recorded cmd name) rs then rs else record_free cmd name rs.

Definition command_register (cmd : nat) (name : bytes) (cb : Cb)
  (st : Command * list shim_cmdreg) : Command * list shim_cmdreg :=
  (st.1 <| command_callbacks := pttree_insert (command_callbacks st.1) name (Some cb) |>,
   shim_record cmd name st.2).

(** A node that exists keeps its place, without data. *)
Definition command_unregister (c : Command) (name : bytes) : Command :=
  if has_key (command_callbacks c) name
  then c <| command_callbacks := pttree_insert (command_callbacks c) name None |>
  else c.

(** [command_free]: the entries of this command are dropped. *)
Definition command_free (cmd : nat) (rs : list shim_cmdreg) : list shim_cmdreg :=
  (λ r, if r_used r && (r_cmd r =? cmd) then mk_reg (r_cmd r) (r_name r) false else r) <$> rs.

(** [legacy_command_overlay]: entry [i] becomes the context of the adapter. *)
Fixpoint overlay_loop (cmd i : nat) (rs : list shim_cmdreg) (t : cmd_table) : cmd_table :=
  match rs with
  | [] => t
  | r :: rs' =>
     overlay_loop cmd (S i) rs'
       (if r_used r && (r_cmd r =? cmd)
        then snd (Dispatch.opftp_dispatch_register t (r_name r) (H_custom i)) else t)
  end.

Definition legacy_command_overlay (cmd : nat) (rs : list shim_cmdreg) (t : cmd_table) : cmd_table :=
  overlay_loop cmd 0 rs t.

(** ** Registration *)

(** The entries of [cmd], in order. *)
Definition names_of (cmd : nat) (rs : list shim_cmdreg) : list bytes :=
  r_name <$> filter (λ r, r_used r = true ∧ r_cmd r = cmd) rs.

Definition register_all (cmd : nat) (cbs : list (bytes * Cb)) (st : Command * list shim_cmdreg)
  : Command * list shim_cmdreg :=
  foldl (λ st '(n, cb), command_register cmd n cb st) st cbs.

Lemma register_all_tree cmd cbs : ∀ st,
  command_callbacks (register_all cmd cbs st).1 =
  insert_all (command_callbacks st.1) ((λ '(n, cb), (n, Some cb)) <$> cbs).
Proof.
  unfold register_all, insert_all. induction cbs as [|[n cb] cbs IH]; intros st; [done|].
  cbn [foldl fmap list_fmap]. by rewrite IH.
Qed.

(** A callback list without repeated names registers each of its names. *)
Lemma map_all_lookup cbs : ∀ (m : gmap bytes (option Cb)) name,
  NoDup (cbs.*1) →
  map_all m ((λ '(n, cb), (n, Some cb)) <$> cbs) !! name =
  match (list_to_map cbs : gmap bytes Cb) !! name with Some cb => Some (Some cb) | None => m !! name end.
Proof.
  induction cbs as [|[n cb] cbs IH]; intros m name Hnd; [by cbn; rewrite lookup_empty|].
  cbn in Hnd. apply NoDup_cons in Hnd as [Hn Hnd]. unfold map_all in *. cbn [foldl fmap list_fmap].
  rewrite IH by done. cbn [list_to_map foldr fst snd]. destruct (decide (n = name)) as [->|Hne].
  - rewrite !lookup_insert_eq. by rewrite (not_elem_of_list_to_map_1 (M:=gmap bytes) cbs name Hn).
  - by rewrite !lookup_insert_ne.
Qed.

(** The commands registered from an empty registry, when no name extends
    another: every name finds its callback, and no other name finds one. *)
Lemma command_call_registered cmd cbs rs name :
  Forall no_nul (cbs.*1) → prefix_free_keys [] (cbs.*1) = true → NoDup (cbs.*1) → no_nul name →
  command_call (register_all cmd cbs (command_init, rs)).1 name = (list_to_map cbs : gmap bytes Cb) !! name.
Proof.
  intros Hn Hp Hnd Hname. unfold command_call. rewrite register_all_tree.
  set (kds := (λ '(n, cb), (n, Some cb)) <$> cbs).
  assert (kds.*1 = cbs.*1) as E1.
  { unfold kds. rewrite <-list_fmap_compose. apply list_fmap_ext. by intros ? [? ?] ?. }
  assert (prefix_free ∅ kds) as Hfree.
  { apply (prefix_free_check kds ∅ []); rewrite ?E1; [by intros a [? ?]|done|done]. }
  pose proof (insert_all_stores kds pttree_create ∅ Hfree create_stores) as Hs.
  change (command_callbacks (command_init, rs).1) with (@pttree_create Cb).
  rewrite (sto_search _ _ Hs) by done. unfold kds. rewrite map_all_lookup by done.
  rewrite lookup_empty. by destruct (_ !! name).
Qed.

(** ** The overlay *)

Section Overlay.
Context (cmd : nat).

(** What the overlay adds to a table of handlers. *)
Fixpoint overlay_map (i : nat) (rs : list shim_cmdreg) (m : gmap bytes handler) : gmap bytes handler :=
  match rs with
  | [] => m
  | r :: rs' =>
     overlay_map (S i) rs'
       (if r_used r && (r_cmd r =? cmd) then <[toupper <$> r_name r := H_custom i]> m else m)
  end.

(** Each registration the overlay makes succeeds. *)
Fixpoint overlay_fits (i : nat) (rs : list shim_cmdreg) (t : cmd_table) : Prop :=
  match rs with
  | [] => True
  | r :: rs' =>
     if r_used r && (r_cmd r =? cmd)
     then (Dispatch.opftp_dispatch_register t (r_name r) (H_custom i)).1 = Ok () ∧
          overlay_fits (S i) rs' (Dispatch.opftp_dispatch_register t (r_name r) (H_custom i)).2
     else overlay_fits (S i) rs' t
  end.

Lemma overlay_fits_dec i rs t : Decision (overlay_fits i rs t).
Proof.
  revert i t. induction rs as [|r rs IH]; intros i t; cbn; [apply _|].
  destruct (r_used r && _); [|apply IH].
  destruct (Dispatch.opftp_dispatch_register t (r_name r) (H_custom i)) as [[[]|e] t'] eqn:E; cbn.
  - destruct (IH (S i) t'); [by left|right; by intros [_ ?]].
  - right. by intros [? _].
Defined.

(** An overlay whose registrations all fit makes its names run the adapters
    and leaves every other name to the core. *)
Lemma overlay_lookup rs : ∀ i es,
  Dispatch.wf es → overlay_fits i rs (Some es) →
  ∃ es', overlay_loop cmd i rs (Some es) = Some es' ∧ Dispatch.wf es' ∧
    ∀ n, Dispatch.find_entry n es' = overlay_map i rs (Dispatch.abs es) !! n.
Proof.
  induction rs as [|r rs IH]; intros i es Hwf Hfit; cbn [overlay_loop overlay_map overlay_fits] in *.
  { exists es. split_and!; [done..|]. intros n. apply Dispatch.find_entry_abs, Hwf. }
  destruct (r_used r && (r_cmd r =? cmd)); [|by apply IH].
  destruct Hfit as [Hok Hfit].
  destruct (Dispatch.opftp_dispatch_register (Some es) (r_name r) (H_custom i)) as [res t] eqn:E.
  cbn [fst snd] in *. subst res.
  assert (∃ es1, t = Some es1) as [es1 ->].
  { unfold Dispatch.opftp_dispatch_register in E. repeat case_match; simplify_eq; eauto. }
  destruct (Dispatch.register_find es (r_name r) (H_custom i) es1 Hwf E) as [Hwf1 Hf].
  destruct (IH (S i) es1 Hwf1 Hfit) as (es2 & El & Hwf2 & Hf2). exists es2. split_and!; [done..|].
  intros n. rewrite Hf2. do 2 f_equal. apply map_eq. intros k.
  rewrite <-Dispatch.find_entry_abs, Hf by apply Hwf1.
  destruct (streq k _) eqn:Ek; btests; subst; [by rewrite lookup_insert_eq|].
  rewrite lookup_insert_ne by done. apply Dispatch.find_entry_abs, Hwf.
Qed.

End Overlay.

End Command.

Arguments Command : clear implicits.

End LegacyCommand.
