(* ===== verification/Legacy.v ===== *)
(** * legacy/src/ftpserver.c and ftpclient.c: the legacy facade

    A legacy session is a [struct Client] beside the core connection it
    mirrors. [lst] is what its code reads and writes: the heap cells the
    handlers allocate, the tree of variables that points to them, the three
    sockets, the data callback, the entry of the table [shim_clients], the
    poll descriptors and the clients of the legacy server, the executor of
    the data callback, the filesystem and the operating system. What the
    facade asks of the core is the list [l_out] of calls, in order.

    An action that would dereference a null, freed or wrongly typed pointer,
    read uninitialised memory or overrun a buffer has no result: [LM] is a
    state monad with failure, and a failure is undefined behaviour of the
    program. Each operation here is one action of the reactor's thread or of
    the worker that runs the executor; the code locks the client's mutex in
    [client_data_start], [client_data_end], the executor and around a data
    callback, and not around a command handler. *)

From S2P Require Import Prelude Types CLib FsIface Sys PrefixTree Avl LegacyUtil.
Import CLib PrefixTree Avl LegacyUtil.

Local Open Scope Z_scope.

Module Legacy.

(** ** The legacy filesystem interface (include/io.h) and two socket calls *)

Class FtpIo (IO : Type) := {
  ftpio_open : bytes → Z → IO → option Z * IO;
  ftpio_opendir : bytes → IO → option Z * IO;
  (** [None] on failure, [Some None] at the end ([nread == 0]). *)
  ftpio_readdir : Z → IO → option (option bytes) * IO;
  ftpio_read : Z → nat → IO → option bytes * IO;
  ftpio_write : Z → bytes → IO → option nat * IO;
  ftpio_close : Z → IO → IO;
  ftpio_closedir : Z → IO → IO;
  ftpio_rename : bytes → bytes → IO → bool * IO;
  ftpio_chmod : bytes → Z → IO → bool * IO;
  ftpio_lseek : Z → Z → IO → IO;
  ftpio_mkdir : bytes → Z → IO → bool * IO;
  ftpio_rmdir : bytes → IO → bool * IO;
  ftpio_unlink : bytes → IO → bool * IO;
  ftpio_stat : bytes → IO → option opftp_stat * IO
}.

Class LegacySys (OS : Type) := {
  sys_shutdown : Z → OS → OS;
  sys_getpeername : Z → OS → sockaddr
}.

(** Two more events of poll(2). *)
Definition POLLRDNORM : Z := 64.
Definition POLLWRNORM : Z := 256.

(** ** Data *)

Definition loc := positive.

(** What a handler allocates: a [struct Path], a char buffer of a size with
    the string it holds ([None] before the first write), a bool, an int, a
    uint64_t, a [struct sockaddr_in]. *)
Inductive cell :=
  | CPath (p : list bytes) | CBuf (cap : nat) (s : option bytes) | CBool (b : bool)
  | CInt (z : Z) | CU64 (z : Z) | CAddr (ip : bytes) (port : Z).

(** The data callbacks of feat/base. *)
Inductive data_callback := data_list | data_nlst | data_retr | data_stor.

(** Calls of the facade on the core. *)
Inductive core_call :=
  | send_reply (code : Z) (msg : bytes) | send_line (msg : bytes) | send_raw (s : bytes)
  | disconnect | server_stop_core.

(** [struct shim_client], the entry of the session in the side table. *)
Record shim_client := mk_shim {
  sc_job_active : bool; sc_cancel : bool; sc_data_go : bool; sc_events : Z
}.
#[export] Instance shim_client_settable : Settable shim_client := λ x,
  mk_shim (sc_job_active x) (sc_cancel x) (sc_data_go x) (sc_events x).

(** Where the executor of a data callback stands. *)
Inductive exec_state :=
  | ex_start (events : Z) | ex_wait (fd events : Z) | ex_run (fd events : Z) | ex_end (fd : Z).

(** The parts of [struct Server] the session uses; a client is a number. *)
Record Server := mk_server {
  sv_pollfds : list (Z * Z); sv_clients : AVLNode nat; sv_should_stop : bool; sv_pool : bool
}.
#[export] Instance Server_settable : Settable Server := λ x,
  mk_server (sv_pollfds x) (sv_clients x) (sv_should_stop x) (sv_pool x).

Record lst (IO OS : Type) := mk_lst {
  l_cvar : PTNode loc;
  l_heap : gmap loc cell;
  l_next : loc;
  l_control : Z; l_data : Z; l_pasv : Z;      (* the sockets *)
  l_cb : option data_callback;
  l_lastcmd : bytes;
  l_me : nat;                                 (* the address of the client *)
  l_sc : option shim_client;                  (* its entry, if registered *)
  l_prot : Z;                                 (* sc->core->tls_prot *)
  l_exec : option exec_state;
  l_srv : Server;
  l_out : list core_call;
  l_io : IO; l_os : OS
}.
#[global] Arguments mk_lst {_ _}.
#[global] Arguments l_cvar {_ _}.
#[global] Arguments l_heap {_ _}.
#[global] Arguments l_next {_ _}.
#[global] Arguments l_control {_ _}.
#[global] Arguments l_data {_ _}.
#[global] Arguments l_pasv {_ _}.
#[global] Arguments l_cb {_ _}.
#[global] Arguments l_lastcmd {_ _}.
#[global] Arguments l_me {_ _}.
#[global] Arguments l_sc {_ _}.
#[global] Arguments l_prot {_ _}.
#[global] Arguments l_exec {_ _}.
#[global] Arguments l_srv {_ _}.
#[global] Arguments l_out {_ _}.
#[global] Arguments l_io {_ _}.
#[global] Arguments l_os {_ _}.
#[export] Instance lst_settable IO OS : Settable (lst IO OS) := λ x,
  mk_lst (l_cvar x) (l_heap x) (l_next x) (l_control x) (l_data x) (l_pasv x) (l_cb x)
    (l_lastcmd x) (l_me x) (l_sc x) (l_prot x) (l_exec x) (l_srv x) (l_out x) (l_io x) (l_os x).

(** ** The monad *)

Definition LM (IO OS A : Type) : Type := lst IO OS → option (A * lst IO OS).

#[export] Instance LM_ret IO OS : MRet (LM IO OS) := λ _ a s, Some (a, s).
#[export] Instance LM_bind IO OS : MBind (LM IO OS) := λ _ _ k m s,
  match m s with Some (a, s') => k a s' | None => None end.

Section Facade.
Context {IO OS : Type} `{FtpIo IO} `{SysOps OS} `{LegacySys OS} `{Limits}.
Abbreviation M := (LM IO OS).

Definition fault {A} : M A := λ _, None.
Definition get : M (lst IO OS) := λ s, Some (s, s).
Definition gets {A} (f : lst IO OS → A) : M A := λ s, Some (f s, s).
Definition modify (f : lst IO OS → lst IO OS) : M () := λ s, Some ((), f s).
Definition lift {A} (o : option A) : M A := λ s, (λ a, (a, s)) <$> o.

Definition io {A} (f : IO → A * IO) : M A := λ s,
  let '(a, x) := f (l_io s) in Some (a, s <| l_io := x |>).
Definition io_ (f : IO → IO) : M () := modify (λ s, s <| l_io := f (l_io s) |>).
Definition os {A} (f : OS → A * OS) : M A := λ s,
  let '(a, x) := f (l_os s) in Some (a, s <| l_os := x |>).
Definition os_ (f : OS → OS) : M () := modify (λ s, s <| l_os := f (l_os s) |>).
Definition emit (c : core_call) : M () := modify (λ s, s <| l_out := l_out s ++ [c] |>).

(** [malloc] and [free]; allocation does not fail. *)
Definition alloc (c : cell) : M loc := λ s,
  Some (l_next s, s <| l_heap := <[l_next s := c]> (l_heap s) |> <| l_next := (l_next s + 1)%positive |>).
Definition free_cell (l : loc) : M () := λ s,
  match l_heap s !! l with
  | Some _ => Some ((), s <| l_heap := delete l (l_heap s) |>)
  | None => None
  end.

(** ** ftpclient.c: variables *)

Definition client_get_cvar (name : bytes) : M (option loc) :=
  gets (λ s, pttree_search (l_cvar s) name).

Definition client_set_cvar (name : bytes) (ptr : option loc) : M () :=
  modify (λ s, s <| l_cvar := pttree_insert (l_cvar s) name ptr |>).

(** Dereferencing the pointer of a variable, at the type the code casts to. *)
Definition deref (p : option loc) : M cell := λ s,
  match p with
  | Some l => match l_heap s !! l with Some c => Some (c, s) | None => None end
  | None => None
  end.

Definition assign (p : option loc) (c : cell) : M () := λ s,
  match p with
  | Some l =>
     match l_heap s !! l with
     | Some _ => Some ((), s <| l_heap := <[l := c]> (l_heap s) |>)
     | None => None
     end
  | None => None
  end.

Definition get_path (p : option loc) : M (list bytes) :=
  c ← deref p; match c with CPath d => mret d | _ => fault end.
Definition get_bool (p : option loc) : M bool :=
  c ← deref p; match c with CBool b => mret b | _ => fault end.
Definition get_int (p : option loc) : M Z :=
  c ← deref p; match c with CInt z => mret z | _ => fault end.
Definition get_u64 (p : option loc) : M Z :=
  c ← deref p; match c with CU64 z => mret z | _ => fault end.
(** The string in a buffer: reading one that was never written is a fault. *)
Definition get_str (p : option loc) : M bytes :=
  c ← deref p; match c with CBuf _ (Some s) => mret s | _ => fault end.

Definition set_path (p : option loc) (d : list bytes) : M () :=
  _ ← get_path p; assign p (CPath d).
Definition set_bool (p : option loc) (b : bool) : M () := _ ← get_bool p; assign p (CBool b).
Definition set_int (p : option loc) (z : Z) : M () := _ ← get_int p; assign p (CInt z).
Definition set_u64 (p : option loc) (z : Z) : M () := _ ← get_u64 p; assign p (CU64 (u64 z)).
(** [strcpy] into a buffer: too long a string is a fault. *)
Definition set_str (p : option loc) (s : bytes) : M () :=
  c ← deref p;
  match c with
  | CBuf cap _ => s ← lift (store cap s); assign p (CBuf cap (Some s))
  | _ => fault
  end.

(** ** ftpclient.c: replies *)

Definition send_raw_line (s : bytes) : M () :=
  sc ← gets l_sc;
  match sc with Some _ => emit (send_raw (bprintf 1024 (s ++ CRLF))) | None => mret () end.

Definition client_send_message (message : bytes) : M () :=
  sc ← gets l_sc;
  match sc with Some _ => emit (send_line message) | None => mret () end.

Definition client_send_code (code : Z) (message : bytes) : M () :=
  sc ← gets l_sc;
  match sc with
  | Some sc =>
     _ ← (if code =? 150 then modify (λ s, s <| l_sc := Some (sc <| sc_data_go := true |>) |>)
          else mret ());
     emit (send_reply code message)
  | None => mret ()
  end.

Definition client_send_multicode (code : Z) (message : bytes) : M () :=
  send_raw_line (bprintf 1056 (fmt_d code ++ B "-" ++ message)).

Definition client_send_multimessage (message : bytes) : M () :=
  send_raw_line (bprintf 1056 (B " " ++ message)).

(** ** ftpserver.c: poll descriptors and clients *)

Definition mod_srv (f : Server → Server) : M () := modify (λ s, s <| l_srv := f (l_srv s) |>).

Definition server_pollfds_add (fd events : Z) : M () :=
  mod_srv (λ v, v <| sv_pollfds := sv_pollfds v ++ [(fd, events)] |>).

(** The entry of [fd] is overwritten with the last one, and the array gets
    one shorter. *)
Fixpoint pollfds_remove (fd : Z) (l : list (Z * Z)) (lastp : Z * Z) : option (list (Z * Z)) :=
  match l with
  | [] => None
  | p :: l' =>
     if p.1 =? fd then Some (lastp :: l')
     else (λ r, p :: r) <$> pollfds_remove fd l' lastp
  end.

Definition pollfds_without (fd : Z) (l : list (Z * Z)) : list (Z * Z) :=
  match last l with
  | None => l
  | Some p => match pollfds_remove fd l p with Some l' => take (length l - 1) l' | None => l end
  end.

Definition server_pollfds_remove (fd : Z) : M () :=
  mod_srv (λ v, v <| sv_pollfds := pollfds_without fd (sv_pollfds v) |>).

Definition server_client_add (fd : Z) : M () :=
  s ← get; mod_srv (λ v, v <| sv_clients := avltree_insert (sv_clients v) fd (l_me s) |>).

Definition server_client_find (v : Server) (fd : Z) : option nat := avltree_search (sv_clients v) fd.

Definition server_client_remove (fd : Z) : M () :=
  mod_srv (λ v, v <| sv_clients := avltree_remove (sv_clients v) fd |>).

Definition server_stop : M () :=
  _ ← mod_srv (λ v, v <| sv_should_stop := true |>); emit server_stop_core.

(** ** ftpclient.c: the data channel *)

Definition close_socket (fd : Z) : M () := os_ (sys_close fd).

(** The active connection: to the PORT address, or to port 20 of the peer. The
    peer is stored in a [struct sockaddr_in], which [getpeername] does not fill
    when it fails, and fills with the length of the whole address when that is
    an IPv6 one: [connect] then reads past it. *)
Definition data_connect : M bool :=
  p ← client_get_cvar (B "port_addr");
  addr ← (match p with
          | Some l =>
             c ← deref (Some l);
             _ ← free_cell l;
             _ ← client_set_cvar (B "port_addr") None;
             match c with CAddr ip port => mret (SA_in ip port) | _ => fault end
          | None =>
             s ← get;
             match sys_getpeername (l_control s) (l_os s) with
             | SA_in ip _ => mret (SA_in ip 20)
             | _ => fault
             end
          end);
  r ← os (sys_socket AF_INET);
  match r with
  | Err _ => _ ← modify (λ s, s <| l_data := -1 |>); mret false
  | Ok fd =>
     _ ← modify (λ s, s <| l_data := fd |>);
     c ← os (sys_connect fd addr);
     match c with
     | Ok _ => mret true
     | Err _ =>
        _ ← close_socket fd; _ ← modify (λ s, s <| l_data := -1 |>); mret false
     end
  end.

(** The passive connection: accepted on the listener, which is closed. *)
Definition data_accept : M bool :=
  s ← get;
  let pasv := l_pasv s in
  p ← os (sys_poll [(pasv, POLLIN)] 5000);
  if (match p with Ok revs => bool_decide (Forall (λ r, r = 0) revs) | Err _ => true end) then
    _ ← close_socket pasv; _ ← modify (λ s, s <| l_pasv := -1 |>); mret false
  else
    a ← os (sys_accept pasv);
    let fd := match a with Ok (fd, _) => fd | Err _ => -1 end in
    _ ← modify (λ s, s <| l_data := fd |>);
    _ ← close_socket pasv;
    _ ← modify (λ s, s <| l_pasv := -1 |>);
    mret (0 <=? fd).

Definition client_data_start (callback : data_callback) (pevents : Z) : M bool :=
  s ← get;
  match l_sc s with
  | None => mret false
  | Some _ =>
     if negb (sv_pool (l_srv s)) then mret false
     else if negb (l_prot s =? 0) then mret false
     else if bool_decide (l_cb s ≠ None) then mret false
     else
       ok ← (if l_data s =? -1 then if l_pasv s =? -1 then data_connect else data_accept
             else mret true);
       if negb ok then mret false
       else
         s ← get;
         _ ← server_pollfds_add (l_data s) (Z.lor pevents POLLIN);
         _ ← server_client_add (l_data s);
         _ ← modify (λ s, s <| l_cb := Some callback |>
                            <| l_sc := Some (mk_shim true false false pevents) |>
                            <| l_exec := Some (ex_start pevents) |>);
         mret true
  end.

Definition client_data_end : M () :=
  s ← get;
  match l_sc s with
  | None => mret ()
  | Some sc =>
     if sc_job_active sc then
       _ ← modify (λ s, s <| l_sc := Some (sc <| sc_cancel := true |>) |>);
       if l_data s =? -1 then mret () else os_ (sys_shutdown (l_data s))
     else if l_data s =? -1 then mret ()
     else
       _ ← close_socket (l_data s);
       _ ← modify (λ s, s <| l_data := -1 |> <| l_cb := None |>);
       s ← get;
       _ ← server_pollfds_remove (l_data s);
       server_client_remove (l_data s)
  end.

(** The address PASV binds and announces. As in [data_connect], one that is
    not an IPv4 address does not fill or does not fit the [sockaddr_in]. *)
Definition v4_form (a : res sockaddr) : sockaddr :=
  match a with
  | Ok (SA_in6 ip p) => if opftp_is_v4mapped ip then SA_in (drop 12 ip) p else SA_in6 ip p
  | Ok a => a
  | Err _ => SA_unspec
  end.

Definition pasv_addr (control : Z) : M sockaddr :=
  a ← os (sys_getsockname control); mret (v4_form a).

Definition with_port (a : sockaddr) (port : Z) : sockaddr :=
  match a with SA_in ip _ => SA_in ip port | SA_in6 ip _ => SA_in6 ip port | SA_unspec => a end.

Definition client_pasv_enter : M (option sockaddr) :=
  p ← client_get_cvar (B "port_addr");
  _ ← (match p with
       | Some l => _ ← free_cell l; client_set_cvar (B "port_addr") None
       | None => mret ()
       end);
  s ← get;
  _ ← (if l_pasv s =? -1 then mret () else close_socket (l_pasv s));
  r ← os (sys_socket AF_INET);
  match r with
  | Err _ => _ ← modify (λ s, s <| l_pasv := -1 |>); mret None
  | Ok fd =>
     _ ← modify (λ s, s <| l_pasv := fd |>);
     a ← pasv_addr (l_control s);
     _ ← (match a with SA_in _ _ => mret () | _ => fault end);
     b ← os (sys_bind fd (with_port a 0));
     match b with
     | Err _ => _ ← close_socket fd; _ ← modify (λ s, s <| l_pasv := -1 |>); mret None
     | Ok _ =>
        _ ← os (sys_listen fd);
        n ← os (sys_getsockname fd);
        mret (Some (match n with Ok a' => a' | Err _ => with_port a 0 end))
     end
  end.

(** ** ftpclient.c: the executor

    [run_cb] is the call of the data callback, true when the transfer is
    done. One call of [executor_step] is one round of the loop the executor
    is in. *)

Definition cancelled (s : lst IO OS) : bool :=
  match l_sc s with Some sc => sc_cancel sc | None => false end || bool_decide (l_cb s = None).

Definition executor_callback (run_cb : data_callback → M bool) (fd events : Z) : M () :=
  cb ← gets l_cb;
  done ← (match cb with Some cb => run_cb cb | None => mret true end);
  modify (λ s, s <| l_exec := Some (if (done : bool) then ex_end fd else ex_run fd events) |>).

Definition executor_step (run_cb : data_callback → M bool) : M () :=
  s ← get;
  match l_exec s with
  | None => mret ()
  | Some (ex_start ev) => modify (λ s, s <| l_exec := Some (ex_wait (l_data s) ev) |>)
  | Some (ex_wait fd ev) =>
     match l_sc s with
     | Some sc =>
        if sc_data_go sc || sc_cancel sc
        then modify (λ s, s <| l_exec := Some (ex_run fd ev) |>) else mret ()
     | None => fault
     end
  | Some (ex_run fd ev) =>
     r ← os (sys_poll [(fd, ev)] 1000);
     match r with
     | Err _ => modify (λ s, s <| l_exec := Some (ex_end fd) |>)
     | Ok revs =>
        let rev := default 0 (head revs) in
        if rev =? 0 then
          s ← get;
          if cancelled s then modify (λ s, s <| l_exec := Some (ex_end fd) |>) else mret ()
        else if has rev (Z.lor POLLERR (Z.lor POLLHUP POLLNVAL)) then
          s ← get;
          if cancelled s then modify (λ s, s <| l_exec := Some (ex_end fd) |>)
          else executor_callback run_cb fd ev
        else if negb (has rev ev) then mret ()
        else executor_callback run_cb fd ev
     end
  | Some (ex_end fd) =>
     _ ← (if l_data s =? -1 then mret ()
          else _ ← close_socket (l_data s); modify (λ s, s <| l_data := -1 |>));
     _ ← modify (λ s, s <| l_cb := None |>);
     _ ← server_pollfds_remove fd;
     _ ← server_client_remove fd;
     modify (λ s, s <| l_exec := None |>
                    <| l_sc := (λ sc, sc <| sc_job_active := false |>) <$> l_sc s |>)
  end.

(** [client_socket_event] and [client_socket_disconnect]. *)
Definition client_socket_event (run_cb : data_callback → M bool) (socket_ev : Z) : M () :=
  s ← get;
  if socket_ev =? -1 then mret ()
  else if socket_ev =? l_data s then
    match l_cb s with
    | Some cb => ended ← run_cb cb; if (ended : bool) then client_data_end else mret ()
    | None => client_data_end
    end
  else mret ().

Definition client_socket_disconnect (socket_dc : Z) : M () :=
  s ← get;
  if socket_dc =? -1 then mret ()
  else if socket_dc =? l_data s then client_data_end
  else if socket_dc =? l_control s then
    _ ← client_data_end;
    s ← get;
    _ ← (if l_pasv s =? -1 then mret ()
         else _ ← close_socket (l_pasv s); modify (λ s, s <| l_pasv := -1 |>));
    sc ← gets l_sc;
    match sc with Some _ => emit disconnect | None => mret () end
  else mret ().

(** ** ftpserver.c: the core callbacks *)

(** [shim_on_connect]: a fresh client, [sc] its entry of the side table, or
    [None] when all are taken; [hooks] are the connect callbacks. The core
    client's [logged_in] is set, which is outside of this state. *)
Definition shim_on_connect (hooks : M ()) (control : Z) (sc : option shim_client) : M () :=
  match sc with
  | None => mret ()
  | Some sc =>
     _ ← modify (λ s, s <| l_cvar := pttree_create |> <| l_control := control |>
                        <| l_data := -1 |> <| l_pasv := -1 |> <| l_cb := None |>
                        <| l_lastcmd := [] |> <| l_sc := Some sc |>);
     _ ← server_client_add control;
     _ ← server_pollfds_add control (Z.lor POLLIN POLLRDNORM);
     _ ← hooks;
     emit (send_reply 220 (B "OpenPS3FTP ready."))
  end.

(** The first half of [shim_on_disconnect], which cancels the executor; the
    reactor then polls [job_active] for at most two seconds. *)
Definition disconnect_cancel : M () :=
  s ← get;
  match l_sc s with
  | None => mret ()
  | Some sc =>
     _ ← modify (λ s, s <| l_sc := Some (sc <| sc_cancel := true |>) |>);
     if l_data s =? -1 then mret () else os_ (sys_shutdown (l_data s))
  end.

(** The second half. *)
Definition disconnect_free (hooks : M ()) : M () :=
  _ ← hooks;
  s ← get;
  _ ← server_pollfds_remove (l_control s);
  _ ← server_client_remove (l_control s);
  _ ← (if l_pasv s =? -1 then mret ()
       else _ ← close_socket (l_pasv s); modify (λ s, s <| l_pasv := -1 |>));
  modify (λ s, s <| l_sc := None |> <| l_cvar := PTNull |>).

End Facade.

End Legacy.
