(* ===== verification/LegacyIo.v ===== *)
(** * legacy/src/ftpio_linux.c: the legacy file interface on a host

    The int32 handles of the legacy interface are POSIX descriptors for
    files, and indices of a table of 64 streams for directories. Every path
    is prefixed with the root of the process ([OPFTP_LEGACY_ROOT], read once
    from the environment). *)

From S2P Require Import Prelude Types FsIface FsPosix Sys Legacy.
Import FsPosix Legacy.

Local Open Scope Z_scope.

Module LegacyIo.

Definition SHIM_DIRS : nat := 64.

(** The root from the environment: absolute, without trailing slashes. *)
Fixpoint strip_rev (r : bytes) : bytes :=
  match r with
  | c :: (_ :: _) as r' => if ceq c SLASH then strip_rev r' else r
  | _ => r
  end.

Definition shim_root (env : option bytes) : bytes :=
  match env with
  | Some (c :: r) => if ceq c SLASH then reverse (strip_rev (reverse (bprintf 4096 (c :: r)))) else [SLASH]
  | _ => [SLASH]
  end.

Definition shim_full (root path : bytes) : bytes :=
  match root with
  | [_] => bprintf 4200 path
  | _ => bprintf 4200 (root ++ path)
  end.

Record linux_io (P : Type) := mk_linux {
  li_posix : P; li_root : bytes; li_dirs : list (option dirh); li_next : nat
}.
#[global] Arguments mk_linux {_}.
#[global] Arguments li_posix {_}.
#[global] Arguments li_root {_}.
#[global] Arguments li_dirs {_}.
#[global] Arguments li_next {_}.
#[export] Instance linux_io_settable P : Settable (linux_io P) := λ x,
  mk_linux (li_posix x) (li_root x) (li_dirs x) (li_next x).

Section Io.
Context {P : Type} `{PosixOps P}.
Abbreviation IO := (linux_io P).

(** A POSIX call; [None] or [false] when it fails. *)
Definition call {A} (f : P → res A * P) (x : IO) : option A * IO :=
  match f (li_posix x) with
  | (Ok a, p) => (Some a, x <| li_posix := p |>)
  | (Err _, p) => (None, x <| li_posix := p |>)
  end.

Definition test {A} (f : P → res A * P) (x : IO) : bool * IO :=
  let '(r, x') := call f x in (bool_decide (is_Some (option_map (λ _, ()) r)), x').

Definition linux_open (path : bytes) (oflags : Z) (x : IO) : option Z * IO :=
  call (px_open (shim_full (li_root x) path) oflags 511) x.

(** The first free entry of the table, from [start] on, around the end. *)
Definition free_dir (dirs : list (option dirh)) (start : nat) : option nat :=
  head (filter (λ h, dirs !! h = Some None) ((λ i, (start + i) `mod` SHIM_DIRS)%nat <$> seq 0 SHIM_DIRS)).

Definition linux_opendir (path : bytes) (x : IO) : option Z * IO :=
  match call (px_opendir (shim_full (li_root x) path)) x with
  | (None, x1) => (None, x1)
  | (Some d, x1) =>
     match free_dir (li_dirs x1) (li_next x1) with
     | Some h => (Some (Z.of_nat h), x1 <| li_dirs := <[h := Some d]> (li_dirs x1) |>
                                        <| li_next := ((h + 1) `mod` SHIM_DIRS)%nat |>)
     | None => (None, (call (px_closedir d) x1).2)
     end
  end.

(** [shim_dirs[fd]] when it is in range and used. *)
Definition used_dir (fd : Z) (x : IO) : option dirh :=
  if (fd <? 0) || (Z.of_nat SHIM_DIRS <=? fd) then None
  else match li_dirs x !! Z.to_nat fd with Some (Some d) => Some d | _ => None end.

Definition linux_readdir (fd : Z) (x : IO) : option (option bytes) * IO :=
  match used_dir fd x with
  | None => (None, x)
  | Some d =>
     let '(r, x1) := call (px_readdir d) x in
     (match r with Some (Some e) => Some (Some (d_name e)) | Some None => Some None | None => None end, x1)
  end.

Definition linux_closedir (fd : Z) (x : IO) : IO :=
  match used_dir fd x with
  | None => x
  | Some d => (call (px_closedir d) (x <| li_dirs := <[Z.to_nat fd := None]> (li_dirs x) |>)).2
  end.

#[export] Instance FtpIo_linux : FtpIo IO := {|
  ftpio_open := linux_open;
  ftpio_opendir := linux_opendir;
  ftpio_readdir := linux_readdir;
  ftpio_read fd n := call (px_read fd n);
  ftpio_write fd b := call (px_write fd b);
  ftpio_close fd x := (call (px_close fd) x).2;
  ftpio_closedir := linux_closedir;
  ftpio_rename a b x := test (px_rename (shim_full (li_root x) a) (shim_full (li_root x) b)) x;
  ftpio_chmod p m x := test (px_chmod (shim_full (li_root x) p) m) x;
  ftpio_lseek fd off x := (call (px_lseek fd off SEEK_SET) x).2;
  ftpio_mkdir p m x := test (px_mkdir (shim_full (li_root x) p) m) x;
  ftpio_rmdir p x := test (px_rmdir (shim_full (li_root x) p)) x;
  ftpio_unlink p x := test (px_unlink (shim_full (li_root x) p)) x;
  ftpio_stat p x := call (px_stat (shim_full (li_root x) p)) x
|}.

(** ** The table of directory streams *)

(** An entry is found whenever one is free, and it is free. *)
Lemma free_dir_spec dirs start h :
  free_dir dirs start = Some h → dirs !! h = Some None ∧ (h < SHIM_DIRS)%nat.
Proof.
  unfold free_dir. intros Hh. apply head_Some_elem_of in Hh.
  apply list_elem_of_filter in Hh as [Hn Hin]. split; [done|].
  apply list_elem_of_fmap in Hin as (i & -> & _). apply Nat.mod_upper_bound. done.
Qed.

Lemma free_dir_none dirs start :
  length dirs = SHIM_DIRS → free_dir dirs start = None → Forall (λ o, o ≠ None) dirs.
Proof.
  intros Hl Hn. apply Forall_lookup. intros h o Ho ->.
  unfold free_dir in Hn. apply head_None in Hn.
  assert (h ∈ filter (λ h, dirs !! h = Some None)
    ((λ i, (start + i) `mod` SHIM_DIRS)%nat <$> seq 0 SHIM_DIRS)) as Hin.
  { apply list_elem_of_filter. split; [done|]. apply list_elem_of_fmap.
    pose proof (lookup_lt_Some _ _ _ Ho) as Hlt. rewrite Hl in Hlt.
    exists ((h + (SHIM_DIRS - start `mod` SHIM_DIRS)) `mod` SHIM_DIRS)%nat.
    pose proof (Nat.mod_upper_bound start SHIM_DIRS ltac:(done)) as Hs. split.
    - rewrite Nat.Div0.add_mod_idemp_r.
      replace (start + (h + (SHIM_DIRS - start `mod` SHIM_DIRS)))%nat
        with (h + (start + (SHIM_DIRS - start `mod` SHIM_DIRS)))%nat by lia.
      pose proof (Nat.div_mod_eq start SHIM_DIRS) as Hd.
      replace (start + (SHIM_DIRS - start `mod` SHIM_DIRS))%nat
        with ((start / SHIM_DIRS + 1) * SHIM_DIRS)%nat by lia.
      rewrite Nat.Div0.mod_add. symmetry. by apply Nat.mod_small.
    - apply elem_of_seq. split; [lia|]. apply Nat.mod_upper_bound. done. }
  rewrite Hn in Hin. by apply not_elem_of_nil in Hin.
Qed.

End Io.

(** The table of directory streams never hands out a handle that is in
    use: when [ftpio_opendir] succeeds, the entry it returns was free, it now
    holds the new stream and every other entry is as it was; when it fails
    although the stream could be opened, all 64 entries were in use, and the
    stream has been closed again. *)
Theorem opendir_handles {P : Type} `{PosixOps P} (path : bytes) (x x1 : linux_io P) (d : dirh)
    (Hlen : length (li_dirs x) = SHIM_DIRS)
    (Hopen : call (px_opendir (shim_full (li_root x) path)) x = (Some d, x1)) :
  match linux_opendir path x with
  | (Some h, x2) =>
     0 ≤ h < 64 ∧ used_dir h x = None ∧ used_dir h x2 = Some d ∧
     ∀ h', h' ≠ h → used_dir h' x2 = used_dir h' x
  | (None, x2) => Forall (λ o, o ≠ None) (li_dirs x) ∧ x2 = (call (px_closedir d) x1).2
  end.
Proof.
  assert (li_dirs x1 = li_dirs x ∧ li_next x1 = li_next x) as [E1 E2].
  { unfold call in Hopen. destruct (px_opendir _ _) as [[?|?] ?]; simplify_eq. done. }
  unfold linux_opendir. rewrite Hopen, E1, E2.
  destruct (free_dir (li_dirs x) (li_next x)) as [h|] eqn:Ef; [|split; [by eapply free_dir_none|done]].
  apply free_dir_spec in Ef as [Hf Hlt]. unfold SHIM_DIRS in Hlt.
  assert (∀ h' : Z, (h' <? 0) || (Z.of_nat SHIM_DIRS <=? h') = false ↔ 0 ≤ h' < 64) as Hr.
  { intros h'. unfold SHIM_DIRS. rewrite orb_false_iff, Z.ltb_ge, Z.leb_gt. lia. }
  split_and!; [lia|lia| | |].
  - unfold used_dir. rewrite (proj2 (Hr _)) by lia. by rewrite Nat2Z.id, Hf.
  - unfold used_dir. rewrite (proj2 (Hr _)) by lia. cbn. rewrite Nat2Z.id.
    by rewrite list_lookup_insert_eq by (rewrite Hlen; unfold SHIM_DIRS; lia).
  - intros h' Hne. unfold used_dir. destruct ((h' <? 0) || _) eqn:E; [done|]. apply Hr in E. cbn.
    rewrite list_lookup_insert_ne by lia. done.
Qed.

(** A host with an empty table and the root "/". *)
Definition linux0 : linux_io host := mk_linux host0 [SLASH] (replicate SHIM_DIRS None) 0.

Lemma opendir_handles_witness :
  match linux_opendir (B "/") linux0 with
  | (Some h, x2) =>
     0 ≤ h < 64 ∧ used_dir h linux0 = None ∧ used_dir h x2 = Some 1%positive ∧
     ∀ h', h' ≠ h → used_dir h' x2 = used_dir h' linux0
  | (None, x2) => Forall (λ o, o ≠ None) (li_dirs linux0) ∧ x2 = linux0
  end.
Proof.
  exact (opendir_handles (B "/") linux0 (call (px_opendir (B "/")) linux0).2 1%positive eq_refl eq_refl).
Defined.

(** ** legacy/src/ftpio.c: the file interface on the console

    Each function is one call of the console's kernel; built without the
    console SDK every one fails. A call answers with a code, 0 for success,
    and what it stores through its pointer. *)

Class LvFs (C : Type) := {
  sysFsOpen : bytes → Z → C → Z * Z * C;
  sysFsOpendir : bytes → C → Z * Z * C;
  (** An empty name where [nread] is 0. *)
  sysFsReaddir : Z → C → Z * option bytes * C;
  sysFsRead : Z → nat → C → Z * bytes * C;
  sysFsWrite : Z → bytes → C → Z * nat * C;
  sysFsClose : Z → C → Z * C;
  sysFsClosedir : Z → C → Z * C;
  sysLv2FsRename : bytes → bytes → C → Z * C;
  sysFsChmod : bytes → Z → C → Z * C;
  sysFsLseek : Z → Z → Z → C → Z * Z * C;
  sysFsMkdir : bytes → Z → C → Z * C;
  sysFsRmdir : bytes → C → Z * C;
  sysFsUnlink : bytes → C → Z * C;
  sysFsStat : bytes → C → Z * opftp_stat * C;
  sysFsFstat : Z → C → Z * opftp_stat * C
}.

Section Console.
Context {C : Type} `{LvFs C}.
Context (sdk : bool).

(** A call with a value, and one without. *)
Definition lv_value {A} (f : C → Z * A * C) (c : C) : option A * C :=
  if sdk then let '(ret, a, c) := f c in (if ret =? 0 then Some a else None, c) else (None, c).
Definition lv_status (f : C → Z * C) (c : C) : bool * C :=
  if sdk then let '(ret, c) := f c in (ret =? 0, c) else (false, c).

Definition console_open (path : bytes) (oflags : Z) : C → option Z * C := lv_value (sysFsOpen path oflags).
Definition console_opendir (path : bytes) : C → option Z * C := lv_value (sysFsOpendir path).
Definition console_readdir (fd : Z) : C → option (option bytes) * C := lv_value (sysFsReaddir fd).
Definition console_read (fd : Z) (n : nat) : C → option bytes * C := lv_value (sysFsRead fd n).
Definition console_write (fd : Z) (b : bytes) : C → option nat * C := lv_value (sysFsWrite fd b).
Definition console_close (fd : Z) (c : C) : C := snd (lv_status (sysFsClose fd) c).
Definition console_closedir (fd : Z) (c : C) : C := snd (lv_status (sysFsClosedir fd) c).
Definition console_rename (a b : bytes) : C → bool * C := lv_status (sysLv2FsRename a b).
Definition console_chmod (p : bytes) (m : Z) : C → bool * C := lv_status (sysFsChmod p m).
Definition console_lseek (fd off : Z) (c : C) : C := snd (lv_value (sysFsLseek fd off 0) c).
Definition console_mkdir (p : bytes) (m : Z) : C → bool * C := lv_status (sysFsMkdir p m).
Definition console_rmdir (p : bytes) : C → bool * C := lv_status (sysFsRmdir p).
Definition console_unlink (p : bytes) : C → bool * C := lv_status (sysFsUnlink p).
Definition console_stat (p : bytes) : C → option opftp_stat * C := lv_value (sysFsStat p).
Definition console_fstat (fd : Z) : C → option opftp_stat * C := lv_value (sysFsFstat fd).

#[export] Instance FtpIo_console : FtpIo C := {|
  ftpio_open := console_open; ftpio_opendir := console_opendir; ftpio_readdir := console_readdir;
  ftpio_read := console_read; ftpio_write := console_write; ftpio_close := console_close;
  ftpio_closedir := console_closedir; ftpio_rename := console_rename; ftpio_chmod := console_chmod;
  ftpio_lseek := console_lseek; ftpio_mkdir := console_mkdir; ftpio_rmdir := console_rmdir;
  ftpio_unlink := console_unlink; ftpio_stat := console_stat
|}.

End Console.

End LegacyIo.
