(* ===== verification/LegacyBase.v ===== *)
(** * feat/base/base.c: the command set of the legacy server

    One definition per handler and per data callback, in the order of the
    file. The handlers find their variables by name in the tree of the client
    and write formatted replies into stack buffers of fixed size: a text that
    does not fit is a fault. The NTFS listing of the PS3 build is left out
    (_NTFS_SUPPORT_ is off in the host build). *)

From S2P Require Import Prelude Types CLib Listing FsIface Sys PrefixTree LegacyUtil.
From S2P Require Import World LegacyCommand Legacy.
Import CLib LegacyUtil LegacyCommand Legacy.

Local Open Scope Z_scope.

Module LegacyBase.

(** ** include/const.h *)

Definition WELCOME_MSG := B "OpenPS3FTP v4.4".
Definition FTP_150 := B "Accepted data connection.".
Definition FTP_200 := B "OK.".
Definition FTP_202 := B "Already logged in.".
Definition FTP_215 := B "UNIX Type: L8".
Definition FTP_226 := B "Transfer complete.".
Definition FTP_226A := B "Transfer aborted.".
Definition FTP_227 (n : list Z) : bytes :=
  B "Entering Passive Mode (" ++
  foldr (λ z r, match r with [] => fmt_u z | _ => fmt_u z ++ B "," ++ r end) [] n ++ B ")".
Definition FTP_230 (user : bytes) := B "Successfully logged in as " ++ user ++ B ".".
Definition FTP_230A := B "Successfully logged in.".
Definition FTP_250 := B "File operation successful.".
Definition FTP_257 (p : bytes) : bytes := [DQUOTE] ++ p ++ [DQUOTE].
Definition FTP_331 (user : bytes) := B "Username " ++ user ++ B " OK. Password required.".
Definition FTP_350 (rest : Z) := B "Restarting at " ++ fmt_u rest ++ B ".".
Definition FTP_350A := B "Ready for next command.".
Definition FTP_421 := B "Closing control connection.".
Definition FTP_425 := B "Cannot open data connection.".
Definition FTP_450 := B "Another data transfer is already in progress.".
Definition FTP_451 := B "Data transfer error (network).".
Definition FTP_452 := B "Data transfer error (system).".
Definition FTP_501 := B "Bad command syntax.".
Definition FTP_502 := B "Command not implemented.".
Definition FTP_503 := B "Bad command usage.".
Definition FTP_504 := B "Parameter not accepted.".
Definition FTP_530 := B "Not logged in.".
Definition FTP_550 := B "Cannot access specified file or directory.".
Definition FTP_554 := B "Invalid REST restart point.".

Definition BUFFER_DATA : nat := 64 * 1024.
Definition MAX_USERNAME_LEN : nat := 32.

(** fcntl.h of the host. *)
Definition O_RDONLY : Z := 0.
Definition O_WRONLY : Z := 1.
Definition O_CREAT : Z := 64.
Definition O_TRUNC : Z := 512.
Definition O_APPEND : Z := 1024.

Section Base.
Context {IO OS : Type} `{FtpIo IO} `{SysOps OS} `{LegacySys OS} `{Limits}.
Abbreviation M := (LM IO OS).

(** [sprintf] into a buffer of [n] bytes. *)
Definition sprintf (n : nat) (s : bytes) : M bytes := lift (store n s).

(** [ftpio_close( *fd); *fd = -1;] and the same for a directory. *)
Definition close_fd (fd : option loc) : M () :=
  n ← get_int fd; _ ← io_ (ftpio_close n); set_int fd (-1).
Definition closedir_fd (fd : option loc) : M () :=
  n ← get_int fd; _ ← io_ (ftpio_closedir n); set_int fd (-1).

(** The path a parameter names: the text of cwd, then [get_absolute_path]. *)
Definition param_path (cwd : option loc) (param : bytes) : M bytes :=
  d ← get_path cwd;
  cwd_str ← lift (get_working_directory d);
  lift (get_absolute_path cwd_str param).

(** [file_exists]. *)
Definition file_exists (path : bytes) : M bool :=
  st ← io (ftpio_stat path); mret (bool_decide (st ≠ None)).

(** ** Data callbacks *)

Definition pad_left (w : nat) (s : bytes) : bytes := replicate (w - length s) SPACE ++ s.
Definition pad_right (w : nat) (s : bytes) : bytes := s ++ replicate (w - length s) SPACE.

(** [strftime] with "%b %e %H:%M". *)
Definition list_time (t : tm) : bytes :=
  default [] (Listing.MONTHS !! Z.to_nat (tm_mon t)) ++ B " " ++ pad_left 2 (fmt_d (tm_mday t))
  ++ B " " ++ fmt_0d 2 (tm_hour t) ++ B ":" ++ fmt_0d 2 (tm_min t).

Definition list_line (st : opftp_stat) (t : tm) (name : bytes) : bytes :=
  get_file_mode (st_mode st) ++ B " " ++ pad_left 3 (fmt_d 1) ++ B " "
  ++ pad_right 10 (fmt_d (s32 (st_uid st))) ++ B " " ++ pad_right 10 (fmt_d (s32 (st_gid st))) ++ B " "
  ++ pad_left 10 (fmt_u (u64 (st_size st))) ++ B " " ++ list_time t ++ B " " ++ name ++ CRLF.

(** The end of a listing or a transfer: close, reply, done. *)
Definition finish_dir (fd : option loc) (code : Z) (msg : bytes) : M bool :=
  _ ← closedir_fd fd; _ ← client_send_code code msg; mret true.
Definition finish_file (fd : option loc) (code : Z) (msg : bytes) : M bool :=
  _ ← close_fd fd; _ ← client_send_code code msg; mret true.

(** One [send] on the data socket; true when all of it was taken. *)
Definition send_whole (line : bytes) : M bool :=
  s ← get;
  r ← os (sys_send (l_data s) line);
  mret (match r with Ok n => (length line <=? n)%nat | Err _ => false end).

(** The body LIST and NLST share: [line] formats an entry. *)
Definition data_entry (line : opftp_stat → bytes → M bytes) : M bool :=
  cwd ← client_get_cvar (B "cwd");
  fd ← client_get_cvar (B "fd");
  n ← get_int fd;
  r ← io (ftpio_readdir n);
  match r with
  | None => finish_dir fd 452 FTP_452
  | Some None => finish_dir fd 226 FTP_226
  | Some (Some name) =>
     path ← param_path cwd name;
     st ← io (ftpio_stat path);
     match st with
     | None => mret false
     | Some st =>
        text ← line st name;
        ok ← send_whole text;
        if (ok : bool) then mret false else finish_dir fd 451 FTP_451
     end
  end.

Definition data_list_cb : M bool := data_entry (λ st name,
  s ← get;
  match sys_localtime_r (l_os s) (st_mtime st) with
  | Some t => sprintf BUFFER_DATA (list_line st t name)
  | None => fault
  end).

Definition data_nlst_cb : M bool := data_entry (λ _ name, sprintf BUFFER_DATA (name ++ CRLF)).

Definition data_retr_cb : M bool :=
  fd ← client_get_cvar (B "fd");
  n ← get_int fd;
  r ← io (ftpio_read n BUFFER_DATA);
  match r with
  | None => finish_file fd 452 FTP_452
  | Some [] => finish_file fd 226 FTP_226
  | Some b =>
     ok ← send_whole b;
     if (ok : bool) then mret false else finish_file fd 451 FTP_451
  end.

Definition data_stor_cb : M bool :=
  s ← get;
  fd ← client_get_cvar (B "fd");
  r ← os (sys_recv (l_data s) BUFFER_DATA);
  match r with
  | Ok [] => finish_file fd 226 FTP_226
  | Err _ => finish_file fd 451 FTP_451
  | Ok b =>
     n ← get_int fd;
     w ← io (ftpio_write n b);
     match w with
     | Some k => if (length b <=? k)%nat then mret false else finish_file fd 452 FTP_452
     | None => finish_file fd 452 FTP_452
     end
  end.

Definition run_callback (cb : data_callback) : M bool :=
  match cb with
  | data_list => data_list_cb | data_nlst => data_nlst_cb
  | data_retr => data_retr_cb | data_stor => data_stor_cb
  end.

(** ** Handlers *)

Definition reply := client_send_code (IO:=IO) (OS:=OS).

(** [bool* auth = ...; if(! *auth) { 530; return; }] *)
Definition with_auth (k : M ()) : M () :=
  auth ← client_get_cvar (B "auth");
  a ← get_bool auth;
  if (a : bool) then k else reply 530 FTP_530.

(** [if(command_params[0] == '\0') { 501; return; }] *)
Definition with_param (param : bytes) (k : M ()) : M () :=
  match param with [] => reply 501 FTP_501 | _ => k end.

(** An operation on the path of the parameter: 250 or 550. *)
Definition done_or_550 (ok : bool) (code : Z) (msg : bytes) : M () :=
  if ok then reply code msg else reply 550 FTP_550.

Definition cmd_abor (param : bytes) : M () :=
  with_auth (_ ← client_data_end; reply 226 FTP_226A).

Definition cmd_acct (param : bytes) : M () :=
  auth ← client_get_cvar (B "auth");
  a ← get_bool auth;
  if (a : bool) then reply 202 FTP_202
  else _ ← set_bool auth true; reply 230 FTP_230A.

Definition cmd_allo (param : bytes) : M () := with_auth (reply 202 FTP_200).

Definition cmd_cdup (param : bytes) : M () :=
  cwd ← client_get_cvar (B "cwd");
  with_auth (
    d ← get_path cwd;
    _ ← (match d with [] => mret () | _ => set_path cwd (take (length d - 1) d) end);
    reply 250 FTP_250).

Definition cmd_cwd (param : bytes) : M () :=
  cwd ← client_get_cvar (B "cwd");
  with_auth (with_param param (
    path ← param_path cwd param;
    st ← io (ftpio_stat path);
    match st with
    | Some st =>
       if is_dir (st_mode st) then
         d ← lift (set_working_directory path);
         _ ← set_path cwd d; reply 250 FTP_250
       else reply 550 FTP_550
    | None => reply 550 FTP_550
    end)).

Definition cmd_dele (param : bytes) : M () :=
  cwd ← client_get_cvar (B "cwd");
  with_auth (with_param param (
    path ← param_path cwd param;
    ok ← io (ftpio_unlink path);
    done_or_550 ok 250 FTP_250)).

Definition cmd_help (param : bytes) : M () := reply 214 WELCOME_MSG.

(** [cmd_list] and [cmd_nlst]. *)
Definition start_listing (cb : data_callback) : M () :=
  cwd ← client_get_cvar (B "cwd");
  fd ← client_get_cvar (B "fd");
  with_auth (
    n ← get_int fd;
    if negb (n =? -1) then reply 450 FTP_450
    else
      d ← get_path cwd;
      cwd_str ← lift (get_working_directory d);
      h ← io (ftpio_opendir cwd_str);
      match h with
      | None => reply 550 FTP_550
      | Some h =>
         _ ← set_int fd h;
         ok ← client_data_start cb (Z.lor POLLOUT POLLWRNORM);
         if (ok : bool) then reply 150 FTP_150
         else _ ← closedir_fd fd; reply 425 FTP_425
      end).

Definition cmd_list (param : bytes) : M () := start_listing data_list.

Definition cmd_mkd (param : bytes) : M () :=
  cwd ← client_get_cvar (B "cwd");
  with_auth (with_param param (
    path ← param_path cwd param;
    ok ← io (ftpio_mkdir path 511);
    if (ok : bool) then text ← sprintf (MAX_PATH + 32) (FTP_257 path); reply 257 text
    else reply 550 FTP_550)).

Definition cmd_mode (param : bytes) : M () :=
  with_auth (if streq param (B "s") || streq param (B "S") then reply 200 FTP_200
             else reply 504 FTP_504).

Definition cmd_nlst (param : bytes) : M () := start_listing data_nlst.

Definition cmd_noop (param : bytes) : M () := reply 200 FTP_200.

Definition cmd_pass (param : bytes) : M () :=
  user ← client_get_cvar (B "user");
  auth ← client_get_cvar (B "auth");
  a ← get_bool auth;
  if (a : bool) then reply 202 FTP_202
  else
    s ← get;
    if negb (streq (l_lastcmd s) (B "USER")) then reply 503 FTP_503
    else
      _ ← set_bool auth true;
      u ← get_str user;
      text ← sprintf (MAX_USERNAME_LEN + 32) (FTP_230 u);
      reply 230 text.

(** The six numbers of a 227 reply; the address field of a [struct
    sockaddr_in] overlays the flow label of a [sockaddr_in6], which is 0. *)
Definition pasv_numbers (a : sockaddr) : list Z :=
  match a with
  | SA_in ip port => (cv <$> ip) ++ [Z.shiftr port 8; Z.land port 255]
  | SA_in6 _ port => [0; 0; 0; 0; Z.shiftr port 8; Z.land port 255]
  | SA_unspec => [0; 0; 0; 0; 0; 0]
  end.

Definition cmd_pasv (param : bytes) : M () :=
  with_auth (
    a ← client_pasv_enter;
    match a with
    | Some a => text ← sprintf 64 (FTP_227 (pasv_numbers a)); reply 227 text
    | None => reply 425 FTP_425
    end).

(** The address a PORT tuple names: the numbers are unsigned shorts, the
    first four are cast to unsigned char, the port is cut to 16 bits. *)
Definition port_ip (t : list Z) : bytes := (λ z, chr (u8 z)) <$> take 4 t.
Definition port_port (t : list Z) : Z :=
  u16 (Z.lor (Z.shiftl (default 0 (t !! 4%nat)) 8) (default 0 (t !! 5%nat))).

Definition cmd_port (param : bytes) : M () :=
  with_auth (
    let t := parse_port_tuple param in
    if negb (length t =? 6)%nat then reply 501 FTP_501
    else
      s ← get;
      if negb (l_data s =? -1) then reply 450 FTP_450
      else
        p ← client_get_cvar (B "port_addr");
        _ ← (match p with
             | Some l =>
                c ← deref (Some l);
                match c with
                | CAddr _ _ => assign (Some l) (CAddr (port_ip t) (port_port t))
                | _ => fault
                end
             | None =>
                l ← alloc (CAddr (port_ip t) (port_port t));
                client_set_cvar (B "port_addr") (Some l)
             end);
        reply 200 FTP_200).

Definition cmd_pwd (param : bytes) : M () :=
  cwd ← client_get_cvar (B "cwd");
  with_auth (
    d ← get_path cwd;
    cwd_str ← lift (get_working_directory d);
    text ← sprintf (MAX_PATH + 32) (FTP_257 cwd_str);
    reply 257 text).

(** [atoll]. *)
Definition atoll (s : bytes) : Z := fst (strtol 10 s).

Definition cmd_rest (param : bytes) : M () :=
  rest ← client_get_cvar (B "rest");
  with_auth (
    let v := match param with [] => 0 | _ => atoll param end in
    if 0 <=? v then
      _ ← set_u64 rest v;
      r ← get_u64 rest;
      text ← sprintf 32 (FTP_350 r);
      reply 350 text
    else reply 554 FTP_554).

(** The end of [cmd_retr] and [cmd_stor]: seek, reset REST, start. *)
Definition start_file (fd rest : option loc) (cb : data_callback) (events : Z) : M () :=
  n ← get_int fd;
  r ← get_u64 rest;
  _ ← io_ (ftpio_lseek n (s64 r));
  _ ← set_u64 rest 0;
  ok ← client_data_start cb events;
  if (ok : bool) then reply 150 FTP_150
  else _ ← close_fd fd; reply 425 FTP_425.

Definition cmd_retr (param : bytes) : M () :=
  cwd ← client_get_cvar (B "cwd");
  fd ← client_get_cvar (B "fd");
  rest ← client_get_cvar (B "rest");
  with_auth (
    n ← get_int fd;
    if negb (n =? -1) then reply 450 FTP_450
    else with_param param (
      path ← param_path cwd param;
      ex ← file_exists path;
      if negb ex then reply 550 FTP_550
      else
        h ← io (ftpio_open path O_RDONLY);
        match h with
        | None => reply 550 FTP_550
        | Some h => _ ← set_int fd h; start_file fd rest data_retr (Z.lor POLLOUT POLLWRNORM)
        end)).

Definition cmd_rmd (param : bytes) : M () :=
  cwd ← client_get_cvar (B "cwd");
  with_auth (with_param param (
    path ← param_path cwd param;
    ok ← io (ftpio_rmdir path);
    done_or_550 ok 250 FTP_250)).

Definition cmd_rnfr (param : bytes) : M () :=
  cwd ← client_get_cvar (B "cwd");
  rnfr ← client_get_cvar (B "rnfr");
  with_auth (with_param param (
    path ← param_path cwd param;
    ex ← file_exists path;
    if (ex : bool) then _ ← set_str rnfr path; reply 350 FTP_350A
    else reply 550 FTP_550)).

Definition cmd_rnto (param : bytes) : M () :=
  cwd ← client_get_cvar (B "cwd");
  rnfr ← client_get_cvar (B "rnfr");
  with_auth (with_param param (
    s ← get;
    if negb (streq (l_lastcmd s) (B "RNFR")) then reply 503 FTP_503
    else
      path ← param_path cwd param;
      from ← get_str rnfr;
      ok ← io (ftpio_rename from path);
      done_or_550 ok 250 FTP_250)).

Definition cmd_stat (param : bytes) : M () :=
  user ← client_get_cvar (B "user");
  auth ← client_get_cvar (B "auth");
  _ ← client_send_multicode 211 WELCOME_MSG;
  u ← get_str user;
  text ← sprintf 64 (B "Username: " ++ u);
  _ ← client_send_multimessage text;
  a ← get_bool auth;
  text ← sprintf 64 (B "Authenticated: " ++ fmt_d (if (a : bool) then 1 else 0));
  _ ← client_send_multimessage text;
  s ← get;
  text ← sprintf 64 (B "Total connections: " ++ fmt_d (Z.of_nat (length (sv_pollfds (l_srv s))) - 1));
  _ ← client_send_multimessage text;
  reply 211 (B "End.").

Definition stor_oflags (exists_ appe : bool) (rest : Z) : Z :=
  let f := if exists_ then O_WRONLY else Z.lor O_WRONLY O_CREAT in
  if appe then Z.lor f O_APPEND else if rest =? 0 then Z.lor f O_TRUNC else f.

Definition cmd_stor (command_name param : bytes) : M () :=
  cwd ← client_get_cvar (B "cwd");
  fd ← client_get_cvar (B "fd");
  rest ← client_get_cvar (B "rest");
  with_auth (
    n ← get_int fd;
    if negb (n =? -1) then reply 450 FTP_450
    else with_param param (
      path ← param_path cwd param;
      ex ← file_exists path;
      r ← get_u64 rest;
      let oflags := stor_oflags ex (streq command_name (B "APPE")) r in
      h ← io (ftpio_open path oflags);
      match h with
      | None => reply 550 FTP_550
      | Some h =>
         _ ← set_int fd h;
         _ ← (if Z.land oflags O_CREAT =? 0 then mret ()
              else _ ← io (ftpio_chmod path 511); mret ());
         start_file fd rest data_stor (Z.lor POLLIN POLLRDNORM)
      end)).

Definition cmd_stru (param : bytes) : M () :=
  with_auth (if streq param (B "f") || streq param (B "F") then reply 200 FTP_200
             else reply 504 FTP_504).

Definition cmd_syst (param : bytes) : M () := reply 215 FTP_215.

Definition cmd_type (param : bytes) : M () := with_auth (reply 200 FTP_200).

Definition cmd_user (param : bytes) : M () :=
  user ← client_get_cvar (B "user");
  auth ← client_get_cvar (B "auth");
  a ← get_bool auth;
  if (a : bool) then reply 202 FTP_202
  else with_param param (
    _ ← set_str user param;
    u ← get_str user;
    text ← sprintf (MAX_USERNAME_LEN + 32) (FTP_331 u);
    reply 331 text).

Definition base_connect : M () :=
  cwd ← alloc (CPath []);
  user ← alloc (CBuf MAX_USERNAME_LEN None);
  rnfr ← alloc (CBuf MAX_PATH None);
  auth ← alloc (CBool false);
  fd ← alloc (CInt (-1));
  rest ← alloc (CU64 0);
  _ ← client_set_cvar (B "cwd") (Some cwd);
  _ ← client_set_cvar (B "user") (Some user);
  _ ← client_set_cvar (B "rnfr") (Some rnfr);
  _ ← client_set_cvar (B "auth") (Some auth);
  _ ← client_set_cvar (B "fd") (Some fd);
  _ ← client_set_cvar (B "rest") (Some rest);
  client_send_multicode 220 WELCOME_MSG.

(** [if(p != NULL) free(p);] *)
Definition free_var (name : bytes) : M () :=
  p ← client_get_cvar name;
  match p with Some l => free_cell l | None => mret () end.

Definition base_disconnect : M () :=
  _ ← free_var (B "port_addr"); _ ← free_var (B "cwd"); _ ← free_var (B "user");
  _ ← free_var (B "rnfr"); _ ← free_var (B "auth"); _ ← free_var (B "fd");
  free_var (B "rest").

Definition cmd_feat (param : bytes) : M () :=
  _ ← client_send_multicode 211 (B "Features:");
  _ ← client_send_multimessage (B "REST STREAM");
  _ ← client_send_multimessage (B "SIZE");
  _ ← client_send_multimessage (B "MDTM");
  _ ← client_send_multimessage (B "TVFS");
  reply 211 (B "End").

(** [cmd_size] and [cmd_mdtm] copy the parameter into a path buffer first. *)
Definition with_stat (param : bytes) (k : opftp_stat → M ()) : M () :=
  cwd ← client_get_cvar (B "cwd");
  with_auth (with_param param (
    pp ← lift (store MAX_PATH param);
    path ← param_path cwd pp;
    st ← io (ftpio_stat path);
    match st with Some st => k st | None => reply 550 FTP_550 end)).

Definition cmd_size (param : bytes) : M () := with_stat param (λ st,
  text ← sprintf 32 (fmt_u (u64 (st_size st))); reply 213 text).

Definition cmd_mdtm (param : bytes) : M () := with_stat param (λ st,
  s ← get;
  match sys_localtime_r (l_os s) (st_mtime st) with
  | Some t => text ← sprintf 32 (fmt_tm14 t); reply 213 text
  | None => fault
  end).

Definition cmd_chmod (param : bytes) : M () :=
  cwd ← client_get_cvar (B "cwd");
  with_auth (with_param param (
    match strtok SPACE param with
    | m :: p :: _ =>
       pp ← lift (store MAX_PATH p);
       path ← param_path cwd pp;
       ok ← io (ftpio_chmod path (u32 (fst (strtoull 8 m))));
       done_or_550 ok 200 FTP_200
    | _ => reply 501 FTP_501
    end)).

Definition cmd_stop (param : bytes) : M () :=
  with_auth (_ ← server_stop; reply 421 FTP_421).

(** ** The tables *)

(** The handlers, by the name of their function. *)
Inductive base_cmd :=
  | B_abor | B_acct | B_allo | B_cdup | B_cwd | B_dele | B_help | B_list | B_mkd | B_mode
  | B_nlst | B_noop | B_pass | B_pasv | B_port | B_pwd | B_rest | B_retr | B_rmd | B_rnfr
  | B_rnto | B_site | B_stat | B_stor | B_stru | B_syst | B_type | B_user | B_feat | B_size
  | B_mdtm | B_chmod | B_stop.

(** The registry [cmd_site] builds for one call. *)
Definition site_list : list (bytes * base_cmd) := [(B "CHMOD", B_chmod); (B "STOP", B_stop)].

Definition site_command : Command base_cmd unit :=
  (register_all 1 site_list (command_init, [])).1.

(** [cmd_site], [run] being the call of the handler found. *)
Definition cmd_site (run : bytes → base_cmd → bytes → M ()) (param : bytes) : M () :=
  with_param param (
    np ← lift (parse_command_string (length param) param);
    match command_call site_command np.1 with
    | Some h => run np.1 h np.2
    | None => reply 502 FTP_502
    end).

(** Every handler but SITE. *)
Definition run_simple (name : bytes) (h : base_cmd) (param : bytes) : M () :=
  match h with
  | B_abor => cmd_abor param | B_acct => cmd_acct param | B_allo => cmd_allo param
  | B_cdup => cmd_cdup param | B_cwd => cmd_cwd param | B_dele => cmd_dele param
  | B_help => cmd_help param | B_list => cmd_list param | B_mkd => cmd_mkd param
  | B_mode => cmd_mode param | B_nlst => cmd_nlst param | B_noop => cmd_noop param
  | B_pass => cmd_pass param | B_pasv => cmd_pasv param | B_port => cmd_port param
  | B_pwd => cmd_pwd param | B_rest => cmd_rest param | B_retr => cmd_retr param
  | B_rmd => cmd_rmd param | B_rnfr => cmd_rnfr param | B_rnto => cmd_rnto param
  | B_site => reply 502 FTP_502 | B_stat => cmd_stat param | B_stor => cmd_stor name param
  | B_stru => cmd_stru param | B_syst => cmd_syst param | B_type => cmd_type param
  | B_user => cmd_user param | B_feat => cmd_feat param | B_size => cmd_size param
  | B_mdtm => cmd_mdtm param | B_chmod => cmd_chmod param | B_stop => cmd_stop param
  end.

Definition run_cmd (name : bytes) (h : base_cmd) (param : bytes) : M () :=
  match h with
  | B_site => cmd_site run_simple param
  | _ => run_simple name h param
  end.

(** The registrations of [base_command_import], in order. *)
Definition base_list : list (bytes * base_cmd) :=
  [(B "ABOR", B_abor); (B "ACCT", B_acct); (B "ALLO", B_allo); (B "APPE", B_stor);
   (B "CDUP", B_cdup); (B "CWD", B_cwd); (B "DELE", B_dele); (B "HELP", B_help);
   (B "LIST", B_list); (B "MKD", B_mkd); (B "MODE", B_mode); (B "NLST", B_nlst);
   (B "NOOP", B_noop); (B "PASS", B_pass); (B "PASV", B_pasv); (B "PORT", B_port);
   (B "PWD", B_pwd); (B "REST", B_rest); (B "RETR", B_retr); (B "RMD", B_rmd);
   (B "RNFR", B_rnfr); (B "RNTO", B_rnto); (B "SITE", B_site); (B "STAT", B_stat);
   (B "STOR", B_stor); (B "STRU", B_stru); (B "SYST", B_syst); (B "TYPE", B_type);
   (B "USER", B_user); (B "XCUP", B_cdup); (B "XCWD", B_cwd); (B "XMKD", B_mkd);
   (B "XPWD", B_pwd); (B "XRMD", B_rmd); (B "FEAT", B_feat); (B "SIZE", B_size);
   (B "MDTM", B_mdtm)].

(** [base_command_import] into a fresh command, and the table of records. *)
Definition base_command_import (cmd : nat) (rs : list shim_cmdreg)
  : Command base_cmd unit * list shim_cmdreg :=
  register_all cmd base_list
    (command_register_disconnect (command_register_connect command_init ()) (), rs).

(** [legacy_dispatch_adapter], of the entry registered under [name]. A
    connection has a facade exactly when [shim_on_connect] got it an entry of
    the side table; one without is not answered. *)
Definition legacy_dispatch_adapter (c : Command base_cmd unit) (name param : bytes) : M () :=
  s ← get;
  match l_sc s with
  | None => mret ()
  | Some _ =>
     match command_call c name with
     | Some h =>
        _ ← run_cmd name h param;
        modify (λ s, s <| l_lastcmd := name |>)
     | None => emit (send_reply 502 (B "Command not implemented."))
     end
  end.

End Base.

End LegacyBase.
