(* ===== verification/LegacySafe.v ===== *)
(** * The legacy command set on a session: memory safety, login, replies

    [typed vs mm s] says that the tree of variables of the session [s] points
    to the live cells [vs], of the types the handlers cast to, and that they
    hold the values [mm]. Every handler of feat/base keeps this, does not
    fault under the conditions [safe] spells out, gives one final reply or
    starts a transfer, and does nothing to the filesystem, the sockets and the
    server before login. *)

From S2P Require Import Prelude Types CLib Listing FsIface Sys PrefixTree Avl LegacyUtil.
From S2P Require Import World LegacyCommand Legacy LegacyBase.
Import CLib PrefixTree LegacyUtil LegacyCommand Legacy LegacyBase.

Local Open Scope Z_scope.

Module LegacySafe.

(** ** The variables of a session *)

Record vars := mk_vars {
  v_cwd : loc; v_user : loc; v_rnfr : loc; v_auth : loc; v_fd : loc; v_rest : loc;
  v_port : option loc
}.
#[export] Instance vars_settable : Settable vars := λ x,
  mk_vars (v_cwd x) (v_user x) (v_rnfr x) (v_auth x) (v_fd x) (v_rest x) (v_port x).

Record mem := mk_mem {
  m_cwd : list bytes; m_user : option bytes; m_rnfr : option bytes; m_auth : bool;
  m_fd : Z; m_rest : Z; m_port : option (bytes * Z)
}.
#[export] Instance mem_settable : Settable mem := λ x,
  mk_mem (m_cwd x) (m_user x) (m_rnfr x) (m_auth x) (m_fd x) (m_rest x) (m_port x).

(** The names of the variables; no one extends another. *)
Definition names : list bytes :=
  [B "cwd"; B "user"; B "rnfr"; B "auth"; B "fd"; B "rest"; B "port_addr"].

Record named (vs : vars) (m : gmap bytes (option loc)) : Prop := mk_named {
  nm_keys k : is_Some (m !! k) → k ∈ names;
  nm_cwd : m !! B "cwd" = Some (Some (v_cwd vs));
  nm_user : m !! B "user" = Some (Some (v_user vs));
  nm_rnfr : m !! B "rnfr" = Some (Some (v_rnfr vs));
  nm_auth : m !! B "auth" = Some (Some (v_auth vs));
  nm_fd : m !! B "fd" = Some (Some (v_fd vs));
  nm_rest : m !! B "rest" = Some (Some (v_rest vs));
  nm_port : m !! B "port_addr" ≫= id = v_port vs
}.

Section Typed.
Context `{Limits}.

(** The cells the variables point to. *)
Record celled (vs : vars) (mm : mem) (h : gmap loc cell) : Prop := mk_celled {
  ce_cwd : h !! v_cwd vs = Some (CPath (m_cwd mm));
  ce_user : h !! v_user vs = Some (CBuf MAX_USERNAME_LEN (m_user mm));
  ce_rnfr : h !! v_rnfr vs = Some (CBuf MAX_PATH (m_rnfr mm));
  ce_auth : h !! v_auth vs = Some (CBool (m_auth mm));
  ce_fd : h !! v_fd vs = Some (CInt (m_fd mm));
  ce_rest : h !! v_rest vs = Some (CU64 (m_rest mm));
  ce_port : match v_port vs, m_port mm with
            | Some l, Some (ip, p) => h !! l = Some (CAddr ip p)
            | None, None => True
            | _, _ => False
            end;
  ce_distinct : v_user vs ≠ v_rnfr vs
}.

(** Values that fit where they are kept. *)
Record valued (mm : mem) : Prop := mk_valued {
  va_user u : m_user mm = Some u → (length u < MAX_USERNAME_LEN)%nat;
  va_rest : 0 ≤ m_rest mm < 2 ^ 64
}.

Record typed {IO OS} (vs : vars) (mm : mem) (s : lst IO OS) : Prop := mk_typed {
  ty_tree : ∃ m, stores (l_cvar s) m ∧ named vs m;
  ty_cells : celled vs mm (l_heap s);
  ty_values : valued mm;
  ty_next l : is_Some (l_heap s !! l) → (l < l_next s)%positive;
  ty_sc : l_sc s ≠ None
}.

Lemma names_no_nul k : k ∈ names → no_nul k.
Proof. unfold names. rewrite !elem_of_cons, elem_of_nil. naive_solver (by repeat constructor). Qed.

Section Session.
Context {IO OS : Type}.
Implicit Types s : lst IO OS.

(** Changes outside the variables. *)
Lemma typed_frame vs mm s s' :
  typed vs mm s → l_cvar s' = l_cvar s → l_heap s' = l_heap s → l_next s' = l_next s →
  l_sc s' ≠ None → typed vs mm s'.
Proof. intros [Ht Hc Hv Hn Hs] E1 E2 E3 E4. split; rewrite ?E1, ?E2, ?E3; done. Qed.

Lemma typed_search vs mm s name l :
  typed vs mm s → (∀ m, named vs m → m !! name = Some (Some l)) → no_nul name →
  pttree_search (l_cvar s) name = Some l.
Proof.
  intros [(m & Hm & Hn) _ _ _ _] Hl Hk. by rewrite (sto_search _ _ Hm), (Hl m Hn) by done.
Qed.

Lemma typed_search_port vs mm s :
  typed vs mm s → pttree_search (l_cvar s) (B "port_addr") = v_port vs.
Proof.
  intros [(m & Hm & Hn) _ _ _ _]. rewrite (sto_search _ _ Hm) by (by repeat constructor).
  apply (nm_port _ _ Hn).
Qed.

End Session.

(** A cell overwritten by one of the same kind. *)
Ltac cell_update :=
  intros; match goal with Hc : celled _ _ _ |- _ => destruct Hc end;
  split; cbn in *; try done;
  repeat match goal with
  | |- <[?l := _]> _ !! ?l = _ => by rewrite lookup_insert_eq
  | |- <[?l := _]> _ !! _ = _ => rewrite lookup_insert_ne by congruence; done
  | |- match ?o with _ => _ end => destruct o as [?|] eqn:?
  | |- (let '(_, _) := ?p in _) => destruct p
  end; try done.

Lemma celled_cwd vs mm h p :
  celled vs mm h → celled vs (mm <| m_cwd := p |>) (<[v_cwd vs := CPath p]> h).
Proof. cell_update. Qed.
Lemma celled_user vs mm h u :
  celled vs mm h → celled vs (mm <| m_user := u |>) (<[v_user vs := CBuf MAX_USERNAME_LEN u]> h).
Proof. cell_update. Qed.
Lemma celled_rnfr vs mm h u :
  celled vs mm h → celled vs (mm <| m_rnfr := u |>) (<[v_rnfr vs := CBuf MAX_PATH u]> h).
Proof. cell_update. Qed.
Lemma celled_auth vs mm h b :
  celled vs mm h → celled vs (mm <| m_auth := b |>) (<[v_auth vs := CBool b]> h).
Proof. cell_update. Qed.
Lemma celled_fd vs mm h z :
  celled vs mm h → celled vs (mm <| m_fd := z |>) (<[v_fd vs := CInt z]> h).
Proof. cell_update. Qed.
Lemma celled_rest vs mm h z :
  celled vs mm h → celled vs (mm <| m_rest := z |>) (<[v_rest vs := CU64 z]> h).
Proof. cell_update. Qed.

(** The PORT variable set, and freed. *)
Lemma named_port vs m d :
  named vs m → named (vs <| v_port := d |>) (<[B "port_addr" := d]> m).
Proof.
  intros [Hk ? ? ? ? ? ? ?]. split; cbn; try (by rewrite lookup_insert_ne).
  - intros k. rewrite lookup_insert_is_Some'. intros [<-|?]; [|by apply Hk].
    unfold names. rewrite !elem_of_cons. tauto.
  - by rewrite lookup_insert_eq.
Qed.

Lemma port_fresh vs m : named vs m → fresh_end m (B "port_addr").
Proof. intros Hn. by apply (extends_none_fresh m names); [apply (nm_keys _ _ Hn)|]. Qed.

Lemma tree_port vs t d :
  (∃ m, stores t m ∧ named vs m) →
  ∃ m, stores (pttree_insert t (B "port_addr") d) m ∧ named (vs <| v_port := d |>) m.
Proof.
  intros (m & Hs & Hn). exists (<[B "port_addr" := d]> m). split; [|by apply named_port].
  apply insert_stores; [by repeat constructor|by eapply port_fresh|done].
Qed.

Lemma celled_port_free vs mm h l :
  celled vs mm h → v_port vs = Some l →
  celled (vs <| v_port := None |>) (mm <| m_port := None |>) (delete l h).
Proof.
  intros [? ? ? ? ? ? Hp ?] Hl. rewrite Hl in Hp. destruct (m_port mm) as [[ip p]|]; [|done].
  split; cbn; try done; rewrite lookup_delete_ne by congruence; done.
Qed.

Lemma celled_port_new vs mm h l ip p :
  celled vs mm h → h !! l = None →
  celled (vs <| v_port := Some l |>) (mm <| m_port := Some (ip, p) |>) (<[l := CAddr ip p]> h).
Proof.
  intros [? ? ? ? ? ? Hp ?] Hl.
  split; cbn; try done; try (rewrite lookup_insert_ne by congruence; done).
  by rewrite lookup_insert_eq.
Qed.

Lemma celled_port_set vs mm h l ip p :
  celled vs mm h → v_port vs = Some l →
  celled vs (mm <| m_port := Some (ip, p) |>) (<[l := CAddr ip p]> h).
Proof.
  intros [? ? ? ? ? ? Hp ?] Hl. rewrite Hl in Hp. destruct (m_port mm) as [[ip' p']|]; [|done].
  split; cbn; try done; try (rewrite lookup_insert_ne by congruence; done).
  rewrite Hl. by rewrite lookup_insert_eq.
Qed.

(** ** Running handlers *)

Section Run.
Context {IO OS : Type} `{FtpIo IO} `{SysOps OS} `{LegacySys OS}.
Abbreviation M := (LM IO OS).
Implicit Types s : lst IO OS.

Definition wp {A} (m : M A) (s : lst IO OS) (Q : A → lst IO OS → Prop) : Prop :=
  match m s with Some (a, s') => Q a s' | None => False end.

Lemma wp_bind {A C} (m : M A) (k : A → M C) s Q :
  wp m s (λ a s', wp (k a) s' Q) → wp (m ≫= k) s Q.
Proof. unfold wp, mbind, LM_bind. by destruct (m s) as [[a s']|]. Qed.

Lemma wp_ret {A} (a : A) s (Q : A → lst IO OS → Prop) : Q a s → wp (mret a) s Q.
Proof. done. Qed.

Lemma wp_mono {A} (m : M A) s (Q Q' : A → lst IO OS → Prop) :
  wp m s Q → (∀ a s', Q a s' → Q' a s') → wp m s Q'.
Proof. unfold wp. destruct (m s) as [[a s']|]; [|done]. intros ? HQ. by apply HQ. Qed.

Section Steps.
Context (vs : vars) (mm : mem) (s : lst IO OS) (Ht : typed vs mm s).

Lemma wp_cvar name l (Q : option loc → lst IO OS → Prop) :
  (∀ m, named vs m → m !! name = Some (Some l)) → no_nul name → Q (Some l) s →
  wp (client_get_cvar name) s Q.
Proof. intros Hl Hn HQ. unfold wp, client_get_cvar, gets. by rewrite (typed_search _ _ _ _ _ Ht Hl Hn). Qed.

Lemma wp_cvar_port (Q : option loc → lst IO OS → Prop) :
  Q (v_port vs) s → wp (client_get_cvar (B "port_addr")) s Q.
Proof. unfold wp, client_get_cvar, gets. by rewrite (typed_search_port _ _ _ Ht). Qed.

Lemma wp_deref l c (Q : cell → lst IO OS → Prop) :
  l_heap s !! l = Some c → Q c s → wp (deref (Some l)) s Q.
Proof. intros Hl. unfold wp, deref. by rewrite Hl. Qed.

Lemma wp_get_path (Q : list bytes → lst IO OS → Prop) :
  Q (m_cwd mm) s → wp (get_path (Some (v_cwd vs))) s Q.
Proof. intros HQ. apply wp_bind. by eapply wp_deref; [apply (ty_cells _ _ _ Ht)|]. Qed.
Lemma wp_get_auth (Q : bool → lst IO OS → Prop) :
  Q (m_auth mm) s → wp (get_bool (Some (v_auth vs))) s Q.
Proof. intros HQ. apply wp_bind. by eapply wp_deref; [apply (ty_cells _ _ _ Ht)|]. Qed.
Lemma wp_get_fd (Q : Z → lst IO OS → Prop) :
  Q (m_fd mm) s → wp (get_int (Some (v_fd vs))) s Q.
Proof. intros HQ. apply wp_bind. by eapply wp_deref; [apply (ty_cells _ _ _ Ht)|]. Qed.
Lemma wp_get_rest (Q : Z → lst IO OS → Prop) :
  Q (m_rest mm) s → wp (get_u64 (Some (v_rest vs))) s Q.
Proof. intros HQ. apply wp_bind. by eapply wp_deref; [apply (ty_cells _ _ _ Ht)|]. Qed.
Lemma wp_get_user u (Q : bytes → lst IO OS → Prop) :
  m_user mm = Some u → Q u s → wp (get_str (Some (v_user vs))) s Q.
Proof. intros Hu HQ. apply wp_bind. eapply wp_deref; [apply (ty_cells _ _ _ Ht)|]. by rewrite Hu. Qed.
Lemma wp_get_rnfr u (Q : bytes → lst IO OS → Prop) :
  m_rnfr mm = Some u → Q u s → wp (get_str (Some (v_rnfr vs))) s Q.
Proof. intros Hu HQ. apply wp_bind. eapply wp_deref; [apply (ty_cells _ _ _ Ht)|]. by rewrite Hu. Qed.

(** An assignment to a cell that keeps the session typed. *)
Lemma wp_assign mm' l c c0 (Q : () → lst IO OS → Prop) :
  l_heap s !! l = Some c0 → celled vs mm' (<[l := c]> (l_heap s)) → valued mm' →
  (∀ h, typed vs mm' (s <| l_heap := h |>) → Q () (s <| l_heap := h |>)) →
  wp (assign (Some l) c) s Q.
Proof.
  intros Hl Hc Hv HQ. unfold wp, assign. rewrite Hl. apply HQ.
  destruct Ht as [Htr _ _ Hn Hs]. split; [done|done|done| |done].
  intros l'. cbn. rewrite lookup_insert_is_Some'. intros [<-|?]; apply Hn; [by eexists|done].
Qed.

Lemma wp_set_path p (Q : () → lst IO OS → Prop) :
  (∀ h, typed vs (mm <| m_cwd := p |>) (s <| l_heap := h |>) → Q () (s <| l_heap := h |>)) →
  wp (set_path (Some (v_cwd vs)) p) s Q.
Proof.
  intros HQ. apply wp_bind, wp_get_path. eapply wp_assign; [..|exact HQ].
  - apply (ty_cells _ _ _ Ht).
  - apply celled_cwd, (ty_cells _ _ _ Ht).
  - destruct (ty_values _ _ _ Ht). by split.
Qed.
Lemma wp_set_auth b (Q : () → lst IO OS → Prop) :
  (∀ h, typed vs (mm <| m_auth := b |>) (s <| l_heap := h |>) → Q () (s <| l_heap := h |>)) →
  wp (set_bool (Some (v_auth vs)) b) s Q.
Proof.
  intros HQ. apply wp_bind, wp_get_auth. eapply wp_assign; [..|exact HQ].
  - apply (ty_cells _ _ _ Ht).
  - apply celled_auth, (ty_cells _ _ _ Ht).
  - destruct (ty_values _ _ _ Ht). by split.
Qed.
Lemma wp_set_fd z (Q : () → lst IO OS → Prop) :
  (∀ h, typed vs (mm <| m_fd := z |>) (s <| l_heap := h |>) → Q () (s <| l_heap := h |>)) →
  wp (set_int (Some (v_fd vs)) z) s Q.
Proof.
  intros HQ. apply wp_bind, wp_get_fd. eapply wp_assign; [..|exact HQ].
  - apply (ty_cells _ _ _ Ht).
  - apply celled_fd, (ty_cells _ _ _ Ht).
  - destruct (ty_values _ _ _ Ht). by split.
Qed.
Lemma wp_set_rest z (Q : () → lst IO OS → Prop) :
  (∀ h, typed vs (mm <| m_rest := u64 z |>) (s <| l_heap := h |>) → Q () (s <| l_heap := h |>)) →
  wp (set_u64 (Some (v_rest vs)) z) s Q.
Proof.
  intros HQ. apply wp_bind, wp_get_rest. eapply wp_assign; [..|exact HQ].
  - apply (ty_cells _ _ _ Ht).
  - apply celled_rest, (ty_cells _ _ _ Ht).
  - destruct (ty_values _ _ _ Ht). split; [done|]. cbn. unfold u64. apply Z.mod_pos_bound. lia.
Qed.
Lemma wp_set_user u (Q : () → lst IO OS → Prop) :
  (length u < MAX_USERNAME_LEN)%nat →
  (∀ h, typed vs (mm <| m_user := Some u |>) (s <| l_heap := h |>) → Q () (s <| l_heap := h |>)) →
  wp (set_str (Some (v_user vs)) u) s Q.
Proof.
  intros Hu HQ. apply wp_bind. eapply wp_deref; [apply (ty_cells _ _ _ Ht)|].
  apply wp_bind. unfold wp at 1, lift. rewrite store_fits by done. cbn [fmap option_fmap option_map].
  eapply wp_assign; [..|exact HQ].
  - apply (ty_cells _ _ _ Ht).
  - apply celled_user, (ty_cells _ _ _ Ht).
  - destruct (ty_values _ _ _ Ht). split; [|done]. cbn. by intros ? [= <-].
Qed.
Lemma wp_set_rnfr u (Q : () → lst IO OS → Prop) :
  (length u < MAX_PATH)%nat →
  (∀ h, typed vs (mm <| m_rnfr := Some u |>) (s <| l_heap := h |>) → Q () (s <| l_heap := h |>)) →
  wp (set_str (Some (v_rnfr vs)) u) s Q.
Proof.
  intros Hu HQ. apply wp_bind. eapply wp_deref; [apply (ty_cells _ _ _ Ht)|].
  apply wp_bind. unfold wp at 1, lift. rewrite store_fits by done. cbn [fmap option_fmap option_map].
  eapply wp_assign; [..|exact HQ].
  - apply (ty_cells _ _ _ Ht).
  - apply celled_rnfr, (ty_cells _ _ _ Ht).
  - destruct (ty_values _ _ _ Ht). by split.
Qed.

Lemma wp_io {A} (f : IO → A * IO) (Q : A → lst IO OS → Prop) :
  (∀ a x, f (l_io s) = (a, x) → typed vs mm (s <| l_io := x |>) → Q a (s <| l_io := x |>)) → wp (io f) s Q.
Proof.
  intros HQ. unfold wp, io. destruct (f (l_io s)) as [a x] eqn:E. apply HQ; [done|].
  apply (typed_frame _ _ _ _ Ht); try done. apply (ty_sc _ _ _ Ht).
Qed.
Lemma wp_io_ (f : IO → IO) (Q : () → lst IO OS → Prop) :
  (∀ x, typed vs mm (s <| l_io := x |>) → Q () (s <| l_io := x |>)) → wp (io_ f) s Q.
Proof.
  intros HQ. apply (HQ (f (l_io s))).
  apply (typed_frame _ _ _ _ Ht); try done. apply (ty_sc _ _ _ Ht).
Qed.
Lemma wp_os {A} (f : OS → A * OS) (Q : A → lst IO OS → Prop) :
  (∀ a x, f (l_os s) = (a, x) → typed vs mm (s <| l_os := x |>) → Q a (s <| l_os := x |>)) → wp (os f) s Q.
Proof.
  intros HQ. unfold wp, os. destruct (f (l_os s)) as [a x] eqn:E. apply HQ; [done|].
  apply (typed_frame _ _ _ _ Ht); try done. apply (ty_sc _ _ _ Ht).
Qed.
Lemma wp_os_ (f : OS → OS) (Q : () → lst IO OS → Prop) :
  (∀ x, typed vs mm (s <| l_os := x |>) → Q () (s <| l_os := x |>)) → wp (os_ f) s Q.
Proof.
  intros HQ. apply (HQ (f (l_os s))).
  apply (typed_frame _ _ _ _ Ht); try done. apply (ty_sc _ _ _ Ht).
Qed.

Lemma wp_lift {A} (o : option A) a (Q : A → lst IO OS → Prop) : o = Some a → Q a s → wp (lift o) s Q.
Proof. by intros ->. Qed.

(** A final reply, and the preliminary one of a transfer. *)
Lemma wp_reply code msg (Q : () → lst IO OS → Prop) :
  code ≠ 150 →
  (typed vs mm (s <| l_out := l_out s ++ [send_reply code msg] |>) →
   Q () (s <| l_out := l_out s ++ [send_reply code msg] |>)) →
  wp (client_send_code code msg) s Q.
Proof.
  intros Hc HQ. pose proof (ty_sc _ _ _ Ht) as Hsc.
  unfold wp, client_send_code, mbind, LM_bind, gets, emit, modify.
  destruct (l_sc s) as [sc|] eqn:E; [|done]. rewrite (proj2 (Z.eqb_neq _ _) Hc). cbn. apply HQ.
  apply (typed_frame _ _ _ _ Ht); try done. cbn. by rewrite E.
Qed.

Lemma wp_reply_150 msg (Q : () → lst IO OS → Prop) :
  (∀ sc, typed vs mm (s <| l_sc := Some sc |> <| l_out := l_out s ++ [send_reply 150 msg] |>) →
   Q () (s <| l_sc := Some sc |> <| l_out := l_out s ++ [send_reply 150 msg] |>)) →
  wp (client_send_code 150 msg) s Q.
Proof.
  intros HQ. pose proof (ty_sc _ _ _ Ht) as Hsc.
  unfold wp, client_send_code, mbind, LM_bind, gets, emit, modify.
  destruct (l_sc s) as [sc|] eqn:E; [|done]. cbn. apply (HQ (sc <| sc_data_go := true |>)).
  by apply (typed_frame _ _ _ _ Ht).
Qed.

Lemma wp_raw_line b (Q : () → lst IO OS → Prop) :
  (∀ c, typed vs mm (s <| l_out := l_out s ++ [send_raw c] |>) →
   Q () (s <| l_out := l_out s ++ [send_raw c] |>)) →
  wp (send_raw_line b) s Q.
Proof.
  intros HQ. pose proof (ty_sc _ _ _ Ht) as Hsc.
  unfold wp, send_raw_line, mbind, LM_bind, gets, emit, modify.
  destruct (l_sc s) as [sc|] eqn:E; [|done]. apply HQ.
  apply (typed_frame _ _ _ _ Ht); try done. cbn. by rewrite E.
Qed.

Lemma wp_frame (f : lst IO OS → lst IO OS) (Q : () → lst IO OS → Prop) :
  l_cvar (f s) = l_cvar s → l_heap (f s) = l_heap s → l_next (f s) = l_next s → l_sc (f s) ≠ None →
  (typed vs mm (f s) → Q () (f s)) → wp (modify f) s Q.
Proof. intros E1 E2 E3 E4 HQ. apply HQ. by apply (typed_frame _ _ _ _ Ht). Qed.

(** Freeing the PORT address. *)
Lemma wp_port_free l (Q : () → lst IO OS → Prop) :
  v_port vs = Some l →
  (∀ h t, typed (vs <| v_port := None |>) (mm <| m_port := None |>) (s <| l_heap := h |> <| l_cvar := t |>) →
   Q () (s <| l_heap := h |> <| l_cvar := t |>)) →
  wp (_ ← free_cell l; client_set_cvar (B "port_addr") None) s Q.
Proof.
  intros Hl HQ. destruct Ht as [Htr Hc Hv Hn Hs].
  pose proof (ce_port _ _ _ Hc) as Hp. rewrite Hl in Hp. destruct (m_port mm) as [[ip p]|] eqn:Em; [|done].
  apply wp_bind. unfold wp at 1, free_cell. rewrite Hp. apply HQ.
  split; cbn; [by apply tree_port|by apply celled_port_free| | |done].
  - destruct Hv. by split.
  - intros l' [c Hl']. apply lookup_delete_Some in Hl' as [_ Hl']. apply Hn. by eexists.
Qed.

End Steps.

Lemma vars_port_id vs : vs <| v_port := v_port vs |> = vs.
Proof. by destruct vs. Qed.
Lemma mem_port_id mm : mm <| m_port := m_port mm |> = mm.
Proof. by destruct mm. Qed.

(** ** The data channel *)

(** Nothing was said, and no executor started or ended. *)
Definition quiet (s s' : lst IO OS) : Prop := l_out s' = l_out s ∧ l_exec s' = l_exec s.

(** What a call that opens or closes sockets leaves alone: the variables but
    for the PORT address, the replies, the executor, the
    filesystem. *)
Definition opened (vs : vars) (mm : mem) (s s' : lst IO OS) : Prop :=
  (∃ x y, typed (vs <| v_port := x |>) (mm <| m_port := y |>) s') ∧
  quiet s s' ∧ l_io s' = l_io s ∧ l_lastcmd s' = l_lastcmd s.

Lemma opened_refl vs mm s : typed vs mm s → opened vs mm s s.
Proof.
  intros Ht. split_and!; [|done..]. exists (v_port vs), (m_port mm). by rewrite vars_port_id, mem_port_id.
Qed.

Lemma opened_frame vs mm s s1 s2 :
  opened vs mm s s1 → l_cvar s2 = l_cvar s1 → l_heap s2 = l_heap s1 → l_next s2 = l_next s1 →
  l_sc s2 ≠ None → quiet s1 s2 → l_io s2 = l_io s1 → l_lastcmd s2 = l_lastcmd s1 →
  opened vs mm s s2.
Proof.
  intros [(x & y & Ht) ([E0 E1] & E2 & E3)] F1 F2 F3 F4 [F0 F5] F6 F7. unfold opened, quiet. split_and!; [|congruence..].
  exists x, y. by apply (typed_frame _ _ _ _ Ht).
Qed.

(** A step on the operating system or on the other fields, under [opened]. *)
Lemma opened_os {A} vs mm s s1 (f : OS → A * OS) (Q : A → lst IO OS → Prop) :
  opened vs mm s s1 →
  (∀ a x, f (l_os s1) = (a, x) → opened vs mm s (s1 <| l_os := x |>) → Q a (s1 <| l_os := x |>)) →
  wp (os f) s1 Q.
Proof.
  intros Ho HQ. unfold wp, os. destruct (f (l_os s1)) as [a x] eqn:E. apply HQ; [done|].
  apply (opened_frame _ _ _ _ _ Ho); try done. cbn. destruct Ho as [(? & ? & Ht) _]. apply (ty_sc _ _ _ Ht).
Qed.

Lemma opened_sc vs mm s s1 : opened vs mm s s1 → l_sc s1 ≠ None.
Proof. intros [(? & ? & Ht) _]. apply (ty_sc _ _ _ Ht). Qed.

Lemma opened_modify vs mm s s1 f (Q : () → lst IO OS → Prop) :
  opened vs mm s s1 →
  l_cvar (f s1) = l_cvar s1 → l_heap (f s1) = l_heap s1 → l_next (f s1) = l_next s1 →
  l_sc (f s1) ≠ None → quiet s1 (f s1) → l_io (f s1) = l_io s1 → l_lastcmd (f s1) = l_lastcmd s1 →
  (opened vs mm s (f s1) → Q () (f s1)) → wp (modify f) s1 Q.
Proof. intros Ho ? ? ? ? ? ? ? HQ. apply HQ. by apply (opened_frame _ _ _ _ _ Ho). Qed.

Ltac ostep Ho :=
  match goal with
  | |- wp (_ ≫= _) _ _ => apply wp_bind
  | |- wp (os _) _ _ => eapply (opened_os _ _ _ _ _ _ Ho); clear Ho; intros ? ? _ Ho
  | |- wp (modify _) _ _ =>
     eapply (opened_modify _ _ _ _ _ _ Ho); try reflexivity;
       [solve [done | exact (opened_sc _ _ _ _ Ho)]|by split|clear Ho; intros Ho]
  | |- wp (close_socket _) _ _ => unfold close_socket, os_
  | |- wp (mret _) _ _ => apply wp_ret
  | |- wp get _ _ => unfold wp at 1; cbn [get]
  end.

(** The peer of the control connection is known, and is an IPv4 one. *)
Definition peer_v4 (s : lst IO OS) : Prop := ∃ ip port, sys_getpeername (l_control s) (l_os s) = SA_in ip port.

Lemma wp_data_connect vs mm s (Q : bool → lst IO OS → Prop) :
  typed vs mm s → (m_port mm = None → peer_v4 s) → (∀ ok s', opened vs mm s s' → Q ok s') → wp data_connect s Q.
Proof.
  intros Ht Hpeer HQ. unfold data_connect. apply wp_bind. eapply wp_cvar_port; [done|].
  apply wp_bind.
  assert (∀ addr s1, opened vs mm s s1 →
    wp (r ← os (sys_socket AF_INET);
        match r with
        | Err _ => _ ← modify (λ s, s <| l_data := -1 |>); mret false
        | Ok fd =>
           _ ← modify (λ s, s <| l_data := fd |>);
           c ← os (sys_connect fd addr);
           match c with
           | Ok _ => mret true
           | Err _ => _ ← close_socket fd; _ ← modify (λ s, s <| l_data := -1 |>); mret false
           end
        end) s1 Q) as Hrest.
  { intros addr s1 Ho. ostep Ho. ostep Ho. case_match; repeat ostep Ho; [|by apply HQ].
    case_match; repeat ostep Ho; by apply HQ. }
  destruct (v_port vs) as [l|] eqn:El.
  - pose proof (ce_port _ _ _ (ty_cells _ _ _ Ht)) as Hp. rewrite El in Hp.
    destruct (m_port mm) as [[ip p]|] eqn:Em; [|done].
    apply wp_bind. eapply wp_deref; [done|]. 
    assert (wp (_ ← free_cell l; client_set_cvar (B "port_addr") None) s
      (λ _ s', opened vs mm s s')) as Hf.
    { eapply wp_port_free; [done|done|]. intros h t Ht'. split_and!; try done. by eexists _, _. }
    unfold wp, mbind, LM_bind in Hf |- *. destruct (free_cell l s) as [[? s1]|]; [|done].
    destruct (client_set_cvar (B "port_addr") None s1) as [[? s2]|]; [|done]. cbn [mret LM_ret]. by apply Hrest.
  - pose proof (ce_port _ _ _ (ty_cells _ _ _ Ht)) as Hp. rewrite El in Hp. destruct (m_port mm) eqn:Em; [done|].
    destruct (Hpeer eq_refl) as (ip & port & Hg). ostep Ht. ostep Ht. rewrite Hg. apply wp_ret. apply Hrest. by apply opened_refl.
Qed.

Lemma wp_data_accept vs mm s (Q : bool → lst IO OS → Prop) :
  typed vs mm s → (∀ ok s', opened vs mm s s' → Q ok s') → wp data_accept s Q.
Proof.
  intros Ht HQ. assert (opened vs mm s s) as Ho by by apply opened_refl.
  unfold data_accept. ostep Ho. ostep Ho. ostep Ho. ostep Ho.
  destruct (match a with Ok revs => _ | Err _ => true end); repeat ostep Ho; by apply HQ.
Qed.

(** The variables and the entry of the session are those of another state. *)
Definition typed_as (s1 s2 : lst IO OS) : Prop :=
  l_cvar s2 = l_cvar s1 ∧ l_heap s2 = l_heap s1 ∧ l_next s2 = l_next s1 ∧ l_sc s2 ≠ None.

(** A transfer without PORT and PASV connects to the peer. *)
Definition data_safe (mm : mem) (s : lst IO OS) : Prop :=
  m_port mm = None → l_data s = -1 → l_pasv s = -1 → peer_v4 s.

Lemma wp_data_start vs mm s cb ev (Q : bool → lst IO OS → Prop) :
  typed vs mm s → data_safe mm s →
  (∀ s', opened vs mm s s' → Q false s') →
  (∀ s1 s', opened vs mm s s1 → typed_as s1 s' → l_out s' = l_out s1 → l_cb s' = Some cb →
     l_exec s' = Some (ex_start ev) → Q true s') →
  wp (client_data_start cb ev) s Q.
Proof.
  intros Ht Hd HQ HT. assert (opened vs mm s s) as Ho by by apply opened_refl.
  pose proof (opened_sc _ _ _ _ Ho) as Hsc. unfold client_data_start. ostep Ho. ostep Ho.
  destruct (l_sc s) as [sc|] eqn:Esc; [|done].
  destruct (negb (sv_pool _)); [by apply wp_ret, HQ|].
  destruct (negb (l_prot _ =? 0)); [by apply wp_ret, HQ|].
  destruct (bool_decide (l_cb s ≠ None)); [by apply wp_ret, HQ|].
  assert (∀ ok s1, opened vs mm s s1 → wp (
    if negb ok then mret false
    else
      s ← get;
      _ ← server_pollfds_add (l_data s) (Z.lor ev POLLIN);
      _ ← server_client_add (l_data s);
      _ ← modify (λ s, s <| l_cb := Some cb |> <| l_sc := Some (mk_shim true false false ev) |>
                         <| l_exec := Some (ex_start ev) |>);
      mret true) s1 Q) as Hrest.
  { intros ok s1 Ho1. destruct ok; cbn [negb]; [|by apply wp_ret, HQ].
    unfold server_client_add, server_pollfds_add, mod_srv. do 8 ostep Ho1.
    apply wp_bind. by eapply HT. }
  apply wp_bind. destruct (Z.eqb_spec (l_data s) (-1)); [|by apply wp_ret, Hrest].
  destruct (Z.eqb_spec (l_pasv s) (-1)); [|by eapply wp_data_accept]. eapply wp_data_connect; [done| |done]. intros Hp. by apply Hd.
Qed.

Lemma wp_data_end vs mm s (Q : () → lst IO OS → Prop) :
  typed vs mm s → (∀ s', opened vs mm s s' → Q () s') → wp client_data_end s Q.
Proof.
  intros Ht HQ. assert (opened vs mm s s) as Ho by by apply opened_refl.
  pose proof (opened_sc _ _ _ _ Ho) as Hsc. unfold client_data_end. ostep Ho. ostep Ho.
  destruct (l_sc s) as [sc|] eqn:Esc; [|done]. destruct (sc_job_active sc).
  - ostep Ho. ostep Ho. destruct (l_data s =? -1); [by apply wp_ret, HQ|]. unfold os_. ostep Ho. by apply HQ.
  - destruct (l_data s =? -1); [by apply wp_ret, HQ|].
    unfold server_pollfds_remove, server_client_remove, mod_srv. repeat ostep Ho. by apply HQ.
Qed.

(** The own address of the control connection is an IPv4 one, when
    [client_pasv_enter] asks for it. *)
Definition own_v4 (s : lst IO OS) : Prop :=
  let x := if l_pasv s =? -1 then l_os s else sys_close (l_pasv s) (l_os s) in
  ∃ ip port, v4_form (sys_getsockname (l_control s) (sys_socket AF_INET x).2).1 = SA_in ip port.

Lemma wp_pasv_enter vs mm s (Q : option sockaddr → lst IO OS → Prop) :
  typed vs mm s → own_v4 s →
  (∀ a s', opened vs mm s s' →
     match a with Some a => ∃ fd x, (sys_getsockname fd x).1 = Ok a ∨ a = with_port (v4_form (sys_getsockname fd x).1) 0 | None => True end →
     Q a s') →
  wp client_pasv_enter s Q.
Proof.
  intros Ht Hown HQ. unfold client_pasv_enter. apply wp_bind. eapply wp_cvar_port; [done|]. apply wp_bind.
  assert (wp (match v_port vs with
              | Some l => _ ← free_cell l; client_set_cvar (B "port_addr") None
              | None => mret () end) s
            (λ _ s', opened vs mm s s' ∧ l_os s' = l_os s ∧ l_pasv s' = l_pasv s ∧ l_control s' = l_control s)) as Hf.
  { destruct (v_port vs) as [l|] eqn:El; [|apply wp_ret; split; [by apply opened_refl|done]].
    eapply wp_port_free; [done|done|]. intros h t Ht'. split; [|done]. split_and!; try done. by eexists _, _. }
  eapply wp_mono; [exact Hf|]. intros [] s1 (Ho & E1 & E2 & E3). cbn beta.
  ostep Ho. ostep Ho. ostep Ho. unfold own_v4 in Hown. rewrite <-E1, <-E2, <-E3 in Hown.
  assert (wp (if l_pasv s1 =? -1 then mret () else close_socket (l_pasv s1)) s1
            (λ _ s', opened vs mm s s' ∧ l_os s' = if l_pasv s1 =? -1 then l_os s1 else sys_close (l_pasv s1) (l_os s1))) as Hc.
  { destruct (l_pasv s1 =? -1); [by apply wp_ret|]. ostep Ho. by ostep Ho. }
  eapply wp_mono; [exact Hc|]. clear Ho Hc Hf. intros [] s2 [Ho E]. cbn beta. rewrite <-E in Hown.
  ostep Ho. eapply (opened_os _ _ _ _ _ _ Ho); clear Ho; intros r x Er Ho. rewrite Er in Hown. cbn in Hown.
  destruct r as [fd|e]; [|do 3 ostep Ho; by apply HQ].
  unfold pasv_addr. ostep Ho. ostep Ho. ostep Ho. ostep Ho.
  eapply (opened_os _ _ _ _ _ _ Ho); clear Ho; intros n0 x0 En0 Ho. cbn in En0. rewrite En0 in Hown. apply wp_ret. cbn in Hown.
  apply wp_bind. destruct Hown as (ip & port & Hown).
  replace (match v4_form n0 with SA_in _ _ => mret () | _ => fault end) with (mret () : M ()) by (by rewrite Hown). apply wp_ret.
  ostep Ho. ostep Ho. match goal with |- wp (match ?b with _ => _ end) _ _ => destruct b end; [|repeat ostep Ho; by apply HQ].
  ostep Ho. ostep Ho. apply wp_bind.
  eapply (opened_os _ _ _ _ _ _ Ho); clear Ho; intros n xx En Ho. apply wp_ret, HQ; [done|].
  destruct n as [a'|e]; [eexists _, _; left; by rewrite En|]. eexists _, _. right. by rewrite En0.
Qed.

End Run.
(** ** What a handler does *)

Section Handlers.
Context {IO OS : Type} `{FtpIo IO} `{SysOps OS} `{LegacySys OS}.
Abbreviation M := (LM IO OS).
Implicit Types s : lst IO OS.

(** What the handlers take from the C library: a socket's name has a port of
    16 bits. *)
Class LegacyEnv := {
  env_sockname (fd : Z) (x : OS) (a : sockaddr) :
    (sys_getsockname fd x).1 = Ok a →
    match a with
    | SA_in ip port => length ip = 4%nat ∧ 0 ≤ port < 65536
    | SA_in6 ip port => length ip = 16%nat ∧ 0 ≤ port < 65536
    | SA_unspec => True
    end
}.
Context `{LegacyEnv}.

Definition is_final (c : core_call) : bool :=
  match c with send_reply code _ => 200 <=? code | _ => false end.
Definition finals (outs : list core_call) : nat := length (filter (λ c, is_final c = true) outs).

(** Nothing but the login variables changed. *)
Record idle (mm mm' : mem) (s s' : lst IO OS) : Prop := mk_idle {
  id_io : l_io s' = l_io s;
  id_os : l_os s' = l_os s;
  id_sockets : l_data s' = l_data s ∧ l_pasv s' = l_pasv s;
  id_exec : l_cb s' = l_cb s ∧ l_exec s' = l_exec s;
  id_srv : l_srv s' = l_srv s;
  id_mem : mm' <| m_user := m_user mm |> <| m_auth := m_auth mm |> = mm
}.

(** The outcome of a handler: one final reply, or the preliminary reply of a
    transfer that has started; the descriptor variable and the executor are as
    they were unless a transfer has started, which needs the variable clear; before login nothing but the login variables
    changes, and the session is logged in afterwards only when [login]. *)
Definition outcome (login : Prop) (mm : mem) (s : lst IO OS) (mm' : mem) (s' : lst IO OS) : Prop :=
  (∃ outs, l_out s' = l_out s ++ outs ∧
     ((finals outs = 1%nat ∧ m_fd mm' = m_fd mm ∧ l_exec s' = l_exec s) ∨
      (finals outs = 0%nat ∧ m_fd mm = -1 ∧ l_cb s' ≠ None ∧ ∃ ev, l_exec s' = Some (ex_start ev)))) ∧
  (m_auth mm = false → idle mm mm' s s' ∧ (m_auth mm' = true → login)).

Definition post (login : Prop) (mm : mem) (s : lst IO OS) : () → lst IO OS → Prop :=
  λ _ s', ∃ vs' mm', typed vs' mm' s' ∧ outcome login mm s mm' s'.

(** A reply sent on a session that is logged in ends the handler. *)
Lemma post_reply login mm s vs1 mm1 s1 code msg :
  typed vs1 mm1 s1 → m_auth mm = true → quiet s s1 → m_fd mm1 = m_fd mm →
  200 ≤ code → wp (client_send_code code msg) s1 (post login mm s).
Proof.
  intros Ht Ha [Ho He] Hf Hc. eapply wp_reply; [exact Ht|lia|]. intros Ht'. exists vs1, mm1. split; [done|].
  split; [|congruence]. exists [send_reply code msg]. cbn. rewrite Ho. split; [done|]. left. split_and!; [|done..].
  unfold finals. cbn. by rewrite decide_True by (by apply Z.leb_le).
Qed.

(** The same before login, or where the login does not matter. *)
Lemma post_reply_idle (login : Prop) mm s vs1 mm1 s1 code msg :
  typed vs1 mm1 s1 → l_out s1 = l_out s → m_fd mm1 = m_fd mm → 200 ≤ code →
  idle mm mm1 s s1 → (m_auth mm = false → m_auth mm1 = true → login) →
  wp (client_send_code code msg) s1 (post login mm s).
Proof.
  intros Ht Ho Hf Hc [? ? ? [? ?] ? ?] Hl. eapply wp_reply; [exact Ht|lia|]. intros Ht'. exists vs1, mm1.
  split; [done|]. split; [|intros ?; split; [by split|auto]].
  exists [send_reply code msg]. cbn. rewrite Ho. split; [done|]. left. split_and!; [|done..].
  unfold finals. cbn. by rewrite decide_True by (by apply Z.leb_le).
Qed.

Lemma idle_refl mm s : idle mm mm s s.
Proof. split; try done. by destruct mm. Qed.

Lemma wp_with_auth login vs mm s (k : M ()) :
  typed vs mm s → (m_auth mm = true → wp k s (post login mm s)) →
  wp (with_auth k) s (post login mm s).
Proof.
  intros Ht Hk. unfold with_auth. apply wp_bind.
  eapply wp_cvar; [done|apply nm_auth|by repeat constructor|].
  apply wp_bind. eapply wp_get_auth; [done|]. destruct (m_auth mm) eqn:Ha; [by apply Hk|].
  eapply post_reply_idle; [done|done|done|lia|apply idle_refl|congruence].
Qed.

Lemma wp_with_param login vs mm s p (k : M ()) :
  typed vs mm s → m_auth mm = true → wp k s (post login mm s) →
  wp (with_param p k) s (post login mm s).
Proof.
  intros Ht Ha Hk. destruct p; [|done]. by eapply post_reply; [exact Ht|done|done|done|lia].
Qed.

(** ** Paths *)

(** The working directory and a parameter fit a path buffer. *)
Definition fits (mm : mem) (param : bytes) : Prop :=
  (length (path_text (m_cwd mm)) + 1 + length param < MAX_PATH)%nat.

Lemma wp_param_path vs mm s param (Q : bytes → lst IO OS → Prop) :
  typed vs mm s → fits mm param →
  (∀ path, get_absolute_path (path_text (m_cwd mm)) param = Some path → Q path s) →
  wp (param_path (Some (v_cwd vs)) param) s Q.
Proof.
  intros Ht Hf HQ. unfold fits in Hf. unfold param_path. apply wp_bind. eapply wp_get_path; [done|].
  apply wp_bind. eapply wp_lift; [apply gwd_fits; lia|].
  destruct (gap_fits (path_text (m_cwd mm)) param) as [path Hp]; [done|lia|].
  eapply wp_lift; [exact Hp|]. by apply HQ.
Qed.

Lemma wp_sprintf n t s (Q : bytes → lst IO OS → Prop) :
  (length t < n)%nat → Q t s → wp (sprintf n t) s Q.
Proof. intros Hl HQ. by eapply wp_lift; [apply store_fits|]. Qed.

(** Symbolic execution of a handler on a logged-in session. *)
Ltac hstep :=
  match goal with
  | |- wp (_ ≫= _) _ _ => apply wp_bind
  | Ht : typed ?vs ?mm ?s |- wp (client_get_cvar (B "cwd")) ?s _ =>
     eapply wp_cvar; [exact Ht|apply nm_cwd|by repeat constructor|]
  | Ht : typed ?vs ?mm ?s |- wp (client_get_cvar (B "user")) ?s _ =>
     eapply wp_cvar; [exact Ht|apply nm_user|by repeat constructor|]
  | Ht : typed ?vs ?mm ?s |- wp (client_get_cvar (B "rnfr")) ?s _ =>
     eapply wp_cvar; [exact Ht|apply nm_rnfr|by repeat constructor|]
  | Ht : typed ?vs ?mm ?s |- wp (client_get_cvar (B "auth")) ?s _ =>
     eapply wp_cvar; [exact Ht|apply nm_auth|by repeat constructor|]
  | Ht : typed ?vs ?mm ?s |- wp (client_get_cvar (B "fd")) ?s _ =>
     eapply wp_cvar; [exact Ht|apply nm_fd|by repeat constructor|]
  | Ht : typed ?vs ?mm ?s |- wp (client_get_cvar (B "rest")) ?s _ =>
     eapply wp_cvar; [exact Ht|apply nm_rest|by repeat constructor|]
  | Ht : typed ?vs ?mm ?s |- wp (with_auth _) ?s _ => eapply (wp_with_auth _ _ _ _ _ Ht); intros
  | Ht : typed ?vs ?mm ?s |- wp (with_param _ _) ?s _ => eapply (wp_with_param _ _ _ _ _ _ Ht); [done|]
  | Ht : typed ?vs ?mm ?s |- wp (param_path _ _) ?s _ => eapply (wp_param_path _ _ _ _ _ Ht); [done|intros ? ?]
  | Ht : typed ?vs ?mm ?s |- wp (io _) ?s _ => eapply (wp_io _ _ _ Ht); clear Ht; intros ? ? _ Ht
  | Ht : typed ?vs ?mm ?s |- wp (io_ _) ?s _ => eapply (wp_io_ _ _ _ Ht); clear Ht; intros ? Ht
  | Ht : typed ?vs ?mm ?s |- wp (get_path _) ?s _ => eapply (wp_get_path _ _ _ Ht)
  | Ht : typed ?vs ?mm ?s |- wp (get_int _) ?s _ => eapply (wp_get_fd _ _ _ Ht)
  | Ht : typed ?vs ?mm ?s |- wp (get_u64 _) ?s _ => eapply (wp_get_rest _ _ _ Ht)
  | Ht : typed ?vs ?mm ?s |- wp (get_bool _) ?s _ => eapply (wp_get_auth _ _ _ Ht)
  | Ht : typed ?vs ?mm ?s |- wp (set_path _ _) ?s _ => eapply (wp_set_path _ _ _ Ht); clear Ht; intros ? Ht
  | Ht : typed ?vs ?mm ?s |- wp (set_int _ _) ?s _ => eapply (wp_set_fd _ _ _ Ht); clear Ht; intros ? Ht
  | Ht : typed ?vs ?mm ?s |- wp (set_u64 _ _) ?s _ => eapply (wp_set_rest _ _ _ Ht); clear Ht; intros ? Ht
  | Ht : typed ?vs ?mm ?s |- wp (reply _ _) ?s (post _ _ _) =>
     eapply post_reply; [exact Ht|done|done|first [reflexivity|assumption|congruence]|lia]
  | |- wp get _ _ => unfold wp at 1; cbn [get]
  | |- wp (mret _) _ _ => apply wp_ret
  | |- wp (done_or_550 ?ok _ _) _ _ => unfold done_or_550; destruct ok
  | |- wp (file_exists _) _ _ => unfold file_exists
  | |- wp (if _ then _ else _) _ _ => case_match
  | |- wp (match _ with _ => _ end) _ _ => case_match
  end.

(** [spec login c m]: the outcome of the handler [m] on every session that
    meets the condition [c]. *)
Definition spec (login : lst IO OS → Prop) (c : mem → lst IO OS → Prop) (m : M ()) : Prop :=
  ∀ vs mm s, typed vs mm s → c mm s → wp m s (post (login s) mm s).

Definition no_login : lst IO OS → Prop := λ _, False.
Definition fits_param (param : bytes) (mm : mem) (s : lst IO OS) : Prop := fits mm param.
Definition always (mm : mem) (s : lst IO OS) : Prop := True.

Lemma spec_dele p : spec no_login (fits_param p) (cmd_dele p).
Proof. intros vs mm s Ht Hc. unfold cmd_dele. repeat hstep. Qed.
Lemma spec_rmd p : spec no_login (fits_param p) (cmd_rmd p).
Proof. intros vs mm s Ht Hc. unfold cmd_rmd. repeat hstep. Qed.
Lemma spec_allo p : spec no_login always (cmd_allo p).
Proof. intros vs mm s Ht Hc. unfold cmd_allo. repeat hstep. Qed.
Lemma spec_type p : spec no_login always (cmd_type p).
Proof. intros vs mm s Ht Hc. unfold cmd_type. repeat hstep. Qed.
Lemma spec_mode p : spec no_login always (cmd_mode p).
Proof. intros vs mm s Ht Hc. unfold cmd_mode. repeat hstep. Qed.
Lemma spec_stru p : spec no_login always (cmd_stru p).
Proof. intros vs mm s Ht Hc. unfold cmd_stru. repeat hstep. Qed.
Lemma spec_cdup p : spec no_login always (cmd_cdup p).
Proof. intros vs mm s Ht Hc. unfold cmd_cdup. repeat hstep. Qed.

(** ** Handlers that reply to anyone *)

Lemma reply_anyone code msg : 200 ≤ code → spec no_login always (reply code msg).
Proof.
  intros Hc vs mm s Ht _. eapply post_reply_idle; [done|done|done|done|apply idle_refl|congruence].
Qed.

Lemma finals_app a b : finals (a ++ b) = (finals a + finals b)%nat.
Proof. unfold finals. by rewrite list.filter_app, length_app. Qed.

(** Lines of a multi-line reply before the final one. *)
Lemma post_raw login mm s vs s1 outs (k : M ()) b :
  typed vs mm s1 → l_out s1 = l_out s ++ outs → finals outs = 0%nat →
  idle mm mm s s1 →
  (∀ s2 outs, typed vs mm s2 → l_out s2 = l_out s ++ outs → finals outs = 0%nat → idle mm mm s s2 →
     wp k s2 (post login mm s)) →
  wp (_ ← send_raw_line b; k) s1 (post login mm s).
Proof.
  intros Ht Ho Hf Hi Hk. apply wp_bind. eapply wp_raw_line; [exact Ht|]. intros c Ht'.
  apply (Hk _ (outs ++ [send_raw c])); [exact Ht'| | |].
  - cbn. by rewrite Ho, app_assoc.
  - by rewrite finals_app, Hf.
  - destruct Hi. by split.
Qed.

Lemma post_last mm s vs s1 outs code msg :
  typed vs mm s1 → l_out s1 = l_out s ++ outs → finals outs = 0%nat → idle mm mm s s1 → 200 ≤ code →
  wp (reply code msg) s1 (post False mm s).
Proof.
  intros Ht Ho Hf Hi Hc. eapply wp_reply; [exact Ht|lia|]. intros Ht'. exists vs, mm. split; [done|].
  split.
  - exists (outs ++ [send_reply code msg]). cbn. rewrite Ho, app_assoc. split; [done|]. left. split_and!; [|done|by destruct Hi as [? ? ? [? ?] ? ?]].
    rewrite finals_app, Hf. unfold finals. cbn. by rewrite decide_True by (by apply Z.leb_le).
  - intros Ha. destruct Hi. split; [by split|congruence].
Qed.

Ltac raw_start Ht :=
  match goal with |- wp _ ?s _ =>
    eapply (post_raw _ _ _ _ s []); [exact Ht|by rewrite app_nil_r|done|apply idle_refl|]
  end.

Lemma spec_feat p : spec no_login always (cmd_feat p).
Proof.
  intros vs mm s Ht _. unfold cmd_feat. raw_start Ht. intros s1 o1 T1 O1 F1 I1.
  eapply post_raw; [done..|]. intros s2 o2 T2 O2 F2 I2.
  eapply post_raw; [done..|]. intros s3 o3 T3 O3 F3 I3.
  eapply post_raw; [done..|]. intros s4 o4 T4 O4 F4 I4.
  eapply post_raw; [done..|]. intros s5 o5 T5 O5 F5 I5.
  by eapply post_last.
Qed.

(** STAT prints the user name, which must have been written. *)
Definition stat_safe (mm : mem) (s : lst IO OS) : Prop :=
  m_user mm ≠ None ∧ Z.of_nat (length (sv_pollfds (l_srv s))) < 10 ^ 9.

Lemma fmt_d_length k z : (1 ≤ k)%nat → - 10 ^ Z.of_nat k < z < 10 ^ Z.of_nat k → (length (fmt_d z) ≤ S k)%nat.
Proof.
  intros Hk Hz. unfold fmt_d. destruct (Z.ltb_spec z 0).
  - cbn [length]. pose proof (fmt_u_length k (- z) Hk). lia.
  - pose proof (fmt_u_length k z Hk). lia.
Qed.

Lemma spec_stat p : spec no_login stat_safe (cmd_stat p).
Proof.
  intros vs mm s Ht [Hu Hn]. destruct (m_user mm) as [u|] eqn:Eu; [|done].
  pose proof (va_user _ (ty_values _ _ _ Ht) u Eu) as Hul. unfold MAX_USERNAME_LEN in Hul.
  unfold cmd_stat. do 4 hstep. raw_start Ht. intros s1 o1 T1 O1 F1 I1.
  apply wp_bind. eapply wp_get_user; [exact T1|exact Eu|].
  apply wp_bind, wp_sprintf; [rewrite length_app; cbn; lia|].
  eapply post_raw; [done..|]. intros s2 o2 T2 O2 F2 I2. do 2 hstep.
  apply wp_bind, wp_sprintf; [destruct (m_auth mm); cbn; lia|].
  eapply post_raw; [done..|]. intros s3 o3 T3 O3 F3 I3. do 2 hstep.
  apply wp_bind, wp_sprintf.
  { rewrite length_app. rewrite (id_srv _ _ _ _ I3).
    pose proof (fmt_d_length 9 (Z.of_nat (length (sv_pollfds (l_srv s))) - 1)). cbn [length B String.list_ascii_of_string] in *. lia. }
  eapply post_raw; [done..|]. intros s4 o4 T4 O4 F4 I4. by eapply post_last.
Qed.

(** ** Login *)

Lemma spec_acct p : spec (λ _, True) always (cmd_acct p).
Proof.
  intros vs mm s Ht _. unfold cmd_acct. do 4 hstep. destruct (m_auth mm) eqn:Ha.
  - eapply post_reply_idle; [done|done|done|lia|apply idle_refl|done].
  - apply wp_bind. eapply wp_set_auth; [exact Ht|]. intros h T1.
    eapply post_reply_idle; [exact T1|done|done|lia| |done]. split; try done. by destruct mm.
Qed.

Definition pass_safe (mm : mem) (s : lst IO OS) : Prop :=
  m_auth mm = false → l_lastcmd s = B "USER" → m_user mm ≠ None.

Lemma spec_pass p : spec (λ s, l_lastcmd s = B "USER") pass_safe (cmd_pass p).
Proof.
  intros vs mm s Ht Hc. unfold cmd_pass. do 6 hstep. destruct (m_auth mm) eqn:Ha.
  { eapply post_reply_idle; [done|done|done|lia|apply idle_refl|congruence]. }
  do 2 hstep. destruct (streq (l_lastcmd s) (B "USER")) eqn:El; btests; cbn [negb].
  2: { eapply post_reply_idle; [done|done|done|lia|apply idle_refl|congruence]. }
  specialize (Hc Ha El). destruct (m_user mm) as [u|] eqn:Eu; [|done].
  pose proof (va_user _ (ty_values _ _ _ Ht) u Eu) as Hul. unfold MAX_USERNAME_LEN in Hul.
  apply wp_bind. eapply wp_set_auth; [exact Ht|]. intros h T1.
  apply wp_bind. eapply wp_get_user; [exact T1|exact Eu|].
  apply wp_bind, wp_sprintf.
  { unfold FTP_230. rewrite !length_app. cbn. lia. }
  eapply post_reply_idle; [exact T1|done|done|lia| |done]. split; try done. by destruct mm.
Qed.

(** The name of USER is copied into 32 bytes. *)
Definition user_safe (p : bytes) (mm : mem) (s : lst IO OS) : Prop :=
  m_auth mm = false → (length p < MAX_USERNAME_LEN)%nat.

Lemma spec_user p : spec no_login (user_safe p) (cmd_user p).
Proof.
  intros vs mm s Ht Hc. unfold cmd_user. do 6 hstep. destruct (m_auth mm) eqn:Ha.
  { eapply post_reply_idle; [done|done|done|lia|apply idle_refl|congruence]. }
  specialize (Hc Ha). destruct p as [|c p].
  { eapply post_reply_idle; [done|done|done|lia|apply idle_refl|congruence]. }
  cbn [with_param]. apply wp_bind. eapply wp_set_user; [exact Ht|done|]. intros h T1.
  apply wp_bind. eapply wp_get_user; [exact T1|done|].
  apply wp_bind, wp_sprintf.
  { unfold FTP_331, MAX_USERNAME_LEN in *. rewrite !length_app. cbn [length B String.list_ascii_of_string] in *. lia. }
  eapply post_reply_idle; [exact T1|done|done|lia| |cbn; congruence]. split; try done. by destruct mm.
Qed.

(** ** Directories and names *)

Definition cwd_fits (mm : mem) (s : lst IO OS) : Prop := (length (path_text (m_cwd mm)) < MAX_PATH)%nat.

Lemma spec_pwd p : spec no_login cwd_fits (cmd_pwd p).
Proof.
  intros vs mm s Ht Hc. unfold cmd_pwd. repeat hstep.
  eapply wp_lift; [by apply gwd_fits|]. apply wp_bind, wp_sprintf; [|repeat hstep].
  unfold FTP_257, cwd_fits in *. rewrite !length_app. cbn [length] in *. lia.
Qed.

(** CWD: the names of the new directory fit their buffers. *)
Definition cwd_safe (p : bytes) (mm : mem) (s : lst IO OS) : Prop :=
  fits mm p ∧
  ∀ path, get_absolute_path (path_text (m_cwd mm)) p = Some path → is_Some (set_working_directory path).

Lemma spec_cwd p : spec no_login (cwd_safe p) (cmd_cwd p).
Proof.
  intros vs mm s Ht [Hf Hs]. unfold cmd_cwd. repeat hstep.
  destruct (Hs _ ltac:(eassumption)) as [d Hd]. eapply wp_lift; [exact Hd|]. repeat hstep.
Qed.

Lemma spec_mkd p : spec no_login (fits_param p) (cmd_mkd p).
Proof.
  intros vs mm s Ht Hc. unfold cmd_mkd. repeat hstep.
  match goal with E : get_absolute_path _ _ = Some _ |- _ => apply gap_length in E end.
  apply wp_sprintf; [|repeat hstep]. unfold FTP_257. rewrite !length_app. cbn [length] in *. lia.
Qed.

Lemma spec_rnfr p : spec no_login (fits_param p) (cmd_rnfr p).
Proof.
  intros vs mm s Ht Hc. unfold cmd_rnfr. repeat hstep.
  match goal with E : get_absolute_path _ _ = Some _ |- _ => apply gap_length in E end.
  eapply wp_set_rnfr; [done|done|]. intros h T1. repeat hstep.
Qed.

(** RNTO uses the name RNFR stored, which a failed RNFR did not. *)
Definition rnto_safe (p : bytes) (mm : mem) (s : lst IO OS) : Prop :=
  fits mm p ∧ (l_lastcmd s = B "RNFR" → m_rnfr mm ≠ None).

Lemma spec_rnto p : spec no_login (rnto_safe p) (cmd_rnto p).
Proof.
  intros vs mm s Ht [Hf Hr]. unfold cmd_rnto. repeat hstep.
  match goal with E : negb (streq _ _) = false |- _ => apply negb_false_iff, streq_true, Hr in E end.
  destruct (m_rnfr mm) as [r|] eqn:Er; [|done].
  eapply wp_get_rnfr; [done|done|]. repeat hstep.
Qed.

(** The file the parameter names has [P st], when it is there. *)
Definition stat_gives (p : bytes) (P : lst IO OS → opftp_stat → Prop) (mm : mem) (s : lst IO OS) : Prop :=
  fits mm p ∧ ∀ path st x, get_absolute_path (path_text (m_cwd mm)) p = Some path →
    ftpio_stat path (l_io s) = (Some st, x) → P s st.

Lemma spec_with_stat p (P : lst IO OS → opftp_stat → Prop) k :
  (∀ st vs mm s s1, typed vs mm s1 → m_auth mm = true → quiet s s1 → l_os s1 = l_os s → P s st → wp (k st) s1 (post False mm s)) →
  spec no_login (stat_gives p P) (with_stat p k).
Proof.
  intros Hk vs mm s Ht [Hc HP]. unfold with_stat. hstep. hstep. hstep. hstep. hstep.
  eapply wp_lift; [apply store_fits; unfold fits in Hc; lia|]. hstep. hstep. hstep.
  eapply (wp_io _ _ _ Ht). intros st x Est T1. destruct st as [st|]; [|clear Ht; hstep]. eapply Hk; [done|done|done|done|by eapply HP].
Qed.

Lemma spec_size p : spec no_login (stat_gives p (λ _ _, True)) (cmd_size p).
Proof.
  apply spec_with_stat. intros st vs mm s s1 Ht Ha Ho _ _. apply wp_bind, wp_sprintf.
  { pose proof (Listing.fmt_u_u64 (u64 (st_size st))) as Hl. unfold u64 in *.
    pose proof (Z.mod_pos_bound (st_size st) (2 ^ 64)). lia. }
  by eapply post_reply.
Qed.

(** [localtime] answers for a time, and the texts made of it fit. *)
Definition time_ok (x : OS) (t : Z) : Prop :=
  ∃ tmv, sys_localtime_r x t = Some tmv ∧ (length (fmt_tm14 tmv) < 32)%nat ∧ (length (list_time tmv) < 15)%nat.
Definition mtime_ok (s : lst IO OS) (st : opftp_stat) : Prop := time_ok (l_os s) (st_mtime st).

Lemma spec_mdtm p : spec no_login (stat_gives p mtime_ok) (cmd_mdtm p).
Proof.
  apply spec_with_stat. intros st vs mm s s1 Ht Ha Ho Eos (t & Et & Hl & _). hstep. hstep. rewrite Eos, Et.
  apply wp_bind, wp_sprintf; [done|]. by eapply post_reply.
Qed.

Definition chmod_safe (p : bytes) (mm : mem) (s : lst IO OS) : Prop :=
  match strtok SPACE p with _ :: q :: _ => fits mm q | _ => True end.

Lemma spec_chmod p : spec no_login (chmod_safe p) (cmd_chmod p).
Proof.
  intros vs mm s Ht Hc. unfold cmd_chmod. hstep. hstep. hstep. hstep. unfold chmod_safe in Hc.
  destruct (strtok SPACE p) as [|m [|q l]]; [hstep|hstep|]. hstep.
  eapply wp_lift; [apply store_fits; unfold fits in Hc; lia|]. repeat hstep.
Qed.

Lemma spec_stop p : spec no_login always (cmd_stop p).
Proof.
  intros vs mm s Ht Hc. unfold cmd_stop. hstep. hstep. unfold server_stop, mod_srv, emit. hstep.
  eapply (wp_frame _ _ _ Ht); [done..|apply (ty_sc _ _ _ Ht)|]. intros T1.
  eapply (wp_frame _ _ _ T1); [done..|apply (ty_sc _ _ _ T1)|]. intros T2.
  eapply wp_reply; [exact T2|done|]. intros T3. exists vs, mm. split; [done|]. split; [|congruence].
  exists [server_stop_core; send_reply 421 FTP_421]. cbn. rewrite <-app_assoc. split; [done|]. by left.
Qed.

(** REST prints the offset into 32 bytes. *)
Definition rest_safe (p : bytes) (mm : mem) (s : lst IO OS) : Prop :=
  match p with [] => True | _ => atoll p < 10 ^ 16 end.

Lemma spec_rest p : spec no_login (rest_safe p) (cmd_rest p).
Proof.
  intros vs mm s Ht Hc. unfold cmd_rest.
  set (v := match p with [] => 0 | _ => atoll p end).
  assert (v < 10 ^ 16) as Hv by (unfold v, rest_safe in *; by destruct p).
  hstep. hstep. hstep. destruct (Z.leb_spec 0 v); repeat hstep.
  apply wp_sprintf; [|repeat hstep]. unfold FTP_350. rewrite !length_app.
  change (m_rest (mm <| m_rest := u64 v |>)) with (u64 v). unfold u64. rewrite Z.mod_small by lia.
  pose proof (fmt_u_length 16 v). cbn [length B String.list_ascii_of_string]. lia.
Qed.

(** ** The data channel *)

(** A step that leaves the session [opened] and then replies. *)
Lemma post_opened_reply mm s vs1 mm1 s1 s2 code msg :
  m_auth mm = true → opened vs1 mm1 s1 s2 → m_fd mm1 = m_fd mm → quiet s s1 → 200 ≤ code →
  wp (client_send_code code msg) s2 (post False mm s).
Proof.
  intros Ha [(x & y & Ht) ([Ho He] & _)] Hf [Ho1 He1] Hc. eapply post_reply; [exact Ht|done| |done|done].
  split; congruence.
Qed.

Lemma spec_abor p : spec no_login always (cmd_abor p).
Proof.
  intros vs mm s Ht Hc. unfold cmd_abor. hstep. hstep. eapply wp_data_end; [exact Ht|].
  intros s' Ho. by eapply post_opened_reply.
Qed.

(** The reply to a data connection that was made, or that failed. *)
Lemma post_started mm s vs1 mm1 s0 s1 s2 cb ev :
  m_auth mm = true → m_fd mm = -1 → opened vs1 mm1 s0 s1 → quiet s s0 → typed_as s1 s2 → l_out s2 = l_out s1 →
  l_cb s2 = Some cb → l_exec s2 = Some (ex_start ev) →
  wp (client_send_code 150 FTP_150) s2 (post False mm s).
Proof.
  intros Ha Hf [(x & y & Ht0) ([Ho1 _] & _)] [Ho0 _] (F1 & F2 & F3 & F4) Ho Hcb Hex.
  assert (typed (vs1 <| v_port := x |>) (mm1 <| m_port := y |>) s2) as Ht by by apply (typed_frame _ _ _ _ Ht0). eapply wp_reply_150; [exact Ht|]. intros sc T1.
  eexists _, _. split; [exact T1|]. split; [|congruence].
  exists [send_reply 150 FTP_150]. cbn. rewrite Ho, Ho1, Ho0. split; [done|]. right.
  split_and!; [done|done|by rewrite Hcb|by eexists].
Qed.

Lemma post_close vs mm s mm1 s1 code msg (close : option loc → M ()) :
  m_auth mm = true → typed vs mm1 s1 → m_fd mm = -1 → quiet s s1 → 200 ≤ code →
  (∀ fd, close fd = close_fd fd ∨ close fd = closedir_fd fd) →
  wp (_ ← close (Some (v_fd vs)); client_send_code code msg) s1 (post False mm s).
Proof.
  intros Ha Ht Hf Ho Hc Hcl. destruct (Hcl (Some (v_fd vs))) as [-> | ->];
    unfold close_fd, closedir_fd; repeat hstep; by eapply post_reply.
Qed.

(** The data connection matters on a session that is logged in and has no
    transfer. *)
Definition list_safe (mm : mem) (s : lst IO OS) : Prop :=
  cwd_fits mm s ∧ (m_auth mm = true → m_fd mm = -1 → data_safe mm s).
Definition file_safe (p : bytes) (mm : mem) (s : lst IO OS) : Prop :=
  fits mm p ∧ (m_auth mm = true → m_fd mm = -1 → data_safe mm s).

Lemma spec_listing cb : spec no_login list_safe (start_listing cb).
Proof.
  intros vs mm s Ht [Hc Hd]. unfold start_listing. do 7 hstep.
  destruct (Z.eqb_spec (m_fd mm) (-1)) as [Hfd|]; cbn [negb]; [|hstep].
  specialize (Hd ltac:(done) Hfd). hstep. hstep. hstep. eapply wp_lift; [by apply gwd_fits|]. do 3 hstep; [|hstep]. do 3 hstep.
  eapply wp_data_start; [exact Ht|exact Hd| |intros x1 x2 Ho Hty Hou Hcb Hex; eapply post_started; done].
  intros s2 [(px & py & T2) ([Ho He] & _)].
  refine (post_close _ mm s _ s2 425 FTP_425 closedir_fd _ T2 _ _ _ _); [done|done| |done|by right].
  by split; rewrite ?Ho, ?He.
Qed.

Lemma wp_start_file vs mm s mm1 s1 cb ev :
  m_auth mm = true → typed vs mm1 s1 → m_fd mm = -1 → quiet s s1 → data_safe mm1 s1 →
  wp (start_file (Some (v_fd vs)) (Some (v_rest vs)) cb ev) s1 (post False mm s).
Proof.
  intros Ha Ht Hf Hout Hd. unfold start_file. do 9 hstep.
  eapply wp_data_start; [exact Ht|exact Hd| |intros x1 x2 Ho Hty Hou Hcb Hex; eapply post_started; done].
  intros s2 [(px & py & T2) ([Ho He] & _)].
  refine (post_close _ mm s _ s2 425 FTP_425 close_fd _ T2 _ _ _ _); [done|done| |done|by left].
  destruct Hout as [? ?]. split; [by rewrite Ho|by rewrite He].
Qed.

Lemma spec_retr p : spec no_login (file_safe p) (cmd_retr p).
Proof.
  intros vs mm s Ht [Hc Hd]. unfold cmd_retr. do 9 hstep.
  destruct (Z.eqb_spec (m_fd mm) (-1)) as [Hfd|]; cbn [negb]; [|hstep]. specialize (Hd ltac:(done) Hfd). repeat hstep.
  by apply wp_start_file with (mm1 := mm <| m_fd := z |>).
Qed.

Lemma spec_stor name p : spec no_login (file_safe p) (cmd_stor name p).
Proof.
  intros vs mm s Ht [Hc Hd]. unfold cmd_stor. do 9 hstep.
  destruct (Z.eqb_spec (m_fd mm) (-1)) as [Hfd|]; cbn [negb]; [|hstep]. specialize (Hd ltac:(done) Hfd).
  do 13 hstep; [|hstep]. do 3 hstep.
  destruct (Z.land _ _ =? 0).
  - apply wp_ret. by apply wp_start_file with (mm1 := mm <| m_fd := z |>).
  - do 3 hstep. by apply wp_start_file with (mm1 := mm <| m_fd := z |>).
Qed.

(** ** PORT, PASV and SITE *)

Lemma spec_port p : spec no_login always (cmd_port p).
Proof.
  intros vs mm s Ht _. unfold cmd_port. hstep. case_match; [hstep|].
  do 2 hstep. case_match; [hstep|]. hstep. eapply wp_cvar_port; [exact Ht|]. hstep.
  pose proof (ty_cells _ _ _ Ht) as Hce. pose proof (ty_values _ _ _ Ht) as Hva.
  destruct (v_port vs) as [l|] eqn:El.
  - pose proof (ce_port _ _ _ Hce) as Hp. rewrite El in Hp. destruct (m_port mm) as [[ip q]|] eqn:Em; [|done].
    hstep. eapply wp_deref; [done|]. eapply (wp_assign _ _ _ Ht); [done|by apply celled_port_set| |].
    + destruct Hva. by split.
    + intros h T1. by eapply post_reply.
  - hstep. unfold wp at 1, alloc. set (s1 := s <| l_heap := _ |> <| l_next := _ |>).
    assert (l_heap s !! l_next s = None) as Hfr.
    { apply eq_None_not_Some. intros Hl%(ty_next _ _ _ Ht). lia. }
    assert (typed (vs <| v_port := Some (l_next s) |>)
              (mm <| m_port := Some (port_ip (parse_port_tuple p), port_port (parse_port_tuple p)) |>)
              (s1 <| l_cvar := pttree_insert (l_cvar s1) (B "port_addr") (Some (l_next s)) |>)) as T1.
    { destruct Ht as [Htr _ _ Hn Hs]. split; cbn; [by apply tree_port|by apply celled_port_new| | |done].
      - destruct Hva. by split.
      - intros l'. rewrite lookup_insert_is_Some'. intros [<-|Hl%Hn]; lia. }
    unfold client_set_cvar. unfold wp at 1, modify. by eapply post_reply.
Qed.

Lemma fmt_u_byte z : 0 ≤ z < 256 → (length (fmt_u z) ≤ 3)%nat.
Proof. intros. apply fmt_u_length; lia. Qed.

(** A socket name as [env_sockname] promises it. *)
Definition name_ok (a : sockaddr) : Prop :=
  match a with
  | SA_in ip port => length ip = 4%nat ∧ 0 ≤ port < 65536
  | SA_in6 ip port => length ip = 16%nat ∧ 0 ≤ port < 65536
  | SA_unspec => True
  end.

Lemma commas_length l :
  Forall (λ z, 0 ≤ z < 256) l →
  (length (foldr (λ z r, match r with [] => fmt_u z | _ => fmt_u z ++ B "," ++ r end) [] l) ≤ 4 * length l)%nat.
Proof.
  induction 1 as [|z l Hz _ IH]; [done|]. cbn [foldr length]. pose proof (fmt_u_byte z Hz).
  destruct (foldr _ _ l); [lia|]. rewrite !length_app. cbn [length B String.list_ascii_of_string] in *. lia.
Qed.

(** The text of a 227 reply fits its 64 bytes. *)
Lemma pasv_text_fits a : name_ok a → (length (FTP_227 (pasv_numbers a)) < 64)%nat.
Proof.
  intros Ha. assert (Forall (λ z, 0 ≤ z < 256) (pasv_numbers a) ∧ length (pasv_numbers a) = 6%nat) as [Hf Hl].
  { assert (∀ port, 0 ≤ port < 65536 → 0 ≤ Z.shiftr port 8 < 256 ∧ 0 ≤ Z.land port 255 < 256) as HP.
    { intros port Hp. change 255 with (Z.ones 8). rewrite Z.shiftr_div_pow2, Z.land_ones by lia.
      change (2 ^ 8) with 256. split; [|apply Z.mod_pos_bound; lia].
      split; [apply Z.div_pos; lia|apply Z.div_lt_upper_bound; lia]. }
    destruct a as [|ip port|ip port]; cbn [pasv_numbers].
    - split; [by repeat (constructor; [first [done|lia]|])|done].
    - destruct Ha as [Hip [? ?]%HP]. rewrite length_app, length_fmap, Hip. split; [|done].
      apply Forall_app. split; [|by repeat (constructor; [first [done|lia]|])]. apply Forall_fmap, Forall_true. apply cv_range.
    - destruct Ha as [_ [? ?]%HP]. split; [|done]. by repeat (constructor; [first [done|lia]|]). }
  apply commas_length in Hf. rewrite Hl in Hf. unfold FTP_227. rewrite !length_app.
  set (n := length (foldr _ _ _)) in *. clearbody n. cbn. lia.
Qed.

Definition pasv_safe (mm : mem) (s : lst IO OS) : Prop := m_auth mm = true → own_v4 s.

Lemma spec_pasv p : spec no_login pasv_safe (cmd_pasv p).
Proof.
  intros vs mm s Ht Hown. unfold cmd_pasv. hstep. hstep. eapply wp_pasv_enter; [exact Ht|by apply Hown|].
  intros a s' Ho Ha. destruct a as [a|]; [|by eapply post_opened_reply].
  apply wp_bind, wp_sprintf; [|by eapply post_opened_reply].
  apply pasv_text_fits. destruct Ha as (fd & x & [Hn| ->]); [by eapply env_sockname|].
  destruct (sys_getsockname fd x).1 as [a|e] eqn:En; [|done]. apply env_sockname in En.
  destruct a as [|ip port|ip port]; cbn [v4_form]; [done|by destruct En|].
  destruct En as [Hip _]. destruct (opftp_is_v4mapped ip); cbn; [|done]. by rewrite length_drop, Hip.
Qed.

(** SITE runs CHMOD or STOP. *)
Lemma site_call name h : no_nul name → command_call site_command name = Some h → h = B_chmod ∨ h = B_stop.
Proof.
  intros Hn. unfold site_command. rewrite command_call_registered; [|by repeat constructor|done| |done].
  - intros Hh%elem_of_list_to_map_2. unfold site_list in Hh. rewrite !elem_of_cons, elem_of_nil in Hh. naive_solver.
  - apply NoDup_ListNoDup. by repeat constructor; cbn; intuition discriminate.
Qed.

Lemma str_toupper_no_nul cap p n q : str_toupper cap p n = Some q → no_nul q.
Proof. unfold str_toupper. case_match; [|done]. intros [= <-]. apply cstr_of_no_nul. Qed.

Lemma parse_no_nul cap p np : parse_command_string cap p = Some np → no_nul np.1.
Proof.
  unfold parse_command_string.
  intros (n & Hn & (q & Hq & [= <-])%bind_Some)%bind_Some. by eapply str_toupper_no_nul.
Qed.

(** What each handler but SITE needs in order not to fault. *)
Definition simple_safe (h : base_cmd) (p : bytes) : mem → lst IO OS → Prop :=
  match h with
  | B_dele | B_mkd | B_rmd | B_rnfr => fits_param p
  | B_retr | B_stor => file_safe p
  | B_size => stat_gives p (λ _ _, True)
  | B_mdtm => stat_gives p mtime_ok
  | B_pasv => pasv_safe
  | B_cwd => cwd_safe p
  | B_rnto => rnto_safe p
  | B_list | B_nlst => list_safe
  | B_pwd => cwd_fits
  | B_pass => pass_safe
  | B_user => user_safe p
  | B_stat => stat_safe
  | B_rest => rest_safe p
  | B_chmod => chmod_safe p
  | _ => always
  end.

(** SITE: the name fits its 32 bytes, and its command is safe. *)
Definition cmd_safe (h : base_cmd) (p : bytes) (mm : mem) (s : lst IO OS) : Prop :=
  match h with
  | B_site =>
     p = [] ∨ ∃ np, parse_command_string (length p) p = Some np ∧
                match command_call site_command np.1 with
                | Some h' => simple_safe h' np.2 mm s
                | None => True
                end
  | _ => simple_safe h p mm s
  end.

(** The commands that log a session in. *)
Definition logs_in (h : base_cmd) (s : lst IO OS) : Prop :=
  match h with B_acct => True | B_pass => l_lastcmd s = B "USER" | _ => False end.

Lemma spec_simple name h p : spec (logs_in h) (simple_safe h p) (run_simple name h p).
Proof.
  destruct h; cbn [run_simple];
    first [ apply spec_abor | apply spec_acct | apply spec_allo | apply spec_cdup | apply spec_cwd
          | apply spec_dele | apply spec_mkd | apply spec_mode | apply spec_listing
          | apply spec_pass | apply spec_pasv | apply spec_port | apply spec_pwd | apply spec_rest
          | apply spec_retr | apply spec_rmd | apply spec_rnfr | apply spec_rnto | apply spec_stat
          | apply spec_stor | apply spec_stru | apply spec_type | apply spec_user | apply spec_feat
          | apply spec_size | apply spec_mdtm | apply spec_chmod | apply spec_stop
          | by apply reply_anyone ].
Qed.

Lemma spec_run name h p : spec (logs_in h) (cmd_safe h p) (run_cmd name h p).
Proof.
  destruct h; try exact (spec_simple name _ p). intros vs mm s Ht Hc. cbn [run_cmd logs_in].
  destruct Hc as [-> |(np & Hnp & Hc)]; [by apply (reply_anyone 501 FTP_501 ltac:(done) vs)|].
  unfold cmd_site. destruct p as [|c p]; [by apply (reply_anyone 501 FTP_501 ltac:(done) vs)|].
  cbn [with_param]. apply wp_bind. eapply wp_lift; [exact Hnp|].
  destruct (command_call site_command np.1) as [h|] eqn:Eh; [|by apply (reply_anyone 502 FTP_502 ltac:(done) vs)].
  apply site_call in Eh; [|by eapply parse_no_nul].
  pose proof (spec_simple np.1 h np.2 vs mm s Ht Hc) as Hs. by destruct Eh as [-> | ->].
Qed.

(** ** Data callbacks and the executor *)

(** The call that closes what a data callback works on. *)
Definition closes (cb : data_callback) (fd : Z) : IO → IO :=
  match cb with data_list | data_nlst => ftpio_closedir fd | data_retr | data_stor => ftpio_close fd end.

(** The calls of a data callback on the filesystem before it closes. *)
Definition round_io (cb : data_callback) (fd : Z) (x y : IO) : Prop :=
  match cb with
  | data_list | data_nlst => y = (ftpio_readdir fd x).2 ∨ ∃ path, y = (ftpio_stat path (ftpio_readdir fd x).2).2
  | data_retr => y = (ftpio_read fd BUFFER_DATA x).2
  | data_stor => y = x ∨ ∃ b, y = (ftpio_write fd b x).2
  end.

(** One call of a data callback: not done, and nothing said or closed; or
    done, with the file or directory closed, last of all, its descriptor
    variable cleared and one final reply. *)
Definition cb_post (cb : data_callback) (mm : mem) (s : lst IO OS) (done : bool) (s' : lst IO OS) : Prop :=
  ∃ vs' mm', typed vs' mm' s' ∧ mm' = mm <| m_fd := m_fd mm' |> ∧ l_data s' = l_data s ∧
    if done then m_fd mm' = -1 ∧ (∃ y, round_io cb (m_fd mm) (l_io s) y ∧ l_io s' = closes cb (m_fd mm) y) ∧
                 ∃ c, l_out s' = l_out s ++ [c] ∧ is_final c = true
    else m_fd mm' = m_fd mm ∧ round_io cb (m_fd mm) (l_io s) (l_io s') ∧ l_out s' = l_out s.

Lemma cb_more cb vs mm s s1 :
  typed vs mm s1 → round_io cb (m_fd mm) (l_io s) (l_io s1) → l_out s1 = l_out s → l_data s1 = l_data s → cb_post cb mm s false s1.
Proof. intros. exists vs, mm. split_and!; try done. by destruct mm. Qed.

Lemma wp_close (f : Z → IO → IO) vs mm s1 (Q : () → lst IO OS → Prop) :
  typed vs mm s1 →
  (∀ h, let s2 := s1 <| l_io := f (m_fd mm) (l_io s1) |> <| l_heap := h |> in typed vs (mm <| m_fd := -1 |>) s2 → Q () s2) →
  wp (n ← get_int (Some (v_fd vs)); _ ← io_ (f n); set_int (Some (v_fd vs)) (-1)) s1 Q.
Proof.
  intros Ht HQ. apply wp_bind. eapply wp_get_fd; [exact Ht|]. apply wp_bind.
  eapply (wp_frame _ _ _ Ht); [done..|apply (ty_sc _ _ _ Ht)|]. intros T1. eapply (wp_set_fd _ _ _ T1). intros h T2. by apply HQ.
Qed.

Lemma wp_finish cb (f : Z → IO → IO) vs mm s s1 code msg :
  closes cb (m_fd mm) = f (m_fd mm) → typed vs mm s1 → round_io cb (m_fd mm) (l_io s) (l_io s1) →
  l_out s1 = l_out s → l_data s1 = l_data s → 200 ≤ code →
  wp (_ ← (n ← get_int (Some (v_fd vs)); _ ← io_ (f n); set_int (Some (v_fd vs)) (-1));
      _ ← client_send_code code msg; mret true) s1 (cb_post cb mm s).
Proof.
  intros Ef Ht Hio Ho Hd Hc. apply wp_bind. eapply wp_close; [exact Ht|]. intros h s2 T2. apply wp_bind.
  eapply wp_reply; [exact T2|lia|]. intros T3. apply wp_ret. eexists _, _. split; [exact T3|]. split_and!; try done.
  - exists (l_io s1). split; [done|]. by rewrite Ef.
  - eexists. cbn. rewrite Ho. split; [done|]. by apply Z.leb_le.
Qed.

Lemma cb_finish_dir cb vs mm s s1 code msg : cb = data_list ∨ cb = data_nlst →
  typed vs mm s1 → round_io cb (m_fd mm) (l_io s) (l_io s1) → l_out s1 = l_out s → l_data s1 = l_data s → 200 ≤ code →
  wp (finish_dir (Some (v_fd vs)) code msg) s1 (cb_post cb mm s).
Proof. intros Hcb. apply (wp_finish cb ftpio_closedir). by destruct Hcb as [-> | ->]. Qed.
Lemma cb_finish_file cb vs mm s s1 code msg : cb = data_retr ∨ cb = data_stor →
  typed vs mm s1 → round_io cb (m_fd mm) (l_io s) (l_io s1) → l_out s1 = l_out s → l_data s1 = l_data s → 200 ≤ code →
  wp (finish_file (Some (v_fd vs)) code msg) s1 (cb_post cb mm s).
Proof. intros Hcb. apply (wp_finish cb ftpio_close). by destruct Hcb as [-> | ->]. Qed.

(** A name of the directory fits beside the working directory, and its line
    fits the 64 KB buffer; for LIST, [localtime] answers for its file. *)
Definition entries_fit (cb : data_callback) (mm : mem) (s : lst IO OS) : Prop :=
  ∀ name x, ftpio_readdir (m_fd mm) (l_io s) = (Some (Some name), x) →
    fits mm name ∧ (length name < 1024)%nat ∧
    (cb = data_list → ∀ path st y, get_absolute_path (path_text (m_cwd mm)) name = Some path →
       ftpio_stat path x = (Some st, y) → time_ok (l_os s) (st_mtime st)).

Lemma wp_send_whole vs mm s b (Q : bool → lst IO OS → Prop) :
  typed vs mm s → (∀ ok x, typed vs mm (s <| l_os := x |>) → Q ok (s <| l_os := x |>)) →
  wp (send_whole b) s Q.
Proof.
  intros Ht HQ. unfold send_whole. hstep. hstep. hstep.
  eapply (wp_os _ _ _ Ht). intros a x _ T1. apply wp_ret. by apply HQ.
Qed.

Lemma wp_data_entry cb vs mm s (line : opftp_stat → bytes → M bytes) : cb = data_list ∨ cb = data_nlst →
  typed vs mm s → entries_fit cb mm s →
  (∀ st name s1 Q, typed vs mm s1 → (length name < 1024)%nat → l_os s1 = l_os s →
     (cb = data_list → time_ok (l_os s) (st_mtime st)) → (∀ t, Q t s1) → wp (line st name) s1 Q) →
  wp (data_entry line) s (cb_post cb mm s).
Proof.
  intros Hcb Ht Hfit Hline. unfold data_entry. do 7 hstep.
  eapply (wp_io _ _ _ Ht). intros r x Hr T1.
  assert (round_io cb (m_fd mm) (l_io s) x) as R1 by (destruct Hcb as [-> | ->]; left; by rewrite Hr).
  destruct r as [[name|]|]; [|by apply cb_finish_dir|by apply cb_finish_dir].
  destruct (Hfit name x Hr) as (Hf & Hn & Htm). apply wp_bind. eapply (wp_param_path _ _ _ _ _ T1); [done|].
  intros path Hp. apply wp_bind. eapply (wp_io _ _ _ T1). intros st x1 Hst T2.
  assert (round_io cb (m_fd mm) (l_io s) x1) as R2 by (destruct Hcb as [-> | ->]; right; exists path; by rewrite Hr; cbn in *; rewrite Hst).
  destruct st as [st|]; [|by eapply wp_ret, cb_more]. apply wp_bind. eapply Hline; [exact T2|done|done|intros E; by eapply Htm|].
  intros t. apply wp_bind. eapply wp_send_whole; [exact T2|]. intros ok x2 T3.
  destruct ok; [by eapply wp_ret, cb_more|by apply cb_finish_dir].
Qed.

Lemma pad_left_length w b : length (pad_left w b) = Nat.max w (length b).
Proof. unfold pad_left. rewrite length_app, length_replicate. lia. Qed.
Lemma pad_right_length w b : length (pad_right w b) = Nat.max w (length b).
Proof. unfold pad_right. rewrite length_app, length_replicate. lia. Qed.

Lemma s32_range z : - 2 ^ 31 ≤ s32 z < 2 ^ 31.
Proof.
  unfold s32, swrap. change (32 - 1) with 31.
  pose proof (Z.mod_pos_bound (z + 2 ^ 31) (2 ^ 32)). lia.
Qed.

Lemma list_line_fits st t name :
  (length name < 1024)%nat → (length (list_time t) < 15)%nat → (length (list_line st t name) < BUFFER_DATA)%nat.
Proof.
  intros Hn Ht. unfold list_line. rewrite !length_app, !pad_left_length, !pad_right_length.
  assert (length (get_file_mode (st_mode st)) = 10%nat) as -> by done.
  pose proof (s32_range (st_uid st)). pose proof (s32_range (st_gid st)).
  pose proof (fmt_d_length 10 (s32 (st_uid st))). pose proof (fmt_d_length 10 (s32 (st_gid st))).
  pose proof (fmt_d_length 1 1). pose proof (Listing.fmt_u_u64 (u64 (st_size st))).
  pose proof (Z.mod_pos_bound (st_size st) (2 ^ 64)). unfold u64 in *.
  change (length (B " ")) with 1%nat. change (length CRLF) with 2%nat. change BUFFER_DATA with (64 * 1024)%nat. lia.
Qed.

Lemma cb_spec cb vs mm s :
  typed vs mm s → (cb = data_list ∨ cb = data_nlst → entries_fit cb mm s) →
  wp (run_callback cb) s (cb_post cb mm s).
Proof.
  intros Ht Hfit. destruct cb; cbn [run_callback].
  - apply (wp_data_entry data_list vs); [auto|done|auto|]. intros st name s1 Q T1 Hn Eos Htm HQ. hstep. hstep.
    destruct (Htm eq_refl) as (t & Et & _ & Hl). rewrite Eos, Et. apply wp_sprintf; [by apply list_line_fits|done].
  - apply (wp_data_entry data_nlst vs); [auto|done|auto|]. intros st name s1 Q T1 Hn _ _ HQ.
    apply wp_sprintf; [|done]. rewrite length_app. change (length CRLF) with 2%nat.
    change BUFFER_DATA with (64 * 1024)%nat. lia.
  - unfold data_retr_cb. do 5 hstep. eapply (wp_io _ _ _ Ht). intros r x Hr T1.
    assert (round_io data_retr (m_fd mm) (l_io s) x) as R1 by (unfold round_io; by rewrite Hr).
    destruct r as [[|c b]|]; [apply cb_finish_file; auto; lia| |apply cb_finish_file; auto; lia].
    apply wp_bind. eapply wp_send_whole; [exact T1|]. intros ok x2 T2.
    destruct ok; [by eapply wp_ret, cb_more|apply cb_finish_file; auto; lia].
  - unfold data_stor_cb. do 5 hstep. eapply (wp_os _ _ _ Ht). intros r x _ T1.
    assert (round_io data_stor (m_fd mm) (l_io s) (l_io s)) as R1 by by left.
    destruct r as [[|c b]|e]; [apply cb_finish_file; auto; lia| |apply cb_finish_file; auto; lia].
    apply wp_bind. eapply wp_get_fd; [exact T1|]. apply wp_bind. eapply (wp_io _ _ _ T1). intros w x2 Hw T2.
    assert (round_io data_stor (m_fd mm) (l_io s) x2) as R2 by (right; exists (c :: b); cbn in Hw |- *; by rewrite Hw).
    destruct w as [k|]; [|apply cb_finish_file; auto; lia]. case_match; [by eapply wp_ret, cb_more|apply cb_finish_file; auto; lia].
Qed.

(** A round of the executor: the variables stay typed, at most one final
    reply goes out, and only with the file or directory closed. *)
Definition exec_post (mm : mem) (s : lst IO OS) (s' : lst IO OS) : Prop :=
  ∃ vs' mm', typed vs' mm' s' ∧ mm' = mm <| m_fd := m_fd mm' |> ∧
    ((m_fd mm' = m_fd mm ∧ l_out s' = l_out s) ∨
     (m_fd mm' = -1 ∧ (∃ fd, l_exec s' = Some (ex_end fd)) ∧
      (∃ cb y, l_cb s = Some cb ∧ round_io cb (m_fd mm) (l_io s) y ∧ l_io s' = closes cb (m_fd mm) y) ∧ ∃ c, l_out s' = l_out s ++ [c] ∧ is_final c = true)).

Lemma exec_same vs mm s s1 : typed vs mm s1 → l_out s1 = l_out s → exec_post mm s s1.
Proof. intros Ht Ho. exists vs, mm. split_and!; [done|by destruct mm|by left]. Qed.

Lemma wp_executor_callback vs mm s s1 fd ev :
  typed vs mm s1 → l_out s1 = l_out s → l_io s1 = l_io s → l_cb s1 = l_cb s →
  (∀ cb, l_cb s1 = Some cb → cb = data_list ∨ cb = data_nlst → entries_fit cb mm s1) →
  wp (executor_callback run_callback fd ev) s1 (λ _, exec_post mm s).
Proof.
  intros Ht Ho Hio Hcb Hfit. unfold executor_callback. apply wp_bind. unfold wp at 1, gets. apply wp_bind.
  assert (∀ cb done s2, l_cb s1 = Some cb → cb_post cb mm s1 done s2 →
    wp (modify (λ s, s <| l_exec := Some (if (done : bool) then ex_end fd else ex_run fd ev) |>)) s2
      (λ _, exec_post mm s)) as HE.
  { intros cb done s2 Ecb (vs' & mm' & T2 & Em & _ & Hd). eapply (wp_frame _ _ _ T2); [done..|apply (ty_sc _ _ _ T2)|].
    intros T3. exists vs', mm'. split_and!; [done|done|]. rewrite Ho in Hd. destruct done.
    - right. destruct Hd as (Hf & (y & Hy & Hz) & Hc). split_and!; [done|by eexists| |done].
      exists cb, y. rewrite <-Hcb, <-Hio. done.
    - left. by destruct Hd as (? & _ & ?). }
  destruct (l_cb s1) as [cb|] eqn:Ecb.
  - eapply wp_mono; [|intros done s2 Hd; by apply (HE cb)].
    apply (cb_spec cb vs mm); [done|]. by apply Hfit.
  - apply wp_ret. eapply (wp_frame _ _ _ Ht); [done..|apply (ty_sc _ _ _ Ht)|].
    intros T3. by eapply exec_same.
Qed.

(** The condition of a round of the executor. *)
Definition exec_safe (mm : mem) (s : lst IO OS) : Prop :=
  ∀ cb fd ev, l_cb s = Some cb → cb = data_list ∨ cb = data_nlst → l_exec s = Some (ex_run fd ev) →
    entries_fit cb mm (s <| l_os := (sys_poll [(fd, ev)] 1000 (l_os s)).2 |>).

Lemma exec_spec vs mm s :
  typed vs mm s → exec_safe mm s → wp (executor_step run_callback) s (λ _, exec_post mm s).
Proof.
  intros Ht Hs. pose proof (ty_sc _ _ _ Ht) as Hsc. unfold executor_step. hstep. hstep.
  assert (∀ f s1, typed vs mm s1 → l_out s1 = l_out s →
    l_cvar (f s1) = l_cvar s1 → l_heap (f s1) = l_heap s1 → l_next (f s1) = l_next s1 → l_sc (f s1) ≠ None →
    l_out (f s1) = l_out s1 → wp (modify f) s1 (λ _, exec_post mm s)) as HM.
  { intros f s1 T1 Ho E1 E2 E3 E4 E5. eapply (wp_frame _ _ _ T1); [done..|]. intros T2.
    eapply exec_same; [exact T2|congruence]. }
  destruct (l_exec s) as [[ev|fd ev|fd ev|fd]|] eqn:Ee.
  - by apply HM.
  - destruct (l_sc s) as [sc|] eqn:Esc; [|done].
    destruct (sc_data_go sc || sc_cancel sc); [apply HM; try done; cbn; by rewrite Esc|by eapply wp_ret, exec_same].
  - apply wp_bind. eapply (wp_os _ _ _ Ht). intros r x Er T1.
    assert (∀ cb, l_cb s = Some cb → cb = data_list ∨ cb = data_nlst → entries_fit cb mm (s <| l_os := x |>)) as Hfit.
    { intros cb Ecb Hcb. pose proof (Hs cb fd ev Ecb Hcb Ee) as Hf. by rewrite Er in Hf. }
    destruct r as [revs|e]; [|by apply HM].
    destruct (_ =? 0).
    { hstep. hstep. destruct (cancelled _); [by apply HM|by eapply wp_ret, exec_same]. }
    destruct (has _ _).
    { hstep. hstep. destruct (cancelled _); [by apply HM|by eapply wp_executor_callback]. }
    destruct (negb _); [by eapply wp_ret, exec_same|by eapply wp_executor_callback].
  - apply wp_bind.
    assert (∀ s1, typed vs mm s1 → l_out s1 = l_out s → l_sc s1 = l_sc s → wp (
      _ ← modify (λ s, s <| l_cb := None |>); _ ← server_pollfds_remove fd; _ ← server_client_remove fd;
      modify (λ s, s <| l_exec := None |> <| l_sc := (λ sc, sc <| sc_job_active := false |>) <$> l_sc s |>)) s1
      (λ _, exec_post mm s)) as HE.
    { intros s1 T1 Ho1 Hs1. unfold server_pollfds_remove, server_client_remove, mod_srv.
      apply wp_bind. eapply (wp_frame _ _ _ T1); [done..|by rewrite <-Hs1 in Hsc|]. clear T1. intros T1.
      apply wp_bind. eapply (wp_frame _ _ _ T1); [done..|by rewrite <-Hs1 in Hsc|]. clear T1. intros T1.
      apply wp_bind. eapply (wp_frame _ _ _ T1); [done..|by rewrite <-Hs1 in Hsc|]. clear T1. intros T1.
      apply HM; try done. cbn. rewrite Hs1. by destruct (l_sc s). }
    destruct (l_data s =? -1); [by apply wp_ret, HE|].
    apply wp_bind. unfold close_socket. eapply (wp_os_ _ _ _ Ht). intros x T1.
    eapply (wp_frame _ _ _ T1); [done..|]. intros T2. by apply HE.
  - by eapply wp_ret, exec_same.
Qed.

End Handlers.
End Typed.

End LegacySafe.
