(* ===== verification/LegacySession.v ===== *)
(** * Legacy sessions: the claims

    A session starts with [shim_on_connect] and the connect callback of
    feat/base; from then on commands arrive through the dispatch adapter and
    the executor of the data callback takes its rounds. A run is a sequence of
    whole commands and whole rounds, in any order. The code does not keep them
    apart: a round holds the client's mutex around its data callback, but
    [legacy_dispatch_adapter] does not take it around a command, so on the
    machine a command can overlap a round. What the two share is then the
    variables: a CWD or CDUP reallocates the directories of [cwd] while LIST
    and NLST read them. The claims below are about runs in which commands and
    rounds do not overlap. *)

From S2P Require Import Prelude Types CLib FsIface Sys PrefixTree Avl LegacyUtil Dispatch.
From S2P Require Import World Commands LegacyCommand Legacy LegacyBase LegacySafe FsPosix LegacyIo.
Import CLib PrefixTree LegacyUtil LegacyCommand FsPosix LegacyIo Legacy LegacyBase LegacySafe.

Local Open Scope Z_scope.

Module LegacySession.

(** ** The command table *)

(** The commands as [base_command_import] registers them, as the command at
    address [1], in an empty table of records. *)
Definition base_command : Command base_cmd unit := (base_command_import 1 shim_cmds_init).1.
Definition base_records : list shim_cmdreg := (base_command_import 1 shim_cmds_init).2.

(** A name finds the handler it was registered with. *)
Lemma base_call name : no_nul name → command_call base_command name = (list_to_map base_list : gmap bytes base_cmd) !! name.
Proof.
  intros Hn. unfold base_command, base_command_import.
  transitivity (command_call (register_all 1 base_list (command_init (Hook:=unit), shim_cmds_init)).1 name).
  { unfold command_call. by rewrite !register_all_tree. }
  apply command_call_registered; [|done| |done].
  - apply Forall_fmap. repeat (constructor; [by repeat constructor|]). constructor.
  - apply (bool_decide_unpack _). vm_compute. done.
Qed.

(** ** The overlay *)

Definition base_name (p : bytes * base_cmd) : bytes := p.1.

Lemma base_records_list :
  base_records = ((λ p, mk_reg 1 (base_name p) true) <$> base_list) ++ replicate (SHIM_MAX_CMDS - length base_list) free_reg.
Proof. vm_compute. reflexivity. Qed.

Lemma overlay_map_free cmd k : ∀ i m, overlay_map cmd i (replicate k free_reg) m = m.
Proof. induction k as [|k IH]; intros i m; [done|]. apply IH. Qed.

(** Records without repeated names: a name runs the adapter of its record. *)
Lemma overlay_map_lookup k (l : list (bytes * base_cmd)) : ∀ i m n,
  NoDup (base_name <$> l) → Forall (λ p, toupper <$> base_name p = base_name p) l →
  overlay_map 1 i (((λ p, mk_reg 1 (base_name p) true) <$> l) ++ replicate k free_reg) m !! n =
  match list_find (λ p, base_name p = n) l with Some (j, _) => Some (H_custom (i + j)) | None => m !! n end.
Proof.
  induction l as [|p l IH]; intros i m n Hnd Hup; [by rewrite app_nil_l, overlay_map_free|].
  cbn in Hnd. apply NoDup_cons in Hnd as [Hn Hnd]. apply Forall_cons in Hup as [Hp Hup].
  cbn [fmap list_fmap app overlay_map r_used r_cmd r_name andb Nat.eqb]. rewrite Hp, IH by done.
  cbn [list_find]. destruct (decide (base_name p = n)) as [<-|Hne].
  - assert (list_find (λ q, base_name q = base_name p) l = None) as ->.
    { apply list_find_None, Forall_forall. intros q Hq E. apply Hn. rewrite <-E. by apply list_elem_of_fmap_2. }
    rewrite lookup_insert_eq. by rewrite Nat.add_0_r.
  - rewrite lookup_insert_ne by done. destruct (list_find _ l) as [[j q]|]; cbn; [by rewrite Nat.add_succ_r|done].
Qed.

(** The table of the core before the overlay. *)
Definition core_table (allow_stop : bool) : cmd_table :=
  Commands.opftp_commands_init allow_stop (Dispatch.opftp_dispatch_init None).

Lemma register_wf es (n : bytes) (f : handler) :
  Dispatch.wf es → ∃ es', (Dispatch.opftp_dispatch_register (Some es) n f).2 = Some es' ∧ Dispatch.wf es'.
Proof.
  intros Hwf. destruct (Dispatch.opftp_dispatch_register (Some es) n f) as [r t] eqn:E.
  assert (∃ es', t = Some es' ∧ (r = Ok () ∨ es' = es)) as (es' & -> & Hr).
  { unfold Dispatch.opftp_dispatch_register in E. repeat case_match; simplify_eq; eauto. }
  exists es'. split; [done|]. destruct Hr as [-> | ->]; [|done]. by destruct (Dispatch.register_find es n f es' Hwf E).
Qed.

Lemma core_table_wf allow_stop : ∃ es, core_table allow_stop = Some es ∧ Dispatch.wf es.
Proof.
  unfold core_table, Commands.opftp_commands_init. generalize (Commands.command_list allow_stop). intros l.
  assert (∃ es, Dispatch.opftp_dispatch_init (Fn:=handler) None = Some es ∧ Dispatch.wf es) as H0
    by (eexists; split; [done|apply Dispatch.wf_dispatch_init]).
  revert H0. generalize (Dispatch.opftp_dispatch_init (Fn:=handler) None).
  induction l as [|[n f] l IH]; intros t (es & -> & Hwf); [by eauto|]. apply IH. by apply register_wf.
Qed.

Lemma base_fits allow_stop : overlay_fits 1 0 base_records (core_table allow_stop).
Proof. destruct allow_stop; vm_compute; repeat (split; [reflexivity|]); exact I. Qed.

(** ** Starting a session *)

Section Session.
Context `{Limits} {IO OS : Type} `{FtpIo IO} `{SysOps OS} `{LegacySys OS}.
Abbreviation M := (LM IO OS).
Implicit Types s : lst IO OS.

Definition mem0 : mem := mk_mem [] None None false (-1) 0 None.

(** A client just connected: nothing of it in memory yet. *)
Definition fresh s : Prop := ∀ l, is_Some (l_heap s !! l) → (l < l_next s)%positive.

Definition connect (control : Z) : M () :=
  shim_on_connect base_connect control (Some (mk_shim false false false 0)).

(** The parts of the state the connect callback changes, after a step. *)
Definition became (s' : lst IO OS) (t : PTNode loc) (h : gmap loc cell) (n : loc) (s : lst IO OS) : Prop :=
  l_cvar s' = t ∧ l_heap s' = h ∧ l_next s' = n ∧ l_sc s' = l_sc s ∧ l_exec s' = l_exec s.

Lemma wp_alloc {A} c s0 s t h n (k : loc → M A) (Q : A → lst IO OS → Prop) :
  became s t h n s0 →
  (∀ s', became s' t (<[n := c]> h) (n + 1)%positive s0 → wp (k n) s' Q) → wp (alloc c ≫= k) s Q.
Proof.
  intros (E1 & E2 & E3 & E4 & E5) Hk. apply wp_bind. unfold wp at 1, alloc. rewrite E3. apply Hk.
  by rewrite <-E1, <-E2, <-E3.
Qed.

Lemma wp_set_cvar {A} name p s0 s t h n (k : () → M A) (Q : A → lst IO OS → Prop) :
  became s t h n s0 →
  (∀ s', became s' (pttree_insert t name p) h n s0 → wp (k ()) s' Q) → wp (client_set_cvar name p ≫= k) s Q.
Proof.
  intros (E1 & E2 & E3 & E4 & E5) Hk. apply wp_bind. apply Hk. by rewrite <-E1.
Qed.

Definition vars_at (n : loc) : vars :=
  (mk_vars n (n + 1) (n + 1 + 1) (n + 1 + 1 + 1) (n + 1 + 1 + 1 + 1) (n + 1 + 1 + 1 + 1 + 1) None)%positive.

Definition binds_at (n : loc) : list (bytes * option loc) :=
  [(B "cwd", Some (v_cwd (vars_at n))); (B "user", Some (v_user (vars_at n)));
   (B "rnfr", Some (v_rnfr (vars_at n))); (B "auth", Some (v_auth (vars_at n)));
   (B "fd", Some (v_fd (vars_at n))); (B "rest", Some (v_rest (vars_at n)))].

Lemma binds_stored n : ∃ m, stores (insert_all pttree_create (binds_at n)) m ∧ named (vars_at n) m.
Proof.
  exists (map_all ∅ (binds_at n)). split.
  - apply insert_all_stores; [|apply create_stores].
    apply (prefix_free_check _ _ []); [by intros a [? ?]| |done].
    cbn. repeat (constructor; [by repeat constructor|]). constructor.
  - split; try done. intros k. cbn. rewrite !lookup_insert_is_Some'. unfold names.
    rewrite lookup_empty, !elem_of_cons. intros [<-|[<-|[<-|[<-|[<-|[<-|[? ?]]]]]]]; try done; tauto.
Qed.

Lemma binds_inserted n :
  insert_all pttree_create (binds_at n) =
  pttree_insert (pttree_insert (pttree_insert (pttree_insert (pttree_insert (pttree_insert pttree_create
    (B "cwd") (Some n)) (B "user") (Some (n + 1)%positive)) (B "rnfr") (Some (n + 1 + 1)%positive))
    (B "auth") (Some (n + 1 + 1 + 1)%positive)) (B "fd") (Some (n + 1 + 1 + 1 + 1)%positive))
    (B "rest") (Some (n + 1 + 1 + 1 + 1 + 1)%positive).
Proof. unfold insert_all, binds_at, vars_at. cbn [foldl v_cwd v_user v_rnfr v_auth v_fd v_rest]. reflexivity. Qed.

Lemma cells_at n h :
  celled (vars_at n) mem0
    (<[(n + 1 + 1 + 1 + 1 + 1)%positive := CU64 0]> (<[(n + 1 + 1 + 1 + 1)%positive := CInt (-1)]>
    (<[(n + 1 + 1 + 1)%positive := CBool false]> (<[(n + 1 + 1)%positive := CBuf MAX_PATH None]>
    (<[(n + 1)%positive := CBuf MAX_USERNAME_LEN None]> (<[n := CPath []]> h)))))).
Proof.
  unfold vars_at, loc in *. split; cbn; try done; try lia;
    repeat first [rewrite lookup_insert_eq; reflexivity | rewrite lookup_insert_ne by lia].
Qed.

Lemma base_connect_typed s :
  fresh s → l_sc s ≠ None → l_cvar s = pttree_create →
  wp base_connect s (λ _ s', typed (vars_at (l_next s)) mem0 s' ∧ l_exec s' = l_exec s).
Proof.
  intros Hf Hsc Hc. unfold base_connect.
  assert (became s pttree_create (l_heap s) (l_next s) s) as E by done.
  do 6 (eapply wp_alloc; [exact E|]; clear E; intros ? E).
  do 6 (eapply wp_set_cvar; [exact E|]; clear E; intros ? E).
  rewrite <-binds_inserted in E. destruct E as (E1 & E2 & E3 & E4 & E5).
  eapply (wp_raw_line (vars_at (l_next s)) mem0).
  - split; [rewrite E1; apply binds_stored|rewrite E2; apply cells_at|split; [done|cbn; lia]| |by rewrite E4].
    rewrite E2, E3. intros l. rewrite !lookup_insert_is_Some'. unfold loc in *.
    intros [<-|[<-|[<-|[<-|[<-|[<-|Hl%Hf]]]]]]; lia.
  - intros c T. by split.
Qed.

(** A change of other parts of the state. *)
Lemma wp_keep {A} f s0 s t h n (k : () → M A) (Q : A → lst IO OS → Prop) :
  became s t h n s0 →
  (∀ s, l_cvar (f s) = l_cvar s ∧ l_heap (f s) = l_heap s ∧ l_next (f s) = l_next s ∧
        l_sc (f s) = l_sc s ∧ l_exec (f s) = l_exec s) →
  (∀ s', became s' t h n s0 → wp (k ()) s' Q) → wp (modify f ≫= k) s Q.
Proof.
  intros (E1 & E2 & E3 & E4 & E5) Hf Hk. apply wp_bind. apply Hk.
  destruct (Hf s) as (F1 & F2 & F3 & F4 & F5). split_and!; congruence.
Qed.

Lemma wp_client_add {A} fd s0 s t h n (k : () → M A) (Q : A → lst IO OS → Prop) :
  became s t h n s0 → (∀ s', became s' t h n s0 → wp (k ()) s' Q) → wp (server_client_add fd ≫= k) s Q.
Proof. intros (E1 & E2 & E3 & E4 & E5) Hk. do 2 apply wp_bind. by apply Hk. Qed.

Lemma wp_pollfds_add {A} fd ev s0 s t h n (k : () → M A) (Q : A → lst IO OS → Prop) :
  became s t h n s0 → (∀ s', became s' t h n s0 → wp (k ()) s' Q) → wp (server_pollfds_add fd ev ≫= k) s Q.
Proof. intros (E1 & E2 & E3 & E4 & E5) Hk. apply wp_bind. by apply Hk. Qed.

Lemma wp_connect hooks control sc s (Q : () → lst IO OS → Prop) :
  (∀ s1 s2, l_sc s1 = Some sc → l_exec s1 = l_exec s → became s2 pttree_create (l_heap s) (l_next s) s1 →
     wp (_ ← hooks; emit (send_reply 220 (B "OpenPS3FTP ready."))) s2 Q) →
  wp (shim_on_connect hooks control (Some sc)) s Q.
Proof.
  intros HQ. unfold shim_on_connect. apply wp_bind. unfold wp at 1, modify at 1.
  set (s1 := _ <| l_sc := _ |>).
  assert (became s1 pttree_create (l_heap s) (l_next s) s1 ∧ l_sc s1 = Some sc ∧ l_exec s1 = l_exec s)
    as (E & Hsc & Hex) by done. clearbody s1.
  eapply wp_client_add; [exact E|]. clear E. intros s2 E.
  eapply wp_pollfds_add; [exact E|]. clear E. intros s3 E. by eapply HQ.
Qed.

Lemma wp_greeted s3 s :
  l_exec s3 = l_exec s → l_sc s3 ≠ None → l_cvar s3 = pttree_create → fresh s3 →
  wp (_ ← base_connect; emit (send_reply 220 (B "OpenPS3FTP ready."))) s3
    (λ _ s', ∃ vs, typed vs mem0 s' ∧ l_exec s' = l_exec s).
Proof.
  intros He Hsc Hc Hf. apply wp_bind. eapply wp_mono; [by apply base_connect_typed|].
  cbn beta. intros [] s4 [T4 E6]. exists (vars_at (l_next s3)). split.
  - apply (typed_frame _ _ _ _ T4); try done. apply (ty_sc _ _ _ T4).
  - transitivity (l_exec s4); [done|congruence].
Qed.

Lemma wp_elim {A} (m : M A) s (Q : A → lst IO OS → Prop) : wp m s Q → ∃ a s', m s = Some (a, s') ∧ Q a s'.
Proof. unfold wp. destruct (m s) as [[a s']|]; [|done]. eauto. Qed.

Lemma connect_typed control s :
  fresh s → ∃ s' vs, connect control s = Some ((), s') ∧ typed vs mem0 s' ∧ l_exec s' = l_exec s.
Proof.
  intros Hf.
  assert (wp (connect control) s (λ _ s', ∃ vs, typed vs mem0 s' ∧ l_exec s' = l_exec s)) as Hw.
  { unfold connect. apply wp_connect. intros s1 s3 Hsc Hex (E1 & E2 & E3 & E4 & E5).
    apply wp_greeted; [congruence|congruence|done|]. unfold fresh. by rewrite E2, E3. }
  apply wp_elim in Hw as ([] & s' & E & vs & T & Ee). eauto.
Qed.

(** ** Steps and runs *)

Inductive levent := LCommand (name param : bytes) | LExecutor.

Definition lstep (e : levent) : M () :=
  match e with
  | LCommand name param => legacy_dispatch_adapter base_command name param
  | LExecutor => executor_step run_callback
  end.

Fixpoint lrun (es : list levent) s : option (lst IO OS) :=
  match es with
  | [] => Some s
  | e :: es' => match lstep e s with Some (_, s') => lrun es' s' | None => None end
  end.

(** What a step needs in order not to fault, given the values [mm] of the
    variables: see [cmd_safe] and [exec_safe]. *)
Definition step_safe (e : levent) (mm : mem) s : Prop :=
  match e with
  | LCommand name param => ∀ h, command_call base_command name = Some h → cmd_safe h param mm s
  | LExecutor => exec_safe mm s
  end.

(** The values of the variables, read from the tree and the heap. *)
Definition var s (name : bytes) : option cell := pttree_search (l_cvar s) name ≫= λ l, l_heap s !! l.

Definition mem_of s : option mem :=
  match var s (B "cwd"), var s (B "user"), var s (B "rnfr"), var s (B "auth"), var s (B "fd"), var s (B "rest") with
  | Some (CPath d), Some (CBuf _ u), Some (CBuf _ r), Some (CBool a), Some (CInt fd), Some (CU64 z) =>
     Some (mk_mem d u r a fd z (match var s (B "port_addr") with Some (CAddr ip p) => Some (ip, p) | _ => None end))
  | _, _, _, _, _, _ => None
  end.

Lemma var_typed vs mm s name l c :
  typed vs mm s → (∀ m, named vs m → m !! name = Some (Some l)) → no_nul name → l_heap s !! l = Some c →
  var s name = Some c.
Proof. intros Ht Hl Hn Hc. unfold var. by rewrite (typed_search vs mm s name l Ht Hl Hn). Qed.

Lemma mem_of_typed vs mm s : typed vs mm s → mem_of s = Some mm.
Proof.
  intros Ht. destruct (ty_cells _ _ _ Ht) as [C1 C2 C3 C4 C5 C6 C7 _]. unfold mem_of.
  rewrite (var_typed vs mm s (B "cwd") (v_cwd vs) _ Ht (nm_cwd vs) ltac:(by repeat constructor) C1).
  rewrite (var_typed vs mm s (B "user") (v_user vs) _ Ht (nm_user vs) ltac:(by repeat constructor) C2).
  rewrite (var_typed vs mm s (B "rnfr") (v_rnfr vs) _ Ht (nm_rnfr vs) ltac:(by repeat constructor) C3).
  rewrite (var_typed vs mm s (B "auth") (v_auth vs) _ Ht (nm_auth vs) ltac:(by repeat constructor) C4).
  rewrite (var_typed vs mm s (B "fd") (v_fd vs) _ Ht (nm_fd vs) ltac:(by repeat constructor) C5).
  rewrite (var_typed vs mm s (B "rest") (v_rest vs) _ Ht (nm_rest vs) ltac:(by repeat constructor) C6).
  unfold var. rewrite (typed_search_port vs mm s Ht). destruct mm as [d u r a fd z port]. cbn in *.
  destruct (v_port vs) as [l|]; cbn; [|by destruct port].
  destruct port as [[ip q]|]; [by rewrite C7|done].
Qed.

(** Every step of a run meets its condition. *)
Fixpoint run_safe (es : list levent) s : Prop :=
  match es with
  | [] => True
  | e :: es' =>
     match mem_of s with Some mm => step_safe e mm s | None => False end ∧
     match lstep e s with Some (_, s') => run_safe es' s' | None => True end
  end.

Context `{!LegacyEnv (OS:=OS)}.
Local Opaque base_command.

Lemma command_spec name param vs mm s h :
  typed vs mm s → command_call base_command name = Some h → cmd_safe h param mm s →
  ∃ s', lstep (LCommand name param) s = Some ((), s') ∧ l_lastcmd s' = name ∧
    ∃ vs' mm', typed vs' mm' s' ∧ outcome (logs_in h s) mm s mm' s'.
Proof.
  intros Ht Hh Hs.
  assert (wp (legacy_dispatch_adapter base_command name param) s
            (λ u s', l_lastcmd s' = name ∧ post (logs_in h s) mm s u s')) as Hw.
  { unfold legacy_dispatch_adapter. rewrite Hh. apply wp_bind. unfold wp at 1, get.
    destruct (l_sc s) as [sc|] eqn:Esc; [clear sc Esc|by destruct (ty_sc _ _ _ Ht)]. apply wp_bind.
    eapply wp_mono; [exact (spec_run name h param vs mm s Ht Hs)|]. cbn beta. intros [] s1 (vs' & mm' & T1 & Ho & Hg).
    eapply (wp_frame _ _ _ T1); [done..|apply (ty_sc _ _ _ T1)|]. intros T2. split; [done|]. exists vs', mm'.
    split; [done|]. split; [done|]. intros Ha. destruct (Hg Ha) as [[? ? ? ? ? ?] ?]. split; [by split|done]. }
  apply wp_elim in Hw as ([] & s' & E & El & Hp). exists s'. split; [exact E|]. split; [exact El|exact Hp].
Qed.

(** A command that is not registered: 502, and nothing else. *)
Lemma unknown_spec name param vs mm s :
  typed vs mm s → command_call base_command name = None →
  ∃ s', lstep (LCommand name param) s = Some ((), s') ∧ l_lastcmd s' = l_lastcmd s ∧
    typed vs mm s' ∧ outcome False mm s mm s'.
Proof.
  intros Ht Hh.
  assert (wp (legacy_dispatch_adapter base_command name param) s
            (λ u s', l_lastcmd s' = l_lastcmd s ∧ typed vs mm s' ∧ outcome False mm s mm s')) as Hw.
  { unfold legacy_dispatch_adapter. rewrite Hh. apply wp_bind. unfold wp at 1, get.
    destruct (l_sc s) as [sc|] eqn:Esc; [clear sc Esc|by destruct (ty_sc _ _ _ Ht)]. unfold emit.
    eapply (wp_frame _ _ _ Ht); [reflexivity..|apply (ty_sc _ _ _ Ht)|]. intros T1.
    split; [reflexivity|]. split; [exact T1|].
    split; [|intros Ha; split; [split; try reflexivity; try (split; reflexivity); by destruct mm|congruence]].
    eexists. split; [reflexivity|]. left. split_and!; reflexivity. }
  apply wp_elim in Hw as ([] & s' & E & El & Hp). exists s'. split; [exact E|]. split; [exact El|exact Hp].
Qed.

(** A command, registered or not. *)
Lemma any_command_spec name param vs mm s :
  typed vs mm s → step_safe (LCommand name param) mm s →
  ∃ s', lstep (LCommand name param) s = Some ((), s') ∧
    l_lastcmd s' = (if command_call base_command name then name else l_lastcmd s) ∧
    ∃ vs' mm', typed vs' mm' s' ∧
      outcome (match command_call base_command name with Some h => logs_in h s | None => False end) mm s mm' s'.
Proof.
  intros Ht Hs. cbn [step_safe] in Hs. destruct (command_call base_command name) as [h|] eqn:Eh.
  - exact (command_spec name param vs mm s h Ht Eh (Hs h eq_refl)).
  - destruct (unknown_spec name param vs mm s Ht Eh) as (s' & E & El & T & Ho). eauto 8.
Qed.

Lemma executor_spec vs mm s :
  typed vs mm s → step_safe LExecutor mm s →
  ∃ s', lstep LExecutor s = Some ((), s') ∧ exec_post mm s s'.
Proof.
  intros Ht Hs. pose proof (exec_spec vs mm s Ht Hs) as Hw.
  apply wp_elim in Hw as ([] & s' & E & Hp). eauto.
Qed.

Lemma step_typed e vs mm s :
  typed vs mm s → step_safe e mm s → ∃ s', lstep e s = Some ((), s') ∧ ∃ vs' mm', typed vs' mm' s'.
Proof.
  intros Ht Hs. destruct e as [name param|].
  - destruct (any_command_spec name param vs mm s Ht Hs) as (s' & E & _ & vs' & mm' & T & _). eauto.
  - destruct (executor_spec vs mm s Ht Hs) as (s' & E & vs' & mm' & T & _). eauto.
Qed.

Lemma run_typed es : ∀ vs mm s,
  typed vs mm s → run_safe es s → ∃ s', lrun es s = Some s' ∧ ∃ vs' mm', typed vs' mm' s'.
Proof.
  induction es as [|e es IH]; intros vs mm s Ht Hs; [by eauto|]. destruct Hs as [He Hs].
  rewrite (mem_of_typed vs mm s Ht) in He.
  destruct (step_typed e vs mm s Ht He) as (s1 & E & vs1 & mm1 & T1). cbn [lrun]. rewrite E in Hs |- *.
  eapply IH; [exact T1|exact Hs].
Qed.

(** An invariant of the safe steps holds after a run. *)
Lemma run_invariant (I : mem → lst IO OS → Prop) es :
  (∀ e vs mm s s', typed vs mm s → step_safe e mm s → I mm s → lstep e s = Some ((), s') →
     ∃ vs' mm', typed vs' mm' s' ∧ I mm' s') →
  ∀ vs mm s s', typed vs mm s → I mm s → run_safe es s → lrun es s = Some s' →
    ∃ vs' mm', typed vs' mm' s' ∧ I mm' s'.
Proof.
  intros Hstep. induction es as [|e es IH]; intros vs mm s s' Ht Hi Hs E.
  { injection E as <-. eauto. }
  destruct Hs as [He Hs]. rewrite (mem_of_typed vs mm s Ht) in He. cbn [lrun] in E.
  destruct (lstep e s) as [[[] s1]|] eqn:E1; [|done].
  destruct (Hstep e vs mm s s1 Ht He Hi E1) as (vs1 & mm1 & T1 & I1). by eapply IH.
Qed.

(** ** The login gate *)

(** No command of the run logs in: no ACCT, and no PASS right after USER. *)
Fixpoint no_login_in (lastcmd : bytes) (es : list levent) : bool :=
  match es with
  | [] => true
  | LExecutor :: es' => no_login_in lastcmd es'
  | LCommand name _ :: es' =>
     match command_call base_command name with
     | Some B_acct => false
     | Some B_pass => negb (streq lastcmd (B "USER")) && no_login_in name es'
     | Some _ => no_login_in name es'
     | None => no_login_in lastcmd es'
     end
  end.

Lemma idle_trans m1 m2 m3 s1 s2 s3 : idle m1 m2 s1 s2 → idle m2 m3 s2 s3 → idle m1 m3 s1 s3.
Proof.
  intros [? ? [? ?] [? ?] ? E1] [? ? [? ?] [? ?] ? E2]. split; try (split; congruence); try congruence.
  rewrite <-E1, <-E2. by destruct m1, m2, m3.
Qed.

Lemma executor_none s : l_exec s = None → lstep LExecutor s = Some ((), s).
Proof. intros He. cbn [lstep]. unfold executor_step, mbind, LM_bind, get. by rewrite He. Qed.

(** A step before login that does not log in. *)
Lemma gate_step e es vs mm s :
  typed vs mm s → step_safe e mm s → m_auth mm = false → l_exec s = None → no_login_in (l_lastcmd s) (e :: es) = true →
  ∃ s' vs' mm', lstep e s = Some ((), s') ∧ typed vs' mm' s' ∧ m_auth mm' = false ∧ idle mm mm' s s' ∧
    no_login_in (l_lastcmd s') es = true.
Proof.
  intros Ht Hs Ha He Hn. destruct e as [name param|].
  - destruct (any_command_spec name param vs mm s Ht Hs) as (s' & E & El & vs' & mm' & T & _ & Hg).
    destruct (Hg Ha) as [Hi Hl]. exists s', vs', mm'. split; [exact E|]. rewrite El. clear Hs Hg E El.
    cbn [no_login_in] in Hn. revert Hl Hn. generalize (command_call base_command name). intros o Hl Hn.
    destruct (m_auth mm') eqn:Ha'.
    + exfalso. specialize (Hl eq_refl). destruct o as [[]|]; try done.
      apply andb_prop in Hn as [Hn _]. cbn in Hl. by rewrite Hl in Hn.
    + split_and!; try done. destruct o as [[]|]; try done. by apply andb_prop in Hn as [_ Hn].
  - exists s, vs, mm. split_and!; try done; [|by apply idle_refl].
    by apply executor_none.
Qed.

Lemma gate_run es : ∀ vs mm s s',
  typed vs mm s → run_safe es s → m_auth mm = false → l_exec s = None → no_login_in (l_lastcmd s) es = true →
  lrun es s = Some s' → ∃ vs' mm', typed vs' mm' s' ∧ m_auth mm' = false ∧ idle mm mm' s s'.
Proof.
  induction es as [|e es IH]; intros vs mm s s' Ht Hs Ha He Hn E.
  { injection E as <-. exists vs, mm. split_and!; try done. apply idle_refl. }
  destruct Hs as [He' Hs]. rewrite (mem_of_typed vs mm s Ht) in He'.
  destruct (gate_step e es vs mm s Ht He' Ha He Hn) as (s1 & vs1 & mm1 & E1 & T1 & A1 & I1 & N1).
  cbn [lrun] in E. rewrite E1 in E, Hs.
  destruct (IH vs1 mm1 s1 s' T1 Hs A1) as (vs2 & mm2 & T2 & A2 & I2); [|done|done|].
  { destruct I1 as [_ _ _ [_ Hx] _ _]. congruence. }
  exists vs2, mm2. split_and!; try done. by eapply idle_trans.
Qed.

(** ** Transfers that are cancelled *)

(** poll(2) fails, times out or reports a hang-up on the data socket. *)
Definition hung_up (fd ev : Z) s : bool :=
  match (sys_poll [(fd, ev)] 1000 (l_os s)).1 with
  | Err _ => true
  | Ok revs => let rev := default 0 (head revs) in (rev =? 0) || has rev (Z.lor POLLERR (Z.lor POLLHUP POLLNVAL))
  end.

(** The executor of a cancelled transfer leaves its loop without calling the
    data callback. *)
Lemma wp_leave_loop vs mm s fd ev :
  typed vs mm s → l_exec s = Some (ex_run fd ev) → cancelled s = true → hung_up fd ev s = true →
  wp (executor_step run_callback) s (λ _ s', typed vs mm s' ∧ l_exec s' = Some (ex_end fd)).
Proof.
  intros Ht He Hc Hh. unfold executor_step. apply wp_bind. unfold wp at 1, get. rewrite He.
  apply wp_bind. eapply (wp_os _ _ _ Ht). intros r x Er T1. unfold hung_up in Hh. rewrite Er in Hh. cbn [fst] in Hh.
  assert (∀ s1, typed vs mm s1 → wp (modify (λ s, s <| l_exec := Some (ex_end fd) |>)) s1
    (λ _ s', typed vs mm s' ∧ l_exec s' = Some (ex_end fd))) as HM.
  { intros s1 T. eapply (wp_frame _ _ _ T); [done..|apply (ty_sc _ _ _ T)|]. done. }
  destruct r as [revs|e]; [|by apply HM]. destruct (_ =? 0).
  - apply wp_bind. unfold wp at 1, get. change (cancelled (s <| l_os := x |>)) with (cancelled s). rewrite Hc. by apply HM.
  - rewrite orb_false_l in Hh. rewrite Hh. apply wp_bind. unfold wp at 1, get.
    change (cancelled (s <| l_os := x |>)) with (cancelled s). rewrite Hc. by apply HM.
Qed.

(** The end of the executor closes the data socket; the descriptor variable
    keeps its value. *)
Lemma wp_executor_end vs mm s fd :
  typed vs mm s → l_exec s = Some (ex_end fd) →
  wp (executor_step run_callback) s (λ _ s', typed vs mm s' ∧ l_exec s' = None).
Proof.
  intros Ht He. unfold executor_step. apply wp_bind. unfold wp at 1, get. rewrite He. apply wp_bind.
  assert (∀ s1, typed vs mm s1 → wp (
    _ ← modify (λ s, s <| l_cb := None |>); _ ← server_pollfds_remove fd; _ ← server_client_remove fd;
    modify (λ s, s <| l_exec := None |> <| l_sc := (λ sc, sc <| sc_job_active := false |>) <$> l_sc s |>)) s1
    (λ _ s', typed vs mm s' ∧ l_exec s' = None)) as HE.
  { intros s1 T1. unfold server_pollfds_remove, server_client_remove, mod_srv.
    do 3 (apply wp_bind; eapply (wp_frame _ _ _ T1); [done..|apply (ty_sc _ _ _ T1)|]; clear T1; intros T1).
    eapply (wp_frame _ _ _ T1); [done..| |done]. pose proof (ty_sc _ _ _ T1) as Hsc. cbn in *. by destruct (l_sc s1). }
  destruct (l_data s =? -1); [by apply wp_ret, HE|].
  apply wp_bind. unfold close_socket. eapply (wp_os_ _ _ _ Ht). intros x T1.
  eapply (wp_frame _ _ _ T1); [done..|apply (ty_sc _ _ _ T1)|]. intros T2. by apply HE.
Qed.

(** Without an executor, a descriptor variable that is set stays as it is. *)
Lemma wedged_step e vs mm s s' (f : Z) :
  f ≠ -1 → typed vs mm s → step_safe e mm s → m_fd mm = f ∧ l_exec s = None → lstep e s = Some ((), s') →
  ∃ vs' mm', typed vs' mm' s' ∧ m_fd mm' = f ∧ l_exec s' = None.
Proof.
  intros Hf Ht Hs [Em He] E. destruct e as [name param|].
  - destruct (any_command_spec name param vs mm s Ht Hs) as (s2 & E2 & _ & vs' & mm' & T & (outs & _ & Hr) & _).
    rewrite E in E2. injection E2 as <-. exists vs', mm'. split; [done|].
    destruct Hr as [(_ & Hfd & Hx)|(_ & Hfd & _)]; [split; congruence|congruence].
  - rewrite (executor_none s He) in E. injection E as <-. eauto.
Qed.

(** RETR with the descriptor variable set. *)
Lemma retr_busy param vs mm s :
  typed vs mm s → m_auth mm = true → m_fd mm ≠ -1 →
  wp (cmd_retr param) s (λ _ s', l_out s' = l_out s ++ [send_reply 450 FTP_450]).
Proof.
  intros Ht Ha Hf. unfold cmd_retr.
  apply wp_bind. eapply wp_cvar; [exact Ht|apply nm_cwd|by repeat constructor|].
  apply wp_bind. eapply wp_cvar; [exact Ht|apply nm_fd|by repeat constructor|].
  apply wp_bind. eapply wp_cvar; [exact Ht|apply nm_rest|by repeat constructor|].
  unfold with_auth. apply wp_bind. eapply wp_cvar; [exact Ht|apply nm_auth|by repeat constructor|].
  apply wp_bind. eapply (wp_get_auth _ _ _ Ht). rewrite Ha.
  apply wp_bind. eapply (wp_get_fd _ _ _ Ht). destruct (Z.eqb_spec (m_fd mm) (-1)); [done|].
  cbn [negb]. by eapply wp_reply.
Qed.

(** A run and its last step. *)
Lemma run_safe_snoc es e : ∀ s s', run_safe (es ++ [e]) s → lrun es s = Some s' → run_safe es s ∧ run_safe [e] s'.
Proof.
  induction es as [|e' es IH]; intros s s' Hs E; [by injection E as <-|].
  rewrite <-app_comm_cons in Hs. destruct Hs as [Hx Hy]. cbn [lrun] in E.
  destruct (lstep e' s) as [[[] s1]|] eqn:E1; [|done]. destruct (IH s1 s' Hy E) as [Ha Hb].
  split; [|exact Hb]. cbn [run_safe]. rewrite E1. by split.
Qed.

(** ** The claims *)

(** C22. Memory safety of a legacy session in which commands and executor rounds
    do not overlap (the adapter takes no lock to keep them apart): the connect
    callbacks run without a fault on every state, and so does every sequence of
    whole commands and whole rounds whose steps meet the conditions of
    [step_safe] (texts fit their buffers, [localtime] answers for the files of
    MDTM and LIST, the control connection is an IPv4 one where its address is
    used, what RNTO, PASS and STAT print has been set); all through it the
    session variables are allocated, of the type the handlers cast them to, and
    hold strings that fit their buffers. *)
Theorem legacy_memory_safe control es s :
  fresh s → ∃ s1, connect control s = Some ((), s1) ∧
    (run_safe es s1 → ∃ s', lrun es s1 = Some s' ∧ ∃ vs mm, typed vs mm s').
Proof.
  intros Hf. destruct (connect_typed control s Hf) as (s1 & vs & E & Ht & _). exists s1. split; [exact E|].
  intros Hs. by eapply run_typed.
Qed.


(** C24. Replies of a legacy session that got its facade, in a run as in
    [legacy_memory_safe]: at every point of it a command answers with exactly
    one final reply, or with none when it has started a transfer; a round of
    its executor says nothing, or sends one final reply after it has closed
    the file or directory of the transfer, as its last call on the filesystem,
    and cleared the descriptor variable, and is then the last to run the
    callback. *)
Theorem legacy_one_reply control es e s s1 s' :
  fresh s → connect control s = Some ((), s1) → run_safe (es ++ [e]) s1 → lrun es s1 = Some s' →
  ∃ s2 mm outs, lstep e s' = Some ((), s2) ∧ mem_of s2 = Some mm ∧ l_out s2 = l_out s' ++ outs ∧
    match e with
    | LCommand _ _ =>
       finals outs = 1%nat ∨ (finals outs = 0%nat ∧ l_cb s2 ≠ None ∧ ∃ ev, l_exec s2 = Some (ex_start ev))
    | LExecutor =>
       outs = [] ∨
       (finals outs = 1%nat ∧ length outs = 1%nat ∧ m_fd mm = -1 ∧ (∃ fd, l_exec s2 = Some (ex_end fd)) ∧
        ∃ mm0 cb y, mem_of s' = Some mm0 ∧ l_cb s' = Some cb ∧ round_io cb (m_fd mm0) (l_io s') y ∧
          l_io s2 = closes cb (m_fd mm0) y)
    end.
Proof.
  intros Hf Ec Hs Er. destruct (connect_typed control s Hf) as (s0 & vs0 & E & Ht & _).
  rewrite Ec in E. injection E as <-. destruct (run_safe_snoc es e s1 s' Hs Er) as [Hes [Hse _]].
  destruct (run_typed es vs0 mem0 s1 Ht Hes) as (s0 & E & vs & mm & T). rewrite Er in E. injection E as <-.
  rewrite (mem_of_typed vs mm s' T) in Hse. destruct e as [name param|].
  - destruct (any_command_spec name param vs mm s' T Hse) as (s2 & E2 & _ & vs2 & mm2 & T2 & (outs & Ho & Hr) & _).
    exists s2, mm2, outs. split; [exact E2|]. split; [by apply (mem_of_typed vs2)|]. split; [exact Ho|].
    destruct Hr as [(Hr & _)|(Hr & _ & Hcb & Hx)]; auto.
  - destruct (executor_spec vs mm s' T Hse) as (s2 & E2 & vs2 & mm2 & T2 & _ & Hr).
    destruct Hr as [[_ Ho]|(Hm & Hx & (cb & y & Hcb & Hy & Hz) & c & Ho & Hc)]; [exists s2, mm2, []|exists s2, mm2, [c]].
    + split; [exact E2|]. split; [by apply (mem_of_typed vs2)|]. rewrite app_nil_r. auto.
    + split; [exact E2|]. split; [by apply (mem_of_typed vs2)|]. split; [exact Ho|]. right.
      split_and!; [|done..|exists mm, cb, y; split_and!; [by apply (mem_of_typed vs)|done..]].
      unfold finals. cbn. by rewrite decide_True.
Qed.

(** C28. A cancelled legacy transfer wedges its session: when the executor of a
    transfer sees the cancellation it ends without the data callback, which
    alone clears the descriptor variable; from then on, whatever safe commands
    follow, the variable stays set and RETR answers 450. *)
Theorem aborted_transfer_wedges vs mm s fd ev :
  typed vs mm s → m_fd mm ≠ -1 → l_exec s = Some (ex_run fd ev) → cancelled s = true → hung_up fd ev s = true →
  ∃ s1, lrun [LExecutor; LExecutor] s = Some s1 ∧
    ∀ es s2, run_safe es s1 → lrun es s1 = Some s2 →
      ∃ mm2, mem_of s2 = Some mm2 ∧ m_fd mm2 = m_fd mm ∧ l_exec s2 = None ∧
        (m_auth mm2 = true → ∀ param, ∃ s3, cmd_retr param s2 = Some ((), s3) ∧
           l_out s3 = l_out s2 ++ [send_reply 450 FTP_450]).
Proof.
  intros Ht Hf He Hc Hh.
  destruct (wp_elim _ _ _ (wp_leave_loop vs mm s fd ev Ht He Hc Hh)) as ([] & sa & Ea & Ta & Xa).
  destruct (wp_elim _ _ _ (wp_executor_end vs mm sa fd Ta Xa)) as ([] & sb & Eb & Tb & Xb).
  exists sb. split. { cbn [lrun lstep]. rewrite Ea, Eb. reflexivity. }
  intros es s2 Hs Er.
  destruct (run_invariant (λ mm' s', m_fd mm' = m_fd mm ∧ l_exec s' = None) es
    (λ e vs mm s s' Ht' Hs' Hi E, wedged_step e vs mm s s' _ Hf Ht' Hs' Hi E) vs mm sb s2 Tb (conj eq_refl Xb) Hs Er)
    as (vs2 & mm2 & T2 & F2 & X2).
  exists mm2. split; [by apply (mem_of_typed vs2)|]. split; [done|]. split; [done|]. intros Ha param.
  destruct (wp_elim _ _ _ (retr_busy param vs2 mm2 s2 T2 Ha ltac:(congruence))) as ([] & s3 & E3 & Ho). eauto.
Qed.

End Session.

(** C25. The overlay of the legacy commands on the table of the core: after it
    a name that feat/base registers runs the adapter of its record and no core
    handler, and every other name runs the core handler it ran before. *)
Theorem legacy_overlay_exact (allow_stop : bool) (name : bytes) :
  Dispatch.dispatch_lookup (legacy_command_overlay 1 base_records (core_table allow_stop)) name =
  match list_find (λ p, base_name p = name) base_list with
  | Some (i, _) => Some (H_custom i)
  | None => Dispatch.dispatch_lookup (core_table allow_stop) name
  end.
Proof.
  destruct (core_table_wf allow_stop) as (es & E & Hwf). pose proof (base_fits allow_stop) as Hf. rewrite E in Hf |- *.
  destruct (overlay_lookup 1 base_records 0 es Hwf Hf) as (es' & E' & _ & Hl).
  unfold legacy_command_overlay. rewrite E'. cbn [Dispatch.dispatch_lookup]. rewrite Hl, base_records_list.
  rewrite overlay_map_lookup.
  - destruct (list_find _ base_list) as [[i q]|]; [done|]. symmetry. apply Dispatch.find_entry_abs, Hwf.
  - apply (bool_decide_unpack _). by vm_compute.
  - apply (bool_decide_unpack _). by vm_compute.
Qed.

(** ** A session on a concrete machine *)

#[local] Existing Instance linux_limits.
#[local] Instance sockets : LegacySys script := {|
  sys_shutdown _ x := x; sys_getpeername _ _ := SA_in [chr 127; chr 0; chr 0; chr 1] 4000
|}.
#[local] Instance script_env : LegacyEnv (OS:=script).
Proof. split. by intros fd x a [= <-]. Qed.

Definition box := lst (LegacyIo.linux_io FsPosix.host) script.
Definition box0 : box :=
  mk_lst pttree_create ∅ 1%positive (-1) (-1) (-1) None [] 1 None 0 None (mk_server [] Avl.AVLLeaf false true) []
    LegacyIo.linux0 (mk_script [] [] [] 10 1000 [] 0).

Lemma box0_fresh : fresh box0.
Proof. intros l [c Hc]. done. Qed.

(** The session after the connect callbacks. *)
Definition box1 : box := match connect 5 box0 with Some (_, s) => s | None => box0 end.
Lemma box1_connect : connect 5 box0 = Some ((), box1).
Proof. unfold box1. destruct (connect_typed 5 box0 box0_fresh) as (s & _ & -> & _). reflexivity. Qed.

Lemma result_inj {A} (x y : A) : Some ((), x) = Some ((), y) → x = y.
Proof. congruence. Qed.

Lemma run_safe_cons e es (s : box) mm s' :
  mem_of s = Some mm → step_safe e mm s → lstep e s = Some ((), s') → run_safe es s' → run_safe (e :: es) s.
Proof. intros Em Hs E Hr. cbn [run_safe]. rewrite Em, E. by split. Qed.

Lemma safe_command name p h mm (s : box) :
  command_call base_command name = Some h → cmd_safe h p mm s → step_safe (LCommand name p) mm s.
Proof. intros Eh Hs h' Eh'. rewrite Eh in Eh'. by injection Eh' as <-. Qed.

(** One step of a concrete run; the conditions are computed. *)
Ltac small := apply Nat.ltb_lt; vm_compute; reflexivity.
Ltac entry :=
  intros cb fd ev Ecb Hcb Ee; vm_compute in Ecb, Ee; try discriminate Ecb; try discriminate Ee;
  injection Ecb as <-; injection Ee as <- <-; intros name x E; vm_compute in E;
  first [discriminate E | injection E as E1 E2; subst name x; split; [small|split; [small|]];
    intros _ path st y Ep Est; vm_compute in Ep; injection Ep as Ep; subst path; apply (f_equal fst) in Est; vm_compute in Est;
    first [discriminate Est | apply Some_inj in Est; subst st; eexists; split; [vm_compute; reflexivity|split; small]]].
Ltac condition := first [exact I | small | intros _; small | by intros _ _
  | split; [small|]; first [intros E; vm_compute in E; discriminate E | intros E E'; vm_compute in E, E'; first [discriminate E | discriminate E'
      | intros Ep; vm_compute in Ep; first [discriminate Ep | intros _ _; do 2 eexists; vm_compute; reflexivity]]]
  | entry | intros ? E; vm_compute in E; discriminate E].
Ltac run1 :=
  eapply run_safe_cons;
    [vm_compute; reflexivity
    |first [eapply safe_command; [vm_compute; reflexivity|condition] | condition]
    |vm_compute; reflexivity|].

(** Log in, look around, and list the root over an active connection. *)
Definition visit : list levent :=
  [LCommand (B "USER") (B "anonymous"); LCommand (B "PASS") (B "me@"); LCommand (B "PWD") [];
   LCommand (B "PORT") (B "127,0,0,1,10,0"); LCommand (B "LIST") []; LExecutor; LExecutor; LExecutor; LExecutor].

Lemma visit_safe : run_safe visit box1.
Proof. unfold visit. do 9 run1. exact I. Qed.

Lemma legacy_memory_safe_witness : fresh box0 ∧ ∃ s', lrun visit box1 = Some s' ∧ ∃ vs mm, typed vs mm s'.
Proof.
  split; [exact box0_fresh|]. destruct (legacy_memory_safe 5 visit box0 box0_fresh) as (s1 & E & K).
  rewrite box1_connect in E. apply result_inj in E. rewrite <-E in K. exact (K visit_safe).
Defined.

(** Commands before login. *)
Definition knock : list levent :=
  [LCommand (B "USER") (B "anonymous"); LCommand (B "PWD") []; LExecutor; LCommand (B "PASS") (B "x");
   LCommand (B "DELE") (B "/a"); LCommand (B "XYZZY") []].

Lemma knock_safe : run_safe knock box1.
Proof. unfold knock. do 6 run1. exact I. Qed.

Definition knocked : box := match lrun knock box1 with Some s => s | None => box1 end.


(** The last round of the listing sends its final reply. *)
Definition listing : box := match lrun (take 7 visit) box1 with Some s => s | None => box1 end.

Lemma legacy_one_reply_witness :
  ∃ s2 mm outs, lstep LExecutor listing = Some ((), s2) ∧ mem_of s2 = Some mm ∧ l_out s2 = l_out listing ++ outs ∧
    (outs = [] ∨
     (finals outs = 1%nat ∧ length outs = 1%nat ∧ m_fd mm = -1 ∧ (∃ fd, l_exec s2 = Some (ex_end fd)) ∧
      ∃ mm0 cb y, mem_of listing = Some mm0 ∧ l_cb listing = Some cb ∧ round_io cb (m_fd mm0) (l_io listing) y ∧
        l_io s2 = closes cb (m_fd mm0) y)).
Proof.
  refine (legacy_one_reply 5 (take 7 visit) LExecutor box0 box1 listing box0_fresh box1_connect _ _).
  - cbn [take visit app]. do 8 run1. exact I.
  - vm_compute. reflexivity.
Defined.

(** A transfer cancelled by ABOR on a data connection that stays silent. *)
Definition silent0 : box := box0 <| l_os := mk_script [] [] [] 2000 1000 [] 0 |>.
Definition silent1 : box := match connect 5 silent0 with Some (_, s) => s | None => silent0 end.
Definition abort : list levent :=
  [LCommand (B "USER") (B "anonymous"); LCommand (B "PASS") (B "me@"); LCommand (B "PORT") (B "127,0,0,1,10,0");
   LCommand (B "LIST") []; LExecutor; LExecutor; LCommand (B "ABOR") []].
Definition cancelled_box : box := match lrun abort silent1 with Some s => s | None => silent1 end.

Lemma silent0_fresh : fresh silent0.
Proof. intros l [c Hc]. done. Qed.

Lemma abort_safe : run_safe abort silent1.
Proof. unfold abort. do 7 run1. exact I. Qed.

Lemma abort_run : lrun abort silent1 = Some cancelled_box.
Proof. vm_compute. reflexivity. Qed.

Lemma cancelled_typed : ∃ vs mm, typed vs mm cancelled_box.
Proof.
  destruct (connect_typed 5 silent0 silent0_fresh) as (s1 & vs & E & Ht & _).
  assert (connect 5 silent0 = Some ((), silent1)) as E1 by (vm_compute; reflexivity).
  rewrite E1 in E. apply result_inj in E. rewrite <-E in Ht. clear E E1.
  destruct (run_typed abort vs mem0 silent1 Ht abort_safe) as (s' & Er & T).
  rewrite abort_run in Er. apply Some_inj in Er. rewrite <-Er in T. exact T.
Qed.

Lemma aborted_transfer_wedges_witness :
  ∃ vs mm s1, typed vs mm cancelled_box ∧ m_fd mm = 0 ∧ lrun [LExecutor; LExecutor] cancelled_box = Some s1 ∧
    ∀ es s2, run_safe es s1 → lrun es s1 = Some s2 →
      ∃ mm2, mem_of s2 = Some mm2 ∧ m_fd mm2 = m_fd mm ∧ l_exec s2 = None ∧
        (m_auth mm2 = true → ∀ param, ∃ s3, cmd_retr param s2 = Some ((), s3) ∧
           l_out s3 = l_out s2 ++ [send_reply 450 FTP_450]).
Proof.
  destruct cancelled_typed as (vs & mm & T). pose proof (mem_of_typed vs mm _ T) as Em.
  assert (option_map m_fd (mem_of cancelled_box) = Some 0) as Ef by (vm_compute; reflexivity).
  rewrite Em in Ef. cbn [option_map] in Ef. assert (m_fd mm = 0) as Hfd by (by apply Some_inj).
  destruct (aborted_transfer_wedges vs mm cancelled_box 2000 260 T) as (s1 & E & K);
    [by rewrite Hfd|vm_compute; reflexivity..|]. exists vs, mm, s1. split_and!; [exact T|exact Hfd|exact E|exact K].
Defined.

End LegacySession.
