(* ===== verification/Transfer.v ===== *)
(** * src/transfer.c: the worker-side transfer loops

    [tstate] is what a worker owns while it runs a job: the job, the
    filesystem, the machine. The reactor sets [cancelled] while the worker
    runs: [cancel k] is what the [k]-th read of the flag sees. The loops that
    depend on the peer or the backend take fuel and return [None] when it
    runs out. Buffers are allocated successfully. *)

From S2P Require Import Prelude Types Resolve CLib Listing Sys Tls FsIface FsRooted World Client.
From S2P Require Import Datachan Commands.
Import Resolve CLib Listing Tls Datachan Commands.

Local Open Scope Z_scope.

Module Transfer.

Definition TRANSFER_BUF : nat := 64 * 1024.
Definition COPY_MAX_DEPTH : Z := 32.

Record tstate (FS OS : Type) := mk_tstate {
  t_job : opftp_transfer_job; t_fs : FS; t_errno : errno; t_os : OS;
  t_tick : nat;                (* reads of the cancel flag so far *)
  t_bytes : Z                  (* *bytes *)
}.
Arguments mk_tstate {_ _}.
Arguments t_job {_ _}.
Arguments t_fs {_ _}.
Arguments t_errno {_ _}.
Arguments t_os {_ _}.
Arguments t_tick {_ _}.
Arguments t_bytes {_ _}.

#[export] Instance tstate_settable FS OS : Settable (tstate FS OS) := λ x,
  mk_tstate (t_job x) (t_fs x) (t_errno x) (t_os x) (t_tick x) (t_bytes x).

Abbreviation TM FS OS A := (ST (tstate FS OS) A).

(** ** Paths of the tree walk *)

(** [copy_join]: root + "/" + rel. *)
Definition join_text (root rel : bytes) : bytes :=
  match rel with
  | [] => root
  | _ => if streq root (B "/") then SLASH :: rel else root ++ [SLASH] ++ rel
  end.

Definition copy_join (outsz : nat) (root rel : bytes) : res bytes :=
  let s := join_text root rel in
  if (outsz <=? length s)%nat then Err ENAMETOOLONG else Ok s.

(** The relative path of a child. *)
Definition child_rel (rel name : bytes) : res bytes :=
  let s := match rel with [] => name | _ => rel ++ [SLASH] ++ name end in
  if (OPFTP_MAX_PATH <=? length s)%nat then Err ENAMETOOLONG else Ok s.

(** [struct copy_dir], the stack of pending directories. *)
Record copy_dir := mk_copy_dir { cd_rel : bytes; cd_depth : Z }.

Definition is_dot (name : bytes) : bool := streq name (B ".") || streq name (B "..").

Section Transfer.
Context {FS OS : Type} `{FsOps FS} `{SysOps OS}.
Context (srv : opftp_server) (r : rooted) (cancel : nat → bool).

Local Abbreviation T A := (TM FS OS A).

Definition get_job : T opftp_transfer_job := st_gets t_job.
Definition mod_tjob (f : opftp_transfer_job → opftp_transfer_job) : T () :=
  st_modify (λ t, t <| t_job := f (t_job t) |>).

Definition job_cancelled : T bool := λ t,
  (cancel (t_tick t), t <| t_tick := S (t_tick t) |>).

(** A call of the rooted backend, a system call. *)
Definition fs_op {A} (op : FsM FS A) : T (option A) := λ t,
  let '(a, (fs', e')) := op (t_fs t, t_errno t) in (a, t <| t_fs := fs' |> <| t_errno := e' |>).

Definition os_op {A} (op : OS → res A * OS) : T (res A) := λ t,
  let '(a, os') := op (t_os t) in (a, t <| t_os := os' |>).

(** [-errno] after a failed backend call. *)
Definition fail_errno {A} : T (res A) := λ t, (Err (t_errno t), t).

(** [*bytes += n; progress_store(j, *bytes)]. *)
Definition add_bytes (n : nat) : T () :=
  st_modify (λ t, t <| t_bytes := u64 (t_bytes t + Z.of_nat n) |>
                    <| t_job := (t_job t) <| j_bytes := u64 (t_bytes t + Z.of_nat n) |> |>).

(** ** Waiting and moving bytes *)

Definition cancelled_or_again : T (res ()) :=
  c ← job_cancelled; mret (Err (if (c : bool) then ECANCELED else EAGAIN)).

Definition wait_fd (fd events timeout : Z) : T (res ()) :=
  j ← get_job;
  p ← os_op (sys_poll [(fd, events); (fst (j_cancel_pipe j), POLLIN)] timeout);
  match p with
  | Err e => mret (Err e)
  | Ok revs =>
     let r0 := default 0 (revs !! 0%nat) in
     let r1 := default 0 (revs !! 1%nat) in
     if bool_decide (Forall (λ x, x = 0) revs) then cancelled_or_again
     else if has r1 (Z.lor POLLIN (Z.lor POLLERR POLLHUP)) then cancelled_or_again
     else if has r0 (Z.lor POLLERR (Z.lor POLLHUP POLLNVAL)) then mret (Err EPIPE)
     else if has r0 events then mret (Ok ())
     else mret (Err EAGAIN)
  end.

(** A call on the job's TLS session. *)
Definition tls_op {A} (op : tls_session → OS → A * (tls_session * OS)) (dflt : A) : T A := λ t,
  match j_tls (t_job t) with
  | None => (dflt, t)
  | Some s =>
     let '(a, (s', os')) := op s (t_os t) in
     (a, t <| t_os := os' |> <| t_job := (t_job t) <| j_tls := Some s' |> |>)
  end.

(** [send_all]. *)
Fixpoint send_all (fuel : nat) (rest : bytes) : T (option (res ())) :=
  match rest with
  | [] => mret (Some (Ok ()))
  | _ :: _ =>
     match fuel with
     | O => mret None
     | S f =>
        c ← job_cancelled;
        if (c : bool) then mret (Some (Err ECANCELED))
        else
          j ← get_job;
          if bool_decide (is_Some (j_tls j)) then
            w ← tls_op (opftp_tls_write rest) IO_ERR;
            match w with
            | IO_DONE n => send_all f (drop n rest)
            | IO_ERR => mret (Some (Err EPIPE))
            | _ =>
               w ← wait_fd (j_data_fd j) (match w with IO_WANT_WRITE => POLLOUT | _ => POLLIN end) 1000;
               match w with
               | Ok _ | Err EAGAIN => send_all f rest
               | Err e => mret (Some (Err e))
               end
            end
          else
            w ← wait_fd (j_data_fd j) POLLOUT 1000;
            match w with
            | Err EAGAIN => send_all f rest
            | Err e => mret (Some (Err e))
            | Ok _ =>
               n ← os_op (sys_send (j_data_fd j) rest);
               match n with
               | Ok (S k) => send_all f (drop (S k) rest)
               | Ok O => mret (Some (Err EPIPE))
               | Err EAGAIN => send_all f rest
               | Err e => mret (Some (Err e))
               end
            end
     end
  end.

(** [recv_some]: the bytes received, [Ok []] for a clean end. *)
Definition recv_some (len : nat) : T (res bytes) :=
  c ← job_cancelled;
  if (c : bool) then mret (Err ECANCELED)
  else
    j ← get_job;
    if bool_decide (is_Some (j_tls j)) then
      n ← tls_op (opftp_tls_read len) IO_ERR;
      match n with
      | IO_DONE b => mret (Ok b)
      | IO_ERR => mret (Err EPIPE)
      | _ =>
         w ← wait_fd (j_data_fd j) (match n with IO_WANT_WRITE => POLLOUT | _ => POLLIN end) 1000;
         match w with
         | Ok _ | Err EAGAIN => mret (Err EAGAIN)
         | Err e => mret (Err e)
         end
      end
    else
      w ← wait_fd (j_data_fd j) POLLIN 1000;
      match w with
      | Err e => mret (Err e)
      | Ok _ => os_op (sys_recv (j_data_fd j) len)
      end.

(** [data_tls_setup]. *)
Fixpoint tls_handshake_loop (fuel : nat) : T (option (res ())) :=
  match fuel with
  | O => mret None
  | S f =>
     c ← job_cancelled;
     if (c : bool) then mret (Some (Err ECANCELED))
     else
       h ← tls_op opftp_tls_handshake HS_ERR;
       match h with
       | HS_DONE => mret (Some (Ok ()))
       | HS_ERR => mret (Some (Err EPIPE))
       | _ =>
          j ← get_job;
          w ← wait_fd (j_data_fd j) (match h with HS_WANT_WRITE => POLLOUT | _ => POLLIN end) 1000;
          match w with
          | Ok _ | Err EAGAIN => tls_handshake_loop f
          | Err e => mret (Some (Err e))
          end
       end
  end.

Definition data_tls_setup (fuel : nat) : T (option (res ())) :=
  if negb (s_tls srv) then mret (Some (Err ENOTSUP))
  else
    t ← st_get;
    s ← os_op (opftp_tls_session_create (s_tls srv) (j_data_fd (t_job t)) [] (sys_now_ms (t_os t) + 10000));
    match s with
    | Err _ => mret (Some (Err EPIPE))
    | Ok s => _ ← mod_tjob (λ j, j <| j_tls := Some s |>); tls_handshake_loop fuel
    end.

(** ** LIST *)

(** [LIST_FLUSH]: the batch goes out whole. *)
Definition list_flush (fuel : nat) (batch : bytes) : T (option (res ())) :=
  match batch with
  | [] => mret (Some (Ok ()))
  | _ =>
     rc ← send_all fuel batch;
     match rc with
     | Some (Ok _) => _ ← add_bytes (length batch); mret (Some (Ok ()))
     | _ => mret rc
     end
  end.

(** One line of a listing: the value [n] and the bytes [memcpy]ed. *)
Definition list_line (j : opftp_transfer_job) (de : opftp_dirent) : T bytes := λ t,
  let '(n, line) :=
    if j_nlst j
    then (Z.of_nat (length (de_name de) + 2), bprintf 1024 (de_name de ++ CRLF))
    else if j_mlsd j then opftp_listing_format_mlsd 1024 de
    else opftp_listing_format (sys_localtime_r (t_os t)) 1024 de None in
  (take (Z.to_nat n) line, t).

(** The directory loop, with the batch not sent yet. *)
Fixpoint list_loop (fuel : nat) (d : dirh) (batch : bytes) : T (option (res () * bytes)) :=
  match fuel with
  | O => mret None
  | S n =>
     c ← job_cancelled;
     if (c : bool) then mret (Some (Err ECANCELED, batch))
     else
       e ← fs_op (r_readdir r d);
       match e with
       | None => x ← fail_errno; mret (Some (x, batch))
       | Some None => mret (Some (Ok (), batch))
       | Some (Some de) =>
          j ← get_job;
          line ← list_line j de;
          if (8192 - length batch <? length line)%nat then
            rc ← list_flush n batch;
            match rc with
            | Some (Ok _) => list_loop n d line
            | Some (Err x) => mret (Some (Err x, []))
            | None => mret None
            end
          else list_loop n d (batch ++ line)
       end
  end.

Definition transfer_list (fuel : nat) : T (option (res ())) :=
  j ← get_job;
  st ← fs_op (r_stat r (j_path j));
  match st with
  | None => x ← fail_errno; mret (Some x)
  | Some st =>
     if negb (is_dir (st_mode st)) then
       line ← list_line (j <| j_nlst := false |>) (stat_dirent (j_path j) st);
       list_flush fuel line
     else
       d ← fs_op (r_opendir r (j_path j));
       match d with
       | None => x ← fail_errno; mret (Some x)
       | Some d =>
          rc ← list_loop fuel d [];
          match rc with
          | None => mret None
          | Some (rc, batch) =>
             fl ← list_flush fuel batch;
             _ ← fs_op (r_closedir r d);
             (* the last flush overwrites rc when there was a batch *)
             mret (match batch with [] => Some rc | _ => fl end)
          end
       end
  end.

(** ** RETR *)

Fixpoint retr_loop (fuel : nat) (fd : Z) : T (option (res ())) :=
  match fuel with
  | O => mret None
  | S f =>
     c ← job_cancelled;
     if (c : bool) then mret (Some (Err ECANCELED))
     else
       b ← fs_op (r_read r fd TRANSFER_BUF);
       match b with
       | None => x ← fail_errno; mret (Some x)
       | Some [] => mret (Some (Ok ()))
       | Some b =>
          rc ← send_all f b;
          match rc with
          | Some (Ok _) => _ ← add_bytes (length b); retr_loop f fd
          | _ => mret rc
          end
       end
  end.

(** The REST offset: [seek] to it, or close and fail. *)
Definition seek_rest (fd : Z) (k : T (option (res ()))) : T (option (res ())) :=
  j ← get_job;
  s ← fs_op (r_seek r fd (s64 (j_rest j)) SEEK_SET);
  match s with
  | Some p => if p <? 0 then x ← fail_errno; _ ← fs_op (r_close r fd); mret (Some x) else k
  | None => x ← fail_errno; _ ← fs_op (r_close r fd); mret (Some x)
  end.

Definition transfer_retr (fuel : nat) : T (option (res ())) :=
  j ← get_job;
  fd ← fs_op (r_open r (j_path j) OPFTP_O_RDONLY 0);
  match fd with
  | None => x ← fail_errno; mret (Some x)
  | Some fd =>
     st ← fs_op (r_fstat r fd);
     _ ← (match st with
          | Some st => if is_reg (st_mode st) then mod_tjob (λ j, j <| j_total := st_size st |>) else mret ()
          | None => mret ()
          end);
     let body := rc ← retr_loop fuel fd; _ ← fs_op (r_close r fd); mret rc in
     if 0 <? j_rest j then seek_rest fd body else body
  end.

(** ** STOR and APPE *)

(** [fs_write_all]; every round writes a byte at least. *)
Fixpoint fs_write_all (fuel : nat) (fd : Z) (rest : bytes) : T (res ()) :=
  match rest with
  | [] => mret (Ok ())
  | _ :: _ =>
     match fuel with
     | O => mret (Err EIO)
     | S f =>
        w ← fs_op (r_write r fd rest);
        match w with
        | None => fail_errno
        | Some O => mret (Err EIO)
        | Some (S n) => fs_write_all f fd (drop (S n) rest)
        end
     end
  end.

Definition write_all (fd : Z) (b : bytes) : T (res ()) := fs_write_all (length b) fd b.

Fixpoint stor_loop (fuel : nat) (fd : Z) : T (option (res ())) :=
  match fuel with
  | O => mret None
  | S f =>
     c ← job_cancelled;
     if (c : bool) then mret (Some (Err ECANCELED))
     else
       n ← recv_some TRANSFER_BUF;
       match n with
       | Err EAGAIN => stor_loop f fd
       | Ok [] => mret (Some (Ok ()))
       | Err e => mret (Some (Err e))
       | Ok b =>
          rc ← write_all fd b;
          match rc with
          | Ok _ => _ ← add_bytes (length b); stor_loop f fd
          | Err e => mret (Some (Err e))
          end
       end
  end.

(** The open flags of a store. *)
Definition stor_flags (j : opftp_transfer_job) : Z :=
  let f0 := Z.lor OPFTP_O_WRONLY OPFTP_O_CREAT in
  let f1 := if bool_decide (j_op j = OPFTP_JOB_STOR) && (j_rest j =? 0)
            then Z.lor f0 OPFTP_O_TRUNC else f0 in
  if bool_decide (j_op j = OPFTP_JOB_APPE) then Z.lor f1 OPFTP_O_APPEND else f1.

Definition transfer_stor (fuel : nat) : T (option (res ())) :=
  j ← get_job;
  fd ← fs_op (r_open r (j_path j) (stor_flags j) 420);
  match fd with
  | None => x ← fail_errno; mret (Some x)
  | Some fd =>
     let body := rc ← stor_loop fuel fd; _ ← fs_op (r_close r fd); mret rc in
     if (0 <? j_rest j) && bool_decide (j_op j = OPFTP_JOB_STOR) then seek_rest fd body else body
  end.

(** ** Server-side copy *)

Fixpoint copy_loop (fuel : nat) (fin fout : Z) : T (option (res ())) :=
  match fuel with
  | O => mret None
  | S f =>
     c ← job_cancelled;
     if (c : bool) then mret (Some (Err ECANCELED))
     else
       b ← fs_op (r_read r fin TRANSFER_BUF);
       match b with
       | None => x ← fail_errno; mret (Some x)
       | Some [] => mret (Some (Ok ()))
       | Some b =>
          rc ← write_all fout b;
          match rc with
          | Ok _ => _ ← add_bytes (length b); copy_loop f fin fout
          | Err e => mret (Some (Err e))
          end
       end
  end.

Definition copy_file (fuel : nat) (src dst : bytes) : T (option (res ())) :=
  fin ← fs_op (r_open r src OPFTP_O_RDONLY 0);
  match fin with
  | None => x ← fail_errno; mret (Some x)
  | Some fin =>
     st ← fs_op (r_stat r dst);
     let dst_existed := bool_decide (is_Some st) in
     fout ← fs_op (r_open r dst (Z.lor OPFTP_O_WRONLY (Z.lor OPFTP_O_CREAT OPFTP_O_TRUNC)) 420);
     match fout with
     | None => x ← fail_errno; _ ← fs_op (r_close r fin); mret (Some x)
     | Some fout =>
        rc ← copy_loop fuel fin fout;
        _ ← fs_op (r_close r fin);
        _ ← fs_op (r_close r fout);
        match rc with
        | Some (Ok _) => mret rc
        | None => mret None
        | Some (Err _) =>
           if dst_existed then mret rc else _ ← fs_op (r_unlink r dst); mret rc
        end
     end
  end.

(** The entries of one directory: the stack with its subdirectories pushed. *)
Fixpoint copy_entries (fuel : nat) (dir : dirh) (d : copy_dir) (stack : list copy_dir)
  : T (option (res () * list copy_dir)) :=
  match fuel with
  | O => mret None
  | S n =>
     c ← job_cancelled;
     if (c : bool) then mret (Some (Err ECANCELED, stack))
     else
       e ← fs_op (r_readdir r dir);
       match e with
       | None => x ← fail_errno; mret (Some (x, stack))
       | Some None => mret (Some (Ok (), stack))
       | Some (Some de) =>
          if is_dot (de_name de) then copy_entries n dir d stack
          else match child_rel (cd_rel d) (de_name de) with
          | Err x => mret (Some (Err x, stack))
          | Ok rel =>
             if is_dir (de_mode de) then
               if COPY_MAX_DEPTH <=? cd_depth d + 1 then mret (Some (Err ELOOP, stack))
               else copy_entries n dir d (mk_copy_dir rel (cd_depth d + 1) :: stack)
             else if is_reg (de_mode de) then
               j ← get_job;
               match copy_join OPFTP_MAX_PATH (j_path j) rel, copy_join OPFTP_MAX_PATH (j_dst j) rel with
               | Ok cs, Ok cd =>
                  rc ← copy_file n cs cd;
                  match rc with
                  | Some (Ok _) => copy_entries n dir d stack
                  | Some (Err x) => mret (Some (Err x, stack))
                  | None => mret None
                  end
               | Err x, _ => mret (Some (Err x, stack))
               | _, Err x => mret (Some (Err x, stack))
               end
             else copy_entries n dir d stack
          end
       end
  end.

(** [copy_tree], from a stack of pending directories. *)
Fixpoint copy_tree_loop (fuel : nat) (stack : list copy_dir) : T (option (res ())) :=
  match stack with
  | [] => mret (Some (Ok ()))
  | d :: stack' =>
     match fuel with
     | O => mret None
     | S f =>
        c ← job_cancelled;
        if (c : bool) then mret (Some (Err ECANCELED))
        else
          j ← get_job;
          match copy_join OPFTP_MAX_PATH (j_path j) (cd_rel d),
                copy_join OPFTP_MAX_PATH (j_dst j) (cd_rel d) with
          | Ok srcp, Ok dstp =>
             st ← fs_op (r_stat r dstp);
             mk ← (match st with
                   | Some _ => mret (Some ())
                   | None => fs_op (r_mkdir r dstp 493)
                   end);
             match mk with
             | None => x ← fail_errno; mret (Some x)
             | Some _ =>
                dir ← fs_op (r_opendir r srcp);
                match dir with
                | None => x ← fail_errno; mret (Some x)
                | Some dir =>
                   rc ← copy_entries f dir d stack';
                   _ ← fs_op (r_closedir r dir);
                   match rc with
                   | None => mret None
                   | Some (Err x, _) => mret (Some (Err x))
                   | Some (Ok _, stack'') => copy_tree_loop f stack''
                   end
                end
             end
          | Err x, _ => mret (Some (Err x))
          | _, Err x => mret (Some (Err x))
          end
     end
  end.

Definition copy_tree (fuel : nat) : T (option (res ())) := copy_tree_loop fuel [mk_copy_dir [] 0].

Definition transfer_copy (fuel : nat) : T (option (res ())) :=
  j ← get_job;
  if streq (j_path j) (j_dst j) then mret (Some (Err EINVAL))
  else
    st ← fs_op (r_stat r (j_path j));
    match st with
    | None => x ← fail_errno; mret (Some x)
    | Some st =>
       if is_dir (st_mode st) then copy_tree fuel
       else
         _ ← mod_tjob (λ j, j <| j_total := st_size st |>);
         copy_file fuel (j_path j) (j_dst j)
    end.

(** ** The worker's job *)

(** [opftp_datachan_connect_job] on the worker's state. *)
Definition connect_job : T (res ()) := λ t,
  let '(rc, j', os') := opftp_datachan_connect_job srv (t_job t) (t_os t) in
  (rc, t <| t_job := j' |> <| t_os := os' |>).

(** The bounded close_notify exchange. *)
Fixpoint close_notify_loop (n : nat) : T () :=
  match n with
  | O => mret ()
  | S n' =>
     h ← tls_op opftp_tls_close_notify HS_ERR;
     match h with
     | HS_DONE | HS_ERR => mret ()
     | _ =>
        j ← get_job;
        p ← os_op (sys_poll [(j_data_fd j, match h with HS_WANT_WRITE => POLLOUT | _ => POLLIN end)] 100);
        match p with
        | Ok revs => if bool_decide (Forall (λ x, x = 0) revs) then mret () else close_notify_loop n'
        | Err _ => mret ()
        end
     end
  end.

(** The end of [opftp_transfer_run]: TLS shutdown and the completion fields. *)
Definition finish (rc : res ()) : T () :=
  j ← get_job;
  _ ← (match j_tls j with
       | Some _ =>
          _ ← (match rc with Ok _ => close_notify_loop 50 | Err _ => mret () end);
          _ ← st_modify (λ t, match j_tls (t_job t) with
                              | Some s => t <| t_os := opftp_tls_session_free s (t_os t) |>
                              | None => t
                              end);
          mod_tjob (λ j, j <| j_tls := None |>)
       | None => mret ()
       end);
  st_modify (λ t, t <| t_job := (t_job t) <| j_bytes := t_bytes t |> <| j_result := rc |>
                                          <| j_final_bytes := t_bytes t |> <| j_posted := true |> |>).

(** The data connection, its TLS, and the operation: the part of
    [opftp_transfer_run] before the label [out]. *)
Definition run_body (fuel : nat) : T (option (res ())) :=
  j ← get_job;
  rc ← (if bool_decide (j_op j = OPFTP_JOB_COPY) then mret (Ok ()) else connect_job);
  rc ← (match rc with
        | Err e => mret (Some (Err e))
        | Ok _ => if j_need_tls j then data_tls_setup fuel else mret (Some (Ok ()))
        end);
  match rc with
  | Some (Ok _) =>
     match j_op j with
     | OPFTP_JOB_LIST => transfer_list fuel
     | OPFTP_JOB_RETR => transfer_retr fuel
     | OPFTP_JOB_STOR | OPFTP_JOB_APPE => transfer_stor fuel
     | OPFTP_JOB_COPY => transfer_copy fuel
     end
  | _ => mret rc
  end.

(** [opftp_transfer_run]: [true] when the job was finished within the fuel. *)
Definition opftp_transfer_run (fuel : nat) : T bool :=
  rc ← run_body fuel;
  match rc with
  | None => mret false
  | Some rc => _ ← finish rc; mret true
  end.

End Transfer.

End Transfer.
