(* ===== verification/Server.v ===== *)
(** * src/server.c: command lines, client events and the reactor

    [process_line] and [handle_client_events] run on one client ([HM]);
    [sstate] is the whole reactor state, with the heap of clients, and
    [focus] runs an action on one of them. A client whose reference count is
    0 has been freed; its entry stays in the heap as a tombstone. The
    application's hooks and custom commands are parameters. *)

From S2P Require Import Prelude Types Resolve CLib Sys Tls FsIface FsRooted Dispatch Pollset.
From S2P Require Import Queue World Client Datachan Commands.
Import CLib Tls Client Datachan Commands.

Local Open Scope Z_scope.

Module Server.

(** ** Command parsing *)

Definition prelogin_list : list bytes :=
  [B "USER"; B "PASS"; B "QUIT"; B "HELP"; B "FEAT"; B "SYST"; B "NOOP"; B "OPTS"; B "AUTH";
   B "PBSZ"; B "PROT"].

Definition prelogin_command (name : bytes) : bool := existsb (streq name) prelogin_list.

(** The name of a command, upper-cased into a buffer of [n + 1] bytes, and
    the rest of the line. *)
Fixpoint cmd_name (n : nat) (p : bytes) : bytes * bytes :=
  match n, p with
  | S n', c :: r =>
     if ceq c SPACE then ([], p)
     else let '(a, q) := cmd_name n' r in (toupper c :: a, q)
  | _, _ => ([], p)
  end.

(** The name and the parameter of a line. *)
Definition parse_line (line : bytes) : bytes * bytes :=
  let '(name, p) := cmd_name 7 (skip_spaces line) in (name, skip_spaces p).

Section Client.
Context {FS OS : Type} `{FsOps FS} `{SysOps OS}.
Context (custom : nat → option bytes → HM FS OS ()).
Context (disconnect_hook : HM FS OS ()).

(** [opftp_dispatch_call]: [true] when a handler ran. *)
Definition opftp_dispatch_call (name : bytes) (param : option bytes) : HM FS OS bool :=
  s ← get_srv;
  match Dispatch.dispatch_lookup (s_dispatch s) name with
  | Some f => _ ← cmd_run custom f param; mret true
  | None => mret false
  end.

Definition process_line (line : bytes) : HM FS OS () :=
  let '(name, param) := parse_line line in
  if bool_decide (name = []) then mret ()
  else
    c ← get_cl;
    if negb (c_logged_in c) && negb (prelogin_command name)
    then opftp_client_send_reply 530 (B "Not logged in.")
    else
      handled ← opftp_dispatch_call name (Some param);
      if (handled : bool) then mret ()
      else opftp_client_send_reply 502 (B "Command not implemented.").

(** [client_disconnect]. *)
Definition client_disconnect : HM FS OS () :=
  c ← get_cl; h ← st_get;
  _ ← (match s_pollset (h_srv h) with
       | Some ps =>
          if 0 <=? c_poll_handle c
          then mod_srv (λ s, s <| s_pollset := Some (Pollset.opftp_pollset_remove ps (c_poll_handle c)) |>)
          else mret ()
       | None => mret ()
       end);
  _ ← mod_cl (λ c, c <| c_poll_handle := -1 |>);
  _ ← (match c_job c with
       | Some id => _ ← cancel_job id; mod_cl (λ c, c <| c_job := None |>)
       | None => mret ()
       end);
  _ ← mod_cl (λ c, c <| c_generation := c_generation c + 1 |>);
  _ ← close_pasv;
  _ ← (match c_tls c with
       | Some t =>
          _ ← mod_os (opftp_tls_session_free t);
          mod_cl (λ c, c <| c_tls := None |> <| c_tls_handshaking := false |>)
       | None => mret ()
       end);
  _ ← opftp_close_fd (c_fd c);
  _ ← mod_cl (λ c, c <| c_fd := -1 |>);
  _ ← mod_srv (λ s, s <| s_clients := filter (λ x, x ≠ h_cid h) (s_clients s) |>);
  _ ← disconnect_hook;
  opftp_client_release.

(** A step of the control handshake. *)
Definition handshake_step : HM FS OS hs_res := λ h,
  match c_tls (h_cl h) with
  | None => (HS_ERR, h)
  | Some t =>
     let '(r, (t', os')) := opftp_tls_handshake t (h_os h) in
     (r, h <| h_os := os' |> <| h_cl := (h_cl h) <| c_tls := Some t' |> |>)
  end.

Definition client_read : HM FS OS Z := λ h,
  let '(n, c', os') := opftp_client_read (h_cl h) (h_os h) in
  (n, h <| h_cl := c' |> <| h_os := os' |>).

Definition client_getline (outsz : nat) : HM FS OS (option bytes) := λ h,
  let '(l, c') := opftp_client_getline (h_cl h) outsz in (l, h <| h_cl := c' |>).

(** The commands of the buffered lines; a line is a C string. *)
Fixpoint line_loop (fuel : nat) : HM FS OS () :=
  match fuel with
  | O => mret ()
  | S f =>
     l ← client_getline 1024;
     match l with
     | None => mret ()
     | Some line =>
        _ ← process_line (cstr_of line);
        c ← get_cl;
        if c_disconnect_requested c || c_tls_handshaking c then mret () else line_loop f
     end
  end.

(** The read loop: the last result of [opftp_client_read], [None] when data
    kept arriving for [fuel] rounds. *)
Fixpoint read_loop (fuel : nat) : HM FS OS (option Z) :=
  match fuel with
  | O => mret None
  | S f =>
     n ← client_read;
     if n <? 0 then mret (Some n)
     else if n =? 0 then
       _ ← mod_cl (λ c, c <| c_disconnect_requested := true |>); mret (Some n)
     else
       c ← get_cl;
       _ ← line_loop (S (c_rlen c));
       c' ← get_cl;
       if c_disconnect_requested c' || c_tls_handshaking c' then mret (Some n) else read_loop f
  end.

Definition handle_client_events (fuel : nat) (revents : Z) : HM FS OS () :=
  c ← get_cl;
  if c_tls_handshaking c then
    r ← handshake_step;
    _ ← (match r with
         | HS_DONE =>
            _ ← mod_cl (λ c, c <| c_tls_handshaking := false |>);
            pollset_mod_client (Z.lor POLLIN POLLPRI)
         | HS_WANT_READ => pollset_mod_client (Z.lor POLLIN POLLPRI)
         | HS_WANT_WRITE => pollset_mod_client (Z.lor POLLOUT POLLPRI)
         | HS_ERR => mod_cl (λ c, c <| c_disconnect_requested := true |>)
         end);
    c' ← get_cl;
    if c_disconnect_requested c' then client_disconnect else mret ()
  else
    _ ← (if has revents POLLPRI then _ ← opftp_dispatch_call (B "ABOR") None; mret ()
         else mret ());
    _ ← (if has revents POLLIN then
           n ← read_loop fuel;
           match n with
           | Some n =>
              if (n <? 0) && negb (n =? -2)
              then mod_cl (λ c, c <| c_disconnect_requested := true |>) else mret ()
           | None => mret ()
           end
         else mret ());
    _ ← (if has revents (Z.lor POLLERR (Z.lor POLLHUP POLLNVAL))
         then mod_cl (λ c, c <| c_disconnect_requested := true |>) else mret ());
    c' ← get_cl;
    if c_disconnect_requested c' then client_disconnect else mret ().

End Client.

(** ** Configuration *)

Definition snapshot0 : opftp_snapshot := mk_snapshot false 0 [] 0 0 [].

(** [opftp_server_create] with the authentication callback and the banner
    flag of its callbacks; the backend is the POSIX one or another. *)
Definition opftp_server_create (auth : option (bytes → bytes → bool)) (skip_banner posix : bool)
  : opftp_server :=
  mk_server auth skip_banner 2121 posix None (B "/") [] 2 5000 false false false false false 0 0
    (-1) 0 false false false false None [] [] [] false false false None
    (Queue.mk_ring [] 0 0 0 0) 0 false 0 snapshot0.

Definition opftp_server_set_port (port : Z) (s : opftp_server) := s <| s_port := u16 port |>.

Definition opftp_server_set_root (root : bytes) (s : opftp_server) : opftp_server :=
  if bool_decide (head root = Some SLASH)
  then s <| s_root := bprintf Resolve.OPFTP_MAX_PATH root |> else s.

Definition opftp_server_set_root_runtime (root : bytes) (s : opftp_server)
  : res () * opftp_server :=
  if bool_decide (head root = Some SLASH)
  then (Ok (), s <| s_root := bprintf Resolve.OPFTP_MAX_PATH root |>) else (Err EINVAL, s).

Definition opftp_server_set_workers (n : Z) (s : opftp_server) : opftp_server :=
  if (0 <? n) && (n <=? 64) then s <| s_workers_req := n |> else s.

Definition opftp_server_set_stop_timeout (seconds : Z) (s : opftp_server) : opftp_server :=
  s <| s_stop_timeout_ms := if 0 <? seconds then seconds * 1000 else 1000 |>.

(** [opftp_server_set_tls]; [rc] is the result of [opftp_tls_ctx_init]. *)
Definition opftp_server_set_tls (rc : res ()) (s : opftp_server) : res () * opftp_server :=
  match rc with Ok _ => (Ok (), s <| s_tls := true |>) | Err e => (Err e, s) end.

Definition opftp_server_set_require_tls (on : bool) (s : opftp_server) :=
  s <| s_require_tls := on |>.
Definition opftp_server_set_allow_stop (on : bool) (s : opftp_server) :=
  s <| s_allow_stop := on |>.
Definition opftp_server_set_pasv_range (lo hi : Z) (s : opftp_server) :=
  s <| s_pasv_min := u16 lo |> <| s_pasv_max := u16 hi |>.
Definition opftp_server_set_v4only (on : bool) (s : opftp_server) := s <| s_v4only := on |>.
Definition opftp_server_bound_port (s : opftp_server) : Z := s_port s.

(** ** The reactor state *)

Record sstate (FS OS : Type) := mk_sstate {
  ss_srv : opftp_server;
  ss_clients : gmap cid opftp_client;
  ss_jobs : gmap jid opftp_transfer_job;
  ss_fresh : positive;
  ss_fs : FS;
  ss_errno : errno;
  ss_os : OS;
  ss_out : list (cid * bytes);
  ss_seq : Z
}.
Arguments mk_sstate {_ _}.
Arguments ss_srv {_ _}.
Arguments ss_clients {_ _}.
Arguments ss_jobs {_ _}.
Arguments ss_fresh {_ _}.
Arguments ss_fs {_ _}.
Arguments ss_errno {_ _}.
Arguments ss_os {_ _}.
Arguments ss_out {_ _}.
Arguments ss_seq {_ _}.

#[export] Instance sstate_settable FS OS : Settable (sstate FS OS) := λ x,
  mk_sstate (ss_srv x) (ss_clients x) (ss_jobs x) (ss_fresh x) (ss_fs x) (ss_errno x)
    (ss_os x) (ss_out x) (ss_seq x).

Abbreviation SM FS OS A := (ST (sstate FS OS) A).

Section Reactor.
Context {FS OS : Type} `{FsOps FS} `{SysOps OS}.
Context (custom : nat → option bytes → HM FS OS ()).
Context (connect_hook disconnect_hook : HM FS OS ()).

Definition enter (id : cid) (c : opftp_client) (w : sstate FS OS) : hstate FS OS :=
  mk_hstate id c (ss_srv w) (ss_jobs w) (ss_fresh w) (ss_fs w) (ss_errno w) (ss_os w) [] (ss_seq w).

Definition leave (id : cid) (h : hstate FS OS) (w : sstate FS OS) : sstate FS OS :=
  mk_sstate (h_srv h) (<[id := h_cl h]> (ss_clients w)) (h_jobs h) (h_fresh h) (h_fs h) (h_errno h)
    (h_os h) (ss_out w ++ ((id,.) <$> h_out h)) (h_seq h).

(** Run an action on the client [id]. *)
Definition focus (id : cid) (m : HM FS OS ()) : SM FS OS () := λ w,
  match ss_clients w !! id with
  | None => ((), w)
  | Some c => let '(_, h) := m (enter id c w) in ((), leave id h w)
  end.

Definition get_server : SM FS OS opftp_server := st_gets ss_srv.
Definition mod_server (f : opftp_server → opftp_server) : SM FS OS () :=
  st_modify (λ w, w <| ss_srv := f (ss_srv w) |>).

(** ** Accepting clients *)

Definition sockaddr_len (a : sockaddr) : Z :=
  match a with SA_in _ _ => 16 | SA_in6 _ _ => 28 | SA_unspec => 0 end.

(** A client that was accepted: its entry, its pollset slot and its place at
    the head of the list. *)
Definition add_client (fd : Z) (peer : sockaddr) : SM FS OS (option cid) := λ w,
  let c := opftp_client_new fd peer (sockaddr_len peer) in
  match s_pollset (ss_srv w) with
  | None => (None, w <| ss_os := sys_close (-1) (sys_close fd (ss_os w)) |>)
  | Some ps =>
     let id := ss_fresh w in
     match Pollset.opftp_pollset_add ps fd (Z.lor POLLIN POLLPRI) (Some id) with
     | (None, _) => (None, w <| ss_os := sys_close (-1) (sys_close fd (ss_os w)) |>)
     | (Some hd, ps') =>
        (Some id,
         w <| ss_clients := <[id := c <| c_poll_handle := Z.of_nat hd |>]> (ss_clients w) |>
           <| ss_fresh := Pos.succ id |>
           <| ss_srv := (ss_srv w) <| s_pollset := Some ps' |>
                                   <| s_clients := id :: s_clients (ss_srv w) |> |>)
     end
  end.

(** The greeting of a new client. *)
Definition greet : HM FS OS () :=
  s ← get_srv;
  _ ← (if s_skip_banner s then mret () else opftp_client_send_reply 220 (B "OpenPS3FTP ready."));
  _ ← (if s_require_tls s then
         _ ← opftp_client_send_reply 534 (B "AUTH TLS required.");
         mod_cl (λ c, c <| c_disconnect_requested := true |>)
       else mret ());
  connect_hook.

Fixpoint accept_clients (fuel : nat) : SM FS OS () := λ w,
  match fuel with
  | O => ((), w)
  | S f =>
     match sys_accept (s_listen_fd (ss_srv w)) (ss_os w) with
     | (Err e, os') =>
        let w' := w <| ss_os := os' |> <| ss_errno := e |> in
        if bool_decide (e = EINTR) then accept_clients f w' else ((), w')
     | (Ok (fd, peer), os') =>
        let '(id, w1) := add_client fd peer (w <| ss_os := os' |>) in
        match id with
        | None => accept_clients f w1
        | Some id => accept_clients f (snd (focus id greet w1))
        end
     end
  end.

(** ** Worker results *)

(** [opftp_client_drain_replies]: in order, dropping stale generations. *)
Definition drain_one (p : opftp_pending_reply) : SM FS OS () :=
  focus (pr_c p)
    (c ← get_cl;
     _ ← (if c_generation c =? pr_generation p then send_raw (pr_text p) else mret ());
     opftp_client_release).

Fixpoint drain_list (ps : list opftp_pending_reply) : SM FS OS () :=
  match ps with [] => mret () | p :: ps' => _ ← drain_one p; drain_list ps' end.

Definition opftp_client_drain_replies : SM FS OS () :=
  s ← get_server;
  _ ← mod_server (λ s, s <| s_replies := [] |>);
  drain_list (s_replies s).

Fixpoint complete_list (js : list jid) : SM FS OS () := λ w,
  match js with
  | [] => ((), w)
  | id :: js' =>
     match ss_jobs w !! id with
     | None => complete_list js' w
     | Some j => complete_list js' (snd (focus (j_client j) (opftp_datachan_complete id) w))
     end
  end.

Definition drain_completions : SM FS OS () :=
  s ← get_server;
  _ ← mod_server (λ s, s <| s_completions := [] |>);
  complete_list (s_completions s).

(** ** Snapshot *)

Definition job_op_name (op : opftp_job_op) : bytes :=
  match op with
  | OPFTP_JOB_LIST => B "LIST" | OPFTP_JOB_RETR => B "RETR" | OPFTP_JOB_STOR => B "STOR"
  | OPFTP_JOB_APPE => B "APPE" | OPFTP_JOB_COPY => B "COPY"
  end.

(** ["%u.%u.%u.%u"] on four address bytes. *)
Definition dotted (b : bytes) : bytes :=
  let oct := λ i : nat, fmt_u (cv (default NUL (b !! i))) in
  oct 0%nat ++ B "." ++ oct 1%nat ++ B "." ++ oct 2%nat ++ B "." ++ oct 3%nat.

Definition format_peer (p : sockaddr) : bytes :=
  match p with
  | SA_in6 a _ => if opftp_is_v4mapped a then bprintf 64 (dotted (drop 12 a))
                  else bprintf 64 (inet_ntop6 a)
  | SA_in a _ => bprintf 64 (dotted a)
  | SA_unspec => B "?"
  end.

Definition snap_client (jobs : gmap jid opftp_transfer_job) (c : opftp_client)
  : opftp_snapshot_client :=
  let base := mk_snap_client (format_peer (c_peer c)) (bprintf 64 (c_user c))
                (bprintf 1024 (c_cwd c)) (c_logged_in c) in
  match c_job c with
  | Some id =>
     match jobs !! id with
     | Some j => base true (bprintf 8 (job_op_name (j_op j))) (bprintf 1024 (j_path j))
                   (j_bytes j) (j_total j)
     | None => base true [] [] 0 0
     end
  | None => base false [] [] 0 0
  end.

Definition snapshot_refresh : SM FS OS () := λ w,
  let s := ss_srv w in
  let cls := take 16 (omap (λ id, ss_clients w !! id) (s_clients s)) in
  let snap := mk_snapshot (s_started s) (s_port s) (bprintf 1024 (s_root s)) (s_workers_req s)
                (Z.of_nat (length cls)) (snap_client (ss_jobs w) <$> cls) in
  ((), w <| ss_srv := s <| s_snap_cache := snap |> |>).

Definition opftp_server_snapshot (s : opftp_server) : opftp_snapshot := s_snap_cache s.

(** [apply_root_change]. *)
Definition apply_root_change : SM FS OS () := mod_server (λ s,
  let want := bprintf Resolve.OPFTP_MAX_PATH (s_root s) in
  if streq want (s_fs_root_applied s) then s
  else match opftp_fs_rooted (s_fs_posix s) want with
  | None => s
  | Some r => s <| s_fs := Some r |> <| s_fs_root_applied := bprintf Resolve.OPFTP_MAX_PATH want |>
  end).

(** ** The loop *)

(** The events of one iteration, until a stop is requested. *)
Fixpoint handle_events (fuel : nat) (evs : list (option cid * Z)) : SM FS OS () := λ w,
  match evs with
  | [] => ((), w)
  | (None, ev) :: evs' =>
     let w' := if has ev POLLIN then snd (accept_clients fuel w) else w in
     handle_events fuel evs' w'
  | (Some id, ev) :: evs' =>
     let w' := snd (focus id (handle_client_events custom disconnect_hook fuel ev) w) in
     if s_stopping (ss_srv w') then ((), w') else handle_events fuel evs' w'
  end.

Definition poll_timeout (w : sstate FS OS) : Z :=
  if existsb (λ id, match ss_clients w !! id with
                    | Some c => bool_decide (is_Some (c_job c)) | None => false end)
       (s_clients (ss_srv w))
  then 100 else 1000.

(** [opftp_pollset_wait] on the server's pollset. *)
Definition wait_pollset : SM FS OS (res nat) := λ w,
  match s_pollset (ss_srv w) with
  | None => (Err EFAULT, w)
  | Some ps =>
     let '(r, ps', os') := Pollset.opftp_pollset_wait ps (poll_timeout w) (ss_os w) in
     (r, w <| ss_srv := (ss_srv w) <| s_pollset := Some ps' |> |> <| ss_os := os' |>)
  end.

(** One iteration of [opftp_reactor_loop]; [false] when the loop ends. *)
Definition reactor_iter (fuel : nat) : SM FS OS bool :=
  n ← wait_pollset;
  _ ← opftp_client_drain_replies;
  _ ← drain_completions;
  _ ← apply_root_change;
  _ ← snapshot_refresh;
  match n with
  | Err _ => mret false
  | Ok _ =>
     s ← get_server;
     _ ← handle_events fuel
           (match s_pollset s with Some ps => Pollset.opftp_pollset_collect ps 20 | None => [] end);
     s' ← get_server;
     mret (negb (s_stopping s'))
  end.

(** The disconnection of every client at the end of the loop. *)
Definition disconnect_all : SM FS OS () := λ w,
  ((), foldl (λ w id, snd (focus id (client_disconnect disconnect_hook) w)) w (s_clients (ss_srv w))).

Definition reactor_teardown : SM FS OS () :=
  _ ← opftp_client_drain_replies;
  _ ← drain_completions;
  _ ← disconnect_all;
  _ ← opftp_client_drain_replies;
  s ← get_server;
  _ ← st_modify (λ w, w <| ss_os := sys_close (s_listen_fd s) (ss_os w) |>);
  mod_server (λ s, s <| s_reactor_tid_set := false |> <| s_listen_fd := -1 |>
                     <| s_snap_cache := (s_snap_cache s) <| sn_started := false |>
                                                         <| sn_num_clients := 0 |> |>).

(** The start of [opftp_reactor_loop]: pollset, identity, listener. *)
Definition reactor_setup : SM FS OS bool := λ w,
  match sys_pipe (ss_os w) with
  | (Err e, os') => (false, w <| ss_os := os' |> <| ss_errno := e |>)
  | (Ok pipefd, os') =>
     let s := ss_srv w in
     let '(h, ps) := Pollset.opftp_pollset_add (Pollset.opftp_pollset_create pipefd)
                       (s_listen_fd s) POLLIN None in
     (true, w <| ss_os := os' |>
              <| ss_srv := s <| s_reactor_tid_set := true |> <| s_pollset := Some ps |>
                   <| s_poll_handle_listener := match h with Some n => Z.of_nat n | None => -1 end |>
                   <| s_clients := [] |> |>)
  end.

(** [opftp_reactor_loop] for at most [rounds] iterations; [true] when it
    ended by itself. *)
Fixpoint reactor_rounds (rounds fuel : nat) : SM FS OS bool := λ w,
  if s_stopping (ss_srv w) then (true, w)
  else match rounds with
  | O => (false, w)
  | S n =>
     match reactor_iter fuel w with
     | (true, w') => reactor_rounds n fuel w'
     | (false, w') => (true, w')
     end
  end.

Definition opftp_reactor_loop (rounds fuel : nat) : SM FS OS bool :=
  ok ← reactor_setup;
  if (ok : bool) then
    fin ← reactor_rounds rounds fuel;
    if (fin : bool) then _ ← reactor_teardown; mret true else mret false
  else mret true.

(** ** The listener *)

Definition listen_on (fam : family) (mk : Z → sockaddr) (s : opftp_server) (os : OS)
  : res Z * opftp_server * OS :=
  match sys_socket fam os with
  | (Err e, os1) => (Err e, s, os1)
  | (Ok fd, os1) =>
     match sys_bind fd (mk (s_port s)) os1 with
     | (Err e, os2) => (Err e, s, sys_close fd os2)
     | (Ok _, os2) =>
        match sys_listen fd os2 with
        | (Err e, os3) => (Err e, s, sys_close fd os3)
        | (Ok _, os3) =>
           let '(a, os4) := sys_getsockname fd os3 in
           let port := match a with Ok a => sockaddr_port a | Err _ => s_port s end in
           (Ok fd, s <| s_port := port |> <| s_listen_fd := fd |>, os4)
        end
     end
  end.

Definition bind_listener (s : opftp_server) (os : OS) : res () * opftp_server * OS :=
  let try4 os :=
    match listen_on AF_INET (SA_in (zero_addr 4)) s os with
    | (Ok _, s', os') => (Ok (), s', os')
    | (Err e, s', os') => (Err e, s', os')
    end in
  if s_v4only s then try4 os
  else match listen_on AF_INET6 (SA_in6 (zero_addr 16)) s os with
       | (Ok _, s', os') => (Ok (), s', os')
       | (Err _, _, os') => try4 os'
       end.

End Reactor.

(** ** Initialisation *)

Section Init.
Context {FS OS : Type} `{FsOps FS} `{SysOps OS}.

(** [opftp_datachan_init]; [spawned] tells whether all worker threads could
    be created. *)
Definition opftp_datachan_init (spawned : bool) (s : opftp_server) : res () * opftp_server :=
  let s1 := s <| s_queue := Queue.queue_init (Z.to_nat (s_workers_req s)) |>
              <| s_num_workers := if 0 <? s_workers_req s then s_workers_req s else 2 |>
              <| s_pool_running := true |> <| s_workers_alive := 0 |> in
  if spawned then (Ok (), s1) else (Err ENOMEM, s1 <| s_pool_running := false |>).

(** [opftp_reactor_init]; [after] is the application's [after_commands]. *)
Definition opftp_reactor_init (after : cmd_table → cmd_table) (spawned : bool)
  (s : opftp_server) (os : OS) : res () * opftp_server * OS :=
  match bind_listener s os with
  | (Err e, s1, os1) => (Err e, s1, os1)
  | (Ok _, s1, os1) =>
     let t := after (opftp_commands_init (s_allow_stop s1)
                       (Dispatch.opftp_dispatch_init (s_dispatch s1))) in
     match opftp_datachan_init spawned (s1 <| s_dispatch := t |>) with
     | (Err e, s2) => (Err e, s2, os1)
     | (Ok _, s2) =>
        match opftp_fs_rooted (s_fs_posix s2) (s_root s2) with
        | None => (Err ENOMEM, s2, os1)
        | Some r =>
           (Ok (), s2 <| s_fs := Some r |>
                      <| s_fs_root_applied := bprintf Resolve.OPFTP_MAX_PATH (s_root s2) |>, os1)
        end
     end
  end.

Definition publish_ready (s : opftp_server) : opftp_server :=
  s <| s_snap_cache := mk_snapshot true (s_port s) (bprintf 1024 (s_root s)) (s_workers_req s) 0
                         (sn_clients (s_snap_cache s)) |>
    <| s_ready := true |> <| s_starting := false |>.

End Init.

End Server.
