(* ===== verification/Tui.v ===== *)
(** * app/tui.c: the terminal screen

    The views, drawn on the canvas of [Canvas], the keys, and the loop that
    reads keys, takes a snapshot of the server, updates the model and renders.
    A drawing is [None] when the code would write outside of the canvas or
    read past the end of a string. Every reading of the clock is a value of
    its own, named by the place that takes it. *)

From S2P Require Import Prelude CLib World Ui Canvas Server.
Import CLib Ui Canvas Server.

Local Open Scope Z_scope.

Module Tui.

(** ** The palette *)

Definition C_BG : Z := 0x0B0E11.
Definition C_PANEL : Z := 0x10151A.
Definition C_INSET : Z := 0x0D1216.
Definition C_LINE : Z := 0x1E262E.
Definition C_RAISE : Z := 0x2A3640.
Definition C_TEXT : Z := 0xC8D0D8.
Definition C_BRIGHT : Z := 0xE8EEF4.
Definition C_MUTED : Z := 0x7D8894.
Definition C_LABEL : Z := 0x5A7684.
Definition C_ACC : Z := 0x3FAE6A.
Definition C_BLUE : Z := 0x5E8CA8.
Definition C_WARN : Z := 0xE8A23A.
Definition C_ERR : Z := 0xD0504A.
Definition C_ERRBG : Z := 0x2A1512.
Definition C_WARNBG : Z := 0x3A2A10.
Definition C_ERRLINE : Z := 0x5A2A28.
Definition C_WARNLINE : Z := 0x6A4A1A.
Definition C_FOCUS : Z := 0x16222B.
Definition C_EMPTY : Z := 0x5A6570.
Definition C_EMSG : Z := 0xF0B0AA.
Definition C_EMSW : Z := 0xE8C06A.

(** The symbols: brand square, section bar, full and light blocks, edge tick,
    bullet, arrows, marker, cursor, middle dot, dashes and the cross. *)
Definition SQUARE : bytes := [chr 226; chr 150; chr 160].
Definition SECTION_BAR : bytes := [chr 226; chr 150; chr 141].
Definition FULL_BLOCK : bytes := [chr 226; chr 150; chr 136].
Definition LIGHT_SHADE : bytes := [chr 226; chr 150; chr 145].
Definition EDGE_TICK : bytes := [chr 226; chr 150; chr 142].
Definition BULLET : bytes := [chr 226; chr 151; chr 143].
Definition UP_ARROW : bytes := [chr 226; chr 134; chr 145].
Definition DOWN_ARROW : bytes := [chr 226; chr 134; chr 147].
Definition LEFT_ARROW : bytes := [chr 226; chr 134; chr 144].
Definition RIGHT_ARROW : bytes := [chr 226; chr 134; chr 146].
Definition MARKER : bytes := [chr 226; chr 150; chr 182].
Definition CURSOR : bytes := [chr 226; chr 150; chr 140].
Definition MIDDOT : bytes := [chr 194; chr 183].
Definition EN_DASH : bytes := [chr 226; chr 128; chr 147].
Definition TIMES : bytes := [chr 195; chr 151].

(** ** State *)

(** What the screen adds to the model: [version], [local_ip], [snap_ok],
    [quit], and the static [last_render_us]. *)
Record tui := mk_tui {
  g_ui : opftp_ui; g_version : bytes; g_local_ip : bytes; g_snap_ok : bool; g_quit : bool; last_render_us : Z
}.
#[export] Instance tui_settable : Settable tui := λ x,
  mk_tui (g_ui x) (g_version x) (g_local_ip x) (g_snap_ok x) (g_quit x) (last_render_us x).

(** Where the clock is read: at the uptime, for a chip and one of its records,
    for a row of the client table, for the cursor, for an event of an edit
    (the key's index), for the poll, before and after rendering. *)
Inductive site :=
  | AtUptime | AtChip (i : Z) (k : nat) | AtClient (i : Z) | AtBlink | AtEdit (i : nat) | AtPoll | AtSince | AtRendered.

(** [get_size]; [ws] is what the ioctl gives. *)
Definition get_size (ws : option (Z * Z)) : Z * Z :=
  match ws with
  | Some (r, c) => if (10 <? r) && (30 <? c) then (r, c) else (24, 80)
  | None => (24, 80)
  end.

(** An entry of a ring, counted back from its head. *)
Definition ring_at {A} (arr : list A) (head i : Z) (cap : nat) : option A :=
  let k := Z.rem (head - i + Z.of_nat cap) (Z.of_nat cap) in
  if k <? 0 then None else arr !! Z.to_nat k.

Definition is_up (op : bytes) : bool := streq op (B "RETR") || streq op (B "LIST").
Definition arrow (up : bool) : bytes := if up then UP_ARROW else DOWN_ARROW.

Definition result_text (r : Z) : bytes :=
  if r =? OPFTP_UI_H_OK then B "OK" else if r =? OPFTP_UI_H_ABORTED then B "ABORTED" else B "ERROR".
Definition result_color (r : Z) : Z :=
  if r =? OPFTP_UI_H_OK then C_ACC else if r =? OPFTP_UI_H_ABORTED then C_WARN else C_ERR.

Section Screen.
Context (scr_rows scr_cols : Z).
Context (now_us : site → Z) (time : Z).

Local Notation put := (Canvas.put scr_rows scr_cols).
Local Notation txt := (Canvas.txt scr_rows scr_cols).
Local Notation txt_r := (Canvas.txt_r scr_rows scr_cols).
Local Notation txt_c := (Canvas.txt_c scr_rows scr_cols).
Local Notation hline := (Canvas.hline scr_rows scr_cols).
Local Notation vline := (Canvas.vline scr_rows scr_cols).
Local Notation box := (Canvas.box scr_rows scr_cols).
Local Open Scope draw_scope.

(** ** Header, footer, section label, progress bar *)

(** The tabs from view [i] on, the first at column [x]. *)
Fixpoint draw_tabs (views : list Z) (view x : Z) : draw :=
  match views with
  | [] => nothing
  | i :: views' =>
     let n := opftp_ui_view_name i in
     with_value (uw n) (λ w,
       (if view =? i
        then put 0 x C_BG C_ACC (B " ") ;; put 0 (x + 1) C_BG C_ACC n ;; put 0 (x + 1 + w) C_BG C_ACC (B " ")
        else put 0 x 0 0 (B " ") ;; put 0 (x + 1) C_MUTED 0 n ;; put 0 (x + 1 + w) 0 0 (B " ")) ;;
       draw_tabs views' view (x + w + 4))
  end.

Fixpoint tabs_width (views : list Z) : option Z :=
  match views with
  | [] => Some 0
  | i :: views' => w ← uw (opftp_ui_view_name i); r ← tabs_width views'; Some (w + 4 + r)
  end.

Definition VIEWS : list Z := range 0 (OPFTP_UI_V_COUNT - 1).

(** ["%02d:%02d"]. *)
Definition hh_mm (h m : Z) : bytes := bprintf 8 (fmt_0d 2 h ++ B ":" ++ fmt_0d 2 m).

Definition draw_header (g : tui) : draw :=
  put 0 0 C_ACC 0 SQUARE ;;
  txt 0 2 C_BRIGHT 0 (B "OpenPS3FTP") ;;
  with_value (uw (B "OpenPS3FTP")) (λ w, txt 0 (2 + w + 2) C_LABEL 0 (g_version g)) ;;
  with_value (gmtime_r time) (λ t,
    let clock := hh_mm (tm_hour t) (tm_min t) in
    with_value (tabs_width VIEWS) (λ tabs_w,
      with_value (uw clock) (λ cw, draw_tabs VIEWS (u_view (g_ui g)) (scr_cols - cw - 2 - tabs_w))) ;;
    txt_r 0 (scr_cols - 1) C_LABEL 0 clock) ;;
  hline 1 0 (scr_cols - 1) H_BAR C_LINE 0.

Definition draw_footer (ui : opftp_ui) : draw :=
  let row := scr_rows - 1 in
  let name := opftp_ui_view_name (u_view ui) in
  let right := bprintf 40 (B " " ++ EM_DASH ++ B " VIEW " ++ fmt_d (u_view ui + 1) ++ B "/" ++ fmt_d OPFTP_UI_V_COUNT) in
  hline (row - 1) 0 (scr_cols - 1) H_BAR C_LINE 0 ;;
  txt row 0 C_LABEL 0 (B "? help   Enter detail   Esc back   q quit") ;;
  with_value (uw name) (λ vw,
    with_value (uw right) (λ rw,
      let rx := scr_cols - 1 - (vw + rw) in
      txt row rx C_MUTED 0 name ;; txt row (rx + vw) C_LABEL 0 right)).

Definition slab (y : Z) (label : bytes) (cnt rtext : option bytes) : draw :=
  put y 0 C_ACC 0 SECTION_BAR ;;
  txt y 2 C_LABEL 0 label ;;
  with_value (uw label) (λ lw,
    let x := 2 + lw + 2 in
    match cnt with
    | Some cnt => txt y x C_LINE 0 (B "[") ;; txt y (x + 1) C_MUTED 0 cnt ;;
                  with_value (uw cnt) (λ w, txt y (x + 1 + w) C_LINE 0 (B "]"))
    | None => nothing
    end) ;;
  match rtext with Some rtext => txt_r y (scr_cols - 1) C_LABEL 0 rtext | None => nothing end.

Definition progress_bar (y x w b total : Z) (up : bool) : draw :=
  let fillc := if up then C_BLUE else C_ACC in
  let pct := if negb (total =? 0) && (b <? total) then s32 (u64 (b * 100) / total) else 100 in
  let pct := if 100 <? pct then 100 else pct in
  let filled := Z.quot (w * pct) 100 in
  for_each (range 0 (w - 1)) (λ c,
    if c <? filled then put y (x + c) fillc C_INSET FULL_BLOCK else put y (x + c) C_MUTED C_INSET LIGHT_SHADE).

(** ** The status view *)

(** One row of the strip. *)
Definition draw_event (ui : opftp_ui) (y i : Z) : draw :=
  with_value (ring_at (u_events ui) (u_ev_head ui) i OPFTP_UI_MAX_EVENTS) (λ e,
    let col := if ev_warn e then C_WARN else C_ERR in
    let bg := if ev_warn e then C_WARNBG else C_ERRBG in
    let edge := if ev_warn e then C_WARNLINE else C_ERRLINE in
    hline (y + i) 0 (scr_cols - 1) (B " ") 0 bg ;;
    put (y + i) 0 col bg EDGE_TICK ;;
    put (y + i) 1 edge bg (B " ") ;;
    put (y + i) 3 col bg (B "!") ;;
    txt (y + i) 5 (if ev_warn e then C_EMSW else C_EMSG) bg (ev_text e) ;;
    if (i =? 0) && (2 <=? u_ev_count ui)
    then txt_r y (scr_cols - 2) col bg (bprintf 24 (fmt_d (u_ev_count ui) ++ B " RECENT")) else nothing).

(** The number of rows of the strip, and the strip. *)
Definition event_rows (ui : opftp_ui) : Z := if u_ev_count ui <? 2 then u_ev_count ui else 2.
Definition draw_event_strip (ui : opftp_ui) (y : Z) : draw :=
  for_each (range 0 (event_rows ui - 1)) (draw_event ui y).

(** A value of the card over its label. *)
Definition draw_stat (y seg width : Z) (val label : bytes) : draw :=
  with_value (t_trunc 20 val width) (λ v,
    put (y + 1) seg C_BRIGHT C_PANEL v ;; put (y + 2) seg C_LABEL C_PANEL label).

Definition draw_status_card (g : tui) (y : Z) : draw :=
  let ui := g_ui g in
  let listening := g_snap_ok g && sn_started (u_snap ui) in
  let state_col := if listening then C_ACC else C_ERR in
  box y 0 6 scr_cols C_LINE C_PANEL ;;
  put (y + 1) 1 state_col C_PANEL BULLET ;;
  txt (y + 1) 4 state_col C_PANEL (if listening then B "LISTENING" else B "STOPPED") ;;
  let portb := bprintf 8 (fmt_u (sn_port (u_snap ui))) in
  let addr := bprintf 24 (match g_local_ip g with [] => EM_DASH | _ => g_local_ip g end) in
  let rootb := bprintf 40 (sn_root (u_snap ui)) in
  let workers := bprintf 8 (fmt_d (sn_workers (u_snap ui))) in
  let seg3 := scr_cols - 2 - 7 in
  let seg2 := seg3 - 2 - 12 in
  let seg1 := seg2 - 2 - 16 in
  let seg0 := seg1 - 2 - 6 in
  draw_stat y seg0 6 portb (B "PORT") ;;
  draw_stat y seg1 16 addr (B "ADDRESS") ;;
  draw_stat y seg2 12 rootb (B "ROOT") ;;
  draw_stat y seg3 7 workers (B "WORKERS") ;;
  hline (y + 4) 1 (scr_cols - 2) H_BAR C_LINE C_PANEL ;;
  let up := u64 (now_us AtUptime - u_t0_us ui) / 1000000 in
  let dur := opftp_ui_fmt_dur 16 up in
  let gb := opftp_ui_fmt_size 16 (u_session_bytes ui) in
  txt (y + 5) 1 C_LABEL C_PANEL
    (B "UPTIME " ++ dur ++ B " " ++ MIDDOT ++ B " " ++ fmt_u (u_session_xfers ui) ++ B " TRANSFERS " ++ MIDDOT ++
     B " " ++ gb ++ B " THIS SESSION").

(** The first record of a peer. *)
Definition trk_of (ui : opftp_ui) (peer : bytes) : option opftp_ui_trk :=
  snd <$> list_find (λ t, tracks peer t = true) (u_trk ui).

Definition pct_text (b total : Z) : bytes :=
  if total =? 0 then bprintf 8 (B "--%") else bprintf 8 (fmt_d (s32 (u64 (b * 100) / total)) ++ B "%").

(** The rate of the record, and the text beside the bar. *)
Definition rate_text (ui : opftp_ui) (peer : bytes) : bytes :=
  match trk_of ui peer with
  | Some t => if d_lt d_zero (t_rate t) then opftp_ui_fmt_rate 16 (t_rate t) else bprintf 16 (B "0 B/s")
  | None => bprintf 16 (B "0 B/s")
  end.
Definition meta_text (ui : opftp_ui) (c : opftp_snapshot_client) : bytes :=
  let sz := opftp_ui_fmt_size 24 (sc_xfer_bytes c) in
  let tot := opftp_ui_fmt_size 24 (sc_xfer_total c) in
  let rate := rate_text ui (sc_peer c) in
  if sc_xfer_total c =? 0 then bprintf 96 (sz ++ B " " ++ MIDDOT ++ B " " ++ rate)
  else bprintf 96 (sz ++ B " / " ++ tot ++ B " " ++ MIDDOT ++ B " " ++ rate).

Definition draw_xfer_card (ui : opftp_ui) (y : Z) (c : opftp_snapshot_client) (focused : bool) : draw :=
  let up := is_up (sc_xfer_op c) in
  let ac := if up then C_BLUE else C_ACC in
  let cb := if focused then C_FOCUS else C_PANEL in
  box y 0 3 scr_cols (if focused then C_ACC else C_LINE) cb ;;
  put (y + 1) 1 ac cb (arrow up) ;;
  txt (y + 1) 4 C_MUTED cb (sc_xfer_op c) ;;
  let pctb := pct_text (sc_xfer_bytes c) (sc_xfer_total c) in
  with_value (uw (sc_xfer_op c)) (λ ow,
    with_value (uw pctb) (λ pw,
      with_value (t_trunc 128 (sc_xfer_path c) (scr_cols - 4 - ow - 2 - pw - 4)) (λ name,
        txt (y + 1) (4 + ow + 2) C_TEXT cb name ;;
        txt_r (y + 1) (scr_cols - 2) C_BRIGHT cb pctb))) ;;
  let meta := meta_text ui c in
  with_value (uw meta) (λ mw,
    let barw := scr_cols - 4 - mw - 3 in
    let barw := if barw <? 8 then 8 else barw in
    progress_bar (y + 2) 1 barw (sc_xfer_bytes c) (sc_xfer_total c) up ;;
    txt_r (y + 2) (scr_cols - 2) C_LABEL cb meta).

(** The cards that fit, with the number of cards drawn for the rest. *)
Fixpoint draw_cards (ui : opftp_ui) (l : list opftp_snapshot_client) (y shown nfit : Z) (k : Z → draw) : draw :=
  match l with
  | [] => k shown
  | c :: l' =>
     if negb (shown <? nfit) then k shown
     else if negb (sc_xfer_active c) then draw_cards ui l' y shown nfit k
     else draw_xfer_card ui (y + shown * 3) c (u_sel_status ui =? shown) ;; draw_cards ui l' y (shown + 1) nfit k
  end.

(** The idle time of a chip: the loop does not stop at the first record. *)
Fixpoint chip_idle (peer : bytes) (i : Z) (k : nat) (l : list opftp_ui_trk) (idl : Z) : Z :=
  match l with
  | [] => idl
  | t :: l' =>
     chip_idle peer i (S k) l' (if tracks peer t then u64 (now_us (AtChip i k) - t_idle_reset_us t) / 1000000 else idl)
  end.

Definition user_text (c : opftp_snapshot_client) : bytes := match sc_user c with [] => B "?" | u => u end.

Definition chip_text (ui : opftp_ui) (i : Z) (c : opftp_snapshot_client) : bytes :=
  let user := user_text c in
  if sc_xfer_active c then bprintf 96 (user ++ B " " ++ MIDDOT ++ B " " ++ sc_xfer_op c)
  else bprintf 96 (user ++ B " " ++ MIDDOT ++ B " idle " ++ opftp_ui_fmt_idle 8 (chip_idle (sc_peer c) i 0 (u_trk ui) 0)).

Fixpoint draw_chips (ui : opftp_ui) (l : list opftp_snapshot_client) (i y x drawn : Z) (k : Z → Z → draw) : draw :=
  match l with
  | [] => k x drawn
  | c :: l' =>
     if negb (drawn <? 4) then k x drawn
     else
       let chipt := chip_text ui i c in
       with_value (t_trunc 24 (sc_peer c) 17) (λ peerb,
         with_value (uw peerb) (λ pw,
           with_value (uw chipt) (λ tw,
             let cw := 2 + pw + 1 + tw in
             if scr_cols - 8 <? x + cw then k x drawn
             else
               put y x C_ACC 0 BULLET ;;
               txt y (x + 2) C_TEXT 0 peerb ;;
               txt y (x + 2 + pw + 1) C_LABEL 0 chipt ;;
               draw_chips ui l' (i + 1) y (x + cw + 2) (drawn + 1) k)))
  end.

Definition count_text (n : Z) : bytes := bprintf 8 (fmt_d n).
(** The count of a label, when it is not 0. *)
Definition slab_count (n : Z) : option bytes := if n =? 0 then None else Some (count_text n).

Definition draw_connected (ui : opftp_ui) (y footer_top : Z) : draw :=
  let n := sn_num_clients (u_snap ui) in
  slab y (B "CONNECTED CLIENTS") (slab_count n) None ;;
  if footer_top <=? y + 1 then nothing
  else
    draw_chips ui (snap_list (u_snap ui)) 0 (y + 1) 0 0 (λ x drawn,
      if drawn <? n then txt (y + 1) x C_LABEL 0 (bprintf 16 (B "+" ++ fmt_d (n - drawn))) else nothing).

Definition draw_status (g : tui) : draw :=
  let ui := g_ui g in
  draw_event_strip ui 2 ;;
  let y := 2 + event_rows ui in
  draw_status_card g y ;;
  let y := y + 6 in
  let nxfer := Z.of_nat (length (active_clients ui)) in
  slab y (B "ACTIVE TRANSFERS") (slab_count nxfer) None ;;
  let y := y + 1 in
  let footer_top := scr_rows - 2 in
  let avail := footer_top - y in
  let nfit := Z.quot avail 3 in
  draw_cards ui (snap_list (u_snap ui)) y 0 nfit (λ shown,
    if (nxfer =? 0) && (5 <=? avail) then
      box y 0 3 scr_cols C_LINE C_INSET ;;
      txt_c (y + 1) (Z.quot scr_cols 2) C_EMPTY C_INSET (B "No active transfers") ;;
      draw_connected ui (y + 3) footer_top
    else draw_connected ui (y + shown * 3) footer_top).

(** ** Tables *)

Definition draw_scrollbar (y h scroll visible total : Z) : draw :=
  let x := scr_cols - 1 in
  for_each (range 0 (h - 1)) (λ r, put (y + r) x 0 C_INSET (B " ")) ;;
  if total <=? visible then nothing
  else
    let th := Z.quot (h * 32) 100 in
    let th := if th <? 1 then 1 else th in
    let ty := y + Z.quot ((h - th) * scroll) (total - visible) in
    for_each (range ty (Z.min (ty + th) (y + h) - 1)) (λ r, put r x C_MUTED C_INSET FULL_BLOCK).

(** A row of the history. *)
Definition draw_hist_row (ui : opftp_ui) (idx ry : Z) : draw :=
  with_value (ring_at (u_hist ui) (u_hist_head ui) idx OPFTP_UI_MAX_HIST) (λ h,
    let up := is_up (hi_op h) in
    let ac := if up then C_BLUE else C_ACC in
    let bg := if u_sel_hist ui =? idx then C_FOCUS else 0 in
    txt ry 1 C_MUTED bg (hh_mm (hi_hh h) (hi_mm h)) ;;
    put ry 8 ac bg (arrow up) ;;
    txt ry 11 C_MUTED bg (hi_op h) ;;
    with_value (t_trunc 128 (hi_path h) (scr_cols - 18 - 9 - 10 - 6)) (λ f, txt ry 18 C_TEXT bg f) ;;
    txt_r ry (scr_cols - 12) C_TEXT bg (opftp_ui_fmt_size 16 (hi_bytes h)) ;;
    txt_r ry (scr_cols - 2) (result_color (hi_result h)) bg (result_text (hi_result h))).

Definition showing_text (ui : opftp_ui) : bytes :=
  bprintf 24 (B "SHOWING " ++ fmt_d (u_scroll_hist ui + 1) ++ EN_DASH ++
    fmt_d (if u_scroll_hist ui + 8 <? u_hist_count ui then u_scroll_hist ui + 8 else u_hist_count ui)).

(** The rows a table has room for, and where it scrolls to. *)
Definition hist_rows : Z := let h := scr_rows - 2 - 5 in if h <? 1 then 1 else h.
Definition hist_scroll (ui : opftp_ui) : Z :=
  opftp_ui_clamp_scroll (u_sel_hist ui) (u_scroll_hist ui) hist_rows (u_hist_count ui).

(** The drawing, and the model with its new scroll position. *)
Definition draw_transfers (ui : opftp_ui) : draw * opftp_ui :=
  let total := u_hist_count ui in
  let ui' := ui <| u_scroll_hist := hist_scroll ui |> in
  (slab 2 (B "TRANSFER HISTORY") (slab_count total) (if total =? 0 then None else Some (if 0 <? total then showing_text ui else [])) ;;
   txt 3 1 C_LABEL 0 (B "TIME") ;;
   txt 3 8 C_LABEL 0 (B "DIR") ;;
   txt 3 18 C_LABEL 0 (B "FILE") ;;
   txt_r 3 (scr_cols - 12) C_LABEL 0 (B "SIZE") ;;
   txt_r 3 (scr_cols - 2) C_LABEL 0 (B "RESULT") ;;
   hline 4 0 (scr_cols - 2) H_BAR C_LINE 0 ;;
   for_each (range 0 (Z.min hist_rows (total - u_scroll_hist ui') - 1)) (λ r,
     draw_hist_row ui' (u_scroll_hist ui' + r) (5 + r)) ;;
   draw_scrollbar 5 hist_rows (u_scroll_hist ui') hist_rows total, ui').

(** A row of the clients. *)
Definition draw_client_row (ui : opftp_ui) (ci ry : Z) : draw :=
  with_value (sn_clients (u_snap ui) !! Z.to_nat ci) (λ c,
    let bg := if u_sel_cli ui =? ci then C_FOCUS else 0 in
    put ry 0 (if sc_xfer_active c then C_ACC else C_LINE) bg SQUARE ;;
    with_value (t_trunc 24 (sc_peer c) 16) (λ ip, txt ry 2 C_TEXT bg ip) ;;
    with_value (t_trunc 16 (user_text c) 11) (λ usr, txt ry 20 C_TEXT bg usr) ;;
    with_value (t_trunc 128 (sc_cwd c) (scr_cols - 34 - 8 - 6)) (λ cwd, txt ry 34 C_TEXT bg cwd) ;;
    let idl := match trk_of ui (sc_peer c) with
               | Some t => u64 (now_us (AtClient ci) - (if sc_xfer_active c then t_xfer_t0_us t else t_idle_reset_us t)) / 1000000
               | None => 0
               end in
    txt_r ry (scr_cols - 2) C_MUTED bg (opftp_ui_fmt_idle 8 idl)).

Definition cli_rows : Z := let h := scr_rows - 2 - 5 - 1 in if h <? 1 then 1 else h.
Definition cli_scroll (ui : opftp_ui) : Z :=
  opftp_ui_clamp_scroll (u_sel_cli ui) (u_scroll_cli ui) cli_rows (sn_num_clients (u_snap ui)).

Definition OPFTP_SNAPSHOT_MAX_CLIENTS : Z := 16.

Definition draw_clients (ui : opftp_ui) : draw * opftp_ui :=
  let total := sn_num_clients (u_snap ui) in
  let ui' := ui <| u_scroll_cli := cli_scroll ui |> in
  (slab 2 (B "CLIENTS") (slab_count total)
     (Some (bprintf 24 (fmt_d total ++ B " OF " ++ fmt_d OPFTP_SNAPSHOT_MAX_CLIENTS ++ B " SLOTS IN USE"))) ;;
   txt 3 2 C_LABEL 0 (B "IP ADDRESS") ;;
   txt 3 20 C_LABEL 0 (B "USER") ;;
   txt 3 34 C_LABEL 0 (B "CURRENT DIRECTORY") ;;
   txt_r 3 (scr_cols - 2) C_LABEL 0 (B "IDLE") ;;
   hline 4 0 (scr_cols - 2) H_BAR C_LINE 0 ;;
   for_each (range 0 (Z.min cli_rows (total - u_scroll_cli ui') - 1)) (λ r,
     draw_client_row ui' (u_scroll_cli ui' + r) (5 + r)) ;;
   draw_scrollbar 5 cli_rows (u_scroll_cli ui') cli_rows total ;;
   txt (scr_rows - 2) 0 C_LABEL 0
     (B "Square marker: client has a transfer in progress. Idle time is mm:ss since the last command."), ui').

(** ** The settings view *)

(** Row [i] of the panel at [y]: its name, its value. *)
Definition draw_setting (ui : opftp_ui) (y i : Z) (key val : bytes) : draw :=
  let ry := y + 1 + i in
  let sel := u_sel_settings ui =? i in
  let bg := if sel then C_FOCUS else C_PANEL in
  hline ry 1 (scr_cols - 2) (B " ") 0 bg ;;
  (if sel then put ry 1 C_ACC bg MARKER else nothing) ;;
  txt ry 4 C_TEXT bg key ;;
  (if i <? 3 then
     txt_r ry (scr_cols - 2) C_TEXT bg val ;;
     (if i =? 1 then
        with_value (uw val) (λ w,
          txt_r ry (scr_cols - 2 - w - 2) C_ACC bg (B "[EDIT]") ;;
          (if sel then with_value (uw (B " [Enter]")) (λ ew, txt_r ry (scr_cols - 2 - w - 2 - ew) C_MUTED bg (B "Enter"))
           else nothing))
      else nothing)
   else txt_r ry (scr_cols - 2) C_LINE bg (B "[") ;; txt_r ry (scr_cols - 3) C_LABEL bg val) ;;
  (if i <? 4 then hline (ry + 1) 1 (scr_cols - 2) H_BAR C_LINE C_PANEL else nothing).

Definition draw_settings (ui : opftp_ui) : draw :=
  draw_event_strip ui 2 ;;
  let ev_rows := event_rows ui in
  slab (2 + ev_rows) (B "SETTINGS") None (Some (B "READ-ONLY")) ;;
  let y := 4 + ev_rows in
  with_value (t_trunc 48 (sn_root (u_snap ui)) (scr_cols - 22)) (λ rootv,
    box y 0 7 scr_cols C_LINE C_PANEL ;;
    draw_setting ui y 0 (B "Port") (bprintf 24 (fmt_u (sn_port (u_snap ui)))) ;;
    draw_setting ui y 1 (B "Root path") (bprintf 24 rootv) ;;
    draw_setting ui y 2 (B "Worker threads") (bprintf 24 (fmt_d (sn_workers (u_snap ui)))) ;;
    draw_setting ui y 3 (B "TLS") (B "OFF") ;;
    draw_setting ui y 4 (B "Require TLS") (B "OFF")) ;;
  if u_edit_field ui =? OPFTP_UI_EDIT_NONE
  then txt (y + 7) 0 C_LABEL 0 (B "Press Enter on the Root path row to change it. Other values are read-only.")
  else nothing.

(** ** Overlays *)

(** [overlay_panel]: where a panel of height [hh] is, and its width. *)
Definition panel_w : Z := if scr_cols - 8 <? 52 then scr_cols - 8 else 52.
Definition panel_x : Z := Z.quot (scr_cols - panel_w) 2.
Definition panel_y (hh : Z) : Z := Z.quot (scr_rows - hh) 2.
Definition overlay_panel (hh : Z) : draw := box (panel_y hh) panel_x hh panel_w C_RAISE C_PANEL.

(** A path cut into at most [n] lines of [panel_w - 8] bytes. *)
Fixpoint path_lines (n : nat) (y : Z) (s : bytes) : draw :=
  match s with
  | [] => nothing
  | _ =>
     match n with
     | O => txt y (panel_x + 2) C_MUTED C_PANEL ELLIPSIS
     | S n' => txt y (panel_x + 2) C_TEXT C_PANEL (take (Z.to_nat (panel_w - 8)) s) ;;
               path_lines n' (y + 1) (drop (Z.to_nat (panel_w - 8)) s)
     end
  end.

Definition close_hint (y : Z) : draw := txt_r y (panel_x + panel_w - 2) C_LABEL C_PANEL (TIMES ++ B " Close").

Definition draw_detail_hist (ui : opftp_ui) : draw :=
  if (u_detail_idx ui <? 0) || (u_hist_count ui <=? u_detail_idx ui) then nothing
  else
    with_value (ring_at (u_hist ui) (u_hist_head ui) (u_detail_idx ui) OPFTP_UI_MAX_HIST) (λ h,
      let up := is_up (hi_op h) in
      let hh := 8 in let y := panel_y hh in let x := panel_x in let w := panel_w in
      overlay_panel hh ;;
      txt (y + 1) (x + 2) C_LABEL C_PANEL (B "TRANSFER DETAIL") ;;
      put (y + 2) (x + 2) (if up then C_BLUE else C_ACC) C_PANEL (arrow up) ;;
      let sz := opftp_ui_fmt_size 16 (hi_bytes h) in
      let tot := opftp_ui_fmt_size 16 (hi_total h) in
      txt (y + 2) (x + 5) C_TEXT C_PANEL (hi_op h) ;;
      with_value (uw (hi_op h)) (λ ow,
        txt (y + 2) (x + 5 + ow + 2) C_MUTED C_PANEL
          (fmt_0d 2 (hi_hh h) ++ B ":" ++ fmt_0d 2 (hi_mm h) ++ B " " ++ MIDDOT ++ B " " ++ sz)) ;;
      (if hi_total h =? 0 then nothing else txt_r (y + 2) (x + w - 2) C_MUTED C_PANEL (B "of " ++ tot)) ;;
      path_lines 3 (y + 3) (hi_path h) ;;
      txt (y + hh - 2) (x + 2) (result_color (hi_result h)) C_PANEL (B "RESULT: " ++ result_text (hi_result h)) ;;
      close_hint (y + hh - 2)).

(** The rate of the detail panel. *)
Definition known_rate (ui : opftp_ui) (peer : bytes) : double :=
  match trk_of ui peer with Some t => if d_lt d_zero (t_rate t) then t_rate t else d_zero | None => d_zero end.

Definition draw_detail_xfer (ui : opftp_ui) : draw :=
  if (u_detail_idx ui <? 0) || (sn_num_clients (u_snap ui) <=? u_detail_idx ui) then nothing
  else
    with_value (sn_clients (u_snap ui) !! Z.to_nat (u_detail_idx ui)) (λ c,
      if negb (sc_xfer_active c) then nothing
      else
        let up := is_up (sc_xfer_op c) in
        let hh := 8 in let y := panel_y hh in let x := panel_x in let w := panel_w in
        overlay_panel hh ;;
        txt (y + 1) (x + 2) C_LABEL C_PANEL (B "ACTIVE TRANSFER") ;;
        put (y + 2) (x + 2) (if up then C_BLUE else C_ACC) C_PANEL (arrow up) ;;
        txt (y + 2) (x + 5) C_TEXT C_PANEL (sc_xfer_op c) ;;
        let sz := opftp_ui_fmt_size 24 (sc_xfer_bytes c) in
        let tot := opftp_ui_fmt_size 24 (sc_xfer_total c) in
        let rate := opftp_ui_fmt_rate 16 (known_rate ui (sc_peer c)) in
        (if sc_xfer_total c =? 0
         then txt_r (y + 2) (x + w - 2) C_TEXT C_PANEL (sz ++ B " " ++ MIDDOT ++ B " " ++ rate)
         else txt_r (y + 2) (x + w - 2) C_TEXT C_PANEL (sz ++ B " of " ++ tot ++ B " " ++ MIDDOT ++ B " " ++ rate)) ;;
        path_lines 3 (y + 3) (sc_xfer_path c) ;;
        txt (y + hh - 2) (x + 2) C_MUTED C_PANEL (B "CLIENT " ++ sc_peer c) ;;
        close_hint (y + hh - 2)).

Definition draw_detail_client (ui : opftp_ui) : draw :=
  if (u_detail_idx ui <? 0) || (sn_num_clients (u_snap ui) <=? u_detail_idx ui) then nothing
  else
    with_value (sn_clients (u_snap ui) !! Z.to_nat (u_detail_idx ui)) (λ c,
      let hh := 9 in let y := panel_y hh in let x := panel_x in
      overlay_panel hh ;;
      txt (y + 1) (x + 2) C_LABEL C_PANEL (B "CLIENT DETAIL") ;;
      txt (y + 2) (x + 2) C_TEXT C_PANEL (sc_peer c) ;;
      txt (y + 3) (x + 2) C_LABEL C_PANEL (B "USER") ;;
      txt (y + 3) (x + 8) C_TEXT C_PANEL (user_text c) ;;
      txt (y + 4) (x + 2) C_LABEL C_PANEL (B "STATUS") ;;
      txt (y + 4) (x + 12) (if sc_xfer_active c then C_ACC else C_MUTED) C_PANEL
        (if sc_xfer_active c then sc_xfer_op c else B "idle") ;;
      txt (y + 5) (x + 2) C_LABEL C_PANEL (B "CWD") ;;
      path_lines 2 (y + 6) (sc_cwd c) ;;
      close_hint (y + hh - 2)).

Definition help_rows : list bytes :=
  [UP_ARROW ++ DOWN_ARROW ++ B " Move selection"; LEFT_ARROW ++ RIGHT_ARROW ++ B " Switch view";
   B "Enter  Open details"; B "Esc    Close / clear selection"; B "?      Close this panel"; B "q      Quit"].

Definition draw_help : draw :=
  let y := panel_y 9 in
  overlay_panel 9 ;;
  txt (y + 1) (panel_x + 2) C_LABEL C_PANEL (B "HELP") ;;
  for_each (range 0 5) (λ i, with_value (help_rows !! Z.to_nat i) (λ r, txt (y + 2 + i) (panel_x + 2) C_TEXT C_PANEL r)).

Definition draw_detail_or_help (ui : opftp_ui) : draw :=
  if 0 <=? u_detail_kind ui then
    if u_detail_kind ui =? OPFTP_UI_D_HIST then draw_detail_hist ui
    else if u_detail_kind ui =? OPFTP_UI_D_XFER then draw_detail_xfer ui
    else draw_detail_client ui
  else if u_help ui then draw_help else nothing.

Definition draw_edit_line (ui : opftp_ui) : draw :=
  let y := scr_rows - 3 in
  hline y 0 (scr_cols - 1) (B " ") 0 C_INSET ;;
  txt y 1 C_ACC C_INSET (B "EDIT ROOT PATH:") ;;
  with_value (uw (B "EDIT ROOT PATH:")) (λ lw,
    let x := 1 + lw + 2 in
    let maxw := scr_cols - x - 24 in
    let maxw := if maxw <? 8 then 8 else maxw in
    with_value (t_trunc 128 (u_edit_buf ui) maxw) (λ buf,
      txt y x C_TEXT C_INSET buf ;;
      if Z.land (now_us AtBlink / 500000) 1 =? 1
      then with_value (uw buf) (λ w, put y (x + w) C_ACC C_INSET CURSOR) else nothing)) ;;
  txt_r y (scr_cols - 2) C_LABEL C_INSET (B "[Enter] apply  [Esc] cancel").

(** ** Render *)

Definition draw_view (g : tui) : draw * opftp_ui :=
  let ui := g_ui g in
  if u_view ui =? OPFTP_UI_V_STATUS then (draw_status g, ui)
  else if u_view ui =? OPFTP_UI_V_TRANSFERS then draw_transfers ui
  else if u_view ui =? OPFTP_UI_V_CLIENTS then draw_clients ui
  else if u_view ui =? OPFTP_UI_V_SETTINGS then (draw_settings ui, ui)
  else (nothing, ui).

Definition blank : list cell := replicate (Z.to_nat (scr_rows * scr_cols)) cell0.

(** The frame, and the model after it. *)
Definition render (g : tui) : option (list cell) * tui :=
  let '(view, ui) := draw_view g in
  ((draw_header g ;; view ;; draw_footer ui ;; draw_detail_or_help ui ;;
    if u_edit_field ui =? OPFTP_UI_EDIT_NONE then nothing else draw_edit_line ui) blank,
   g <| g_ui := ui |>).

End Screen.

(** ** Keys *)

Definition help_toggle (ui : opftp_ui) : opftp_ui :=
  if 0 <=? u_detail_kind ui then ui <| u_detail_kind := OPFTP_UI_D_NONE |> else ui <| u_help := negb (u_help ui) |>.

Definition esc_key (ui : opftp_ui) : opftp_ui :=
  if 0 <=? u_detail_kind ui then ui <| u_detail_kind := OPFTP_UI_D_NONE |>
  else if u_help ui then ui <| u_help := false |>
  else opftp_ui_clear_sel ui.

Definition NOT_CHANGED : bytes := B "ROOT NOT CHANGED " ++ EM_DASH ++ B " path must be absolute".

Definition edit_apply (now : Z) (ui : opftp_ui) (srv : opftp_server) : opftp_ui * opftp_server :=
  let '(v, ui) := opftp_ui_edit_commit ui in
  let '(rc, srv) := opftp_server_set_root_runtime v srv in
  (match rc with Ok _ => ui | Err _ => opftp_ui_event NOT_CHANGED true now ui end, srv).

Definition OPFTP_UI_EDIT_ROOT : Z := 0.
Definition edit_open (ui : opftp_ui) : opftp_ui := opftp_ui_edit_begin OPFTP_UI_EDIT_ROOT (Some (sn_root (u_snap ui))) ui.

(** The terminal: the bytes waiting to be read, and what arrives by the time
    of each [select] to come. *)
Record tty := mk_tty { pending : bytes; arrivals : list bytes }.

(** [select] then [read] of at most [n] bytes: [None] when there is nothing,
    at end of file too. *)
Definition read_ready (n : nat) (t : tty) : option bytes * tty :=
  let p := pending t ++ default [] (head (arrivals t)) in
  let r := tail (arrivals t) in
  match take n p with
  | [] => (None, mk_tty p r)
  | b => (Some b, mk_tty (drop n p) r)
  end.

Definition KEY_BUF : nat := 32.

(** Everything currently available, up to the buffer. *)
Fixpoint gather (fuel : nat) (buf : bytes) (t : tty) : bytes * tty :=
  match fuel with
  | O => (buf, t)
  | S f =>
     match read_ready (KEY_BUF - length buf) t with
     | (None, t) => (buf, t)
     | (Some b, t) => let buf := buf ++ b in if (KEY_BUF <=? length buf)%nat then (buf, t) else gather f buf t
     end
  end.

(** The grace loop after an escape: [len] bytes are in the buffer, [rest] from
    the escape on. *)
Fixpoint grace (fuel : nat) (len : nat) (rest : bytes) (t : tty) : nat * bytes * tty :=
  match fuel with
  | O => (len, rest, t)
  | S f =>
     if (1 <? length rest)%nat && (length rest <=? 2)%nat then
       match read_ready (KEY_BUF - len) t with
       | (None, t) => (len, rest, t)
       | (Some b, t) => grace f (len + length b) (rest ++ b) t
       end
     else (len, rest, t)
  end.

(** What the keys act on. *)
Record keyed := mk_keyed { k_tui : tui; k_srv : opftp_server }.
Definition on_ui (f : opftp_ui → opftp_ui) (s : keyed) : keyed := mk_keyed (k_tui s <| g_ui := f (g_ui (k_tui s)) |>) (k_srv s).

(** A byte of text entry that is not an escape. *)
Definition edit_key (now : Z) (c : ascii) (s : keyed) : keyed :=
  if ceq c LF || ceq c CR then
    let '(ui, srv) := edit_apply now (g_ui (k_tui s)) (k_srv s) in mk_keyed (k_tui s <| g_ui := ui |>) srv
  else if (cv c =? 127) || (cv c =? 8) then on_ui opftp_ui_edit_backspace s
  else if (32 <=? cv c) && (cv c <? 127) then on_ui (λ ui, snd (opftp_ui_edit_type [c] ui)) s
  else s.

(** A byte outside of text entry that is not an escape. *)
Definition nav_key (c : ascii) (s : keyed) : keyed :=
  let ui := g_ui (k_tui s) in
  if ceq c "q" || (cv c =? 3) then mk_keyed (k_tui s <| g_quit := true |>) (k_srv s)
  else if ceq c LF || ceq c CR then
    if (u_view ui =? OPFTP_UI_V_SETTINGS) && (u_sel_settings ui =? 1) then on_ui edit_open s
    else on_ui opftp_ui_open_detail s
  else if ceq c "?" || ceq c "h" then on_ui help_toggle s
  else s.

(** The last byte of an arrow key. *)
Definition arrow_key (c : ascii) (ui : opftp_ui) : opftp_ui :=
  if ceq c "A" then opftp_ui_sel_move (-1) ui
  else if ceq c "B" then opftp_ui_sel_move 1 ui
  else if ceq c "C" then opftp_ui_switch_view 1 ui
  else if ceq c "D" then opftp_ui_switch_view (-1) ui
  else ui.

Definition editing (s : keyed) : bool := negb (u_edit_field (g_ui (k_tui s)) =? OPFTP_UI_EDIT_NONE).

(** The parse loop: [len] bytes are in the buffer, [rest] are left. *)
Fixpoint parse_keys (now_us : site → Z) (fuel : nat) (len : nat) (rest : bytes) (s : keyed) (t : tty) : keyed * tty :=
  match fuel, rest with
  | O, _ | _, [] => (s, t)
  | S f, c :: rest' =>
     if editing s then
       if ceq c ESC then
         let s := on_ui opftp_ui_edit_cancel s in
         match rest' with
         | b :: _ :: rest'' => parse_keys now_us f len (if ceq b "[" then rest'' else rest') s t
         | _ => parse_keys now_us f len rest' s t
         end
       else parse_keys now_us f len rest' (edit_key (now_us (AtEdit (len - length rest))) c s) t
     else if ceq c ESC then
       let '(len, rest, t) := grace KEY_BUF len rest t in
       match tail rest with
       | [] => parse_keys now_us f len [] (on_ui esc_key s) t
       | b :: k :: rest'' =>
          if ceq b "[" then parse_keys now_us f len rest'' (on_ui (arrow_key k) s) t
          else parse_keys now_us f len (tail rest) (on_ui esc_key s) t
       | [b] => parse_keys now_us f len (tail rest) (on_ui esc_key s) t
       end
     else parse_keys now_us f len rest' (nav_key c s) t
  end.

Definition read_keys (now_us : site → Z) (s : keyed) (t : tty) : bool * (keyed * tty) :=
  match gather KEY_BUF [] t with
  | ([], t) => (false, (s, t))
  | (buf, t) => (true, parse_keys now_us KEY_BUF (length buf) buf s t)
  end.

(** ** The loop *)

(** What a round of the loop meets: the readings of the clocks, the bytes that
    arrive at each [select], the snapshot, and whether it differs from the
    last one ([memcmp] compares the raw structs). *)
Record round := mk_round {
  r_now : site → Z; r_time : Z; r_arrive : list bytes; r_snap : opftp_snapshot; r_changed : bool
}.

Record loop_state := mk_loop { l_keyed : keyed; l_pending : bytes }.

(** One round: the state after it, with what is written to the terminal when
    the round renders; [None] when rendering touches foreign memory or the text
    of the frame does not fit its buffer. *)
Definition frame (rows cols : Z) (r : round) (l : loop_state) : option (option bytes * loop_state) :=
  let '(any_edge, (s, t)) := read_keys (r_now r) (l_keyed l) (mk_tty (l_pending l) (r_arrive r)) in
  let g := k_tui s in
  let g := g <| g_ui := opftp_ui_poll (r_now r AtPoll) (g_ui g <| u_snap := r_snap r |>) |> <| g_snap_ok := true |> in
  let left := pending t ++ concat (arrivals t) in
  let dirty := any_edge || r_changed r || (1000000 <=? u64 (r_now r AtSince - last_render_us g)) in
  if dirty then
    let '(cvs, g) := render rows cols (r_now r) (r_time r) g in
    cvs ← cvs;
    out ← frame_emit rows cols cvs;
    Some (Some out, mk_loop (mk_keyed (g <| last_render_us := r_now r AtRendered |>) (k_srv s)) left)
  else Some (None, mk_loop (mk_keyed g (k_srv s)) left).

(** The rounds of the loop: it ends when [quit] is set. *)
Fixpoint rounds (rows cols : Z) (rs : list round) (l : loop_state) : option loop_state :=
  match rs with
  | [] => Some l
  | r :: rs' =>
     if g_quit (k_tui (l_keyed l)) then Some l
     else '(_, l) ← frame rows cols r l; rounds rows cols rs' l
  end.

(** [opftp_tui_run] up to the loop; [local_ip] is the first address that is
    not the loopback, empty when there is none. *)
Definition tui_start (now : Z) (version local_ip : bytes) (srv : opftp_server) : loop_state :=
  mk_loop (mk_keyed (mk_tui (opftp_ui_init now) version (match local_ip with [] => EM_DASH | _ => local_ip end) false false 0) srv) [].

End Tui.
