(* ===== verification/TuiCost.v ===== *)
(** * app/tui.c: a frame fits the output buffer

    [frame_emit] writes a frame into a buffer of 26 bytes a cell without
    checking, though a cell that changes both colours takes up to 46. Here the
    changes of colour of a frame are counted: a string, a line or a run of
    cells adds at most two, and what a view draws, with every overlay, adds at
    most 27 a row, which the buffer has room for from 53 columns on. *)

From S2P Require Import Prelude CLib World Ui Canvas Server Tui.
Import CLib Ui Canvas Server Tui.

Local Open Scope Z_scope.

Module TuiCost.

(** ** Changes of colour *)

Abbreviation colour := (Z * Z)%type.
Definition col_of (x : cell) : colour := (c_fg x, c_bg x).

(** How often the colour changes along [l], starting from [k]. *)
Fixpoint edges (k : colour) (l : list cell) : Z :=
  match l with
  | [] => 0
  | x :: l' => (if bool_decide (col_of x = k) then 0 else 1) + edges (col_of x) l'
  end.

Definition end_col (k : colour) (l : list cell) : colour := default k (col_of <$> last l).

Lemma edges_nonneg l : ∀ k, 0 ≤ edges k l.
Proof. induction l as [|x l IH]; intros k; cbn [edges]; [done|]. specialize (IH (col_of x)). case_match; lia. Qed.

Lemma end_col_cons k x l : end_col k (x :: l) = end_col (col_of x) l.
Proof. unfold end_col. rewrite last_cons. by destruct (last l). Qed.

Lemma edges_app l1 : ∀ k l2, edges k (l1 ++ l2) = edges k l1 + edges (end_col k l1) l2.
Proof.
  induction l1 as [|x l1 IH]; intros k l2; [done|]. cbn [edges app]. rewrite IH, end_col_cons. lia.
Qed.

Lemma edges_start l k k' : edges k l ≤ edges k' l + 1.
Proof. destruct l as [|x l]; cbn [edges]; [lia|]. repeat case_bool_decide; lia. Qed.

Definition one_col (k : colour) (l : list cell) : Prop := Forall (λ x, col_of x = k) l.

Lemma edges_one k l : one_col k l → edges k l = 0 ∧ end_col k l = k.
Proof.
  induction 1 as [|x l Hx Hl [IH1 IH2]]; [done|]. rewrite end_col_cons. cbn [edges]. rewrite Hx, IH1, bool_decide_true by done. done.
Qed.

(** Painting a stretch in one colour adds two changes at most. *)
Lemma edges_paint k0 a b b' c k : one_col k b' → edges k0 (a ++ b' ++ c) ≤ edges k0 (a ++ b ++ c) + 2.
Proof.
  intros Hb. destruct b' as [|x b']; cbn [app].
  - rewrite !edges_app. pose proof (edges_nonneg b (end_col k0 a)).
    pose proof (edges_start c (end_col k0 a) (end_col (end_col k0 a) b)). lia.
  - rewrite !edges_app. change (x :: b' ++ c) with ((x :: b') ++ c). rewrite edges_app.
    destruct (edges_one k (x :: b') Hb) as [E1 E2]. pose proof (edges_start (x :: b') (end_col k0 a) k) as H1.
    rewrite E1 in H1. assert (end_col (end_col k0 a) (x :: b') = k) as -> by (by rewrite end_col_cons in E2 |- *).
    pose proof (edges_nonneg b (end_col k0 a)). pose proof (edges_start c k (end_col (end_col k0 a) b)). lia.
Qed.

(** ** What a drawing adds *)

(** A cell is empty and without colours, or holds one whole character. *)
Definition char_cell (x : cell) : Prop := x = cell0 ∨ ∃ c u, c_s x = c :: u ∧ S (length u) = ulen c.

(** [n] cells from index [i] on are painted in the colour [k]. *)
Definition paints (k : colour) (i n : nat) (cvs cvs' : list cell) : Prop :=
  (i + n ≤ length cvs)%nat ∧
  ∃ b, length b = n ∧ one_col k b ∧ Forall char_cell b ∧ cvs' = take i cvs ++ b ++ drop (i + n) cvs.

Lemma paints_nil k i cvs : (i ≤ length cvs)%nat → paints k i 0 cvs cvs.
Proof. intros H. split; [lia|]. exists []. split_and!; [done|constructor|constructor|].
  rewrite Nat.add_0_r. cbn [app]. by rewrite take_drop. Qed.

Lemma paints_length k i n cvs cvs' : paints k i n cvs cvs' → length cvs' = length cvs.
Proof. intros (H & b & Hb & _ & _ & ->). rewrite !length_app, length_take, length_drop. lia. Qed.

Lemma paints_trans k i n m s1 s2 s3 : paints k i n s1 s2 → paints k (i + n) m s2 s3 → paints k i (n + m) s1 s3.
Proof.
  intros H1 (L2 & b2 & N2 & C2 & G2 & ->). pose proof (paints_length _ _ _ _ _ H1) as EL.
  destruct H1 as (L1 & b1 & N1 & C1 & G1 & ->). split; [lia|]. exists (b1 ++ b2).
  split_and!; [rewrite length_app; lia|by apply Forall_app|by apply Forall_app|].
  assert (length (take i s1) = i) as Ei by (rewrite length_take; lia).
  rewrite (app_assoc (take i s1) b1). 
  rewrite take_app_length' by (rewrite length_app; lia).
  rewrite drop_app_ge by (rewrite length_app; lia). rewrite length_app, Ei, N1, drop_drop, <-!app_assoc. do 4 f_equal. lia.
Qed.

Lemma paints_one k i x cvs : (i < length cvs)%nat → col_of x = k → char_cell x → paints k i 1 cvs (<[i := x]> cvs).
Proof.
  intros Hi Hk Hx. split; [lia|]. exists [x]. split_and!; [done|by apply Forall_singleton|by apply Forall_singleton|].
  rewrite insert_take_drop by done. by replace (i + 1)%nat with (S i) by lia.
Qed.

Definition changes (cvs : list cell) : Z := edges (0, 0) cvs.

Lemma paints_changes k i n cvs cvs' : paints k i n cvs cvs' → changes cvs' ≤ changes cvs + 2.
Proof.
  intros (H & b & Hb & Hc & _ & ->). unfold changes.
  etrans; [apply (edges_paint (0, 0) _ (take n (drop i cvs)) _ _ k Hc)|].
  rewrite <-drop_drop, take_drop, take_drop. done.
Qed.

Lemma paints_chars k i n cvs cvs' : paints k i n cvs cvs' → Forall char_cell cvs → Forall char_cell cvs'.
Proof.
  intros (H & b & Hb & _ & Hg & ->) Hc. repeat (apply Forall_app; split); [by apply Forall_take|done|by apply Forall_drop].
Qed.

(** At most [n] changes more, wherever the drawing goes through. *)
Definition costs (n : Z) (d : draw) : Prop :=
  ∀ cvs cvs', Forall char_cell cvs → d cvs = Some cvs' → Forall char_cell cvs' ∧ changes cvs' ≤ changes cvs + n.

Lemma costs_paints d : (∀ cvs cvs', d cvs = Some cvs' → cvs' = cvs ∨ ∃ k i n, paints k i n cvs cvs') → costs 2 d.
Proof.
  intros H cvs cvs' Hg E. destruct (H _ _ E) as [->|(k & i & n & Hp)]; [split; [done|lia]|].
  split; [by eapply paints_chars|by eapply paints_changes].
Qed.

Lemma costs_le n m d : costs n d → n ≤ m → costs m d.
Proof. intros H Hn cvs cvs' Hg E. destruct (H _ _ Hg E). split; [done|lia]. Qed.

Lemma costs_nothing : costs 0 nothing.
Proof. intros cvs cvs' Hg [= <-]. split; [done|lia]. Qed.

Lemma costs_seq n m d1 d2 : costs n d1 → costs m d2 → costs (n + m) (seq_draw d1 d2).
Proof.
  intros H1 H2 cvs cvs' Hg E. unfold seq_draw in E. apply bind_Some in E as (c1 & E1 & E2).
  destruct (H1 _ _ Hg E1) as [G1 ?]. destruct (H2 _ _ G1 E2). split; [done|lia].
Qed.

Lemma costs_if n (b : bool) d1 d2 : costs n d1 → costs n d2 → costs n (if b then d1 else d2).
Proof. by destruct b. Qed.

Lemma costs_value {A} n (o : option A) k : (∀ x, costs n (k x)) → costs n (with_value o k).
Proof. intros H cvs cvs' Hg E. unfold with_value in E. apply bind_Some in E as (x & _ & E). by eapply H. Qed.

Lemma costs_each {A} n (l : list A) body : (∀ x, costs n (body x)) → costs (Z.of_nat (length l) * n) (for_each l body).
Proof.
  intros H. induction l as [|x l IH]; cbn [for_each length]; [apply costs_nothing|].
  eapply costs_le; [apply costs_seq; [apply H|exact IH]|lia].
Qed.

Lemma length_range a b : Z.of_nat (length (range a b)) = Z.max 0 (b - a + 1).
Proof. unfold range. rewrite length_fmap, length_seq. lia. Qed.

Lemma costs_range n m a b body : (∀ x, costs n (body x)) → 0 ≤ n → b - a + 1 ≤ m → 0 ≤ m → costs (m * n) (for_each (range a b) body).
Proof. intros H Hn Hm H0. eapply costs_le; [by apply costs_each|]. rewrite length_range. nia. Qed.

(** ** The primitives *)

Section Primitives.
Context (rows cols : Z).

Lemma put_loop_paints f : ∀ row col fg bg s cvs cvs',
  put_loop cols f row col fg bg s cvs = Some cvs' →
  cvs' = cvs ∨ (0 ≤ row * cols + col ∧ ∃ n, paints (fg, bg) (Z.to_nat (row * cols + col)) n cvs cvs').
Proof.
  induction f as [|f IH]; intros row col fg bg [|c s] cvs cvs'; cbn [put_loop]; try (intros [= <-]; by left).
  { case_match; [intros [= <-]; by left|done]. }
  destruct (Z.leb_spec cols col); [intros [= <-]; by left|].
  destruct (_ || _) eqn:Eb; [done|]. apply orb_false_elim in Eb as [[El Ei]%orb_false_elim Eh]. btests.
  intros E. right. split; [done|].
  set (x := mk_cell fg bg (take (ulen c) (c :: s))) in *.
  assert (char_cell x) as Hx.
  { right. exists c, (take (ulen c - 1) s). unfold x. cbn [c_s]. pose proof (ulen_pos c).
    destruct (ulen c) as [|u] eqn:Eu; [lia|]. cbn [length] in El. cbn [take]. replace (S u - 1)%nat with u by lia.
    split; [done|]. rewrite length_take. lia. }
  assert (paints (fg, bg) (Z.to_nat (row * cols + col)) 1 cvs (<[Z.to_nat (row * cols + col) := x]> cvs)) as H1
    by (apply paints_one; [lia|done|done]).
  destruct (IH _ _ _ _ _ _ _ E) as [->|(_ & n & Hn)]; [by exists 1%nat|].
  exists (1 + n)%nat. eapply paints_trans; [done|]. by replace (Z.to_nat (row * cols + col) + 1)%nat with (Z.to_nat (row * cols + (col + 1))) by lia.
Qed.

Lemma costs_put row col fg bg s : costs 2 (put rows cols row col fg bg s).
Proof.
  apply costs_paints. intros cvs cvs'. unfold put. case_match; [intros [= <-]; by left|].
  intros [->|(_ & n & Hp)]%put_loop_paints; [by left|right; eauto].
Qed.
Lemma costs_txt row col fg bg s : costs 2 (txt rows cols row col fg bg s).
Proof. apply costs_put. Qed.
Lemma costs_txt_r row col fg bg s : costs 2 (txt_r rows cols row col fg bg s).
Proof. apply costs_value. intros. apply costs_put. Qed.
Lemma costs_txt_c row col fg bg s : costs 2 (txt_c rows cols row col fg bg s).
Proof. apply costs_value. intros. apply costs_put. Qed.

(** One character. *)
Definition one_char (s : bytes) : Prop := ∃ c u, s = c :: u ∧ S (length u) = ulen c.

Lemma put_one row col fg bg ch cvs cvs' : one_char ch → put rows cols row col fg bg ch cvs = Some cvs' →
  0 ≤ row < rows → col < cols → 0 ≤ row * cols + col ∧ paints (fg, bg) (Z.to_nat (row * cols + col)) 1 cvs cvs'.
Proof.
  intros (c & u & -> & Hu). unfold put. case_match eqn:Er; [intros _ ?; apply orb_prop in Er as [?|?]; btests; lia|].
  cbn [length put_loop]. intros E Hrow Hcol. rewrite (proj2 (Z.leb_gt _ _)) in E by lia.
  match type of E with context [if ?b then _ else _] => destruct b eqn:Eb end; [done|]. apply orb_false_elim in Eb as [[El Ei]%orb_false_elim Eh]. btests.
  assert (drop (ulen c) (c :: u) = []) as Ed by (apply nil_length_inv; rewrite length_drop; cbn [length]; lia).
  rewrite Ed in E. assert (cvs' = <[Z.to_nat (row * cols + col) := mk_cell fg bg (take (ulen c) (c :: u))]> cvs) as ->.
  { destruct (length u); cbn [put_loop] in E; by injection E as <-. }
  split; [done|]. apply paints_one; [lia|done|]. right. exists c, u. split; [|done]. cbn [c_s]. apply take_ge. cbn [length]. lia.
Qed.

(** A line of one character in one colour, drawn cell by cell. *)
Lemma line_paints row fg bg ch x n : one_char ch → ∀ a cvs cvs',
  for_each ((λ i, a + Z.of_nat i) <$> seq 0 n) (λ c, put rows cols row (x + c) fg bg ch) cvs = Some cvs' →
  cvs' = cvs ∨ (0 ≤ row * cols + (x + a) ∧ ∃ m, paints (fg, bg) (Z.to_nat (row * cols + (x + a))) m cvs cvs').
Proof.
  intros Hch. induction n as [|n IH]; intros a cvs cvs'; [intros [= <-]; by left|].
  cbn [seq fmap list_fmap for_each]. rewrite Z.add_0_r.
  assert ((λ i, a + Z.of_nat i) <$> seq 1 n = (λ i, (a + 1) + Z.of_nat i) <$> seq 0 n) as ->.
  { rewrite <-(fmap_S_seq 0), <-list_fmap_compose. apply list_fmap_ext. intros i k _. cbn. lia. }
  unfold seq_draw. intros (c1 & E1 & E2)%bind_Some.
  destruct (decide (0 ≤ row < rows ∧ x + a < cols)) as [[Hr Hc]|Ho].
  - destruct (put_one _ _ _ _ _ _ _ Hch E1 Hr Hc) as [H0 H1]. right. split; [done|].
    destruct (IH _ _ _ E2) as [->|(_ & m & Hm)]; [by exists 1%nat|]. exists (1 + m)%nat. eapply paints_trans; [exact H1|].
    by replace (Z.to_nat (row * cols + (x + a)) + 1)%nat with (Z.to_nat (row * cols + (x + (a + 1)))) by lia.
  - assert (∀ c s s', x + a ≤ c → put rows cols row c fg bg ch s = Some s' → s' = s) as Hno.
    { intros c s s' Hle. unfold put. case_match eqn:Er; [by intros [= <-]|]. apply orb_false_elim in Er as [? ?]. btests.
      destruct ch as [|y ch]; [by intros [= <-]|]. cbn [length put_loop]. rewrite (proj2 (Z.leb_le _ _)) by lia. by intros [= <-]. }
    rewrite (Hno _ _ _ (Z.le_refl _) E1) in E2. left. clear E1 IH.
    assert (∀ l s s', (∀ c, c ∈ l → a ≤ c) → for_each l (λ c, put rows cols row (x + c) fg bg ch) s = Some s' → s' = s) as Hall.
    { induction l as [|c l IHl]; intros s s' Hl; cbn [for_each]; [by intros [= <-]|]. unfold seq_draw. intros (s1 & F1 & F2)%bind_Some.
      apply Hno in F1 as ->; [|specialize (Hl c ltac:(left)); lia]. apply (IHl s); [|done]. intros c' Hc'. apply Hl. by right. }
    apply (Hall _ _ _) in E2; [done|]. intros c (i & -> & _)%list_elem_of_fmap. lia.
Qed.

Lemma costs_line row fg bg ch x a b : one_char ch →
  costs 2 (for_each (range a b) (λ c, put rows cols row (x + c) fg bg ch)).
Proof.
  intros Hch. apply costs_paints. intros cvs cvs' E. unfold range in E. apply line_paints in E as [->|(_ & m & Hm)]; [by left| |done].
  right. eauto.
Qed.

Lemma costs_hline y x0 x1 ch fg bg : one_char ch → costs 2 (hline rows cols y x0 x1 ch fg bg).
Proof. intros Hch. exact (costs_line y fg bg ch 0 x0 x1 Hch). Qed.

Lemma costs_vline y0 y1 x ch fg bg m : y1 - y0 + 1 ≤ m → 0 ≤ m → costs (m * 2) (vline rows cols y0 y1 x ch fg bg).
Proof. intros. apply costs_range; [intros; apply costs_put|lia|done|done]. Qed.

Lemma one_space : one_char (B " ").
Proof. by exists " "%char, []. Qed.
Lemma one_hbar : one_char H_BAR.
Proof. by eexists _, _. Qed.

(** A box of [h] rows: six a row, with the lines at the top and the bottom. *)
Lemma costs_box y x h w fg bg : 2 ≤ h → costs (6 * h + 4) (box rows cols y x h w fg bg).
Proof.
  intros Hh. unfold box. eapply costs_le.
  - apply costs_seq; [apply (costs_range 2 h); [|lia|lia|lia]|].
    { intros r. exact (costs_hline r x (x + w - 1) (B " ") 0 bg one_space). }
    apply costs_seq; [apply costs_hline, one_hbar|]. apply costs_seq; [apply costs_hline, one_hbar|].
    apply costs_seq; [apply (costs_vline _ _ _ _ _ _ (h - 2)); lia|].
    apply costs_seq; [apply (costs_vline _ _ _ _ _ _ (h - 2)); lia|].
    repeat (apply costs_seq; [apply costs_put|]). apply costs_put.
  - lia.
Qed.

End Primitives.

(** ** The text of a frame *)

Lemma byte_len z : (length (fmt_d (Z.land z 255)) ≤ 3)%nat.
Proof.
  assert (0 ≤ Z.land z 255 < 256) as H by (change 255 with (Z.ones 8); rewrite Z.land_ones by lia; apply Z.mod_pos_bound; lia).
  unfold fmt_d. rewrite (proj2 (Z.ltb_ge _ _)) by lia. apply fmt_u_length; [lia|]. change (10 ^ Z.of_nat 3) with 1000. lia.
Qed.

Lemma sgr_len open fg bg : (length (sgr open fg bg) ≤ 38 + if open then 4 else 0)%nat.
Proof.
  unfold sgr. pose proof (byte_len (Z.shiftr fg 16)). pose proof (byte_len (Z.shiftr fg 8)). pose proof (byte_len fg).
  pose proof (byte_len (Z.shiftr bg 16)). pose proof (byte_len (Z.shiftr bg 8)). pose proof (byte_len bg).
  destruct open, (fg =? 0), (bg =? 0); cbn [app length B String.list_ascii_of_string SGR0]; rewrite ?length_app; cbn [app length B String.list_ascii_of_string SGR0];
    repeat (rewrite length_app; cbn [app length B String.list_ascii_of_string]); lia.
Qed.

(** Between two cells of a row: [k] is the colour of the cell before column
    [c], [n] the number of changes so far. The text written, a reset still to
    come and the spaces still to be written are within 4 bytes a cell and 42
    bytes a change. *)
Record row_inv (st : row_state) (c : Z) (k : colour) (n : Z) : Prop := mk_row_inv {
  ri_cur : r_cur st ≤ c;
  ri_col : r_cur st = c → (r_fg st, r_bg st) = k;
  ri_gap : r_cur st < c → k = (0, 0);
  ri_shut : r_open st = false → r_fg st = 0 ∧ r_bg st = 0;
  ri_len : Z.of_nat (length (r_out st)) + (if r_open st then 4 else 0) + (c - r_cur st) ≤ 4 * c + 42 * n
}.

Lemma uw_one c u : S (length u) = ulen c → uw (c :: u) = Some 1.
Proof. intros E. apply uw_wide. pose proof (wide_cons c u [] 0 E wide_nil) as H. by rewrite app_nil_r in H. Qed.

Lemma emit_cell_inv st c k n x : char_cell x → row_inv st c k n →
  ∃ st', emit_cell st c x = Some st' ∧
    row_inv st' (c + 1) (col_of x) (n + if bool_decide (col_of x = k) then 0 else 1).
Proof.
  intros Hx [Hc Hk Hg Hs Hl]. unfold emit_cell. destruct Hx as [->|(a & u & Es & Hu)].
  { cbn [c_s cell0]. exists st. split; [done|]. change (col_of cell0) with (0, 0).
    constructor; [lia|lia|done|done|]. case_bool_decide; lia. }
  rewrite Es. set (st1 := if r_cur st <? c then _ else st).
  assert (r_cur st1 = c ∧ (r_fg st1, r_bg st1) = k ∧ (r_open st1 = false → r_fg st1 = 0 ∧ r_bg st1 = 0) ∧
    Z.of_nat (length (r_out st1)) + (if r_open st1 then 4 else 0) ≤ 4 * c + 42 * n) as (E1 & E2 & E3 & E4).
  { unfold st1. destruct (Z.ltb_spec (r_cur st) c) as [Hlt|Hge]; cbn [r_cur r_fg r_bg r_open r_out].
    - split_and!; [done| | |].
      + rewrite (Hg Hlt). destruct (r_open st) eqn:Eo; [done|]. by destruct (Hs eq_refl) as [-> ->].
      + intros _. destruct (r_open st) eqn:Eo; [done|]. by apply Hs.
      + rewrite !length_app, length_replicate. destruct (r_open st); cbn [length SGR0 B String.list_ascii_of_string]; lia.
    - assert (r_cur st = c) as -> by lia. split_and!; [done|by apply Hk; lia|done|lia]. }
  clearbody st1. cbv zeta.
  set (st2 := if (c_fg x =? r_fg st1) && (c_bg x =? r_bg st1) then st1 else _).
  rewrite (uw_one a u Hu). cbn [mbind option_bind]. eexists. split; [reflexivity|].
  assert (r_cur st2 = c ∧ (r_fg st2, r_bg st2) = col_of x ∧ (r_open st2 = false → r_fg st2 = 0 ∧ r_bg st2 = 0) ∧
    Z.of_nat (length (r_out st2)) + (if r_open st2 then 4 else 0) ≤
      4 * c + 42 * (n + if bool_decide (col_of x = k) then 0 else 1)) as (F1 & F2 & F3 & F4).
  { unfold st2. destruct ((c_fg x =? r_fg st1) && (c_bg x =? r_bg st1)) eqn:Eq.
    - apply andb_true_iff in Eq as [G1 G2]. btests. assert (col_of x = k) as Ex by (unfold col_of; by rewrite G1, G2).
      rewrite bool_decide_true by done. split_and!; [done|congruence|done|lia].
    - assert (col_of x ≠ k) as Ex.
      { rewrite <-E2. intros [= G1 G2]. rewrite G1, G2, !Z.eqb_refl in Eq. done. }
      rewrite bool_decide_false by done. cbn [r_cur r_fg r_bg r_open r_out]. split_and!; [done|done|done|].
      rewrite length_app. pose proof (sgr_len (r_open st1) (c_fg x) (c_bg x)). destruct (r_open st1); lia. }
  assert (length (a :: u) ≤ 4)%nat as Hlen by (pose proof (ulen_pos a); cbn [length]; lia).
  constructor; cbn [r_cur r_fg r_bg r_open r_out]; [lia|done|lia|done|].
  rewrite length_app. lia.
Qed.

Lemma emit_cells_inv l : ∀ st c k n, Forall char_cell l → row_inv st c k n →
  ∃ st', emit_cells st c l = Some st' ∧ row_inv st' (c + Z.of_nat (length l)) (end_col k l) (n + edges k l).
Proof.
  induction l as [|x l IH]; intros st c k n Hl Hi; cbn [emit_cells edges length].
  { exists st. split; [done|]. by rewrite !Z.add_0_r. }
  apply Forall_cons_1 in Hl as [Hx Hl]. destruct (emit_cell_inv _ _ _ _ _ Hx Hi) as (st1 & -> & H1). cbn [mbind option_bind].
  destruct (IH _ _ _ _ Hl H1) as (st2 & E & H2). exists st2. split; [done|]. rewrite end_col_cons.
  replace (c + Z.of_nat (S (length l))) with (c + 1 + Z.of_nat (length l)) by lia. by rewrite Z.add_assoc.
Qed.

Section Emit.
Context (rows cols : Z).

Lemma emit_row_len r l : Forall char_cell l →
  ∃ t, emit_row rows r l = Some t ∧ Z.of_nat (length t) ≤ 4 * Z.of_nat (length l) + 42 * edges (0, 0) l + 4.
Proof.
  intros Hl. unfold emit_row.
  destruct (emit_cells_inv l (mk_row 0 0 false 0 []) 0 (0, 0) 0 Hl) as (st & -> & [Hc _ _ _ Hn]); [by constructor|].
  cbn [mbind option_bind]. eexists. split; [reflexivity|]. rewrite !length_app. cbn [length B String.list_ascii_of_string]. rewrite length_app.
  destruct (r_open st), (r <? rows - 1); cbn [length SGR0 B String.list_ascii_of_string]; lia.
Qed.

(** The rows from [r] on; the colours restart with every row. *)
Lemma emit_rows_len cvs n : ∀ r k, 0 ≤ r → 0 ≤ cols → Forall char_cell cvs →
  ∃ t, emit_rows rows cols ((λ i, r + Z.of_nat i) <$> seq 0 n) cvs = Some t ∧
    Z.of_nat (length t) ≤ Z.of_nat n * (4 * cols + 46) + 42 * edges k (drop (Z.to_nat (r * cols)) cvs).
Proof.
  induction n as [|n IH]; intros r k Hr Hc Hg.
  { exists []. split; [done|]. pose proof (edges_nonneg (drop (Z.to_nat (r * cols)) cvs) k). cbn [length]. lia. }
  cbn [seq fmap list_fmap emit_rows]. rewrite Z.add_0_r.
  assert ((λ i, r + Z.of_nat i) <$> seq 1 n = (λ i, (r + 1) + Z.of_nat i) <$> seq 0 n) as ->.
  { rewrite <-(fmap_S_seq 0), <-list_fmap_compose. apply list_fmap_ext. intros i x _. cbn. lia. }
  set (rest := drop (Z.to_nat (r * cols)) cvs). unfold row_cells. fold rest.
  assert (Forall char_cell rest) as Hrest by (by apply Forall_drop).
  destruct (emit_row_len r (take (Z.to_nat cols) rest)) as (a & -> & Ha); [by apply Forall_take|].
  destruct (IH (r + 1) (end_col k (take (Z.to_nat cols) rest))) as (b & -> & Hb); [lia|done|done|].
  cbn [mbind option_bind]. exists (a ++ b). split; [done|]. rewrite length_app.
  replace (Z.to_nat ((r + 1) * cols)) with (Z.to_nat (r * cols) + Z.to_nat cols)%nat in Hb by lia.
  rewrite <-drop_drop in Hb. fold rest in Hb.
  pose proof (edges_app (take (Z.to_nat cols) rest) k (drop (Z.to_nat cols) rest)) as Ee. rewrite take_drop in Ee.
  pose proof (edges_start (take (Z.to_nat cols) rest) (0, 0) k). rewrite length_take in Ha. lia.
Qed.

(** A frame with at most 27 changes a row fits, from 53 columns on. *)
Lemma frame_fits cvs : 53 ≤ cols → 0 ≤ rows → Forall char_cell cvs → changes cvs ≤ 27 * rows →
  ∃ t, frame_emit rows cols cvs = Some t.
Proof.
  intros Hc Hr Hg Hn. unfold frame_emit, range.
  destruct (emit_rows_len cvs (Z.to_nat (rows - 1 - 0 + 1)) 0 (0, 0) ltac:(lia) ltac:(lia) Hg) as (t & -> & Ht).
  cbn [mbind option_bind]. change (edges (0, 0) (drop (Z.to_nat (0 * cols)) cvs)) with (changes cvs) in Ht.
  rewrite Z2Nat.id in Ht by lia.
  eexists. rewrite (proj2 (Z.leb_le _ _)); [reflexivity|]. unfold frame_need. cbn [length app B String.list_ascii_of_string].
  rewrite length_app. cbn [length].
  assert (0 ≤ rows * (cols - 53)) by nia. lia.
Qed.

End Emit.

(** ** The views *)

Lemma costs_max n m (b : bool) d1 d2 : costs n d1 → costs m d2 → costs (Z.max n m) (if b then d1 else d2).
Proof. intros H1 H2. destruct b; eapply costs_le; [exact H1|lia|exact H2|lia]. Qed.

Create HintDb cost discriminated.
#[local] Hint Resolve costs_nothing costs_put costs_txt costs_txt_r costs_txt_c one_space one_hbar : cost.

Ltac cost_step :=
  lazymatch goal with
  | |- costs _ (seq_draw _ _) => eapply costs_seq
  | |- costs _ (with_value _ _) => eapply costs_value; intros ?
  | |- costs _ (if _ then _ else _) => eapply costs_max
  | |- costs _ (hline _ _ _ _ _ _ _ _) => apply costs_hline
  | |- costs _ (box _ _ _ _ _ _ _ _) => apply costs_box; lia
  end; cbn zeta beta.
Ltac cost := cbn zeta beta; repeat cost_step; eauto with cost nocore.
Ltac by_cost := eapply costs_le; [cost|lia].

Section Views.
Context (rows cols : Z) (Hrows : 11 ≤ rows).
Context (now : site → Z) (time : Z).

Lemma costs_tabs views view : ∀ x, costs (6 * Z.of_nat (length views)) (draw_tabs rows cols views view x).
Proof.
  induction views as [|i views IH]; intros x; cbn [draw_tabs length]; [apply costs_nothing|].
  eapply costs_le; [eapply costs_value; intros w; eapply costs_seq; [cost|apply IH]|lia].
Qed.

Lemma costs_header g : costs 34 (draw_header rows cols time g).
Proof.
  unfold draw_header. eapply costs_le; [cost; apply (costs_tabs VIEWS)|]. change (Z.of_nat (length VIEWS)) with 4. lia.
Qed.

Lemma costs_footer ui : costs 8 (draw_footer rows cols ui).
Proof. unfold draw_footer. by_cost. Qed.

Lemma costs_slab y label cnt rtext : costs 12 (slab rows cols y label cnt rtext).
Proof. unfold slab. destruct cnt, rtext; by_cost. Qed.

Lemma range_split a m b : a ≤ m ≤ b + 1 → range a b = range a (m - 1) ++ range m b.
Proof.
  intros H. unfold range. replace (Z.to_nat (b - a + 1)) with (Z.to_nat (m - 1 - a + 1) + Z.to_nat (b - m + 1))%nat by lia.
  rewrite seq_app, fmap_app. f_equal. rewrite Nat.add_0_l.
  set (k := Z.to_nat (m - 1 - a + 1)). rewrite <-(Nat.add_0_r k) at 1. rewrite <-fmap_add_seq, <-list_fmap_compose.
  apply list_fmap_ext. intros i x _. unfold compose, k. lia.
Qed.

Lemma for_each_app {A} (l1 l2 : list A) body cvs :
  for_each (l1 ++ l2) body cvs = seq_draw (for_each l1 body) (for_each l2 body) cvs.
Proof.
  revert cvs. induction l1 as [|x l1 IH]; intros cvs; [done|]. cbn [app for_each]. unfold seq_draw in *.
  destruct (body x cvs); cbn [mbind option_bind]; [apply IH|done].
Qed.

Lemma for_each_same {A} (l : list A) body body' cvs : (∀ x, x ∈ l → body x = body' x) → for_each l body cvs = for_each l body' cvs.
Proof.
  revert cvs. induction l as [|x l IH]; intros cvs H; [done|]. cbn [for_each]. unfold seq_draw. rewrite H by left.
  destruct (body' x cvs); cbn [mbind option_bind]; [|done]. apply IH. intros y Hy. apply H. by right.
Qed.

Lemma costs_ext n d d' : (∀ cvs, d cvs = d' cvs) → costs n d' → costs n d.
Proof. intros E H cvs cvs' Hg. rewrite E. by apply H. Qed.

(** A bar is two lines: the filled part and the rest. *)
Lemma costs_progress y x w b total up : costs 4 (progress_bar rows cols y x w b total up).
Proof.
  unfold progress_bar. cbn zeta.
  match goal with |- context [_ <? Z.quot ?a ?b] => set (filled := Z.quot a b) end.
  set (fillc := if up then C_BLUE else C_ACC). clearbody filled fillc.
  destruct (Z.le_gt_cases w 0) as [Hw|Hw].
  { assert (range 0 (w - 1) = []) as -> by (unfold range; by replace (Z.to_nat (w - 1 - 0 + 1)) with 0%nat by lia).
    eapply costs_le; [apply costs_nothing|lia]. }
  set (m := Z.max 0 (Z.min filled w)).
  apply (costs_ext _ _ (seq_draw
    (for_each (range 0 (m - 1)) (λ c, put rows cols y (x + c) fillc C_INSET FULL_BLOCK))
    (for_each (range m (w - 1)) (λ c, put rows cols y (x + c) C_MUTED C_INSET LIGHT_SHADE)))).
  { intros cvs. rewrite (range_split 0 m (w - 1)), for_each_app by lia. unfold seq_draw.
    rewrite (for_each_same _ _ (λ c, put rows cols y (x + c) fillc C_INSET FULL_BLOCK) cvs).
    2:{ intros c Hc%elem_of_range. by rewrite (proj2 (Z.ltb_lt _ _)) by lia. }
    destruct (for_each _ _ cvs) as [c1|]; [|done]. cbn [mbind option_bind]. apply for_each_same.
    intros c Hc%elem_of_range. by rewrite (proj2 (Z.ltb_ge _ _)) by lia. }
  eapply costs_le; [apply costs_seq; apply costs_line; by eexists _, _|lia].
Qed.

Lemma costs_events ui y : costs (12 * Z.max 0 (event_rows ui)) (draw_event_strip rows cols ui y).
Proof.
  unfold draw_event_strip. eapply costs_le; [apply (costs_range 12 (Z.max 0 (event_rows ui))); [|lia..]|lia].
  intros i. unfold draw_event. by_cost.
Qed.

Lemma costs_stat y seg width val label : costs 4 (draw_stat rows cols y seg width val label).
Proof. unfold draw_stat. by_cost. Qed.

#[local] Hint Resolve costs_stat costs_slab costs_header costs_footer costs_events : cost.

Lemma costs_card g y : costs 64 (draw_status_card rows cols now g y).
Proof. unfold draw_status_card. by_cost. Qed.

#[local] Hint Resolve costs_progress costs_card : cost.

Lemma costs_xfer_card ui y c focused : costs 36 (draw_xfer_card rows cols ui y c focused).
Proof. unfold draw_xfer_card. by_cost. Qed.

(** The cards that are drawn, and what follows them. *)
Lemma costs_cards ui l y nfit n k : (∀ shown, costs n (k shown)) →
  ∀ shown, costs (36 * Z.max 0 (nfit - shown) + n) (draw_cards rows cols ui l y shown nfit k).
Proof.
  intros Hk. induction l as [|c l IH]; intros shown; cbn [draw_cards]; [eapply costs_le; [apply Hk|lia]|].
  destruct (Z.ltb_spec shown nfit); cbn [negb]; [|eapply costs_le; [apply Hk|lia]].
  destruct (negb (sc_xfer_active c)); [apply IH|].
  eapply costs_le; [apply costs_seq; [apply costs_xfer_card|apply IH]|lia].
Qed.

Lemma costs_chips ui l y n k : (∀ x drawn, costs n (k x drawn)) →
  ∀ i x drawn, 0 ≤ drawn → costs (6 * Z.max 0 (4 - drawn) + n) (draw_chips rows cols now ui l i y x drawn k).
Proof.
  intros Hk. induction l as [|c l IH]; intros i x drawn Hd; cbn [draw_chips]; [eapply costs_le; [apply Hk|lia]|].
  destruct (Z.ltb_spec drawn 4); cbn [negb]; [|eapply costs_le; [apply Hk|lia]].
  eapply costs_le; [do 3 (eapply costs_value; intros ?); eapply costs_max; [apply Hk|]|].
  - eapply costs_seq; [apply costs_put|]. eapply costs_seq; [apply costs_txt|]. eapply costs_seq; [apply costs_txt|].
    apply (IH _ _ (drawn + 1)). lia.
  - lia.
Qed.

Lemma costs_connected ui y footer_top : costs 38 (draw_connected rows cols now ui y footer_top).
Proof.
  unfold draw_connected. cbn zeta. eapply costs_le.
  - apply costs_seq; [apply costs_slab|]. apply costs_max; [apply costs_nothing|]. apply (costs_chips _ _ _ 2); [|lia]. intros x d. by_cost.
  - lia.
Qed.

(** Header, footer, the largest overlay and the edit line take 132. *)
Lemma costs_status g : 0 ≤ event_rows (g_ui g) ≤ 2 → costs (27 * rows - 132) (draw_status rows cols now g).
Proof.
  intros He. unfold draw_status. cbn zeta. set (e := event_rows (g_ui g)) in *.
  set (avail := rows - 2 - (2 + e + 6 + 1)). set (nfit := Z.quot avail 3).
  assert (36 * Z.max 0 nfit ≤ 12 * Z.max 0 avail) as Hn.
  { unfold nfit. destruct (Z.le_gt_cases 0 avail).
    - rewrite Z.quot_div_nonneg by lia. Z.div_mod_to_equations. lia.
    - assert (Z.quot avail 3 ≤ 0) by (apply Z.quot_le_upper_bound; lia). lia. }
  eapply costs_le.
  - apply costs_seq; [apply costs_events|]. apply costs_seq; [apply costs_card|]. apply costs_seq; [apply costs_slab|].
    apply (costs_cards _ _ _ _ 62). intros shown. eapply costs_le; [apply costs_max|].
    + apply costs_seq; [apply costs_box; lia|]. apply costs_seq; [apply costs_txt_c|apply costs_connected].
    + apply costs_connected.
    + lia.
  - fold e. rewrite Z.sub_0_r. unfold avail in *. lia.
Qed.

(** ** Tables *)

Lemma costs_scrollbar y h scroll visible total : 1 ≤ h → costs (4 * h) (draw_scrollbar rows cols y h scroll visible total).
Proof.
  intros Hh. unfold draw_scrollbar. cbn zeta. set (th := if _ <? 1 then 1 else _).
  assert (1 ≤ th ≤ h) as Hth.
  { unfold th. rewrite Z.quot_div_nonneg by lia. case_match; btests; [lia|]. split; [lia|]. apply Z.div_le_upper_bound; lia. }
  clearbody th. eapply costs_le.
  - apply costs_seq; [apply (costs_range 2 h); [intros; apply costs_put|lia..]|].
    apply costs_max; [apply costs_nothing|]. apply (costs_range 2 h); [intros; apply costs_put|lia..].
  - lia.
Qed.

Lemma costs_hist_row ui idx ry : costs 12 (draw_hist_row rows cols ui idx ry).
Proof. unfold draw_hist_row. by_cost. Qed.

Lemma costs_transfers ui : costs (27 * rows - 132) (fst (draw_transfers rows cols ui)).
Proof.
  unfold draw_transfers. cbn zeta. cbn [fst].
  assert (hist_rows rows = rows - 7) as -> by (unfold hist_rows; cbn zeta; case_match; btests; lia).
  eapply costs_le.
  - apply costs_seq; [apply costs_slab|]. do 3 (apply costs_seq; [apply costs_txt|]). do 2 (apply costs_seq; [apply costs_txt_r|]).
    apply costs_seq; [apply costs_hline, one_hbar|]. apply costs_seq; [|apply costs_scrollbar; lia].
    apply (costs_range 12 (rows - 7)); [intros; apply costs_hist_row|lia..].
  - lia.
Qed.

Lemma costs_client_row ui ci ry : costs 10 (draw_client_row rows cols now ui ci ry).
Proof. unfold draw_client_row. by_cost. Qed.

Lemma costs_clients ui : costs (27 * rows - 132) (fst (draw_clients rows cols now ui)).
Proof.
  unfold draw_clients. cbn zeta. cbn [fst].
  assert (cli_rows rows = rows - 8) as -> by (unfold cli_rows; cbn zeta; case_match; btests; lia).
  eapply costs_le.
  - apply costs_seq; [apply costs_slab|]. do 3 (apply costs_seq; [apply costs_txt|]). apply costs_seq; [apply costs_txt_r|].
    apply costs_seq; [apply costs_hline, one_hbar|]. apply costs_seq; [|apply costs_seq; [apply costs_scrollbar; lia|apply costs_txt]].
    apply (costs_range 10 (rows - 8)); [intros; apply costs_client_row|lia..].
  - lia.
Qed.

(** ** Settings and overlays *)

Lemma costs_setting ui y i key val : costs 14 (draw_setting rows cols ui y i key val).
Proof. unfold draw_setting. by_cost. Qed.
#[local] Hint Resolve costs_setting : cost.

Lemma costs_settings ui : 0 ≤ event_rows ui ≤ 2 → costs (27 * rows - 132) (draw_settings rows cols ui).
Proof. intros He. unfold draw_settings. by_cost. Qed.

Lemma costs_path_lines n : ∀ y s, costs (2 * Z.of_nat n + 2) (path_lines rows cols n y s).
Proof.
  induction n as [|n IH]; intros y [|c s]; cbn [path_lines]; try (eapply costs_le; [apply costs_nothing|lia]).
  - by_cost.
  - eapply costs_le; [apply costs_seq; [apply costs_txt|apply IH]|lia].
Qed.

Lemma costs_panel hh : 2 ≤ hh → costs (6 * hh + 4) (overlay_panel rows cols hh).
Proof. apply costs_box. Qed.

Lemma costs_close y : costs 2 (close_hint rows cols y).
Proof. apply costs_txt_r. Qed.

#[local] Hint Resolve costs_path_lines costs_close : cost.
#[local] Hint Extern 1 (costs _ (overlay_panel _ _ _)) => apply costs_panel; lia : cost.

Lemma costs_detail_hist ui : costs 80 (draw_detail_hist rows cols ui).
Proof. unfold draw_detail_hist. by_cost. Qed.
Lemma costs_detail_xfer ui : costs 80 (draw_detail_xfer rows cols ui).
Proof. unfold draw_detail_xfer. by_cost. Qed.
Lemma costs_detail_client ui : costs 80 (draw_detail_client rows cols ui).
Proof. unfold draw_detail_client. by_cost. Qed.

Lemma costs_help : costs 80 (draw_help rows cols).
Proof.
  unfold draw_help. cbn zeta. eapply costs_le.
  - apply costs_seq; [apply costs_panel; lia|]. apply costs_seq; [apply costs_txt|].
    apply (costs_range 2 6); [|lia..]. intros i. by_cost.
  - lia.
Qed.
#[local] Hint Resolve costs_detail_hist costs_detail_xfer costs_detail_client costs_help : cost.

Lemma costs_overlay ui : costs 80 (draw_detail_or_help rows cols ui).
Proof. unfold draw_detail_or_help. by_cost. Qed.

Lemma costs_edit_line ui : costs 10 (draw_edit_line rows cols now ui).
Proof. unfold draw_edit_line. by_cost. Qed.

Lemma costs_view g : 0 ≤ event_rows (g_ui g) ≤ 2 → costs (27 * rows - 132) (fst (draw_view rows cols now g)).
Proof.
  intros He. unfold draw_view. repeat (case_match; [cbn [fst]; auto using costs_status, costs_transfers, costs_clients, costs_settings|]).
  cbn [fst]. eapply costs_le; [apply costs_nothing|lia].
Qed.

Lemma changes_blank n : changes (replicate n cell0) = 0.
Proof. unfold changes. apply (edges_one (0, 0)). by apply Forall_replicate. Qed.

(** A frame that was rendered can be written. *)
Lemma render_fits g cvs : 53 ≤ cols → 0 ≤ event_rows (g_ui g) ≤ 2 →
  fst (render rows cols now time g) = Some cvs → ∃ t, frame_emit rows cols cvs = Some t.
Proof.
  intros Hc He. unfold render. pose proof (costs_view g He) as Hv. destruct (draw_view rows cols now g) as [view ui]. cbn [fst] in *.
  intros E. apply frame_fits; [done|lia|..].
  all: assert (costs (27 * rows) (draw_header rows cols time g ;; view ;; draw_footer rows cols ui ;; draw_detail_or_help rows cols ui ;;
    if u_edit_field ui =? OPFTP_UI_EDIT_NONE then nothing else draw_edit_line rows cols now ui)%draw) as H.
  1,3: eapply costs_le; [apply costs_seq; [apply costs_header|]; apply costs_seq; [exact Hv|]; apply costs_seq; [apply costs_footer|];
         apply costs_seq; [apply costs_overlay|]; apply costs_max; [apply costs_nothing|apply costs_edit_line]|lia].
  all: destruct (H _ _ ltac:(apply Forall_replicate; by left) E) as [H1 H2]; unfold blank in H2; rewrite ?changes_blank in H2; done || lia.
Qed.

End Views.

End TuiCost.
