(* ===== verification/TuiSafe.v ===== *)
(** * The terminal screen stays on its canvas

    The texts a frame shows are whole characters and fit their fields; on a
    screen of at least 53 columns every view writes only to the canvas and its
    text fits the output buffer (TuiCost), in every round of the loop. On a narrower one the tabs of the header start
    before the first cell. *)

From S2P Require Import Prelude CLib World Ui Canvas Server Tui TuiCost.
Import CLib Ui Canvas Server Tui TuiCost.

Local Open Scope Z_scope.

Module TuiSafe.

(** ** Texts *)

Create HintDb tui.

Lemma ascii_const s : forallb (λ c, cv c <? 128) s = true → is_ascii s.
Proof. intros H. apply Forall_forall. intros c Hc. rewrite forallb_forall in H. apply list_elem_of_In, H in Hc. by apply Z.ltb_lt. Qed.

Lemma ascii_dec f : ∀ n acc, is_ascii acc → is_ascii (dec_loop f n acc).
Proof.
  induction f as [|f IH]; intros n acc H; [done|]. cbn [dec_loop].
  assert (is_ascii (digit (n mod 10) :: acc)).
  { constructor; [|done]. rewrite cv_digit; pose proof (Z.mod_pos_bound n 10); lia. }
  destruct (n <? 10); [done|]. by apply IH.
Qed.

Lemma ascii_fmt_u n : is_ascii (fmt_u n).
Proof. apply ascii_dec. constructor. Qed.
Lemma ascii_fmt_d n : is_ascii (fmt_d n).
Proof. unfold fmt_d. destruct (n <? 0); [constructor; [done|]|]; apply ascii_fmt_u. Qed.
Lemma ascii_zeros n : is_ascii (replicate n "0"%char).
Proof. by apply Forall_replicate. Qed.
Lemma ascii_fmt_0d w n : is_ascii (fmt_0d w n).
Proof.
  unfold fmt_0d. destruct (n <? 0); [constructor; [done|]|]; (apply ascii_app; [apply ascii_zeros|apply ascii_fmt_u]).
Qed.
Lemma ascii_with_sign b t : is_ascii t → is_ascii (with_sign b t).
Proof. intros H. destruct b; [by constructor|done]. Qed.

#[export] Hint Resolve ascii_app ascii_bprintf ascii_fmt_u ascii_fmt_d ascii_fmt_0d ascii_with_sign ascii_take : tui.
#[export] Hint Extern 3 (is_ascii _) => (apply ascii_const; reflexivity) : tui.

Lemma ascii_fmt_f1 x : is_ascii (fmt_f1 x).
Proof. destruct x; cbn [fmt_f1]; auto 6 with tui. Qed.
Lemma ascii_fmt_f0 x : is_ascii (fmt_f0 x).
Proof. destruct x; cbn [fmt_f0]; auto 6 with tui. Qed.
#[export] Hint Resolve ascii_fmt_f1 ascii_fmt_f0 : tui.
Lemma ascii_fmt_size n b : is_ascii (opftp_ui_fmt_size n b).
Proof. unfold opftp_ui_fmt_size. repeat case_match; auto 6 with tui. Qed.
Lemma ascii_fmt_rate n b : is_ascii (opftp_ui_fmt_rate n b).
Proof. unfold opftp_ui_fmt_rate. repeat case_match; auto 6 with tui. Qed.
Lemma ascii_fmt_dur n b : is_ascii (opftp_ui_fmt_dur n b).
Proof. unfold opftp_ui_fmt_dur. auto 10 with tui. Qed.
Lemma ascii_fmt_idle n b : is_ascii (opftp_ui_fmt_idle n b).
Proof. unfold opftp_ui_fmt_idle. auto 10 with tui. Qed.
#[export] Hint Resolve ascii_fmt_size ascii_fmt_rate ascii_fmt_dur ascii_fmt_idle : tui.
Lemma ascii_view_name v : is_ascii (opftp_ui_view_name v).
Proof.
  unfold opftp_ui_view_name. case_match; [constructor|]. destruct (Z.to_nat v) as [|[|[|[|n]]]]; cbn; auto with tui.
Qed.
Lemma ascii_result r : is_ascii (result_text r).
Proof. unfold result_text. repeat case_match; auto with tui. Qed.
#[export] Hint Resolve ascii_view_name ascii_result whole_ascii whole_app : tui.
#[export] Hint Extern 3 (whole _) => (apply whole_uw; reflexivity) : tui.

Lemma bprintf_len n s : (length (bprintf n s) ≤ n - 1)%nat.
Proof. unfold bprintf. rewrite length_take. lia. Qed.
Lemma whole_fits n s : whole s → (length s < n)%nat → whole (bprintf n s).
Proof. intros. unfold bprintf. by rewrite take_ge by lia. Qed.
Lemma whole_cut n a b : whole a → is_ascii b → (length a < n)%nat → whole (bprintf n (a ++ b)).
Proof.
  intros Ha Hb Hn. unfold bprintf. rewrite take_app, (take_ge a) by lia. apply whole_app; [done|]. by apply whole_ascii, ascii_take.
Qed.

Lemma whole_twice n m s : (m ≤ n)%nat → whole (bprintf m s) → whole (bprintf n (bprintf m s)).
Proof. intros Hn H. change (whole (take (n - 1) (bprintf m s))). rewrite take_ge; [done|]. pose proof (bprintf_len m s). lia. Qed.

Lemma view_name_len v : (length (opftp_ui_view_name v) ≤ 9)%nat.
Proof. unfold opftp_ui_view_name. case_match; [cbn; lia|]. by destruct (Z.to_nat v) as [|[|[|[|n]]]]; apply Nat.leb_le. Qed.

(** The lengths of the formatted parts of a goal. *)
Ltac lens :=
  unfold opftp_ui_fmt_size, opftp_ui_fmt_rate, opftp_ui_fmt_dur, opftp_ui_fmt_idle in *; cbn [length app]; rewrite ?length_app;
  repeat match goal with |- context [length (bprintf ?n ?s)] =>
    lazymatch goal with H : (length (bprintf n s) ≤ _)%nat |- _ => fail | _ => pose proof (bprintf_len n s) end end;
  repeat match goal with
  | |- context [length (B ?s)] => let v := eval vm_compute in (length (B s)) in change (length (B s)) with v
  | H : context [length (B ?s)] |- _ => let v := eval vm_compute in (length (B s)) in change (length (B s)) with v in H
  end;
  cbn [length MIDDOT EN_DASH EM_DASH TIMES]; lia.

(** ** What a frame shows *)

Record client_text (c : opftp_snapshot_client) : Prop := mk_client_text {
  ct_peer : is_ascii (sc_peer c);
  ct_user : is_ascii (sc_user c) ∧ (length (sc_user c) < 64)%nat;
  ct_cwd : is_ascii (sc_cwd c);
  ct_op : is_ascii (sc_xfer_op c) ∧ (length (sc_xfer_op c) < 8)%nat;
  ct_path : is_ascii (sc_xfer_path c)
}.

Record snap_text (s : opftp_snapshot) : Prop := mk_snap_text {
  sx_root : is_ascii (sn_root s);
  sx_num : sn_num_clients s = Z.of_nat (length (sn_clients s));
  sx_clients : Forall client_text (sn_clients s)
}.

Definition hist_text (h : opftp_ui_hist) : Prop :=
  is_ascii (hi_op h) ∧ is_ascii (hi_path h) ∧ 0 ≤ hi_hh h < 100 ∧ 0 ≤ hi_mm h < 100.
Definition trk_text (t : opftp_ui_trk) : Prop := is_ascii (t_peer t) ∧ is_ascii (t_xfer_op t) ∧ is_ascii (t_xfer_path t).
Definition ev_ok (e : opftp_ui_ev) : Prop := whole (ev_text e) ∧ (length (ev_text e) < 72)%nat.

Record ui_text (ui : opftp_ui) : Prop := mk_ui_text {
  ux_rings : rings_ok ui;
  ux_snap : snap_text (u_snap ui);
  ux_events : Forall ev_ok (u_events ui);
  ux_hist : Forall hist_text (u_hist ui);
  ux_trk : Forall trk_text (u_trk ui);
  ux_edit : is_ascii (u_edit_buf ui);
  ux_xfers : 0 ≤ u_session_xfers ui < 2 ^ 64;
  ux_scroll : 0 ≤ u_scroll_hist ui ≤ 48
}.

Record shown (g : tui) : Prop := mk_shown {
  sh_ui : ui_text (g_ui g);
  sh_version : is_ascii (g_version g);
  sh_ip : whole (g_local_ip g) ∧ (length (g_local_ip g) < 24)%nat
}.

(** ** The drawings *)

Section Draw.
Context (rows cols : Z) (Hrows : 11 ≤ rows) (Hcols : 53 ≤ cols).
Context (now : site → Z) (time : Z) (Htime : is_Some (gmtime_r time)).

Abbreviation ok := (safe rows cols).

Lemma ok_uw s k : whole s → (∀ w, 0 ≤ w ≤ Z.of_nat (length s) → ok (k w)) → ok (with_value (uw s) k).
Proof. intros [n Hn] H. eapply safe_value; [by apply uw_wide|]. apply H. by apply wide_len. Qed.

Lemma ok_trunc n s m k : whole s → 8 ≤ n → (∀ t, whole t → Z.of_nat (length t) < n → ok (k t)) → ok (with_value (t_trunc n s m) k).
Proof. intros Hs Hn H. destruct (t_trunc_whole n s m Hs Hn) as (t & E & H1 & H2). eapply safe_value; [done|]. auto. Qed.

Lemma ok_if (b : bool) d1 d2 : ok d1 → ok d2 → ok (if b then d1 else d2).
Proof. by destruct b. Qed.

Lemma ok_put row col fg bg s : whole s → place cols row col → ok (put rows cols row col fg bg s).
Proof. intros. apply safe_put; [done|done|lia]. Qed.
Lemma ok_txt row col fg bg s : whole (bprintf 512 s) → place cols row col → ok (txt rows cols row col fg bg s).
Proof. intros. apply safe_txt; [done|done|lia]. Qed.
Lemma ok_txt_r row xr fg bg s : whole (bprintf 512 s) → place cols row (xr - Z.of_nat (length s)) → ok (txt_r rows cols row xr fg bg s).
Proof. intros. apply safe_txt_r; [done|done|lia]. Qed.
Lemma ok_txt_c row xr fg bg s : whole (bprintf 512 s) → place cols row (xr - Z.of_nat (length s)) → ok (txt_c rows cols row xr fg bg s).
Proof. intros. apply safe_txt_c; [done|done|lia]. Qed.
Lemma ok_hline y x0 x1 ch fg bg : whole ch → 0 ≤ x0 → ok (hline rows cols y x0 x1 ch fg bg).
Proof. intros. apply safe_hline; [done|done|lia]. Qed.
Lemma ok_box y x h w fg bg : 0 ≤ x → 1 ≤ w → ok (box rows cols y x h w fg bg).
Proof. intros. apply safe_box; [done|done|lia]. Qed.

Ltac wholes := repeat (lazymatch goal with |- whole (_ ++ _) => apply whole_app end); solve [eauto 8 with tui].
Ltac text :=
  first [assumption | solve [eauto 12 with tui] | solve [apply whole_fits; [wholes|lens]]
        | match goal with |- whole (bprintf _ (if ?b then _ else _)) => destruct b; solve [eauto 12 with tui] end | idtac].
Ltac draw_step :=
  lazymatch goal with
  | |- safe _ _ (seq_draw _ _) => apply safe_seq
  | |- safe _ _ nothing => apply safe_nothing
  | |- safe _ _ (put _ _ _ _ _ _ _) => apply ok_put
  | |- safe _ _ (txt _ _ _ _ _ _ _) => apply ok_txt
  | |- safe _ _ (txt_r _ _ _ _ _ _ _) => apply ok_txt_r
  | |- safe _ _ (txt_c _ _ _ _ _ _ _) => apply ok_txt_c
  | |- safe _ _ (hline _ _ _ _ _ _ _ _) => apply ok_hline
  | |- safe _ _ (box _ _ _ _ _ _ _ _) => apply ok_box
  | |- safe _ _ (with_value (uw _) _) => apply ok_uw; [text|intros ??]
  | |- safe _ _ (with_value (t_trunc _ _ _) _) => apply ok_trunc; [text|lia|intros ???]
  | |- safe _ _ (if _ then _ else _) => apply ok_if
  end; cbn zeta beta; text; try (unfold place; lens).
Ltac draw := cbn zeta beta; repeat draw_step.

Lemma fmt_0d_2_len n : 0 ≤ n < 100 → length (fmt_0d 2 n) = 2%nat.
Proof. intros. by rewrite fmt_0d_2. Qed.
Lemma ascii_hh_mm h m : is_ascii (hh_mm h m).
Proof. unfold hh_mm. auto 8 with tui. Qed.
Lemma hh_mm_len h m : 0 ≤ h < 100 → 0 ≤ m < 100 → length (hh_mm h m) = 5%nat.
Proof. intros. unfold hh_mm. by rewrite !fmt_0d_2. Qed.
Local Hint Resolve ascii_hh_mm : tui.

Lemma ok_tabs views view : ∀ x, 0 ≤ x → ok (draw_tabs rows cols views view x).
Proof. induction views as [|i views IH]; intros x Hx; cbn [draw_tabs]; draw. apply IH. lia. Qed.

Lemma ok_header g : shown g → ok (draw_header rows cols time g).
Proof.
  intros Hg. pose proof (sh_version g Hg). destruct Htime as [t Ht]. unfold draw_header. draw.
  eapply safe_value; [exact Ht|]. pose proof (gmtime_ranges _ _ Ht) as Hr.
  pose proof (hh_mm_len (tm_hour t) (tm_min t) ltac:(lia) ltac:(lia)) as Hl. cbn zeta.
  apply safe_seq; [|draw]. eapply safe_value; [reflexivity|]. apply ok_uw; [text|]. intros w Hw. apply ok_tabs. lia.
Qed.

Lemma ok_footer ui : ok (draw_footer rows cols ui).
Proof.
  unfold draw_footer. pose proof (view_name_len (u_view ui)) as Hl.
  assert (whole (bprintf 40 (B " " ++ EM_DASH ++ B " VIEW " ++ fmt_d (u_view ui + 1) ++ B "/" ++ fmt_d OPFTP_UI_V_COUNT))) as Hr.
  { apply (whole_cut 40 (B " " ++ EM_DASH ++ B " VIEW ")); [text|text|cbn; lia]. }
  revert Hr. generalize (bprintf_len 40 (B " " ++ EM_DASH ++ B " VIEW " ++ fmt_d (u_view ui + 1) ++ B "/" ++ fmt_d OPFTP_UI_V_COUNT)).
  generalize (bprintf 40 (B " " ++ EM_DASH ++ B " VIEW " ++ fmt_d (u_view ui + 1) ++ B "/" ++ fmt_d OPFTP_UI_V_COUNT)).
  intros txt Hn Hw. cbn zeta. pose proof (whole_fits 512 txt Hw ltac:(lia)). draw.
Qed.

Lemma ok_slab y label cnt rtext : 2 ≤ y → whole (bprintf 512 label) → whole label → from_option (λ s, whole s ∧ (length s < 512)%nat) True cnt →
  from_option (λ s, whole s ∧ (length s ≤ 23)%nat) True rtext → ok (slab rows cols y label cnt rtext).
Proof.
  intros Hy H1 H2 H3 H4. unfold slab. draw.
  all: match goal with |- safe _ _ (match ?o with _ => _ end) => destruct o; cbn in *; draw end.
  all: try (apply whole_fits; [apply H3|lia]); try apply H3; try (apply whole_fits; [apply H4|lia]).
Qed.

Lemma ok_progress y x w b total up : 0 ≤ x → ok (progress_bar rows cols y x w b total up).
Proof. intros Hx. unfold progress_bar. apply safe_each. intros c Hc%elem_of_range. draw. Qed.

Lemma ring_at_in {A} (P : A → Prop) cap arr head count i : ring_ok cap arr head count → Forall P arr → 0 ≤ i < count →
  ∃ x, ring_at arr head i cap = Some x ∧ P x.
Proof.
  intros [Hl Hh Hc] HP Hi. unfold ring_at. rewrite Z.rem_mod_nonneg by lia.
  pose proof (Z.mod_pos_bound (head - i + Z.of_nat cap) (Z.of_nat cap) ltac:(lia)) as Hb.
  rewrite (proj2 (Z.ltb_ge _ _)) by lia.
  destruct (lookup_lt_is_Some_2 arr (Z.to_nat ((head - i + Z.of_nat cap) mod Z.of_nat cap))) as [x Hx]; [lia|].
  exists x. split; [done|]. by eapply Forall_lookup_1 in Hx.
Qed.

Lemma ok_events ui y : ui_text ui → 2 ≤ y → ok (draw_event_strip rows cols ui y).
Proof.
  intros Hu Hy. apply safe_each. intros i Hi%elem_of_range. unfold event_rows in Hi.
  destruct (ring_at_in ev_ok _ _ _ _ i (proj1 (ux_rings _ Hu)) (ux_events _ Hu)) as (e & He & Hw & Hl); [case_match; lia|].
  unfold draw_event. eapply safe_value; [exact He|]. draw.
Qed.

Lemma ok_stat y seg width val label : 2 ≤ y → 0 ≤ seg → whole val → whole label → ok (draw_stat rows cols y seg width val label).
Proof. intros. unfold draw_stat. draw. Qed.

Lemma ok_status_card g y : shown g → 2 ≤ y → ok (draw_status_card rows cols now g y).
Proof.
  intros Hg Hy. pose proof (sx_root _ (ux_snap _ (sh_ui _ Hg))). destruct (sh_ip _ Hg) as [H1 H2].
  pose proof (ux_xfers _ (sh_ui _ Hg)). pose proof (fmt_u_length 20 (u_session_xfers (g_ui g)) ltac:(lia) ltac:(lia)).
  unfold draw_status_card. draw. all: try (apply ok_stat; [done|lia|text|text]).
  apply whole_fits; [destruct (g_local_ip g); [text|done]|]. destruct (g_local_ip g); [cbn; lia|done].
Qed.

Lemma rate_text_ok ui peer : is_ascii (rate_text ui peer) ∧ (length (rate_text ui peer) ≤ 15)%nat.
Proof. unfold rate_text. split; repeat case_match; auto with tui; unfold opftp_ui_fmt_rate; apply bprintf_len. Qed.

Lemma meta_text_ok ui c : whole (meta_text ui c) ∧ (length (meta_text ui c) ≤ 95)%nat.
Proof.
  unfold meta_text. destruct (rate_text_ok ui (sc_peer c)).
  split; case_match; try apply bprintf_len; apply whole_fits; [wholes|lens|wholes|lens].
Qed.

Lemma ascii_pct b total : is_ascii (pct_text b total).
Proof. unfold pct_text. case_match; auto with tui. Qed.
Lemma pct_len b total : (length (pct_text b total) ≤ 7)%nat.
Proof. unfold pct_text. case_match; apply bprintf_len. Qed.
Lemma whole_arrow up : whole (arrow up).
Proof. destruct up; auto with tui. Qed.
Local Hint Resolve ascii_pct whole_arrow : tui.

Lemma ok_xfer_card ui y c focused : client_text c → 2 ≤ y → ok (draw_xfer_card rows cols ui y c focused).
Proof.
  intros Hc Hy. destruct (ct_op _ Hc). pose proof (ct_path _ Hc). destruct (meta_text_ok ui c).
  pose proof (pct_len (sc_xfer_bytes c) (sc_xfer_total c)). unfold draw_xfer_card. draw. apply ok_progress. lia.
Qed.

Lemma ok_cards ui l y nfit k : 2 ≤ y → Forall client_text l → (∀ shown, 0 ≤ shown → ok (k shown)) →
  ∀ shown, 0 ≤ shown → ok (draw_cards rows cols ui l y shown nfit k).
Proof.
  intros Hy Hl Hk. induction Hl as [|c l Hc Hl IH]; intros shown Hs; cbn [draw_cards]; [auto|].
  repeat apply ok_if; auto. apply safe_seq; [apply ok_xfer_card; [done|lia]|]. apply IH. lia.
Qed.

Lemma user_text_ok c : client_text c → is_ascii (user_text c) ∧ (length (user_text c) < 64)%nat.
Proof. intros Hc. destruct (ct_user _ Hc). unfold user_text. destruct (sc_user c); [split; [auto with tui|cbn; lia]|done]. Qed.

Lemma chip_text_ok ui i c : client_text c → whole (chip_text now ui i c) ∧ (length (chip_text now ui i c) ≤ 95)%nat.
Proof.
  intros Hc. destruct (user_text_ok c Hc), (ct_op _ Hc). unfold chip_text. cbn zeta.
  split; case_match; try apply bprintf_len; apply whole_fits; [wholes|lens|wholes|lens].
Qed.

Lemma ok_chips ui l y k : 2 ≤ y → Forall client_text l → (∀ x drawn, 0 ≤ x → ok (k x drawn)) →
  ∀ i x drawn, 0 ≤ x → ok (draw_chips rows cols now ui l i y x drawn k).
Proof.
  intros Hy Hl Hk. induction Hl as [|c l Hc Hl IH]; intros i x drawn Hx; cbn [draw_chips]; [auto|].
  pose proof (ct_peer _ Hc). destruct (chip_text_ok ui i c Hc). draw; auto. apply IH. lia.
Qed.

Lemma ok_count n : from_option (λ s, whole s ∧ (length s < 512)%nat) True (slab_count n).
Proof. unfold slab_count, count_text. case_match; cbn [from_option]; [done|]. split; [auto with tui|lens]. Qed.

Lemma snap_list_text s : snap_text s → Forall client_text (snap_list s).
Proof. intros H. apply Forall_take, (sx_clients _ H). Qed.

Lemma ok_connected ui y ft : ui_text ui → 2 ≤ y → ok (draw_connected rows cols now ui y ft).
Proof.
  intros Hu Hy. unfold draw_connected. cbn zeta. apply safe_seq; [apply ok_slab; auto using ok_count with tui; done|].
  apply ok_if; [apply safe_nothing|]. apply ok_chips; [lia|by apply snap_list_text, ux_snap| |lia]. intros x d Hx. draw.
Qed.

Lemma event_rows_pos ui : ui_text ui → 0 ≤ event_rows ui ≤ 2.
Proof. intros Hu. destruct (proj1 (ux_rings _ Hu)) as [_ _ Hc]. unfold event_rows. case_match; btests; lia. Qed.

Lemma ok_status g : shown g → ok (draw_status rows cols now g).
Proof.
  intros Hg. pose proof (sh_ui _ Hg) as Hu. pose proof (event_rows_pos _ Hu). unfold draw_status. cbn zeta.
  apply safe_seq; [by apply ok_events|]. apply safe_seq; [apply ok_status_card; [done|lia]|].
  apply safe_seq; [apply ok_slab; [lia|auto with tui|auto with tui|apply ok_count|done]|].
  apply ok_cards; [lia|by apply snap_list_text, ux_snap| |lia]. intros n Hn.
  apply ok_if; [|apply ok_connected; [done|lia]].
  apply safe_seq; [draw|]. apply safe_seq; [|apply ok_connected; [done|lia]].
  apply ok_txt_c; [text|]. rewrite Z.quot_div_nonneg by lia. pose proof (Z.div_pos cols 2). unfold place. lens.
Qed.

Lemma ok_scrollbar y h scroll visible total : ok (draw_scrollbar rows cols y h scroll visible total).
Proof.
  unfold draw_scrollbar. cbn zeta. apply safe_seq; [|apply ok_if; [apply safe_nothing|]]; apply safe_each; intros; draw.
Qed.

Lemma clamp_scroll_range sel scroll visible total :
  0 ≤ opftp_ui_clamp_scroll sel scroll visible total ≤ Z.max 0 (total - visible).
Proof. unfold opftp_ui_clamp_scroll. cbn zeta. repeat case_match; btests; lia. Qed.

Lemma showing_ok ui : ui_text ui → whole (showing_text ui) ∧ (length (showing_text ui) ≤ 23)%nat.
Proof.
  intros Hu. destruct (proj2 (ux_rings _ Hu)) as [_ _ Hc]. pose proof (ux_scroll _ Hu) as Hs.
  split; [|apply bprintf_len]. unfold showing_text.
  assert (∀ n, 0 ≤ n ≤ 48 + 8 → (length (fmt_d n) ≤ 2)%nat) as Hd.
  { intros n Hn. unfold fmt_d. rewrite (proj2 (Z.ltb_ge _ _)) by lia. by apply fmt_u_length; lia. }
  change (Z.of_nat OPFTP_UI_MAX_HIST) with 48 in Hc. apply whole_fits; [wholes|].
  pose proof (Hd (u_scroll_hist ui + 1) ltac:(lia)).
  pose proof (Hd (if u_scroll_hist ui + 8 <? u_hist_count ui then u_scroll_hist ui + 8 else u_hist_count ui) ltac:(case_match; btests; lia)).
  lens.
Qed.

Lemma ok_hist_row ui idx ry : ui_text ui → 0 ≤ idx < u_hist_count ui → 1 ≤ ry → ok (draw_hist_row rows cols ui idx ry).
Proof.
  intros Hu Hi Hy. destruct (ring_at_in hist_text _ _ _ _ idx (proj2 (ux_rings _ Hu)) (ux_hist _ Hu) Hi) as (h & E & H1 & H2 & H3 & H4).
  unfold draw_hist_row. eapply safe_value; [exact E|]. assert (length (result_text (hi_result h)) ≤ 7)%nat.
  { unfold result_text. repeat case_match; cbn; lia. }
  draw.
Qed.

Lemma hist_scroll_range ui : ui_text ui → 0 ≤ hist_scroll rows ui ≤ 48.
Proof.
  intros Hu. destruct (proj2 (ux_rings _ Hu)) as [_ _ Hc]. change (Z.of_nat OPFTP_UI_MAX_HIST) with 48 in Hc. unfold hist_scroll.
  pose proof (clamp_scroll_range (u_sel_hist ui) (u_scroll_hist ui) (hist_rows rows) (u_hist_count ui)).
  assert (1 ≤ hist_rows rows) by (unfold hist_rows; cbn zeta; case_match; btests; lia). lia.
Qed.

Lemma scrolled_text ui : ui_text ui → ui_text (ui <| u_scroll_hist := hist_scroll rows ui |>).
Proof. intros Hu. pose proof (hist_scroll_range ui Hu). destruct Hu. by constructor. Qed.

Lemma ok_transfers ui : ui_text ui → ok (fst (draw_transfers rows cols ui)).
Proof.
  intros Hu. unfold draw_transfers. cbn zeta. cbn [fst]. 
  apply safe_seq; [apply ok_slab; [lia|auto with tui|auto with tui|apply ok_count|]|].
  { destruct (showing_ok ui Hu). repeat case_match; cbn [from_option]; try done. split; [by apply whole_uw|cbn; lia]. }
  draw; [|apply ok_scrollbar].
  apply safe_each. intros r Hr%elem_of_range. pose proof (hist_scroll_range ui Hu).
  change (u_scroll_hist (ui <| u_scroll_hist := hist_scroll rows ui |>)) with (hist_scroll rows ui) in *.
  apply ok_hist_row; [by apply scrolled_text| |lia]. change (u_hist_count (ui <| u_scroll_hist := hist_scroll rows ui |>)) with (u_hist_count ui). lia.
Qed.

Lemma client_at s i : snap_text s → 0 ≤ i < sn_num_clients s → ∃ c, sn_clients s !! Z.to_nat i = Some c ∧ client_text c.
Proof.
  intros [_ Hn Hc] Hi. destruct (lookup_lt_is_Some_2 (sn_clients s) (Z.to_nat i)) as [c E]; [lia|]. exists c. split; [done|].
  by eapply Forall_lookup_1 in E.
Qed.

Lemma ok_client_row ui ci ry : ui_text ui → 0 ≤ ci < sn_num_clients (u_snap ui) → 1 ≤ ry → ok (draw_client_row rows cols now ui ci ry).
Proof.
  intros Hu Hi Hy. destruct (client_at _ _ (ux_snap _ Hu) Hi) as (c & E & Hc).
  pose proof (ct_peer _ Hc). pose proof (ct_cwd _ Hc). destruct (user_text_ok c Hc).
  unfold draw_client_row. eapply safe_value; [exact E|]. draw.
Qed.

Lemma ok_clients ui : ui_text ui → ok (fst (draw_clients rows cols now ui)).
Proof.
  intros Hu. unfold draw_clients. cbn zeta. cbn [fst].
  apply safe_seq; [apply ok_slab; [lia|auto with tui|auto with tui|apply ok_count|]|].
  { cbn [from_option]. split; [auto 8 with tui|apply bprintf_len]. }
  draw; [|apply ok_scrollbar].
  apply safe_each. intros r Hr%elem_of_range.
  pose proof (clamp_scroll_range (u_sel_cli ui) (u_scroll_cli ui) (cli_rows rows) (sn_num_clients (u_snap ui))) as Hs.
  change (u_scroll_cli (ui <| u_scroll_cli := cli_scroll rows ui |>)) with (cli_scroll rows ui) in *.
  fold (cli_scroll rows ui) in Hs. apply ok_client_row; [by destruct Hu| |lia]. cbn. lia.
Qed.

Lemma ok_setting ui y i key val : 2 ≤ y → 0 ≤ i → whole (bprintf 512 key) → whole val → (length val ≤ 23)%nat →
  ok (draw_setting rows cols ui y i key val).
Proof. intros. pose proof (whole_fits 512 val). unfold draw_setting. draw. Qed.

(** An ASCII text is copied up to the width or the buffer. *)
Lemma trunc_loop_ascii n m s : is_ascii s → ∀ f out w, (length s ≤ f)%nat →
  ∃ k, trunc_loop f n m s out w = Some (out ++ take k s, drop k s) ∧
       ((length s ≤ k)%nat ∨ m ≤ w + Z.of_nat k ∨ n - 8 < Z.of_nat (length out) + Z.of_nat k).
Proof.
  induction 1 as [|c s Hc Hs IH]; intros f out w Hf; [exists O; destruct f; cbn; rewrite app_nil_r; (split; [done|lia])|].
  destruct f as [|f]; cbn [length] in Hf; [lia|]. cbn [trunc_loop].
  destruct (negb (w <? m) || (n - 8 <? Z.of_nat (length out))) eqn:Eb.
  { exists O. cbn. rewrite app_nil_r. split; [done|]. right. apply orb_true_iff in Eb as [Eb|Eb]; btests; lia. }
  assert (ulen c = 1%nat) as -> by (unfold ulen; by rewrite (proj2 (Z.ltb_lt _ _) Hc)). cbn [length Nat.ltb Nat.leb drop take]. rewrite drop_0, take_0.
  destruct (IH f (out ++ [c]) (w + 1) ltac:(lia)) as (k & -> & H). exists (S k). cbn [take drop length].
  rewrite <-app_assoc. split; [done|]. rewrite length_app in H. cbn [length] in H. lia.
Qed.

Lemma t_trunc_ascii n s m (k : nat) : is_ascii s → Z.of_nat k < m → Z.of_nat k < n - 8 →
  ∃ t, t_trunc n s m = Some t ∧ take k t = take k s.
Proof.
  intros Hs Hm Hn. unfold t_trunc.
  destruct (trunc_loop_ascii n (if m <? 1 then 1 else m) s Hs (length s) [] 0 ltac:(lia)) as (j & -> & Hj).
  assert (k ≤ j ∨ length s ≤ j)%nat as Hk by (destruct (Z.ltb_spec m 1); cbn [length] in Hj; lia).
  assert (take k (take j s) = take k s) as Ht.
  { destruct Hk; [by rewrite take_take, Nat.min_l by lia|]. by rewrite (take_ge s j). }
  cbn [app mbind option_bind]. destruct (drop j s) as [|x p] eqn:Ed; [eexists; by split|].
  apply (f_equal length) in Ed. rewrite length_drop in Ed. cbn [length] in Ed.
  destruct (_ <? n - 4); (eexists; split; [done|]); [|done]. rewrite take_app_le; [done|]. rewrite length_take. lia.
Qed.

Lemma ok_settings ui : ui_text ui → ok (draw_settings rows cols ui).
Proof.
  intros Hu. pose proof (event_rows_pos _ Hu). pose proof (sx_root _ (ux_snap _ Hu)). unfold draw_settings. cbn zeta.
  apply safe_seq; [by apply ok_events|]. apply safe_seq; [apply ok_slab; [lia|text|text|done|split; [text|apply Nat.leb_le; reflexivity]]|].
  apply safe_seq; [|draw].
  destruct (t_trunc_ascii 48 (sn_root (u_snap ui)) (cols - 22) 23) as (t & E & Ht); [done|lia|lia|].
  eapply safe_value; [exact E|]. unfold bprintf. cbn [Nat.sub]. rewrite Ht. draw.
  all: apply ok_setting; auto with tui; try lia; try (rewrite length_take; lia); try (cbn; lia).
Qed.

(** The panels are on the screen. *)
Lemma panel_range : 45 ≤ panel_w cols ≤ 52 ∧ 4 ≤ panel_x cols ∧ panel_x cols + panel_w cols ≤ cols.
Proof.
  unfold panel_x, panel_w. destruct (Z.ltb_spec (cols - 8) 52); rewrite Z.quot_div_nonneg by lia; Z.div_mod_to_equations; lia.
Qed.
Lemma panel_row hh : 0 ≤ hh ≤ 9 → 1 ≤ panel_y rows hh.
Proof. intros H. unfold panel_y. rewrite Z.quot_div_nonneg by lia. Z.div_mod_to_equations. lia. Qed.

Lemma ok_panel hh : ok (overlay_panel rows cols hh).
Proof. pose proof panel_range. unfold overlay_panel. draw. Qed.

Lemma ok_path_lines n : ∀ y s, is_ascii s → ok (path_lines rows cols n y s).
Proof.
  pose proof panel_range. induction n as [|n IH]; intros y [|c s] Hs; cbn [path_lines]; draw.
  apply IH. by apply Forall_drop.
Qed.

Lemma ok_close y : ok (close_hint rows cols y).
Proof. pose proof panel_range. unfold close_hint. draw. Qed.

Lemma ok_detail_hist ui : ui_text ui → ok (draw_detail_hist rows cols ui).
Proof.
  intros Hu. pose proof panel_range. pose proof (panel_row 8 ltac:(lia)). unfold draw_detail_hist.
  destruct ((u_detail_idx ui <? 0) || (u_hist_count ui <=? u_detail_idx ui)) eqn:E; [apply safe_nothing|].
  apply orb_false_elim in E as [E1 E2]. btests.
  destruct (ring_at_in hist_text _ _ _ _ (u_detail_idx ui) (proj2 (ux_rings _ Hu)) (ux_hist _ Hu) ltac:(lia)) as (h & E & H1 & H2 & H3 & H4).
  eapply safe_value; [exact E|]. pose proof (fmt_0d_2_len _ H3). pose proof (fmt_0d_2_len _ H4). draw; auto using ok_panel, ok_path_lines, ok_close.
Qed.

Lemma ok_detail_xfer ui : ui_text ui → ok (draw_detail_xfer rows cols ui).
Proof.
  intros Hu. pose proof panel_range. pose proof (panel_row 8 ltac:(lia)). unfold draw_detail_xfer.
  destruct ((u_detail_idx ui <? 0) || (sn_num_clients (u_snap ui) <=? u_detail_idx ui)) eqn:E; [apply safe_nothing|].
  apply orb_false_elim in E as [E1 E2]. btests. destruct (client_at _ (u_detail_idx ui) (ux_snap _ Hu) ltac:(lia)) as (c & E & Hc).
  destruct (ct_op _ Hc). pose proof (ct_path _ Hc). pose proof (ct_peer _ Hc).
  eapply safe_value; [exact E|]. draw; auto using ok_panel, ok_path_lines, ok_close.
Qed.

Lemma ok_detail_client ui : ui_text ui → ok (draw_detail_client rows cols ui).
Proof.
  intros Hu. pose proof panel_range. pose proof (panel_row 9 ltac:(lia)). unfold draw_detail_client.
  destruct ((u_detail_idx ui <? 0) || (sn_num_clients (u_snap ui) <=? u_detail_idx ui)) eqn:E; [apply safe_nothing|].
  apply orb_false_elim in E as [E1 E2]. btests. destruct (client_at _ (u_detail_idx ui) (ux_snap _ Hu) ltac:(lia)) as (c & E & Hc).
  destruct (ct_op _ Hc), (user_text_ok c Hc). pose proof (ct_cwd _ Hc). pose proof (ct_peer _ Hc).
  eapply safe_value; [exact E|]. draw; auto using ok_panel, ok_path_lines, ok_close.
Qed.

Lemma ok_help : ok (draw_help rows cols).
Proof.
  pose proof panel_range. pose proof (panel_row 9 ltac:(lia)). unfold draw_help. draw; [apply ok_panel|].
  apply safe_each. intros i Hi%elem_of_range.
  assert (i = 0 ∨ i = 1 ∨ i = 2 ∨ i = 3 ∨ i = 4 ∨ i = 5) as Hc by lia.
  destruct_or! Hc; subst i; (eapply safe_value; [reflexivity|]); draw.
Qed.

Lemma ok_overlay ui : ui_text ui → ok (draw_detail_or_help rows cols ui).
Proof.
  intros Hu. unfold draw_detail_or_help. draw; auto using ok_detail_hist, ok_detail_xfer, ok_detail_client, ok_help.
Qed.

Lemma ok_edit_line ui : ui_text ui → ok (draw_edit_line rows cols now ui).
Proof. intros Hu. pose proof (ux_edit _ Hu). unfold draw_edit_line. draw. Qed.

Lemma ok_view g : shown g → ok (fst (draw_view rows cols now g)) ∧ ui_text (snd (draw_view rows cols now g)).
Proof.
  intros Hg. pose proof (sh_ui _ Hg) as Hu. unfold draw_view.
  repeat (case_match; [split; cbn [fst snd]; auto using ok_status, ok_transfers, ok_clients, ok_settings, scrolled_text|]).
  - by apply scrolled_text.
  - by destruct Hu.
  - split; [apply safe_nothing|done].
Qed.

Lemma blank_on_screen : on_screen rows cols (blank rows cols).
Proof. unfold on_screen, blank. rewrite length_replicate. lia. Qed.

(** Rendering writes to the canvas only, and keeps what is shown. *)
Lemma render_ok g : shown g → ∃ cvs, fst (render rows cols now time g) = Some cvs ∧ on_screen rows cols cvs ∧
  shown (snd (render rows cols now time g)).
Proof.
  intros Hg. destruct (ok_view g Hg) as [Hv Hu]. unfold render. destruct (draw_view rows cols now g) as [view ui]. cbn [fst snd] in *.
  assert (ok (draw_header rows cols time g ;; view ;; draw_footer rows cols ui ;; draw_detail_or_help rows cols ui ;;
    if u_edit_field ui =? OPFTP_UI_EDIT_NONE then nothing else draw_edit_line rows cols now ui)%draw) as H.
  { draw; auto using ok_header, ok_footer, ok_overlay, ok_edit_line. }
  destruct (H _ blank_on_screen) as (cvs & E & Ho). exists cvs. split_and!; [done|done|]. destruct Hg. by constructor.
Qed.

End Draw.

(** ** The texts are kept *)

Lemma event_ok text warn now : whole (bprintf 72 text) → ev_ok (mk_event text warn now).
Proof. intros H. split; [done|]. pose proof (bprintf_len 72 text). cbn [ev_text mk_event]. lia. Qed.

Lemma ev_push_text text warn now ui : ui_text ui → whole (bprintf 72 text) → ui_text (ev_push text warn now ui).
Proof.
  intros [Hr Hs He Hh Ht Hb Hx Hc] Hw. destruct (ev_push_logged text warn now ui Hr). constructor; try done.
  apply Forall_insert; [done|by apply event_ok].
Qed.

Lemma hour_range now : 0 ≤ hour_of now < 100 ∧ 0 ≤ minute_of now < 100.
Proof.
  unfold hour_of, minute_of, u8. pose proof (Z.mod_pos_bound (now / 1000000 / 3600) 24 ltac:(lia)).
  pose proof (Z.mod_pos_bound (now / 1000000 / 60) 60 ltac:(lia)).
  rewrite (Z.mod_small ((now / 1000000 / 3600) mod 24)), (Z.mod_small ((now / 1000000 / 60) mod 60)) by lia. lia.
Qed.

Lemma hist_push_text op path b total result now ui : ui_text ui → is_ascii op → is_ascii path →
  ui_text (hist_push op path b total result now ui).
Proof.
  intros [Hr Hs He Hh Ht Hb Hx Hc] Ho Hp. destruct (hist_push_logged op path b total result now ui Hr). constructor; try done.
  - apply Forall_insert; [done|]. split_and!; [by apply ascii_bprintf|by apply ascii_bprintf|apply hour_range..].
  - apply Z.mod_pos_bound. lia.
Qed.

Lemma trk_text_set L ui : ui_text ui → Forall trk_text L → ui_text (ui <| u_trk := L |>).
Proof. intros [] H. by constructor. Qed.

Lemma trk0_text : trk_text trk0.
Proof. repeat split; constructor. Qed.

Lemma trk_find_text L p i t : Forall trk_text L → is_ascii p → trk_find L p = Some (i, t) → trk_text t.
Proof.
  intros HL Hp. unfold trk_find. destruct (list_find (λ t, tracks p t = true) L) as [[j x]|] eqn:E.
  - intros [= <- <-]. apply list_find_Some in E as (E & _). by eapply Forall_lookup_1 in E.
  - destruct (list_find (λ t, t_present t = false) L) as [[j x]|]; intros [= <- <-]. split_and!; [by apply ascii_bprintf|constructor..].
Qed.

Lemma connected_whole p : is_ascii p → whole (bprintf 72 (connected_text p)).
Proof. intros H. apply whole_twice; [lia|]. apply (whole_cut 72 (B "CLIENT CONNECTED " ++ EM_DASH ++ B " ")); [auto with tui|done|cbn; lia]. Qed.
Lemma disconnected_whole p : is_ascii p → whole (bprintf 72 (disconnected_text p)).
Proof. intros H. apply whole_twice; [lia|]. apply (whole_cut 72 (B "CLIENT DISCONNECTED " ++ EM_DASH ++ B " ")); [auto with tui|done|cbn; lia]. Qed.

Lemma poll_client_text now ui c : ui_text ui → client_text c → ui_text (poll_client now ui c).
Proof.
  intros Hu Hc. unfold poll_client. destruct (trk_find (u_trk ui) (sc_peer c)) as [[i t]|] eqn:E; [|done].
  destruct (trk_find_text _ _ _ _ (ux_trk _ Hu) (ct_peer _ Hc) E) as (T1 & T2 & T3). cbv zeta.
  set (ui1 := if negb (t_present t) then _ else ui).
  assert (ui_text ui1 ∧ u_trk ui1 = u_trk ui) as [Hu1 Et].
  { unfold ui1. destruct (t_present t); cbn [negb]; [done|]. split; [|done]. by apply ev_push_text, connected_whole, ct_peer. }
  set (t1 := if Bool.eqb _ _ then _ else _).
  assert (t_peer t1 = t_peer t ∧ t_xfer_op t1 = t_xfer_op t ∧ t_xfer_path t1 = t_xfer_path t) as (P1 & P2 & P3).
  { unfold t1. destruct (t_present t), (Bool.eqb _ _); cbn [negb]; done. }
  clearbody t1 ui1. destruct (ct_op _ Hc) as [Hop _]. pose proof (ct_path _ Hc) as Hpath. pose proof (ux_trk _ Hu1) as HL.
  destruct (sc_xfer_active c); [destruct (negb (t_xfer_active t1))|destruct (t_xfer_active t1)];
    (apply trk_text_set; [try done|apply Forall_insert; [done|]]);
    try (apply hist_push_text; [done|congruence|congruence]);
    (split_and!; cbn; rewrite ?P1, ?P2, ?P3; auto with tui).
Qed.

Lemma poll_gone_text now ui i : ui_text ui → ui_text (poll_gone now ui i).
Proof.
  intros Hu. unfold poll_gone. destruct (u_trk ui !! i) as [t|] eqn:E; [|done]. case_match; [done|].
  destruct (proj1 (Forall_lookup _ _) (ux_trk _ Hu) i t E) as (T1 & T2 & T3). cbv zeta.
  pose proof (ev_push_text _ true now _ Hu (disconnected_whole _ T1)) as H1.
  apply trk_text_set; [|apply Forall_insert; [|apply trk0_text]].
  - case_match; [by apply hist_push_text|done].
  - case_match; [by apply (ux_trk _ (hist_push_text _ _ _ _ _ now _ H1 T2 T3))|by apply (ux_trk _ H1)].
Qed.

Lemma poll_text now ui : ui_text ui → ui_text (opftp_ui_poll now ui).
Proof.
  intros Hu. unfold opftp_ui_poll. cbn zeta. set (ui1 := ui <| u_trk := _ |>).
  assert (ui_text ui1) as H1.
  { apply trk_text_set; [done|]. apply Forall_fmap. eapply Forall_impl; [exact (ux_trk _ Hu)|]. by intros t. }
  assert (Forall client_text (snap_list (u_snap ui1))) as Hc by (by apply snap_list_text, ux_snap).
  clearbody ui1. revert Hc. generalize (snap_list (u_snap ui1)). intros cs Hc.
  assert (ui_text (foldl (poll_client now) ui1 cs)) as H2.
  { revert ui1 H1. induction Hc as [|c cs Hc Hcs IH]; intros u Hv; [done|]. cbn [foldl]. by apply IH, poll_client_text. }
  generalize (seq 0 OPFTP_UI_MAX_TRACK). intros l. revert H2. generalize (foldl (poll_client now) ui1 cs).
  induction l as [|i l IH]; intros u Hv; [done|]. cbn [foldl]. by apply IH, poll_gone_text.
Qed.

(** ** Keys keep them *)

Lemma set_sel_text z ui : ui_text ui → ui_text (set_sel z ui).
Proof. intros []. unfold set_sel. repeat case_match; by constructor. Qed.
Lemma sel_move_text d ui : ui_text ui → ui_text (opftp_ui_sel_move d ui).
Proof. intros Hu. unfold opftp_ui_sel_move. cbn zeta. repeat case_match; auto using set_sel_text. Qed.
Lemma switch_view_text d ui : ui_text ui → ui_text (opftp_ui_switch_view d ui).
Proof. intros []. by constructor. Qed.
Lemma open_detail_text ui : ui_text ui → ui_text (opftp_ui_open_detail ui).
Proof. intros Hu. pose proof Hu as []. unfold opftp_ui_open_detail. cbn zeta. repeat case_match; try done; by constructor. Qed.
Lemma help_toggle_text ui : ui_text ui → ui_text (help_toggle ui).
Proof. intros []. unfold help_toggle. case_match; by constructor. Qed.
Lemma esc_key_text ui : ui_text ui → ui_text (esc_key ui).
Proof. intros Hu. pose proof Hu as []. unfold esc_key. repeat case_match; [by constructor|by constructor|by apply set_sel_text]. Qed.
Lemma arrow_key_text c ui : ui_text ui → ui_text (arrow_key c ui).
Proof. intros. unfold arrow_key. repeat case_match; auto using sel_move_text, switch_view_text. Qed.
Lemma cancel_text ui : ui_text ui → ui_text (opftp_ui_edit_cancel ui).
Proof. intros []. constructor; try done. constructor. Qed.
Lemma edit_open_text ui : ui_text ui → ui_text (edit_open ui).
Proof. intros Hu. pose proof (sx_root _ (ux_snap _ Hu)). destruct Hu. constructor; try done. by apply ascii_bprintf. Qed.
Lemma backspace_text ui : ui_text ui → ui_text (opftp_ui_edit_backspace ui).
Proof. intros []. unfold opftp_ui_edit_backspace. cbn zeta. case_match; constructor; try done. by apply Forall_take. Qed.
Lemma type_text c ui : cv c < 128 → ui_text ui → ui_text (snd (opftp_ui_edit_type [c] ui)).
Proof.
  intros Hc []. unfold opftp_ui_edit_type. repeat case_match; cbn [snd]; constructor; try done.
  apply ascii_app; [by apply Forall_take|by repeat constructor].
Qed.
Lemma edit_apply_text now ui srv : ui_text ui → ui_text (fst (edit_apply now ui srv)).
Proof.
  intros Hu. unfold edit_apply, opftp_ui_edit_commit.
  assert (ui_text (ui <| u_edit_field := OPFTP_UI_EDIT_NONE |>)) as H1 by (by destruct Hu).
  destruct (opftp_server_set_root_runtime (u_edit_buf ui) srv) as [[r|e] srv']; cbn [fst]; [done|].
  apply ev_push_text; [done|by apply whole_uw].
Qed.

Lemma on_ui_shown f s : shown (k_tui s) → ui_text (f (g_ui (k_tui s))) → shown (k_tui (on_ui f s)).
Proof. intros [] H. by constructor. Qed.

Lemma edit_key_shown now c s : shown (k_tui s) → shown (k_tui (edit_key now c s)).
Proof.
  intros Hs. pose proof (sh_ui _ Hs) as Hu. unfold edit_key. case_match.
  { pose proof (edit_apply_text now _ (k_srv s) Hu). destruct (edit_apply now (g_ui (k_tui s)) (k_srv s)). destruct Hs. by constructor. }
  case_match; [by apply on_ui_shown, backspace_text|]. destruct ((32 <=? cv c) && (cv c <? 127)) eqn:E; [|done].
  apply andb_true_iff in E as [_ E]. btests. apply on_ui_shown; [done|]. apply type_text; [lia|done].
Qed.

Lemma nav_key_shown c s : shown (k_tui s) → shown (k_tui (nav_key c s)).
Proof.
  intros Hs. pose proof (sh_ui _ Hs) as Hu. unfold nav_key. case_match; [by destruct Hs|].
  repeat case_match; try done; apply on_ui_shown; auto using edit_open_text, open_detail_text, help_toggle_text.
Qed.

Lemma parse_keys_shown now f : ∀ len rest s t, shown (k_tui s) → shown (k_tui (fst (parse_keys now f len rest s t))).
Proof.
  induction f as [|f IH]; intros len [|c rest] s t Hs; cbn [parse_keys]; try done.
  pose proof (sh_ui _ Hs) as Hu.
  destruct (editing s).
  { destruct (ceq c ESC); [|apply IH, edit_key_shown, Hs].
    assert (shown (k_tui (on_ui opftp_ui_edit_cancel s))) by (by apply on_ui_shown, cancel_text).
    destruct rest as [|b [|x rest]]; by apply IH. }
  destruct (ceq c ESC); [|by apply IH, nav_key_shown].
  destruct (grace KEY_BUF len (c :: rest) t) as [[len' rest'] t'].
  assert (shown (k_tui (on_ui esc_key s))) by (by apply on_ui_shown, esc_key_text).
  destruct (tail rest') as [|b [|k rest'']]; [by apply IH..|]. destruct (ceq b _); [|by apply IH].
  by apply IH, on_ui_shown, arrow_key_text.
Qed.

Lemma read_keys_shown now s t : shown (k_tui s) → shown (k_tui (fst (snd (read_keys now s t)))).
Proof.
  intros Hs. unfold read_keys. destruct (gather KEY_BUF [] t) as [[|c buf] t']; [done|]. cbn [snd]. by apply parse_keys_shown.
Qed.

(** ** The loop *)

(** The snapshots hold ASCII texts, and the time of day can be told. *)
Definition round_ok (r : round) : Prop := snap_text (r_snap r) ∧ is_Some (gmtime_r (r_time r)).

Lemma frame_ok rows cols r l : 11 ≤ rows → 53 ≤ cols → round_ok r → shown (k_tui (l_keyed l)) →
  ∃ cvs l', frame rows cols r l = Some (cvs, l') ∧ shown (k_tui (l_keyed l')).
Proof.
  intros Hr Hc [Hsn Ht] Hs. unfold frame.
  pose proof (read_keys_shown (r_now r) (l_keyed l) (mk_tty (l_pending l) (r_arrive r)) Hs) as Hk.
  destruct (read_keys _ _ _) as [edge [s t]]. cbn [fst snd] in Hk. cbn zeta.
  set (g := _ <| g_snap_ok := true |>). assert (shown g) as Hg.
  { destruct Hk as [Hu Hv Hi]. constructor; [|done|done]. apply poll_text. destruct Hu. by constructor. }
  clearbody g. destruct (_ || _); [|by eexists _, _].
  destruct (render_ok rows cols Hr Hc (r_now r) (r_time r) Ht g Hg) as (cvs & E & _ & Hg').
  destruct (render_fits rows cols Hr (r_now r) (r_time r) g cvs Hc (event_rows_pos _ (sh_ui _ Hg)) E) as (out & Eo).
  destruct (render rows cols (r_now r) (r_time r) g) as [o g']. cbn [fst snd] in *. subst o. cbn [mbind option_bind].
  rewrite Eo. cbn [mbind option_bind].
  eexists _, _. split; [done|]. by destruct Hg'.
Qed.

Lemma screen_rounds_ok rows cols rs : 11 ≤ rows → 53 ≤ cols → Forall round_ok rs → ∀ l, shown (k_tui (l_keyed l)) →
  ∃ l', rounds rows cols rs l = Some l' ∧ shown (k_tui (l_keyed l')).
Proof.
  intros Hr Hc. induction 1 as [|r rs Hok _ IH]; intros l Hl; cbn [rounds]; [by eexists|].
  case_match; [by eexists|]. destruct (frame_ok rows cols r l Hr Hc Hok Hl) as (cvs & l' & -> & H'). by apply IH.
Qed.

Lemma start_shown now version ip srv : is_ascii version → is_ascii ip → (length ip < 16)%nat →
  shown (k_tui (l_keyed (tui_start now version ip srv))).
Proof.
  intros Hv Hi Hl. constructor; [|done|].
  - constructor; cbn [tui_start l_keyed k_tui g_ui]; [split; (split; [done|split; done|split; done])|by repeat constructor| | | |
      constructor|split; done|split; done]; apply Forall_replicate.
    + split; [by apply whole_uw|cbn; lia].
    + split_and!; done || constructor.
    + apply trk0_text.
  - cbn. destruct ip; [split; [by apply whole_uw|cbn; lia]|split; [by apply whole_ascii|lia]].
Qed.

(** C32. On a terminal of at least 53 columns and 11 rows the screen never
    writes outside of its canvas, never reads a string past its end, and the
    text of a frame never outgrows the buffer it is written into without a
    check (26 bytes a cell, though a single cell can take 46): whatever keys
    arrive, in whatever pieces, and whatever snapshots of the server with ASCII
    texts are shown, every round of the loop completes, in every view, overlay
    and edit. *)
Theorem screen_on_canvas rows cols rs now version ip srv :
  11 ≤ rows → 53 ≤ cols → is_ascii version → is_ascii ip → (length ip < 16)%nat → Forall round_ok rs →
  is_Some (rounds rows cols rs (tui_start now version ip srv)).
Proof.
  intros Hr Hc Hv Hi Hl Hrs.
  destruct (screen_rounds_ok rows cols rs Hr Hc Hrs _ (start_shown now version ip srv Hv Hi Hl)) as (l & -> & _). by eexists.
Qed.

(** ** Narrow terminals *)

(** Drawings that fail on every canvas. *)
Definition fails (d : draw) : Prop := ∀ cvs, d cvs = None.

Lemma fails_l d1 d2 : fails d1 → fails (seq_draw d1 d2).
Proof. intros H cvs. unfold seq_draw. by rewrite H. Qed.
Lemma fails_r d1 d2 : fails d2 → fails (seq_draw d1 d2).
Proof. intros H cvs. unfold seq_draw. destruct (d1 cvs); [apply H|done]. Qed.
Lemma fails_value {A} (o : option A) k : (∀ x, o = Some x → fails (k x)) → fails (with_value o k).
Proof. intros H cvs. unfold with_value. destruct o; [by apply H|done]. Qed.

Lemma put_before rows cols col fg bg c s : 0 < rows → col < 0 → 0 < cols → fails (put rows cols 0 col fg bg (c :: s)).
Proof.
  intros Hr Hc Hp cvs. unfold put. rewrite (proj2 (Z.leb_gt rows 0)) by lia. cbn [Z.ltb Z.compare orb put_loop length].
  rewrite (proj2 (Z.leb_gt cols col)) by lia. rewrite (proj2 (Z.ltb_lt (0 * cols + col) 0)) by lia. by rewrite orb_true_r.
Qed.

Lemma tabs_before rows cols view x : 0 < rows → x < 0 → 0 < cols → fails (draw_tabs rows cols VIEWS view x).
Proof.
  intros. unfold VIEWS. cbn [draw_tabs range Z.sub Z.to_nat seq fmap list_fmap]. apply fails_value. intros w _. apply fails_l.
  case_match; by apply fails_l, put_before.
Qed.

Lemma header_before rows cols time g : 0 < rows → 0 < cols < 53 → fails (draw_header rows cols time g).
Proof.
  intros Hr Hc. unfold draw_header. do 3 apply fails_r. apply fails_l, fails_value. intros t Ht. apply fails_l, fails_value.
  intros tw [= <-]. apply fails_value. intros w Hw. apply tabs_before; [done| |lia].
  pose proof (gmtime_ranges _ _ Ht). rewrite (uw_wide _ _ (wide_ascii _ (ascii_hh_mm _ _))), hh_mm_len in Hw by lia.
  injection Hw as <-. lia.
Qed.

(** A terminal of 31 to 52 columns is accepted, and every frame drawn on it
    writes before the first cell: the tabs of the header take 53 columns and
    start at a negative one, which [put] does not check. *)
Theorem narrow_screen_overruns rows cols :
  10 < rows → 30 < cols < 53 →
  get_size (Some (rows, cols)) = (rows, cols) ∧
  (∀ now time g, fst (render rows cols now time g) = None) ∧
  (∀ r l, r_changed r = true → frame rows cols r l = None).
Proof.
  intros Hr Hc.
  assert (∀ now time g, fst (render rows cols now time g) = None) as Hn.
  { intros now time g. unfold render. destruct (draw_view rows cols now g) as [view ui]. cbn [fst].
    apply fails_l, header_before; lia. }
  split; [|split; [done|]].
  - unfold get_size. rewrite (proj2 (Z.ltb_lt 10 rows)), (proj2 (Z.ltb_lt 30 cols)) by lia. done.
  - intros r l Hd. unfold frame. destruct (read_keys _ _ _) as [edge [s t]]. cbn zeta. rewrite Hd, orb_true_r. cbn [orb].
    set (g := _ <| g_snap_ok := true |>). specialize (Hn (r_now r) (r_time r) g). by destruct (render _ _ _ _ g) as [[cvs|] g'].
Qed.

(** ** Witnesses *)

Definition demo_client : opftp_snapshot_client :=
  mk_snap_client (B "10.0.0.1") (B "bob") (B "/dev_hdd0") true true (B "RETR") (B "/dev_hdd0/game.iso") 1000 4000.
Definition demo_snap : opftp_snapshot := mk_snapshot true 2121 (B "/dev_hdd0") 2 1 [demo_client].
Definition demo_round (keys : bytes) : round := mk_round (λ _, 5000000) 86400 [keys] demo_snap true.
(** Switch to the settings, select the root row, edit it. *)
Definition demo_keys : list bytes :=
  [ESC :: B "[D"; ESC :: B "[B" ++ ESC :: B "[B"; [LF]; B "/x"; [LF]; B "?"].

Lemma demo_rounds_snap : snap_text demo_snap.
Proof. split; [by apply ascii_const|done|]. repeat constructor; try (by apply ascii_const); cbn; lia. Qed.
Lemma demo_rounds_ok : Forall round_ok (demo_round <$> demo_keys).
Proof. apply Forall_fmap, Forall_true. intros k. split; [apply demo_rounds_snap|by eexists]. Qed.

Lemma screen_on_canvas_witness :
  is_Some (rounds 11 53 (demo_round <$> demo_keys) (tui_start 0 (B "5.0") (B "10.0.0.9") (opftp_server_create None false true))).
Proof.
  apply (screen_on_canvas 11 53); [lia|lia|by apply ascii_const|by apply ascii_const|cbn; lia|apply demo_rounds_ok].
Defined.

Lemma narrow_screen_overruns_witness :
  get_size (Some (24, 52)) = (24, 52) ∧
  frame 24 52 (demo_round []) (tui_start 0 (B "5.0") [] (opftp_server_create None false true)) = None.
Proof.
  destruct (narrow_screen_overruns 24 52) as (H1 & _ & H3); [lia|lia|]. split; [exact H1|]. by apply H3.
Defined.

(** ** What the panels do to long texts, and the footer to the hint *)

Definition demo_tui (ui : opftp_ui) : tui := mk_tui ui (B "5.0") (B "10.0.0.9") true false 0.

(** A path whose 44th byte is inside of a character: the first line of the
    detail panel ends in the middle of it, and [put] steps over its end. *)
Example long_utf8_path_overreads :
  fst (render 24 80 (λ _, 0) 0
    (demo_tui ((opftp_ui_init 0) <| u_snap := demo_snap <| sn_clients := [mk_snap_client (B "10.0.0.1") (B "bob") (B "/") true true
       (B "RETR") (replicate 43 "a"%char ++ EM_DASH) 1 2] |> |>
       <| u_detail_kind := OPFTP_UI_D_XFER |> <| u_detail_idx := 0 |>))) = None.
Proof. vm_compute. reflexivity. Qed.

(** The row of the hint of the clients view holds only the rule of the footer. *)
Example clients_hint_hidden :
  (λ cvs, c_s <$> row_cells 80 22 cvs) <$>
  fst (render 24 80 (λ _, 0) 0 (demo_tui ((opftp_ui_init 0) <| u_view := OPFTP_UI_V_CLIENTS |> <| u_snap := demo_snap |>))) =
  Some (replicate 80 H_BAR).
Proof. vm_compute. reflexivity. Qed.

End TuiSafe.
