(* ===== verification/TuiKeys.v ===== *)
(** * Changing the root from the terminal

    The keys of an edit of the root path, in whatever pieces the terminal
    delivers them and however the rounds of the loop cut them, end with the
    server told exactly the path that was typed. *)

From S2P Require Import Prelude CLib World Ui Canvas Server Tui TuiSafe.
Import CLib Ui Canvas Server Tui TuiSafe.

Local Open Scope Z_scope.

Module TuiKeys.

(** ** What the rounds leave alone *)

(** The fields the keys of an edit depend on. *)
Record same_nav (a b : opftp_ui) : Prop := mk_same_nav {
  sn_view : u_view a = u_view b;
  sn_settings : u_sel_settings a = u_sel_settings b;
  sn_field : u_edit_field a = u_edit_field b;
  sn_buf : u_edit_buf a = u_edit_buf b;
  sn_len : u_edit_len a = u_edit_len b;
  sn_snap : u_snap a = u_snap b
}.

#[export] Instance same_nav_equiv : Equivalence same_nav.
Proof.
  split; [done|by intros a b []|]. intros a b c [] []. split; congruence.
Qed.

Lemma ev_push_nav t w n ui : same_nav (ev_push t w n ui) ui.
Proof. done. Qed.
Lemma hist_push_nav o p b t r n ui : same_nav (hist_push o p b t r n ui) ui.
Proof. done. Qed.
Lemma trk_nav ui ui' L : same_nav ui ui' → same_nav (ui <| u_trk := L |>) ui'.
Proof. by intros []. Qed.

Lemma poll_client_nav now ui c : same_nav (poll_client now ui c) ui.
Proof.
  unfold poll_client. destruct (trk_find _ _) as [[i t]|]; [|done]. cbv zeta.
  repeat case_match; simplify_eq; apply trk_nav; try done; by etransitivity; [apply hist_push_nav|].
Qed.

Lemma poll_gone_nav now ui i : same_nav (poll_gone now ui i) ui.
Proof. unfold poll_gone. cbv zeta. repeat case_match; done. Qed.

Lemma foldl_nav {A} (f : opftp_ui → A → opftp_ui) l : (∀ ui x, same_nav (f ui x) ui) → ∀ ui, same_nav (foldl f ui l) ui.
Proof. intros H. induction l as [|x l IH]; intros ui; cbn [foldl]; [done|]. by rewrite IH. Qed.

Lemma poll_nav now ui : same_nav (opftp_ui_poll now ui) ui.
Proof.
  unfold opftp_ui_poll. cbn zeta. rewrite (foldl_nav (poll_gone now)) by (intros; apply poll_gone_nav).
  rewrite (foldl_nav (poll_client now)) by (intros; apply poll_client_nav). done.
Qed.

Lemma view_nav rows cols now g : same_nav (snd (draw_view rows cols now g)) (g_ui g).
Proof. unfold draw_view. repeat case_match; done. Qed.

Lemma render_nav rows cols now time g : same_nav (g_ui (snd (render rows cols now time g))) (g_ui g) ∧
  g_quit (snd (render rows cols now time g)) = g_quit g.
Proof. unfold render. pose proof (view_nav rows cols now g). by destruct (draw_view rows cols now g). Qed.

(** ** The script *)

Section Script.
Context (r0 p : bytes).
Hypothesis Hr0 : is_ascii r0.
Hypothesis Hp : Forall (λ c, 32 ≤ cv c < 127) p.
Hypothesis Habs : head p = Some SLASH.
Hypothesis Hlen : (length p < OPFTP_UI_EDIT_MAX)%nat.

Definition DEL : ascii := chr 127.
Definition old_text : bytes := bprintf OPFTP_UI_EDIT_MAX r0.
(** Enter, one delete for each byte of the old path, the new one, Enter. *)
Definition script : bytes := LF :: replicate (length old_text) DEL ++ p ++ [LF].

(** The text entry holds [b]. *)
Definition entry (b : bytes) (s : keyed) : Prop :=
  let ui := g_ui (k_tui s) in
  u_edit_field ui = OPFTP_UI_EDIT_ROOT ∧ u_edit_buf ui = b ∧ u_edit_len ui = Z.of_nat (length b).

(** Where the edit is, by the keys that are still to come. *)
Inductive at_keys : bytes → keyed → Prop :=
  | at_open s : u_edit_field (g_ui (k_tui s)) = OPFTP_UI_EDIT_NONE → u_view (g_ui (k_tui s)) = OPFTP_UI_V_SETTINGS →
      u_sel_settings (g_ui (k_tui s)) = 1 → sn_root (u_snap (g_ui (k_tui s))) = r0 → at_keys script s
  | at_delete i s : entry (take i old_text) s → (i ≤ length old_text)%nat → at_keys (replicate i DEL ++ p ++ [LF]) s
  | at_type p1 p2 s : p = p1 ++ p2 → entry p1 s → at_keys (p2 ++ [LF]) s
  | at_done s : u_edit_field (g_ui (k_tui s)) = OPFTP_UI_EDIT_NONE → s_root (k_srv s) = p → at_keys [] s.

Definition key_step (now : Z) (c : ascii) (s : keyed) : keyed := if editing s then edit_key now c s else nav_key c s.

Lemma entry_editing b s : entry b s → editing s = true.
Proof. intros (H & _). unfold editing. by rewrite H. Qed.

Lemma plain_byte c : cv c < 128 → is_cont c = false.
Proof. destruct c as [[] [] [] [] [] [] [] []]; vm_compute; done. Qed.

Lemma on_ui_ui f s : g_ui (k_tui (on_ui f s)) = f (g_ui (k_tui s)).
Proof. done. Qed.

Lemma backspace_ascii ui b i : is_ascii b → u_edit_field ui = OPFTP_UI_EDIT_ROOT → u_edit_buf ui = take (S i) b →
  u_edit_len ui = Z.of_nat (S i) → (S i ≤ length b)%nat →
  opftp_ui_edit_backspace ui = ui <| u_edit_buf := take i b |> <| u_edit_len := Z.of_nat i |>.
Proof.
  intros Hb H1 H2 H3 Hi. unfold opftp_ui_edit_backspace. rewrite H1, H2, H3.
  rewrite (proj2 (Z.leb_gt _ _)) by lia. cbn [orb Z.eqb OPFTP_UI_EDIT_ROOT OPFTP_UI_EDIT_NONE].
  replace (Z.to_nat (Z.of_nat (S i) - 1)) with i by lia.
  destruct (lookup_lt_is_Some_2 b i ltac:(lia)) as [c Hc].
  assert (back_to (take (S i) b) i = i) as ->.
  { destruct i as [|i]; [done|]. cbn [back_to]. rewrite lookup_take_lt, Hc by lia. rewrite plain_byte; [done|].
    apply (proj1 (Forall_lookup _ _) Hb (S i) c Hc). }
  by rewrite take_take, Nat.min_l by lia.
Qed.

Lemma delete_step now i s : entry (take (S i) old_text) s → (S i ≤ length old_text)%nat → entry (take i old_text) (edit_key now DEL s).
Proof.
  intros (H1 & H2 & H3) Hi. change (edit_key now DEL s) with (on_ui opftp_ui_edit_backspace s).
  rewrite length_take, Nat.min_l in H3 by lia. unfold entry. rewrite on_ui_ui.
  rewrite (backspace_ascii _ old_text i (ascii_bprintf _ _ Hr0) H1 H2 H3 Hi).
  split_and!; [done|done|]. rewrite length_take, Nat.min_l by lia. done.
Qed.

Lemma printable c : 32 ≤ cv c < 127 → ceq c LF || ceq c CR = false ∧ (cv c =? 127) || (cv c =? 8) = false ∧ c ≠ ESC.
Proof.
  intros H. split_and!.
  - apply orb_false_iff. split; apply ceq_false; intros ->; [change (cv LF) with 10 in H|change (cv CR) with 13 in H]; lia.
  - apply orb_false_iff. split; apply Z.eqb_neq; lia.
  - intros ->. change (cv ESC) with 27 in H. lia.
Qed.

Lemma type_step now c p1 p2 s : p = p1 ++ c :: p2 → entry p1 s → c ≠ ESC ∧ entry (p1 ++ [c]) (edit_key now c s).
Proof.
  intros Ep (H1 & H2 & H3). pose proof Hp as Hc. rewrite Ep in Hc. apply Forall_app in Hc as [_ Hc]. apply Forall_cons in Hc as [Hr _].
  assert (length p1 + 1 < OPFTP_UI_EDIT_MAX)%nat as Hl by (rewrite Ep, length_app in Hlen; cbn [length] in Hlen; lia).
  destruct (printable c Hr) as (E1 & E2 & E3). split; [done|]. unfold edit_key. rewrite E1, E2.
  rewrite (proj2 (Z.leb_le 32 _)), (proj2 (Z.ltb_lt _ 127)) by lia. cbn [andb].
  unfold entry. rewrite on_ui_ui. unfold opftp_ui_edit_type. rewrite H1, H2, H3.
  cbn [Z.eqb OPFTP_UI_EDIT_ROOT OPFTP_UI_EDIT_NONE length]. rewrite (proj2 (Z.leb_gt _ _)) by lia. cbn [snd].
  rewrite Nat2Z.id, take_ge by lia. split_and!; [done|done|]. rewrite length_app. cbn. lia.
Qed.

Lemma apply_step now s : entry p s → at_keys [] (edit_key now LF s).
Proof.
  intros (H1 & H2 & H3). change (edit_key now LF s) with
    (let '(ui, srv) := edit_apply now (g_ui (k_tui s)) (k_srv s) in mk_keyed (k_tui s <| g_ui := ui |>) srv).
  unfold edit_apply, opftp_ui_edit_commit, opftp_server_set_root_runtime. rewrite H2, bool_decide_true by done.
  apply at_done; [done|]. cbn. apply take_ge. unfold OPFTP_UI_EDIT_MAX in Hlen. cbn. lia.
Qed.

Lemma key_step_at now c rest s : at_keys (c :: rest) s → c ≠ ESC ∧ at_keys rest (key_step now c s).
Proof.
  intros H. inversion H as [s' H1 H2 H3 H4 E|i s' H1 H2 E|p1 p2 s' Ep H1 E|]; subst s'.
  - split; [done|]. unfold key_step, editing. rewrite H1.
    cbn [negb Z.eqb OPFTP_UI_EDIT_NONE]. change (at_keys (replicate (length old_text) DEL ++ p ++ [LF]) (nav_key LF s)).
    apply at_delete; [|done]. rewrite take_ge by done. unfold nav_key. rewrite H2, H3.
    change (entry old_text (on_ui edit_open s)). unfold entry. rewrite on_ui_ui. unfold edit_open. rewrite H4. done.
  - unfold key_step. rewrite (entry_editing _ _ H1). destruct i as [|i].
    + assert (∃ d p', p = d :: p') as (d & p' & Ep) by (clear -Habs; destruct p; [done|by eexists _, _]).
      cbn [replicate app] in E. rewrite Ep in E. injection E as <- <-.
      destruct (type_step now d [] p' s Ep H1) as [Hd He]. split; [done|]. by apply (at_type [d] p').
    + injection E as <- <-. split; [done|]. apply at_delete; [by apply delete_step|lia].
  - unfold key_step. rewrite (entry_editing _ _ H1). destruct p2 as [|d p2].
    + injection E as <- <-. rewrite app_nil_r in Ep. subst p1. split; [done|]. by apply apply_step.
    + injection E as <- <-. destruct (type_step now d p1 p2 s Ep H1) as [Hd He]. split; [done|].
      apply (at_type (p1 ++ [d]) p2); [by rewrite <-app_assoc|done].
Qed.

(** ** A round *)

Definition total (t : tty) : bytes := pending t ++ concat (arrivals t).

Definition seen (t : tty) : bytes := pending t ++ default [] (head (arrivals t)).

Lemma total_seen t : total t = seen t ++ concat (tail (arrivals t)).
Proof. destruct t as [pd [|a ar]]; unfold total, seen; cbn; rewrite ?app_nil_r; [done|]. by rewrite app_assoc. Qed.

Lemma read_ready_spec n t : ∃ t', total t = take n (seen t) ++ total t' ∧
  read_ready n t = (match take n (seen t) with [] => None | b => Some b end, t').
Proof.
  rewrite total_seen. unfold read_ready. fold (seen t). destruct (take n (seen t)) as [|c b] eqn:E.
  - eexists. split; [|reflexivity]. done.
  - eexists. split; [|done]. unfold total. cbn [pending arrivals]. rewrite <-E, app_assoc, take_drop. done.
Qed.

Lemma gather_spec f : ∀ buf t, (length buf ≤ KEY_BUF)%nat → ∃ b t', gather f buf t = (buf ++ b, t') ∧ total t = b ++ total t' ∧
  (length (buf ++ b) ≤ KEY_BUF)%nat ∧ (0 < f → take (KEY_BUF - length buf) (seen t) `prefix_of` b)%nat.
Proof.
  induction f as [|f IH]; intros buf t Hb; cbn [gather]; [exists [], t; rewrite app_nil_r; split_and!; done || lia|].
  destruct (read_ready_spec (KEY_BUF - length buf) t) as (t1 & Et & ->).
  destruct (take (KEY_BUF - length buf) (seen t)) as [|c b] eqn:E.
  { exists [], t1. rewrite app_nil_r. split_and!; done. }
  assert (length (c :: b) ≤ KEY_BUF - length buf)%nat as Hl by (rewrite <-E, length_take; lia).
  destruct (Nat.leb_spec KEY_BUF (length (buf ++ c :: b))).
  { eexists _, _. split_and!; [done|done|rewrite length_app; lia|done]. }
  destruct (IH (buf ++ c :: b) t1) as (b' & t2 & -> & E2 & Hl2 & _); [lia|]. exists ((c :: b) ++ b'), t2.
  rewrite app_assoc. split_and!; [done|by rewrite Et, E2, app_assoc|done|by eexists].
Qed.

(** A round reads all that is waiting, up to the buffer. *)
Lemma gather_first t : ∃ b t', gather KEY_BUF [] t = (b, t') ∧ total t = b ++ total t' ∧
  (min KEY_BUF (length (pending t)) ≤ length b ≤ KEY_BUF)%nat.
Proof.
  destruct (gather_spec KEY_BUF [] t ltac:(cbn; lia)) as (b & t' & E & H1 & H2 & H3). exists b, t'. split_and!; [done|done| |done].
  apply prefix_length in H3; [|unfold KEY_BUF; lia]. rewrite length_take in H3. unfold seen in H3. rewrite length_app in H3.
  cbn [length] in H3. lia.
Qed.

Lemma edit_key_quit now c s : g_quit (k_tui (edit_key now c s)) = g_quit (k_tui s).
Proof. unfold edit_key. repeat case_match; done. Qed.

Lemma key_step_quit now c rest s : at_keys (c :: rest) s → g_quit (k_tui (key_step now c s)) = g_quit (k_tui s).
Proof.
  intros H. unfold key_step. destruct (editing s) eqn:E; [apply edit_key_quit|].
  inversion H as [s' H1 H2 H3 H4|i s' H1|p1 p2 s' Ep H1|]; subst s'; [|by rewrite (entry_editing _ _ H1) in E..].
  unfold nav_key. rewrite H2, H3. done.
Qed.

Lemma parse_at now fut rest : ∀ f len s t, (length rest ≤ f)%nat → at_keys (rest ++ fut) s →
  ∃ s', parse_keys now f len rest s t = (s', t) ∧ at_keys fut s' ∧ g_quit (k_tui s') = g_quit (k_tui s).
Proof.
  induction rest as [|c rest IH]; intros f len s t Hf Hs; [destruct f; by exists s|].
  destruct f as [|f]; cbn [length] in Hf; [lia|].
  set (nw := now (AtEdit (len - length (c :: rest)))). destruct (key_step_at nw c _ s Hs) as [Hc Ha].
  rewrite <-(key_step_quit nw c _ s Hs). unfold key_step in *. cbn [parse_keys]. rewrite (proj2 (ceq_false c ESC) Hc).
  destruct (editing s); apply IH; done || lia.
Qed.

Lemma read_keys_at now fut s t : at_keys (total t ++ fut) s →
  ∃ edge s' t', read_keys now s t = (edge, (s', t')) ∧ at_keys (total t' ++ fut) s' ∧ g_quit (k_tui s') = g_quit (k_tui s) ∧
    (length (total t') ≤ length (total t) - min KEY_BUF (length (pending t)))%nat.
Proof.
  intros Hs. unfold read_keys. destruct (gather_first t) as (b & t' & -> & Et & Hb).
  rewrite Et, length_app, <-app_assoc in *. destruct b as [|c b]; [eexists _, _, _; split_and!; [done|done|done|lia]|].
  destruct (parse_at now (total t' ++ fut) (c :: b) KEY_BUF (length (c :: b)) s t') as (s' & -> & H' & Hq); [lia|done|].
  eexists _, _, _. split_and!; [done|done|done|lia].
Qed.

Lemma at_keys_nav rest s s' : at_keys rest s → same_nav (g_ui (k_tui s')) (g_ui (k_tui s) <| u_snap := u_snap (g_ui (k_tui s')) |>) →
  sn_root (u_snap (g_ui (k_tui s'))) = r0 → k_srv s' = k_srv s → at_keys rest s'.
Proof.
  intros H [N1 N2 N3 N4 N5 _] Hsn Hsrv. cbn in *. destruct H as [s H1 H2 H3 H4|i s (H1 & H2 & H3) Hi|p1 p2 s Ep (H1 & H2 & H3)|s H1 H2].
  - apply at_open; congruence.
  - apply at_delete; [|done]. split_and!; cbn zeta; congruence.
  - apply (at_type p1 p2); [done|]. split_and!; cbn zeta; congruence.
  - apply at_done; congruence.
Qed.

(** What a round does to the edit. *)
Lemma frame_at rows cols r l fut cvs l' : sn_root (r_snap r) = r0 →
  at_keys ((l_pending l ++ concat (r_arrive r)) ++ fut) (l_keyed l) → frame rows cols r l = Some (cvs, l') →
  at_keys (l_pending l' ++ fut) (l_keyed l') ∧ g_quit (k_tui (l_keyed l')) = g_quit (k_tui (l_keyed l)) ∧
  (length (l_pending l') ≤ length (l_pending l ++ concat (r_arrive r)) - min KEY_BUF (length (l_pending l)))%nat.
Proof.
  intros Hsn Ha. unfold frame.
  destruct (read_keys_at (r_now r) fut (l_keyed l) (mk_tty (l_pending l) (r_arrive r)) Ha) as (edge & s & t & -> & Hs & Hq & Hl).
  cbn zeta. set (g := _ <| g_snap_ok := true |>).
  assert (same_nav (g_ui g) (g_ui (k_tui s) <| u_snap := r_snap r |>) ∧ g_quit g = g_quit (k_tui s)) as [Hn Hgq].
  { split; [apply poll_nav|done]. }
  clearbody g. assert (∀ g', same_nav (g_ui g') (g_ui g) → at_keys (total t ++ fut) (mk_keyed g' (k_srv s))) as Hk.
  { intros g' Hg. assert (same_nav (g_ui g') (g_ui (k_tui s) <| u_snap := r_snap r |>)) as Hg' by (by rewrite Hg).
    pose proof (sn_snap _ _ Hg') as Es. cbn in Es. apply (at_keys_nav _ s); cbn [k_tui k_srv]; [done|by rewrite Es|by rewrite Es|done]. }
  destruct (_ || _).
  - destruct (render_nav rows cols (r_now r) (r_time r) g) as [Hr Hrq].
    destruct (render rows cols (r_now r) (r_time r) g) as [[c|] g']; [|done]. cbn [mbind option_bind fst snd] in *.
    destruct (frame_emit rows cols c) as [out|]; [|done]. cbn [mbind option_bind].
    intros [= <- <-]. cbn [l_keyed l_pending k_tui]. split_and!; [by apply Hk|cbn; congruence|done].
  - intros [= <- <-]. cbn [l_keyed l_pending k_tui]. split_and!; [by apply Hk|congruence|done].
Qed.

(** A round of the edit: the snapshot still has the old root. *)
Definition edit_round (r : round) : Prop := round_ok r ∧ sn_root (r_snap r) = r0.
Definition arrived (rs : list round) : bytes := concat ((λ r, concat (r_arrive r)) <$> rs).

(** The edit over some rounds: the keys still to come are what waits and what
    will arrive. *)
Lemma rounds_at rows cols rs : 11 ≤ rows → 53 ≤ cols → Forall edit_round rs → ∀ l fut,
  shown (k_tui (l_keyed l)) → g_quit (k_tui (l_keyed l)) = false → at_keys (l_pending l ++ arrived rs ++ fut) (l_keyed l) →
  ∃ l', rounds rows cols rs l = Some l' ∧ shown (k_tui (l_keyed l')) ∧ g_quit (k_tui (l_keyed l')) = false ∧
    at_keys (l_pending l' ++ fut) (l_keyed l') ∧
    (Forall (λ r, r_arrive r = []) rs → length (l_pending l') ≤ length (l_pending l) - KEY_BUF * length rs)%nat.
Proof.
  intros Hr Hc. induction 1 as [|r rs [Hok Hroot] Hrs IH]; intros l fut Hs Hq Ha.
  { exists l. split_and!; [done|done|done|done|cbn; lia]. }
  cbn [rounds]. rewrite Hq. destruct (frame_ok rows cols r l Hr Hc Hok Hs) as (cvs & l1 & E & Hs1). rewrite E. cbn [mbind option_bind].
  destruct (frame_at rows cols r l (arrived rs ++ fut) cvs l1 Hroot) as (Ha1 & Hq1 & Hl1); [|done|].
  { unfold arrived in Ha. cbn [fmap list_fmap concat compose] in Ha. by rewrite <-!app_assoc in *. }
  destruct (IH l1 fut Hs1 ltac:(congruence) Ha1) as (l2 & E2 & Hs2 & Hq2 & Ha2 & Hl2). exists l2. split_and!; [done|done|done|done|].
  intros Hi. apply Forall_cons in Hi as [Hi His]. specialize (Hl2 His). rewrite Hi in Hl1. cbn [concat] in Hl1. rewrite app_nil_r in Hl1.
  cbn [length]. lia.
Qed.

Lemma at_keys_length rest s : at_keys rest s → (length rest ≤ length script)%nat.
Proof using Type.
  clear Hlen.
  intros [s' ?|i s' ? Hi|p1 p2 s' Ep ?|s' ?]; unfold script; cbn [length]; rewrite ?length_app, ?length_replicate; cbn [length]; try lia.
  rewrite Ep, length_app. lia.
Qed.

Lemma at_keys_nil s : at_keys [] s → u_edit_field (g_ui (k_tui s)) = OPFTP_UI_EDIT_NONE ∧ s_root (k_srv s) = p.
Proof using Type.
  clear Hlen.
  intros H. inversion H as [|i s' H1 H2 E|p1 p2 s' H1 H2 E|]; [| |done];
    apply (f_equal length) in E; rewrite !length_app in E; cbn [length] in E; lia.
Qed.

End Script.

Lemma rounds_app rows cols rs1 rs2 l : rounds rows cols (rs1 ++ rs2) l = l' ← rounds rows cols rs1 l; rounds rows cols rs2 l'.
Proof.
  revert l. induction rs1 as [|r rs1 IH]; intros l; [done|]. cbn [app rounds].
  destruct (g_quit (k_tui (l_keyed l))) eqn:Eq.
  - cbn [mbind option_bind]. destruct rs2; cbn [rounds]; [done|]. by rewrite Eq.
  - destruct (frame rows cols r l) as [[cvs l1]|]; [|done]. apply IH.
Qed.

(** C33. Editing the root path on the settings view: with the root row selected,
    Enter, a delete for every byte of the path shown, an absolute path of
    printable characters shorter than the field, and Enter, in whatever pieces
    the terminal delivers them over the rounds of the loop, set the root of the
    server to exactly the path typed, once the rounds after the last arrival
    suffice to read what waits at 32 bytes a round; no round faults and the
    edit is closed. *)
Theorem typed_root_set rows cols rs idle l r0 p :
  11 ≤ rows → 53 ≤ cols → is_ascii r0 → Forall (λ c, 32 ≤ cv c < 127) p → head p = Some SLASH →
  (length p < OPFTP_UI_EDIT_MAX)%nat →
  Forall (edit_round r0) (rs ++ idle) → arrived rs = script r0 p →
  Forall (λ r, r_arrive r = []) idle → (length (script r0 p) ≤ KEY_BUF * length idle)%nat →
  shown (k_tui (l_keyed l)) → g_quit (k_tui (l_keyed l)) = false → l_pending l = [] →
  u_view (g_ui (k_tui (l_keyed l))) = OPFTP_UI_V_SETTINGS → u_sel_settings (g_ui (k_tui (l_keyed l))) = 1 →
  u_edit_field (g_ui (k_tui (l_keyed l))) = OPFTP_UI_EDIT_NONE → sn_root (u_snap (g_ui (k_tui (l_keyed l)))) = r0 →
  ∃ l', rounds rows cols (rs ++ idle) l = Some l' ∧ s_root (k_srv (l_keyed l')) = p ∧ editing (l_keyed l') = false ∧ l_pending l' = [].
Proof.
  intros Hr Hc H0 Hp Ha Hl Hrs Harr Hi Hn Hs Hq Hpd Hv Hsel Hf Hroot. apply Forall_app in Hrs as [Hrs Hidle].
  assert (arrived idle = []) as Hai.
  { clear -Hi. induction Hi as [|r idle E _ IH]; [done|]. unfold arrived in *. cbn [fmap list_fmap concat]. by rewrite E, IH. }
  destruct (rounds_at r0 p H0 Hp Ha Hl rows cols rs Hr Hc Hrs l [] Hs Hq) as (l1 & E1 & Hs1 & Hq1 & Ha1 & _).
  { rewrite Hpd, Harr, app_nil_r. by apply at_open. }
  pose proof (at_keys_length r0 p _ _ Ha1) as Hlen.
  destruct (rounds_at r0 p H0 Hp Ha Hl rows cols idle Hr Hc Hidle l1 [] Hs1 Hq1) as (l2 & E2 & _ & _ & Ha2 & Hl2).
  { by rewrite Hai. }
  specialize (Hl2 Hi). rewrite app_nil_r in *. assert (l_pending l2 = []) as E by (apply nil_length_inv; lia).
  rewrite E in Ha2. destruct (at_keys_nil r0 p _ Ha2) as [Hfe Hre]. exists l2. rewrite rounds_app, E1. split_and!; [done|done| |done].
  unfold editing. by rewrite Hfe.
Qed.

(** ** Witness *)

(** The settings view with the root row selected, the root [/dev_hdd0]; the
    keys arrive one by one in the first round, then in pairs. *)
Definition demo_start : loop_state :=
  mk_loop (mk_keyed (mk_tui ((opftp_ui_init 0) <| u_view := OPFTP_UI_V_SETTINGS |> <| u_sel_settings := 1 |> <| u_snap := demo_snap |>)
    (B "5.0") (B "10.0.0.9") true false 0) (opftp_server_create None false true)) [].
Definition demo_edit_round (arrive : list bytes) : round := mk_round (λ _, 5000000) 86400 arrive demo_snap true.
Definition demo_edit : list round :=
  [demo_edit_round [[LF]; [DEL]; [DEL]]; demo_edit_round [replicate 7 DEL]; demo_edit_round [B "/dev_"; B "usb000"]; demo_edit_round [[LF]]].

Lemma demo_edit_round_ok a : edit_round (B "/dev_hdd0") (demo_edit_round a).
Proof.
  split; [|done]. split; [apply demo_rounds_snap|by eexists].
Qed.

Lemma printable_const s : forallb (λ c, (32 <=? cv c) && (cv c <? 127)) s = true → Forall (λ c, 32 ≤ cv c < 127) s.
Proof.
  intros H. apply Forall_forall. intros c Hc. rewrite forallb_forall in H. apply list_elem_of_In, H in Hc.
  apply andb_true_iff in Hc as [? ?]. btests. lia.
Qed.

Lemma demo_start_shown : shown (k_tui (l_keyed demo_start)).
Proof.
  pose proof (start_shown 0 (B "5.0") (B "10.0.0.9") (opftp_server_create None false true) ltac:(by apply ascii_const)
    ltac:(by apply ascii_const) ltac:(apply Nat.ltb_lt; reflexivity)) as [[] Hv Hi].
  split; [|done|done]. split; try done. apply demo_rounds_snap.
Qed.

Lemma typed_root_set_witness :
  ∃ l', rounds 24 80 (demo_edit ++ [demo_edit_round []]) demo_start = Some l' ∧ s_root (k_srv (l_keyed l')) = B "/dev_usb000" ∧
    editing (l_keyed l') = false ∧ l_pending l' = [].
Proof.
  apply (typed_root_set 24 80 demo_edit [demo_edit_round []] demo_start (B "/dev_hdd0") (B "/dev_usb000")); try done; try lia.
  - by apply ascii_const.
  - by apply printable_const.
  - apply Nat.ltb_lt. reflexivity.
  - repeat constructor; apply demo_edit_round_ok.
  - by repeat constructor.
  - apply Nat.leb_le. reflexivity.
  - apply demo_start_shown.
Defined.

End TuiKeys.
