(* ===== verification/Osd.v ===== *)
(** * app/osd.cpp: the screen of the console

    A frame is the list of what is drawn, in order: rectangles, discs and
    texts of the graphics library. A drawing is [None] when it would read
    outside of an array. The texts it shares with the terminal screen are
    those of [Tui]; widths are in pixels, from the estimate of the width of a
    character. Every reading of the clock is a value of its own. *)

From S2P Require Import Prelude CLib World Ui Canvas Server Tui.
Import CLib Ui Server.

Local Open Scope Z_scope.

Module Osd.

Abbreviation range := Canvas.range.
Abbreviation site := Tui.site.

(** ** Palette and layout: the colours are those of the terminal *)

Abbreviation C_BG := Tui.C_BG. Abbreviation C_PANEL := Tui.C_PANEL. Abbreviation C_INSET := Tui.C_INSET.
Abbreviation C_LINE := Tui.C_LINE. Abbreviation C_RAISE := Tui.C_RAISE. Abbreviation C_TEXT := Tui.C_TEXT.
Abbreviation C_BRIGHT := Tui.C_BRIGHT. Abbreviation C_MUTED := Tui.C_MUTED. Abbreviation C_LABEL := Tui.C_LABEL.
Abbreviation C_ACC := Tui.C_ACC. Abbreviation C_BLUE := Tui.C_BLUE. Abbreviation C_WARN := Tui.C_WARN.
Abbreviation C_ERR := Tui.C_ERR. Abbreviation C_ERRBG := Tui.C_ERRBG. Abbreviation C_WARNBG := Tui.C_WARNBG.
Abbreviation C_ERRLINE := Tui.C_ERRLINE. Abbreviation C_WARNLINE := Tui.C_WARNLINE. Abbreviation C_FOCUS := Tui.C_FOCUS.
Abbreviation C_EMPTY := Tui.C_EMPTY. Abbreviation C_EMSG := Tui.C_EMSG. Abbreviation C_EMSW := Tui.C_EMSW.

Definition SCREEN_W : Z := 1280.
Definition SCREEN_H : Z := 720.
Definition MX : Z := 32.
Definition W : Z := SCREEN_W - 2 * MX.
Definition HDR_TEXT_TOP : Z := 36.
Definition HDR_BOTTOM : Z := 84.
Definition FTR_TOP : Z := 652.
Definition CARD_H : Z := 144.
Definition XFER_CARD_H : Z := 90.
Definition XFER_CARD_GAP : Z := 10.
Definition SLAB_H : Z := 30.
Definition CHIP_H : Z := 50.
Definition ER_ROW_H : Z := 44.
Definition ER_GAP : Z := 8.
Definition HIST_ROW_H : Z := 56.
Definition CLI_ROW_H : Z := 64.
Definition THEAD_H : Z := 34.
Definition SET_ROW_H : Z := 58.

(** [size * 0.66], cut to an integer. *)
Definition CHAR_W (size : Z) : Z := size * 66 / 100.

(** ** Drawing *)

Inductive prim :=
  | Rectangle (x y w h c : Z)
  | Circle (x y r c : Z)
  | Printf (x y c size : Z) (s : bytes).

Abbreviation draw := (option (list prim)).

Definition nothing : draw := Some [].
Definition seq_draw (d1 d2 : draw) : draw := a ← d1; b ← d2; Some (a ++ b).
Declare Scope osd_scope.
Delimit Scope osd_scope with osd.
Notation "a ;; b" := (seq_draw a b) (at level 100, b at level 200, right associativity) : osd_scope.
Local Open Scope osd_scope.

Definition with_value {A} (o : option A) (k : A → draw) : draw := x ← o; k x.
Fixpoint for_each {A} (l : list A) (body : A → draw) : draw :=
  match l with
  | [] => nothing
  | x :: l' => body x ;; for_each l' body
  end.

Definition fill (x y w h c : Z) : draw := if (w <=? 0) || (h <=? 0) then nothing else Some [Rectangle x y w h c].
Definition hline (x y w c : Z) : draw := fill x y w 2 c.
Definition vline (x y h c : Z) : draw := fill x y 2 h c.
Definition box (x y w h c inner : Z) : draw := fill x y w h c ;; fill (x + 2) (y + 2) (w - 4) (h - 4) inner.

Definition thick_line (x0 y0 x1 y1 c : Z) : draw :=
  let dx := x1 - x0 in
  let dy := y1 - y0 in
  let steps := if Z.abs dy <? Z.abs dx then Z.abs dx else Z.abs dy in
  let steps := if steps <? 1 then 1 else steps in
  for_each (range 0 steps) (λ i, fill (x0 + Z.quot (dx * i) steps) (y0 + Z.quot (dy * i) steps) 3 3 c).

(** The rows of a triangle whose corners are in order. *)
Definition tri_rows (p0 p1 p2 : Z * Z) (c : Z) : draw :=
  let '(x0, y0) := p0 in let '(x1, y1) := p1 in let '(x2, y2) := p2 in
  if y0 =? y2 then nothing
  else
    for_each (range y0 y2) (λ y,
      let xa := x0 + Z.quot ((x2 - x0) * (y - y0)) (y2 - y0) in
      let xb := if y <? y1 then x0 + Z.quot ((x1 - x0) * (y - y0)) (y1 - y0)
                else if y1 =? y2 then x1
                else x1 + Z.quot ((x2 - x1) * (y - y1)) (y2 - y1) in
      let lo := if xb <? xa then xb else xa in
      let hi := if xb <? xa then xa else xb in
      fill lo y (hi - lo + 1) 1 c).

(** The three exchanges that sort the corners. *)
Definition by_y (p q : Z * Z) : (Z * Z) * (Z * Z) := if snd q <? snd p then (q, p) else (p, q).
Definition tri_fill (x0 y0 x1 y1 x2 y2 c : Z) : draw :=
  let '(p0, p1) := by_y (x0, y0) (x1, y1) in
  let '(p1, p2) := by_y p1 (x2, y2) in
  let '(p0, p1) := by_y p0 p1 in
  tri_rows p0 p1 p2 c.

(** ** Texts *)

Definition tw (size : Z) (s : bytes) : Z := CHAR_W size * Z.of_nat (length s).
Definition text (x y c size : Z) (s : bytes) : draw := Some [Printf x y c size (bprintf 384 s)].
Definition text_r (xr y c size : Z) (s : bytes) : draw :=
  let buf := bprintf 384 s in Some [Printf (xr - tw size buf) y c size buf].
Definition text_c (cx y c size : Z) (s : bytes) : draw :=
  let buf := bprintf 384 s in Some [Printf (cx - Z.quot (tw size buf) 2) y c size buf].

(** [truncate] into a buffer of [outsz] bytes: at most as many bytes as fit
    the width, then the ellipsis. *)
Definition truncate (outsz : Z) (s : bytes) (w size : Z) : bytes :=
  let maxchars := Z.quot w (CHAR_W size) in
  let maxchars := if maxchars <? 1 then 1 else maxchars in
  let maxchars := if outsz - 4 <? maxchars then outsz - 4 else maxchars in
  if Z.of_nat (length s) <=? maxchars then take (Z.to_nat (outsz - 1)) s
  else take (Z.to_nat maxchars) s ++ Canvas.ELLIPSIS.

(** ** Pad glyphs and arrows *)

Definition glyph_tri (x y c : Z) : draw :=
  tri_fill (x + 12) (y + 1) (x + 1) (y + 21) (x + 23) (y + 21) c ;;
  tri_fill (x + 12) (y + 7) (x + 6) (y + 18) (x + 18) (y + 18) C_BG.

Definition glyph_x (x y c : Z) : draw :=
  thick_line (x + 2) (y + 2) (x + 21) (y + 21) c ;;
  thick_line (x + 2) (y + 21) (x + 21) (y + 2) c.

Definition glyph_circle (x y c : Z) : draw :=
  Some [Circle (x + 12) (y + 12) 12 c; Circle (x + 12) (y + 12) 9 C_BG].

Definition glyph_start (x y : Z) (label : bytes) : draw :=
  let w := CHAR_W 16 * Z.of_nat (length label) + 24 in
  box x y w 26 C_TEXT C_BG ;;
  Some [Printf (x + Z.quot (w - CHAR_W 16 * Z.of_nat (length label)) 2) (y + 3) C_TEXT 16 label].

Definition glyph_select (x y c : Z) : draw := box x y 24 24 c C_BG.

Definition arrow (x y : Z) (up : bool) (size c : Z) : draw :=
  if size =? 22 then
    if up then tri_fill (x + 11) y x (y + 12) (x + 22) (y + 12) c ;; fill (x + 8) (y + 12) 6 15 c
    else fill (x + 8) y 6 15 c ;; tri_fill (x + 11) (y + 27) x (y + 15) (x + 22) (y + 15) c
  else
    if up then tri_fill (x + 8) y x (y + 9) (x + 16) (y + 9) c ;; fill (x + 6) (y + 9) 4 10 c
    else fill (x + 6) y 4 10 c ;; tri_fill (x + 8) (y + 19) x (y + 10) (x + 16) (y + 10) c.

(** ** Header, footer, section label *)

Definition slab (y : Z) (label : bytes) (cnt : option bytes) (cnt_muted : bool) (rtext : option bytes) : draw :=
  fill MX (y + 4) 6 22 C_ACC ;;
  text (MX + 18) (y + 4) C_LABEL 22 label ;;
  (let x := MX + 18 + tw 22 label + 14 in
   match cnt with
   | Some cnt =>
      let w := tw 20 cnt + 24 in
      box x (y + 2) w 26 C_LINE C_BG ;;
      text_c (x + Z.quot w 2) (y + 5) (if cnt_muted then C_LABEL else C_MUTED) 20 cnt
   | None => nothing
   end) ;;
  match rtext with Some rtext => text_r (MX + W) (y + 4) C_LABEL 22 rtext | None => nothing end.

(** The tabs, from the last view to the first. *)
Fixpoint draw_tabs (views : list Z) (view x : Z) : draw :=
  match views with
  | [] => nothing
  | i :: views' =>
     let n := opftp_ui_view_name i in
     let w := tw 23 n + 28 in
     let x := x - w in
     (if view =? i
      then fill x 43 w 36 C_ACC ;; text_c (x + Z.quot w 2) 49 C_BG 23 n
      else box x 43 w 36 C_LINE C_BG ;; text_c (x + Z.quot w 2) 49 C_MUTED 23 n) ;;
     draw_tabs views' view (x - 10)
  end.
Definition TABS : list Z := rev (range 0 (OPFTP_UI_V_COUNT - 1)).

Section Screen.
Context (now_us : site → Z) (clock_us : Z).

Definition draw_header (view : Z) (version : bytes) : draw :=
  fill MX 46 16 16 C_ACC ;;
  text (MX + 30) HDR_TEXT_TOP C_BRIGHT 36 (B "OpenPS3FTP") ;;
  (let bx := MX + 30 + tw 36 (B "OpenPS3FTP") + 14 in
   let bw := tw 20 version + 24 in
   box bx 41 bw 28 C_LINE C_BG ;;
   text_c (bx + Z.quot bw 2) 45 C_LABEL 20 version) ;;
  let sec := clock_us / 1000000 in
  let clock := Tui.hh_mm ((sec / 3600) mod 24) ((sec / 60) mod 60) in
  text_r (MX + W) HDR_TEXT_TOP C_LABEL 34 clock ;;
  draw_tabs TABS view (MX + W - tw 34 clock - 28) ;;
  hline MX HDR_BOTTOM W C_LINE.

Definition draw_footer (view : Z) : draw :=
  let y := FTR_TOP + 12 in
  let x1 := MX + (30 + tw 24 (B "HELP") + 36) in
  let x2 := x1 + (30 + tw 24 (B "SELECT") + 36) in
  let x3 := x2 + (30 + tw 24 (B "BACK") + 36) in
  let name := opftp_ui_view_name view in
  let right := bprintf 40 (B " " ++ EM_DASH ++ B " VIEW " ++ fmt_d (view + 1) ++ B "/" ++ fmt_d OPFTP_UI_V_COUNT) in
  let rw := tw 22 name + tw 22 right in
  hline MX FTR_TOP W C_LINE ;;
  glyph_tri MX y C_TEXT ;; text (MX + 30) (y + 2) C_LABEL 24 (B "HELP") ;;
  glyph_x x1 y C_TEXT ;; text (x1 + 30) (y + 2) C_LABEL 24 (B "SELECT") ;;
  glyph_circle x2 y C_TEXT ;; text (x2 + 30) (y + 2) C_LABEL 24 (B "BACK") ;;
  glyph_start x3 y (B "START") ;; text (x3 + 74 + 14) (y + 2) C_LABEL 24 (B "QUIT") ;;
  text (MX + W - rw) (y + 2) C_MUTED 22 name ;;
  text (MX + W - rw + tw 22 name) (y + 2) C_LABEL 22 right.

(** ** The status view *)

(** Row [i] of the strip, at [yy]. *)
Definition draw_event (ui : opftp_ui) (i yy : Z) : draw :=
  with_value (Tui.ring_at (u_events ui) (u_ev_head ui) i OPFTP_UI_MAX_EVENTS) (λ e,
    let col := if ev_warn e then C_WARN else C_ERR in
    let tint := if ev_warn e then C_WARNBG else C_ERRBG in
    let iy := yy + Z.quot (ER_ROW_H - 26) 2 in
    let icx := MX + 14 in
    box MX yy W ER_ROW_H (if ev_warn e then C_WARNLINE else C_ERRLINE) tint ;;
    fill (MX + 2) (yy + 2) 4 (ER_ROW_H - 4) col ;;
    box icx iy 26 26 col tint ;;
    text_c (icx + 13) (iy + 3) col 20 (B "!") ;;
    text (MX + 14 + 26 + 14) (yy + Z.quot (ER_ROW_H - 23) 2) (if ev_warn e then C_EMSW else C_EMSG) 23
      (truncate 96 (ev_text e) (W - 28 - 26 - 14 - 110) 23) ;;
    if (i =? 0) && (2 <=? u_ev_count ui) then
      let b := bprintf 24 (fmt_d (u_ev_count ui) ++ B " RECENT") in
      let bw := tw 20 b + 24 in
      box (MX + W - 14 - bw) iy bw 26 col tint ;;
      text_c (MX + W - 14 - Z.quot bw 2) (iy + 3) col 20 b
    else nothing).

(** The strip, and the height it takes. *)
Definition draw_event_strip (ui : opftp_ui) (y : Z) : draw :=
  for_each (range 0 (Tui.event_rows ui - 1)) (λ i, draw_event ui i (y + i * (ER_ROW_H + ER_GAP))).
Definition strip_height (ui : opftp_ui) : Z :=
  let n := Tui.event_rows ui in if n <=? 0 then 0 else n * (ER_ROW_H + ER_GAP) - ER_GAP + 12.

(** The columns of the card, from the right: value, label and width. *)
Fixpoint draw_stats (y xr : Z) (cols : list (bytes * bytes * Z)) : draw :=
  match cols with
  | [] => nothing
  | (val, label, colw) :: cols' =>
     text_r xr (y + 18) C_BRIGHT 38 (truncate 40 val colw 38) ;;
     text_r xr (y + 18 + 38 + 6) C_LABEL 20 label ;;
     (match cols' with [] => nothing | _ => vline (xr - colw) (y + 18) 76 C_LINE end) ;;
     draw_stats y (xr - colw) cols'
  end.

Definition draw_status_card (g : Tui.tui) (dev_blind_mounted : bool) (y : Z) : draw :=
  let ui := Tui.g_ui g in
  let s := u_snap ui in
  let listening := Tui.g_snap_ok g && sn_started s in
  let state_col := if listening then C_ACC else C_ERR in
  let portb := bprintf 8 (fmt_u (sn_port s)) in
  let addr := bprintf 16 (match Tui.g_local_ip g with [] => EM_DASH | ip => ip end) in
  let rootb := bprintf 40 (sn_root s) in
  let workers := bprintf 8 (fmt_d (sn_workers s)) in
  let up := u64 (now_us Tui.AtUptime - u_t0_us ui) / 1000000 in
  let dur := opftp_ui_fmt_dur 16 up in
  let gb := opftp_ui_fmt_size 16 (u_session_bytes ui) in
  let base := bprintf 96 (B "UPTIME " ++ dur ++ B " " ++ Tui.MIDDOT ++ B " " ++ fmt_u (u_session_xfers ui) ++
                          B " TRANSFERS " ++ Tui.MIDDOT ++ B " " ++ gb ++ B " THIS SESSION") in
  box MX y W CARD_H C_LINE C_PANEL ;;
  fill (MX + 24) (y + 36) 20 20 state_col ;;
  text (MX + 24 + 20 + 18) (y + 18) state_col 56 (if listening then B "LISTENING" else B "STOPPED") ;;
  draw_stats y (MX + W - 24)
    [(workers, B "WORKERS", 120); (rootb, B "ROOT", 220); (addr, B "ADDRESS", 350); (portb, B "PORT", 110)] ;;
  hline (MX + 24) (y + 90) (W - 48) C_LINE ;;
  text (MX + 24) (y + 104) C_LABEL 22 base ;;
  if dev_blind_mounted
  then text (MX + 24 + tw 22 base) (y + 104) C_WARN 22 (B " " ++ Tui.MIDDOT ++ B " dev_blind MOUNTED") else nothing.

Definition progress_bar (x y w b total : Z) (up : bool) : draw :=
  let iw := w - 4 in
  let pct := if negb (total =? 0) && (b <? total) then s32 (u64 (b * 100) / total) else 100 in
  let pct := if 100 <? pct then 100 else pct in
  box x y w 22 C_LINE C_INSET ;;
  (if 0 <? pct then fill (x + 2) (y + 2) (Z.quot (iw * pct) 100) 18 (if up then C_BLUE else C_ACC) else nothing) ;;
  for_each (range 1 3) (λ t, fill (x + 2 + Z.quot (iw * t) 4 - 1) (y + 2) 2 18 C_RAISE).

Definition draw_xfer_card (ui : opftp_ui) (y : Z) (c : opftp_snapshot_client) (focused : bool) : draw :=
  let up := Tui.is_up (sc_xfer_op c) in
  let cx := MX + 18 + (22 + 14) in
  let nx := cx + (tw 20 (sc_xfer_op c) + 14) in
  let pctb := Tui.pct_text (sc_xfer_bytes c) (sc_xfer_total c) in
  let name := truncate 128 (sc_xfer_path c) (W - 36 - 22 - 14 - tw 20 (sc_xfer_op c) - 14 - tw 32 pctb - 14) 26 in
  let meta := Tui.meta_text ui c in
  let barw := W - 36 - tw 23 meta - 18 in
  box MX y W XFER_CARD_H (if focused then C_ACC else C_LINE) (if focused then C_FOCUS else C_PANEL) ;;
  arrow (MX + 18) (y + 16) up 22 (if up then C_BLUE else C_ACC) ;;
  text cx (y + 18) C_MUTED 20 (sc_xfer_op c) ;;
  text nx (y + 16) C_TEXT 26 name ;;
  text_r (MX + W - 18) (y + 17) C_BRIGHT 32 pctb ;;
  progress_bar nx (y + 52) barw (sc_xfer_bytes c) (sc_xfer_total c) up ;;
  text_r (MX + W - 18) (y + 54) C_LABEL 23 meta.

(** The cards that fit, and how many. *)
Fixpoint draw_cards (ui : opftp_ui) (l : list opftp_snapshot_client) (y shown nfit : Z) : draw * Z :=
  match l with
  | [] => (nothing, shown)
  | c :: l' =>
     if negb (shown <? nfit) then (nothing, shown)
     else if negb (sc_xfer_active c) then draw_cards ui l' y shown nfit
     else
       let '(d, k) := draw_cards ui l' y (shown + 1) nfit in
       (draw_xfer_card ui (y + shown * (XFER_CARD_H + XFER_CARD_GAP)) c (u_sel_status ui =? shown) ;; d, k)
  end.

(** The chips, and where the next would go and how many there are. *)
Fixpoint draw_chips (ui : opftp_ui) (l : list opftp_snapshot_client) (i y x drawn : Z) : draw * Z * Z :=
  match l with
  | [] => (nothing, x, drawn)
  | c :: l' =>
     if negb (drawn <? 4) then (nothing, x, drawn)
     else
       let chipt := Tui.chip_text now_us ui i c in
       let peerb := truncate 24 (sc_peer c) 170 25 in
       let cw := tw 25 peerb + 12 + tw 21 chipt + 32 + 4 in
       if MX + W <? x + cw + 12 then (nothing, x, drawn)
       else
         let '(d, x', k) := draw_chips ui l' (i + 1) y (x + (cw + 12)) (drawn + 1) in
         (box x y cw CHIP_H C_LINE C_PANEL ;;
          fill (x + 16) (y + 20) 10 10 C_ACC ;;
          text (x + 16 + 10 + 12) (y + 13) C_TEXT 25 peerb ;;
          text (x + 16 + 10 + 12 + tw 25 peerb + 12) (y + 15) C_LABEL 21 chipt ;; d, x', k)
  end.

(** The chip that counts the clients without one. *)
Definition more_text (n : Z) : bytes := bprintf 16 (B "+" ++ fmt_d n).
Definition draw_more (x y n : Z) : draw :=
  let more := more_text n in
  let cw := tw 21 more + 32 + 4 in
  box x y cw CHIP_H C_LINE C_PANEL ;; text_c (x + Z.quot cw 2) (y + 13) C_LABEL 21 more.

Definition draw_connected (ui : opftp_ui) (y : Z) : draw :=
  let n := sn_num_clients (u_snap ui) in
  let '(d, x, drawn) := draw_chips ui (snap_list (u_snap ui)) 0 (y + (SLAB_H + 12)) MX 0 in
  slab y (B "CONNECTED CLIENTS") (Tui.slab_count n) false None ;;
  d ;;
  if drawn <? n then draw_more x (y + (SLAB_H + 12)) (n - drawn) else nothing.

Definition draw_status (g : Tui.tui) (dev_blind_mounted : bool) : draw :=
  let ui := Tui.g_ui g in
  let y0 := HDR_BOTTOM + 12 in
  let y1 := y0 + strip_height ui in
  let y2 := y1 + (CARD_H + 12) in
  let y3 := y2 + (SLAB_H + 12) in
  let nxfer := Z.of_nat (length (active_clients ui)) in
  let area_bottom := FTR_TOP - 12 - CHIP_H - 12 - SLAB_H - 12 in
  let area_h := area_bottom - y3 in
  let nfit := Z.quot (area_h + XFER_CARD_GAP) (XFER_CARD_H + XFER_CARD_GAP) in
  let '(cards, shown) := draw_cards ui (snap_list (u_snap ui)) y3 0 nfit in
  draw_event_strip ui y0 ;;
  draw_status_card g dev_blind_mounted y1 ;;
  slab y2 (B "ACTIVE TRANSFERS") (Tui.slab_count nxfer) false None ;;
  cards ;;
  if nxfer =? 0 then
    (if 90 <=? area_h then
       box MX y3 W area_h C_LINE C_INSET ;;
       text_c (MX + Z.quot W 2) (y3 + Z.quot area_h 2 - 26) C_EMPTY 28 (B "No active transfers") ;;
       text_c (MX + Z.quot W 2) (y3 + Z.quot area_h 2 + 10) C_LABEL 22
         (B "Transfers appear here while clients send or receive files")
     else nothing) ;;
    draw_connected ui (y3 + area_h)
  else
    draw_connected ui (if 0 <? shown then y3 + (shown * (XFER_CARD_H + XFER_CARD_GAP) - XFER_CARD_GAP) else y3).

(** ** Tables *)

Record Col := mk_col { col_w : Z; col_label : bytes; col_right : bool }.

(** The heads of the columns, the next at [x]. *)
Fixpoint table_heads (y x : Z) (cols : list Col) : draw :=
  match cols with
  | [] => nothing
  | c :: cols' =>
     (if col_right c then text_r (x + col_w c) y C_LABEL 20 (col_label c) else text x y C_LABEL 20 (col_label c)) ;;
     table_heads y (x + (col_w c + 14)) cols'
  end.

Definition TABLE_TOP : Z := HDR_BOTTOM + 12 + SLAB_H + 12.
Definition ROWS_TOP : Z := TABLE_TOP + THEAD_H.
Definition ROWS_H : Z := FTR_TOP - 12 - ROWS_TOP.

(** The first head is at the left whatever its column says. *)
Definition table_begin (cols : list Col) : draw :=
  match cols with
  | [] => nothing
  | c :: cols' => text (MX + 10) TABLE_TOP C_LABEL 20 (col_label c) ;; table_heads TABLE_TOP (MX + 10 + (col_w c + 14)) cols'
  end ;;
  hline MX (TABLE_TOP + THEAD_H) W C_LINE.

Definition draw_scrollbar (y h scroll visible total : Z) : draw :=
  let x := MX + W - 10 in
  box x y 10 h C_LINE C_INSET ;;
  if total <=? visible then nothing
  else
    let th := Z.quot (h * 32) 100 in
    fill (x + 2) (y + Z.quot ((h - th) * scroll) (total - visible)) 6 th C_MUTED.

(** The rows a table has room for. *)
Definition rows_visible (row_h : Z) : Z := let v := Z.quot ROWS_H row_h in if v <? 1 then 1 else v.

(** The backgrounds of the rows: the loop stops at the last entry. *)
Definition row_backgrounds (row_h scroll sel total : Z) : draw :=
  for_each (range 0 (Z.min (rows_visible row_h) (total - scroll) - 1)) (λ r,
    let ry := ROWS_TOP + r * row_h in
    (if sel =? scroll + r then fill MX ry W row_h C_FOCUS else nothing) ;;
    hline MX (ry + row_h - 2) W C_LINE).

Definition HIST_COLS : list Col :=
  [mk_col 88 (B "TIME") false; mk_col 30 [] false; mk_col 56 (B "DIR") false; mk_col 0 (B "FILE") false;
   mk_col 140 (B "SIZE") true; mk_col 118 (B "RESULT") true].
Definition FILE_W : Z := W - 20 - 88 - 30 - 56 - 140 - 118 - 14 * 5.

Definition draw_hist_row (ui : opftp_ui) (idx ry : Z) : draw :=
  with_value (Tui.ring_at (u_hist ui) (u_hist_head ui) idx OPFTP_UI_MAX_HIST) (λ h,
    let up := Tui.is_up (hi_op h) in
    let x0 := MX + 10 in
    let x1 := x0 + (88 + 14) in
    let x2 := x1 + (30 + 14) in
    let x3 := x2 + (56 + 14) in
    let x4 := x3 + FILE_W in
    let x5 := x4 + (140 + 14) in
    let rs := Tui.result_text (hi_result h) in
    let rc := Tui.result_color (hi_result h) in
    let bw := tw 20 rs + 24 in
    (if u_sel_hist ui =? idx then box MX ry W HIST_ROW_H C_ACC C_FOCUS else nothing) ;;
    text x0 (ry + 16) C_MUTED 24 (Tui.hh_mm (hi_hh h) (hi_mm h)) ;;
    arrow (x1 + 7) (ry + 18) up 16 (if up then C_BLUE else C_ACC) ;;
    text x2 (ry + 16) C_MUTED 20 (hi_op h) ;;
    text x3 (ry + 16) C_TEXT 24 (truncate 128 (hi_path h) FILE_W 24) ;;
    text_r (x4 + 140) (ry + 16) C_TEXT 24 (opftp_ui_fmt_size 16 (hi_bytes h)) ;;
    box (x5 + Z.quot (118 - bw) 2) (ry + 15) bw 26 rc C_BG ;;
    text_c (x5 + 59) (ry + 18) rc 20 rs).

Definition hist_scroll (ui : opftp_ui) : Z :=
  opftp_ui_clamp_scroll (u_sel_hist ui) (u_scroll_hist ui) (rows_visible HIST_ROW_H) (u_hist_count ui).

(** The drawing, and the model with its new scroll position. *)
Definition draw_transfers (ui : opftp_ui) : draw * opftp_ui :=
  let total := u_hist_count ui in
  let ui' := ui <| u_scroll_hist := hist_scroll ui |> in
  let scroll := u_scroll_hist ui' in
  (slab (HDR_BOTTOM + 12) (B "TRANSFER HISTORY") (Tui.slab_count total) false
     (if total =? 0 then None else Some (if 0 <? total then Tui.showing_text ui else [])) ;;
   table_begin HIST_COLS ;;
   row_backgrounds HIST_ROW_H scroll (u_sel_hist ui) total ;;
   for_each (range 0 (Z.min (rows_visible HIST_ROW_H) (total - scroll) - 1)) (λ r,
     draw_hist_row ui' (scroll + r) (ROWS_TOP + r * HIST_ROW_H)) ;;
   draw_scrollbar ROWS_TOP ROWS_H scroll (rows_visible HIST_ROW_H) total, ui').

Definition CLI_COLS : list Col :=
  [mk_col 230 (B "IP ADDRESS") false; mk_col 150 (B "USER") false; mk_col 0 (B "CURRENT DIRECTORY") false;
   mk_col 120 (B "IDLE") true].
Definition CWD_W : Z := W - 20 - 230 - 150 - 120 - 14 * 3.

Definition draw_client_row (ui : opftp_ui) (ci ry : Z) : draw :=
  with_value (sn_clients (u_snap ui) !! Z.to_nat ci) (λ c,
    let x0 := MX + 10 in
    let x1 := x0 + (10 + 14) in
    let x2 := x1 + (230 - 10 - 24 + 14) in
    let x3 := x2 + (150 + 14) in
    let x4 := x3 + CWD_W in
    let idl := match Tui.trk_of ui (sc_peer c) with
               | Some t => u64 (now_us (Tui.AtClient ci) -
                                (if sc_xfer_active c then t_xfer_t0_us t else t_idle_reset_us t)) / 1000000
               | None => 0
               end in
    (if u_sel_cli ui =? ci then box MX ry W CLI_ROW_H C_ACC C_FOCUS else nothing) ;;
    fill x0 (ry + 27) 10 10 (if sc_xfer_active c then C_ACC else C_RAISE) ;;
    text x1 (ry + 19) C_TEXT 26 (truncate 24 (sc_peer c) (230 - 10 - 24) 26) ;;
    text x2 (ry + 19) C_TEXT 26 (truncate 20 (Tui.user_text c) 150 26) ;;
    text x3 (ry + 19) C_TEXT 26 (truncate 96 (sc_cwd c) CWD_W 26) ;;
    text_r (x4 + 120) (ry + 19) C_MUTED 26 (opftp_ui_fmt_idle 8 idl)).

Definition cli_scroll (ui : opftp_ui) : Z :=
  opftp_ui_clamp_scroll (u_sel_cli ui) (u_scroll_cli ui) (rows_visible CLI_ROW_H) (sn_num_clients (u_snap ui)).

Definition draw_clients (ui : opftp_ui) : draw * opftp_ui :=
  let total := sn_num_clients (u_snap ui) in
  let ui' := ui <| u_scroll_cli := cli_scroll ui |> in
  let scroll := u_scroll_cli ui' in
  (slab (HDR_BOTTOM + 12) (B "CLIENTS") (Tui.slab_count total) false
     (Some (bprintf 24 (fmt_d total ++ B " OF " ++ fmt_d Tui.OPFTP_SNAPSHOT_MAX_CLIENTS ++ B " SLOTS IN USE"))) ;;
   table_begin CLI_COLS ;;
   row_backgrounds CLI_ROW_H scroll (u_sel_cli ui) total ;;
   for_each (range 0 (Z.min (rows_visible CLI_ROW_H) (total - scroll) - 1)) (λ r,
     draw_client_row ui' (scroll + r) (ROWS_TOP + r * CLI_ROW_H)) ;;
   draw_scrollbar ROWS_TOP ROWS_H scroll (rows_visible CLI_ROW_H) total ;;
   text MX (ROWS_TOP + ROWS_H + 8) C_LABEL 22
     (B "Square marker: client has a transfer in progress. Idle time is mm:ss since the last command."), ui').

(** ** The settings view *)

(** Row [i]; the last two are switches, both off. *)
Definition draw_setting (ui : opftp_ui) (y i : Z) (key val : bytes) : draw :=
  let ry := y + i * SET_ROW_H in
  let focused := u_sel_settings ui =? i in
  (if focused
   then box MX ry W SET_ROW_H C_ACC C_FOCUS ;; text (MX + 24) (ry + 16) C_ACC 28 key
   else text (MX + 24) (ry + 16) C_TEXT 28 key) ;;
  (if i <? 3 then
     text_r (MX + W - 24) (ry + 16) C_TEXT 28 val ;;
     (if i =? 1
      then text_r (MX + W - 24 - tw 28 val - 40) (ry + 18) (if focused then C_ACC else C_MUTED) 20
             (bprintf 16 (B "X " ++ Tui.MIDDOT ++ B " EDIT"))
      else nothing)
   else
     let bw := tw 22 val + 32 in
     box (MX + W - 24 - bw) (ry + 12) bw 34 C_LINE C_PANEL ;;
     text_c (MX + W - 24 - Z.quot bw 2) (ry + 18) C_MUTED 22 val) ;;
  (if i <? 4 then hline (MX + 24) (ry + SET_ROW_H) (W - 48) C_LINE else nothing).

Definition draw_settings (ui : opftp_ui) : draw :=
  let y0 := HDR_BOTTOM + 12 + strip_height ui in
  let y := y0 + SLAB_H + 12 in
  let s := u_snap ui in
  draw_event_strip ui (HDR_BOTTOM + 12) ;;
  slab y0 (B "SETTINGS") None false None ;;
  box MX y W (SET_ROW_H * 5 + 2) C_LINE C_PANEL ;;
  draw_setting ui y 0 (B "Port") (bprintf 24 (fmt_u (sn_port s))) ;;
  draw_setting ui y 1 (B "Root path") (bprintf 24 (sn_root s)) ;;
  draw_setting ui y 2 (B "Worker threads") (bprintf 24 (fmt_d (sn_workers s))) ;;
  draw_setting ui y 3 (B "TLS") (B "OFF") ;;
  draw_setting ui y 4 (B "Require TLS") (B "OFF") ;;
  text MX (y + SET_ROW_H * 5 + 2 + 14) C_LABEL 22
    (B "Press X on the Root path row to change it (system keyboard). Other values are read-only.").

(** ** Overlays *)

Definition PANEL_W : Z := 960.
Definition PANEL_H : Z := 300.
Definition PANEL_X : Z := Z.quot (SCREEN_W - PANEL_W) 2.
Definition PANEL_Y : Z := Z.quot (SCREEN_H - PANEL_H) 2.
Definition overlay_panel : draw := box PANEL_X PANEL_Y PANEL_W PANEL_H C_RAISE C_PANEL.

(** The left edge of the texts. *)
Definition PX : Z := PANEL_X + 24.

(** A path in at most [n] lines of 56 bytes, the first at [y]. *)
Fixpoint path_lines (n : nat) (y : Z) (s : bytes) : draw :=
  match s with
  | [] => nothing
  | _ =>
     match n with
     | O => text PX y C_MUTED 24 Canvas.ELLIPSIS
     | S n' => text PX y C_TEXT 24 (take 56 s) ;; path_lines n' (y + 32) (drop 56 s)
     end
  end.

Definition close_hint : draw := text_r (PX + PANEL_W - 72) (PANEL_Y + PANEL_H - 44) C_LABEL 20 (Tui.TIMES ++ B " Close").

Definition draw_detail_hist (ui : opftp_ui) : draw :=
  if (u_detail_idx ui <? 0) || (u_hist_count ui <=? u_detail_idx ui) then nothing
  else
    with_value (Tui.ring_at (u_hist ui) (u_hist_head ui) (u_detail_idx ui) OPFTP_UI_MAX_HIST) (λ h,
      let up := Tui.is_up (hi_op h) in
      let sz := opftp_ui_fmt_size 16 (hi_bytes h) in
      let tot := opftp_ui_fmt_size 16 (hi_total h) in
      overlay_panel ;;
      text PX (PANEL_Y + 20) C_LABEL 22 (B "TRANSFER DETAIL") ;;
      arrow PX (PANEL_Y + 62) up 22 (if up then C_BLUE else C_ACC) ;;
      text (PX + 36) (PANEL_Y + 60) C_TEXT 28 (hi_op h) ;;
      text (PX + 36 + tw 28 (hi_op h) + 24) (PANEL_Y + 62) C_MUTED 24
        (fmt_0d 2 (hi_hh h) ++ B ":" ++ fmt_0d 2 (hi_mm h) ++ B " " ++ Tui.MIDDOT ++ B " " ++ sz) ;;
      (if hi_total h =? 0 then nothing
       else text_r (PX + PANEL_W - 48) (PANEL_Y + 62) C_MUTED 24 (B "of " ++ tot)) ;;
      path_lines 3 (PANEL_Y + 110) (hi_path h) ;;
      text PX (PANEL_Y + PANEL_H - 44) (Tui.result_color (hi_result h)) 24 (B "RESULT: " ++ Tui.result_text (hi_result h)) ;;
      close_hint).

Definition draw_detail_xfer (ui : opftp_ui) : draw :=
  if (u_detail_idx ui <? 0) || (sn_num_clients (u_snap ui) <=? u_detail_idx ui) then nothing
  else
    with_value (sn_clients (u_snap ui) !! Z.to_nat (u_detail_idx ui)) (λ c,
      if negb (sc_xfer_active c) then nothing
      else
        let up := Tui.is_up (sc_xfer_op c) in
        let sz := opftp_ui_fmt_size 24 (sc_xfer_bytes c) in
        let tot := opftp_ui_fmt_size 24 (sc_xfer_total c) in
        let rate := opftp_ui_fmt_rate 16 (Tui.known_rate ui (sc_peer c)) in
        overlay_panel ;;
        text PX (PANEL_Y + 20) C_LABEL 22 (B "ACTIVE TRANSFER") ;;
        arrow PX (PANEL_Y + 62) up 22 (if up then C_BLUE else C_ACC) ;;
        text (PX + 36) (PANEL_Y + 60) C_TEXT 28 (sc_xfer_op c) ;;
        (if sc_xfer_total c =? 0
         then text_r (PX + PANEL_W - 48) (PANEL_Y + 62) C_TEXT 24 (sz ++ B " " ++ Tui.MIDDOT ++ B " " ++ rate)
         else text_r (PX + PANEL_W - 48) (PANEL_Y + 62) C_TEXT 24
                (sz ++ B " of " ++ tot ++ B " " ++ Tui.MIDDOT ++ B " " ++ rate)) ;;
        path_lines 3 (PANEL_Y + 110) (sc_xfer_path c) ;;
        text PX (PANEL_Y + PANEL_H - 44) C_MUTED 24 (B "CLIENT " ++ sc_peer c) ;;
        close_hint).

Definition draw_detail_client (ui : opftp_ui) : draw :=
  if (u_detail_idx ui <? 0) || (sn_num_clients (u_snap ui) <=? u_detail_idx ui) then nothing
  else
    with_value (sn_clients (u_snap ui) !! Z.to_nat (u_detail_idx ui)) (λ c,
      overlay_panel ;;
      text PX (PANEL_Y + 20) C_LABEL 22 (B "CLIENT DETAIL") ;;
      text PX (PANEL_Y + 60) C_TEXT 28 (sc_peer c) ;;
      text PX (PANEL_Y + 104) C_LABEL 24 (B "USER") ;;
      text (PX + 80) (PANEL_Y + 104) C_TEXT 24 (Tui.user_text c) ;;
      text PX (PANEL_Y + 140) C_LABEL 24 (B "STATUS") ;;
      text (PX + 110) (PANEL_Y + 140) (if sc_xfer_active c then C_ACC else C_MUTED) 24
        (if sc_xfer_active c then sc_xfer_op c else B "idle") ;;
      text PX (PANEL_Y + 176) C_LABEL 22 (B "CWD") ;;
      path_lines 2 (PANEL_Y + 200) (sc_cwd c) ;;
      close_hint).

(** The rows of the help panel: the top of row [k], and its glyph. *)
Definition help_y (k : Z) : Z := PANEL_Y + 64 + k * 40.
Definition help_row (k : Z) (glyph : Z → draw) (s : bytes) : draw :=
  glyph (help_y k) ;; text (PX + 34) (help_y k + 2) C_TEXT 24 s.

Definition draw_help : draw :=
  overlay_panel ;;
  text PX (PANEL_Y + 20) C_LABEL 22 (B "HELP") ;;
  help_row 0 (λ gy, glyph_tri PX gy C_TEXT) (B "Move selection") ;;
  help_row 1 (λ gy, fill (PX + 8) (gy + 4) 8 16 C_TEXT ;; fill (PX + 4) (gy + 8) 16 8 C_TEXT) (B "Switch view") ;;
  help_row 2 (λ gy, glyph_x PX gy C_TEXT) (B "Open details") ;;
  help_row 3 (λ gy, glyph_circle PX gy C_TEXT) (B "Close / clear selection") ;;
  help_row 4 (λ gy, glyph_tri PX gy C_TEXT) (B "Close this panel") ;;
  help_row 5 (λ gy, glyph_select PX gy C_TEXT) (B "Toggle dev_blind") ;;
  glyph_start PX (help_y 6) (B "START") ;; text (PX + 74 + 14) (help_y 6 + 2) C_TEXT 24 (B "Hold to quit") ;;
  text PX (PANEL_Y + PANEL_H - 44) C_LABEL 20
    ([chr 226; chr 150; chr 179] ++ B " Help  " ++ Tui.TIMES ++ B " Select  " ++ [chr 226; chr 151; chr 139] ++
     B " Back  START Quit").

Definition draw_detail_or_help (ui : opftp_ui) : draw :=
  if 0 <=? u_detail_kind ui then
    if u_detail_kind ui =? 0 then draw_detail_hist ui
    else if u_detail_kind ui =? 1 then draw_detail_xfer ui
    else draw_detail_client ui
  else if u_help ui then draw_help else nothing.

(** ** Render *)

Definition draw_view (g : Tui.tui) (dev_blind_mounted : bool) : draw * opftp_ui :=
  let ui := Tui.g_ui g in
  if u_view ui =? OPFTP_UI_V_STATUS then (draw_status g dev_blind_mounted, ui)
  else if u_view ui =? OPFTP_UI_V_TRANSFERS then draw_transfers ui
  else if u_view ui =? OPFTP_UI_V_CLIENTS then draw_clients ui
  else if u_view ui =? OPFTP_UI_V_SETTINGS then (draw_settings ui, ui)
  else (nothing, ui).

(** The frame on the plain background, and the model after it. *)
Definition render (g : Tui.tui) (dev_blind_mounted : bool) : draw * opftp_ui :=
  let '(view, ui) := draw_view g dev_blind_mounted in
  (draw_header (u_view ui) (Tui.g_version g) ;; view ;; draw_footer (u_view ui) ;; draw_detail_or_help ui, ui).

End Screen.
End Osd.
