(* ===== verification/OsdRun.v ===== *)
(** * app/osd.cpp: pad, system keyboard and the loop

    The pad is polled once per round and acts on the edges of its buttons;
    the root path is edited with the keyboard of the console, whose result
    arrives through callbacks; SELECT makes the flash writable. The calls of
    the console are recorded in order, with what they answered. The bits of
    the buttons are constants of the SDK and a parameter. *)

From S2P Require Import Prelude CLib World Ui Canvas Server Tui Osd.
Import CLib Ui Server.

Local Open Scope Z_scope.

Module OsdRun.

#[local] Existing Instance Tui.tui_settable.

(** [CELL_PAD_CTRL_*]: the bits of the two words of the pad. *)
Record pad_bits := mk_pad_bits {
  CTRL_LEFT : Z; CTRL_RIGHT : Z; CTRL_UP : Z; CTRL_DOWN : Z; CTRL_START : Z; CTRL_SELECT : Z;
  CTRL_TRIANGLE : Z; CTRL_CIRCLE : Z; CTRL_CROSS : Z; CTRL_L2 : Z
}.

(** ** The text of the system keyboard *)

Definition u16 (z : Z) : Z := z mod 65536.

(** A character: its length by its first byte, and its code point. *)
Definition u8_len (c : ascii) : nat :=
  if cv c <? 128 then 1 else if Z.land (cv c) 224 =? 192 then 2 else if Z.land (cv c) 240 =? 224 then 3 else 4.
Definition u8_first (c : ascii) : Z :=
  if cv c <? 128 then cv c
  else if Z.land (cv c) 224 =? 192 then Z.land (cv c) 31
  else if Z.land (cv c) 240 =? 224 then Z.land (cv c) 15
  else Z.land (cv c) 7.
Definition u8_join (cp : Z) (c : ascii) : Z := Z.lor (Z.shiftl cp 6) (Z.land (cv c) 63).
Definition u8_code (s : bytes) : Z :=
  match s with
  | [] => 0
  | c :: r => foldl u8_join (u8_first c) (take (u8_len c - 1) r)
  end.

(** [utf8_to_u16]: at most [max] units; [None] when a character that is cut
    short at the end leads past the terminator. *)
Fixpoint utf8_to_u16 (max : nat) (s : bytes) : option (list Z) :=
  match s, max with
  | [], _ | _, O => Some []
  | c :: _, S max' =>
     if (length s <? u8_len c)%nat then None
     else
       let cp := u8_code s in
       r ← utf8_to_u16 max' (drop (u8_len c) s);
       Some (u16 (if 65535 <? cp then 65533 else cp) :: r)
  end.

Definition u16_to_utf8 (c : Z) : bytes :=
  if c <? 128 then [chr c]
  else if c <? 2048 then [chr (Z.lor 192 (Z.shiftr c 6)); chr (Z.lor 128 (Z.land c 63))]
  else [chr (Z.lor 224 (Z.shiftr c 12)); chr (Z.lor 128 (Z.land (Z.shiftr c 6) 63)); chr (Z.lor 128 (Z.land c 63))].

(** ** State *)

(** What the console is asked for: mounting and unmounting the flash with the
    result, the keyboard with its first text, its end, a line of the log. *)
Inductive call :=
  | X_mount (rc : Z) | X_unmount (rc : Z) | X_osk_load (init : list Z) | X_osk_unload | X_log (s : bytes).

(** [g] as on the terminal, the server, and the statics of the file. *)
Record osd := mk_osd {
  o_g : Tui.tui; o_srv : opftp_server;
  pad_d1 : Z; pad_d2 : Z; prev_d1 : Z; prev_d2 : Z; start_hold_us : Z;
  dev_blind_mounted : bool; osk_finished : bool; osk_canceled : bool;
  o_calls : list call
}.
#[export] Instance osd_settable : Settable osd := λ x,
  mk_osd (o_g x) (o_srv x) (pad_d1 x) (pad_d2 x) (prev_d1 x) (prev_d2 x) (start_hold_us x) (dev_blind_mounted x)
    (osk_finished x) (osk_canceled x) (o_calls x).

Definition o_ui (o : osd) : opftp_ui := Tui.g_ui (o_g o).
Definition on_ui (f : opftp_ui → opftp_ui) (o : osd) : osd :=
  o <| o_g := (o_g o) <| Tui.g_ui := f (Tui.g_ui (o_g o)) |> |>.
Definition quit (o : osd) : osd := o <| o_g := (o_g o) <| Tui.g_quit := true |> |>.
Definition calling (c : call) (o : osd) : osd := o <| o_calls := o_calls o ++ [c] |>.

(** ** The system keyboard *)

(** The events the callback is told. *)
Inductive osk_event := OSKDIALOG_FINISHED | OSKDIALOG_INPUT_CANCELED | SYSUTIL_OTHER.
Definition osk_cb (e : osk_event) (o : osd) : osd :=
  match e with
  | OSKDIALOG_FINISHED => o <| osk_finished := true |>
  | OSKDIALOG_INPUT_CANCELED => o <| osk_canceled := true |>
  | SYSUTIL_OTHER => o
  end.

Definition osk_open (initial : bytes) (o : osd) : option osd :=
  u ← utf8_to_u16 OPFTP_UI_EDIT_MAX initial;
  Some (calling (X_osk_load u) (o <| osk_finished := false |> <| osk_canceled := false |>)).

(** What [cellOskDialogUnloadAsync] gives: whether the input was accepted,
    and the text. *)
Record osk_return := mk_osk_return { or_ok : bool; or_text : list Z }.

(** The units are typed one by one; one that does not fit is left out. *)
Definition osk_type (ui : opftp_ui) (c : Z) : opftp_ui := snd (opftp_ui_edit_type (cstr_of (u16_to_utf8 c)) ui).

Definition osk_process (now : Z) (ret : osk_return) (o : osd) : osd :=
  let ui := o_ui o in
  if u_edit_field ui =? OPFTP_UI_EDIT_NONE then o
  else if negb (osk_finished o) && negb (osk_canceled o) then o
  else
    let o := calling X_osk_unload o in
    let o :=
      if or_ok ret && (0 <? Z.of_nat (length (or_text ret))) then
        let ui := opftp_ui_edit_begin (u_edit_field ui) None ui in
        let ui := foldl osk_type ui (or_text ret) in
        let '(v, ui) := opftp_ui_edit_commit ui in
        let '(rc, srv) := opftp_server_set_root_runtime v (o_srv o) in
        on_ui (λ _, match rc with Ok _ => ui | Err _ => opftp_ui_event Tui.NOT_CHANGED true now ui end)
          (o <| o_srv := srv |>)
      else on_ui opftp_ui_edit_cancel o in
    o <| osk_finished := false |> <| osk_canceled := false |>.

(** ** The pad *)

Definition poll_pad (pad : option (Z * Z)) (o : osd) : osd :=
  match pad with
  | None => o <| pad_d1 := 0 |> <| pad_d2 := 0 |>
  | Some (d1, d2) => o <| pad_d1 := u16 d1 |> <| pad_d2 := u16 d2 |>
  end.

Definition pressed (w bits : Z) : bool := negb (Z.land w bits =? 0).

(** The time START has been held. *)
Definition hold_start (start : Z) (now : Z) (o : osd) : osd :=
  if pressed (pad_d1 o) start then
    if start_hold_us o =? 0 then o <| start_hold_us := now |>
    else if 2000000 <=? u64 (now - start_hold_us o) then quit o else o
  else o <| start_hold_us := 0 |>.

Definition DEV_MOUNTED : bytes := B "dev_blind mounted".
Definition DEV_UNMOUNTED : bytes := B "dev_blind unmounted".
Definition DEV_FAILED : bytes := B "dev_blind mount failed".

(** [rc] is the answer of the mount or unmount. *)
Definition dev_blind_toggle (rc : Z) (now : Z) (o : osd) : osd :=
  let o := calling (if dev_blind_mounted o then X_unmount rc else X_mount rc) o in
  if rc =? 0 then
    let m := negb (dev_blind_mounted o) in
    on_ui (opftp_ui_event (if m then DEV_MOUNTED ++ B " (flash writable)" else DEV_UNMOUNTED) false now)
      (calling (X_log (if m then DEV_MOUNTED else DEV_UNMOUNTED)) (o <| dev_blind_mounted := m |>))
  else
    on_ui (opftp_ui_event DEV_FAILED true now)
      (calling (X_log (bprintf 512 (DEV_FAILED ++ B " (rc=" ++ fmt_d rc ++ B ")"))) o).

Section Pad.
Context (pb : pad_bits).

(** The rest of [handle_input], on the edges [p1] and [p2]. *)
Definition act (p1 p2 : Z) (rc : Z) (now : Z) (o : osd) : option osd :=
  let ui := o_ui o in
  if pressed p2 (CTRL_TRIANGLE pb) then Some (on_ui Tui.help_toggle o)
  else if u_help ui then
    Some (if pressed p2 (Z.lor (CTRL_CIRCLE pb) (CTRL_CROSS pb)) then on_ui (λ ui, ui <| u_help := false |>) o else o)
  else if 0 <=? u_detail_kind ui then
    Some (if pressed p2 (Z.lor (CTRL_CIRCLE pb) (CTRL_CROSS pb))
          then on_ui (λ ui, ui <| u_detail_kind := OPFTP_UI_D_NONE |>) o else o)
  else if negb (u_edit_field ui =? OPFTP_UI_EDIT_NONE) then Some o
  else if pressed p2 (CTRL_SELECT pb) then Some (dev_blind_toggle rc now o)
  else
    let o := if pressed p1 (Z.lor (CTRL_LEFT pb) (CTRL_RIGHT pb))
             then on_ui (opftp_ui_switch_view (if pressed p1 (CTRL_RIGHT pb) then 1 else -1)) o else o in
    let o := if pressed p1 (CTRL_UP pb) then on_ui (opftp_ui_sel_move (-1)) o else o in
    let o := if pressed p1 (CTRL_DOWN pb) then on_ui (opftp_ui_sel_move 1) o else o in
    let ui := o_ui o in
    let back o := if pressed p2 (CTRL_CIRCLE pb) then on_ui opftp_ui_clear_sel o else o in
    if pressed p2 (CTRL_CROSS pb) then
      if (u_view ui =? OPFTP_UI_V_SETTINGS) && (u_sel_settings ui =? 1) then
        let o := on_ui Tui.edit_open o in osk_open (u_edit_buf (o_ui o)) o
      else Some (back (on_ui opftp_ui_open_detail o))
    else Some (back o).

(** [handle_input]: whether an edge was seen. *)
Definition handle_input (rc now : Z) (o : osd) : option (bool * osd) :=
  let p1 := Z.ldiff (pad_d1 o) (prev_d1 o) in
  let p2 := Z.ldiff (pad_d2 o) (prev_d2 o) in
  o ← act p1 p2 rc now (hold_start (CTRL_START pb) now o);
  Some (negb (Z.lor p1 p2 =? 0), o <| prev_d1 := pad_d1 o |> <| prev_d2 := pad_d2 o |>).

(** ** The loop *)

(** What a round meets. *)
Record round := mk_round {
  r_app : bool;                    (* GetAppStatus *)
  r_pad : option (Z * Z);          (* cellPadGetData *)
  r_rc : Z;                        (* a mount or unmount *)
  r_now : Tui.site → Z; r_input_us : Z; r_clock_us : Z;
  r_events : list osk_event;       (* delivered by cellSysutilCheckCallback *)
  r_osk : osk_return;
  r_snap : opftp_snapshot; r_changed : bool;
  r_exit : bool                    (* ExitSignalStatus *)
}.

(** One round: the frame when it renders, and the state after it. *)
Definition frame (r : round) (o : osd) : option (option (list Osd.prim) * osd) :=
  '(any_edge, o) ← handle_input (r_rc r) (r_input_us r) (poll_pad (r_pad r) o);
  let o := foldl (λ o e, osk_cb e o) o (r_events r) in
  let o := osk_process (r_now r (Tui.AtEdit 0)) (r_osk r) o in
  let g := o_g o in
  let g := g <| Tui.g_ui := opftp_ui_poll (r_now r Tui.AtPoll) (Tui.g_ui g <| u_snap := r_snap r |>) |> <| Tui.g_snap_ok := true |> in
  let g := if r_exit r then g <| Tui.g_quit := true |> else g in
  let dirty := any_edge || r_changed r || (1000000 <=? u64 (r_now r Tui.AtSince - Tui.last_render_us g)) in
  if dirty then
    let '(d, ui) := Osd.render (r_now r) (r_clock_us r) g (dev_blind_mounted o) in
    d ← d;
    Some (Some d, o <| o_g := g <| Tui.g_ui := ui |> <| Tui.last_render_us := r_now r Tui.AtRendered |> |>)
  else Some (None, o <| o_g := g |>).

(** The frames shown, and the state after the rounds. *)
Fixpoint rounds (rs : list round) (o : osd) : option (list (list Osd.prim) * osd) :=
  match rs with
  | [] => Some ([], o)
  | r :: rs' =>
     if negb (r_app r) || Tui.g_quit (o_g o) then Some ([], o)
     else '(d, o) ← frame r o; '(ds, o) ← rounds rs' o; Some (option_list d ++ ds, o)
  end.

(** [opftp_osd_run]; [ip] is what [cellNetCtlGetInfo] gives, [rc] the answer
    to the unmount at the end. *)
Definition osd_start (now : Z) (version : bytes) (ip : option bytes) (srv : opftp_server) (o : osd) : osd :=
  o <| o_g := Tui.mk_tui (opftp_ui_init now) version (bprintf 16 (default EM_DASH ip)) false false 0 |>
    <| o_srv := srv |> <| start_hold_us := 0 |>.

Definition osd_end (rc : Z) (o : osd) : osd := if dev_blind_mounted o then calling (X_unmount rc) o else o.

Definition opftp_osd_run (now : Z) (version : bytes) (ip : option bytes) (rc : Z) (rs : list round)
  (srv : opftp_server) (o : osd) : option (list (list Osd.prim) * osd) :=
  '(ds, o) ← rounds rs (osd_start now version ip srv o);
  Some (ds, osd_end rc o).

End Pad.

(** The statics as the program starts. *)
Definition osd0 : osd :=
  mk_osd (Tui.mk_tui (opftp_ui_init 0) [] [] false false 0) (opftp_server_create None false true) 0 0 0 0 0 false false false [].

End OsdRun.
