(* ===== verification/OsdSafe.v ===== *)
(** * The frames of the console screen

    Every shape of every frame lies on the 1280 x 720 screen, whatever the
    server and the model hold, with one exception: the chip that counts the
    clients without a chip of their own can stick out on the right. *)

From S2P Require Import Prelude Utf8 CLib World Ui Canvas Server Tui TuiSafe Osd OsdRun.
Import Utf8 CLib Ui Server Osd.

Local Open Scope Z_scope.

Module OsdSafe.

(** Within the first [R] columns and the rows of the screen; of a text, its
    top left corner. *)
Definition within (R : Z) (p : prim) : Prop :=
  match p with
  | Rectangle x y w h _ => 0 ≤ x ∧ 0 ≤ y ∧ x + w ≤ R ∧ y + h ≤ SCREEN_H
  | Circle x y r _ => r ≤ x ∧ r ≤ y ∧ x + r ≤ R ∧ y + r ≤ SCREEN_H
  | Printf x y _ _ _ => 0 ≤ x ∧ 0 ≤ y < SCREEN_H
  end.

(** A drawing that completes, within [R] columns. *)
Definition ok (R : Z) (d : draw) : Prop := ∃ l, d = Some l ∧ Forall (within R) l.

Create HintDb osd.

Section Ok.
Context (R : Z).

Lemma fits_nothing : ok R nothing.
Proof. by exists []. Qed.
Lemma fits_one p : within R p → ok R (Some [p]).
Proof. intros H. exists [p]. split; [done|]. by constructor. Qed.
Lemma fits_seq d1 d2 : ok R d1 → ok R d2 → ok R (seq_draw d1 d2).
Proof. intros (l1 & -> & H1) (l2 & -> & H2). exists (l1 ++ l2). split; [done|]. by apply Forall_app. Qed.
Lemma fits_value {A} (o : option A) k x : o = Some x → ok R (k x) → ok R (with_value o k).
Proof. by intros ->. Qed.
Lemma fits_each {A} (l : list A) body : (∀ x, x ∈ l → ok R (body x)) → ok R (for_each l body).
Proof.
  induction l as [|x l IH]; intros H; [apply fits_nothing|]. apply fits_seq; [apply H; left|]. apply IH. intros y Hy. apply H. by right.
Qed.
Lemma fits_range a b body : (∀ i, a ≤ i ≤ b → ok R (body i)) → ok R (for_each (range a b) body).
Proof. intros H. apply fits_each. intros i Hi%Canvas.elem_of_range. apply H. lia. Qed.
Lemma fits_cond (b : bool) d1 d2 : (b = true → ok R d1) → (b = false → ok R d2) → ok R (if b then d1 else d2).
Proof. destruct b; auto. Qed.

Lemma fits_fill x y w h c : (0 < w → 0 < h → 0 ≤ x ∧ 0 ≤ y ∧ x + w ≤ R ∧ y + h ≤ SCREEN_H) → ok R (fill x y w h c).
Proof. intros H. unfold fill. destruct (Z.leb_spec w 0), (Z.leb_spec h 0); try apply fits_nothing. apply fits_one. by apply H. Qed.
Lemma fits_box x y w h c inner : (0 < w → 0 < h → 0 ≤ x ∧ 0 ≤ y ∧ x + w ≤ R ∧ y + h ≤ SCREEN_H) → ok R (box x y w h c inner).
Proof. intros H. apply fits_seq; apply fits_fill; [done|]. intros Hw Hh. destruct H; lia. Qed.

Lemma bprintf_le n s : (length (bprintf n s) ≤ length s)%nat.
Proof. unfold bprintf. rewrite length_take. lia. Qed.
Lemma tw_le size s n : 0 ≤ CHAR_W size → (length s ≤ n)%nat → tw size s ≤ CHAR_W size * Z.of_nat n.
Proof. unfold tw. nia. Qed.
Lemma tw_pos size s : 0 ≤ CHAR_W size → 0 ≤ tw size s.
Proof. unfold tw. nia. Qed.

Lemma fits_text x y c size s : 0 ≤ x → 0 ≤ y < SCREEN_H → ok R (text x y c size s).
Proof. intros. by apply fits_one. Qed.
Lemma fits_text_r xr y c size s n : 0 ≤ CHAR_W size → (length s ≤ n)%nat → CHAR_W size * Z.of_nat n ≤ xr → 0 ≤ y < SCREEN_H →
  ok R (text_r xr y c size s).
Proof.
  intros Hs Hn Hx Hy. apply fits_one. split; [|done]. pose proof (bprintf_le 384 s).
  pose proof (tw_le size (bprintf 384 s) n Hs ltac:(lia)). lia.
Qed.
Lemma fits_text_c cx y c size s n : 0 ≤ CHAR_W size → (length s ≤ n)%nat → CHAR_W size * Z.of_nat n ≤ 2 * cx → 0 ≤ y < SCREEN_H →
  ok R (text_c cx y c size s).
Proof.
  intros Hs Hn Hx Hy. apply fits_one. split; [|done]. pose proof (bprintf_le 384 s).
  pose proof (tw_le size (bprintf 384 s) n Hs ltac:(lia)).
  pose proof (Z.quot_le_upper_bound (tw size (bprintf 384 s)) 2 cx ltac:(lia) ltac:(lia)). lia.
Qed.

(** ** Lines and triangles stay between their corners *)

(** A point between [a] and [b]. *)
Lemma lerp_between a b k n : 0 < n → 0 ≤ k ≤ n → Z.min a b ≤ a + Z.quot ((b - a) * k) n ≤ Z.max a b.
Proof.
  intros Hn Hk. destruct (Z_le_gt_dec a b).
  - assert (0 ≤ Z.quot ((b - a) * k) n ≤ b - a); [|lia]. split; [apply Z.quot_pos; nia|apply Z.quot_le_upper_bound; nia].
  - replace ((b - a) * k) with (- ((a - b) * k)) by ring. rewrite Z.quot_opp_l by lia.
    assert (0 ≤ Z.quot ((a - b) * k) n ≤ a - b); [|lia]. split; [apply Z.quot_pos; nia|apply Z.quot_le_upper_bound; nia].
Qed.

Lemma fits_thick x0 y0 x1 y1 c :
  0 ≤ x0 ∧ x0 + 3 ≤ R → 0 ≤ x1 ∧ x1 + 3 ≤ R → 0 ≤ y0 ∧ y0 + 3 ≤ SCREEN_H → 0 ≤ y1 ∧ y1 + 3 ≤ SCREEN_H →
  ok R (thick_line x0 y0 x1 y1 c).
Proof.
  intros. unfold thick_line. set (steps := if _ <? 1 then 1 else _).
  assert (0 < steps) by (unfold steps; case_match; lia). clearbody steps. apply fits_range. intros i Hi. apply fits_fill. intros _ _.
  pose proof (lerp_between x0 x1 i steps). pose proof (lerp_between y0 y1 i steps). lia.
Qed.

Definition corner (p : Z * Z) : Prop := 0 ≤ fst p ∧ fst p + 1 ≤ R ∧ 0 ≤ snd p ∧ snd p + 1 ≤ SCREEN_H.

Lemma fits_tri_rows p0 p1 p2 c : corner p0 → corner p1 → corner p2 → snd p0 ≤ snd p1 ≤ snd p2 → ok R (tri_rows p0 p1 p2 c).
Proof.
  destruct p0 as [x0 y0], p1 as [x1 y1], p2 as [x2 y2]. unfold corner. cbn [fst snd tri_rows]. intros H0 H1 H2 Hy.
  apply fits_cond; intros E; [apply fits_nothing|]. apply Z.eqb_neq in E. apply fits_range. intros y Hr. apply fits_fill. intros _ _.
  pose proof (lerp_between x0 x2 (y - y0) (y2 - y0) ltac:(lia) ltac:(lia)). 
  set (xa := x0 + Z.quot ((x2 - x0) * (y - y0)) (y2 - y0)) in *. clearbody xa.
  set (xb := if y <? y1 then _ else _). assert (0 ≤ xb ∧ xb + 1 ≤ R).
  2: { clearbody xb. destruct (Z.ltb_spec xb xa); lia. }
  unfold xb. destruct (Z.ltb_spec y y1); [pose proof (lerp_between x0 x1 (y - y0) (y1 - y0)); lia|].
  destruct (Z.eqb_spec y1 y2); [lia|]. pose proof (lerp_between x1 x2 (y - y1) (y2 - y1)). lia.
Qed.

Lemma fits_tri x0 y0 x1 y1 x2 y2 c : corner (x0, y0) → corner (x1, y1) → corner (x2, y2) → ok R (tri_fill x0 y0 x1 y1 x2 y2 c).
Proof.
  intros H0 H1 H2. unfold tri_fill, by_y. cbn [fst snd].
  repeat match goal with |- context [?a <? ?b] => destruct (Z.ltb_spec a b); cbn [fst snd] end; by apply fits_tri_rows; cbn [snd]; try lia.
Qed.

Lemma fits_glyph_tri x y c : 0 ≤ x ∧ x + 24 ≤ R → 0 ≤ y ∧ y + 24 ≤ SCREEN_H → ok R (glyph_tri x y c).
Proof. intros. apply fits_seq; apply fits_tri; unfold corner; cbn [fst snd]; lia. Qed.
Lemma fits_glyph_x x y c : 0 ≤ x ∧ x + 24 ≤ R → 0 ≤ y ∧ y + 24 ≤ SCREEN_H → ok R (glyph_x x y c).
Proof. intros. apply fits_seq; apply fits_thick; lia. Qed.
Lemma fits_glyph_circle x y c : 0 ≤ x ∧ x + 24 ≤ R → 0 ≤ y ∧ y + 24 ≤ SCREEN_H → ok R (glyph_circle x y c).
Proof. intros. eexists. split; [done|]. repeat constructor; cbn; lia. Qed.
Lemma fits_arrow x y up size c : 0 ≤ x ∧ x + 23 ≤ R → 0 ≤ y ∧ y + 28 ≤ SCREEN_H → ok R (arrow x y up size c).
Proof.
  intros. unfold arrow. repeat (apply fits_cond; intros _); (apply fits_seq; [|]);
    (apply fits_tri; unfold corner; cbn [fst snd]; lia) || (apply fits_fill; lia).
Qed.
Lemma fits_start x y : 0 ≤ x ∧ x + 74 ≤ R → 0 ≤ y ∧ y + 26 ≤ SCREEN_H → ok R (glyph_start x y (B "START")).
Proof.
  intros. unfold glyph_start. change (CHAR_W 16 * Z.of_nat (length (B "START")) + 24) with 74.
  apply fits_seq; [apply fits_box; lia|]. apply fits_one. cbn [within]. change (Z.quot _ 2) with 12. lia.
Qed.
End Ok.

(** ** The lengths of the texts *)

(** What is cut to a width of [m] characters. *)
Lemma truncate_len outsz s w size (m : nat) : Z.quot w (CHAR_W size) ≤ Z.of_nat m → (1 ≤ m)%nat → (length (truncate outsz s w size) ≤ m + 3)%nat.
Proof.
  intros Hm H1. unfold truncate. set (k := if _ <? 1 then 1 else _). assert (k ≤ Z.of_nat m) by (unfold k; case_match; lia). clearbody k.
  set (k' := if _ <? k then _ else _). assert (k' ≤ k) by (unfold k'; case_match eqn:E; [apply Z.ltb_lt in E|]; lia). clearbody k'.
  case_match eqn:E; [apply Z.leb_le in E; rewrite length_take; lia|].
  rewrite length_app, length_take. change (length Canvas.ELLIPSIS) with 3%nat. lia.
Qed.

Lemma result_text_len r : (length (Tui.result_text r) ≤ 7)%nat.
Proof. unfold Tui.result_text. repeat case_match; apply Nat.leb_le; reflexivity. Qed.

Lemma slab_count_len n cnt : Tui.slab_count n = Some cnt → (length cnt ≤ 7)%nat.
Proof. unfold Tui.slab_count. case_match; [done|]. intros [= <-]. apply (TuiSafe.bprintf_len 8). Qed.

Lemma showing_len ui : (length (Tui.showing_text ui) ≤ 23)%nat.
Proof. apply (TuiSafe.bprintf_len 24). Qed.

(** The text beside the bar: neither too long nor too short. *)
Lemma fmt_size_len n b : (length (opftp_ui_fmt_size n b) ≤ n - 1)%nat.
Proof. unfold opftp_ui_fmt_size. apply TuiSafe.bprintf_len. Qed.
Lemma fmt_size_pos b : (2 ≤ length (opftp_ui_fmt_size 24 b))%nat.
Proof.
  unfold opftp_ui_fmt_size. unfold bprintf. rewrite length_take.
  repeat case_match; rewrite length_app; match goal with |- context [length (B ?s)] => let v := eval vm_compute in (length (B s)) in change (length (B s)) with v end; lia.
Qed.
Lemma rate_len ui p : (length (Tui.rate_text ui p) ≤ 15)%nat.
Proof. apply TuiSafe.rate_text_ok. Qed.
Lemma meta_len ui c : (5 ≤ length (Tui.meta_text ui c) ≤ 68)%nat.
Proof.
  unfold Tui.meta_text. pose proof (fmt_size_len 24 (sc_xfer_bytes c)). pose proof (fmt_size_len 24 (sc_xfer_total c)).
  pose proof (fmt_size_pos (sc_xfer_bytes c)). pose proof (rate_len ui (sc_peer c)).
  unfold bprintf. case_match; rewrite length_take, ?length_app; change (length Tui.MIDDOT) with 2%nat;
    change (length (B " ")) with 1%nat; change (length (B " / ")) with 3%nat; lia.
Qed.

(** ** The drawings *)

(** Arithmetic on the layout: widths of fixed texts are computed. *)
Ltac px :=
  unfold help_y, ROWS_H, ROWS_TOP, TABLE_TOP, FILE_W, CWD_W, PX, PANEL_X, PANEL_Y, PANEL_W, PANEL_H in *;
  unfold SCREEN_H, W, SCREEN_W, MX, HDR_TEXT_TOP, HDR_BOTTOM, FTR_TOP, CARD_H, XFER_CARD_H, XFER_CARD_GAP, SLAB_H, CHIP_H,
    ER_ROW_H, ER_GAP, HIST_ROW_H, CLI_ROW_H, THEAD_H, SET_ROW_H, tw in *;
  repeat match goal with
  | |- context [CHAR_W ?s] => let v := eval vm_compute in (CHAR_W s) in change (CHAR_W s) with v
  | |- context [length (B ?s)] => let v := eval vm_compute in (length (B s)) in change (length (B s)) with v
  | |- context [Z.quot ?a ?b] => let v := eval vm_compute in (Z.quot a b) in lazymatch v with Z.quot _ _ => fail | Z0 => idtac | Zpos _ => idtac | Zneg _ => idtac end; change (Z.quot a b) with v
  end; try lia.

#[export] Hint Resolve TuiSafe.bprintf_len result_text_len slab_count_len showing_len fmt_size_len rate_len TuiSafe.pct_len TuiSafe.view_name_len : osd.

Ltac slen :=
  lazymatch goal with
  | |- (length (truncate _ _ ?w ?s) ≤ _)%nat =>
     let v := eval vm_compute in (Z.to_nat (Z.quot w (CHAR_W s))) in apply (truncate_len _ _ _ _ v); [by vm_compute|apply Nat.leb_le; reflexivity]
  | |- (length (B _) ≤ _)%nat => apply Nat.le_refl
  | |- _ => solve [eauto 2 with osd nocore]
  end.
Ltac od1 :=
  lazymatch goal with
  | |- ok _ nothing => apply fits_nothing
  | |- ok _ (seq_draw _ _) => apply fits_seq
  | |- ok _ (if _ then _ else _) => apply fits_cond; intros ?
  | |- ok _ (text _ _ _ _ _) => apply fits_text; px
  | |- ok _ (fill _ _ _ _ _) => apply fits_fill; intros; px
  | |- ok _ (hline _ _ _ _) => apply fits_fill; intros; px
  | |- ok _ (vline _ _ _ _) => apply fits_fill; intros; px
  | |- ok _ (box _ _ _ _ _ _) => apply fits_box; intros; px
  | |- ok _ (text_r _ _ _ _ _) => eapply fits_text_r; [by vm_compute|slen|px|px]
  | |- ok _ (text_c _ _ _ _ _) => eapply fits_text_c; [by vm_compute|slen|px|px]
  | |- ok _ (glyph_tri _ _ _) => apply fits_glyph_tri; px
  | |- ok _ (glyph_x _ _ _) => apply fits_glyph_x; px
  | |- ok _ (glyph_circle _ _ _) => apply fits_glyph_circle; px
  | |- ok _ (glyph_start _ _ _) => apply fits_start; px
  | |- ok _ (arrow _ _ _ _ _) => apply fits_arrow; px
  end.
Ltac od := repeat od1.

Section Draw.
Context (R : Z) (HR : SCREEN_W ≤ R).
Context (now_us : Tui.site → Z) (clock_us : Z).

Abbreviation ok := (ok R).

Lemma fits_slab y label cnt b rtext :
  0 ≤ y ≤ 600 → (length label ≤ 20)%nat → from_option (λ s, (length s ≤ 7)%nat) True cnt →
  from_option (λ s, (length s ≤ 23)%nat) True rtext → ok (slab y label cnt b rtext).
Proof.
  intros Hy Hl Hc Hr. unfold slab. od.
  - destruct cnt as [cnt|]; [|apply fits_nothing]. cbn in Hc. set (w := tw 20 cnt + 24).
    assert (24 ≤ w ≤ 115) by (unfold w; px). clearbody w. pose proof (Z.quot_pos w 2). od.
  - destruct rtext as [s|]; [|apply fits_nothing]. cbn in Hr. od.
Qed.

Lemma fits_tabs views view : ∀ x, 236 * Z.of_nat (length views) ≤ x ≤ SCREEN_W → ok (draw_tabs views view x).
Proof.
  induction views as [|i views IH]; intros x Hx; cbn [draw_tabs]; [apply fits_nothing|].
  pose proof (TuiSafe.view_name_len i). set (n := opftp_ui_view_name i) in *. clearbody n. set (w := tw 23 n + 28).
  assert (28 ≤ w ≤ 163) by (unfold w; px). clearbody w. cbn [length] in Hx. pose proof (Z.quot_pos w 2).
  apply fits_seq; [|apply IH; lia]. od.
Qed.

Lemma clock_len h m : (length (Tui.hh_mm h m) ≤ 7)%nat.
Proof. apply (TuiSafe.bprintf_len 8). Qed.

Lemma fits_header view version : (length version ≤ 40)%nat → ok (draw_header clock_us view version).
Proof.
  intros Hv. unfold draw_header. pose proof (clock_len ((clock_us / 1000000 / 3600) mod 24) ((clock_us / 1000000 / 60) mod 60)) as Hc.
  set (clock := Tui.hh_mm _ _) in *. clearbody clock. set (bw := tw 20 version + 24). assert (24 ≤ bw ≤ 544) by (unfold bw; px).
  clearbody bw. pose proof (Z.quot_pos bw 2). cbn zeta. od. apply fits_tabs. change (length TABS) with 4%nat. px.
Qed.

Lemma fits_footer view : ok (draw_footer view).
Proof.
  unfold draw_footer. cbn zeta. pose proof (TuiSafe.view_name_len view). set (name := opftp_ui_view_name view) in *. clearbody name.
  set (right := bprintf 40 _). assert (length right ≤ 39)%nat by apply (TuiSafe.bprintf_len 40). clearbody right. od.
Qed.

(** ** The status view *)

Lemma event_rows_range ui : rings_ok ui → 0 ≤ Tui.event_rows ui ≤ 2 ∧ Tui.event_rows ui ≤ u_ev_count ui.
Proof. intros [[_ _ Hc] _]. unfold Tui.event_rows. case_match eqn:E; [apply Z.ltb_lt in E|apply Z.ltb_ge in E]; lia. Qed.

Lemma strip_height_range ui : rings_ok ui → strip_height ui = 0 ∨ strip_height ui = 56 ∨ strip_height ui = 108.
Proof.
  intros Hr. destruct (event_rows_range ui Hr). unfold strip_height. assert (Tui.event_rows ui = 0 ∨ Tui.event_rows ui = 1 ∨ Tui.event_rows ui = 2) as [-> | [-> | ->]] by lia; auto.
Qed.

Lemma ring_some {A} cap (arr : list A) head count i : ring_ok cap arr head count → 0 ≤ i < count →
  ∃ x, Tui.ring_at arr head i cap = Some x.
Proof. intros Hr Hi. destruct (TuiSafe.ring_at_in (λ _, True) cap arr head count i Hr) as (x & E & _); [by apply Forall_true|done|by exists x]. Qed.

Lemma fits_strip ui y : rings_ok ui → 0 ≤ y ≤ 400 → ok (draw_event_strip ui y).
Proof.
  intros Hr Hy. destruct (event_rows_range ui Hr). apply fits_range. intros i Hi. unfold draw_event.
  destruct (ring_some _ (u_events ui) (u_ev_head ui) (u_ev_count ui) i (proj1 Hr) ltac:(lia)) as (e & E). eapply fits_value; [exact E|].
  assert (0 ≤ i ≤ 1) by lia. assert (0 ≤ u_ev_count ui ≤ 4) by (destruct Hr as [[_ _ ?] _]; unfold OPFTP_UI_MAX_EVENTS in *; lia).
  assert (length (bprintf 24 (fmt_d (u_ev_count ui) ++ B " RECENT")) ≤ 23)%nat by apply (TuiSafe.bprintf_len 24).
  set (b := bprintf 24 _) in *. clearbody b. set (bw := tw 20 b + 24). assert (24 ≤ bw ≤ 323) by (unfold bw; px). clearbody bw.
  pose proof (Z.quot_le_upper_bound bw 2 200). cbn zeta. od.
Qed.

Lemma fits_status_card g m y : 0 ≤ y ≤ 400 → ok (draw_status_card now_us g m y).
Proof.
  intros Hy. unfold draw_status_card. cbn zeta.
  assert (∀ n s, (length (bprintf n s) ≤ n - 1)%nat) as Hb by (intros; apply TuiSafe.bprintf_len).
  set (portb := bprintf 8 _). assert (length portb ≤ 7)%nat by apply Hb. clearbody portb.
  set (workers := bprintf 8 _). assert (length workers ≤ 7)%nat by apply Hb. clearbody workers.
  set (base := bprintf 96 _). assert (length base ≤ 95)%nat by apply Hb. clearbody base.
  set (rootb := bprintf 40 _). set (addr := bprintf 16 _). clearbody rootb addr. clear Hb. cbn [draw_stats]. od.
Qed.

Lemma fits_bar x y w b total up : 0 ≤ x → 4 ≤ w → x + w ≤ SCREEN_W → 0 ≤ y ≤ 690 → ok (progress_bar x y w b total up).
Proof.
  intros Hx Hw Hr Hy. unfold progress_bar. cbn zeta. set (pct := if 100 <? _ then 100 else _).
  assert (pct ≤ 100) by (unfold pct; case_match eqn:E; [|apply Z.ltb_ge in E]; lia). clearbody pct. od.
  - apply Z.ltb_lt in H0. pose proof (Z.quot_le_upper_bound ((w - 4) * pct) 100 (w - 4) ltac:(lia) ltac:(nia)). lia.
  - apply fits_range. intros i Hi. apply fits_fill. intros _ _. px.
    pose proof (Z.quot_pos ((w - 4) * i) 4 ltac:(nia) ltac:(lia)).
    pose proof (Z.quot_le_upper_bound ((w - 4) * i) 4 (w - 4) ltac:(lia) ltac:(nia)). lia.
Qed.

Definition op_fits (c : opftp_snapshot_client) : Prop := (length (sc_xfer_op c) < 8)%nat.

Lemma fits_card ui y c f : op_fits c → 0 ≤ y ≤ 600 → ok (draw_xfer_card ui y c f).
Proof.
  unfold op_fits. intros Hc Hy. unfold draw_xfer_card. cbn zeta. destruct (meta_len ui c). set (meta := Tui.meta_text ui c) in *. clearbody meta.
  pose proof (TuiSafe.pct_len (sc_xfer_bytes c) (sc_xfer_total c)). set (pctb := Tui.pct_text _ _) in *. clearbody pctb. od.
  apply fits_bar; px.
Qed.

Lemma fits_cards ui l y nfit : ∀ shown, Forall op_fits l → 0 ≤ y → 0 ≤ shown ≤ nfit → y + nfit * 100 ≤ 700 →
  ok (fst (draw_cards ui l y shown nfit)) ∧ shown ≤ snd (draw_cards ui l y shown nfit) ≤ nfit.
Proof.
  induction l as [|c l IH]; intros shown Hl Hy Hs Hn; cbn [draw_cards]; [split; [apply fits_nothing|cbn [fst snd]; lia]|].
  inversion_clear Hl. destruct (Z.ltb_spec shown nfit); cbn [negb]; [|split; [apply fits_nothing|cbn [fst snd]; lia]].
  destruct (sc_xfer_active c); cbn [negb]; [|by apply IH].
  destruct (IH (shown + 1)) as [Hd Hk]; [done|done|lia|done|]. destruct (draw_cards ui l y (shown + 1) nfit) as [d k]. cbn [fst snd] in *.
  split; [|lia]. apply fits_seq; [|done]. apply fits_card; [done|]. px.
Qed.

(** A chip is drawn only where it fits; the next one starts inside the margin. *)
Lemma fits_chips ui l y : 0 ≤ y ≤ 660 → ∀ i x drawn, 0 ≤ x ≤ MX + W →
  ok (fst (fst (draw_chips now_us ui l i y x drawn))) ∧ 0 ≤ snd (fst (draw_chips now_us ui l i y x drawn)) ≤ MX + W.
Proof.
  intros Hy. induction l as [|c l IH]; intros i x drawn Hx; cbn [draw_chips]; [split; [apply fits_nothing|cbn [fst snd]; lia]|].
  destruct (drawn <? 4); cbn [negb]; [|split; [apply fits_nothing|cbn [fst snd]; lia]].
  set (peerb := truncate _ _ _ _). set (chipt := Tui.chip_text _ _ _ _). clearbody peerb chipt.
  set (cw := tw 25 peerb + 12 + tw 21 chipt + 32 + 4). assert (48 ≤ cw) by (unfold cw; px). assert (0 ≤ tw 25 peerb) by px.
  clearbody cw. destruct (Z.ltb_spec (MX + W) (x + cw + 12)); [split; [apply fits_nothing|cbn [fst snd]; lia]|].
  destruct (IH (i + 1) (x + (cw + 12)) (drawn + 1)) as [Hd Hx']; [lia|].
  destruct (draw_chips now_us ui l (i + 1) y _ _) as [[d x'] k]. cbn [fst snd] in *. split; [|done]. od. done.
Qed.

(** Where the chips end does not depend on their row. *)
Lemma chips_row ui l y y' : ∀ i x drawn,
  snd (fst (draw_chips now_us ui l i y x drawn)) = snd (fst (draw_chips now_us ui l i y' x drawn)) ∧
  snd (draw_chips now_us ui l i y x drawn) = snd (draw_chips now_us ui l i y' x drawn).
Proof.
  induction l as [|c l IH]; intros i x drawn; cbn [draw_chips]; [done|]. repeat case_match; cbn [fst snd] in *; try done; simplify_eq.
  match goal with H1 : draw_chips _ _ _ _ y ?x' ?d = _, H2 : draw_chips _ _ _ _ y' _ _ = _ |- _ =>
    specialize (IH (i + 1) x' d); rewrite H1, H2 in IH; done end.
Qed.

(** The right edge of the counting chip, 0 when there is none. *)
Definition more_right (ui : opftp_ui) : Z :=
  let '(_, x, drawn) := draw_chips now_us ui (snap_list (u_snap ui)) 0 0 MX 0 in
  let n := sn_num_clients (u_snap ui) in
  if drawn <? n then x + (tw 21 (more_text (n - drawn)) + 32 + 4) else 0.

Lemma more_text_len n : (length (more_text n) ≤ 15)%nat.
Proof. apply (TuiSafe.bprintf_len 16). Qed.

Lemma fits_connected ui y : 0 ≤ y ≤ 600 → more_right ui ≤ R → ok (draw_connected now_us ui y).
Proof.
  intros Hy Hm. unfold more_right in Hm. unfold draw_connected.
  destruct (fits_chips ui (snap_list (u_snap ui)) (y + (SLAB_H + 12)) ltac:(px) 0 MX 0 ltac:(px)) as [Hd Hx].
  destruct (chips_row ui (snap_list (u_snap ui)) (y + (SLAB_H + 12)) 0 0 MX 0) as [E1 E2].
  destruct (draw_chips _ _ _ _ (y + (SLAB_H + 12)) _ _) as [[d x] drawn]. destruct (draw_chips _ _ _ _ 0 _ _) as [[d' x'] drawn'].
  cbn [fst snd] in *. subst x' drawn'. apply fits_seq; [|apply fits_seq; [done|]].
  - apply fits_slab; [lia|apply Nat.leb_le; reflexivity| |done]. destruct (Tui.slab_count _) eqn:E; [|done]. by eapply slab_count_len.
  - apply fits_cond; intros E; [|apply fits_nothing]. rewrite E in Hm. unfold draw_more. cbn zeta.
    pose proof (more_text_len (sn_num_clients (u_snap ui) - drawn)). set (more := more_text _) in *. clearbody more.
    set (cw := tw 21 more + 32 + 4) in *. assert (36 ≤ cw) by (unfold cw; px). assert (13 * Z.of_nat (length more) + 36 = cw) by (unfold cw; px).
    clearbody cw. pose proof (Z.quot_le_lower_bound cw 2). apply fits_seq; [apply fits_box; intros; px|]. eapply fits_text_c; [by vm_compute|apply Nat.le_refl|px|px].
    pose proof (Z.quot_rem' cw 2). pose proof (Z.rem_bound_pos cw 2). lia.
Qed.

Record snap_fits (s : opftp_snapshot) : Prop := mk_snap_fits {
  sf_num : sn_num_clients s = Z.of_nat (length (sn_clients s));
  sf_ops : Forall op_fits (sn_clients s)
}.

Lemma fits_slab_count y label n : 0 ≤ y ≤ 600 → (length label ≤ 20)%nat → ok (slab y label (Tui.slab_count n) false None).
Proof. intros Hy Hl. apply fits_slab; [lia|done| |done]. destruct (Tui.slab_count n) eqn:E; [|done]. by eapply slab_count_len. Qed.

Lemma fits_status g m : rings_ok (Tui.g_ui g) → snap_fits (u_snap (Tui.g_ui g)) → more_right (Tui.g_ui g) ≤ R → ok (draw_status now_us g m).
Proof.
  intros Hr [_ Ho] Hm. unfold draw_status. set (ui := Tui.g_ui g) in *. cbn zeta.
  assert (Forall op_fits (snap_list (u_snap ui))) as Hl by by apply Forall_take.
  assert (strip_height ui = 0 ∨ strip_height ui = 56 ∨ strip_height ui = 108) as Hs by by apply strip_height_range.
  set (y1 := HDR_BOTTOM + 12 + strip_height ui). set (y3 := y1 + (CARD_H + 12) + (SLAB_H + 12)).
  set (nfit := Z.quot _ _). assert (0 ≤ y3 ≤ 420 ∧ 0 ≤ nfit ∧ y3 + nfit * 100 ≤ 550) as (Hy3 & Hn & Hf).
  { unfold nfit, y3, y1. destruct Hs as [-> | [-> | ->]]; by vm_compute. }
  assert (96 ≤ y1 ≤ 204) by (unfold y1; px). assert (y3 = y1 + 198) by (unfold y3; px). clearbody nfit y3 y1.
  destruct (fits_cards ui (snap_list (u_snap ui)) y3 nfit 0 Hl ltac:(lia) ltac:(lia) ltac:(lia)) as [Hd Hk].
  destruct (draw_cards _ _ _ _ _) as [cards shown]. cbn [fst snd] in *. apply fits_seq; [by apply fits_strip; [|px]|].
  apply fits_seq; [by apply fits_status_card; lia|]. apply fits_seq; [apply fits_slab_count; [px|apply Nat.leb_le; reflexivity]|].
  apply fits_seq; [done|]. apply fits_cond; intros _.
  - pose proof (Z.quot_pos (FTR_TOP - 12 - CHIP_H - 12 - SLAB_H - 12 - y3) 2 ltac:(px) ltac:(lia)).
    pose proof (Z.quot_le_upper_bound (FTR_TOP - 12 - CHIP_H - 12 - SLAB_H - 12 - y3) 2 200 ltac:(lia) ltac:(px)).
    set (q := Z.quot _ 2) in *. clearbody q. apply fits_seq; [od|]. apply fits_connected; [px|done].
  - apply fits_connected; [|done]. case_match; px.
Qed.

(** ** Tables *)

Lemma fits_heads y cols : 0 ≤ y < SCREEN_H → ∀ x, 100 ≤ x → Forall (λ c, 0 ≤ col_w c ∧ (col_right c = true → (length (col_label c) ≤ 7)%nat)) cols →
  ok (table_heads y x cols).
Proof.
  intros Hy. induction cols as [|c cols IH]; intros x Hx Hc; cbn [table_heads]; [apply fits_nothing|]. inversion_clear Hc as [|? ? [Hw Hl]].
  apply fits_seq; [|apply IH; [lia|done]]. apply fits_cond; intros E; [specialize (Hl E)|]; od.
Qed.

Lemma fits_scrollbar scroll visible total : 0 ≤ scroll → scroll ≤ Z.max 0 (total - visible) →
  ok (draw_scrollbar ROWS_TOP ROWS_H scroll visible total).
Proof.
  intros Hs Ht. unfold draw_scrollbar. cbn zeta. od. apply Z.leb_gt in H.
  pose proof (lerp_between 0 319 scroll (total - visible) ltac:(lia) ltac:(lia)) as Hq.
  change (652 - 12 - (84 + 12 + 30 + 12 + 34) - 149) with 319. change (319 - 0) with 319 in Hq. lia.
Qed.

Lemma rows_visible_eq h : h = HIST_ROW_H ∨ h = CLI_ROW_H → 1 ≤ rows_visible h ∧ rows_visible h * h ≤ ROWS_H ∧ 0 ≤ h.
Proof. intros [-> | ->]; by vm_compute. Qed.

Lemma fits_backgrounds h scroll sel total : h = HIST_ROW_H ∨ h = CLI_ROW_H → ok (row_backgrounds h scroll sel total).
Proof.
  intros Hh. destruct (rows_visible_eq h Hh) as (H1 & H2 & H3). apply fits_range. intros i Hi.
  assert (0 ≤ i * h ∧ i * h + h ≤ ROWS_H) by nia. assert (h = 56 ∨ h = 64) by (destruct Hh; by subst; auto). cbn zeta. od.
Qed.


Lemma fits_hist_row ui idx ry : rings_ok ui → 0 ≤ idx < u_hist_count ui → 0 ≤ ry ≤ 600 → ok (draw_hist_row ui idx ry).
Proof.
  intros Hr Hi Hy. unfold draw_hist_row.
  destruct (ring_some _ (u_hist ui) (u_hist_head ui) (u_hist_count ui) idx (proj2 Hr) Hi) as (h & E). eapply fits_value; [exact E|].
  cbn zeta. pose proof (result_text_len (hi_result h)). set (rs := Tui.result_text _) in *. clearbody rs.
  set (bw := tw 20 rs + 24). assert (24 ≤ bw ≤ 115) by (unfold bw; px). clearbody bw.
  pose proof (Z.quot_pos (118 - bw) 2 ltac:(lia) ltac:(lia)). pose proof (Z.quot_le_upper_bound (118 - bw) 2 (118 - bw) ltac:(lia) ltac:(lia)).
  set (q := Z.quot (118 - bw) 2) in *. clearbody q. od.
Qed.

Lemma row_place h (i m : Z) : h = HIST_ROW_H ∨ h = CLI_ROW_H → 0 ≤ i ≤ Z.min (rows_visible h) m - 1 → 0 ≤ ROWS_TOP + i * h ≤ 600.
Proof. intros Hh Hi. destruct (rows_visible_eq h Hh) as (H1 & H2 & H3). assert (0 ≤ i * h ∧ i * h + h ≤ ROWS_H) by nia. destruct Hh; subst; px. Qed.

Lemma fits_table cols : match cols with [] => True | c :: cols' => 48 ≤ col_w c ∧
  Forall (λ c, 0 ≤ col_w c ∧ (col_right c = true → (length (col_label c) ≤ 7)%nat)) cols' end → ok (table_begin cols).
Proof. intros Hc. unfold table_begin. destruct cols as [|c cols]; [od|]. destruct Hc. od. apply fits_heads; [px|px|done]. Qed.

Lemma fits_transfers ui : rings_ok ui → ok (fst (draw_transfers ui)).
Proof.
  intros Hr. unfold draw_transfers. cbn zeta. cbn [fst].
  pose proof (TuiSafe.clamp_scroll_range (u_sel_hist ui) (u_scroll_hist ui) (rows_visible HIST_ROW_H) (u_hist_count ui)) as Hs.
  fold (hist_scroll ui) in Hs. set (ui' := ui <| u_scroll_hist := _ |>). change (u_scroll_hist ui') with (hist_scroll ui).
  apply fits_seq; [|apply fits_seq; [|apply fits_seq; [|apply fits_seq]]].
  - apply fits_slab; [px|apply Nat.leb_le; reflexivity| |].
    + destruct (Tui.slab_count _) eqn:E; [|done]. by eapply slab_count_len.
    + case_match; [done|]. cbn. case_match; [apply showing_len|cbn; lia].
  - apply fits_table. cbn. split; [lia|]. repeat constructor; cbn; intros; lia.
  - apply fits_backgrounds. by left.
  - apply fits_range. intros i Hi. apply fits_hist_row; [done|change (u_hist_count ui') with (u_hist_count ui); lia|].
    eapply row_place; [by left|exact Hi].
  - apply fits_scrollbar; lia.
Qed.

Lemma client_some s i : snap_fits s → 0 ≤ i < sn_num_clients s → ∃ c, sn_clients s !! Z.to_nat i = Some c.
Proof. intros [Hn _] Hi. apply lookup_lt_is_Some_2. lia. Qed.

Lemma fmt_idle_len n b : (length (opftp_ui_fmt_idle n b) ≤ n - 1)%nat.
Proof. unfold opftp_ui_fmt_idle. apply TuiSafe.bprintf_len. Qed.

Lemma fits_client_row ui ci ry : snap_fits (u_snap ui) → 0 ≤ ci < sn_num_clients (u_snap ui) → 0 ≤ ry ≤ 600 → ok (draw_client_row now_us ui ci ry).
Proof.
  intros Hs Hi Hy. unfold draw_client_row. destruct (client_some _ _ Hs Hi) as (c & E). eapply fits_value; [exact E|]. cbn zeta.
  set (idle := opftp_ui_fmt_idle _ _). assert (length idle ≤ 7)%nat by apply (fmt_idle_len 8). clearbody idle. od.
Qed.

Lemma fits_clients ui : snap_fits (u_snap ui) → ok (fst (draw_clients now_us ui)).
Proof.
  intros Hf. unfold draw_clients. cbn zeta. cbn [fst].
  pose proof (TuiSafe.clamp_scroll_range (u_sel_cli ui) (u_scroll_cli ui) (rows_visible CLI_ROW_H) (sn_num_clients (u_snap ui))) as Hs.
  fold (cli_scroll ui) in Hs. set (ui' := ui <| u_scroll_cli := _ |>). change (u_scroll_cli ui') with (cli_scroll ui).
  apply fits_seq; [|apply fits_seq; [|apply fits_seq; [|apply fits_seq; [|apply fits_seq]]]].
  - apply fits_slab; [px|apply Nat.leb_le; reflexivity| |apply (TuiSafe.bprintf_len 24)].
    destruct (Tui.slab_count _) eqn:E; [|done]. by eapply slab_count_len.
  - apply fits_table. cbn. split; [lia|]. repeat constructor; cbn; intros; lia || done.
  - apply fits_backgrounds. by right.
  - apply fits_range. intros i Hi. apply fits_client_row; [done|change (u_snap ui') with (u_snap ui); lia|].
    eapply row_place; [by right|exact Hi].
  - apply fits_scrollbar; lia.
  - od.
Qed.

(** ** Settings and overlays *)

Lemma fits_setting ui y i key val : 0 ≤ y ≤ 400 → 0 ≤ i ≤ 4 → (length val ≤ 23)%nat → ok (draw_setting ui y i key val).
Proof.
  intros Hy Hi Hv. unfold draw_setting. cbn zeta. apply fits_seq; [od|]. apply fits_seq; [|od]. apply fits_cond; intros _.
  - od.
  - set (bw := tw 22 val + 32). assert (32 ≤ bw ≤ 354) by (unfold bw; px). clearbody bw.
    pose proof (Z.quot_le_upper_bound bw 2 bw ltac:(lia) ltac:(lia)). od.
Qed.

Lemma fits_settings ui : rings_ok ui → ok (draw_settings ui).
Proof.
  intros Hr. unfold draw_settings. cbn zeta. assert (0 ≤ strip_height ui ≤ 108) by (destruct (strip_height_range ui Hr) as [-> | [-> | ->]]; lia).
  apply fits_seq; [by apply fits_strip; [|px]|]. apply fits_seq; [apply fits_slab; [px|apply Nat.leb_le; reflexivity|done|done]|]. apply fits_seq; [od|].
  repeat (apply fits_seq; [apply fits_setting; [px|lia|first [apply (TuiSafe.bprintf_len 24)|apply Nat.leb_le; reflexivity]]|]). od.
Qed.

Lemma fits_path_lines n : ∀ y s, 0 ≤ y → y + 32 * Z.of_nat n < SCREEN_H → ok (path_lines n y s).
Proof.
  induction n as [|n IH]; intros y s Hy Hn; destruct s as [|c s]; cbn [path_lines]; try apply fits_nothing; [od|].
  apply fits_seq; [od|]. apply IH; lia.
Qed.

Lemma fits_close : ok close_hint.
Proof. unfold close_hint. eapply fits_text_r; [by vm_compute|apply Nat.le_refl|by vm_compute|px]. Qed.

Lemma fits_panel : ok overlay_panel.
Proof. unfold overlay_panel. od. Qed.

Lemma fits_detail_hist ui : rings_ok ui → ok (draw_detail_hist ui).
Proof.
  intros Hr. unfold draw_detail_hist. apply fits_cond; intros Hi; [apply fits_nothing|]. apply orb_false_iff in Hi as [H1%Z.ltb_ge H2%Z.leb_gt].
  destruct (ring_some _ (u_hist ui) (u_hist_head ui) (u_hist_count ui) (u_detail_idx ui) (proj2 Hr) ltac:(lia)) as (h & E). eapply fits_value; [exact E|].
  cbn zeta. set (sz := opftp_ui_fmt_size 16 (hi_bytes h)). assert (length (B "of " ++ opftp_ui_fmt_size 16 (hi_total h)) ≤ 18)%nat.
  { pose proof (fmt_size_len 16 (hi_total h)). rewrite length_app. change (length (B "of ")) with 3%nat. lia. }
  repeat first [apply fits_panel|apply fits_close|apply fits_path_lines; px|od1].
Qed.

Lemma fits_detail_xfer ui : snap_fits (u_snap ui) → ok (draw_detail_xfer ui).
Proof.
  intros Hs. unfold draw_detail_xfer. apply fits_cond; intros Hi; [apply fits_nothing|]. apply orb_false_iff in Hi as [H1%Z.ltb_ge H2%Z.leb_gt].
  destruct (client_some _ _ Hs (conj H1 H2)) as (c & E). eapply fits_value; [exact E|]. apply fits_cond; intros _; [apply fits_nothing|]. cbn zeta.
  set (rate := opftp_ui_fmt_rate 16 _). assert (length rate ≤ 15)%nat by apply (TuiSafe.bprintf_len 16). clearbody rate.
  pose proof (fmt_size_len 24 (sc_xfer_bytes c)). pose proof (fmt_size_len 24 (sc_xfer_total c)).
  set (sz := opftp_ui_fmt_size 24 (sc_xfer_bytes c)) in *. set (tot := opftp_ui_fmt_size 24 (sc_xfer_total c)) in *. clearbody sz tot.
  assert (length (sz ++ B " " ++ Tui.MIDDOT ++ B " " ++ rate) ≤ 68)%nat.
  { rewrite !length_app. change (length Tui.MIDDOT) with 2%nat. change (length (B " ")) with 1%nat. lia. }
  assert (length (sz ++ B " of " ++ tot ++ B " " ++ Tui.MIDDOT ++ B " " ++ rate) ≤ 72)%nat.
  { rewrite !length_app. change (length Tui.MIDDOT) with 2%nat. change (length (B " ")) with 1%nat. change (length (B " of ")) with 4%nat. lia. }
  repeat first [apply fits_panel|apply fits_close|apply fits_path_lines; px|od1].
Qed.

Lemma fits_detail_client ui : snap_fits (u_snap ui) → ok (draw_detail_client ui).
Proof.
  intros Hs. unfold draw_detail_client. apply fits_cond; intros Hi; [apply fits_nothing|]. apply orb_false_iff in Hi as [H1%Z.ltb_ge H2%Z.leb_gt].
  destruct (client_some _ _ Hs (conj H1 H2)) as (c & E). eapply fits_value; [exact E|].
  repeat first [apply fits_panel|apply fits_close|apply fits_path_lines; px|od1].
Qed.

Lemma fits_help : ok draw_help.
Proof. unfold draw_help, help_row, glyph_select. cbv beta. repeat first [apply fits_panel|od1]. Qed.

Lemma fits_overlay ui : rings_ok ui → snap_fits (u_snap ui) → ok (draw_detail_or_help ui).
Proof.
  intros Hr Hs. unfold draw_detail_or_help. repeat case_match;
    [by apply fits_detail_hist|by apply fits_detail_xfer|by apply fits_detail_client|apply fits_help|apply fits_nothing].
Qed.

(** ** The frame *)

(** What a frame needs of the model. *)
Record drawable (g : Tui.tui) : Prop := mk_drawable {
  dr_rings : rings_ok (Tui.g_ui g);
  dr_snap : snap_fits (u_snap (Tui.g_ui g));
  dr_version : (length (Tui.g_version g) ≤ 40)%nat
}.

Lemma fits_render g m : drawable g → (u_view (Tui.g_ui g) = OPFTP_UI_V_STATUS → more_right (Tui.g_ui g) ≤ R) →
  ok (fst (render now_us clock_us g m)) ∧ rings_ok (snd (render now_us clock_us g m)) ∧
  u_snap (snd (render now_us clock_us g m)) = u_snap (Tui.g_ui g).
Proof.
  intros [Hr Hs Hv] Hm. unfold render.
  assert (ok (fst (draw_view now_us g m)) ∧ rings_ok (snd (draw_view now_us g m)) ∧ u_snap (snd (draw_view now_us g m)) = u_snap (Tui.g_ui g)) as (Hd & Hr' & Hs').
  { unfold draw_view. destruct (Z.eqb_spec (u_view (Tui.g_ui g)) OPFTP_UI_V_STATUS) as [E|]; [split; [by apply fits_status; [| |apply Hm]|done]|].
    repeat case_match; (split; [|done]); [by apply fits_transfers|by apply fits_clients|by apply fits_settings|apply fits_nothing]. }
  destruct (draw_view now_us g m) as [d ui]. cbn [fst snd] in *. split; [|done].
  apply fits_seq; [by apply fits_header|]. apply fits_seq; [done|]. apply fits_seq; [apply fits_footer|]. apply fits_overlay; [done|by rewrite Hs'].
Qed.
End Draw.

(** ** What the rounds keep *)

(** The rings stay well formed, the snapshot as it is. *)
Definition keeps (ui ui' : opftp_ui) : Prop := (rings_ok ui → rings_ok ui') ∧ u_snap ui' = u_snap ui.

#[export] Instance keeps_preorder : PreOrder keeps.
Proof. split; [by intros ui|]. intros a b c [H1 E1] [H2 E2]. split; [auto|]. by rewrite E2. Qed.

Lemma keeps_event text warn now ui : keeps ui (ev_push text warn now ui).
Proof. split; [|done]. intros [H1 H2]. split; [by apply ring_push_ok|done]. Qed.
Lemma keeps_hist op path b total r now ui : keeps ui (hist_push op path b total r now ui).
Proof. split; [|done]. intros [H1 H2]. split; [done|by apply ring_push_ok]. Qed.
Lemma keeps_trk L ui : keeps ui (ui <| u_trk := L |>).
Proof. done. Qed.

Lemma keeps_poll_client now ui c : keeps ui (poll_client now ui c).
Proof.
  unfold poll_client. destruct (trk_find _ _) as [[i t]|]; [|done]. cbn zeta. set (ui1 := if negb (t_present t) then _ else ui).
  assert (keeps ui ui1) as H1 by (unfold ui1; case_match; [apply keeps_event|done]). clearbody ui1.
  repeat case_match; simplify_eq; (etrans; [exact H1|]); try apply keeps_trk; (etrans; [apply keeps_hist|apply keeps_trk]).
Qed.
Lemma keeps_poll_gone now ui i : keeps ui (poll_gone now ui i).
Proof.
  unfold poll_gone. destruct (u_trk ui !! i) as [t|]; [|done]. case_match; [done|]. cbn zeta. etrans; [apply keeps_event|].
  case_match; [etrans; [apply keeps_hist|apply keeps_trk]|apply keeps_trk].
Qed.
Lemma keeps_foldl {A} (f : opftp_ui → A → opftp_ui) l : (∀ ui x, keeps ui (f ui x)) → ∀ ui, keeps ui (foldl f ui l).
Proof. intros H. induction l as [|x l IH]; intros ui; [done|]. etrans; [apply H|apply IH]. Qed.
Lemma keeps_poll now ui : keeps ui (opftp_ui_poll now ui).
Proof.
  unfold opftp_ui_poll. cbn zeta. etrans; [apply (keeps_trk ((λ t, t <| t_seen := false |>) <$> u_trk ui))|].
  etrans; [eapply keeps_foldl; intros; apply keeps_poll_client|eapply keeps_foldl; intros; apply keeps_poll_gone].
Qed.

Lemma keeps_set_sel z ui : keeps ui (set_sel z ui).
Proof. unfold set_sel. by repeat case_match. Qed.
Lemma keeps_sel_move d ui : keeps ui (opftp_ui_sel_move d ui).
Proof. unfold opftp_ui_sel_move. repeat case_match; done || apply keeps_set_sel. Qed.
Lemma keeps_open_detail ui : keeps ui (opftp_ui_open_detail ui).
Proof. unfold opftp_ui_open_detail. by repeat case_match. Qed.
Lemma keeps_help_toggle ui : keeps ui (Tui.help_toggle ui).
Proof. unfold Tui.help_toggle. by repeat case_match. Qed.
Lemma keeps_edit_begin f s ui : keeps ui (opftp_ui_edit_begin f s ui).
Proof. unfold opftp_ui_edit_begin. by repeat case_match. Qed.
Lemma keeps_type ui c : keeps ui (OsdRun.osk_type ui c).
Proof. unfold OsdRun.osk_type, opftp_ui_edit_type. by repeat case_match. Qed.
#[export] Hint Resolve keeps_set_sel keeps_sel_move keeps_open_detail keeps_help_toggle keeps_edit_begin keeps_event : osd.

(** A step of the screen: what it does to the model, and the version. *)
Record steps (o o' : OsdRun.osd) : Prop := mk_steps {
  st_ui : keeps (OsdRun.o_ui o) (OsdRun.o_ui o');
  st_version : Tui.g_version (OsdRun.o_g o') = Tui.g_version (OsdRun.o_g o)
}.
#[export] Instance steps_preorder : PreOrder steps.
Proof. split; [by intros o|]. intros a b c [H1 E1] [H2 E2]. split; [by etrans|congruence]. Qed.

Lemma steps_ui f o : (∀ ui, keeps ui (f ui)) → steps o (OsdRun.on_ui f o).
Proof. intros H. by split; [apply H|]. Qed.

Lemma steps_osk_process now ret o : steps o (OsdRun.osk_process now ret o).
Proof.
  unfold OsdRun.osk_process. cbn zeta. destruct (_ =? _); [done|]. destruct (_ && _); [done|]. destruct (_ && _); [|done].
  unfold opftp_ui_edit_commit. destruct (opftp_server_set_root_runtime _ _) as [rc srv]. split; [|done].
  set (ui := OsdRun.o_ui o). set (ui1 := foldl OsdRun.osk_type _ _).
  assert (keeps ui ui1) as H1 by (etrans; [apply keeps_edit_begin|apply keeps_foldl, keeps_type]). clearbody ui1.
  cbn [OsdRun.on_ui OsdRun.o_ui OsdRun.o_g Tui.g_ui]. etrans; [exact H1|]. by destruct rc; [|etrans; [|apply keeps_event]].
Qed.

(** A UTF-8 text: code points, encoded as RFC 3629 says. *)
Definition utf8_text (s : bytes) : Prop := ∃ cps, Forall scalar cps ∧ s = concat (utf8_encode <$> cps).

(** The root of the server is UTF-8 and shorter than the edit field. *)
Definition root_text (s : opftp_snapshot) : Prop :=
  utf8_text (sn_root s) ∧ (length (sn_root s) < OPFTP_UI_EDIT_MAX)%nat.

Lemma encoded_len cp : scalar cp → ∃ c u, utf8_encode cp = c :: u ∧ OsdRun.u8_len c = S (length u).
Proof.
  intros Hc. unfold scalar in Hc. unfold utf8_encode. change 0x80 with 128. change 0x800 with 2048. change 0x10000 with 65536.
  change 0xC0 with 192. change 0xE0 with 224. change 0xF0 with 240.
  assert (0 ≤ cp / 64 ∧ 0 ≤ cp / 4096 ∧ 0 ≤ cp / 262144) by (split_and!; apply Z.div_pos; lia).
  unfold OsdRun.u8_len. repeat case_match; btests; (eexists _, _; split; [reflexivity|]); rewrite ?lead2_range, ?lead3_range.
  - rewrite cv_chr by lia. by rewrite (proj2 (Z.ltb_lt _ _)) by lia.
  - assert (cp / 64 < 32) by (apply Z.div_lt_upper_bound; lia). rewrite cv_chr by lia.
    by rewrite (proj2 (Z.ltb_ge (192 + _) 128)), (proj2 (Z.leb_le 192 _)), (proj2 (Z.ltb_lt _ 224)) by lia.
  - assert (cp / 4096 < 16) by (apply Z.div_lt_upper_bound; lia). rewrite cv_chr by lia.
    by rewrite (proj2 (Z.ltb_ge (224 + _) 128)), (proj2 (Z.ltb_ge (224 + _) 224)), (proj2 (Z.leb_le 224 _)), (proj2 (Z.ltb_lt _ 240)), andb_false_r by lia.
  - assert (cp / 262144 < 8) by (apply Z.div_lt_upper_bound; lia). rewrite cv_chr by lia.
    by rewrite (proj2 (Z.ltb_ge (240 + _) 128)), (proj2 (Z.ltb_ge (240 + _) 224)), (proj2 (Z.ltb_ge (240 + _) 240)), !andb_false_r by lia.
Qed.

(** The keyboard reads a UTF-8 text to its end and no further. *)
Lemma keyboard_reads cps : Forall scalar cps → ∀ max, is_Some (OsdRun.utf8_to_u16 max (concat (utf8_encode <$> cps))).
Proof.
  induction 1 as [|cp cps Hc _ IH]; intros max; [by destruct max; eexists|].
  destruct (encoded_len cp Hc) as (c & u & E & El). cbn [fmap list_fmap concat]. rewrite E. destruct max as [|max]; [by eexists|].
  cbn [app OsdRun.utf8_to_u16 length]. rewrite El, (proj2 (Nat.ltb_ge _ _)) by (rewrite length_app; lia).
  cbn [drop]. rewrite drop_app_length. destruct (IH max) as [v ->]. by eexists.
Qed.

(** So the root can be handed to the keyboard. *)
Definition osk_fits (s : opftp_snapshot) : Prop :=
  is_Some (OsdRun.utf8_to_u16 OPFTP_UI_EDIT_MAX (bprintf OPFTP_UI_EDIT_MAX (sn_root s))).

Lemma root_fits s : root_text s → osk_fits s.
Proof.
  intros [(cps & Hc & E) Hl]. unfold osk_fits. rewrite bprintf_short by done. rewrite E. by apply keyboard_reads.
Qed.

Lemma act_steps pb p1 p2 rc now o : osk_fits (u_snap (OsdRun.o_ui o)) →
  ∃ o', OsdRun.act pb p1 p2 rc now o = Some o' ∧ steps o o'.
Proof.
  intros Hk. unfold OsdRun.act. cbn zeta.
  case_match; [eexists; split; [done|apply steps_ui; auto with osd]|]. case_match; [eexists; split; [done|]; by case_match|].
  case_match; [eexists; split; [done|]; by case_match|]. case_match; [by eexists|]. case_match.
  { eexists. split; [done|]. unfold OsdRun.dev_blind_toggle. cbn zeta. case_match; (split; [apply keeps_event|done]). }
  set (o1 := if OsdRun.pressed p1 (Z.lor _ _) then _ else o). assert (steps o o1) as S1 by (unfold o1; by case_match). clearbody o1.
  set (o2 := if OsdRun.pressed p1 (OsdRun.CTRL_UP pb) then _ else o1).
  assert (steps o o2) as S2 by (unfold o2; case_match; [etrans; [exact S1|apply steps_ui; auto with osd]|done]). clearbody o2.
  set (o3 := if OsdRun.pressed p1 (OsdRun.CTRL_DOWN pb) then _ else o2).
  assert (steps o o3) as S3 by (unfold o3; case_match; [etrans; [exact S2|apply steps_ui; auto with osd]|done]). clearbody o3.
  assert (∀ o', steps o o' → steps o (if OsdRun.pressed p2 (OsdRun.CTRL_CIRCLE pb) then OsdRun.on_ui opftp_ui_clear_sel o' else o')) as Hb.
  { intros o' Ho'. case_match; [|done]. etrans; [exact Ho'|]. apply steps_ui. intros. apply keeps_set_sel. }
  destruct (OsdRun.pressed p2 (OsdRun.CTRL_CROSS pb)); [destruct (_ && _)|]; [|eexists; split; [done|]; apply Hb; etrans; [exact S3|apply steps_ui; auto with osd]|eexists; split; [done|]; by apply Hb].
  unfold OsdRun.osk_open. destruct Hk as [u Hu]. destruct S3 as [[Hr3 E3] Hv3].
  change (u_edit_buf (OsdRun.o_ui (OsdRun.on_ui Tui.edit_open o3))) with (bprintf OPFTP_UI_EDIT_MAX (sn_root (u_snap (OsdRun.o_ui o3)))).
  rewrite E3, Hu. eexists. split; [done|]. split; [|done]. split; [|done]. intros Hr. apply Hr3 in Hr. by destruct (keeps_edit_begin Tui.OPFTP_UI_EDIT_ROOT (Some (sn_root (u_snap (OsdRun.o_ui o3)))) (OsdRun.o_ui o3)) as [? _]; auto.
Qed.

Lemma input_steps pb rc now o : osk_fits (u_snap (OsdRun.o_ui o)) →
  ∃ e o', OsdRun.handle_input pb rc now o = Some (e, o') ∧ steps o o'.
Proof.
  intros Hk. unfold OsdRun.handle_input. cbn zeta. set (o1 := OsdRun.hold_start _ _ o).
  assert (steps o o1) as H1 by (unfold o1, OsdRun.hold_start; by repeat case_match).
  destruct (act_steps pb (Z.ldiff (OsdRun.pad_d1 o) (OsdRun.prev_d1 o)) (Z.ldiff (OsdRun.pad_d2 o) (OsdRun.prev_d2 o)) rc now o1) as (o2 & E & H2).
  { by destruct H1 as [[_ ->] _]. }
  rewrite E. eexists _, _. split; [done|]. etrans; [exact H1|]. by destruct H2.
Qed.

Lemma callbacks_steps es : ∀ o, steps o (foldl (λ o e, OsdRun.osk_cb e o) o es).
Proof. induction es as [|e es IH]; intros o; [done|]. etrans; [|apply IH]. by destruct e. Qed.

(** ** Every frame *)

(** What a snapshot of the server is like. *)
Definition round_ok (r : OsdRun.round) : Prop :=
  snap_fits (OsdRun.r_snap r) ∧ root_text (OsdRun.r_snap r).

(** The counting chip of a round ends before column [R]. *)
Definition more_within (R : Z) (r : OsdRun.round) : Prop :=
  ∀ ui, u_snap ui = OsdRun.r_snap r → more_right (OsdRun.r_now r) ui ≤ R.

Definition screen_ok (o : OsdRun.osd) : Prop :=
  drawable (OsdRun.o_g o) ∧ osk_fits (u_snap (OsdRun.o_ui o)).

Lemma frame_within R pb r o : SCREEN_W ≤ R → round_ok r → more_within R r → screen_ok o →
  ∃ d o', OsdRun.frame pb r o = Some (d, o') ∧ screen_ok o' ∧ Forall (Forall (within R)) (option_list d).
Proof.
  intros HR [Hsf Hkf%root_fits] Hm [[Hr Hs Hv] Hk]. unfold OsdRun.frame.
  assert (steps o (OsdRun.poll_pad (OsdRun.r_pad r) o)) as H0 by (unfold OsdRun.poll_pad; by repeat case_match).
  destruct (input_steps pb (OsdRun.r_rc r) (OsdRun.r_input_us r) (OsdRun.poll_pad (OsdRun.r_pad r) o)) as (e & o1 & E & H1).
  { by destruct H0 as [[_ ->] _]. }
  rewrite E. cbn [mbind option_bind]. clear E. cbn zeta. set (o2 := foldl _ o1 _). assert (steps o o2) as H2 by (etrans; [exact H0|]; etrans; [exact H1|apply callbacks_steps]).
  clearbody o2. set (o3 := OsdRun.osk_process _ _ o2). assert (steps o o3) as H3 by (etrans; [exact H2|apply steps_osk_process]). clearbody o3.
  destruct H3 as [[Hr3 _] Hv3]. specialize (Hr3 Hr). set (g := if OsdRun.r_exit r then _ else _).
  assert (drawable g ∧ u_snap (Tui.g_ui g) = OsdRun.r_snap r) as [Hg Es].
  { set (ui := OsdRun.o_ui o3 <| u_snap := OsdRun.r_snap r |>). destruct (keeps_poll (OsdRun.r_now r Tui.AtPoll) ui) as [Hp Ep].
    assert (Tui.g_ui g = opftp_ui_poll (OsdRun.r_now r Tui.AtPoll) ui) as Eg by (unfold g; by case_match). split; [|by rewrite Eg, Ep].
    split; [rewrite Eg; by apply Hp|by rewrite Eg, Ep|]. replace (Tui.g_version g) with (Tui.g_version (OsdRun.o_g o)); [done|]. rewrite <-Hv3. unfold g. by case_match. }
  clearbody g. destruct (_ || _).
  - destruct (fits_render R HR (OsdRun.r_now r) (OsdRun.r_clock_us r) g (OsdRun.dev_blind_mounted o3) Hg) as ((d & Ed & Hd) & Hr' & Es'); [intros _; by apply Hm|].
    destruct (render _ _ g _) as [d' ui]. cbn [fst snd] in *. subst d'. cbn [mbind option_bind]. eexists _, _. split; [done|]. split.
    + destruct Hg as [_ Hs' Hv']. split; [split; [exact Hr'|cbn; by rewrite Es'|exact Hv']|]. unfold OsdRun.o_ui. cbn. by rewrite Es', Es.
    + by constructor.
  - eexists _, _. split; [done|]. split; [|constructor]. split; [exact Hg|]. unfold OsdRun.o_ui. cbn. by rewrite Es.
Qed.

Lemma rounds_within R pb rs : SCREEN_W ≤ R → Forall round_ok rs → Forall (more_within R) rs → ∀ o, screen_ok o →
  ∃ ds o', OsdRun.rounds pb rs o = Some (ds, o') ∧ Forall (Forall (within R)) ds.
Proof.
  intros HR. induction rs as [|r rs IH]; intros Hrs Hm o Ho; cbn [OsdRun.rounds]; [by eexists _, _|].
  inversion_clear Hrs. inversion_clear Hm. case_match; [by eexists _, _|].
  destruct (frame_within R pb r o HR) as (d & o1 & -> & Ho1 & Hd); [done..|]. cbn [mbind option_bind].
  destruct (IH ltac:(done) ltac:(done) o1 Ho1) as (ds & o2 & -> & Hds). cbn [mbind option_bind]. eexists _, _. split; [done|]. by apply Forall_app.
Qed.

(** ** The counting chip *)

Lemma chips_count now ui l y : ∀ i x drawn, 0 ≤ drawn → drawn ≤ snd (draw_chips now ui l i y x drawn) ∧
  (snd (draw_chips now ui l i y x drawn) = drawn → snd (fst (draw_chips now ui l i y x drawn)) = x).
Proof.
  induction l as [|c l IH]; intros i x drawn Hd; cbn [draw_chips]; [done|]. repeat case_match; cbn [fst snd] in *; try done; simplify_eq.
  match goal with H1 : draw_chips _ _ _ _ y ?x' ?d = _ |- _ => specialize (IH (i + 1) x' d); rewrite H1 in IH; cbn [fst snd] in IH; lia end.
Qed.

Lemma more_text_short k : 1 ≤ k ≤ 16 → (length (more_text k) ≤ 3)%nat.
Proof.
  intros Hk. assert (Forall (λ k, (length (more_text (Z.of_nat k)) ≤ 3)%nat) (seq 1 16)) as H.
  { apply Forall_forall. intros x Hx%list_elem_of_In. revert x Hx. apply List.Forall_forall. repeat (constructor; [apply Nat.leb_le; vm_compute; reflexivity|]). constructor. }
  rewrite Forall_forall in H. specialize (H (Z.to_nat k)). rewrite Z2Nat.id in H by lia. apply H. apply elem_of_seq. lia.
Qed.

Lemma more_right_bound now ui : sn_num_clients (u_snap ui) ≤ 16 → more_right now ui ≤ SCREEN_W + 43.
Proof.
  intros Hn. unfold more_right. destruct (fits_chips SCREEN_W (Z.le_refl _) now ui (snap_list (u_snap ui)) 0 ltac:(lia) 0 MX 0 ltac:(px)) as [_ Hx].
  destruct (chips_count now ui (snap_list (u_snap ui)) 0 0 MX 0 ltac:(lia)) as [Hc _]. destruct (draw_chips _ _ _ _ _ _ _) as [[d x] k]. cbn [fst snd] in *.
  case_match eqn:E; [|px]. apply Z.ltb_lt in E. pose proof (more_text_short (sn_num_clients (u_snap ui) - k) ltac:(lia)). px.
Qed.

Lemma more_right_alone now ui : sn_num_clients (u_snap ui) ≤ 1 → more_right now ui ≤ SCREEN_W.
Proof.
  intros Hn. unfold more_right.
  destruct (chips_count now ui (snap_list (u_snap ui)) 0 0 MX 0 ltac:(lia)) as [Hc Hx]. destruct (draw_chips _ _ _ _ _ _ _) as [[d x] k]. cbn [fst snd] in *.
  case_match eqn:E; [|px]. apply Z.ltb_lt in E. rewrite Hx by lia. pose proof (more_text_short (sn_num_clients (u_snap ui) - k) ltac:(lia)). px.
Qed.


(** Five clients at short addresses; the fifth is counted. *)
Definition local_client : opftp_snapshot_client := mk_snap_client (B "::1") (B "p") (B "/") true false [] [] 0 0.
Definition demo_pad : OsdRun.pad_bits := OsdRun.mk_pad_bits 128 32 16 64 8 1 16 32 64 1.
Definition demo_round (n : nat) : OsdRun.round :=
  OsdRun.mk_round true (Some (0, 0)) 0 (λ _, 5000000) 5000000 5000000 [] (OsdRun.mk_osk_return false [])
    (mk_snapshot true 2121 (B "/dev_hdd0") 2 (Z.of_nat n) (replicate n local_client)) true false.

Lemma root_text_demo n : root_text (OsdRun.r_snap (demo_round n)).
Proof.
  split; [|apply Nat.ltb_lt; by vm_compute]. exists (cv <$> B "/dev_hdd0"). split; [|by vm_compute].
  apply Forall_forall. intros z (c & -> & Hc)%list_elem_of_fmap. revert c Hc. apply Forall_forall.
  repeat (constructor; [by vm_compute; intuition|]). constructor.
Qed.

Lemma demo_round_ok n : round_ok (demo_round n).
Proof. split; [split; [cbn; by rewrite length_replicate|apply Forall_replicate; by apply Nat.ltb_lt]|]. apply root_text_demo. Qed.


(** The counting chip of such a frame ends 26 columns off the screen. *)
Definition right_edge (p : prim) : Z := match p with Rectangle x _ w _ _ => x + w | Circle x _ r _ => x + r | Printf _ _ _ _ _ => 0 end.

Example counting_chip_overhangs :
  match OsdRun.opftp_osd_run demo_pad 1 (B "v4.1") None 0 [demo_round 5] (opftp_server_create None false true) OsdRun.osd0 with
  | Some ([d], _) => foldr Z.max 0 (right_edge <$> d) = SCREEN_W + 26
  | _ => False
  end.
Proof. vm_compute. reflexivity. Qed.

(** The bar of a transfer runs on under the text at its right. *)
Lemma bar_under_text c meta :
  let nx := MX + 18 + (22 + 14) + (tw 20 (sc_xfer_op c) + 14) in
  nx + (W - 36 - tw 23 meta - 18) = MX + W - 18 - tw 23 meta + 32 + tw 20 (sc_xfer_op c).
Proof. px. Qed.

(** The last row of the help panel is below the panel. *)
Lemma help_below_panel : PANEL_Y + PANEL_H < help_y 6.
Proof. by vm_compute. Qed.
End OsdSafe.
