(* ===== verification/OsdKeys.v ===== *)
(** * The pad and the keyboard of the console screen

    The text of the system keyboard is UTF-16 and the paths of the server are
    UTF-8: what is typed reaches the server unchanged, for every character the
    keyboard has. The screen ends only when START is held or the console asks
    for it. The flash is writable exactly while the screen says so; but the
    word of the pad that is tested for SELECT is the one that holds L2. *)

From S2P Require Import Prelude CLib World Utf8 Ui Canvas Server Resolve Tui TuiSafe Osd OsdRun OsdSafe.
Import CLib Utf8 Ui Server OsdRun.

Local Open Scope Z_scope.

Module OsdKeys.

#[local] Existing Instance Tui.tui_settable.

(** ** Characters *)

Lemma below_forall (P : Z → bool) n x : forallb (λ k, P (Z.of_nat k)) (seq 0 n) = true → 0 ≤ x < Z.of_nat n → P x = true.
Proof.
  intros H Hx. rewrite forallb_forall in H. specialize (H (Z.to_nat x)). rewrite Z2Nat.id in H by lia. apply H, in_seq. lia.
Qed.

Lemma lor_192 x : 0 ≤ x < 32 → Z.lor 192 x = 192 + x.
Proof. intros H. apply Z.eqb_eq. by apply (below_forall (λ x, Z.lor 192 x =? 192 + x) 32). Qed.
Lemma lor_224 x : 0 ≤ x < 16 → Z.lor 224 x = 224 + x.
Proof. intros H. apply Z.eqb_eq. by apply (below_forall (λ x, Z.lor 224 x =? 224 + x) 16). Qed.
Lemma lor_128 x : 0 ≤ x < 64 → Z.lor 128 x = 128 + x.
Proof. intros H. apply Z.eqb_eq. by apply (below_forall (λ x, Z.lor 128 x =? 128 + x) 64). Qed.
Lemma land_63 x : Z.land x 63 = x mod 64.
Proof. change 63 with (Z.ones 6). by rewrite Z.land_ones. Qed.
Lemma shiftr_6 x : Z.shiftr x 6 = x / 64.
Proof. by rewrite Z.shiftr_div_pow2. Qed.
Lemma shiftr_12 x : Z.shiftr x 12 = x / 4096.
Proof. by rewrite Z.shiftr_div_pow2. Qed.

(** A unit of the keyboard is written as RFC 3629 says. *)
Lemma u16_utf8_encode c : 0 ≤ c < 65536 → u16_to_utf8 c = utf8_encode c.
Proof.
  intros Hc. unfold u16_to_utf8, utf8_encode. change 0x80 with 128. change 0x800 with 2048. change 0x10000 with 65536.
  destruct (Z.ltb_spec c 128); [done|]. pose proof (Z.mod_pos_bound c 64). pose proof (Z.mod_pos_bound (c / 64) 64).
  destruct (Z.ltb_spec c 2048).
  - assert (0 ≤ c / 64 < 32) by (split; [apply Z.div_pos|apply Z.div_lt_upper_bound]; lia).
    by rewrite shiftr_6, land_63, lor_192, lor_128 by lia.
  - destruct (Z.ltb_spec c 65536); [|lia]. assert (0 ≤ c / 4096 < 16) by (split; [apply Z.div_pos|apply Z.div_lt_upper_bound]; lia).
    by rewrite shiftr_6, shiftr_12, !land_63, lor_224, !lor_128 by lia.
Qed.

Lemma join_cont cp b : 0 ≤ b < 64 → u8_join cp (chr (128 + b)) = cp * 64 + b.
Proof.
  intros Hb. unfold u8_join. rewrite cont_val, cv_chr by lia. rewrite lor_shiftl6 by (apply Z.mod_pos_bound; lia). f_equal.
  replace (128 + b) with (b + 2 * 64) by lia. rewrite Z_mod_plus_full. by apply Z.mod_small.
Qed.

(** One character is read: [n] bytes follow the first. *)
Lemma read_step n c r max cp : u8_len c = S n → (n ≤ length r)%nat → foldl u8_join (u8_first c) (take n r) = cp → 0 ≤ cp < 65536 →
  utf8_to_u16 (S max) (c :: r) = (x ← utf8_to_u16 max (drop n r); Some (cp :: x)).
Proof.
  intros Hn Hr Hcp Hc. cbn [utf8_to_u16]. unfold u8_code. rewrite Hn. rewrite Nat.sub_succ, Nat.sub_0_r, Hcp. cbn [length drop].
  rewrite (proj2 (Nat.ltb_ge _ _)) by lia. rewrite (proj2 (Z.ltb_ge 65535 cp)) by lia. unfold u16. by rewrite Z.mod_small by lia.
Qed.

Lemma lead1_char c : 0 ≤ c < 128 → u8_len (chr c) = 1%nat ∧ u8_first (chr c) = c.
Proof. intros Hc. unfold u8_len, u8_first. rewrite cv_chr by lia. by rewrite (proj2 (Z.ltb_lt c 128)) by lia. Qed.
Lemma lead2_char a : 0 ≤ a < 32 → u8_len (chr (192 + a)) = 2%nat ∧ u8_first (chr (192 + a)) = a.
Proof.
  intros Ha. unfold u8_len, u8_first. rewrite lead2_range, lead2_val, cv_chr by lia.
  rewrite (proj2 (Z.ltb_ge (192 + a) 128)), (proj2 (Z.leb_le 192 (192 + a))), (proj2 (Z.ltb_lt (192 + a) 224)) by lia. split; [done|].
  replace (192 + a) with (a + 6 * 32) by lia. cbn [andb]. by rewrite Z_mod_plus_full, Z.mod_small by lia.
Qed.
Lemma lead3_char a : 0 ≤ a < 16 → u8_len (chr (224 + a)) = 3%nat ∧ u8_first (chr (224 + a)) = a.
Proof.
  intros Ha. unfold u8_len, u8_first. rewrite lead2_range, lead3_range, lead3_val, cv_chr by lia.
  rewrite (proj2 (Z.ltb_ge (224 + a) 128)), (proj2 (Z.ltb_ge (224 + a) 224)), (proj2 (Z.leb_le 224 (224 + a))), (proj2 (Z.ltb_lt (224 + a) 240)) by lia.
  rewrite andb_false_r. split; [done|]. replace (224 + a) with (a + 14 * 16) by lia. cbn [andb]. by rewrite Z_mod_plus_full, Z.mod_small by lia.
Qed.

(** One character is read back. *)
Lemma read_encoded c q max : 0 < c < 65536 →
  utf8_to_u16 (S max) (utf8_encode c ++ q) = (r ← utf8_to_u16 max q; Some (c :: r)).
Proof.
  intros Hc. unfold utf8_encode. change 0x80 with 128. change 0x800 with 2048. change 0x10000 with 65536. change 0xC0 with 192. change 0xE0 with 224.
  pose proof (Z.mod_pos_bound c 64). pose proof (Z.mod_pos_bound (c / 64) 64). pose proof (Z.div_mod c 64).
  destruct (Z.ltb_spec c 128); [|destruct (Z.ltb_spec c 2048); [|destruct (Z.ltb_spec c 65536); [|lia]]].
  - destruct (lead1_char c) as [El Ef]; [lia|]. apply (read_step 0); [done|lia|by rewrite Ef|lia].
  - assert (2 ≤ c / 64 < 32) by (split; [apply Z.div_le_lower_bound|apply Z.div_lt_upper_bound]; lia).
    destruct (lead2_char (c / 64)) as [El Ef]; [lia|]. apply (read_step 1 _ (_ :: q)); [done|cbn; lia| |lia].
    rewrite Ef. cbn [take foldl]. rewrite take_0. cbn [foldl]. rewrite join_cont; lia.
  - assert (0 ≤ c / 4096 < 16) by (split; [apply Z.div_pos|apply Z.div_lt_upper_bound]; lia).
    assert (c / 4096 * 64 + c / 64 mod 64 = c / 64) by (pose proof (Z.div_mod (c / 64) 64); rewrite Z.div_div in * by lia; change (64 * 64) with 4096 in *; lia).
    destruct (lead3_char (c / 4096)) as [El Ef]; [lia|]. apply (read_step 2 _ (_ :: _ :: q)); [done|cbn; lia| |lia].
    rewrite Ef. cbn [take foldl]. rewrite take_0. cbn [foldl]. rewrite !join_cont; lia.
Qed.

(** A text of the keyboard, as UTF-8. *)
Definition utf8_of (cps : list Z) : bytes := concat (utf8_encode <$> cps).

Lemma read_text cps : Forall (λ c, 0 < c < 65536) cps → ∀ max, (length cps ≤ max)%nat → utf8_to_u16 max (utf8_of cps) = Some cps.
Proof.
  induction 1 as [|c cps Hc _ IH]; intros max Hm; [by destruct max|]. destruct max as [|max]; cbn [length] in Hm; [lia|].
  change (utf8_of (c :: cps)) with (utf8_encode c ++ utf8_of cps). rewrite read_encoded by done. by rewrite IH by lia.
Qed.

(** ** What is typed *)

(** A character of the keyboard. *)
Definition osk_char (c : Z) : Prop := scalar c ∧ c < 65536.

Lemma osk_char_text c : osk_char c → cstr_of (u16_to_utf8 c) = utf8_encode c.
Proof. intros [Hs Hc]. rewrite u16_utf8_encode by (destruct Hs; lia). by apply cstr_of_id, utf8_encode_no_nul. Qed.

(** The field holds [buf]. *)
Record holds (buf : bytes) (ui : opftp_ui) : Prop := mk_holds {
  ho_field : u_edit_field ui ≠ OPFTP_UI_EDIT_NONE;
  ho_buf : u_edit_buf ui = buf;
  ho_len : u_edit_len ui = Z.of_nat (length buf)
}.

Lemma type_char c buf ui : osk_char c → holds buf ui → (length buf + length (utf8_encode c) < OPFTP_UI_EDIT_MAX)%nat →
  holds (buf ++ utf8_encode c) (osk_type ui c).
Proof.
  intros Hc [Hf Hb Hl] Hn. unfold osk_type, opftp_ui_edit_type. rewrite osk_char_text by done.
  rewrite (proj2 (Z.eqb_neq _ _)) by done.
  rewrite (proj2 (Z.leb_gt _ _)) by (rewrite Hl; unfold OPFTP_UI_EDIT_MAX in *; lia).
  cbn [snd]. split; [done| |].
  - cbn. by rewrite Hl, Hb, Nat2Z.id, firstn_all.
  - cbn. rewrite Hl, length_app. lia.
Qed.

Lemma type_chars cps : Forall osk_char cps → ∀ buf ui, holds buf ui → (length buf + length (utf8_of cps) < OPFTP_UI_EDIT_MAX)%nat →
  holds (buf ++ utf8_of cps) (foldl osk_type ui cps).
Proof.
  induction 1 as [|c cps Hc _ IH]; intros buf ui Hh Hn; [by rewrite app_nil_r|].
  change (utf8_of (c :: cps)) with (utf8_encode c ++ utf8_of cps) in *. rewrite length_app in Hn. cbn [foldl]. rewrite app_assoc.
  apply IH; [apply type_char; [done|done|lia]|rewrite length_app; lia].
Qed.

(** C35. A path reaches the server through the system keyboard exactly: the
    path, in UTF-8, is handed to the keyboard as its characters, in UTF-16,
    and the characters the keyboard answers with become the root of the
    server, byte for byte in UTF-8, when they are an absolute path that fits
    the field. In particular confirming a path unchanged keeps it. (Characters
    outside of the basic plane are not of this kind: they are replaced.) *)
Theorem osk_roundtrip cps now o :
  Forall osk_char (47 :: cps) → (length (utf8_of (47%Z :: cps)) < OPFTP_UI_EDIT_MAX)%nat →
  u_edit_field (o_ui o) = Tui.OPFTP_UI_EDIT_ROOT → osk_finished o = true →
  utf8_to_u16 OPFTP_UI_EDIT_MAX (utf8_of (47 :: cps)) = Some (47 :: cps) ∧
  s_root (o_srv (osk_process now (mk_osk_return true (47 :: cps)) o)) = utf8_of (47 :: cps) ∧
  u_edit_field (o_ui (osk_process now (mk_osk_return true (47 :: cps)) o)) = OPFTP_UI_EDIT_NONE.
Proof.
  intros Hc Hn Hf Hfin. split.
  { apply read_text; [eapply Forall_impl; [exact Hc|]; intros c [[? _] ?]; lia|].
    assert (∀ l, Forall osk_char l → (length l ≤ length (utf8_of l))%nat) as Hlen; [|specialize (Hlen _ Hc); lia].
    induction 1 as [|c l _ _ IH]; [done|]. change (utf8_of (c :: l)) with (utf8_encode c ++ utf8_of l). rewrite length_app. cbn [length].
    assert (1 ≤ length (utf8_encode c))%nat; [|lia]. unfold utf8_encode. repeat case_match; cbn; lia. }
  unfold osk_process. cbn zeta. rewrite Hf. change (Tui.OPFTP_UI_EDIT_ROOT =? OPFTP_UI_EDIT_NONE) with false. rewrite Hfin. cbn [negb andb or_ok or_text].
  change (0 <? Z.of_nat (length (47 :: cps))) with true.
  assert (holds [] (opftp_ui_edit_begin Tui.OPFTP_UI_EDIT_ROOT None (o_ui o))) as H0 by done.
  pose proof (type_chars (47 :: cps) Hc [] _ H0 Hn) as [_ Hb _]. cbn [app] in Hb. unfold opftp_ui_edit_commit. rewrite Hb.
  unfold opftp_server_set_root_runtime. change (head (utf8_of (47 :: cps))) with (Some SLASH). rewrite bool_decide_true by done.
  split; [|done]. cbn [s_root]. set (s := utf8_of (47 :: cps)) in *. clearbody s. apply (bprintf_short Resolve.OPFTP_MAX_PATH).
  unfold OPFTP_UI_EDIT_MAX in Hn. unfold Resolve.OPFTP_MAX_PATH. lia.
Qed.

(** The path [/dev_hdd0/ö]. *)
Definition demo_path : list Z := [100; 101; 118; 95; 104; 100; 100; 48; 47; 246].
Definition editing_osd : osd :=
  osk_cb OSKDIALOG_FINISHED (on_ui (opftp_ui_edit_begin Tui.OPFTP_UI_EDIT_ROOT None) osd0).

Lemma osk_roundtrip_witness :
  utf8_to_u16 OPFTP_UI_EDIT_MAX (utf8_of (47 :: demo_path)) = Some (47 :: demo_path) ∧
  s_root (o_srv (osk_process 9 (mk_osk_return true (47 :: demo_path)) editing_osd)) = utf8_of (47 :: demo_path) ∧
  u_edit_field (o_ui (osk_process 9 (mk_osk_return true (47 :: demo_path)) editing_osd)) = OPFTP_UI_EDIT_NONE.
Proof.
  apply (osk_roundtrip demo_path 9 editing_osd).
  - unfold demo_path. repeat (constructor; [unfold osk_char, scalar; lia|]). constructor.
  - apply Nat.ltb_lt. reflexivity.
  - reflexivity.
  - reflexivity.
Defined.

(** A character outside of the basic plane is replaced by U+FFFD. *)
Example astral_replaced : utf8_to_u16 OPFTP_UI_EDIT_MAX (B "/" ++ utf8_encode 0x1F600) = Some [47; 65533].
Proof. vm_compute. reflexivity. Qed.

(** A root whose 255th byte is inside a character is read past its end. *)
Example long_root_overreads :
  act OsdSafe.demo_pad 0 64 0 0
    (on_ui (λ ui, ui <| u_view := OPFTP_UI_V_SETTINGS |> <| u_sel_settings := 1 |>
      <| u_snap := mk_snapshot true 2121 (B "/" ++ replicate 253 "a"%char ++ utf8_encode 246) 2 0 [] |>) osd0) = None.
Proof. vm_compute. reflexivity. Qed.

(** ** The flash *)

(** Whether the calls left the flash writable. *)
Definition flash_step (b : bool) (c : call) : bool :=
  match c with
  | X_mount rc => if rc =? 0 then true else b
  | X_unmount rc => if rc =? 0 then false else b
  | _ => b
  end.
Definition flash (l : list call) : bool := foldl flash_step false l.
Definition flash_ok (o : osd) : Prop := dev_blind_mounted o = flash (o_calls o).

Lemma flash_app l c : flash (l ++ [c]) = flash_step (flash l) c.
Proof. unfold flash. by rewrite foldl_app. Qed.

(** What a step leaves alone: the end of the screen, the time START is held;
    and the flag keeps telling the truth. *)
Record calm (o o' : osd) : Prop := mk_calm {
  ca_quit : Tui.g_quit (o_g o') = Tui.g_quit (o_g o);
  ca_hold : start_hold_us o' = start_hold_us o;
  ca_flash : flash_ok o → flash_ok o'
}.
#[export] Instance calm_preorder : PreOrder calm.
Proof. split; [by intros o|]. intros a b c [H1 H2 H3] [? ? ?]. split; [congruence|congruence|auto]. Qed.

Lemma calm_ui f o : calm o (on_ui f o).
Proof. done. Qed.
Lemma calm_if f (b : bool) o : calm o (if b then on_ui f o else o).
Proof. by destruct b. Qed.

Lemma calm_toggle rc now o : calm o (dev_blind_toggle rc now o).
Proof.
  unfold dev_blind_toggle. cbn zeta. destruct (rc =? 0) eqn:E; (split; [done|done|]); intros H; unfold flash_ok in *; cbn in *; rewrite !flash_app;
    destruct (dev_blind_mounted o); cbn; by rewrite E, <-?H.
Qed.

Lemma calm_act pb p1 p2 rc now o o' : act pb p1 p2 rc now o = Some o' → calm o o'.
Proof.
  unfold act. cbn zeta. case_match; [intros [= <-]; apply calm_ui|]. case_match; [intros [= <-]; apply calm_if|]. case_match; [intros [= <-]; apply calm_if|].
  case_match; [by intros [= <-]|]. case_match; [intros [= <-]; apply calm_toggle|].
  set (o1 := if pressed p1 (Z.lor _ _) then _ else o). assert (calm o o1) as S1 by apply calm_if. clearbody o1.
  set (o2 := if pressed p1 (CTRL_UP pb) then _ else o1). assert (calm o o2) as S2 by (etrans; [exact S1|apply calm_if]). clearbody o2.
  set (o3 := if pressed p1 (CTRL_DOWN pb) then _ else o2). assert (calm o o3) as S3 by (etrans; [exact S2|apply calm_if]). clearbody o3.
  destruct (pressed p2 (CTRL_CROSS pb)); [destruct (_ && _)|].
  - unfold osk_open. destruct (utf8_to_u16 _ _) as [u|]; cbn [mbind option_bind]; [|done]. intros [= <-]. etrans; [exact S3|]. split; [done|done|].
    unfold flash_ok. cbn. by rewrite flash_app.
  - intros [= <-]. etrans; [exact S3|]. etrans; [apply (calm_ui opftp_ui_open_detail)|apply calm_if].
  - intros [= <-]. etrans; [exact S3|]. apply calm_if.
Qed.

Lemma calm_process now ret o : calm o (osk_process now ret o).
Proof.
  unfold osk_process. cbn zeta. destruct (_ =? _); [done|]. destruct (_ && _); [done|]. unfold opftp_ui_edit_commit, opftp_server_set_root_runtime.
  repeat case_match; simplify_eq; (split; [done|done|]); unfold flash_ok; cbn; by rewrite flash_app.
Qed.

Lemma calm_callbacks es : ∀ o, calm o (foldl (λ o e, osk_cb e o) o es).
Proof. induction es as [|e es IH]; intros o; [done|]. etrans; [|apply IH]. by destruct e. Qed.

(** A round, up to what [hold_start] does. *)
Definition polled (pb : pad_bits) (r : round) (o : osd) : osd := hold_start (CTRL_START pb) (r_input_us r) (poll_pad (r_pad r) o).

Lemma frame_calm pb r o d o' : frame pb r o = Some (d, o') →
  Tui.g_quit (o_g o') = Tui.g_quit (o_g (polled pb r o)) || r_exit r ∧ start_hold_us o' = start_hold_us (polled pb r o) ∧
  (flash_ok o → flash_ok o').
Proof.
  unfold frame, handle_input. cbn zeta. fold (polled pb r o). destruct (act _ _ _ _ _ _) as [o1|] eqn:Ea; [|done]. cbn [mbind option_bind].
  pose proof (calm_act _ _ _ _ _ _ _ Ea) as Sa. set (o2 := foldl _ _ _).
  assert (calm (polled pb r o) o2) as S2 by (etrans; [exact Sa|]; etrans; [|apply calm_callbacks]; done). clearbody o2.
  set (o3 := osk_process _ _ o2). assert (calm (polled pb r o) o3) as S3 by (etrans; [exact S2|apply calm_process]). clearbody o3. destruct S3 as [Hq Hh Hf].
  assert (flash_ok o → flash_ok (polled pb r o)) as H0 by (unfold flash_ok, polled, hold_start, poll_pad; by repeat case_match).
  assert (∀ g, Tui.g_quit g = Tui.g_quit (o_g (polled pb r o)) → Tui.g_quit (if r_exit r then g <| Tui.g_quit := true |> else g) = Tui.g_quit (o_g (polled pb r o)) || r_exit r) as Hx.
  { intros g Eg. destruct (r_exit r); cbn; [by rewrite orb_true_r|by rewrite orb_false_r]. }
  set (g := if r_exit r then _ else _). assert (Tui.g_quit g = Tui.g_quit (o_g (polled pb r o)) || r_exit r) as Eg by by apply Hx. clearbody g.
  match goal with |- (if ?b then _ else _) = _ → _ => destruct b end.
  - destruct (Osd.render _ _ _ _) as [[l|] ui]; cbn [mbind option_bind]; [|intros [=]]. intros [= <- <-]. split_and!; [exact Eg|exact Hh|]. intros H. by apply Hf, H0.
  - intros [= <- <-]. split_and!; [exact Eg|exact Hh|]. intros H. by apply Hf, H0.
Qed.

(** ** The end of the screen *)

Definition start_down (pb : pad_bits) (r : round) : bool :=
  match r_pad r with Some (d1, _) => pressed (u16 d1) (CTRL_START pb) | None => false end.

(** START is down in every one of the rounds, and [us] pass between the first
    and the last. *)
Definition held_for (pb : pad_bits) (us : Z) (h : list round) : Prop :=
  Forall (λ r, start_down pb r = true) h ∧ ∃ r0 r1, head h = Some r0 ∧ last h = Some r1 ∧ us ≤ r_input_us r1 - r_input_us r0.

(** The clock of the rounds goes forward. *)
Definition clocks (rs : list round) : Prop :=
  (∀ a r0 h r b, rs = a ++ r0 :: h ++ r :: b → r_input_us r0 ≤ r_input_us r) ∧ Forall (λ r, 0 < r_input_us r < 2 ^ 64) rs.

Lemma polled_cases pb r o : CTRL_START pb ≠ 0 →
  (start_down pb r = false ∧ Tui.g_quit (o_g (polled pb r o)) = Tui.g_quit (o_g o) ∧ start_hold_us (polled pb r o) = 0) ∨
  (start_down pb r = true ∧ start_hold_us o = 0 ∧ Tui.g_quit (o_g (polled pb r o)) = Tui.g_quit (o_g o) ∧
     start_hold_us (polled pb r o) = r_input_us r) ∨
  (start_down pb r = true ∧ start_hold_us o ≠ 0 ∧ start_hold_us (polled pb r o) = start_hold_us o ∧
     Tui.g_quit (o_g (polled pb r o)) = Tui.g_quit (o_g o) || (2000000 <=? u64 (r_input_us r - start_hold_us o))).
Proof.
  intros Hs. unfold polled, hold_start, start_down, poll_pad. destruct (r_pad r) as [[d1 d2]|]; cbn.
  - destruct (pressed (u16 d1) (CTRL_START pb)) eqn:Ep; [|by left]. right. destruct (Z.eqb_spec (start_hold_us o) 0); [by left|right].
    destruct (2000000 <=? _); cbn; [by rewrite orb_true_r|by rewrite orb_false_r].
  - left. by unfold pressed.
Qed.

(** START has been down since the round whose time is recorded. *)
Definition holding (pb : pad_bits) (pre : list round) (o : osd) : Prop :=
  start_hold_us o = 0 ∨
  ∃ a r0 h, pre = a ++ r0 :: h ∧ Forall (λ r, start_down pb r = true) (r0 :: h) ∧ r_input_us r0 = start_hold_us o.

Lemma rounds_quit pb rs : CTRL_START pb ≠ 0 → ∀ pre o ds o', holding pb pre o → Tui.g_quit (o_g o) = false → clocks (pre ++ rs) →
  rounds pb rs o = Some (ds, o') → Tui.g_quit (o_g o') = true →
  (∃ r, r ∈ rs ∧ r_exit r = true) ∨ ∃ a h b, pre ++ rs = a ++ h ++ b ∧ held_for pb 2000000 h.
Proof.
  intros Hs. induction rs as [|r rs IH]; intros pre o ds o' Hh Hq Hc; cbn [rounds]; [intros [= <- <-]; congruence|].
  case_match; [intros [= <- <-]; congruence|]. destruct (frame pb r o) as [[d o1]|] eqn:Ef; [|done]. cbn [mbind option_bind].
  destruct (rounds pb rs o1) as [[ds1 o2]|] eqn:Er; [|done]. cbn [mbind option_bind]. intros [= <- <-] Hq'.
  destruct (frame_calm _ _ _ _ _ Ef) as (Eq & Eh & _). destruct (r_exit r) eqn:Ex; [left; exists r; split; [left|done]|]. rewrite orb_false_r in Eq.
  assert (∀ Hh1 : holding pb (pre ++ [r]) o1, Tui.g_quit (o_g o1) = false →
    (∃ r', r' ∈ r :: rs ∧ r_exit r' = true) ∨ ∃ a h b, pre ++ r :: rs = a ++ h ++ b ∧ held_for pb 2000000 h) as Hgo.
  { intros Hh1 Hq1. destruct (IH (pre ++ [r]) o1 ds1 o2 Hh1 Hq1) as [(r' & Hr' & He)|H']; [by rewrite <-app_assoc|done|done| |].
    - left. exists r'. split; [by right|done].
    - right. by rewrite <-app_assoc in H'. }
  destruct (polled_cases pb r o Hs) as [(Hd & Eq0 & Eh0)|[(Hd & E0 & Eq0 & Eh0)|(Hd & E0 & Eh0 & Eq0)]].
  - apply Hgo; [left|]; congruence.
  - apply Hgo; [right|congruence]. exists pre, r, []. split; [done|]. split; [by constructor|congruence].
  - destruct Hh as [?|(a & r0 & h & Epre & Hdn & Er0)]; [done|]. rewrite Hq in Eq0. cbn [orb] in Eq0. destruct (2000000 <=? _) eqn:Et.
    + right. exists a, (r0 :: h ++ [r]), rs. split; [by rewrite Epre, <-!app_assoc; cbn; rewrite <-app_assoc|]. split.
      { inversion_clear Hdn. constructor; [done|]. apply Forall_app. split; [done|by constructor]. }
      exists r0, r. split; [done|]. split; [exact (last_snoc r (r0 :: h))|]. apply Z.leb_le in Et.
      assert (r_input_us r0 ≤ r_input_us r) as Hle.
      { apply (proj1 Hc a r0 h r rs). by rewrite Epre, <-app_assoc. }
      destruct Hc as [_ Hb]. rewrite Forall_app in Hb. destruct Hb as [Hb1 Hb2]. inversion_clear Hb2 as [|? ? Hbr _].
      assert (0 < r_input_us r0) as Hp by (rewrite Epre, Forall_app in Hb1; destruct Hb1 as [_ Hb1]; inversion_clear Hb1; lia).
      rewrite <-Er0 in Et. unfold u64 in Et. rewrite Z.mod_small in Et by lia. lia.
    + apply Hgo; [right|congruence]. exists a, r0, (h ++ [r]). split; [by rewrite Epre, <-app_assoc|]. split; [|congruence].
      inversion_clear Hdn. constructor; [done|]. apply Forall_app. split; [done|by constructor].
Qed.

(** The console screen ends only when it is meant to: if it has been told
    to quit after any rounds, then the console asked for it in one of them, or
    START was down in every one of a stretch of rounds that spans at least two
    seconds. A tap, or several short presses, never ends it. *)
Theorem quit_needs_hold pb now version ip rc rs srv o ds o' :
  CTRL_START pb ≠ 0 → clocks rs → opftp_osd_run pb now version ip rc rs srv o = Some (ds, o') →
  Tui.g_quit (o_g o') = true →
  (∃ r, r ∈ rs ∧ r_exit r = true) ∨ ∃ a h b, rs = a ++ h ++ b ∧ held_for pb 2000000 h.
Proof.
  intros Hs Hc. unfold opftp_osd_run. destruct (rounds _ _ _) as [[ds1 o1]|] eqn:E; [|done]. cbn [mbind option_bind]. intros [= <- <-] Hq.
  apply (rounds_quit pb rs Hs [] (osd_start now version ip srv o) ds1 o1); [by left|done|done|exact E|].
  unfold osd_end in Hq. by destruct (dev_blind_mounted o1).
Qed.

Lemma rounds_flash pb rs : ∀ o ds o', flash_ok o → rounds pb rs o = Some (ds, o') → flash_ok o'.
Proof.
  induction rs as [|r rs IH]; intros o ds o' Ho; cbn [rounds]; [by intros [= <- <-]|]. case_match; [by intros [= <- <-]|].
  destruct (frame pb r o) as [[d o1]|] eqn:Ef; [|done]. cbn [mbind option_bind]. destruct (rounds pb rs o1) as [[ds1 o2]|] eqn:Er; [|done].
  cbn [mbind option_bind]. intros [= <- <-]. apply frame_calm in Ef as (_ & _ & Hf). eapply IH; [by apply Hf|done].
Qed.

(** The flash is writable exactly while the flag is set that puts the warning
    on the status card, and it is not when the screen has ended, unless the
    last unmount was refused. *)
Theorem flash_read_only_at_end pb now version ip rc rs srv o ds o' :
  flash_ok o → opftp_osd_run pb now version ip rc rs srv o = Some (ds, o') → rc = 0 → flash (o_calls o') = false.
Proof.
  intros Ho. unfold opftp_osd_run. destruct (rounds _ _ _) as [[ds1 o1]|] eqn:E; [|done]. cbn [mbind option_bind]. intros [= <- <-] ->.
  apply rounds_flash in E; [|done]. unfold osd_end. destruct (dev_blind_mounted o1) eqn:Ed; [by cbn; rewrite flash_app|]. by rewrite <-E.
Qed.

(** START down for two and a half seconds. *)
Definition hold_round (t : Z) : round :=
  mk_round true (Some (8, 0)) 0 (λ _, t) t t [] (mk_osk_return false []) (mk_snapshot true 2121 (B "/") 2 0 []) false false.
Definition hold_rounds : list round := [hold_round 1000000; hold_round 2000000; hold_round 3500000].

Definition demo_run : list (list Osd.prim) * osd :=
  default ([], osd0) (opftp_osd_run OsdSafe.demo_pad 1 (B "v4.1") None 0 hold_rounds (opftp_server_create None false true) osd0).

Lemma quit_needs_hold_witness :
  (∃ r, r ∈ hold_rounds ∧ r_exit r = true) ∨ ∃ a h b, hold_rounds = a ++ h ++ b ∧ held_for OsdSafe.demo_pad 2000000 h.
Proof.
  apply (quit_needs_hold OsdSafe.demo_pad 1 (B "v4.1") None 0 hold_rounds (opftp_server_create None false true) osd0 (fst demo_run) (snd demo_run)).
  - discriminate.
  - split; [|repeat (constructor; [cbn; lia|]); constructor].
    intros a r0 h r b E. destruct a as [|x [|y [|z a]]]; [|..|destruct a]; try (destruct h as [|w [|v h]]); try discriminate E;
      try (destruct h; discriminate E); injection E; intros; subst; cbn; lia.
  - vm_compute. reflexivity.
  - vm_compute. reflexivity.
Defined.

(** ** SELECT *)

(** The screen with nothing over it, all buttons up, the flash read-only. *)
Record plain (o : osd) : Prop := mk_plain {
  pl_help : u_help (o_ui o) = false;
  pl_detail : u_detail_kind (o_ui o) < 0;
  pl_edit : u_edit_field (o_ui o) = OPFTP_UI_EDIT_NONE;
  pl_prev : prev_d1 o = 0 ∧ prev_d2 o = 0;
  pl_flash : dev_blind_mounted o = false
}.

(** The bits as the SDK documents them: SELECT is in the first word, with the
    directions and START; L2 is in the second word, with the face buttons. *)
Record sdk_bits (pb : pad_bits) : Prop := mk_sdk_bits {
  sb_select : CTRL_SELECT pb = 1; sb_l2 : CTRL_L2 pb = 1;
  sb_start : CTRL_START pb = 8; sb_up : CTRL_UP pb = 16; sb_right : CTRL_RIGHT pb = 32; sb_down : CTRL_DOWN pb = 64; sb_left : CTRL_LEFT pb = 128;
  sb_triangle : CTRL_TRIANGLE pb = 16; sb_circle : CTRL_CIRCLE pb = 32; sb_cross : CTRL_CROSS pb = 64
}.

(** C36. The flash of the console is made writable by the wrong button. With
    the bits of the SDK, pressing SELECT (in the first word of the pad) does
    nothing at all, and pressing L2 (in the second) mounts the flash, because
    the second word is tested for the bit of SELECT. *)
Theorem l2_mounts_flash pb rc now o :
  sdk_bits pb → plain o →
  (∃ o1, handle_input pb rc now (poll_pad (Some (CTRL_SELECT pb, 0)) o) = Some (true, o1) ∧
     o_calls o1 = o_calls o ∧ dev_blind_mounted o1 = false ∧ o_g o1 = o_g o) ∧
  (∃ o2, handle_input pb 0 now (poll_pad (Some (0, CTRL_L2 pb)) o) = Some (true, o2) ∧
     o_calls o2 = o_calls o ++ [X_mount 0; X_log DEV_MOUNTED] ∧ dev_blind_mounted o2 = true).
Proof.
  intros [Es El Est Eu Er Ed Elf Et Ec Ex] [Hh Hd He [Hp1 Hp2] Hf]. unfold handle_input, poll_pad. rewrite Es, El. cbn zeta.
  set (o1 := o <| pad_d1 := u16 1 |> <| pad_d2 := u16 0 |>). set (o2 := o <| pad_d1 := u16 0 |> <| pad_d2 := u16 1 |>).
  change (pad_d1 o1) with 1. change (pad_d2 o1) with 0. change (pad_d1 o2) with 0. change (pad_d2 o2) with 1.
  change (prev_d1 o1) with (prev_d1 o). change (prev_d2 o1) with (prev_d2 o). change (prev_d1 o2) with (prev_d1 o). change (prev_d2 o2) with (prev_d2 o).
  rewrite Hp1, Hp2. split.
  - unfold hold_start. rewrite Est. change (pressed (pad_d1 o1) 8) with false. cbn match. unfold act. rewrite Et, Es, Eu, Er, Ed, Elf, Ec, Ex.
    set (o3 := o1 <| start_hold_us := 0 |>). change (o_ui o3) with (o_ui o). rewrite Hh, He, (proj2 (Z.leb_gt _ _)) by lia.
    eexists. split; [reflexivity|]. split; [done|]. split; [exact Hf|]. reflexivity.
  - unfold hold_start. rewrite Est. change (pressed (pad_d1 o2) 8) with false. cbn match. unfold act. rewrite Et, Es, Ec, Ex.
    set (o3 := o2 <| start_hold_us := 0 |>). change (o_ui o3) with (o_ui o). rewrite Hh, He, (proj2 (Z.leb_gt _ _)) by lia.
    eexists. split; [reflexivity|]. unfold dev_blind_toggle. change (dev_blind_mounted o3) with (dev_blind_mounted o). cbn. rewrite Hf. cbn.
    by rewrite <-app_assoc.
Qed.

Lemma l2_mounts_flash_witness :
  (∃ o1, handle_input OsdSafe.demo_pad 0 5 (poll_pad (Some (CTRL_SELECT OsdSafe.demo_pad, 0)) osd0) = Some (true, o1) ∧
     o_calls o1 = o_calls osd0 ∧ dev_blind_mounted o1 = false ∧ o_g o1 = o_g osd0) ∧
  (∃ o2, handle_input OsdSafe.demo_pad 0 5 (poll_pad (Some (0, CTRL_L2 OsdSafe.demo_pad)) osd0) = Some (true, o2) ∧
     o_calls o2 = o_calls osd0 ++ [X_mount 0; X_log DEV_MOUNTED] ∧ dev_blind_mounted o2 = true).
Proof.
  apply (l2_mounts_flash OsdSafe.demo_pad 0 5 osd0).
  - constructor; reflexivity.
  - constructor; [reflexivity|reflexivity|reflexivity|split; reflexivity|reflexivity].
Defined.

(** ** A keyboard that does not come up *)

(** While the field is edited and the keyboard reports nothing, a round
    changes neither the view nor the field: a keyboard that could not be
    loaded leaves only the help panel and the end of the screen. *)
Theorem edit_waits_for_keyboard pb rc now ret o e o1 :
  u_edit_field (o_ui o) ≠ OPFTP_UI_EDIT_NONE → osk_finished o = false → osk_canceled o = false →
  handle_input pb rc now o = Some (e, o1) →
  osk_process now ret o1 = o1 ∧ u_edit_field (o_ui o1) = u_edit_field (o_ui o) ∧ u_view (o_ui o1) = u_view (o_ui o) ∧ o_calls o1 = o_calls o.
Proof.
  intros He Hf Hc. unfold handle_input, act. cbn zeta. set (o0 := hold_start _ _ o).
  assert (o_ui o0 = o_ui o ∧ osk_finished o0 = false ∧ osk_canceled o0 = false ∧ o_calls o0 = o_calls o) as (E0 & F0 & C0 & L0)
    by (unfold o0, hold_start; by repeat case_match). clearbody o0. rewrite E0, (proj2 (Z.eqb_neq _ _) He). cbn [negb].
  assert (∀ f, (∀ ui, u_edit_field (f ui) = u_edit_field ui ∧ u_view (f ui) = u_view ui) →
    let o1 := on_ui f o0 <| prev_d1 := pad_d1 (on_ui f o0) |> <| prev_d2 := pad_d2 (on_ui f o0) |> in
    osk_process now ret o1 = o1 ∧ u_edit_field (o_ui o1) = u_edit_field (o_ui o) ∧ u_view (o_ui o1) = u_view (o_ui o) ∧ o_calls o1 = o_calls o) as Hk.
  { intros f Hu. cbn zeta. destruct (Hu (o_ui o)) as [U1 U2]. unfold osk_process. cbn. change (Tui.g_ui (o_g o0)) with (o_ui o0).
    rewrite E0, U1, U2, (proj2 (Z.eqb_neq _ _) He), F0, C0, L0. done. }
  assert (o0 = on_ui (λ ui, ui) o0) as Eid by (by destruct o0 as [[]]).
  repeat case_match; cbn [mbind option_bind]; intros [= <- <-];
    first [by apply Hk; intros ui; unfold Tui.help_toggle; case_match | by apply Hk | by rewrite Eid; apply Hk].
Qed.
End OsdKeys.
