(* ===== verification/Lifecycle.v ===== *)
(** * The worker pool and the life of a server (src/datachan.c, src/server.c)

    [worker_step] is one round of a worker thread: it takes the oldest job,
    runs it with [opftp_transfer_run] and posts its completion. The round is
    one step of the state, with the cancel flag as an oracle inside it.
    [exited] and [finished] say what the bounded waits for other threads saw. *)

From S2P Require Import Prelude Types Resolve Sys FsIface FsRooted Dispatch Pollset Queue World.
From S2P Require Import Tls Client Datachan Commands Transfer Server.
Import Client Datachan Commands Transfer Server.

Local Open Scope Z_scope.

Module Lifecycle.

Section Lifecycle.
Context {FS OS : Type} `{FsOps FS} `{SysOps OS}.
Context (custom : nat → option bytes → HM FS OS ()).
Context (connect_hook disconnect_hook : HM FS OS ()).

(** ** Workers *)

Definition worker_enter : SM FS OS () :=
  mod_server (λ s, s <| s_workers_alive := s_workers_alive s + 1 |>).

(** The end of [opftp_transfer_run]: post the completion, wake the reactor. *)
Definition post_completion (id : jid) : SM FS OS () := λ w,
  ((), w <| ss_os := wake_reactor (ss_srv w) (ss_os w) |>
         <| ss_srv := (ss_srv w) <| s_completions := id :: s_completions (ss_srv w) |> |>).

(** [opftp_transfer_run] on a job of the heap, with the [errno] of the
    worker's thread: [false] when the fuel was not enough. *)
Definition run_job (cancel : nat → bool) (e : errno) (fuel : nat) (id : jid) : SM FS OS bool := λ w,
  match ss_jobs w !! id, s_fs (ss_srv w) with
  | Some j, Some r =>
     let '(ok, t) := opftp_transfer_run (ss_srv w) r cancel fuel
                       (mk_tstate j (ss_fs w) e (ss_os w) 0 0) in
     let w' := w <| ss_jobs := <[id := t_job t]> (ss_jobs w) |>
                 <| ss_fs := t_fs t |> <| ss_os := t_os t |> in
     if (ok : bool) then (true, snd (post_completion id w')) else (false, w')
  | _, _ => (false, w)
  end.

Inductive worker_next := W_wait | W_left | W_ran (ok : bool).

(** A round of [opftp_transfer_worker]. *)
Definition worker_step (cancel : nat → bool) (e : errno) (fuel : nat) : SM FS OS worker_next := λ w,
  let s := ss_srv w in
  match Queue.worker_take (s_queue s) with
  | (Some id, q) =>
     let '(ok, w') := run_job cancel e fuel id (w <| ss_srv := s <| s_queue := q |> |>) in
     (W_ran ok, w')
  | (None, _) =>
     if s_pool_running s then (W_wait, w)
     else (W_left, w <| ss_srv := s <| s_workers_alive := s_workers_alive s - 1 |> |>)
  end.

(** ** Shutdown *)

(** Setting the flag of a queued job, and a byte on its pipe. *)
Definition cancel_queued (id : jid) : SM FS OS () := λ w,
  match ss_jobs w !! id with
  | Some j => ((), w <| ss_jobs := <[id := j <| j_cancelled := true |>]> (ss_jobs w) |>
                     <| ss_os := sys_wake (snd (j_cancel_pipe j)) (ss_os w) |>)
  | None => ((), w)
  end.

(** Freeing a job no worker took. *)
Definition free_queued (id : jid) : SM FS OS () := λ w,
  match ss_jobs w !! id with
  | Some j =>
     focus (j_client j)
       (_ ← (if 0 <=? j_data_fd j then opftp_close_fd (j_data_fd j) else mret ());
        _ ← (if 0 <=? j_pasv_fd j then opftp_close_fd (j_pasv_fd j) else mret ());
        _ ← opftp_close_fd (fst (j_cancel_pipe j));
        _ ← opftp_close_fd (snd (j_cancel_pipe j));
        _ ← opftp_client_release;
        st_modify (λ h, h <| h_jobs := delete id (h_jobs h) |>)) w
  | None => ((), w)
  end.

Fixpoint each_job (f : jid → SM FS OS ()) (ids : list jid) : SM FS OS () :=
  match ids with [] => mret () | i :: ids' => _ ← f i; each_job f ids' end.

Definition opftp_datachan_shutdown (exited : bool) : SM FS OS () :=
  s ← get_server;
  if negb (s_pool_running s) && (s_workers_alive s =? 0) then mret ()
  else
    _ ← mod_server (λ s, s <| s_pool_running := false |>);
    _ ← each_job cancel_queued (Queue.queued (s_queue s));
    if negb exited then mret ()
    else
      _ ← mod_server (λ s, s <| s_num_workers := 0 |>);
      s' ← get_server;
      _ ← each_job free_queued (Queue.queued (s_queue s'));
      mod_server (λ s, s <| s_queue := Queue.mk_ring [] 0 0 0 (Queue.q_cap (s_queue s)) |>).

Definition opftp_reactor_shutdown (exited : bool) : SM FS OS () :=
  s ← get_server;
  _ ← mod_server (λ s, s <| s_pollset := None |>);
  _ ← opftp_datachan_shutdown exited;
  _ ← (match s_pollset s with
       | Some ps => st_modify (λ w, w <| ss_os := Pollset.opftp_pollset_destroy ps (ss_os w) |>)
       | None => mret ()
       end);
  mod_server (λ s, s <| s_fs := None |> <| s_dispatch := Dispatch.opftp_dispatch_free (s_dispatch s) |>).

(** ** Start and stop *)

(** [opftp_reactor_init] on the whole state. *)
Definition reactor_init (after : cmd_table → cmd_table) (spawned : bool) : SM FS OS (res ()) := λ w,
  let '(rc, s, os) := opftp_reactor_init after spawned (ss_srv w) (ss_os w) in
  (rc, w <| ss_srv := s |> <| ss_os := os |>).

(** [opftp_server_start]; [thread] tells whether the reactor thread could be
    created. *)
Definition opftp_server_start (after : cmd_table → cmd_table) (spawned thread exited : bool)
  : SM FS OS (res ()) :=
  s ← get_server;
  if s_started s then mret (Err EALREADY)
  else
    _ ← mod_server (λ s, s <| s_starting := true |>);
    rc ← reactor_init after spawned;
    match rc with
    | Err e => _ ← mod_server (λ s, s <| s_starting := false |>); mret (Err e)
    | Ok _ =>
       _ ← mod_server (λ s, s <| s_started := true |> <| s_reactor_done := false |>
                              <| s_stopping := false |>);
       if (thread : bool) then
         _ ← mod_server (λ s, publish_ready (s <| s_reactor_running := true |>)); mret (Ok ())
       else
         _ ← mod_server (λ s, s <| s_started := false |> <| s_starting := false |>);
         _ ← opftp_reactor_shutdown exited;
         mret (Err ENOMEM)
    end.

(** [opftp_server_run_loop], for at most [rounds] iterations of the loop:
    [None] when it is still running after them. *)
Definition opftp_server_run_loop (after : cmd_table → cmd_table) (spawned exited : bool)
  (rounds fuel : nat) : SM FS OS (option (res ())) :=
  s ← get_server;
  if s_started s then mret (Some (Err EALREADY))
  else
    _ ← mod_server (λ s, s <| s_starting := true |>);
    rc ← reactor_init after spawned;
    match rc with
    | Err e => _ ← mod_server (λ s, s <| s_starting := false |>); mret (Some (Err e))
    | Ok _ =>
       _ ← mod_server (λ s, publish_ready (s <| s_started := true |> <| s_reactor_running := false |>
                                             <| s_stopping := false |>));
       fin ← opftp_reactor_loop custom connect_hook disconnect_hook rounds fuel;
       if negb fin then mret None
       else
         _ ← opftp_reactor_shutdown exited;
         _ ← mod_server (λ s, s <| s_started := false |>);
         mret (Some (Ok ()))
    end.

(** [opftp_server_stop] past the wait for readiness. *)
Definition opftp_server_stop (finished exited : bool) : SM FS OS (res ()) :=
  s ← get_server;
  if negb (s_ready s) then mret (Ok ())
  else
    _ ← mod_server (λ s, s <| s_stopping := true |>);
    _ ← st_modify (λ w, w <| ss_os := wake_reactor (ss_srv w) (ss_os w) |>);
    if s_reactor_running s then
      if negb finished then mret (Err ETIMEDOUT)
      else
        _ ← mod_server (λ s, s <| s_reactor_running := false |>);
        _ ← opftp_reactor_shutdown exited;
        _ ← mod_server (λ s, s <| s_started := false |>);
        mret (Ok ())
    else mret (Ok ()).

(** [opftp_server_destroy]: whether the object was freed; it is not when the
    stop fails. The TLS context goes with [opftp_tls_ctx_free]. *)
Definition opftp_server_destroy (finished exited : bool) : SM FS OS (bool * list Tls.tls_call) :=
  s ← get_server;
  rc ← (if s_started s then opftp_server_stop finished exited else mret (Ok ()));
  match rc with
  | Err _ => mret (false, [])
  | Ok _ => mret (true, if s_tls s then Tls.opftp_tls_ctx_free else [])
  end.

End Lifecycle.

End Lifecycle.
