(* ===== verification/LegacyServer.v ===== *)
(** * legacy/src/ftpserver.c: the life of a legacy server

    [struct Server] is a facade: [server_run] creates a core server, notes the
    pair in a side table of four entries, configures the core, runs its loop
    and takes everything down again; [server_stop] finds the core through the
    table. The side table of the clients works the same way.

    Several servers may run at once, each on a thread of its own, and any
    thread may call [server_stop]. The machine below takes the steps of
    [server_run] one at a time, in any interleaving: the search of the table
    entry by entry, the three writes that take an entry, the configuration,
    the flags, the core's loop, the release of the core and the release of the
    entry; and the two steps of [server_stop]: the flag with the search, and
    the call on the core it found. One access to the table or to the flags is
    one step; [opftp_server_stop] itself is one step here. Touching a core
    that was released is a fault ([None]). The table has no lock: two servers
    that search it at once can take the same entry ([starts_race]). *)

From S2P Require Import Prelude Types World Avl Legacy Server.
Import Avl Legacy Server.

Local Open Scope Z_scope.

Module LegacyServer.

(** ** The side tables *)

Section Table.
Context {K V : Type} `{EqDecision K}.

(** An entry: [legacy], and what it stands for; an unused one keeps what it
    held. *)
Record slot := mk_slot { sl_legacy : option K; sl_val : option V; sl_used : bool }.
Definition free_slot : slot := mk_slot None None false.

Definition shim_register (k : K) (v : V) (t : list slot) : option nat * list slot :=
  match list_find (λ e, sl_used e = false) t with
  | Some (i, _) => (Some i, <[i := mk_slot (Some k) (Some v) true]> t)
  | None => (None, t)
  end.

Definition shim_find (k : K) (t : list slot) : option (nat * slot) :=
  list_find (λ e, sl_used e = true ∧ sl_legacy e = Some k) t.

Definition shim_unregister (i : option nat) (t : list slot) : list slot :=
  match i with
  | Some i => alter (λ e, mk_slot (sl_legacy e) (sl_val e) false) i t
  | None => t
  end.

(** The entry of [k], if there is one. *)
Definition entry_at (t : list slot) (i : nat) (k : K) (v : V) : Prop := t !! i = Some (mk_slot (Some k) (Some v) true).

(** The table holds each key once. *)
Definition table_ok (t : list slot) : Prop :=
  ∀ i e, t !! i = Some e → sl_used e = true → ∃ k v, e = mk_slot (Some k) (Some v) true ∧
    ∀ j v', entry_at t j k v' → j = i.

Lemma entry_key_unique t i j k v v' : table_ok t → entry_at t i k v → entry_at t j k v' → i = j ∧ v = v'.
Proof.
  intros Ht Hi Hj. destruct (Ht i _ Hi eq_refl) as (k' & w & [= <- <-] & Hu). assert (j = i) as -> by (by eapply Hu). split; [done|].
  unfold entry_at in *. congruence.
Qed.

Lemma shim_find_entry t i k v : table_ok t → entry_at t i k v → shim_find k t = Some (i, mk_slot (Some k) (Some v) true).
Proof.
  intros Ht Hi. unfold shim_find. destruct (list_find _ t) as [[j e]|] eqn:E.
  - apply list_find_Some in E as (Hj & [Hu Hk] & _). destruct (Ht j e Hj Hu) as (k' & w & -> & Hq). cbn in Hk. injection Hk as ->.
    assert (i = j) as -> by (by eapply Hq). unfold entry_at in Hi. congruence.
  - apply list_find_None in E. rewrite Forall_lookup in E. exfalso. by eapply (E i).
Qed.

Lemma shim_find_none t k : table_ok t → (∀ i v, ¬ entry_at t i k v) → shim_find k t = None.
Proof.
  intros Ht Hn. unfold shim_find. apply list_find_None. apply Forall_lookup. intros i e He [Hu Hk].
  destruct (Ht i e He Hu) as (k' & v & -> & _). cbn in Hk. injection Hk as ->. by apply (Hn i v).
Qed.

(** An unused entry is filled. *)
Lemma fill_slot t i e k v : table_ok t → (∀ j w, ¬ entry_at t j k w) → t !! i = Some e → sl_used e = false →
  let t' := <[i := mk_slot (Some k) (Some v) true]> t in
  table_ok t' ∧ entry_at t' i k v ∧ (∀ j k' w, k' ≠ k → entry_at t' j k' w ↔ entry_at t j k' w).
Proof.
  intros Ht Hn Hi Hf t'. pose proof (lookup_lt_Some _ _ _ Hi) as Hl.
  assert (∀ j k' w, k' ≠ k → entry_at t' j k' w ↔ entry_at t j k' w) as Ho.
  { intros j k' w Hk. unfold entry_at, t'. destruct (decide (i = j)) as [<-|Hne]; [|by rewrite list_lookup_insert_ne].
    rewrite list_lookup_insert_eq by done. rewrite Hi. split; [congruence|]. intros [= ->]. done. }
  split_and!; [|unfold entry_at, t'; by rewrite list_lookup_insert_eq|done].
  intros j f Hj Hu. unfold t' in Hj. destruct (decide (i = j)) as [<-|Hne].
  - rewrite list_lookup_insert_eq in Hj by done. injection Hj as <-. exists k, v. split; [done|].
    intros j w Hj. destruct (decide (i = j)) as [|Hne]; [done|]. unfold entry_at, t' in Hj. rewrite list_lookup_insert_ne in Hj by done.
    by destruct (Hn j w).
  - rewrite list_lookup_insert_ne in Hj by done. destruct (Ht j f Hj Hu) as (k' & w & -> & Hq). exists k', w. split; [done|].
    assert (k' ≠ k) as Hk by (intros ->; by apply (Hn j w)). intros j' w' Hj'. eapply Hq. by apply Ho in Hj'.
Qed.

(** An unused entry is written and stays unused. *)
Lemma scribble_slot t i e e' : table_ok t → t !! i = Some e → sl_used e = false → sl_used e' = false →
  table_ok (<[i := e']> t) ∧ (∀ j k w, entry_at (<[i := e']> t) j k w ↔ entry_at t j k w).
Proof.
  intros Ht Hi Hf Hf'. pose proof (lookup_lt_Some _ _ _ Hi) as Hl.
  assert (∀ j x, sl_used x = true → <[i := e']> t !! j = Some x ↔ t !! j = Some x) as Ho.
  { intros j x Hx. destruct (decide (i = j)) as [<-|Hne]; [|by rewrite list_lookup_insert_ne].
    rewrite list_lookup_insert_eq, Hi by done. split; intros [= ->]; congruence. }
  split; [|intros j k w; by apply Ho]. intros j x Hj Hx. apply Ho in Hj; [|done]. destruct (Ht j x Hj Hx) as (k & v & -> & Hq).
  exists k, v. split; [done|]. intros j' w Hj'. apply (Hq j' w). by apply Ho.
Qed.

Lemma shim_register_None t k v t' : shim_register k v t = (None, t') → t' = t ∧ Forall (λ e, sl_used e = true) t.
Proof.
  unfold shim_register. destruct (list_find _ t) as [[i0 e]|] eqn:E; [done|]. intros [= <-]. split; [done|].
  apply list_find_None in E. eapply Forall_impl; [exact E|]. intros e' He. destruct (sl_used e') eqn:Eu; [done|by destruct He].
Qed.

Lemma shim_unregister_entry t k v i : table_ok t → entry_at t i k v →
  table_ok (shim_unregister (Some i) t) ∧ (∀ j w, ¬ entry_at (shim_unregister (Some i) t) j k w) ∧
  (∀ j k' w, k' ≠ k → entry_at (shim_unregister (Some i) t) j k' w ↔ entry_at t j k' w).
Proof.
  intros Ht Hi. unfold shim_unregister. set (t' := alter _ i t).
  assert (∀ j e, t' !! j = Some e → sl_used e = true → j ≠ i ∧ t !! j = Some e) as Hb.
  { intros j e Hj Hu. unfold t' in Hj. destruct (decide (i = j)) as [<-|Hne].
    - rewrite list_lookup_alter_eq, Hi in Hj. injection Hj as <-. done.
    - by rewrite list_lookup_alter_ne in Hj. }
  assert (∀ j k' w, k' ≠ k → entry_at t' j k' w ↔ entry_at t j k' w) as Ho.
  { intros j k' w Hk. unfold entry_at, t'. destruct (decide (i = j)) as [<-|Hne]; [|by rewrite list_lookup_alter_ne].
    rewrite list_lookup_alter_eq. rewrite Hi. cbn. split; congruence. }
  split_and!; [| |done].
  - intros j e Hj Hu. destruct (Hb j e Hj Hu) as [Hne Hj']. destruct (Ht j e Hj' Hu) as (k' & w & -> & Hq). exists k', w. split; [done|].
    intros j' w' Hj2. eapply Hq. by apply Hb in Hj2 as [_ ?].
  - intros j w Hj. destruct (Hb j _ Hj eq_refl) as [Hne Hj']. by destruct (entry_key_unique t i j k v w Ht Hi Hj').
Qed.

End Table.
#[global] Arguments slot : clear implicits.


(** [shim_clients]: a legacy client, its core client and the executor's state;
    [events] of an entry taken again is what it was. *)
Definition SHIM_MAX_CLIENTS : nat := 64.
Definition shim_client_register (legacy core : nat) (stale : Z) (t : list (slot nat (nat * Legacy.shim_client)))
  : option nat * list (slot nat (nat * Legacy.shim_client)) :=
  shim_register legacy (core, Legacy.mk_shim false false false stale) t.
Definition shim_client_find (legacy : nat) (t : list (slot nat (nat * Legacy.shim_client))) := shim_find legacy t.
Definition shim_client_find_core (core : nat) (t : list (slot nat (nat * Legacy.shim_client))) :=
  list_find (λ e, sl_used e = true ∧ fst <$> sl_val e = Some core) t.
Definition shim_client_unregister (i : option nat) (t : list (slot nat (nat * Legacy.shim_client))) := shim_unregister i t.

(** [shim_servers]. *)
Definition SHIM_MAX_SERVERS : nat := 4.
Definition shim_server_register (legacy core : nat) (t : list (slot nat nat)) := shim_register legacy core t.
Definition shim_server_find (legacy : nat) (t : list (slot nat nat)) := shim_find legacy t.
Definition shim_server_unregister (i : option nat) (t : list (slot nat nat)) := shim_unregister i t.

(** ** The facade *)

(** The rest of [struct Server]; [Legacy.Server] has [pollfds], [clients],
    [should_stop] and whether there is a [pool]. *)
Record facade := mk_facade {
  fc_command : nat; fc_running : bool; fc_port : Z; fc_srv : Legacy.Server; fc_pool_running : bool
}.
#[export] Instance facade_settable : Settable facade := λ x,
  mk_facade (fc_command x) (fc_running x) (fc_port x) (fc_srv x) (fc_pool_running x).

(** [pool] tells whether [threadpool_create] succeeded. *)
Definition server_init (pool : bool) (command : nat) (port : Z) : facade :=
  mk_facade command false (u16 port) (Legacy.mk_server [] avltree_create false pool) false.

Definition set_should_stop (b : bool) (f : facade) : facade :=
  f <| fc_srv := (fc_srv f) <| Legacy.sv_should_stop := b |> |>.

Definition NUM_THREADS : Z := 2.

(** The core [server_run] configures. *)
Definition run_core (f : facade) : opftp_server :=
  opftp_server_set_stop_timeout 5
    (opftp_server_set_workers NUM_THREADS
      (opftp_server_set_root (B "/")
        (opftp_server_set_port (fc_port f) (opftp_server_create None true true)))).

(** [server_free] on the facade; the rest is memory. *)
Definition server_free (f : facade) : facade :=
  f <| fc_srv := Legacy.mk_server [] avltree_create (Legacy.sv_should_stop (fc_srv f)) false |> <| fc_pool_running := false |>.

(** ** Servers that run at once *)

(** Where a call of [server_run] is, with its table entry and its core: in the
    search of [shim_server_register], at entry [i]; before each of its three
    writes to entry [i]; registered; configured; in the core's loop; past it;
    past the release of the core. *)
Inductive run_pc :=
  | R_scan (i core : nat) | R_legacy (i core : nat) | R_core (i core : nat) | R_used (i core : nat)
  | R_registered (ss core : nat) | R_configured (ss core : nat) | R_loop (ss core : nat) | R_done (ss core : nat)
  | R_freed (ss core : nat).

Record machine := mk_machine {
  m_cores : gmap nat (nat * opftp_server);   (* the cores that are alive, with their owner *)
  m_next : nat;
  m_table : list (slot nat nat);
  m_facades : gmap nat facade;
  m_runs : gmap nat run_pc;
  m_pending : list (nat * nat);              (* calls of server_stop that found a core and have not used it yet *)
  m_stops : list nat;                        (* the cores opftp_server_stop was called on, in order *)
  m_returned : list (nat * Z)                (* what calls of server_run returned *)
}.
#[export] Instance machine_settable : Settable machine := λ x,
  mk_machine (m_cores x) (m_next x) (m_table x) (m_facades x) (m_runs x) (m_pending x) (m_stops x) (m_returned x).

Definition machine0 : machine := mk_machine ∅ 0 (replicate SHIM_MAX_SERVERS free_slot) ∅ ∅ [] [] [].

(** [server_run] up to [shim_server_register]; [created] tells whether there
    was memory for the core. *)
Definition server_run_create (created : bool) (s : nat) (m : machine) : machine :=
  if negb created then m <| m_returned := m_returned m ++ [(s, 1)] |>
  else
    let core := m_next m in
    m <| m_next := S core |> <| m_cores := <[core := (s, opftp_server_create None true true)]> (m_cores m) |>
      <| m_runs := <[s := R_scan 0 core]> (m_runs m) |>.

(** The next step of [server_run]; [rc] is what the core's loop returned. *)
Definition server_run_step (rc : bool) (s : nat) (f : facade) (pc : run_pc) (m : machine) : machine :=
  let goto pc := m <| m_runs := <[s := pc]> (m_runs m) |> in
  let write i g pc := goto pc <| m_table := alter g i (m_table m) |> in
  match pc with
  | R_scan i core =>
     match m_table m !! i with
     | None =>
        m <| m_cores := delete core (m_cores m) |> <| m_runs := delete s (m_runs m) |>
          <| m_returned := m_returned m ++ [(s, 1)] |>
     | Some e => goto (if sl_used e then R_scan (S i) core else R_legacy i core)
     end
  | R_legacy i core => write i (λ e, mk_slot (Some s) (sl_val e) (sl_used e)) (R_core i core)
  | R_core i core => write i (λ e, mk_slot (sl_legacy e) (Some core) (sl_used e)) (R_used i core)
  | R_used i core => write i (λ e, mk_slot (sl_legacy e) (sl_val e) true) (R_registered i core)
  | R_registered ss core =>
     write ss (λ e, mk_slot (Some s) (sl_val e) (sl_used e)) (R_configured ss core)
       <| m_cores := <[core := (s, run_core f)]> (m_cores m) |>
  | R_configured ss core =>
     goto (R_loop ss core)
       <| m_facades := <[s := set_should_stop false f <| fc_running := true |>
                                <| fc_pool_running := Legacy.sv_pool (fc_srv f) |>]> (m_facades m) |>
  | R_loop ss core =>
     goto (R_done ss core)
       <| m_facades := <[s := f <| fc_running := false |> <| fc_pool_running := false |>]> (m_facades m) |>
  | R_done ss core => goto (R_freed ss core) <| m_cores := delete core (m_cores m) |>
  | R_freed ss core =>
     m <| m_table := shim_server_unregister (Some ss) (m_table m) |> <| m_runs := delete s (m_runs m) |>
       <| m_returned := m_returned m ++ [(s, if rc then 0 else 1)] |>
  end.

(** [server_stop] up to the core it found. *)
Definition server_stop (s : nat) (f : facade) (m : machine) : machine :=
  let m := m <| m_facades := <[s := set_should_stop true f]> (m_facades m) |> in
  match shim_server_find s (m_table m) with
  | Some (_, mk_slot _ (Some core) _) => m <| m_pending := m_pending m ++ [(s, core)] |>
  | _ => m
  end.

(** Its call of [opftp_server_stop], the [j]th of those under way; [None] when
    the core is gone. *)
Definition server_stop_call (j : nat) (m : machine) : option machine :=
  match m_pending m !! j with
  | Some (_, core) =>
     _ ← m_cores m !! core;
     Some (m <| m_pending := delete j (m_pending m) |> <| m_stops := m_stops m ++ [core] |>)
  | None => Some m
  end.

Inductive event :=
  | E_init (s : nat) (pool : bool) (command : nat) (port : Z)
  | E_run (s : nat) (created : bool)
  | E_step (s : nat) (rc : bool)
  | E_bound (s : nat) (port : Z)          (* shim_after_commands *)
  | E_stop (s : nat)
  | E_stop_call (j : nat)
  | E_free (s : nat).

(** A step; an event that cannot happen now does nothing. A facade is set up
    and freed only while it does not run, and runs once at a time. *)
Definition step (e : event) (m : machine) : option machine :=
  match e with
  | E_init s pool command port =>
     match m_runs m !! s with
     | None => Some (m <| m_facades := <[s := server_init pool command port]> (m_facades m) |>)
     | Some _ => Some m
     end
  | E_run s created =>
     match m_facades m !! s, m_runs m !! s with
     | Some f, None => Some (server_run_create created s m)
     | _, _ => Some m
     end
  | E_step s rc =>
     match m_facades m !! s, m_runs m !! s with
     | Some f, Some pc => Some (server_run_step rc s f pc m)
     | _, _ => Some m
     end
  | E_bound s port =>
     match m_facades m !! s, m_runs m !! s with
     | Some f, Some (R_loop _ _) => Some (m <| m_facades := <[s := f <| fc_port := u16 port |>]> (m_facades m) |>)
     | _, _ => Some m
     end
  | E_stop s => match m_facades m !! s with Some f => Some (server_stop s f m) | None => Some m end
  | E_stop_call j => server_stop_call j m
  | E_free s =>
     match m_facades m !! s, m_runs m !! s with
     | Some f, None =>
        Some (m <| m_facades := <[s := server_free f]> (m_facades m) |>
                <| m_table := shim_server_unregister (fst <$> shim_server_find s (m_table m)) (m_table m) |>)
     | _, _ => Some m
     end
  end.

Fixpoint run (es : list event) (m : machine) : option machine :=
  match es with [] => Some m | e :: es' => m ← step e m; run es' m end.

Lemma run_app es es' m : run (es ++ es') m = m ← run es m; run es' m.
Proof. revert m. induction es as [|e es IH]; intros m; [done|]. cbn. destruct (step e m); cbn; [apply IH|done]. Qed.

(** ** The table follows the runs *)

(** Between the creation of the core and the last write to the entry. *)
Definition registering (pc : run_pc) : bool :=
  match pc with R_scan _ _ | R_legacy _ _ | R_core _ _ | R_used _ _ => true | _ => false end.
Definition none_registering (m : machine) : Prop := map_Forall (λ _ pc, registering pc = false) (m_runs m).

(** Every [server_run] of the sequence is entered while no other registers. *)
Fixpoint starts_alone (es : list event) (m : machine) : bool :=
  match es with
  | [] => true
  | e :: es' =>
     (match e with E_run _ _ => bool_decide (none_registering m) | _ => true end) &&
     match step e m with Some m' => starts_alone es' m' | None => true end
  end.

Definition pc_core (pc : run_pc) : nat :=
  match pc with
  | R_scan _ c | R_legacy _ c | R_core _ c | R_used _ c | R_registered _ c | R_configured _ c | R_loop _ c | R_done _ c
  | R_freed _ c => c
  end.
Definition pc_entry (pc : run_pc) : option (nat * nat) :=
  match pc with
  | R_registered ss c | R_configured ss c | R_loop ss c | R_done ss c | R_freed ss c => Some (ss, c)
  | _ => None
  end.
Definition pc_alive (pc : run_pc) : option nat := match pc with R_freed _ _ => None | _ => Some (pc_core pc) end.

(** What the writes so far have left in the entry being taken. *)
Definition pc_writes (s : nat) (pc : run_pc) (t : list (slot nat nat)) : Prop :=
  match pc with
  | R_legacy i _ => ∃ e, t !! i = Some e ∧ sl_used e = false
  | R_core i _ => ∃ v, t !! i = Some (mk_slot (Some s) v false)
  | R_used i c => t !! i = Some (mk_slot (Some s) (Some c) false)
  | _ => True
  end.

Record machine_ok (m : machine) : Prop := mk_machine_ok {
  mo_table : table_ok (m_table m);
  mo_length : length (m_table m) = SHIM_MAX_SERVERS;
  (** the entries are those of the calls past their registration *)
  mo_entries i s c : entry_at (m_table m) i s c ↔ ∃ pc, m_runs m !! s = Some pc ∧ pc_entry pc = Some (i, c);
  (** the cores alive are those not released, each with its owner *)
  mo_cores c s : (∃ k, m_cores m !! c = Some (s, k)) ↔ ∃ pc, m_runs m !! s = Some pc ∧ pc_alive pc = Some c;
  mo_fresh s pc : m_runs m !! s = Some pc → (pc_core pc < m_next m)%nat;
  mo_facades s pc : m_runs m !! s = Some pc → is_Some (m_facades m !! s);
  mo_once s s' pc pc' : m_runs m !! s = Some pc → m_runs m !! s' = Some pc' → pc_core pc = pc_core pc' → s = s';
  mo_alone s s' pc pc' : m_runs m !! s = Some pc → m_runs m !! s' = Some pc' → registering pc = true → registering pc' = true → s = s';
  mo_writes s pc : m_runs m !! s = Some pc → pc_writes s pc (m_table m);
  (** the core a call of [server_stop] found is nobody else's *)
  mo_pending s c : (s, c) ∈ m_pending m → (c < m_next m)%nat ∧ ∀ o k, m_cores m !! c = Some (o, k) → o = s
}.

Lemma machine0_ok : machine_ok machine0.
Proof.
  assert (∀ i e, m_table machine0 !! i = Some e → sl_used e = false) as Hf.
  { intros i e He. apply lookup_replicate in He as [-> _]. done. }
  split; try done; cbn [machine0 m_runs m_cores m_facades].
  - intros i e He Hu. by rewrite (Hf i e He) in Hu.
  - intros i s c. split; [intros He; by apply Hf in He|by intros (pc & ? & _)].
  - intros c s. split; [by intros [k Hk]|by intros (pc & ? & _)].
  - intros s c Hin. by apply elem_of_nil in Hin.
Qed.

(** Changing facades only. *)
Lemma facades_ok m fs stops ret : machine_ok m → (∀ s pc, m_runs m !! s = Some pc → is_Some (fs !! s)) →
  machine_ok (mk_machine (m_cores m) (m_next m) (m_table m) fs (m_runs m) (m_pending m) stops ret).
Proof. intros [] H. by split. Qed.

Lemma insert_facade_ok m s f s' pc : machine_ok m → m_runs m !! s' = Some pc → is_Some (<[s := f]> (m_facades m) !! s').
Proof. intros Hm Hs. destruct (decide (s = s')) as [<-|]; [by rewrite lookup_insert_eq|]. rewrite lookup_insert_ne by done. by eapply mo_facades. Qed.

Lemma pending_ok m ps : machine_ok m → (∀ s c, (s, c) ∈ ps → (c < m_next m)%nat ∧ ∀ o k, m_cores m !! c = Some (o, k) → o = s) →
  machine_ok (mk_machine (m_cores m) (m_next m) (m_table m) (m_facades m) (m_runs m) ps (m_stops m) (m_returned m)).
Proof. intros [] H. by split. Qed.

Lemma no_entry m s : machine_ok m → (∀ pc, m_runs m !! s = Some pc → pc_entry pc = None) → ∀ i c, ¬ entry_at (m_table m) i s c.
Proof. intros Hm Hs i c He. apply (mo_entries m Hm) in He as (pc & Hp & E). by rewrite (Hs pc Hp) in E. Qed.

(** One call of [server_run] moves on, or returns ([pc'] is [None]); the
    table and the cores of the others stay as they are. *)
Lemma pc_move m s pc pc' cores t fs ret : machine_ok m → m_runs m !! s = Some pc →
  table_ok t → length t = SHIM_MAX_SERVERS → (∀ s' pc, m_runs m !! s' = Some pc → is_Some (fs !! s')) →
  (∀ i k c, k ≠ s → entry_at t i k c ↔ entry_at (m_table m) i k c) →
  (∀ i c, entry_at t i s c ↔ pc' ≫= pc_entry = Some (i, c)) →
  (∀ c k, k ≠ s → (∃ x, cores !! c = Some (k, x)) ↔ (∃ x, m_cores m !! c = Some (k, x))) →
  (∀ c, (∃ x, cores !! c = Some (s, x)) ↔ pc' ≫= pc_alive = Some c) →
  (∀ q, pc' = Some q → pc_core q = pc_core pc ∧ (registering q = true → registering pc = true) ∧
     (is_Some (pc_alive q) → is_Some (pc_alive pc)) ∧ pc_writes s q t) →
  (registering pc = true ∨ ∀ i e, m_table m !! i = Some e → sl_used e = false → t !! i = Some e) →
  machine_ok (mk_machine cores (m_next m) t fs (partial_alter (λ _, pc') s (m_runs m)) (m_pending m) (m_stops m) ret).
Proof.
  intros Hm Hs Ht Hl Hfs Ho Hse Hco Hsc Hq Hw. set (runs := partial_alter _ _ _).
  assert (∀ k p, runs !! k = Some p → k ≠ s ∧ m_runs m !! k = Some p ∨ k = s ∧ pc' = Some p) as Hr.
  { intros k p. unfold runs. destruct (decide (k = s)) as [->|Hne]; [rewrite lookup_partial_alter_eq; by right|].
    rewrite lookup_partial_alter_ne by done. by left. }
  assert (∀ k, k ≠ s → runs !! k = m_runs m !! k) as Hne by (intros; unfold runs; by rewrite lookup_partial_alter_ne).
  assert (runs !! s = pc') as Hrs by (unfold runs; by rewrite lookup_partial_alter_eq).
  assert (∀ k p, runs !! k = Some p → ∃ p0, m_runs m !! k = Some p0 ∧ pc_core p0 = pc_core p ∧ (registering p = true → registering p0 = true)) as Hb.
  { intros k p [[Hk Hp]|[-> Hp]]%Hr; [by exists p|]. destruct (Hq p Hp) as (H1 & H2 & _). by exists pc. }
  split; cbn; [done|done|..].
  - intros i k c. destruct (decide (k = s)) as [->|Hk].
    + rewrite Hse, Hrs. destruct pc' as [q|]; cbn; [|split; [done|by intros (? & ? & _)]]. split; [by exists q|by intros (? & [= <-] & ?)].
    + rewrite Ho, Hne by done. apply (mo_entries _ Hm).
  - intros c k. destruct (decide (k = s)) as [->|Hk].
    + rewrite Hsc, Hrs. destruct pc' as [q|]; cbn; [|split; [done|by intros (? & ? & _)]]. split; [by exists q|by intros (? & [= <-] & ?)].
    + rewrite Hco, Hne by done. apply (mo_cores _ Hm).
  - intros k p (p0 & Hp & <- & _)%Hb. by eapply (mo_fresh _ Hm).
  - intros k p (p0 & Hp & _)%Hb. by eapply Hfs.
  - intros k k' p p' (p0 & Hp & E & _)%Hb (p0' & Hp' & E' & _)%Hb He. eapply (mo_once _ Hm); [done|done|congruence].
  - intros k k' p p' (p0 & Hp & _ & E)%Hb (p0' & Hp' & _ & E')%Hb He He'. eapply (mo_alone _ Hm); eauto.
  - intros k p [[Hk Hp]|[-> Hp]]%Hr; [|by apply Hq]. pose proof (mo_writes _ Hm k p Hp) as Hpw.
    destruct Hw as [Hreg|Hkeep].
    + destruct (registering p) eqn:Er; [by destruct Hk; eapply (mo_alone _ Hm)|by destruct p].
    + destruct p; cbn in *; try done; [|destruct Hpw as [v Hv]; exists v|]; try by apply Hkeep.
      destruct Hpw as (e & He & Hu). exists e. split; [by apply Hkeep|done].
  - intros k c Hin. destruct (mo_pending _ Hm _ _ Hin) as [H1 H2]. split; [done|]. intros o x Hx.
    destruct (decide (o = s)) as [->|Hne'].
    + pose proof (proj1 (Hsc c) (ex_intro _ x Hx)) as H. destruct pc' as [q|]; [|done]. cbn in *. destruct (Hq q eq_refl) as (E1 & _ & E2 & _).
      assert (pc_alive pc = Some c) as Ea. { destruct (E2 (ex_intro _ c H)) as [c' Hc']. destruct q, pc; cbn in *; congruence. }
      destruct (proj2 (mo_cores _ Hm c s)) as [y Hy]; [by exists pc|]. by eapply H2.
    + destruct (proj1 (Hco c o Hne') (ex_intro _ x Hx)) as [y Hy]. by eapply H2.
Qed.

Section Moves.
Context (m : machine) (s : nat) (pc : run_pc) (Hm : machine_ok m) (Hs : m_runs m !! s = Some pc).
#[local] Notation core := (pc_core pc).

Lemma own_entry i c : entry_at (m_table m) i s c ↔ pc_entry pc = Some (i, c).
Proof. rewrite (mo_entries _ Hm), Hs. split; [by intros (? & [= <-] & ?)|by exists pc]. Qed.

Lemma own_core c : (∃ x, m_cores m !! c = Some (s, x)) ↔ pc_alive pc = Some c.
Proof. rewrite (mo_cores _ Hm), Hs. split; [by intros (? & [= <-] & ?)|by exists pc]. Qed.

Lemma other_core_delete c k : pc_alive pc = Some core → k ≠ s →
  (∃ x, delete core (m_cores m) !! c = Some (k, x)) ↔ (∃ x, m_cores m !! c = Some (k, x)).
Proof.
  intros [y Hy]%own_core Hk. destruct (decide (c = core)) as [->|Hne]; [|by rewrite lookup_delete_ne].
  rewrite lookup_delete_eq, Hy. split; [by intros [x ?]|]. intros [x [= -> _]]. done.
Qed.

Lemma own_core_delete c : pc_alive pc = Some core → ¬ ∃ x, delete core (m_cores m) !! c = Some (s, x).
Proof.
  intros Ha [x Hx]. destruct (decide (c = core)) as [->|Hne]; [by rewrite lookup_delete_eq in Hx|]. rewrite lookup_delete_ne in Hx by done.
  pose proof (proj1 (own_core c) (ex_intro _ x Hx)) as E. rewrite Ha in E. congruence.
Qed.

Lemma goto_ok q fs : (∀ s' pc, m_runs m !! s' = Some pc → is_Some (fs !! s')) →
  pc_entry q = pc_entry pc → pc_alive q = pc_alive pc → pc_core q = core → (registering q = true → registering pc = true) →
  pc_writes s q (m_table m) →
  machine_ok (mk_machine (m_cores m) (m_next m) (m_table m) fs (<[s := q]> (m_runs m)) (m_pending m) (m_stops m) (m_returned m)).
Proof.
  intros Hfs He Ha Hc Hr Hw. apply (pc_move m s pc (Some q)); [done|done|apply Hm|apply Hm|done|done| |done| | |].
  - intros i c. rewrite own_entry. cbn. by rewrite He.
  - intros c. rewrite own_core. cbn. by rewrite Ha.
  - intros ? [= <-]. by rewrite Ha.
  - right. done.
Qed.

(** A write to the entry being taken, before it is marked. *)
Lemma scribble_ok i e e' q : m_table m !! i = Some e → sl_used e = false → sl_used e' = false → registering pc = true →
  pc_entry pc = None → pc_entry q = None → pc_alive q = pc_alive pc → pc_core q = core →
  pc_writes s q (<[i := e']> (m_table m)) →
  machine_ok (mk_machine (m_cores m) (m_next m) (<[i := e']> (m_table m)) (m_facades m) (<[s := q]> (m_runs m)) (m_pending m) (m_stops m) (m_returned m)).
Proof.
  intros Hi Hu Hu' Hreg He Heq Ha Hc Hw. destruct (scribble_slot _ _ _ _ (mo_table _ Hm) Hi Hu Hu') as [H1 H2].
  apply (pc_move m s pc (Some q)); [done|done|done|rewrite length_insert; apply Hm|apply Hm|by intros; apply H2| |done| | |by left].
  - intros i' c. rewrite H2, own_entry. cbn. by rewrite He, Heq.
  - intros c. rewrite own_core. cbn. by rewrite Ha.
  - intros ? [= <-]. by rewrite Ha.
Qed.
End Moves.

Lemma slot_alter {A} (g : A → A) i (l : list A) x : l !! i = Some x → alter g i l = <[i := g x]> l.
Proof.
  intros Hx. pose proof (lookup_lt_Some _ _ _ Hx). apply list_eq. intros j. destruct (decide (i = j)) as [<-|Hne].
  - by rewrite list_lookup_alter_eq, Hx, list_lookup_insert_eq.
  - by rewrite list_lookup_alter_ne, list_lookup_insert_ne.
Qed.

Lemma run_create_ok created s m : machine_ok m → m_runs m !! s = None → is_Some (m_facades m !! s) → none_registering m →
  machine_ok (server_run_create created s m).
Proof.
  intros Hm Hs Hf Hn. unfold server_run_create. destruct created; cbn [negb]; [|apply facades_ok; [done|]; intros; by eapply mo_facades].
  cbn zeta. set (core := m_next m).
  assert (m_cores m !! core = None) as Hfree.
  { destruct (m_cores m !! core) as [[o k]|] eqn:E; [|done]. destruct (proj1 (mo_cores _ Hm core o)) as (pc & Hp & Ha); [by exists k|].
    pose proof (mo_fresh _ Hm _ _ Hp). destruct pc; cbn in *; simplify_eq; unfold core in *; lia. }
  assert (∀ k p, <[s := R_scan 0 core]> (m_runs m) !! k = Some p → k = s ∧ p = R_scan 0 core ∨ k ≠ s ∧ m_runs m !! k = Some p) as Hr.
  { intros k p [[-> <-]|[? ?]]%lookup_insert_Some; auto. }
  split; cbn; [apply Hm|apply Hm|..].
  - intros i k c. rewrite (mo_entries _ Hm). destruct (decide (k = s)) as [->|Hk]; [|by rewrite lookup_insert_ne].
    rewrite lookup_insert_eq, Hs. split; intros (pc & [= <-] & E); done.
  - intros c k. destruct (decide (c = core)) as [->|Hc].
    + rewrite lookup_insert_eq. split; [intros [x [= <- _]]; exists (R_scan 0 core); by rewrite lookup_insert_eq|].
      intros (p & [[-> ->]|[Hk Hp]]%Hr & Ha); [by eexists|]. destruct (proj2 (mo_cores _ Hm core k)) as [x Hx]; [by exists p|congruence].
    + rewrite lookup_insert_ne by done. rewrite (mo_cores _ Hm). destruct (decide (k = s)) as [->|Hk]; [|by rewrite lookup_insert_ne].
      rewrite lookup_insert_eq, Hs. split; intros (pc & [= <-] & E); cbn in E; congruence.
  - intros k p [[-> ->]|[Hk Hp]]%Hr; cbn; [unfold core; lia|]. pose proof (mo_fresh _ Hm _ _ Hp). lia.
  - intros k p [[-> ->]|[Hk Hp]]%Hr; [done|]. by eapply mo_facades.
  - intros k k' p p' [[-> ->]|[Hk Hp]]%Hr [[-> ->]|[Hk' Hp']]%Hr; try done; cbn; intros E; [pose proof (mo_fresh _ Hm _ _ Hp')|pose proof (mo_fresh _ Hm _ _ Hp)|by eapply (mo_once _ Hm)]; unfold core in *; lia.
  - intros k k' p p' [[-> ->]|[Hk Hp]]%Hr [[-> ->]|[Hk' Hp']]%Hr; try done; cbn; intros E E'; [rewrite (Hn _ _ Hp') in E'|rewrite (Hn _ _ Hp) in E|rewrite (Hn _ _ Hp) in E]; done.
  - intros k p [[-> ->]|[Hk Hp]]%Hr; [done|]. by apply (mo_writes _ Hm).
  - intros k c Hin. destruct (mo_pending _ Hm _ _ Hin) as [H1 H2]. split; [lia|]. intros o x. rewrite lookup_insert_ne by (unfold core; lia). apply H2.
Qed.

Lemma scan_ok s f i c rc m : machine_ok m → m_runs m !! s = Some (R_scan i c) → machine_ok (server_run_step rc s f (R_scan i c) m).
Proof.
  intros Hm Hs. cbn [server_run_step]. destruct (m_table m !! i) as [e|] eqn:Ei.
  - apply (goto_ok m s (R_scan i c) Hm Hs); [apply (mo_facades _ Hm)|..]; destruct (sl_used e) eqn:Eu; try done. cbn. eauto.
  - apply (pc_move m s (R_scan i c) None); [done|done|apply Hm|apply Hm|apply Hm|done| | | |done|by left].
    + intros i' c'. by rewrite (own_entry _ _ _ Hm Hs).
    + intros c' k Hk. by apply (other_core_delete m s (R_scan i c)).
    + intros c'. split; [|done]. intros H. by apply (own_core_delete m s (R_scan i c) Hm Hs) in H.
Qed.

Lemma mark_ok s f i c rc m : machine_ok m → m_runs m !! s = Some (R_used i c) → machine_ok (server_run_step rc s f (R_used i c) m).
Proof.
  intros Hm Hs. cbn [server_run_step]. pose proof (mo_writes _ Hm _ _ Hs) as Hw. cbn in Hw.
  assert (∀ j w, ¬ entry_at (m_table m) j s w) as Hn by (apply no_entry; [done|]; rewrite Hs; by intros ? [= <-]).
  destruct (fill_slot (m_table m) i _ s c (mo_table _ Hm) Hn Hw eq_refl) as (H1 & H2 & H3).
  cbn. rewrite (slot_alter _ _ _ _ Hw). cbn.
  apply (pc_move m s (R_used i c) (Some (R_registered i c))); [done|done|done|rewrite length_insert; apply Hm|apply Hm|done| |done| | |by left].
  - intros i' c'. cbn. split; [|by intros [= <- <-]]. intros H. by destruct (entry_key_unique _ _ _ _ _ _ H1 H2 H) as [<- <-].
  - intros c'. by rewrite (own_core _ _ _ Hm Hs).
  - by intros ? [= <-].
Qed.

Lemma configure_ok s f i c rc m : machine_ok m → m_runs m !! s = Some (R_registered i c) → machine_ok (server_run_step rc s f (R_registered i c) m).
Proof.
  intros Hm Hs. cbn [server_run_step]. assert (entry_at (m_table m) i s c) as He by (by apply (own_entry _ _ _ Hm Hs)).
  destruct (proj2 (own_core m s _ Hm Hs c) eq_refl) as [y Hy].
  cbn. rewrite (slot_alter _ _ _ _ He). cbn. rewrite (list_insert_id _ _ _ He).
  apply (pc_move m s (R_registered i c) (Some (R_configured i c))); [done|done|apply Hm|apply Hm|apply Hm|done| | | | |by right].
  - intros i' c'. by rewrite (own_entry _ _ _ Hm Hs).
  - intros c' k Hk. destruct (decide (c = c')) as [<-|Hne]; [|by rewrite lookup_insert_ne]. rewrite lookup_insert_eq, Hy.
    split; intros [x [= <- _]]; done.
  - intros c'. cbn. destruct (decide (c = c')) as [<-|Hne]; [rewrite lookup_insert_eq; split; [done|by eexists]|]. rewrite lookup_insert_ne by done.
    rewrite (own_core _ _ _ Hm Hs). done.
  - by intros ? [= <-].
Qed.

Lemma release_ok s f i c rc m : machine_ok m → m_runs m !! s = Some (R_done i c) → machine_ok (server_run_step rc s f (R_done i c) m).
Proof.
  intros Hm Hs. cbn [server_run_step].
  apply (pc_move m s (R_done i c) (Some (R_freed i c))); [done|done|apply Hm|apply Hm|apply Hm|done| | | | |by right].
  - intros i' c'. by rewrite (own_entry _ _ _ Hm Hs).
  - intros c' k Hk. by apply (other_core_delete m s (R_done i c)).
  - intros c'. split; [|done]. intros H. by apply (own_core_delete m s (R_done i c) Hm Hs) in H.
  - intros ? [= <-]. cbn. split_and!; try done.
Qed.

Lemma return_ok s f i c rc m : machine_ok m → m_runs m !! s = Some (R_freed i c) → machine_ok (server_run_step rc s f (R_freed i c) m).
Proof.
  intros Hm Hs. cbn [server_run_step]. assert (entry_at (m_table m) i s c) as He by (by apply (own_entry _ _ _ Hm Hs)).
  destruct (shim_unregister_entry _ _ _ _ (mo_table _ Hm) He) as (H1 & H2 & H3).
  apply (pc_move m s (R_freed i c) None); [done|done|done|cbn; rewrite length_alter; apply Hm|apply Hm|by intros; apply H3| |done| |done|right].
  - intros i' c'. split; [|done]. intros H. by destruct (H2 i' c').
  - intros c'. by rewrite (own_core _ _ _ Hm Hs).
  - intros j e Hj Hu. cbn. destruct (decide (i = j)) as [<-|Hne]; [|by rewrite list_lookup_alter_ne].
    unfold entry_at in He. rewrite He in Hj. by injection Hj as <-.
Qed.

Lemma pc_step_ok rc s f pc m : machine_ok m → m_runs m !! s = Some pc → machine_ok (server_run_step rc s f pc m).
Proof.
  intros Hm Hs. pose proof (mo_writes _ Hm _ _ Hs) as Hw. destruct pc as [i c|i c|i c|i c|i c|i c|i c|i c|i c]; cbn in Hw.
  - by apply scan_ok.
  - destruct Hw as (e & He & Hu). cbn. rewrite (slot_alter _ _ _ _ He). pose proof (lookup_lt_Some _ _ _ He).
    apply (scribble_ok m s (R_legacy i c) Hm Hs i e); try done. cbn. rewrite list_lookup_insert_eq by done. rewrite Hu. eauto.
  - destruct Hw as (v & He). cbn. rewrite (slot_alter _ _ _ _ He). pose proof (lookup_lt_Some _ _ _ He).
    apply (scribble_ok m s (R_core i c) Hm Hs i _ _ (R_used i c) He); try done. cbn. by rewrite list_lookup_insert_eq.
  - by apply mark_ok.
  - by apply configure_ok.
  - apply (goto_ok m s (R_configured i c) Hm Hs); try done. intros. by eapply insert_facade_ok.
  - apply (goto_ok m s (R_loop i c) Hm Hs); try done. intros. by eapply insert_facade_ok.
  - by apply release_ok.
  - by apply return_ok.
Qed.

(** What [server_stop] finds. *)
Lemma stop_spec s f m : machine_ok m →
  server_stop s f m = m <| m_facades := <[s := set_should_stop true f]> (m_facades m) |>
    <| m_pending := m_pending m ++ from_option (λ ic, [(s, ic.2)]) [] (m_runs m !! s ≫= pc_entry) |>.
Proof.
  intros Hm. unfold server_stop, shim_server_find. cbn zeta. change (m_table (m <| m_facades := _ |>)) with (m_table m).
  destruct (m_runs m !! s ≫= pc_entry) as [[i c]|] eqn:E.
  - destruct (m_runs m !! s) as [pc|] eqn:Hs; [|done].
    rewrite (shim_find_entry (m_table m) i s c (mo_table _ Hm)) by (by apply (own_entry _ _ _ Hm Hs)). done.
  - rewrite (shim_find_none _ _ (mo_table _ Hm)); [cbn; rewrite app_nil_r; by destruct m|]. apply no_entry; [done|]. intros pc Hp. by rewrite Hp in E.
Qed.

Lemma stop_ok s f m : machine_ok m → machine_ok (server_stop s f m).
Proof.
  intros Hm. rewrite stop_spec by done.
  apply (pending_ok (m <| m_facades := <[s := set_should_stop true f]> (m_facades m) |>)).
  { apply (facades_ok m); [done|]. intros. by eapply insert_facade_ok. }
  cbn. intros k c [Hin|Hin]%elem_of_app; [by apply (mo_pending _ Hm)|].
  destruct (m_runs m !! s) as [pc|] eqn:Hs; cbn in Hin; [|by apply elem_of_nil in Hin].
  destruct (pc_entry pc) as [[i c0]|] eqn:E; cbn in Hin; [|by apply elem_of_nil in Hin]. apply list_elem_of_singleton in Hin as [= -> ->].
  assert (pc_core pc = c0) as <- by (destruct pc; cbn in *; congruence). split; [by eapply mo_fresh|].
  intros o x Hx. destruct (proj1 (mo_cores _ Hm (pc_core pc) o)) as (p & Hp & Ha); [by exists x|].
  eapply (mo_once _ Hm); [done|done|]. destruct p; cbn in *; congruence.
Qed.

Lemma lstep_ok e m m' : machine_ok m → (∀ s b, e = E_run s b → none_registering m) → step e m = Some m' → machine_ok m'.
Proof.
  intros Hm Hn. destruct e as [s pool cmd port|s created|s rc|s port|s|j|s]; cbn [step].
  - destruct (m_runs m !! s) eqn:Hs; intros [= <-]; [done|]. apply (facades_ok m); [done|]. intros. by eapply insert_facade_ok.
  - destruct (m_facades m !! s) as [f|] eqn:Hf, (m_runs m !! s) eqn:Hs; intros [= <-]; try done. apply run_create_ok; [done|done|by rewrite Hf|by eapply Hn].
  - destruct (m_facades m !! s) as [f|], (m_runs m !! s) as [pc|] eqn:Hs; intros [= <-]; try done. by apply pc_step_ok.
  - destruct (m_facades m !! s) as [f|], (m_runs m !! s) as [[]|] eqn:Hs; intros [= <-]; try done.
    apply (facades_ok m); [done|]. intros. by eapply insert_facade_ok.
  - destruct (m_facades m !! s) as [f|]; intros [= <-]; [by apply stop_ok|done].
  - unfold server_stop_call. destruct (m_pending m !! j) as [[o c]|] eqn:Ej; [|by intros [= <-]].
    destruct (m_cores m !! c); [|done]. cbn. intros [= <-].
    apply (facades_ok (m <| m_pending := delete j (m_pending m) |>)); [|apply (mo_facades _ Hm)].
    apply pending_ok; [done|]. intros k c' Hin. apply (mo_pending _ Hm).
    eapply elem_of_submseteq; [exact Hin|]. apply sublist_submseteq, sublist_delete.
  - destruct (m_facades m !! s) as [f|], (m_runs m !! s) eqn:Hs; intros [= <-]; try done.
    unfold shim_server_find. rewrite (shim_find_none _ _ (mo_table _ Hm)) by (apply no_entry; [done|]; rewrite Hs; done).
    apply (facades_ok m); [done|]. intros. by eapply insert_facade_ok.
Qed.

Lemma lrun_ok es : ∀ m m', machine_ok m → starts_alone es m = true → run es m = Some m' → machine_ok m'.
Proof.
  induction es as [|e es IH]; intros m m' Hm; cbn [run starts_alone]; [by intros _ [= <-]|]. intros [Ha Hr]%andb_true_iff.
  destruct (step e m) as [m1|] eqn:E; [|done]. cbn [mbind option_bind]. apply IH; [|done]. eapply lstep_ok; [done| |done].
  intros s b ->. by apply bool_decide_eq_true in Ha.
Qed.

(** ** A registration that no other step interrupts *)

Definition steps (s n : nat) : list event := replicate n (E_step s true).

Lemma steps_S s n m m1 : step (E_step s true) m = Some m1 → run (steps s (S n)) m = run (steps s n) m1.
Proof. intros E. unfold steps. cbn [replicate run]. by rewrite E. Qed.

Lemma scan_to s f c m : m_facades m !! s = Some f → ∀ j, m_runs m !! s = Some (R_scan 0 c) →
  (j ≤ length (m_table m))%nat → (∀ k e, (k < j)%nat → m_table m !! k = Some e → sl_used e = true) →
  run (steps s j) m = Some (m <| m_runs := <[s := R_scan j c]> (m_runs m) |>).
Proof.
  intros Hf. induction j as [|j IH]; intros Hs Hl Hu.
  - cbn. rewrite insert_id by done. by destruct m.
  - unfold steps. rewrite replicate_S_end, run_app. fold (steps s j). rewrite IH; [|done|lia|intros k e ? ?; apply (Hu k e); [lia|done]].
    cbn [mbind option_bind run step]. cbn. rewrite Hf, lookup_insert_eq. cbn.
    destruct (lookup_lt_is_Some_2 (m_table m) j) as [e He]; [lia|]. rewrite He, (Hu j e) by (done || lia). cbn. by rewrite insert_insert_eq.
Qed.

Lemma three_writes (s c i : nat) e (t : list (slot nat nat)) : t !! i = Some e →
  alter (λ e, mk_slot (sl_legacy e) (sl_val e) true) i
    (alter (λ e, mk_slot (sl_legacy e) (Some c) (sl_used e)) i
      (alter (λ e, mk_slot (Some s) (sl_val e) (sl_used e)) i t)) = <[i := mk_slot (Some s) (Some c) true]> t.
Proof.
  intros Hi. pose proof (lookup_lt_Some _ _ _ Hi). apply list_eq. intros j. destruct (decide (i = j)) as [<-|Hne].
  - by rewrite !list_lookup_alter_eq, Hi, list_lookup_insert_eq.
  - by rewrite !list_lookup_alter_ne, list_lookup_insert_ne.
Qed.

(** The steps are [shim_server_register]. *)
Lemma register_steps s f c m : m_facades m !! s = Some f → m_runs m !! s = Some (R_scan 0 c) →
  ∃ n, run (steps s n) m = Some
    (match shim_server_register s c (m_table m) with
     | (Some ss, t) => m <| m_runs := <[s := R_registered ss c]> (m_runs m) |> <| m_table := t |>
     | (None, _) => m <| m_cores := delete c (m_cores m) |> <| m_runs := delete s (m_runs m) |> <| m_returned := m_returned m ++ [(s, 1)] |>
     end).
Proof.
  intros Hf Hs. unfold shim_server_register, shim_register. destruct (list_find _ (m_table m)) as [[i e]|] eqn:E.
  - apply list_find_Some in E as (Hi & Hu & Hb). pose proof (lookup_lt_Some _ _ _ Hi) as Hl. exists (i + 4)%nat.
    unfold steps. rewrite replicate_add, run_app. fold (steps s i). rewrite (scan_to s f c m Hf i Hs); [|lia|].
    + cbn [mbind option_bind replicate run step]. cbn. rewrite Hf, lookup_insert_eq. cbn. rewrite Hi, Hu. cbn.
      rewrite Hf, insert_insert_eq, lookup_insert_eq. cbn. rewrite Hf, insert_insert_eq, lookup_insert_eq. cbn.
      rewrite Hf, insert_insert_eq, lookup_insert_eq. cbn. rewrite insert_insert_eq.
      unfold set. cbn. do 2 f_equal. by apply (three_writes s c i e).
    + intros k x Hk Hx. destruct (sl_used x) eqn:Ex; [done|]. by destruct (Hb k x Hx Hk).
  - apply list_find_None in E. exists (length (m_table m) + 1)%nat.
    unfold steps. rewrite replicate_add, run_app. fold (steps s (length (m_table m))). rewrite (scan_to s f c m Hf _ Hs); [|done|].
    + cbn [mbind option_bind replicate run step]. cbn. rewrite Hf, lookup_insert_eq. cbn. rewrite lookup_ge_None_2 by done. cbn.
      by rewrite delete_insert_eq.
    + intros k x Hk Hx. destruct (sl_used x) eqn:Ex; [done|]. by destruct (proj1 (Forall_lookup _ _) E k x Hx).
Qed.

(** ** Four at a time *)

Definition all_entered (m : machine) : Prop := ∀ s pc, m_runs m !! s = Some pc → is_Some (pc_entry pc).

Lemma entered m : none_registering m ↔ all_entered m.
Proof.
  unfold none_registering, all_entered, map_Forall. split; intros H s pc Hp; specialize (H s pc Hp); destruct pc; cbn in *; try done; try (by destruct H); by eexists.
Qed.

Lemma runs_bound m : machine_ok m → none_registering m → (size (m_runs m) ≤ SHIM_MAX_SERVERS)%nat.
Proof.
  intros Hm Hn%entered. rewrite <-length_map_to_list.
  set (idx := (λ kv : nat * run_pc, from_option fst O (pc_entry kv.2)) <$> map_to_list (m_runs m)).
  assert (∀ k pc, m_runs m !! k = Some pc → ∃ c, entry_at (m_table m) (from_option fst O (pc_entry pc)) k c) as He.
  { intros k pc Hk. destruct (Hn k pc Hk) as [[i c] E]. exists c. rewrite E. by apply (own_entry _ _ _ Hm Hk). }
  assert (NoDup idx) as Hnd.
  { apply NoDup_fmap_2_strong; [|apply NoDup_map_to_list]. intros [k pc] [k' pc'] Hk%elem_of_map_to_list Hk'%elem_of_map_to_list Eq.
    cbn in Eq. destruct (He _ _ Hk) as [c E1], (He _ _ Hk') as [c' E2]. rewrite Eq in E1.
    unfold entry_at in *. rewrite E1 in E2. injection E2 as <- _. by simplify_eq. }
  assert (idx ⊆ seq 0 SHIM_MAX_SERVERS) as Hsub.
  { intros i ([k pc] & -> & Hk%elem_of_map_to_list)%list_elem_of_fmap. destruct (He _ _ Hk) as [c E].
    apply lookup_lt_Some in E. rewrite (mo_length _ Hm) in E. apply elem_of_seq. cbn. lia. }
  pose proof (submseteq_length _ _ (NoDup_submseteq _ _ Hnd Hsub)) as Hle. unfold idx in Hle. by rewrite length_fmap, length_seq in Hle.
Qed.

Lemma full_table m : machine_ok m → Forall (λ e, sl_used e = true) (m_table m) → (SHIM_MAX_SERVERS ≤ size (m_runs m))%nat.
Proof.
  intros Hm Hall. rewrite <-(mo_length _ Hm), <-length_map_to_list.
  set (ks := (λ e : slot nat nat, default O (sl_legacy e)) <$> m_table m).
  assert (∀ i k, ks !! i = Some k → ∃ c, entry_at (m_table m) i k c) as Hks.
  { intros i k Hk. unfold ks in Hk. rewrite list_lookup_fmap in Hk. destruct (m_table m !! i) as [e|] eqn:E; [|done]. injection Hk as <-.
    destruct (mo_table _ Hm i e E) as (k' & c & -> & _); [exact (proj1 (Forall_lookup _ _) Hall i e E)|]. by exists c. }
  assert (NoDup ks) as Hnd.
  { apply NoDup_alt. intros i j k (c & Hi)%Hks (c' & Hj)%Hks. by destruct (entry_key_unique _ _ _ _ _ _ (mo_table _ Hm) Hi Hj). }
  assert (∀ k, k ∈ ks → k ∈ fst <$> map_to_list (m_runs m)) as Hsub.
  { intros k (i & Hi)%list_elem_of_lookup. destruct (Hks i k Hi) as (c & Hc). apply (mo_entries _ Hm) in Hc as (pc & Hp & _).
    apply list_elem_of_fmap. exists (k, pc). split; [done|]. by apply elem_of_map_to_list. }
  pose proof (submseteq_length _ _ (NoDup_submseteq _ _ Hnd Hsub)) as Hle. unfold ks in Hle. by rewrite !length_fmap in Hle.
Qed.

Lemma steps_ok s f n : ∀ m m', machine_ok m → m_facades m !! s = Some f → run (steps s n) m = Some m' → machine_ok m'.
Proof.
  intros m m' Hm _. apply lrun_ok; [done|]. clear. unfold steps. revert m. induction n as [|n IH]; intros m; [done|]. cbn [replicate starts_alone].
  destruct (step (E_step s true) m); [apply IH|done].
Qed.

Lemma run_admits s f m : machine_ok m → none_registering m → m_facades m !! s = Some f → m_runs m !! s = None →
  ∃ n m', run (E_run s true :: steps s n) m = Some m' ∧
    if decide (size (m_runs m) < SHIM_MAX_SERVERS)%nat
    then (∃ ss, m_runs m' !! s = Some (R_loop ss (m_next m))) ∧ m_cores m' !! m_next m = Some (s, run_core f)
    else m_runs m' = m_runs m ∧ m_cores m' = m_cores m ∧ m_table m' = m_table m ∧ m_returned m' = m_returned m ++ [(s, 1)].
Proof.
  intros Hm Hn Hf Hs. pose proof (run_create_ok true s m Hm Hs ltac:(by rewrite Hf) Hn) as Hm1.
  set (m1 := server_run_create true s m) in *.
  assert (step (E_run s true) m = Some m1) as E1 by (cbn [step]; by rewrite Hf, Hs).
  assert (m_facades m1 !! s = Some f) as Hf1 by done. assert (m_runs m1 !! s = Some (R_scan 0 (m_next m))) as Hs1 by apply lookup_insert_eq.
  destruct (register_steps s f (m_next m) m1 Hf1 Hs1) as [n En]. pose proof (steps_ok _ _ _ _ _ Hm1 Hf1 En) as Hm2.
  change (m_table m1) with (m_table m) in *. unfold shim_server_register in *.
  destruct (shim_register s (m_next m) (m_table m)) as [[ss|] t] eqn:E.
  - exists (n + 2)%nat. eexists. split.
    { cbn [run]. rewrite E1. cbn [mbind option_bind]. unfold steps. rewrite replicate_add, run_app. fold (steps s n). rewrite En.
      cbn [mbind option_bind replicate run step]. cbn. rewrite Hf, lookup_insert_eq. cbn. rewrite Hf, lookup_insert_eq. cbn. done. }
    apply runs_bound in Hm2.
    + cbn in Hm2. rewrite insert_insert_eq, map_size_insert_None in Hm2 by done. rewrite decide_True by lia.
      cbn. rewrite !lookup_insert_eq. eauto.
    + cbn. rewrite insert_insert_eq. apply map_Forall_insert_2; done.
  - apply shim_register_None in E as [-> Hall]. pose proof (full_table m Hm Hall).
    exists n. eexists. split; [cbn [run]; rewrite E1; exact En|]. rewrite decide_False by lia. cbn. split_and!; try done; apply delete_insert_id; [done|].
    destruct (m_cores m !! m_next m) as [[o k]|] eqn:Ec; [|done]. destruct (proj1 (mo_cores _ Hm (m_next m) o)) as (pc & Hp & Ha); [by exists k|].
    pose proof (mo_fresh _ Hm _ _ Hp). destruct pc; cbn in *; simplify_eq; lia.
Qed.


(** Two servers, the first stopped while it runs, the second past its loop
    when it is stopped. *)
Definition demo_events : list event :=
  [E_init 0 true 0 2121; E_init 1 true 0 2122; E_run 1 true] ++ steps 1 6 ++ [E_run 0 true] ++ steps 0 7 ++ [E_bound 0 2121] ++
  steps 1 1 ++ [E_stop 0; E_stop 1] ++ steps 1 1.


(** Without that, two servers that search the table at once take the same
    entry: the second overwrites what the first wrote, and a stop of the first
    finds nothing while its core runs. *)
Definition race_events : list event :=
  [E_init 0 true 0 2121; E_init 1 true 0 2122; E_run 0 true; E_run 1 true; E_step 0 true; E_step 1 true] ++ steps 0 5 ++ steps 1 5 ++ [E_stop 0].

Example starts_race : starts_alone race_events machine0 = false ∧
  ∃ m, run race_events machine0 = Some m ∧ m_runs m !! 0%nat = Some (R_loop 0 0) ∧ m_runs m !! 1%nat = Some (R_loop 0 1) ∧ m_pending m = [].
Proof.
  split; [by vm_compute|]. destruct (run race_events machine0) as [m|] eqn:E; [|vm_compute in E; discriminate E].
  vm_compute in E. injection E as <-. by eexists.
Qed.

(** A stop between the registration and the loop is forgotten by the facade:
    [should_stop] is cleared after it. *)
Example early_stop_forgotten : ∃ m f,
  run ([E_init 0 true 0 2121; E_run 0 true] ++ steps 0 5 ++ [E_stop 0] ++ steps 0 1) machine0 = Some m ∧
  m_runs m !! 0%nat = Some (R_loop 0 0) ∧ m_facades m !! 0%nat = Some f ∧ Legacy.sv_should_stop (fc_srv f) = false.
Proof.
  destruct (run _ machine0) as [m|] eqn:E; [|vm_compute in E; discriminate E]. vm_compute in E. injection E as <-. do 2 eexists. split_and!; [done|done|vm_compute; reflexivity|done].
Qed.

End LegacyServer.
