(* ===== verification/Httpd.v ===== *)
(** * plugin/httpd.c: the web console of the console plugin

    A thread of its own polls the status model (app/ui.c) once a second,
    serves it as JSON, serves the page and takes commands. The state is the
    record of the server thread beside the state of the FTP server, which it
    reads through snapshots and changes through the public functions of
    src/server.c. Character buffers are the strings in them. The build for
    the console is modelled: the three files of the page are embedded in the
    program, and are parameters here. [finished] and [exited] are what the
    bounded waits of [opftp_server_stop] see. *)

From S2P Require Import Prelude CLib Types Resolve Sys FsIface FsRooted FsMem Pollset World Ui Json Server Lifecycle.
Import CLib Ui Json Server Lifecycle.

Local Open Scope Z_scope.

Module Httpd.

(** Text with its double quotes written as single ones. *)
Definition J (s : string) : bytes := (λ c, if ceq c "'"%char then DQUOTE else c) <$> B s.

Definition HTTPD_PORT_DEFAULT : Z := 8080.
Definition HTTPD_MAX_REQ : nat := 4096.
Definition HTTPD_BUF : nat := 16384.
Definition HTTPD_MAX_CONN : nat := 16.
Definition OPFTP_SNAPSHOT_PATH : nat := 1024.

Abbreviation hpollset := (@Pollset.opftp_pollset Z).

Record opftp_httpd := mk_httpd {
  hd_ui : opftp_ui; hd_port : Z; hd_listen_fd : Z; hd_poll : hpollset; hd_version : bytes;
  hd_last_poll_us : Z; hd_conn_fd : list Z; hd_conn_hnd : list Z
}.
#[export] Instance opftp_httpd_settable : Settable opftp_httpd := λ x,
  mk_httpd (hd_ui x) (hd_port x) (hd_listen_fd x) (hd_poll x) (hd_version x) (hd_last_poll_us x)
    (hd_conn_fd x) (hd_conn_hnd x).

(** ** json_escape *)

(** The cases of the switch. *)
Definition json_char (c : ascii) : bytes :=
  if ceq c DQUOTE then [BACKSLASH; DQUOTE]
  else if ceq c BACKSLASH then [BACKSLASH; BACKSLASH]
  else if ceq c LF then [BACKSLASH; "n"%char]
  else if ceq c CR then [BACKSLASH; "r"%char]
  else if ceq c (chr 9) then [BACKSLASH; "t"%char]
  else if cv c <? 32 then ["?"%char] else [c].

(** The loop; [out] is what has been written. *)
Fixpoint escape_loop (n : nat) (out s : bytes) : bytes :=
  match s with
  | [] => out
  | c :: s' => if (length out + 6 <? n)%nat then escape_loop n (out ++ json_char c) s' else out
  end.

Definition json_escape (n : nat) (s : bytes) : bytes := escape_loop n [] s.

(** ** emit_state *)

(** [PUT]: the string written so far, and the offset, which counts what did
    not fit as well. *)
Definition PUT (n : nat) (t : bytes) (b : bytes * nat) : bytes * nat :=
  let '(out, o) := b in
  (if (o <? n)%nat then out ++ bprintf (n - o) t else out, (o + length t)%nat).

(** The three list loops: a comma before every item but the first. *)
Fixpoint put_items {A} (n : nat) (text : A → bytes) (i : nat) (l : list A) (b : bytes * nat) : bytes * nat :=
  match l with
  | [] => b
  | x :: l' =>
     let b := if (i =? 0)%nat then b else PUT n (B ",") b in
     put_items n text (S i) l' (PUT n (text x) b)
  end.

Definition bool_text (b : bool) : bytes := if b then B "true" else B "false".

Definition ui_client_idx (ui : opftp_ui) (peer : bytes) : option nat :=
  fst <$> list_find (λ t, tracks peer t = true) (u_trk ui).

Definition ui_events (ui : opftp_ui) : list opftp_ui_ev :=
  ring_view ev0 OPFTP_UI_MAX_EVENTS (u_events ui) (u_ev_head ui) (u_ev_count ui).
Definition ui_hist (ui : opftp_ui) : list opftp_ui_hist :=
  ring_view hist0 OPFTP_UI_MAX_HIST (u_hist ui) (u_hist_head ui) (u_hist_count ui).

Definition event_text (e : opftp_ui_ev) : bytes :=
  J "{'hh':" ++ fmt_u (ev_hh e) ++ J ",'mm':" ++ fmt_u (ev_mm e) ++ J ",'text':'" ++
  json_escape (72 * 2) (ev_text e) ++ J "','warn':" ++ bool_text (ev_warn e) ++ J "}".

Definition hist_text (h : opftp_ui_hist) : bytes :=
  J "{'op':'" ++ hi_op h ++ J "','path':'" ++ json_escape (OPFTP_SNAPSHOT_PATH * 2) (hi_path h) ++
  J "','bytes':" ++ fmt_u (hi_bytes h) ++ J ",'total':" ++ fmt_u (hi_total h) ++
  J ",'hh':" ++ fmt_u (hi_hh h) ++ J ",'mm':" ++ fmt_u (hi_mm h) ++ J ",'result':" ++ fmt_d (hi_result h) ++ J "}".

(** The rate and the idle seconds the model knows of a client. *)
Definition rate_idle (ui : opftp_ui) (now_us : Z) (c : opftp_snapshot_client) : double * Z :=
  match ui_client_idx ui (sc_peer c) with
  | Some t =>
     let t := nth t (u_trk ui) trk0 in
     (t_rate t,
      if sc_xfer_active c then u64 (now_us - t_xfer_t0_us t) / 1000000
      else u64 (now_us - t_idle_reset_us t) / 1000000)
  | None => (d_zero, 0)
  end.

Definition client_text (ui : opftp_ui) (now_us : Z) (c : opftp_snapshot_client) : bytes :=
  let '(rate, idle_s) := rate_idle ui now_us c in
  J "{'peer':'" ++ json_escape 128 (sc_peer c) ++ J "','user':'" ++ json_escape 128 (sc_user c) ++
  J "','cwd':'" ++ json_escape (OPFTP_SNAPSHOT_PATH * 2) (sc_cwd c) ++
  J "','logged_in':" ++ bool_text (sc_logged_in c) ++ J ",'xfer_active':" ++ bool_text (sc_xfer_active c) ++
  J ",'op':'" ++ sc_xfer_op c ++ J "','path':'" ++ json_escape (OPFTP_SNAPSHOT_PATH * 2) (sc_xfer_path c) ++
  J "','bytes':" ++ fmt_u (sc_xfer_bytes c) ++ J ",'total':" ++ fmt_u (sc_xfer_total c) ++
  J ",'rate':" ++ fmt_f1 rate ++ J ",'idle_s':" ++ fmt_u idle_s ++ J "}".

Definition uptime_s (ui : opftp_ui) (now_us : Z) : Z := u64 (now_us - u_t0_us ui) / 1000000.

(** [now_us] is the clock when the function is called. *)
Definition emit_state (h : opftp_httpd) (now_us : Z) (n : nat) : bytes :=
  let ui := hd_ui h in
  let s := u_snap ui in
  let b := ([], 0%nat) in
  let b := PUT n (J "{'version':'" ++ hd_version h ++ J "','running':" ++ bool_text (sn_started s) ++
                  J ",'port':" ++ fmt_u (sn_port s) ++ J ",'root':'") b in
  let b := PUT n (json_escape (OPFTP_SNAPSHOT_PATH * 2) (sn_root s)) b in
  let b := PUT n (J "','workers':" ++ fmt_d (sn_workers s) ++ J ",'uptime_s':" ++ fmt_u (uptime_s ui now_us) ++ J ",") b in
  let b := PUT n (J "'session':{'xfers':" ++ fmt_u (u_session_xfers ui) ++ J ",'bytes':" ++
                  fmt_u (u_session_bytes ui) ++ J "},") b in
  let b := PUT n (J "'events':[") b in
  let b := put_items n event_text 0 (ui_events ui) b in
  let b := PUT n (J "],") b in
  let b := PUT n (J "'history':[") b in
  let b := put_items n hist_text 0 (ui_hist ui) b in
  let b := PUT n (J "],") b in
  let b := PUT n (J "'clients':[") b in
  let b := put_items n (client_text ui now_us) 0 (snap_list s) b in
  let b := PUT n (J "]}") b in
  fst b.

(** ** Commands *)

(** [strstr]: from the first occurrence on. *)
Fixpoint strstr (s p : bytes) : option bytes :=
  if strneq s p (length p) then Some s
  else match s with [] => None | _ :: s' => strstr s' p end.

(** The copying loop of [find_json_str]; [out] is what has been copied. *)
Fixpoint grab (n : nat) (out p : bytes) : bytes :=
  match p with
  | [] => out
  | c :: p' =>
     if ceq c DQUOTE || negb (length out + 1 <? n)%nat then out
     else if ceq c BACKSLASH then
       match p' with
       | d :: p'' => grab n (out ++ [d]) p''
       | [] => out ++ [c]
       end
     else grab n (out ++ [c]) p'
  end.

Definition find_json_str (body key : bytes) (n : nat) : option bytes :=
  let pat := bprintf 64 (DQUOTE :: key ++ [DQUOTE]) in
  p ← strstr body pat;
  p ← strchr (drop (length pat) p) DQUOTE;
  Some (grab n [] (tail p)).

Section Httpd.
Context {FS OS : Type} `{FsOps FS} `{SysOps OS}.
Context (index_html style_css app_js : bytes).
Context (finished exited : bool).

Definition OK_TRUE : bytes := J "{'ok':true}".
Definition PATH_REQUIRED : bytes := J "{'ok':false,'error':'path required'}".
Definition UNKNOWN_ACTION : bytes := J "{'ok':false,'error':'unknown action'}".

(** The answer to a root change; the only error is [-EINVAL]. *)
Definition root_answer (rc : res ()) : bytes :=
  match rc with Ok _ => OK_TRUE | Err _ => J "{'ok':false,'error':'-22'}" end.

Definition handle_cmd (body : bytes) (n : nat) : SM FS OS bytes :=
  let action := default [] (find_json_str body (B "action") 32) in
  if streq action (B "stop") then
    _ ← opftp_server_stop finished exited;
    mret (bprintf n OK_TRUE)
  else if streq action (B "root") then
    match find_json_str body (B "path") OPFTP_SNAPSHOT_PATH with
    | Some (c :: path) => λ w,
       let '(rc, s) := opftp_server_set_root_runtime (c :: path) (ss_srv w) in
       (bprintf n (root_answer rc), w <| ss_srv := s |>)
    | _ => mret (bprintf n PATH_REQUIRED)
    end
  else mret (bprintf n UNKNOWN_ACTION).

(** ** Answers *)

Definition http_head (status ctype : bytes) (body_len : nat) : bytes :=
  B "HTTP/1.0 " ++ status ++ CRLF ++ B "Content-Type: " ++ ctype ++ CRLF ++
  B "Content-Length: " ++ fmt_u (Z.of_nat body_len) ++ CRLF ++
  B "Cache-Control: no-cache" ++ CRLF ++ B "Connection: close" ++ CRLF ++ CRLF.

(** Both results of [send] are ignored. *)
Definition http_send (fd : Z) (status ctype body : bytes) (os : OS) : OS :=
  let os := snd (sys_send fd (bprintf 256 (http_head status ctype (length body))) os) in
  match body with [] => os | _ => snd (sys_send fd body os) end.

(** The embedded files by the path without its slash. *)
Definition asset_of (path : bytes) : option (bytes * bytes) :=
  if streq path [] then Some (B "text/html; charset=utf-8", index_html)
  else if streq path (B "style.css") then Some (B "text/css", style_css)
  else if streq path (B "app.js") then Some (B "application/javascript", app_js)
  else None.

Definition serve_asset (fd : Z) (path : bytes) (os : OS) : bool * OS :=
  match asset_of path with
  | Some (ct, data) => (true, http_send fd (B "200 OK") ct data os)
  | None => (false, os)
  end.

(** ** Requests *)

Definition CRLF2 : bytes := CRLF ++ CRLF.
Definition LF2 : bytes := [LF; LF].
Definition has_str (s p : bytes) : bool := bool_decide (is_Some (strstr s p)).

(** The end of the headers has been read. *)
Definition headers_end (req : bytes) : bool := has_str (cstr_of req) CRLF2 || has_str (cstr_of req) LF2.

Inductive req_read := R_fuel | R_closed | R_req (req : bytes).

(** The receive loop; [req] is what has been read. *)
Fixpoint read_request (fuel : nat) (fd : Z) (req : bytes) (os : OS) : req_read * OS :=
  if (length req <? HTTPD_MAX_REQ)%nat then
    match fuel with
    | O => (R_fuel, os)
    | S fuel' =>
       match sys_recv fd 512 os with
       | (Err _, os') | (Ok [], os') => (R_closed, os')
       | (Ok b, os') =>
          let req := req ++ take (HTTPD_MAX_REQ - length req) b in
          if headers_end req then (R_req req, os') else read_request fuel' fd req os'
       end
    end
  else (R_req req, os).

(** A [%<w>s] of [sscanf]: skip white space, then up to [w] other characters. *)
Fixpoint word (w : nat) (s : bytes) : bytes * bytes :=
  match w, s with
  | S w', c :: s' => if isspace c then ([], s) else let '(a, r) := word w' s' in (c :: a, r)
  | _, _ => ([], s)
  end.

Definition scan_word (w : nat) (s : bytes) : option (bytes * bytes) :=
  match word w (skip_isspace s) with ([], _) => None | x => Some x end.

(** [sscanf(req, "%7s %127s", method, path) == 2]. *)
Definition request_line (req : bytes) : option (bytes * bytes) :=
  '(method, r) ← scan_word 7 req;
  '(path, _) ← scan_word 127 (skip_isspace r);
  Some (method, path).

(** Everything after the blank line, cut to the buffer. *)
Definition post_body (req : bytes) : bytes :=
  match strstr req CRLF2 with
  | Some b => take 511 (drop 4 b)
  | None => match strstr req LF2 with Some b => take 511 (drop 2 b) | None => [] end
  end.

(** What [serve_client] does with a request it has read; [false]: no answer. *)
Definition respond (fd : Z) (req : bytes) (h : opftp_httpd) (w : sstate FS OS) : bool * sstate FS OS :=
  let req := cstr_of req in
  match request_line req with
  | None => (false, w)
  | Some (method, path) =>
     let send st ct body w := (true, w <| ss_os := http_send fd st ct body (ss_os w) |>) in
     if streq method (B "GET") then
       if streq path (B "/api/state") then
         let buf := emit_state h (u64 (sys_now_ms (ss_os w) * 1000)) HTTPD_BUF in
         send (B "200 OK") (B "application/json") buf w
       else
         let p := tail path in
         let p := if streq p [] || streq p (B "index.html") then [] else p in
         match serve_asset fd p (ss_os w) with
         | (true, os') => (true, w <| ss_os := os' |>)
         | (false, os') => send (B "404 Not Found") (B "text/plain") (B "not found") (w <| ss_os := os' |>)
         end
     else if streq method (B "POST") && streq path (B "/api/cmd") then
       let '(out, w') := handle_cmd (post_body req) 512 w in
       send (B "200 OK") (B "application/json") out w'
     else send (B "405 Method Not Allowed") (B "text/plain") (B "no") w
  end.

(** [opftp_pollset_wait] on the pollset of the thread. *)
Definition wait_poll (timeout : Z) (h : opftp_httpd) (os : OS) : res nat * opftp_httpd * OS :=
  let '(r, p, os') := Pollset.opftp_pollset_wait (hd_poll h) timeout os in (r, h <| hd_poll := p |>, os').

Abbreviation hw := (opftp_httpd * sstate FS OS)%type.

Definition serve_client (fd : Z) : hw → hw := λ '(h, w),
  match read_request HTTPD_MAX_REQ fd [] (ss_os w) with
  | (R_req req, os) =>
     match respond fd req h (w <| ss_os := os |>) with
     | (true, w') => let '(_, h', os') := wait_poll 30 h (ss_os w') in (h', w' <| ss_os := os' |>)
     | (false, w') => (h, w')
     end
  | (_, os) => (h, w <| ss_os := os |>)
  end.

(** ** Connections *)

(** The user pointer of a descriptor. *)
Definition user_of (fd : Z) : option Z := if fd =? 0 then None else Some fd.
Definition fd_of (u : option Z) : Z := default 0 u.

Definition free_slot (h : opftp_httpd) : option nat := fst <$> list_find (λ fd, (fd <? 0) = true) (hd_conn_fd h).
Definition slot_of (fd : Z) (h : opftp_httpd) : option nat := fst <$> list_find (λ x, (x =? fd) = true) (hd_conn_fd h).

Definition add_conn (slot : nat) (fd : Z) (h : opftp_httpd) : opftp_httpd :=
  let '(hnd, p) := Pollset.opftp_pollset_add (hd_poll h) fd POLLIN (user_of fd) in
  h <| hd_conn_fd := <[slot := fd]> (hd_conn_fd h) |>
    <| hd_conn_hnd := <[slot := match hnd with Some i => Z.of_nat i | None => -1 end]> (hd_conn_hnd h) |>
    <| hd_poll := p |>.

(** The accept loop: while there is a free slot and a connection. *)
Fixpoint accept_loop (fuel : nat) : hw → hw := λ '(h, w),
  match fuel, free_slot h with
  | S fuel', Some slot =>
     match sys_accept (hd_listen_fd h) (ss_os w) with
     | (Ok (fd, _), os') => accept_loop fuel' (add_conn slot fd h, w <| ss_os := os' |>)
     | (Err _, os') => (h, w <| ss_os := os' |>)
     end
  | _, _ => (h, w)
  end.

Definition drop_conn (slot : option nat) (h : opftp_httpd) : opftp_httpd :=
  match slot with
  | Some k =>
     h <| hd_poll := Pollset.opftp_pollset_remove (hd_poll h) (nth k (hd_conn_hnd h) (-1)) |>
       <| hd_conn_fd := <[k := -1]> (hd_conn_fd h) |> <| hd_conn_hnd := <[k := -1]> (hd_conn_hnd h) |>
  | None => h
  end.

Definition on_event (u : option Z) : hw → hw := λ '(h, w),
  if fd_of u =? hd_listen_fd h then accept_loop HTTPD_MAX_CONN (h, w)
  else
    let fd := fd_of u in
    let slot := slot_of fd h in
    let '(h, w) := serve_client fd (h, w) in
    (drop_conn slot h, w <| ss_os := sys_close fd (ss_os w) |>).

(** ** The thread *)

(** The model is polled once a second. *)
Definition poll_model (now_us : Z) : hw → hw := λ '(h, w),
  if 1000000 <=? u64 (now_us - hd_last_poll_us h) then
    let ui := (hd_ui h) <| u_snap := opftp_server_snapshot (ss_srv w) |> in
    (h <| hd_ui := opftp_ui_poll now_us ui |> <| hd_last_poll_us := now_us |>, w)
  else (h, w).

(** One round of [httpd_thread]. *)
Definition httpd_round : hw → hw := λ '(h, w),
  let '(h, w) := poll_model (u64 (sys_now_ms (ss_os w) * 1000)) (h, w) in
  match wait_poll 250 h (ss_os w) with
  | (Ok (S _), h, os) =>
     foldl (λ s '(u, _), on_event u s) (h, w <| ss_os := os |>) (Pollset.opftp_pollset_collect (hd_poll h) 8)
  | (_, h, os) => (h, w <| ss_os := os |>)
  end.

(** The thread until [stop] is seen set, after [rounds] rounds. *)
Definition httpd_thread (rounds : nat) : hw → hw := λ '(h, w),
  let now := u64 (sys_now_ms (ss_os w) * 1000) in
  Nat.iter rounds httpd_round (h <| hd_ui := opftp_ui_init now |> <| hd_last_poll_us := now |>, w).

(** ** Creation and destruction *)

(** [thread_ok]: the thread could be created. *)
Definition opftp_httpd_create (thread_ok : bool) (version : option bytes) (port : Z) (os : OS)
  : option opftp_httpd * OS :=
  let version := bprintf 48 (default (B "?") version) in
  let port := if port =? 0 then HTTPD_PORT_DEFAULT else port in
  match sys_pipe os with
  | (Err _, os) => (None, os)
  | (Ok pipefd, os) =>
     let p := Pollset.opftp_pollset_create pipefd in
     match sys_socket AF_INET os with
     | (Err _, os) => (None, Pollset.opftp_pollset_destroy p os)
     | (Ok fd, os) =>
        let fail os := (None, Pollset.opftp_pollset_destroy p (sys_close fd os)) in
        match sys_bind fd (SA_in [NUL; NUL; NUL; NUL] port) os with
        | (Err _, os) => fail os
        | (Ok _, os) =>
           match sys_listen fd os with
           | (Err _, os) => fail os
           | (Ok _, os) =>
              let p' := snd (Pollset.opftp_pollset_add p fd POLLIN (user_of fd)) in
              if negb thread_ok then (None, Pollset.opftp_pollset_destroy p' (sys_close fd os))
              else (Some (mk_httpd (opftp_ui_init 0) port fd p' version 0
                            (replicate HTTPD_MAX_CONN (-1)) (replicate HTTPD_MAX_CONN 0)), os)
           end
        end
     end
  end.

(** Past the end of the thread. *)
Definition opftp_httpd_destroy (h : opftp_httpd) (os : OS) : OS :=
  Pollset.opftp_pollset_destroy (hd_poll h) (sys_close (hd_listen_fd h) os).

(** The wake that ends the thread's wait. *)
Definition httpd_wake (h : opftp_httpd) (os : OS) : OS := Pollset.opftp_pollset_wake (hd_poll h) os.

End Httpd.

(** * The state as JSON *)

(** ** Escaping *)

(** What is shown for a character: control characters without an escape
    become question marks. *)
Definition clean (c : ascii) : ascii :=
  if (cv c <? 32) && negb (ceq c LF) && negb (ceq c CR) && negb (ceq c (chr 9)) then "?"%char else c.

(** What is shown of a string in a buffer of [n] bytes, from offset [o] on. *)
Fixpoint shown_from (n o : nat) (s : bytes) : bytes :=
  match s with
  | [] => []
  | c :: s' => if (o + 6 <? n)%nat then clean c :: shown_from n (o + length (json_char c)) s' else []
  end.
Definition shown (n : nat) (s : bytes) : bytes := shown_from n 0 s.

Lemma json_char_clean c : json_char c = esc_char (clean c) ∧ text_char (clean c) ∧ (length (json_char c) ≤ 2)%nat.
Proof.
  unfold json_char, clean. destruct (Z.ltb_spec (cv c) 32) as [Hlt|Hge].
  - destruct (ceq_spec c DQUOTE) as [->|_]; [by vm_compute in Hlt|].
    destruct (ceq_spec c BACKSLASH) as [->|_]; [by vm_compute in Hlt|].
    destruct (ceq_spec c LF) as [->|H3]; [split_and!; [done|by right; left|done]|].
    destruct (ceq_spec c CR) as [->|H4]; [split_and!; [done|by right; right; left|done]|].
    destruct (ceq_spec c (chr 9)) as [->|H5]; [split_and!; [done|by right; right; right|done]|].
    cbn [negb andb]. split_and!; [done|left; by apply Z.leb_le|cbn; lia].
  - cbn [andb]. split_and!; [|by left|repeat case_match; cbn; lia]. unfold esc_char. by repeat case_match.
Qed.

Lemma escape_loop_shown n s : ∀ out, escape_loop n out s = out ++ esc (shown_from n (length out) s).
Proof.
  induction s as [|c s IH]; intros out; cbn; [by rewrite app_nil_r|].
  case_match; [|by rewrite app_nil_r]. rewrite IH, length_app. unfold esc. cbn [fmap list_fmap concat].
  by rewrite app_assoc, (proj1 (json_char_clean c)).
Qed.

Lemma json_escape_shown n s : json_escape n s = esc (shown n s).
Proof. apply escape_loop_shown. Qed.

Lemma shown_text_ok n s : text_ok (shown n s).
Proof.
  unfold shown. generalize 0%nat. induction s as [|c s IH]; intros o; cbn; [by constructor|].
  case_match; constructor; [apply json_char_clean|apply IH].
Qed.

(** A string is shown whole when twice its length fits. *)
Lemma shown_whole n s : (2 * length s + 4 < n)%nat → shown n s = clean <$> s.
Proof.
  unfold shown. intros H.
  assert (∀ o, (o + 2 * length s + 4 < n)%nat → shown_from n o s = clean <$> s) as Hs; [|apply Hs; lia].
  clear H. induction s as [|c s IH]; intros o Ho; [done|]. cbn [shown_from length fmap list_fmap] in *.
  rewrite (proj2 (Nat.ltb_lt _ _)) by lia. f_equal. apply IH. pose proof (json_char_clean c) as (_&_&?). lia.
Qed.

(** ** Buffers *)

(** The buffer after a text was put into it. *)
Definition emitted (n : nat) (t : bytes) : bytes * nat := (bprintf n t, length t).

Lemma PUT_emitted n a t : (0 < n)%nat → PUT n t (emitted n a) = emitted n (a ++ t).
Proof.
  intros Hn. unfold PUT, emitted. rewrite length_app. f_equal.
  destruct (Nat.ltb_spec (length a) n) as [Hlt|Hge].
  - rewrite (bprintf_short n a) by done. unfold bprintf. rewrite take_app.
    rewrite (take_ge a) by lia. do 2 f_equal. lia.
  - unfold bprintf. by rewrite take_app_le by lia.
Qed.

Lemma put_items_emitted {A} n (text : A → bytes) l a : (0 < n)%nat →
  put_items n text 0 l (emitted n a) = emitted n (a ++ commas (text <$> l)).
Proof.
  intros Hn. destruct l as [|x l]; cbn [put_items Nat.eqb]; [by rewrite app_nil_r|].
  rewrite PUT_emitted by done. cbn [fmap list_fmap].
  assert (∀ l i a, put_items n text (S i) l (emitted n a) = emitted n (a ++ concat ((λ y, ","%char :: text y) <$> l))) as Hg.
  { clear -Hn. induction l as [|y l IH]; intros i a; cbn [put_items Nat.eqb]; [by rewrite app_nil_r|].
    rewrite !PUT_emitted by done. rewrite IH. cbn [fmap list_fmap concat]. change (B ",") with [","%char].
    f_equal. by rewrite <-!app_assoc. }
  rewrite Hg. f_equal. rewrite <-app_assoc. f_equal. clear. revert x.
  induction l as [|y l IH]; intros x; cbn [fmap list_fmap commas concat]; [by rewrite app_nil_r|].
  f_equal. cbn [app]. f_equal. apply IH.
Qed.

(** ** The value of a state *)

Definition JNat (z : Z) : json := JNum (fmt_u z).

Definition event_json (e : opftp_ui_ev) : json :=
  JObj [(B "hh", JNat (ev_hh e)); (B "mm", JNat (ev_mm e)); (B "text", JStr (shown (72 * 2) (ev_text e)));
        (B "warn", JBool (ev_warn e))].

Definition hist_json (x : opftp_ui_hist) : json :=
  JObj [(B "op", JStr (hi_op x)); (B "path", JStr (shown (OPFTP_SNAPSHOT_PATH * 2) (hi_path x)));
        (B "bytes", JNat (hi_bytes x)); (B "total", JNat (hi_total x)); (B "hh", JNat (hi_hh x));
        (B "mm", JNat (hi_mm x)); (B "result", JNum (fmt_d (hi_result x)))].

Definition client_json (ui : opftp_ui) (now_us : Z) (c : opftp_snapshot_client) : json :=
  let '(rate, idle_s) := rate_idle ui now_us c in
  JObj [(B "peer", JStr (shown 128 (sc_peer c))); (B "user", JStr (shown 128 (sc_user c)));
        (B "cwd", JStr (shown (OPFTP_SNAPSHOT_PATH * 2) (sc_cwd c))); (B "logged_in", JBool (sc_logged_in c));
        (B "xfer_active", JBool (sc_xfer_active c)); (B "op", JStr (sc_xfer_op c));
        (B "path", JStr (shown (OPFTP_SNAPSHOT_PATH * 2) (sc_xfer_path c))); (B "bytes", JNat (sc_xfer_bytes c));
        (B "total", JNat (sc_xfer_total c)); (B "rate", JNum (fmt_f1 rate)); (B "idle_s", JNat idle_s)].

Definition state_members (h : opftp_httpd) (now_us : Z) : list (bytes * json) :=
  let ui := hd_ui h in
  let s := u_snap ui in
  [(B "version", JStr (hd_version h)); (B "running", JBool (sn_started s)); (B "port", JNat (sn_port s));
   (B "root", JStr (shown (OPFTP_SNAPSHOT_PATH * 2) (sn_root s))); (B "workers", JNum (fmt_d (sn_workers s)));
   (B "uptime_s", JNat (uptime_s ui now_us));
   (B "session", JObj [(B "xfers", JNat (u_session_xfers ui)); (B "bytes", JNat (u_session_bytes ui))]);
   (B "events", JArr (event_json <$> ui_events ui)); (B "history", JArr (hist_json <$> ui_hist ui));
   (B "clients", JArr (client_json ui now_us <$> snap_list s))].
Definition state_json (h : opftp_httpd) (now_us : Z) : json := JObj (state_members h now_us).

(** ** States whose text is JSON *)

(** Text that is written as it is. *)
Definition plain (s : bytes) : Prop := Forall (λ c, 32 ≤ cv c ∧ c ≠ DQUOTE ∧ c ≠ BACKSLASH) s.
Definition finite (x : double) : Prop :=
  match x with SpecFloat.S754_zero _ | SpecFloat.S754_finite _ _ _ => True | _ => False end.

(** The version and the operations, which are not escaped, are plain; the
    unsigned fields are not negative and the rates are numbers. *)
Record state_ok (h : opftp_httpd) : Prop := {
  so_version : plain (hd_version h);
  so_numbers : 0 ≤ sn_port (u_snap (hd_ui h)) ∧ 0 ≤ u_session_xfers (hd_ui h) ∧ 0 ≤ u_session_bytes (hd_ui h);
  so_events : Forall (λ e, 0 ≤ ev_hh e ∧ 0 ≤ ev_mm e) (ui_events (hd_ui h));
  so_hist : Forall (λ x, plain (hi_op x) ∧ 0 ≤ hi_bytes x ∧ 0 ≤ hi_total x ∧ 0 ≤ hi_hh x ∧ 0 ≤ hi_mm x)
              (ui_hist (hd_ui h));
  so_clients : Forall (λ c, plain (sc_xfer_op c) ∧ 0 ≤ sc_xfer_bytes c ∧ 0 ≤ sc_xfer_total c)
                 (snap_list (u_snap (hd_ui h)));
  so_rates : Forall (λ t, finite (t_rate t)) (u_trk (hd_ui h))
}.

Lemma plain_esc s : plain s → esc s = s ∧ text_ok s.
Proof.
  intros Hp. induction Hp as [|c s (Hc & Hq & Hb) Hs [IH1 IH2]]; [split; [done|constructor]|].
  split; [|constructor; [by left|done]]. unfold esc. cbn [fmap list_fmap concat]. fold (esc s). rewrite IH1.
  unfold esc_char. rewrite (ceq_ne _ _ Hq), (ceq_ne _ _ Hb). rewrite !ceq_ne; [done|..]; intros ->; by vm_compute in Hc.
Qed.

Lemma print_plain s : plain s → print_str s = DQUOTE :: s ++ [DQUOTE].
Proof. intros [E _]%plain_esc. unfold print_str. by rewrite E. Qed.

Lemma print_shown n s : print_str (shown n s) = DQUOTE :: json_escape n s ++ [DQUOTE].
Proof. unfold print_str. by rewrite json_escape_shown. Qed.

(** Both sides of an equation between texts, made of the same pieces. *)
Ltac same_text := cbn; rewrite <-?app_assoc; cbn; repeat (f_equal; rewrite <-?app_assoc; cbn); try reflexivity.

(** ** Numbers *)

Lemma fmt_u_head n : 0 < n → ∃ c d, fmt_u n = c :: d ∧ c ≠ "0"%char.
Proof.
  induction n as [n IH] using (well_founded_induction (Z.lt_wf 0)). intros Hn. destruct (Z.lt_ge_cases n 10).
  - rewrite fmt_u_small by lia. exists (digit n), []. split; [done|]. intros E%(f_equal cv). rewrite cv_digit in E by lia.
    change (cv "0"%char) with 48 in E. lia.
  - rewrite fmt_u_step by lia.
    destruct (IH (n / 10)) as (c & d & -> & Hc); [split; [apply Z.div_pos|apply Z.div_lt]; lia|apply Z.div_str_pos; lia|].
    by exists c, (d ++ [digit (n mod 10)]).
Qed.

Definition numeral (t : bytes) : Prop := valid_num t = true ∧ Forall (λ c, num_char c = true) t.

Lemma digits_num t : Forall (λ c, isdigit c = true) t → Forall (λ c, num_char c = true) t.
Proof. intros Ht. eapply Forall_impl; [exact Ht|]. intros c Hc. unfold num_char. by rewrite Hc. Qed.

Lemma valid_int_frac n r : 0 ≤ n → valid_frac r = true → match r with c :: _ => isdigit c = false | [] => True end →
  valid_int (fmt_u n ++ r) = true.
Proof.
  intros Hn Hv Hr. unfold valid_int. rewrite span_app by (done || by apply fmt_u_digits).
  destruct (decide (n = 0)) as [->|Hne]; [by cbn; rewrite Hv|].
  destruct (fmt_u_head n) as (c & d & -> & Hc); [lia|]. by rewrite (ceq_ne _ _ Hc), Hv.
Qed.

Lemma num_of_int n r : 0 ≤ n → valid_int (fmt_u n ++ r) = true → valid_num (fmt_u n ++ r) = true.
Proof.
  intros Hn Hv. pose proof (fmt_u_digits n Hn) as Hd. pose proof (fmt_u_nonempty n Hn) as Hl. unfold valid_num.
  destruct (fmt_u n) as [|c d] eqn:E; [cbn in Hl; lia|]. cbn [app]. inversion Hd as [|? ? Hc]; subst.
  destruct (isdigit_cases c Hc) as (_ & Hm & _). by rewrite (ceq_ne _ _ Hm).
Qed.

Lemma numeral_u n : 0 ≤ n → numeral (fmt_u n).
Proof.
  intros Hn. split; [|by apply digits_num, fmt_u_digits].
  rewrite <-(app_nil_r (fmt_u n)). apply num_of_int; [done|]. by apply valid_int_frac.
Qed.

Lemma numeral_minus t : valid_int t = true → Forall (λ c, num_char c = true) t → numeral ("-"%char :: t).
Proof. intros Hv Hf. split; [done|by constructor]. Qed.

Lemma numeral_d n : numeral (fmt_d n).
Proof.
  unfold fmt_d. destruct (Z.ltb_spec n 0); [|by apply numeral_u].
  apply numeral_minus; [|apply digits_num, fmt_u_digits; lia].
  rewrite <-(app_nil_r (fmt_u _)). apply valid_int_frac; [lia|done..].
Qed.

Lemma scaled_nonneg m e k : 0 ≤ m → 0 ≤ k → 0 ≤ scaled m e k.
Proof.
  intros Hm Hk. unfold scaled. assert (0 ≤ m * 10 ^ k) as Hn by (apply Z.mul_nonneg_nonneg; [done|apply Z.pow_nonneg; lia]).
  destruct (Z.leb_spec 0 e); [apply Z.mul_nonneg_nonneg; [done|apply Z.pow_nonneg; lia]|].
  assert (0 ≤ m * 10 ^ k / 2 ^ (- e)) by (apply Z.div_pos; [done|apply Z.pow_pos_nonneg; lia]). repeat case_match; lia.
Qed.

Lemma numeral_f1 x : finite x → numeral (fmt_f1 x).
Proof.
  destruct x as [s|s| |s m e]; [|done..|]; intros _; [by destruct s; (split; [done|repeat constructor])|].
  cbn [fmt_f1]. set (n := scaled (Z.pos m) e 1). assert (0 ≤ n) as Hn by (apply scaled_nonneg; lia).
  pose proof (Z.mod_pos_bound n 10 ltac:(lia)) as Hmod.
  assert (0 ≤ n / 10) as Hd by (apply Z.div_pos; lia).
  assert (valid_int (fmt_u (n / 10) ++ B "." ++ fmt_u (n mod 10)) = true) as Hv.
  { apply valid_int_frac; [done| |done]. change (B ".") with ["."%char]. cbn [app valid_frac]. rewrite ceq_refl.
    pose proof (span_app isdigit (fmt_u (n mod 10)) [] ltac:(apply fmt_u_digits; lia) I) as Es. rewrite app_nil_r in Es. rewrite Es.
    pose proof (fmt_u_nonempty (n mod 10) ltac:(lia)). destruct (fmt_u (n mod 10)); [cbn in *; lia|done]. }
  assert (Forall (λ c, num_char c = true) (fmt_u (n / 10) ++ B "." ++ fmt_u (n mod 10))) as Hf.
  { apply Forall_app. split; [apply digits_num, fmt_u_digits; lia|]. constructor; [done|]. apply digits_num, fmt_u_digits. lia. }
  destruct s; cbn [with_sign]; [by apply numeral_minus|split; [by apply num_of_int|done]].
Qed.

Lemma ok_numeral t : numeral t → json_ok (JNum t).
Proof. intros [? ?]. by apply ok_num. Qed.

Lemma ok_nat n : 0 ≤ n → json_ok (JNat n).
Proof. intros. by apply ok_numeral, numeral_u. Qed.

Lemma ok_shown n s : json_ok (JStr (shown n s)).
Proof. apply ok_str, shown_text_ok. Qed.

Lemma ok_plain s : plain s → json_ok (JStr s).
Proof. intros [_ Hp]%plain_esc. by apply ok_str. Qed.

Lemma text_okb s : forallb (λ c, 32 <=? cv c) s = true → text_ok s.
Proof.
  intros H. apply Forall_forall. intros c Hc. left. apply Z.leb_le. eapply forallb_forall in H; [exact H|by apply list_elem_of_In].
Qed.

(** The members of an object with constant names. *)
Ltac ok_members := apply ok_obj; repeat (apply Forall_cons; split; [split; [by apply text_okb|cbn [snd]]|]); [..|apply Forall_nil_2].

Create HintDb json discriminated.
#[local] Hint Resolve ok_numeral ok_nat ok_shown ok_plain ok_bool numeral_d numeral_f1 : json.

Lemma rate_idle_ok ui now c : Forall (λ t, finite (t_rate t)) (u_trk ui) →
  finite (rate_idle ui now c).1 ∧ 0 ≤ (rate_idle ui now c).2.
Proof.
  intros Hr. unfold rate_idle. destruct (ui_client_idx ui (sc_peer c)) as [i|] eqn:E; [|done].
  assert (∀ z, 0 ≤ u64 z / 1000000) as Hz by (intros z; apply Z.div_pos; [apply Z.mod_pos_bound|]; lia).
  cbn [fst snd]. split; [|by case_match].
  unfold ui_client_idx in E. destruct (list_find _ _) as [[k t]|] eqn:Ef; [|done]. injection E as <-.
  apply list_find_Some in Ef as (Hk & _ & _). rewrite (nth_lookup_Some _ _ _ _ Hk).
  rewrite Forall_forall in Hr. apply Hr. by eapply list_elem_of_lookup_2.
Qed.

Lemma state_json_ok h now : state_ok h → json_ok (state_json h now).
Proof.
  intros [Hv (Hp & Hx & Hb) He Hh Hc Hr]. unfold state_json, state_members. ok_members; auto with json.
  - apply ok_nat, Z.div_pos; [apply Z.mod_pos_bound|]; lia.
  - ok_members; auto with json.
  - apply ok_arr, Forall_fmap. eapply Forall_impl; [exact He|]. intros e [? ?]. unfold compose, event_json. ok_members; auto with json.
  - apply ok_arr, Forall_fmap. eapply Forall_impl; [exact Hh|]. intros x (?&?&?&?&?). unfold compose, hist_json. ok_members; auto with json.
  - apply ok_arr, Forall_fmap. eapply Forall_impl; [exact Hc|]. intros c (?&?&?). unfold compose, client_json.
    destruct (rate_idle_ok (hd_ui h) now c Hr) as [Hf Hi]. destruct (rate_idle _ _ c) as [rate idle]. cbn [fst snd] in *.
    ok_members; auto with json.
Qed.

(** ** The text *)

Lemma event_text_json e : event_text e = print_json (event_json e).
Proof. unfold event_text, event_json. cbn [print_json fmap list_fmap]. rewrite print_shown. same_text. Qed.

Lemma hist_text_json x : plain (hi_op x) → hist_text x = print_json (hist_json x).
Proof. intros Hp. unfold hist_text, hist_json. cbn [print_json fmap list_fmap]. rewrite print_shown, (print_plain _ Hp). same_text. Qed.

Lemma client_text_json ui now c : plain (sc_xfer_op c) → client_text ui now c = print_json (client_json ui now c).
Proof.
  intros Hp. unfold client_text, client_json. destruct (rate_idle ui now c) as [rate idle].
  cbn [print_json fmap list_fmap]. rewrite !print_shown, (print_plain _ Hp). same_text.
Qed.

Lemma items_json {A} (text : A → bytes) (val : A → json) l :
  Forall (λ x, text x = print_json (val x)) l → text <$> l = print_json <$> (val <$> l).
Proof. induction 1 as [|x l Hx _ IH]; [done|]. cbn. by rewrite Hx, IH. Qed.

Lemma emit_state_text h now n : state_ok h → (0 < n)%nat →
  emit_state h now n = bprintf n (print_json (state_json h now)).
Proof.
  intros [Hv _ _ Hh Hc _] Hn. unfold emit_state. cbv zeta.
  assert (([], 0%nat) = emitted n []) as -> by (unfold emitted, bprintf; by rewrite take_nil).
  rewrite !PUT_emitted, put_items_emitted, !PUT_emitted, put_items_emitted, !PUT_emitted, put_items_emitted, PUT_emitted by done.
  cbn [fst emitted]. f_equal.
  rewrite (items_json event_text event_json) by (apply Forall_forall; intros; apply event_text_json).
  rewrite (items_json hist_text hist_json) by (eapply Forall_impl; [exact Hh|]; intros x [? _]; by apply hist_text_json).
  rewrite (items_json (client_text (hd_ui h) now) (client_json (hd_ui h) now))
    by (eapply Forall_impl; [exact Hc|]; intros x [? _]; by apply client_text_json).
  unfold state_json, state_members. cbn [print_json fmap list_fmap].
  rewrite print_shown, (print_plain _ Hv).
  generalize (print_json <$> (event_json <$> ui_events (hd_ui h))), (print_json <$> (hist_json <$> ui_hist (hd_ui h))),
    (print_json <$> (client_json (hd_ui h) now <$> snap_list (u_snap (hd_ui h)))).
  intros evs his cls. same_text.
Qed.

(** C30. The state the web console serves is JSON that a reader takes apart
    into exactly the state (version, port, root, events, history and clients,
    strings as far as their buffers show them) if its text fits into the 16 KiB
    buffer, and is no JSON at all otherwise. *)
Theorem state_json_exact (h : opftp_httpd) (now_us : Z) :
  state_ok h →
  parse_json (emit_state h now_us HTTPD_BUF) =
    if (length (print_json (state_json h now_us)) <? HTTPD_BUF)%nat then Some (state_json h now_us) else None.
Proof.
  intros Hok. assert (0 < HTTPD_BUF)%nat as Hn by (apply Nat.ltb_lt; by vm_compute).
  rewrite emit_state_text by done. apply parse_buffered; [by apply state_json_ok|done].
Qed.

(** A console with one client, and one with sixteen clients deep in a tree. *)
Definition h_with (cs : list opftp_snapshot_client) : opftp_httpd :=
  mk_httpd (with_clients cs ui_start) 8080 5 (Pollset.opftp_pollset_create (1000, 1001)) (B "v4.1-vsh") 0
    (replicate HTTPD_MAX_CONN (-1)) (replicate HTTPD_MAX_CONN 0).

Definition host_deep : opftp_snapshot_client :=
  mk_snap_client (B "10.0.0.7") (B "v") (SLASH :: replicate 1000 "d"%char) true false [] [] 0 0.

Lemma plainb s : forallb (λ c, (32 <=? cv c) && negb (ceq c DQUOTE) && negb (ceq c BACKSLASH)) s = true → plain s.
Proof.
  intros H. apply Forall_forall. intros c Hc. eapply forallb_forall in H; [|by apply list_elem_of_In].
  btests. split_and!; done.
Qed.

Lemma h_with_ok cs : Forall (λ c, plain (sc_xfer_op c) ∧ 0 ≤ sc_xfer_bytes c ∧ 0 ≤ sc_xfer_total c) cs → state_ok (h_with cs).
Proof.
  intros Hcs. split.
  - by apply plainb.
  - done.
  - constructor.
  - constructor.
  - by apply Forall_take.
  - cbn -[replicate]. by apply Forall_replicate.
Qed.

Lemma state_json_exact_witness :
  parse_json (emit_state (h_with [host_b]) 3000000 HTTPD_BUF) = Some (state_json (h_with [host_b]) 3000000) ∧
  parse_json (emit_state (h_with (replicate 16 host_deep)) 3000000 HTTPD_BUF) = None.
Proof.
  split.
  - rewrite (state_json_exact (h_with [host_b])) by (apply h_with_ok; constructor; [|constructor]; split_and!; [by apply plainb|done..]).
    by vm_compute.
  - rewrite (state_json_exact (h_with (replicate 16 host_deep)))
      by (apply h_with_ok, Forall_replicate; split_and!; [by apply plainb|done..]).
    by vm_compute.
Defined.

(** * Commands *)

Lemma grab_esc n p r : ∀ out, Forall (λ c, 32 ≤ cv c) p → (length out + length p < n)%nat →
  grab n out (esc p ++ DQUOTE :: r) = out ++ p.
Proof.
  induction p as [|c p IH]; intros out Hp Hl.
  - cbn. by rewrite app_nil_r.
  - apply Forall_cons in Hp as [Hc Hp]. cbn [length] in Hl.
    assert (grab n out (esc_char c ++ (esc p ++ DQUOTE :: r)) = grab n (out ++ [c]) (esc p ++ DQUOTE :: r)) as E.
    { unfold esc_char. destruct (ceq_spec c DQUOTE) as [->|H1]; [|destruct (ceq_spec c BACKSLASH) as [->|H2]].
      - cbn [app grab]. rewrite (proj2 (Nat.ltb_lt _ _)) by lia. done.
      - cbn [app grab]. rewrite (proj2 (Nat.ltb_lt _ _)) by lia. done.
      - rewrite !ceq_ne by (intros ->; by vm_compute in Hc). cbn [app grab].
        rewrite (ceq_ne _ _ H1), (ceq_ne _ _ H2), (proj2 (Nat.ltb_lt _ _)) by lia. done. }
    unfold esc at 1. cbn [fmap list_fmap concat]. fold (esc p). rewrite <-app_assoc, E, IH by (done || rewrite length_app; cbn; lia).
    by rewrite <-app_assoc.
Qed.

(** The command the page posts to change the root. *)
Definition root_cmd (p : bytes) : bytes := print_json (JObj [(B "action", JStr (B "root")); (B "path", JStr p)]).

Lemma root_cmd_text p : root_cmd p = J "{'action':'root','path':'" ++ esc p ++ J "'}".
Proof. unfold root_cmd. cbn [print_json fmap list_fmap]. unfold print_str at 4. generalize (esc p). intros e. same_text. Qed.

Lemma esc_length p : (length p ≤ length (esc p))%nat.
Proof.
  induction p as [|c p IH]; [done|]. unfold esc in *. cbn [fmap list_fmap concat length]. rewrite length_app.
  enough (1 ≤ length (esc_char c))%nat by lia. unfold esc_char. repeat case_match; cbn; lia.
Qed.

Lemma esc_no_nul p : Forall (λ c, 32 ≤ cv c) p → no_nul (esc p).
Proof.
  intros Hp. apply Forall_concat, Forall_fmap. eapply Forall_impl; [exact Hp|]. intros c Hc. unfold compose, esc_char.
  repeat case_match; repeat constructor; try done. intros ->. by vm_compute in Hc.
Qed.

Lemma root_cmd_no_nul p : Forall (λ c, 32 ≤ cv c) p → no_nul (root_cmd p).
Proof.
  intros Hp. rewrite root_cmd_text. repeat (apply Forall_app; split); [by repeat constructor|by apply esc_no_nul|by repeat constructor].
Qed.

Lemma root_cmd_length p : (length p < length (root_cmd p))%nat.
Proof. rewrite root_cmd_text, !length_app. pose proof (esc_length p). cbn. lia. Qed.

Lemma root_cmd_action p : find_json_str (root_cmd p) (B "action") 32 = Some (B "root").
Proof. rewrite root_cmd_text. generalize (esc p ++ J "'}"). intros e. vm_compute. reflexivity. Qed.

Lemma root_cmd_path p : Forall (λ c, 32 ≤ cv c) p → (length p < OPFTP_SNAPSHOT_PATH)%nat →
  find_json_str (root_cmd p) (B "path") OPFTP_SNAPSHOT_PATH = Some p.
Proof.
  intros Hp Hl. rewrite root_cmd_text.
  assert (∀ e, find_json_str (J "{'action':'root','path':'" ++ e) (B "path") OPFTP_SNAPSHOT_PATH = Some (grab OPFTP_SNAPSHOT_PATH [] e)) as ->.
  { intros e. unfold find_json_str. generalize OPFTP_SNAPSHOT_PATH. intros n. cbv -[grab]. reflexivity. }
  f_equal. change (J "'}") with (DQUOTE :: B "}"). by rewrite grab_esc.
Qed.

Section Commands.
Context {FS OS : Type} `{FsOps FS} `{SysOps OS}.
Context (finished exited : bool).

Lemma apply_root_changed (w : sstate FS OS) p :
  s_root (ss_srv w) = p → bprintf Resolve.OPFTP_MAX_PATH p = p → head p = Some SLASH → p ≠ s_fs_root_applied (ss_srv w) →
  let s' := ss_srv (snd (apply_root_change w)) in
  s_fs_root_applied s' = p ∧ s_fs s' = FsRooted.opftp_fs_rooted (s_fs_posix (ss_srv w)) p.
Proof.
  intros E Eb Hh Hne. unfold apply_root_change, mod_server, FsIface.st_modify. cbn [snd]. cbv zeta.
  rewrite E, Eb, (proj2 (streq_false _ _) Hne). unfold FsRooted.opftp_fs_rooted.
  rewrite bool_decide_true by done. rewrite Eb. done.
Qed.

(** What the handler does with the text of [{action: root, path: p}]. *)
Lemma cmd_root_spec (p : bytes) (w : sstate FS OS) :
  Forall (λ c, 32 ≤ cv c) p → (length p < OPFTP_SNAPSHOT_PATH)%nat →
  let absolute := bool_decide (head p = Some SLASH) in
  let '(out, w') := handle_cmd finished exited (root_cmd p) 512 w in
  out = (if streq p [] then PATH_REQUIRED else root_answer (if absolute then Ok () else Err EINVAL)) ∧
  w' = (if absolute then w <| ss_srv := (ss_srv w) <| s_root := p |> |> else w) ∧
  (absolute = true → p ≠ s_fs_root_applied (ss_srv w) →
   let s' := ss_srv (snd (apply_root_change w')) in
   s_fs_root_applied s' = p ∧ s_fs s' = FsRooted.opftp_fs_rooted (s_fs_posix (ss_srv w)) p).
Proof.
  intros Hp Hl absolute. unfold handle_cmd. rewrite root_cmd_action, root_cmd_path by done. cbn [default].
  rewrite !streq_refl. change (streq (B "root") (B "stop")) with false. cbn [from_option].
  destruct p as [|c p]; [done|]. unfold opftp_server_set_root_runtime. fold absolute.
  assert (bprintf Resolve.OPFTP_MAX_PATH (c :: p) = c :: p) as Eb by (apply bprintf_short; exact Hl).
  change (streq (c :: p) []) with false. rewrite Eb. destruct absolute eqn:Ea.
  - split_and!; [done|done|]. intros _ Hne. unfold absolute in Ea. apply bool_decide_eq_true in Ea.
    exact (apply_root_changed (w <| ss_srv := (ss_srv w) <| s_root := c :: p |> |>) (c :: p) eq_refl Eb Ea Hne).
  - split_and!; [done|by destruct w|done].
Qed.

End Commands.

Definition w_root : sstate FsMem.mctx script :=
  mk_sstate (opftp_server_create None false true) ∅ ∅ 1%positive (FsMem.opftp_fs_mem_create 0) E0 script0 [] 0.

End Httpd.
