(* ===== verification/HttpdServe.v ===== *)
(** * The web console: requests and connections

    How requests are read and answered whatever the network does to them, and
    the bookkeeping of the connections (plugin/httpd.c, modelled in Httpd.v). *)

From S2P Require Import Prelude CLib Types Resolve Sys FsIface FsRooted FsMem Pollset World Ui Json Server Lifecycle Httpd.
Import CLib Ui Json Server Lifecycle Httpd.

Local Open Scope Z_scope.

Module HttpdServe.

(** ** Text searches *)

Lemma strneq_app a b p : strneq a p (length p) = true → strneq (a ++ b) p (length p) = true.
Proof.
  unfold strneq. rewrite !streq_true, firstn_all. intros E.
  assert (length p ≤ length a)%nat as Hl by (apply (f_equal length) in E; rewrite length_take in E; lia).
  by rewrite take_app_le.
Qed.

Lemma strstr_app a b p : is_Some (strstr a p) → is_Some (strstr (a ++ b) p).
Proof.
  induction a as [|c a IH]; cbn [strstr app].
  - destruct (strneq [] p (length p)) eqn:E; [|intros [? [=]]]. intros _.
    apply (strneq_app [] b) in E. cbn [app] in E. destruct b; cbn [strstr]; by rewrite E.
  - destruct (strneq (c :: a) p (length p)) eqn:E; [by rewrite (strneq_app (c :: a) b)|].
    intros Ha. case_match; [done|by apply IH].
Qed.

Lemma cstr_of_more a b : ∃ c, cstr_of (a ++ b) = cstr_of a ++ c.
Proof.
  induction a as [|x a [c IH]]; [by eexists|]. cbn. case_match; [by exists []|]. exists c. by rewrite IH.
Qed.

Lemma headers_end_app a b : headers_end (a ++ b) = false → headers_end a = false.
Proof.
  unfold headers_end, has_str. destruct (cstr_of_more a b) as [c ->]. intros H.
  apply orb_false_elim in H as [H1 H2]. apply bool_decide_eq_false in H1, H2.
  apply orb_false_intro; apply bool_decide_eq_false; intros Hs; [apply H1|apply H2]; by apply strstr_app.
Qed.

Section Serve.
Context {FS OS : Type} `{FsOps FS} `{SysOps OS}.
Context (index_html style_css app_js : bytes) (finished exited : bool).

Abbreviation serve := (serve_client index_html style_css app_js finished exited).

(** ** Reading a request *)

(** Successive [recv] calls return these chunks. *)
Inductive recvs (fd : Z) : list bytes → OS → OS → Prop :=
  | recvs_nil os : recvs fd [] os os
  | recvs_cons c cs os os1 os2 : sys_recv fd 512 os = (Ok c, os1) → recvs fd cs os1 os2 → recvs fd (c :: cs) os os2.

Lemma read_request_step fd fuel req os :
  (length req < HTTPD_MAX_REQ)%nat →
  read_request (S fuel) fd req os =
    match sys_recv fd 512 os with
    | (Err _, os') | (Ok [], os') => (R_closed, os')
    | (Ok b, os') =>
       let req := req ++ take (HTTPD_MAX_REQ - length req) b in
       if headers_end req then (R_req req, os') else read_request fuel fd req os'
    end.
Proof. intros Hl. cbn [read_request]. by rewrite (proj2 (Nat.ltb_lt _ _) Hl). Qed.

(** The receive loop ends whatever the client sends, with at most the size of
    the buffer. *)
Lemma read_request_total fd : ∀ fuel req os, (HTTPD_MAX_REQ - length req ≤ fuel)%nat → (length req ≤ HTTPD_MAX_REQ)%nat →
  match fst (read_request fuel fd req os) with
  | R_fuel => False
  | R_closed => True
  | R_req r => (length r ≤ HTTPD_MAX_REQ)%nat
  end.
Proof.
  induction fuel as [|fuel IH]; intros req os Hf Hl.
  { cbn [read_request]. destruct (Nat.ltb_spec (length req) HTTPD_MAX_REQ); [lia|done]. }
  destruct (Nat.ltb_spec (length req) HTTPD_MAX_REQ) as [Hlt|Hge].
  - rewrite read_request_step by done. destruct (sys_recv fd 512 os) as [[[|x b]|e] os1]; [done| |done]. cbv zeta.
    assert (1 ≤ length (take (HTTPD_MAX_REQ - length req) (x :: b)))%nat as H1 by (rewrite length_take; cbn [length]; lia).
    pose proof (length_take (x :: b) (HTTPD_MAX_REQ - length req)) as H2.
    destruct (headers_end _); [cbn [fst]; rewrite length_app; lia|]. apply IH; rewrite length_app; lia.
  - cbn [read_request]. by rewrite (proj2 (Nat.ltb_ge _ _) Hge).
Qed.

(** However the bytes of a request arrive, it is read up to the chunk that
    completes its headers. *)
Lemma read_request_chunks fd last os' : ∀ init fuel req os,
  recvs fd (init ++ [last]) os os' → Forall (λ c, c ≠ []) init →
  headers_end (req ++ concat init) = false → headers_end (req ++ concat init ++ last) = true →
  (length (req ++ concat init ++ last) ≤ HTTPD_MAX_REQ)%nat → (HTTPD_MAX_REQ - length req ≤ fuel)%nat →
  read_request fuel fd req os = (R_req (req ++ concat init ++ last), os').
Proof.
  induction init as [|c init IH]; intros fuel req os Hr Hne He1 He2 Hl Hf.
  - inversion Hr as [|? ? ? os1 ? Hc Hr']; subst. inversion Hr'; subst. cbn [concat app] in *. rewrite app_nil_r in He1.
    assert (last ≠ []) as Hlast by (intros ->; rewrite app_nil_r in He2; congruence).
    rewrite length_app in Hl. destruct last as [|x last]; [done|]. cbn [length] in Hl.
    destruct fuel as [|fuel]; [lia|]. rewrite read_request_step by lia. rewrite Hc. cbv zeta.
    rewrite take_ge by (cbn [length]; lia). by rewrite He2.
  - inversion Hr as [|? ? ? os1 ? Hc Hr']; subst. apply Forall_cons in Hne as [Hn Hne]. cbn [concat] in *.
    rewrite !length_app in Hl. destruct c as [|x c]; [done|]. set (C := x :: c) in *.
    assert (1 ≤ length C)%nat as HC by (cbn; lia). destruct fuel as [|fuel]; [lia|].
    rewrite read_request_step by lia. rewrite Hc. change (Ok C) with (@Ok bytes (x :: c)). cbv zeta. cbn beta iota. fold C.
    rewrite take_ge by lia. rewrite app_assoc in He1.
    assert (req ++ (C ++ concat init) ++ last = (req ++ C) ++ concat init ++ last) as E by (by rewrite <-!app_assoc).
    rewrite E in He2 |- *.
    rewrite (headers_end_app (req ++ C) (concat init)) by done.
    apply IH; [done|done|done|done|rewrite !length_app; lia|rewrite length_app; lia].
Qed.

(** ** The request line *)

(** A word [sscanf] reads whole into [w] bytes. *)
Definition word_ok (w : nat) (s : bytes) : Prop :=
  s ≠ [] ∧ (length s ≤ w)%nat ∧ Forall (λ c, isspace c = false ∧ c ≠ NUL) s.

Lemma word_space s : ∀ w r, (length s ≤ w)%nat → Forall (λ c, isspace c = false) s →
  word w (s ++ SPACE :: r) = (s, SPACE :: r).
Proof.
  induction s as [|c s IH]; intros w r Hl Hs; [by destruct w|]. apply Forall_cons in Hs as [Hc Hs].
  destruct w as [|w]; cbn [length] in Hl; [lia|]. cbn [word app]. rewrite Hc, IH by (done || lia). done.
Qed.

Lemma scan_word_space w s r : word_ok w s → scan_word w (s ++ SPACE :: r) = Some (s, SPACE :: r).
Proof.
  intros (Hne & Hl & Hs). destruct s as [|c s]; [done|]. unfold scan_word.
  assert (skip_isspace ((c :: s) ++ SPACE :: r) = (c :: s) ++ SPACE :: r) as ->.
  { apply Forall_cons in Hs as [[Hc _] _]. cbn [skip_isspace app]. by rewrite Hc. }
  rewrite word_space; [done|done|]. eapply Forall_impl; [exact Hs|]. by intros x [? _].
Qed.

Lemma skip_isspace_word w s r : word_ok w s → skip_isspace (SPACE :: s ++ r) = s ++ r.
Proof.
  intros (Hne & _ & Hs). destruct s as [|c s]; [done|]. apply Forall_cons in Hs as [[Hc _] _].
  cbn [skip_isspace app]. change (isspace SPACE) with true. cbn iota. by rewrite Hc.
Qed.

Lemma request_line_words m p r : word_ok 7 m → word_ok 127 p →
  request_line (m ++ SPACE :: p ++ SPACE :: r) = Some (m, p).
Proof.
  intros Hm Hp. unfold request_line. rewrite scan_word_space by done. cbn [mbind option_bind].
  rewrite (skip_isspace_word 127) by done. by rewrite scan_word_space.
Qed.

Lemma word_no_nul w s : word_ok w s → no_nul s.
Proof. intros (_ & _ & Hs). eapply Forall_impl; [exact Hs|]. by intros x [_ ?]. Qed.

Lemma cstr_request m p r : word_ok 7 m → word_ok 127 p →
  cstr_of (m ++ SPACE :: p ++ SPACE :: r) = m ++ SPACE :: p ++ SPACE :: cstr_of r.
Proof.
  intros Hm Hp. rewrite cstr_of_app by (by eapply word_no_nul). cbn [cstr_of]. rewrite ceq_ne by done.
  rewrite cstr_of_app by (by eapply word_no_nul). cbn [cstr_of]. by rewrite ceq_ne by done.
Qed.

(** ** Answers *)

(** What a GET is answered with: status, content type and body. *)
Definition get_answer (h : opftp_httpd) (now_us : Z) (path : bytes) : bytes * bytes * bytes :=
  if streq path (B "/api/state") then (B "200 OK", B "application/json", emit_state h now_us HTTPD_BUF)
  else
    let p := tail path in
    match asset_of index_html style_css app_js (if streq p [] || streq p (B "index.html") then [] else p) with
    | Some (ct, data) => (B "200 OK", ct, data)
    | None => (B "404 Not Found", B "text/plain", B "not found")
    end.

Lemma respond_get fd path rest h (w : sstate FS OS) : word_ok 127 path →
  let '(st, ct, body) := get_answer h (u64 (sys_now_ms (ss_os w) * 1000)) path in
  respond index_html style_css app_js finished exited fd (B "GET" ++ SPACE :: path ++ SPACE :: rest) h w =
    (true, w <| ss_os := http_send fd st ct body (ss_os w) |>).
Proof.
  intros Hp. assert (word_ok 7 (B "GET")) as Hg by (split_and!; [done|cbn; lia|repeat constructor; done]).
  unfold respond, get_answer. cbv zeta. rewrite cstr_request, request_line_words by done. rewrite streq_refl.
  destruct (streq path (B "/api/state")); [done|]. unfold serve_asset.
  destruct (asset_of _ _ _ _) as [[ct data]|]; [done|]. by destruct w.
Qed.

Context `{!SysStream OS}.

(** Reading the wake pipe does not concern the descriptor of a client. *)
Definition drain_keeps (fd : Z) : Prop := ∀ r os, wire (sys_drain r os) fd = wire os fd.

(** How many bytes a [send] took. *)
Definition taken (r : res nat) : nat := match r with Ok n => n | Err _ => 0 end.

Lemma send_wire fd b os :
  wire (snd (sys_send fd b os)) fd = wire os fd ++ take (taken (fst (sys_send fd b os))) b.
Proof.
  destruct (sys_send fd b os) as [[n|e] os1] eqn:E; cbn [fst snd taken].
  - by destruct (send_ok _ _ _ _ _ E) as (_ & -> & _).
  - destruct (send_err _ _ _ _ _ E) as (-> & _). by rewrite app_nil_r.
Qed.

(** What reaches the client of an answer, [os] being the machine before it:
    of the headers and of the body as much as one [send] each takes. *)
Definition delivered (fd : Z) (st ct body : bytes) (os : OS) : bytes :=
  let head := http_head st ct (length body) in
  let '(r1, os1) := sys_send fd head os in
  let '(r2, _) := sys_send fd body os1 in
  take (taken r1) head ++ take (taken r2) body.

Lemma head_fits st ct n : (length st ≤ 30)%nat → (length ct ≤ 30)%nat → Z.of_nat n < 2 ^ 64 →
  (length (http_head st ct n) < 256)%nat.
Proof.
  intros Hs Hc Hn. assert (length (fmt_u (Z.of_nat n)) ≤ 20)%nat by (apply fmt_u_length; [lia|]; split; [lia|]; cbn; lia).
  unfold http_head. rewrite !length_app. cbn [length CRLF].
  change (length (B "HTTP/1.0 ")) with 9%nat. change (length (B "Content-Type: ")) with 14%nat.
  change (length (B "Content-Length: ")) with 16%nat. change (length (B "Cache-Control: no-cache")) with 23%nat.
  change (length (B "Connection: close")) with 17%nat. lia.
Qed.

Lemma http_send_wire fd st ct body os :
  (length st ≤ 30)%nat → (length ct ≤ 30)%nat → Z.of_nat (length body) < 2 ^ 64 →
  wire (http_send fd st ct body os) fd = wire os fd ++ delivered fd st ct body os.
Proof.
  intros H1 H2 H3. unfold http_send, delivered. rewrite bprintf_short by (by apply head_fits). cbv zeta.
  set (head := http_head st ct (length body)). pose proof (send_wire fd head os) as E1.
  destruct (sys_send fd head os) as [r1 os1]. cbn [fst snd] in E1.
  pose proof (send_wire fd body os1) as E2. destruct (sys_send fd body os1) as [r2 os2] eqn:Es. cbn [fst snd] in E2.
  destruct body as [|x body]; [cbn [snd]; by rewrite E1, take_nil, app_nil_r|].
  cbn [snd]. rewrite Es. cbn [snd]. by rewrite E2, E1, app_assoc.
Qed.

(** With two sends that take everything the answer is complete. *)
Lemma delivered_all fd st ct body os r1 os1 r2 os2 :
  sys_send fd (http_head st ct (length body)) os = (r1, os1) → sys_send fd body os1 = (r2, os2) →
  taken r1 = length (http_head st ct (length body)) → taken r2 = length body →
  delivered fd st ct body os = http_head st ct (length body) ++ body.
Proof. intros E1 E2 H1 H2. unfold delivered. cbv zeta. rewrite E1, E2, H1, H2. by rewrite !firstn_all. Qed.

Lemma wait_poll_wire t h os fd : drain_keeps fd →
  let '(_, h', os') := wait_poll t h os in wire os' fd = wire os fd ∧ hd_ui h' = hd_ui h.
Proof.
  intros Hd. unfold wait_poll, Pollset.opftp_pollset_wait.
  destruct (sys_poll _ t os) as [[revs|e] os1] eqn:E; destruct (poll_keeps _ _ _ _ _ fd E) as [Hw _]; [|done].
  destruct (bool_decide _); [done|]. destruct (Pollset.wake_ready _); [|done]. by rewrite Hd.
Qed.

Lemma asset_type_short q : match asset_of index_html style_css app_js q with Some (ct, _) => (length ct ≤ 30)%nat | None => True end.
Proof. unfold asset_of. destruct (streq q []), (streq q (B "style.css")), (streq q (B "app.js")); cbn; lia. Qed.

Lemma get_answer_short h now path :
  let '(st, ct, _) := get_answer h now path in (length st ≤ 30)%nat ∧ (length ct ≤ 30)%nat.
Proof.
  unfold get_answer. cbv zeta. destruct (streq path _); [cbn; lia|].
  match goal with |- context [asset_of _ _ _ ?q] => pose proof (asset_type_short q) as Hq; destruct (asset_of _ _ _ q) as [[ct data]|] end;
    cbn; lia.
Qed.

(** One request: it is read whole and answered. [fd] is not the wake pipe. *)
Lemma serve_request fd init last h (w w' : sstate FS OS) os' st ct body :
  drain_keeps fd →
  recvs fd (init ++ [last]) (ss_os w) os' → Forall (λ c, c ≠ []) init →
  headers_end (concat init) = false → headers_end (concat init ++ last) = true →
  (length (concat init ++ last) ≤ HTTPD_MAX_REQ)%nat →
  respond index_html style_css app_js finished exited fd (concat init ++ last) h (w <| ss_os := os' |>) =
    (true, w' <| ss_os := http_send fd st ct body os' |>) →
  (length st ≤ 30)%nat → (length ct ≤ 30)%nat → Z.of_nat (length body) < 2 ^ 64 →
  let '(h', w'') := serve fd (h, w) in
  wire (ss_os w'') fd = wire os' fd ++ delivered fd st ct body os' ∧
  ss_srv w'' = ss_srv w' ∧ ss_fs w'' = ss_fs w' ∧ hd_ui h' = hd_ui h.
Proof.
  intros Hd Hr Hne He1 He2 Hl EP HS1 HS2 Hb.
  pose proof (read_request_chunks fd last os' init HTTPD_MAX_REQ [] (ss_os w) Hr Hne He1 He2 Hl ltac:(cbn [length]; lia)) as ER.
  unfold serve_client. rewrite ER. cbn [app]. rewrite EP.
  change (ss_os (w' <| ss_os := http_send fd st ct body os' |>)) with (http_send fd st ct body os').
  pose proof (wait_poll_wire 30 h (http_send fd st ct body os') fd Hd) as HW.
  destruct (wait_poll 30 h (http_send fd st ct body os')) as [[r h'] os'']. destruct HW as [HW1 HW2].
  split_and!; [|done|done|done]. change (ss_os (_ <| ss_os := os'' |>)) with os''. rewrite HW1. by apply http_send_wire.
Qed.

(** C37. A GET request whose headers fit the buffer is answered once, the same
    way however the network cuts it into pieces: the state, a file of the page
    or a 404, headers with the length of the body and then the body; the FTP
    server is not touched. What the client gets of the headers and of the body
    is what one [send] each takes, for nothing is sent again; so the answer is
    complete exactly when the two sends take everything they are given. The
    only assumption on the machine is that draining the wake pipe sends
    nothing to the client. *)
Theorem get_answered (fd : Z) (path rest : bytes) (init : list bytes) (last : bytes) (h : opftp_httpd)
    (w : sstate FS OS) (os' : OS) :
  drain_keeps fd →
  recvs fd (init ++ [last]) (ss_os w) os' → Forall (λ c, c ≠ []) init →
  concat init ++ last = B "GET" ++ SPACE :: path ++ SPACE :: rest → word_ok 127 path →
  headers_end (concat init) = false → headers_end (concat init ++ last) = true →
  (length (concat init ++ last) ≤ HTTPD_MAX_REQ)%nat →
  let '(st, ct, body) := get_answer h (u64 (sys_now_ms os' * 1000)) path in
  Z.of_nat (length body) < 2 ^ 64 →
  let '(h', w') := serve fd (h, w) in
  let head := http_head st ct (length body) in
  let '(r1, os1) := sys_send fd head os' in
  let '(r2, _) := sys_send fd body os1 in
  wire (ss_os w') fd = wire os' fd ++ take (taken r1) head ++ take (taken r2) body ∧
  (taken r1 = length head → taken r2 = length body → wire (ss_os w') fd = wire os' fd ++ head ++ body) ∧
  ss_srv w' = ss_srv w ∧ ss_fs w' = ss_fs w ∧ hd_ui h' = hd_ui h.
Proof.
  intros Hd Hr Hne Et Hp He1 He2 Hl.
  pose proof (respond_get fd path rest h (w <| ss_os := os' |>) Hp) as EP. rewrite <-Et in EP.
  change (ss_os (w <| ss_os := os' |>)) with os' in EP.
  pose proof (get_answer_short h (u64 (sys_now_ms os' * 1000)) path) as HS.
  destruct (get_answer _ _ _) as [[st ct] body]. destruct HS as [HS1 HS2]. intros Hb.
  pose proof (serve_request fd init last h w w os' st ct body Hd Hr Hne He1 He2 Hl EP HS1 HS2 Hb) as Hs.
  pose proof (delivered_all fd st ct body os') as Ha.
  destruct (serve_client _ _ _ _ _ _ _) as [h' w']. cbv zeta. destruct Hs as (Hw & H1 & H2 & H3).
  unfold delivered in Hw, Ha. cbv zeta in Hw, Ha. destruct (sys_send fd _ os') as [r1 os1].
  destruct (sys_send fd body os1) as [r2 os2] eqn:E2. rewrite Hw.
  split_and!; [done| |done..]. intros Ht1 Ht2. by rewrite (Ha r1 os1 r2 os2).
Qed.

(** ** Commands *)

Lemma post_no_nul hdr p : Forall (λ c, 32 ≤ cv c) p → no_nul hdr →
  cstr_of (B "POST" ++ SPACE :: B "/api/cmd" ++ SPACE :: hdr ++ CRLF2 ++ root_cmd p) =
    B "POST" ++ SPACE :: B "/api/cmd" ++ SPACE :: hdr ++ CRLF2 ++ root_cmd p.
Proof.
  intros Hp%root_cmd_no_nul Hh. revert Hp. generalize (root_cmd p). intros b Hb. apply cstr_of_id.
  repeat first [apply Forall_app; split | apply Forall_cons; split]; done.
Qed.

Lemma respond_root fd hdr p h (w : sstate FS OS) :
  Forall (λ c, 32 ≤ cv c) p → (length (root_cmd p) ≤ 511)%nat → no_nul hdr →
  let req := B "POST" ++ SPACE :: B "/api/cmd" ++ SPACE :: hdr ++ CRLF2 ++ root_cmd p in
  strstr req CRLF2 = Some (CRLF2 ++ root_cmd p) →
  let absolute := bool_decide (head p = Some SLASH) in
  respond index_html style_css app_js finished exited fd req h w =
    (true, (if absolute then w <| ss_srv := (ss_srv w) <| s_root := p |> |> else w)
             <| ss_os := http_send fd (B "200 OK") (B "application/json")
                  (if streq p [] then PATH_REQUIRED else root_answer (if absolute then Ok () else Err EINVAL)) (ss_os w) |>).
Proof.
  intros Hp Hl Hh req Hs absolute. unfold respond. cbv zeta.
  assert (cstr_of req = req) as -> by (by apply post_no_nul).
  assert (request_line req = Some (B "POST", B "/api/cmd")) as ->.
  { apply request_line_words; (split_and!; [done|cbn; lia|repeat constructor; done]). }
  change (streq (B "POST") (B "GET")) with false. rewrite !streq_refl. cbn [andb].
  assert (post_body req = root_cmd p) as ->.
  { unfold post_body. rewrite Hs. change (drop 4 (CRLF2 ++ root_cmd p)) with (root_cmd p). by apply take_ge. }
  pose proof (root_cmd_length p) as Hlp. pose proof (cmd_root_spec finished exited p w Hp) as Hc.
  destruct (handle_cmd _ _ _ _ _) as [out w']. destruct Hc as (-> & -> & _).
  { unfold OPFTP_SNAPSHOT_PATH. lia. }
  fold absolute. by destruct absolute.
Qed.

(** C31. The command that changes the root, from the socket to the server: a
    POST to /api/cmd whose body is the JSON text of [{action: root, path: p}],
    for any path without control characters, with whatever quotes and
    backslashes in it, sets the root of the FTP server to exactly [p] if [p] is
    absolute and changes nothing otherwise, and the client is sent the answer
    that says so; the next round of the reactor then serves the tree at [p].
    Two limits of the code are hypotheses: the JSON text has at most 511 bytes
    (a longer one is cut, and a part of the path is set:
    [long_command_sets_prefix]), and its last bytes arrive in the segment that
    ends the headers. *)
Theorem cmd_root_exact (fd : Z) (p hdr : bytes) (init : list bytes) (last : bytes) (h : opftp_httpd)
    (w : sstate FS OS) (os' : OS) :
  Forall (λ c, 32 ≤ cv c) p → (length (root_cmd p) ≤ 511)%nat → no_nul hdr →
  drain_keeps fd →
  recvs fd (init ++ [last]) (ss_os w) os' → Forall (λ c, c ≠ []) init →
  let req := B "POST" ++ SPACE :: B "/api/cmd" ++ SPACE :: hdr ++ CRLF2 ++ root_cmd p in
  concat init ++ last = req → strstr req CRLF2 = Some (CRLF2 ++ root_cmd p) →
  headers_end (concat init) = false → (length req ≤ HTTPD_MAX_REQ)%nat →
  let absolute := bool_decide (head p = Some SLASH) in
  let '(h', w') := serve fd (h, w) in
  ss_srv w' = (if absolute then (ss_srv w) <| s_root := p |> else ss_srv w) ∧
  ss_fs w' = ss_fs w ∧
  wire (ss_os w') fd = wire os' fd ++ delivered fd (B "200 OK") (B "application/json")
    (if streq p [] then PATH_REQUIRED else root_answer (if absolute then Ok () else Err EINVAL)) os' ∧
  (absolute = true → p ≠ s_fs_root_applied (ss_srv w) →
   let s' := ss_srv (snd (apply_root_change w')) in
   s_fs_root_applied s' = p ∧ s_fs s' = FsRooted.opftp_fs_rooted (s_fs_posix (ss_srv w)) p).
Proof.
  intros Hp Hlb Hh Hd Hr Hne req Er Hs He1 Hl absolute.
  pose proof (respond_root fd hdr p h (w <| ss_os := os' |>) Hp Hlb Hh Hs) as EP. fold req in EP. rewrite <-Er in EP.
  cbv zeta in EP. fold absolute in EP. change (ss_os (w <| ss_os := os' |>)) with os' in EP.
  assert (headers_end (concat init ++ last) = true) as He2.
  { rewrite Er. unfold headers_end, has_str.
    assert (cstr_of req = req) as -> by (by apply post_no_nul). by rewrite Hs. }
  rewrite <-Er in Hl.
  pose proof (serve_request fd init last h w _ os' _ _ _ Hd Hr Hne He1 He2 Hl EP ltac:(cbn; lia) ltac:(cbn; lia)) as Hx.
  destruct (serve_client _ _ _ _ _ _ _) as [h' w']. destruct Hx as (Hw & H1 & H2 & _).
  { by destruct (streq p []), absolute. }
  assert (ss_srv w' = if absolute then (ss_srv w) <| s_root := p |> else ss_srv w) as Esrv by (rewrite H1; by destruct absolute).
  split_and!; [done|rewrite H2; by destruct absolute|done|].
  intros Ea Hnp. rewrite Ea in Esrv. pose proof (root_cmd_length p).
  destruct (apply_root_changed w' p) as [E1 E2].
  - by rewrite Esrv.
  - apply bprintf_short. unfold Resolve.OPFTP_MAX_PATH. lia.
  - unfold absolute in Ea. by apply bool_decide_eq_true in Ea.
  - by rewrite Esrv.
  - split; [done|]. by rewrite E2, Esrv.
Qed.

(** ** The table of connections *)

(** The descriptor and the poll handle of a slot in use. *)
Definition entry (h : opftp_httpd) (k : nat) : option (Z * Z) :=
  fd ← hd_conn_fd h !! k; hnd ← hd_conn_hnd h !! k; if fd <? 0 then None else Some (fd, hnd).

(** The registrations [R] are the listener at handle [l] and the entries of
    the table [T], each at its own handle. *)
Record table_ok (l : nat) (lfd : Z) (T : nat → option (Z * Z)) (R : nat → option (Z * Z * option Z)) : Prop := {
  to_handle k fd z : T k = Some (fd, z) → ∃ i, z = Z.of_nat i ∧ (1 ≤ i)%nat ∧ i ≠ l;
  to_inj k k' fd fd' z : T k = Some (fd, z) → T k' = Some (fd', z) → k = k';
  to_reg i x : R i = Some x ↔
    (i = l ∧ x = (lfd, POLLIN, user_of lfd)) ∨ ∃ k fd, T k = Some (fd, Z.of_nat i) ∧ x = (fd, POLLIN, user_of fd)
}.

Lemma table_ext l lfd T T' R R' : table_ok l lfd T R → (∀ k, T' k = T k) → (∀ i, R' i = R i) → table_ok l lfd T' R'.
Proof.
  intros [H1 H2 H3] HT HR. split.
  - intros k fd z. rewrite HT. apply H1.
  - intros k k' fd fd' z. rewrite !HT. apply H2.
  - intros i x. rewrite HR, H3. by setoid_rewrite HT.
Qed.

Lemma table_add l lfd T T' R R' k i fd :
  table_ok l lfd T R → T k = None → R i = None → (1 ≤ i)%nat →
  (∀ j, T' j = if decide (j = k) then Some (fd, Z.of_nat i) else T j) →
  (∀ j, R' j = if decide (j = i) then Some (fd, POLLIN, user_of fd) else R j) → table_ok l lfd T' R'.
Proof.
  intros [H1 H2 H3] HTk HRi Hi HT HR.
  assert (∀ k f, T k = Some (f, Z.of_nat i) → False) as Hfresh.
  { intros j f Hj. assert (R i = Some (f, POLLIN, user_of f)) by (apply H3; right; by exists j, f). congruence. }
  assert (i ≠ l) as Hil by (intros ->; assert (R l = Some (lfd, POLLIN, user_of lfd)) by (apply H3; by left); congruence).
  split.
  - intros j f z. rewrite HT. case_decide; [intros [= <- <-]; by exists i|apply H1].
  - intros j j' f f' z. rewrite !HT. case_decide as E; case_decide as E'; [congruence|..|apply H2].
    + intros [= <- <-] Hj. by destruct (Hfresh _ _ Hj).
    + intros Hj [= <- <-]. by destruct (Hfresh _ _ Hj).
  - intros j x. rewrite HR. case_decide as E.
    + subst j. split.
      * intros [= <-]. right. exists k, fd. by rewrite HT, decide_True.
      * intros [[? _]|(k' & f & Hk & ->)]; [done|]. rewrite HT in Hk. case_decide; [by injection Hk as <-|by destruct (Hfresh _ _ Hk)].
    + rewrite H3. split; (intros [?|(k' & f & Hk & ->)]; [by left|right; exists k', f; split; [|done]]).
      * rewrite HT, decide_False; [done|]. intros ->. congruence.
      * rewrite HT in Hk. case_decide; [|done]. injection Hk as _ ?. lia.
Qed.

Lemma table_del l lfd T T' R R' k fd i :
  table_ok l lfd T R → T k = Some (fd, Z.of_nat i) →
  (∀ j, T' j = if decide (j = k) then None else T j) →
  (∀ j, R' j = if decide (j = i) then None else R j) → table_ok l lfd T' R'.
Proof.
  intros [H1 H2 H3] HTk HT HR. destruct (H1 _ _ _ HTk) as (i' & Ei & Hi & Hil). apply Nat2Z.inj in Ei as <-. split.
  - intros j f z. rewrite HT. case_decide; [done|apply H1].
  - intros j j' f f' z. rewrite !HT. case_decide; [done|]. case_decide; [done|apply H2].
  - intros j x. rewrite HR. case_decide as E.
    + subst j. split; [done|]. intros [[? _]|(k' & f & Hk & ->)]; [done|]. rewrite HT in Hk. case_decide as Ek; [done|].
      destruct Ek. by eapply H2.
    + rewrite H3. split; (intros [?|(k' & f & Hk & ->)]; [by left|right; exists k', f; split; [|done]]).
      * rewrite HT, decide_False; [done|]. intros ->. assert (Z.of_nat j = Z.of_nat i) by congruence. lia.
      * rewrite HT in Hk. by case_decide.
Qed.

(** The bookkeeping of the server; a free slot has no handle. *)
Record conn_ok (l : nat) (h : opftp_httpd) : Prop := {
  co_wf : Pollset.wf (hd_poll h);
  co_fds : length (hd_conn_fd h) = HTTPD_MAX_CONN;
  co_hnds : length (hd_conn_hnd h) = HTTPD_MAX_CONN;
  co_free k fd z : hd_conn_fd h !! k = Some fd → hd_conn_hnd h !! k = Some z → fd < 0 → z ≤ 0;
  co_table : table_ok l (hd_listen_fd h) (entry h) (Pollset.reg (hd_poll h))
}.

Lemma entry_insert h k fd z k' h' :
  hd_conn_fd h' = <[k := fd]> (hd_conn_fd h) → hd_conn_hnd h' = <[k := z]> (hd_conn_hnd h) →
  (k < length (hd_conn_fd h))%nat → (k < length (hd_conn_hnd h))%nat →
  entry h' k' = if decide (k' = k) then if fd <? 0 then None else Some (fd, z) else entry h k'.
Proof.
  intros E1 E2 H1 H2. unfold entry. rewrite E1, E2. case_decide as Ek.
  - subst k'. by rewrite !list_lookup_insert_eq by done.
  - by rewrite !list_lookup_insert_ne by done.
Qed.

(** Writing a slot of the table, with the pollset [p] beside it. *)
Lemma slot_written l h k fd z p :
  conn_ok l h → (k < HTTPD_MAX_CONN)%nat → Pollset.wf p → (fd < 0 → z ≤ 0) →
  let h' := h <| hd_conn_fd := <[k := fd]> (hd_conn_fd h) |> <| hd_conn_hnd := <[k := z]> (hd_conn_hnd h) |> <| hd_poll := p |> in
  table_ok l (hd_listen_fd h) (λ j, if decide (j = k) then if fd <? 0 then None else Some (fd, z) else entry h j) (Pollset.reg p) →
  conn_ok l h'.
Proof.
  intros [Hwf Hf Hh Hfree Ht] Hk Hp Hz h' HT. split; cbn [hd_poll hd_conn_fd hd_conn_hnd hd_listen_fd].
  - done.
  - change (length (<[k := fd]> (hd_conn_fd h)) = HTTPD_MAX_CONN). by rewrite length_insert.
  - change (length (<[k := z]> (hd_conn_hnd h)) = HTTPD_MAX_CONN). by rewrite length_insert.
  - intros j f y. change (hd_conn_fd h') with (<[k := fd]> (hd_conn_fd h)).
    change (hd_conn_hnd h') with (<[k := z]> (hd_conn_hnd h)). destruct (decide (j = k)) as [->|Hj].
    + rewrite !list_lookup_insert_eq by lia. by intros [= <-] [= <-].
    + rewrite !list_lookup_insert_ne by done. apply Hfree.
  - eapply table_ext; [exact HT| |done]. intros j. apply entry_insert; [done|done|lia|lia].
Qed.

Lemma free_slot_spec h k : free_slot h = Some k → (k < length (hd_conn_fd h))%nat ∧ entry h k = None.
Proof.
  unfold free_slot, entry. destruct (list_find _ _) as [[k' fd]|] eqn:E; [|done]. intros [= <-].
  apply list_find_Some in E as (Hk & Hf & _). split; [by eapply lookup_lt_Some|]. rewrite Hk. cbn [mbind option_bind].
  destruct (hd_conn_hnd h !! k'); [|done]. cbn [mbind option_bind]. by rewrite Hf.
Qed.

Lemma add_conn_ok l h slot fd : conn_ok l h → free_slot h = Some slot → conn_ok l (add_conn slot fd h).
Proof.
  intros Hok [Hs He]%free_slot_spec. rewrite (co_fds _ _ Hok) in Hs. unfold add_conn.
  destruct (Pollset.opftp_pollset_add (hd_poll h) fd POLLIN (user_of fd)) as [[i|] p] eqn:Ea.
  - destruct (Pollset.add_spec _ _ _ _ _ _ (co_wf _ _ Hok) Ea) as (Hwf' & Hfd & Hi1 & Hn & Hreg).
    apply slot_written; [done|done|done|lia|]. rewrite (proj2 (Z.ltb_ge fd 0)) by done.
    by eapply (table_add l _ _ _ _ _ slot i fd (co_table _ _ Hok)).
  - unfold Pollset.opftp_pollset_add in Ea. destruct (Z.ltb_spec fd 0) as [Hfd|Hfd]; [|by case_match].
    injection Ea as <-. apply slot_written; [done|done|apply Hok|lia|]. rewrite (proj2 (Z.ltb_lt fd 0)) by done.
    eapply table_ext; [apply Hok| |done]. intros j. cbn beta. case_decide; [by subst|done].
Qed.

Lemma slot_of_spec fd h k : slot_of fd h = Some k → hd_conn_fd h !! k = Some fd.
Proof.
  unfold slot_of. destruct (list_find _ _) as [[k' x]|] eqn:E; [|done]. intros [= <-].
  apply list_find_Some in E as (Hk & Hx%Z.eqb_eq & _). by subst.
Qed.

Lemma drop_conn_ok l h k fd : conn_ok l h → hd_conn_fd h !! k = Some fd → conn_ok l (drop_conn (Some k) h).
Proof.
  intros Hok Hk. pose proof (lookup_lt_Some _ _ _ Hk) as Hlt. rewrite (co_fds _ _ Hok) in Hlt.
  destruct (lookup_lt_is_Some_2 (hd_conn_hnd h) k) as [z Hz]; [by rewrite (co_hnds _ _ Hok)|].
  unfold drop_conn. rewrite (nth_lookup_Some _ _ _ _ Hz).
  assert (∀ p, h <| hd_poll := p |> <| hd_conn_fd := <[k := -1]> (hd_conn_fd h) |> <| hd_conn_hnd := <[k := -1]> (hd_conn_hnd h) |> =
               h <| hd_conn_fd := <[k := -1]> (hd_conn_fd h) |> <| hd_conn_hnd := <[k := -1]> (hd_conn_hnd h) |> <| hd_poll := p |>) as ->
    by done.
  destruct (Z.ltb_spec fd 0) as [Hneg|Hpos].
  - pose proof (co_free _ _ Hok _ _ _ Hk Hz Hneg) as Hz0.
    assert (Pollset.opftp_pollset_remove (hd_poll h) z = hd_poll h) as ->.
    { unfold Pollset.opftp_pollset_remove. destruct (Pollset.valid_handle (hd_poll h) z) eqn:Ev; [|done].
      apply Pollset.valid_handle_spec in Ev as (_ & _ & _ & ?). lia. }
    apply slot_written; [done|done|apply Hok|lia|]. eapply table_ext; [apply Hok| |done].
    intros j. cbn. case_decide; [subst|done]. unfold entry. rewrite Hk, Hz. cbn. by rewrite (proj2 (Z.ltb_lt fd 0)).
  - assert (entry h k = Some (fd, z)) as Ee by (unfold entry; rewrite Hk, Hz; cbn; by rewrite (proj2 (Z.ltb_ge fd 0))).
    destruct (to_handle _ _ _ _ (co_table _ _ Hok) _ _ _ Ee) as (i & -> & Hi & _).
    destruct (Pollset.remove_spec (hd_poll h) i (co_wf _ _ Hok) Hi) as [Hwf' Hreg].
    apply slot_written; [done|done|done|lia|]. by eapply (table_del l _ _ _ _ _ k fd i (co_table _ _ Hok)).
Qed.

(** Polling changes no registration. *)
Lemma set_revents_reg revs (p : hpollset) i : Pollset.reg (Pollset.with_slots p (Pollset.set_revents revs (Pollset.ps_slots p))) i = Pollset.reg p i.
Proof.
  destruct i as [|i]; [done|]. unfold Pollset.reg, Pollset.set_revents. cbn [Pollset.ps_slots Pollset.with_slots].
  rewrite list_lookup_imap. by destruct (Pollset.ps_slots p !! S i).
Qed.

Lemma set_revents_wf revs (p : hpollset) : Pollset.wf p → Pollset.wf (Pollset.with_slots p (Pollset.set_revents revs (Pollset.ps_slots p))).
Proof.
  intros [(s & r & E & H1 & H2 & H3) Hc]. split.
  - unfold Pollset.set_revents. cbn [Pollset.ps_slots Pollset.with_slots]. rewrite E, imap_cons. by eexists _, _.
  - cbn [Pollset.ps_slots Pollset.with_slots Pollset.ps_cap]. unfold Pollset.set_revents. by rewrite length_imap.
Qed.

Lemma clear_wake_reg (p : hpollset) i : Pollset.reg (Pollset.with_slots p (Pollset.clear_wake (Pollset.ps_slots p))) i = Pollset.reg p i.
Proof. destruct i as [|i]; [done|]. unfold Pollset.reg. cbn. by destruct (Pollset.ps_slots p). Qed.

Lemma clear_wake_wf (p : hpollset) : Pollset.wf p → Pollset.wf (Pollset.with_slots p (Pollset.clear_wake (Pollset.ps_slots p))).
Proof. intros [(s & r & E & H1 & H2 & H3) Hc]. split; cbn; rewrite E in *; [by eexists _, _|done]. Qed.

Lemma wait_keeps (p : hpollset) t (os : OS) r p' os' : Pollset.wf p → Pollset.opftp_pollset_wait p t os = (r, p', os') →
  Pollset.wf p' ∧ ∀ i, Pollset.reg p' i = Pollset.reg p i.
Proof.
  intros Hwf. unfold Pollset.opftp_pollset_wait. destruct (sys_poll _ t os) as [[revs|e] os1]; [|by intros [= <- <- <-]].
  pose proof (set_revents_wf revs p Hwf) as Hw1. pose proof (set_revents_reg revs p) as Hr1.
  destruct (bool_decide _); [by intros [= <- <- <-]|].
  destruct (Pollset.wake_ready _); intros [= <- <- <-]; [|done].
  set (q := Pollset.with_slots p (Pollset.set_revents revs (Pollset.ps_slots p))) in *.
  change (Pollset.with_slots p (Pollset.clear_wake _)) with (Pollset.with_slots q (Pollset.clear_wake (Pollset.ps_slots q))).
  split; [by apply clear_wake_wf|]. intros i. rewrite clear_wake_reg. apply Hr1.
Qed.

(** Two records with the same connections. *)
Lemma conn_ok_same l h h' :
  conn_ok l h → hd_conn_fd h' = hd_conn_fd h → hd_conn_hnd h' = hd_conn_hnd h → hd_listen_fd h' = hd_listen_fd h →
  Pollset.wf (hd_poll h') → (∀ i, Pollset.reg (hd_poll h') i = Pollset.reg (hd_poll h) i) → conn_ok l h'.
Proof.
  intros [Hwf Hf Hh Hfree Ht] E1 E2 E3 Hwf' Hr. split; [done|congruence|congruence| |].
  - intros k fd z. rewrite E1, E2. apply Hfree.
  - rewrite E3. eapply table_ext; [exact Ht| |done]. intros k. unfold entry. by rewrite E1, E2.
Qed.

Lemma wait_poll_ok l t h (os : OS) : conn_ok l h →
  let '(_, h', _) := wait_poll t h os in conn_ok l h' ∧ hd_conn_fd h' = hd_conn_fd h ∧ hd_listen_fd h' = hd_listen_fd h.
Proof.
  intros Hok. unfold wait_poll. destruct (Pollset.opftp_pollset_wait _ t os) as [[r p'] os'] eqn:E.
  destruct (wait_keeps _ _ _ _ _ _ (co_wf _ _ Hok) E) as [Hwf Hr].
  split_and!; [|done|done]. by apply (conn_ok_same l h).
Qed.

Lemma serve_client_ok l fd h (w : sstate FS OS) : conn_ok l h →
  let h' := fst (serve fd (h, w)) in conn_ok l h' ∧ hd_conn_fd h' = hd_conn_fd h ∧ hd_listen_fd h' = hd_listen_fd h.
Proof.
  intros Hok. unfold serve_client. destruct (read_request _ _ _ _) as [[| |req] os1]; [done|done|].
  destruct (respond _ _ _ _ _ _ _ _ _) as [[] w']; [|done].
  pose proof (wait_poll_ok l 30 h (ss_os w') Hok) as Hw. by destruct (wait_poll 30 h (ss_os w')) as [[r h'] os'].
Qed.

Lemma accept_loop_ok l fuel : ∀ h (w : sstate FS OS), conn_ok l h →
  conn_ok l (fst (accept_loop fuel (h, w))) ∧ hd_listen_fd (fst (accept_loop fuel (h, w))) = hd_listen_fd h.
Proof.
  induction fuel as [|fuel IH]; intros h w Hok; [done|]. cbn [accept_loop].
  destruct (free_slot h) as [slot|] eqn:Es; [|done].
  destruct (sys_accept _ _) as [[[fd sa]|e] os']; [|done].
  destruct (IH (add_conn slot fd h) (w <| ss_os := os' |>)) as [H1 H2]; [by apply add_conn_ok|]. split; [done|].
  rewrite H2. unfold add_conn. by destruct (Pollset.opftp_pollset_add _ _ _ _).
Qed.

Abbreviation event := (on_event index_html style_css app_js finished exited).
Abbreviation round := (httpd_round index_html style_css app_js finished exited).

Lemma on_event_ok l u h (w : sstate FS OS) : conn_ok l h → conn_ok l (fst (event u (h, w))).
Proof.
  intros Hok. unfold on_event. destruct (fd_of u =? hd_listen_fd h); [by apply accept_loop_ok|].
  pose proof (serve_client_ok l (fd_of u) h w Hok) as Hs. destruct (serve (fd_of u) (h, w)) as [h' w']. cbn [fst] in *.
  destruct Hs as (H1 & H2 & H3). destruct (slot_of (fd_of u) h) as [k|] eqn:Ek; [|done].
  apply (drop_conn_ok l h' k (fd_of u)); [done|]. rewrite H2. by apply slot_of_spec.
Qed.

Lemma conn_events_ok l evs : ∀ h (w : sstate FS OS), conn_ok l h → conn_ok l (fst (foldl (λ s '(u, _), event u s) (h, w) (evs : list (option Z * Z)))).
Proof.
  induction evs as [|[u ev] evs IH]; intros h w Hok; [done|]. cbn [foldl].
  pose proof (on_event_ok l u h w Hok) as Hu. destruct (event u (h, w)) as [h' w']. by apply IH.
Qed.

Lemma round_ok l h (w : sstate FS OS) : conn_ok l h → conn_ok l (fst (round (h, w))).
Proof.
  intros Hok. unfold httpd_round. destruct (poll_model _ (h, w)) as [h1 w1] eqn:Ep.
  assert (conn_ok l h1) as H1.
  { unfold poll_model in Ep. destruct (1000000 <=? _); injection Ep as <- <-; [by apply (conn_ok_same l h); try apply Hok|done]. }
  pose proof (wait_poll_ok l 250 h1 (ss_os w1) H1) as Hw. destruct (wait_poll 250 h1 (ss_os w1)) as [[r h2] os2].
  destruct Hw as (Hw & _). destruct r as [[|n]|e]; [done| |done]. by apply conn_events_ok.
Qed.

Lemma rounds_ok l n h (w : sstate FS OS) : conn_ok l h → conn_ok l (fst (Nat.iter n round (h, w))).
Proof.
  intros Hok. induction n as [|n IH]; [done|]. rewrite Nat.iter_succ. destruct (Nat.iter n round (h, w)) as [h' w']. by apply round_ok.
Qed.

(** A new server polls its listener and nothing else. *)
Lemma httpd_create_ok thread_ok version port os h os' :
  opftp_httpd_create thread_ok version port os = (Some h, os') → 0 ≤ hd_listen_fd h → conn_ok 1 h.
Proof.
  unfold opftp_httpd_create. cbv zeta. remember (replicate HTTPD_MAX_CONN (-1)) as cf eqn:Ecf.
  remember (replicate HTTPD_MAX_CONN 0) as ch eqn:Ech. remember (bprintf 48 _) as ver. destruct (sys_pipe os) as [[pipefd|e] os1]; [|done].
  destruct (sys_socket AF_INET os1) as [[fd|e] os2]; [|done]. destruct (sys_bind _ _ os2) as [[]  os3]; [|done].
  destruct (sys_listen fd os3) as [[] os4]; [|done]. destruct thread_ok; [|done]. cbn [negb]. intros [= <- _] Hfd.
  cbn [hd_listen_fd] in Hfd.
  destruct (Pollset.opftp_pollset_add (Pollset.opftp_pollset_create pipefd) fd POLLIN (user_of fd)) as [[i|] p] eqn:Ea;
    [|unfold Pollset.opftp_pollset_add in Ea; rewrite (proj2 (Z.ltb_ge fd 0)) in Ea by done; by case_match].
  assert (i = 1%nat) as -> by (unfold Pollset.opftp_pollset_add in Ea; rewrite (proj2 (Z.ltb_ge fd 0)) in Ea by done; by injection Ea as <- _).
  destruct (Pollset.add_spec _ _ _ _ _ _ (Pollset.wf_create pipefd) Ea) as (Hwf & _ & _ & _ & Hreg).
  assert (∀ i, Pollset.reg (Pollset.opftp_pollset_create (U := Z) pipefd) i = None) as Hnone by (by intros [|[|?]]).
  split; cbn [hd_poll hd_conn_fd hd_conn_hnd hd_listen_fd snd].
  - done.
  - by rewrite Ecf, length_replicate.
  - by rewrite Ech, length_replicate.
  - intros k f z Hk. rewrite Ech. intros [-> _]%lookup_replicate _. lia.
  - match goal with |- table_ok _ _ (entry ?h) _ => assert (∀ k, entry h k = None) as He end.
    { intros k. unfold entry. cbn [hd_conn_fd hd_conn_hnd]. rewrite Ecf, Ech.
      destruct (replicate HTTPD_MAX_CONN (-1) !! k) as [f|] eqn:Ef; [|done].
      apply lookup_replicate in Ef as [-> _]. cbn [mbind option_bind]. by destruct (replicate HTTPD_MAX_CONN 0 !! k). }
    split.
    + intros k f z. by rewrite He.
    + intros k k' f f' z. by rewrite He.
    + intros i x. rewrite Hreg, Hnone. setoid_rewrite He. case_decide as E.
      * split; [intros [= <-]; by left|]. by intros [[_ ->]|(? & ? & ? & _)].
      * split; [done|]. by intros [[? _]|(? & ? & ? & _)].
Qed.

(** C38. The connections of the web console: after any number of rounds of its
    thread, whatever clients connect, send and hang up, the registrations of
    its pollset are exactly the listener and the connections of the table,
    every slot in use at a handle of its own; a free slot has none. *)
Theorem conn_table_exact (rounds : nat) (version : option bytes) (port : Z) (h : opftp_httpd) (w : sstate FS OS) (os' : OS) :
  opftp_httpd_create true version port (ss_os w) = (Some h, os') → 0 ≤ hd_listen_fd h →
  conn_ok 1 (fst (httpd_thread index_html style_css app_js finished exited rounds (h, w <| ss_os := os' |>))).
Proof.
  intros Hc Hl. pose proof (httpd_create_ok _ _ _ _ _ _ Hc Hl) as Hok. unfold httpd_thread. apply rounds_ok.
  apply (conn_ok_same 1 h); try done. apply Hok.
Qed.

End Serve.

(** ** Witnesses *)

Definition get_chunks : list bytes := [B "GET /style"; B ".css HTTP/1.0"].

Lemma script_drains fd : drain_keeps (OS := script) fd.
Proof. done. Qed.

Definition w_http (input : list bytes) : sstate FsMem.mctx script := w_root <| ss_os := script_with input |>.

Lemma get_answered_witness :
  wire (ss_os (snd (serve_client (B "page") (B "style") (B "code") true true 7 (h_with [], w_http (get_chunks ++ [CRLF2]))))) 7 =
    http_head (B "200 OK") (B "text/css") 5 ++ B "style".
Proof.
  set (w := w_http (get_chunks ++ [CRLF2])).
  pose proof (get_answered (B "page") (B "style") (B "code") true true 7 (B "/style.css") (B "HTTP/1.0" ++ CRLF2) get_chunks CRLF2
    (h_with []) w (script_with [])) as Hx.
  specialize (Hx (script_drains 7)).
  specialize (Hx ltac:(repeat (eapply recvs_cons; [by vm_compute|]); apply recvs_nil)).
  specialize (Hx ltac:(repeat constructor; done) eq_refl).
  specialize (Hx ltac:(split_and!; [done|cbn; lia|repeat constructor; done]) ltac:(by vm_compute) ltac:(by vm_compute)).
  specialize (Hx ltac:(apply Nat.leb_le; by vm_compute)).
  change (get_answer _ _ _ _ _ _) with (B "200 OK", B "text/css", B "style") in Hx. cbv beta iota in Hx.
  specialize (Hx ltac:(done)). destruct (serve_client _ _ _ _ _ _ _) as [h' w']. cbn [snd].
  exact (proj1 (proj2 Hx) eq_refl eq_refl).
Defined.

(** A command in two pieces. *)
Definition demo_path : bytes := B "/dev_hdd0/my \ dir".
Definition post_chunks : list bytes := [B "POST /api/cmd HT"].
Definition post_last (p : bytes) : bytes := B "TP/1.0" ++ CRLF2 ++ root_cmd p.

Lemma cmd_root_exact_witness :
  let w' := snd (serve_client (B "page") (B "style") (B "code") true true 7
                   (h_with [], w_http (post_chunks ++ [post_last demo_path]))) in
  s_root (ss_srv w') = demo_path ∧
  wire (ss_os w') 7 = http_head (B "200 OK") (B "application/json") 11 ++ J "{'ok':true}".
Proof.
  pose proof (cmd_root_exact (B "page") (B "style") (B "code") true true 7 demo_path (B "HTTP/1.0") post_chunks
    (post_last demo_path) (h_with []) (w_http (post_chunks ++ [post_last demo_path])) (script_with [])) as Hx.
  specialize (Hx ltac:(by apply (bool_decide_unpack _); vm_compute) ltac:(apply Nat.leb_le; by vm_compute)).
  specialize (Hx ltac:(by repeat constructor) (script_drains 7)).
  specialize (Hx ltac:(repeat (eapply recvs_cons; [by vm_compute|]); apply recvs_nil)).
  specialize (Hx ltac:(by repeat constructor) ltac:(by vm_compute) ltac:(by vm_compute) ltac:(by vm_compute)).
  specialize (Hx ltac:(apply Nat.leb_le; by vm_compute)). cbv zeta in Hx |- *.
  destruct (serve_client _ _ _ _ _ _ _) as [h' w']. destruct Hx as (Hs & _ & Hw & _). cbn [snd]. rewrite Hs, Hw.
  split; by vm_compute.
Defined.

(** A path of 601 bytes, of whose JSON text 511 bytes arrive with the end of
    the headers: the root is set to its first 486 bytes. *)
Example long_command_sets_prefix :
  let p := SLASH :: replicate 600 "d"%char in
  let chunks := [B "POST /api/cmd HTTP/1.0" ++ [CR; LF; CR]; LF :: take 511 (root_cmd p); drop 511 (root_cmd p)] in
  s_root (ss_srv (snd (serve_client (B "page") (B "style") (B "code") true true 7 (h_with [], w_http chunks)))) = take 486 p.
Proof. by vm_compute. Qed.

Lemma conn_table_exact_witness :
  ∃ h os', opftp_httpd_create true (Some (B "v")) 0 script0 = (Some h, os') ∧
  conn_ok 1 (fst (httpd_thread (B "page") (B "style") (B "code") true true 3 (h, w_root <| ss_os := os' |>))).
Proof.
  eexists _, _. split; [reflexivity|].
  apply (conn_table_exact (B "page") (B "style") (B "code") true true 3 (Some (B "v")) 0 _ w_root); [reflexivity|].
  by apply Z.leb_le.
Defined.

End HttpdServe.
