(* ===== verification/Scenario.v ===== *)
(** * A concrete server

    The in-memory backend, the scripted machine, a server started on
    [/srv] and a client: the state on which the theorems about sessions are
    evaluated. *)

From S2P Require Import Prelude Types Resolve Sys FsIface FsRooted FsMem Dispatch Queue World.
From S2P Require Import Client Commands Transfer Server Lifecycle.
Import FsMem Client Commands Transfer Server Lifecycle.

Local Open Scope Z_scope.

Module Scenario.

(** The tree [/srv/a] and the file [/srv/f] with seven bytes. *)
Definition tree : mctx :=
  let x1 := snd (mem_mkdir (B "/srv") 0 (opftp_fs_mem_create 1700000000)) in
  let x2 := snd (mem_mkdir (B "/srv/a") 0 x1) in
  let x3 := snd (mem_open (B "/srv/f") (Z.lor OPFTP_O_WRONLY OPFTP_O_CREAT) 420 x2) in
  snd (mem_close 1 (snd (mem_write 1 (B "content") x3))).

(** A server configured with [root] and initialised. *)
Definition server (root : bytes) : opftp_server :=
  (opftp_reactor_init id true
     (opftp_server_set_root root
        (opftp_server_create (Some (λ u p, streq p (B "secret"))) false false)) script0).1.2.

Definition client (logged_in : bool) : opftp_client :=
  opftp_client_new 5 (SA_in [chr 10; chr 0; chr 0; chr 2] 50000) 16 <| c_logged_in := logged_in |>.

Definition no_custom {FS OS} (n : nat) (p : option bytes) : HM FS OS () :=
  opftp_client_send_reply 500 (B "Unknown command.").
Definition no_hook {FS OS} : HM FS OS () := mret ().

(** A client of the server on [root], with input waiting on its socket. *)
Definition state (root : bytes) (logged_in : bool) (input : list bytes)
  : hstate (Logged mctx) script :=
  mk_hstate 1%positive (client logged_in) (server root) ∅ 1%positive (mk_logged tree []) E0
    (script_with input) [] 0.

(** The replies to a list of command lines. *)
Definition session (root : bytes) (lines : list bytes) : list bytes :=
  h_out (foldl (λ h l, snd (process_line no_custom l h)) (state root false []) lines).

(** A session on the root [/]: login, directories, a listing, a refusal. *)
Example session_runs :
  session (B "/")
    [B "PWD"; B "USER bob"; B "PASS wrong"; B "USER bob"; B "PASS secret"; B "CWD srv"; B "PWD";
     B "SIZE f"; B "MKD b"; B "CWD /none"; B "PASV"; B "LIST"; B "LIST"]
  = (λ s, s ++ CRLF) <$>
    [B "530 Not logged in."; B "331 Username bob OK. Password required."; B "530 Not logged in.";
     B "331 Username bob OK. Password required."; B "230 Successfully logged in as bob.";
     B "250 File operation successful."; B "257 " ++ quoted (B "/srv"); B "213 7";
     B "257 " ++ quoted (B "/srv/b"); B "550 No such file or directory.";
     B "227 Entering Passive Mode (127,0,0,1,8,73)"; B "150 Accepted data connection.";
     B "450 Another data transfer is already in progress."].
Proof. vm_compute. reflexivity. Qed.

(** ** A transfer through the worker pool *)

(** The reactor state with one client that is logged in. *)
Definition reactor (root : bytes) (input : list bytes) : sstate mctx script :=
  mk_sstate (server root <| s_clients := [1%positive] |>) {[ 1%positive := client true ]} ∅
    2%positive tree E0 (script_with input) [] 0.

Definition command (line : bytes) (w : sstate mctx script) : sstate mctx script :=
  snd (focus 1%positive (process_line no_custom line) w).

(** A worker takes the job, the reactor drains its completion. *)
Definition work (w : sstate mctx script) : sstate mctx script :=
  snd (drain_completions (snd (worker_step (λ _, false) E0 100 w))).

(** The replies, what went out on the data connection, and the content of a
    file afterwards. *)
Definition outcome (file : bytes) (w : sstate mctx script) : list bytes * bytes * bytes :=
  (snd <$> ss_out w, wire (ss_os w) 10,
   match node_lookup (ss_fs w) file with
   | Ok n => default [] (m_data <$> x_heap (ss_fs w) !! n)
   | Err _ => []
   end).

Definition transfer (input : list bytes) (lines : list bytes) (file : bytes) :=
  outcome file (work (foldl (λ w l, command l w) (reactor (B "/srv") input) lines)).

Example retr_runs :
  transfer [] [B "PORT 10,0,0,2,200,13"; B "REST 3"; B "RETR f"] (B "/srv/f")
  = ((λ s, s ++ CRLF) <$> [B "200 OK."; B "350 Restarting at 3."; B "150 Accepted data connection.";
                           B "226 Transfer complete."],
     B "tent", B "content").
Proof. vm_compute. reflexivity. Qed.

Example stor_runs :
  transfer [B "abc"; B "def"; []] [B "PORT 10,0,0,2,200,13"; B "STOR /a/g"] (B "/srv/a/g")
  = ((λ s, s ++ CRLF) <$> [B "200 OK."; B "150 Accepted data connection."; B "226 Transfer complete."],
     [], B "abcdef").
Proof. vm_compute. reflexivity. Qed.

Example copy_runs :
  transfer [] [B "CPFR f"; B "CPTO /a/g"] (B "/srv/a/g")
  = ((λ s, s ++ CRLF) <$> [B "350 File exists, ready for destination name."; B "250 Copy successful."],
     [], B "content").
Proof. vm_compute. reflexivity. Qed.

(** A PORT address other than the control peer is refused before a 150. *)
Example bounce_refused :
  transfer [] [B "PORT 10,0,0,3,200,13"; B "RETR f"] (B "/srv/f")
  = ((λ s, s ++ CRLF) <$> [B "200 OK."; B "425 Cannot open data connection."], [], B "content").
Proof. vm_compute. reflexivity. Qed.

(** The state in which a worker starts a RETR of [/srv/f]. *)
Definition retr_job : opftp_transfer_job :=
  mk_job 1%positive 1 OPFTP_JOB_RETR (B "/srv/f") [] 0 false false false (1000, 1001) (-1) false None
    (-1) (SA_in [chr 10; chr 0; chr 0; chr 2] 51213) 16 true
    (SA_in [chr 10; chr 0; chr 0; chr 2] 50000) 16 false 0 0 (Ok ()) 0 false.

Definition retr_state : tstate mctx script := mk_tstate retr_job tree E0 script0 0 0.

End Scenario.
