(* ===== verification/TransferEnd.v ===== *)
(** * An aborted transfer ends

    Every loop of a worker reads the cancel flag in each round, so once the
    reactor has set it the job finishes, whatever the peer, the machine and
    the backend do. *)

From S2P Require Import Prelude Types Resolve Sys Tls FsIface FsRooted FsMem World Client.
From S2P Require Import Datachan Commands Transfer Server Scenario.
Import FsMem Tls Datachan Transfer.

Local Open Scope Z_scope.

Module TransferEnd.

Section End_.
Context {FS OS : Type} `{FsOps FS} `{SysOps OS}.
Context (srv : opftp_server) (r : rooted) (cancel : nat → bool).
(** The flag is seen set from the [K]-th read on. *)
Context (K : nat) (Hcancel : ∀ k, (K ≤ k)%nat → cancel k = true).

Local Abbreviation T A := (TM FS OS A).

(** Reads of the flag are only counted up. *)
Definition steady {A} (m : T A) : Prop := ∀ t, (t_tick t ≤ t_tick (m t).2)%nat.

Lemma steady_ret {A} (a : A) : steady (mret a).
Proof. intros t. cbn. lia. Qed.
Lemma steady_bind {A B} (m : T A) (k : A → T B) :
  steady m → (∀ a, steady (k a)) → steady (m ≫= k).
Proof.
  intros Hm Hk t. rewrite ST_bind_eq. specialize (Hm t). destruct (m t) as [a t'].
  specialize (Hk a t'). cbn [snd] in *. lia.
Qed.
Lemma steady_cancelled : steady (job_cancelled cancel).
Proof. intros t. cbn. lia. Qed.
Lemma steady_get_job : steady get_job.
Proof. intros t. cbn. lia. Qed.
Lemma steady_mod_tjob f : steady (mod_tjob f).
Proof. intros t. cbn. lia. Qed.
Lemma steady_fs_op {A} (op : FsM FS A) : steady (fs_op op).
Proof. intros t. unfold fs_op. destruct (op _) as [a [fs' e']]. cbn. lia. Qed.
Lemma steady_os_op {A} (op : OS → res A * OS) : steady (os_op op).
Proof. intros t. unfold os_op. destruct (op _) as [a os']. cbn. lia. Qed.
Lemma steady_tls_op {A} op (d : A) : steady (tls_op op d).
Proof. intros t. unfold tls_op. repeat case_match; cbn; lia. Qed.
Lemma steady_fail {A} : steady (fail_errno (A:=A)).
Proof. intros t. cbn. lia. Qed.
Lemma steady_add_bytes n : steady (add_bytes n).
Proof. intros t. cbn. lia. Qed.
Lemma steady_list_line j de : steady (list_line j de).
Proof. intros t. unfold list_line. repeat case_match; cbn; lia. Qed.
Hint Resolve steady_ret steady_cancelled steady_get_job steady_mod_tjob steady_fs_op steady_os_op
  steady_tls_op steady_fail steady_add_bytes steady_list_line : opftp.

Ltac steady_steps :=
  repeat first
    [ progress intros
    | match goal with
      | |- steady (_ ≫= _) => apply steady_bind
      | |- steady (match ?x with _ => _ end) => destruct x
      end
    | solve [eauto 2 with opftp nocore] ].

Lemma steady_wait_fd fd ev tmo : steady (wait_fd cancel fd ev tmo).
Proof. unfold wait_fd, cancelled_or_again. steady_steps. Qed.
Hint Resolve steady_wait_fd : opftp.
Lemma steady_recv_some n : steady (recv_some cancel n).
Proof. unfold recv_some. steady_steps. Qed.
Lemma steady_write_all f fd b : steady (fs_write_all r f fd b).
Proof. revert b. induction f as [|f IH]; intros [|x b]; cbn [fs_write_all]; steady_steps. Qed.
Lemma steady_write fd b : steady (write_all r fd b).
Proof. apply steady_write_all. Qed.
Hint Resolve steady_recv_some steady_write : opftp.

(** ** Rules for the loops *)

(** The action ends when its fuel covers the reads up to the [K]-th. *)
Definition ok_at {A} (f : nat) (m : T (option A)) : Prop :=
  ∀ t, (1 ≤ f)%nat → (K < t_tick t + f)%nat →
    is_Some (m t).1 ∧ (t_tick t ≤ t_tick (m t).2)%nat.

Lemma ok_zero {A} (m : T (option A)) : ok_at 0 m.
Proof. intros t ?. lia. Qed.

Lemma ok_some {A} f (a : A) : ok_at f (mret (Some a)).
Proof. intros t _ _. split; [by eexists|cbn; lia]. Qed.

Lemma ok_bind {A B} f (m : T A) (k : A → T (option B)) :
  steady m → (∀ a, ok_at f (k a)) → ok_at f (m ≫= k).
Proof.
  intros Hm Hk t Hf Ht. rewrite ST_bind_eq. specialize (Hm t). destruct (m t) as [a t'].
  cbn [snd] in Hm. destruct (Hk a t') as [? ?]; [done|lia|]. split; [done|lia].
Qed.

(** A sub-loop that ends, then the rest on its result. *)
Lemma ok_bind_some {A B} f (m : T (option A)) (k : option A → T (option B)) :
  ok_at f m → (∀ a, ok_at f (k (Some a))) → ok_at f (m ≫= k).
Proof.
  intros Hm Hk t Hf Ht. rewrite ST_bind_eq. destruct (Hm t Hf Ht) as [[a Ha] Hle].
  destruct (m t) as [o t']. cbn [fst snd] in *. subst o.
  destruct (Hk a t') as [? ?]; [done|lia|]. split; [done|lia].
Qed.

(** The head of every loop: one unit of fuel for one read of the flag. *)
Lemma ok_round {A} f (e : A) (k : T (option A)) :
  ok_at f k →
  ok_at (S f) (c ← job_cancelled cancel; if (c : bool) then mret (Some e) else k).
Proof.
  intros Hk t Hf Ht. rewrite ST_bind_eq. unfold job_cancelled.
  destruct (cancel (t_tick t)) eqn:Ec; [split; [by eexists|cbn; lia]|].
  assert (t_tick t < K)%nat.
  { destruct (decide (K ≤ t_tick t)%nat) as [Hle|]; [|lia]. by rewrite Hcancel in Ec. }
  destruct (Hk (t <| t_tick := S (t_tick t) |>)) as [? Hle]; [lia|cbn; lia|].
  split; [done|]. cbn in Hle. lia.
Qed.

Create HintDb transfer_end.
#[local] Hint Constants Opaque : transfer_end.
#[local] Hint Resolve ok_zero ok_some : transfer_end.

Ltac ok_steps :=
  repeat first
    [ progress intros
    | solve [eauto 2 with transfer_end nocore]
    | match goal with
      | |- ok_at _ (job_cancelled _ ≫= _) => apply ok_round
      | |- ok_at _ (_ ≫= _) =>
          first [ apply ok_bind; [solve [steady_steps]|]
                | apply ok_bind_some; [solve [eauto 2 with transfer_end nocore]|] ]
      | |- ok_at _ (match ?x with _ => _ end) => destruct x
      | |- ok_at _ (mret (match ?x with _ => _ end)) => destruct x
      end ].

(** ** The loops *)

Lemma ok_send_all f b : ok_at f (send_all cancel f b).
Proof. revert b. induction f as [|f IH]; intros [|x b]; cbn [send_all]; ok_steps. Qed.
Hint Resolve ok_send_all : transfer_end.

Lemma ok_tls_handshake f : ok_at f (tls_handshake_loop cancel f).
Proof. induction f as [|f IH]; cbn [tls_handshake_loop]; ok_steps. Qed.
Hint Resolve ok_tls_handshake : transfer_end.

Lemma ok_list_flush f b : ok_at f (list_flush cancel f b).
Proof. unfold list_flush. ok_steps. Qed.
Hint Resolve ok_list_flush : transfer_end.

Lemma ok_list_loop f d b : ok_at f (list_loop r cancel f d b).
Proof. revert b. induction f as [|f IH]; intros b; cbn [list_loop]; ok_steps. Qed.
Hint Resolve ok_list_loop : transfer_end.

Lemma ok_retr_loop f fd : ok_at f (retr_loop r cancel f fd).
Proof. induction f as [|f IH]; cbn [retr_loop]; ok_steps. Qed.
Lemma ok_stor_loop f fd : ok_at f (stor_loop r cancel f fd).
Proof. induction f as [|f IH]; cbn [stor_loop]; ok_steps. Qed.
Lemma ok_copy_loop f fin fout : ok_at f (copy_loop r cancel f fin fout).
Proof. induction f as [|f IH]; cbn [copy_loop]; ok_steps. Qed.
Hint Resolve ok_retr_loop ok_stor_loop ok_copy_loop : transfer_end.

Lemma ok_copy_file f src dst : ok_at f (copy_file r cancel f src dst).
Proof. unfold copy_file. ok_steps. Qed.
Hint Resolve ok_copy_file : transfer_end.

Lemma ok_copy_entries f dir d st : ok_at f (copy_entries r cancel f dir d st).
Proof. revert st. induction f as [|f IH]; intros st; cbn [copy_entries]; ok_steps. Qed.
Hint Resolve ok_copy_entries : transfer_end.

Lemma ok_copy_tree_loop f st : ok_at f (copy_tree_loop r cancel f st).
Proof. revert st. induction f as [|f IH]; intros [|d st]; cbn [copy_tree_loop]; ok_steps. Qed.
Hint Resolve ok_copy_tree_loop : transfer_end.

(** ** The whole job *)

Lemma ok_seek_rest f fd k : ok_at f k → ok_at f (seek_rest r fd k).
Proof. intros Hk. unfold seek_rest. ok_steps. Qed.
Hint Resolve ok_seek_rest : transfer_end.

Lemma ok_transfer_list f : ok_at f (transfer_list r cancel f).
Proof. unfold transfer_list. ok_steps. Qed.
Lemma ok_transfer_retr f : ok_at f (transfer_retr r cancel f).
Proof. unfold transfer_retr. ok_steps; try apply ok_seek_rest; ok_steps. Qed.
Lemma ok_transfer_stor f : ok_at f (transfer_stor r cancel f).
Proof. unfold transfer_stor. ok_steps; try apply ok_seek_rest; ok_steps. Qed.
Lemma ok_transfer_copy f : ok_at f (transfer_copy r cancel f).
Proof. unfold transfer_copy, copy_tree. ok_steps. Qed.
Lemma ok_data_tls_setup f : ok_at f (data_tls_setup srv cancel f).
Proof. unfold data_tls_setup. ok_steps. Qed.
Hint Resolve ok_transfer_list ok_transfer_retr ok_transfer_stor ok_transfer_copy
  ok_data_tls_setup : transfer_end.

(** The completion fields are set last. *)
Lemma finish_posts rc (t : tstate FS OS) : j_posted (t_job (finish rc t).2) = true.
Proof. unfold finish. repeat (rewrite ST_bind_eq; case_match). reflexivity. Qed.

Lemma steady_connect_job : steady (connect_job srv).
Proof.
  intros t. unfold connect_job. destruct (opftp_datachan_connect_job _ _ _) as [[rc j] os']. cbn. lia.
Qed.
Hint Resolve steady_connect_job : opftp.

Lemma ok_run_body f : ok_at f (run_body srv r cancel f).
Proof.
  unfold run_body. apply ok_bind; [steady_steps|]. intros j.
  apply ok_bind; [steady_steps|]. intros rc.
  apply ok_bind_some; ok_steps.
Qed.

Lemma run_ends f (t : tstate FS OS) :
  (1 ≤ f)%nat → (K < t_tick t + f)%nat →
  (opftp_transfer_run srv r cancel f t).1 = true ∧
  j_posted (t_job (opftp_transfer_run srv r cancel f t).2) = true.
Proof.
  intros Hf Ht. destruct (ok_run_body f t Hf Ht) as [[rc Hrc] _].
  unfold opftp_transfer_run. rewrite ST_bind_eq.
  destruct (run_body srv r cancel f t) as [o t1]. cbn [fst] in Hrc. subst o.
  rewrite ST_bind_eq. pose proof (finish_posts rc t1) as Hp.
  destruct (finish rc t1) as [[] t2]. done.
Qed.

End End_.

(** C17. A cancelled transfer ends: once the reactor has set the cancel flag
    (every read of it from the [K]-th on sees it), a worker's job runs to its
    completion, with its result posted, whatever the client, the network, the
    TLS library and the backend do; one round per read is enough fuel. This
    covers LIST, RETR, STOR, APPE and the tree copy, with and without TLS. *)
Theorem cancelled_transfer_ends {FS OS : Type} `{FsOps FS} `{SysOps OS}
    (srv : opftp_server) (r : rooted) (cancel : nat → bool) (K f : nat) (t : tstate FS OS)
    (Hcancel : ∀ k, (K ≤ k)%nat → cancel k = true)
    (Hfuel : (1 ≤ f)%nat) (Hreads : (K < t_tick t + f)%nat) :
  (opftp_transfer_run srv r cancel f t).1 = true ∧
  j_posted (t_job (opftp_transfer_run srv r cancel f t).2) = true.
Proof. exact (run_ends srv r cancel K Hcancel f t Hfuel Hreads). Qed.

Lemma cancelled_transfer_ends_witness :
  (opftp_transfer_run (Scenario.server (B "/srv")) (mk_rooted (B "/srv") false)
     (λ k, (3 <=? k)%nat) 5 Scenario.retr_state).1 = true ∧
  j_posted (t_job (opftp_transfer_run (Scenario.server (B "/srv")) (mk_rooted (B "/srv") false)
     (λ k, (3 <=? k)%nat) 5 Scenario.retr_state).2) = true.
Proof.
  apply (cancelled_transfer_ends _ _ _ 3 5 Scenario.retr_state); [|lia|cbn; lia].
  intros k Hk. by apply Nat.leb_le.
Defined.

End TransferEnd.
