(* ===== verification/TransferData.v ===== *)
(** * What a transfer moves

    The data loops of transfer.c on plain connections and on files: RETR
    sends the file from the REST offset on and nothing else, STOR and APPE
    write what the peer sent where it belongs, a file copy is a copy. Each
    with the byte counter, and with the fuel that is enough when the peer
    stays and the backend does not fail. *)

From S2P Require Import Prelude Types Resolve Sys Tls FsIface FsRooted FsMem Streams World.
From S2P Require Import Client Datachan Commands Transfer Server Lifecycle Scenario.
Import FsMem Tls Datachan Transfer.

Local Open Scope Z_scope.

Module TransferData.

(** The step changed the machine and the reads of the flag only. *)
Record frame {FS OS} (t t' : tstate FS OS) : Prop := mk_frame {
  fr_job : t_job t' = t_job t;
  fr_fs : t_fs t' = t_fs t;
  fr_errno : t_errno t' = t_errno t;
  fr_bytes : t_bytes t' = t_bytes t
}.

#[export] Instance frame_refl {FS OS} : Reflexive (@frame FS OS).
Proof. by intros t. Qed.
#[export] Instance frame_trans {FS OS} : Transitive (@frame FS OS).
Proof. intros t1 t2 t3 [] []. split; congruence. Qed.

Section Send.
Context {FS OS : Type} `{FsOps FS} `{SysStream OS}.
Context (cancel : nat → bool).
Local Abbreviation T A := (TM FS OS A).

(** ** Sending *)

Lemma wait_fd_spec fd ev tmo (t : tstate FS OS) w t' :
  wait_fd cancel fd ev tmo t = (w, t') →
  frame t t' ∧ (∀ fd', wire (t_os t') fd' = wire (t_os t) fd') ∧
  (stall (t_os t') ≤ stall (t_os t))%nat.
Proof.
  unfold wait_fd, cancelled_or_again, os_op. rewrite !ST_bind_eq. cbn [get_job st_gets].
  rewrite ST_bind_eq.
  destruct (sys_poll _ _ _) as [p os'] eqn:E.
  assert (∀ fd', wire os' fd' = wire (t_os t) fd') as Hw by (intros fd'; by apply (poll_keeps _ _ _ _ _ fd' E)).
  assert (stall os' ≤ stall (t_os t))%nat as Hs by (by apply (poll_keeps _ _ _ _ _ 0 E)).
  destruct p as [revs|e]; [|by intros [= <- <-]].
  repeat case_match; intros [= <- <-]; done.
Qed.

(** [t'] is [t] after a prefix of [b] went out, all of it if [ok]. *)
Definition sent (t : tstate FS OS) (b : bytes) (ok : bool) (t' : tstate FS OS) : Prop :=
  frame t t' ∧ (stall (t_os t') ≤ stall (t_os t))%nat ∧
  ∃ n, wire (t_os t') (j_data_fd (t_job t)) = wire (t_os t) (j_data_fd (t_job t)) ++ take n b ∧
       (ok = true → take n b = b).

Lemma sent_none t t' b (ok : bool) :
  frame t t' → (stall (t_os t') ≤ stall (t_os t))%nat →
  wire (t_os t') (j_data_fd (t_job t)) = wire (t_os t) (j_data_fd (t_job t)) →
  (ok = true → b = []) → sent t b ok t'.
Proof.
  intros Hf Hs Hw Hb. split_and!; [done..|]. exists 0%nat. rewrite take_0, app_nil_r, Hw.
  split; [done|]. intros E. by rewrite Hb.
Qed.

Lemma sent_then t t1 b k ok t' :
  frame t t1 → (stall (t_os t1) ≤ stall (t_os t))%nat →
  wire (t_os t1) (j_data_fd (t_job t)) = wire (t_os t) (j_data_fd (t_job t)) ++ take k b →
  sent t1 (drop k b) ok t' → sent t b ok t'.
Proof.
  intros Hf Hs Hw (Hf' & Hs' & n & Hw' & Hok). split_and!; [by trans t1|lia|].
  rewrite (fr_job _ _ Hf), Hw in Hw'. rewrite <-app_assoc, take_take_drop in Hw'.
  exists (k + n)%nat. split; [done|]. intros E. by rewrite <-take_take_drop, Hok, take_drop.
Qed.

Definition is_ok (rc : option (res ())) : bool := match rc with Some (Ok _) => true | _ => false end.

(** Whatever happens, a prefix goes out, and all of it on success. *)
Lemma send_all_prefix f b (t : tstate FS OS) rc t' :
  j_tls (t_job t) = None → send_all cancel f b t = (rc, t') → sent t b (is_ok rc) t'.
Proof.
  revert b t rc t'. induction f as [|f IH]; intros b t rc t' Htls.
  { destruct b; cbn [send_all]; intros [= <- <-]; by apply sent_none. }
  destruct b as [|x b]; cbn [send_all]; [intros [= <- <-]; by apply sent_none|].
  rewrite ST_bind_eq. cbn [job_cancelled]. destruct (cancel (t_tick t)).
  { intros [= <- <-]. by apply sent_none. }
  rewrite ST_bind_eq. cbn [get_job st_gets t_job set]. rewrite Htls, bool_decide_false by (by intros []).
  rewrite ST_bind_eq. set (t1 := t <| t_tick := _ |>).
  destruct (wait_fd cancel _ POLLOUT 1000 t1) as [w t2] eqn:Ew.
  apply wait_fd_spec in Ew as (F2 & W2 & S2).
  change (t_os t1) with (t_os t) in W2, S2.
  assert (frame t t2) as F2' by (trans t1; [by split|exact F2]).
  assert (∀ rc t', send_all cancel f (x :: b) t2 = (rc, t') → sent t (x :: b) (is_ok rc) t') as Again.
  { intros rc2 t3 E. apply (sent_then t t2 _ 0); [done..|by rewrite take_0, app_nil_r, W2|].
    apply (IH _ _ _ _ ltac:(by rewrite (fr_job _ _ F2')) E). }
  destruct w as [[]|e].
  - rewrite ST_bind_eq. unfold os_op at 1.
    destruct (sys_send (j_data_fd (t_job t)) (x :: b) (t_os t2)) as [n os3] eqn:Es.
    set (t3 := t2 <| t_os := os3 |>).
    assert (frame t t3) as F3 by (trans t2; [done|by split]).
    destruct n as [n|e].
    + apply send_ok in Es as (_ & Hw & Hs). destruct n as [|n].
      * intros [= <- <-]. apply sent_none; [done|cbn; lia| |done]. cbn. by rewrite Hw, app_nil_r.
      * intros E. apply (sent_then t t3 _ (S n)); [done|cbn; lia|cbn; by rewrite Hw, W2|].
        apply (IH _ _ _ _ ltac:(by rewrite (fr_job _ _ F3)) E).
    + apply send_err in Es as (Hw & Hs & _).
      assert (∀ rc t', send_all cancel f (x :: b) t3 = (rc, t') → sent t (x :: b) (is_ok rc) t') as Again3.
      { intros rc3 t4 E. apply (sent_then t t3 _ 0); [done|cbn; lia|cbn; by rewrite Hw, W2, app_nil_r|].
        apply (IH _ _ _ _ ltac:(by rewrite (fr_job _ _ F3)) E). }
      destruct e; try exact (Again3 rc t');
        (intros [= <- <-]; apply sent_none; [done|cbn; lia|cbn; by rewrite Hw, W2|done]).
  - destruct e; try exact (Again rc t');
      (intros [= <- <-]; apply sent_none; [done|done|by rewrite W2|done]).
Qed.

End Send.

(** ** Sending to a peer that stays *)

Section SendLive.
Context {FS OS : Type} `{FsOps FS} `{SysConn OS}.
Context (cancel : nat → bool) (Hcancel : ∀ k, cancel k = false).

(** The job's data connection is up. *)
Definition connected (t : tstate FS OS) : Prop :=
  conn (t_os t) (j_data_fd (t_job t)) (fst (j_cancel_pipe (t_job t))).
Definition to_come (t : tstate FS OS) : bytes := incoming (t_os t) (j_data_fd (t_job t)).

Lemma wait_fd_live ev tmo (t : tstate FS OS) w t' :
  connected t → ev = POLLIN ∨ ev = POLLOUT →
  wait_fd cancel (j_data_fd (t_job t)) ev tmo t = (w, t') →
  connected t' ∧ to_come t' = to_come t ∧
  (w = Ok () ∨ w = Err EAGAIN ∧ (stall (t_os t') < stall (t_os t))%nat).
Proof.
  intros Hc Hev. unfold wait_fd, cancelled_or_again, os_op. rewrite !ST_bind_eq. cbn [get_job st_gets].
  rewrite ST_bind_eq.
  destruct (conn_poll _ _ ev tmo _ Hc Hev) as (revs & os' & -> & Hc' & Hin & Hr).
  destruct Hr as [(r0 & r1 & -> & Hp1 & Hp0 & Hr)|[Hi Hs]].
  - change (default 0 ([r0; r1] !! 0%nat)) with r0. change (default 0 ([r0; r1] !! 1%nat)) with r1.
    rewrite Hp1, Hp0, Hr. rewrite bool_decide_false.
    + intros [= <- <-]. split_and!; [done..|]. by left.
    + intros [-> _]%Forall_cons. by destruct Hev as [-> | ->].
  - rewrite bool_decide_true by done. rewrite ST_bind_eq. cbn [job_cancelled]. rewrite Hcancel.
    intros [= <- <-]. split_and!; [done..|]. by right.
Qed.

Lemma send_all_live f b (t : tstate FS OS) rc t' :
  connected t → j_tls (t_job t) = None → (length b + stall (t_os t) ≤ f)%nat →
  send_all cancel f b t = (rc, t') → rc = Some (Ok ()) ∧ connected t'.
Proof.
  revert b t rc t'. induction f as [|f IH]; intros b t rc t' Hc Htls Hf.
  { destruct b; cbn in Hf; [|lia]. by intros [= <- <-]. }
  destruct b as [|x b]; cbn [send_all]; [by intros [= <- <-]|].
  rewrite ST_bind_eq. cbn [job_cancelled]. rewrite Hcancel.
  rewrite ST_bind_eq. cbn [get_job st_gets t_job set]. rewrite Htls, bool_decide_false by (by intros []).
  rewrite ST_bind_eq. set (t1 := t <| t_tick := _ |>).
  destruct (wait_fd cancel _ POLLOUT 1000 t1) as [w t2] eqn:Ew.
  destruct (wait_fd_live POLLOUT 1000 t1 w t2) as (Hc2 & _ & Hw); [done|by right|done|].
  apply wait_fd_spec in Ew as (F2 & _ & S2). change (t_os t1) with (t_os t) in *.
  pose proof (fr_job _ _ F2 : t_job t2 = t_job t) as J2.
  destruct Hw as [-> | [-> Hs]]; [|apply IH; [done|by rewrite J2|cbn [length] in *; lia]].
  rewrite ST_bind_eq. unfold os_op at 1.
  destruct (conn_send _ _ (x :: b) _ Hc2) as (r & os3 & Es & Hc3 & Hr); [done|].
  rewrite J2 in Es. rewrite Es. destruct Hr as [-> | [n ->]].
  - apply send_err in Es as (_ & _ & Hs). specialize (Hs eq_refl).
    apply IH; [done|cbn; by rewrite J2|]. cbn [length] in Hf. cbn. lia.
  - apply send_ok in Es as (Hn & _ & Hs).
    apply IH; [done|cbn; by rewrite J2|]. rewrite length_drop. cbn [length] in *. cbn. lia.
Qed.

End SendLive.

(** ** RETR *)

(** The job but for its progress and its total. *)
Definition same_job (j j' : opftp_transfer_job) : Prop :=
  ∃ v w, j' = j <| j_bytes := v |> <| j_total := w |>.

#[export] Instance same_job_refl : Reflexive same_job.
Proof. intros j. exists (j_bytes j), (j_total j). by destruct j. Qed.
#[export] Instance same_job_trans : Transitive same_job.
Proof. intros j1 j2 j3 (v & w & ->) (v' & w' & ->). by exists v', w'. Qed.

Lemma same_job_bytes j v : same_job j (j <| j_bytes := v |>).
Proof. exists v, (j_total j). by destruct j. Qed.
Lemma same_job_total j w : same_job j (j <| j_total := w |>).
Proof. exists (j_bytes j), w. by destruct j. Qed.

Lemma same_job_tls j j' : same_job j j' → j_tls j' = j_tls j.
Proof. by intros (? & ? & ->). Qed.
Lemma same_job_data_fd j j' : same_job j j' → j_data_fd j' = j_data_fd j.
Proof. by intros (? & ? & ->). Qed.

Lemma u64_add a b : u64 (u64 a + b) = u64 (a + b).
Proof. unfold u64. by rewrite Zplus_mod_idemp_l. Qed.

Lemma u64_idem a : u64 (u64 a) = u64 a.
Proof. unfold u64. by rewrite Zmod_mod. Qed.

Section Retr.
Context {FS OS : Type} `{FsFiles FS} `{SysStream OS}.
Context (r : rooted) (cancel : nat → bool).

(** A call on a descriptor, as the worker makes it. *)
Lemma fs_op_lift {A} (op : FS → res A * FS) (t : tstate FS OS) a t' :
  fs_op (fs_lift op) t = (a, t') →
  ∃ x fs', op (t_fs t) = (x, fs') ∧ a = (match x with Ok v => Some v | Err _ => None end) ∧
    t_fs t' = fs' ∧ t_job t' = t_job t ∧ t_os t' = t_os t ∧ t_bytes t' = t_bytes t ∧
    t_tick t' = t_tick t.
Proof.
  unfold fs_op, fs_lift. destruct (op (t_fs t)) as [[v|e] fs']; intros [= <- <-]; by eexists _, _.
Qed.

(** What the loop has sent of the bytes [d] the file had left. *)
Definition delivered (t : tstate FS OS) (d : bytes) (ok : bool) (t' : tstate FS OS) : Prop :=
  same_job (t_job t) (t_job t') ∧
  ∃ n, wire (t_os t') (j_data_fd (t_job t)) = wire (t_os t) (j_data_fd (t_job t)) ++ take n d ∧
       (ok = true → take n d = d ∧ t_bytes t' = u64 (t_bytes t + Z.of_nat (length d)) ∧
                    ∀ i, content (t_fs t') i = content (t_fs t) i).

(** Nothing was sent, or all there was. *)
Lemma delivered_none t t' d (ok : bool) :
  same_job (t_job t) (t_job t') → t_os t' = t_os t →
  (ok = true → d = [] ∧ t_bytes t' = u64 (t_bytes t) ∧ ∀ i, content (t_fs t') i = content (t_fs t) i) →
  delivered t d ok t'.
Proof.
  intros Hj Ho Hok. split; [done|]. exists 0%nat. rewrite take_0, app_nil_r, Ho. split; [done|].
  intros E. destruct (Hok E) as (-> & Hb & Hc). cbn. by rewrite Z.add_0_r.
Qed.

(** A chunk [b] read and sent, then the rest. *)
Lemma delivered_then t t1 t2 b d ok t' :
  same_job (t_job t) (t_job t1) → t_os t1 = t_os t → t_bytes t1 = t_bytes t →
  (∀ i, content (t_fs t1) i = content (t_fs t) i) →
  sent t1 b true t2 →
  delivered (add_bytes (length b) t2).2 d ok t' → delivered t (b ++ d) ok t'.
Proof.
  intros Hj Ho Hb Hc (Hf & _ & k & Hw & Hk) (Hj' & n & Hw' & Hok). rewrite (Hk eq_refl) in Hw.
  destruct Hj as (v1 & w1 & Ej). destruct Hf as [Fj Ff _ Fb]. cbn [add_bytes st_modify snd t_job t_os set] in *.
  split.
  { trans (t_job t1); [by exists v1, w1|]. etrans; [|exact Hj']. rewrite Fj. apply same_job_bytes. }
  exists (length b + n)%nat. rewrite take_app_add, app_assoc. split.
  - etrans; [|etrans; [exact Hw'|]]; [by rewrite Fj, Ej|]. f_equal.
    etrans; [|etrans; [exact Hw|]]; [by rewrite Fj|]. by rewrite Ej, Ho.
  - intros E. destruct (Hok E) as (-> & Hb' & Hc'). split_and!; [done| |].
    + rewrite Hb'. cbn. rewrite u64_add, Fb, Hb, length_app. f_equal. lia.
    + intros i. rewrite Hc'. cbn. by rewrite Ff.
Qed.

(** The sending failed in a chunk. *)
Lemma delivered_part t t1 t2 b d ok :
  t_job t1 = t_job t → t_os t1 = t_os t → sent t1 b ok t2 → delivered t (b ++ d) false t2.
Proof.
  intros Hj Ho (Hf & _ & n & Hw & _). rewrite Hj, Ho in Hw. split.
  - by rewrite (fr_job _ _ Hf), Hj.
  - exists (Nat.min n (length b)). split; [|done]. rewrite take_app_le by lia.
    rewrite Hw. f_equal. destruct (decide (n ≤ length b)%nat); [by rewrite Nat.min_l|].
    rewrite Nat.min_r by lia. by rewrite firstn_all, take_ge by lia.
Qed.

Lemma retr_prefix f fd o (t : tstate FS OS) rc t' :
  j_tls (t_job t) = None → t_bytes t = u64 (t_bytes t) → fd_at (t_fs t) fd = Some o →
  retr_loop r cancel f fd t = (rc, t') →
  delivered t (drop (o_pos o) (content (t_fs t) (o_ino o))) (is_ok rc) t'.
Proof.
  revert o t rc t'. induction f as [|f IH]; intros o t rc t' Htls Hb Ho; cbn [retr_loop].
  { intros [= <- <-]. by apply delivered_none. }
  rewrite ST_bind_eq. cbn [job_cancelled]. set (t1 := t <| t_tick := _ |>). destruct (cancel _).
  { intros [= <- <-]. by apply delivered_none. }
  rewrite ST_bind_eq. destruct (fs_op (r_read r fd TRANSFER_BUF) t1) as [b t2] eqn:Er.
  apply fs_op_lift in Er as (x & fs2 & Er & -> & F2 & J2 & O2 & B2 & _).
  destruct x as [b|e].
  2: { rewrite ST_bind_eq. intros [= <- <-]. apply delivered_none; [by rewrite J2|by rewrite O2|done]. }
  destruct (read_law _ _ _ _ _ _ Ho Er) as (Hpre & Hnil & Ho2 & Hsame & _); [unfold TRANSFER_BUF; lia|].
  rewrite <-F2 in Hsame, Ho2.
  destruct b as [|c b].
  { intros [= <- <-]. apply delivered_none; [by rewrite J2|by rewrite O2|].
    intros _. by rewrite B2, Hnil. }
  rewrite ST_bind_eq. destruct (send_all cancel f (c :: b) t2) as [rc1 t3] eqn:Es.
  apply send_all_prefix in Es as Hsent; [|by rewrite J2].
  destruct Hpre as [d Hd]. rewrite Hd.
  destruct rc1 as [[[]|e]|];
    [|intros [= <- <-]; by apply (delivered_part t t2 _ _ _ false)..].
  rewrite ST_bind_eq. cbn [add_bytes st_modify].
  pose proof Hsent as (Hf3 & _). intros E.
  apply (delivered_then t t2 t3); [by rewrite J2|done|done|done|done|].
  set (t4 := (add_bytes (length (c :: b)) t3).2).
  replace d with (drop (o_pos (o_skip o (length (c :: b)))) (content (t_fs t4) (o_ino o))).
  - apply (IH (o_skip o (length (c :: b))) t4); [..|exact E]; unfold t4; cbn.
    + by rewrite (fr_job _ _ Hf3), J2.
    + symmetry. apply u64_idem.
    + by rewrite (fr_fs _ _ Hf3).
  - unfold t4. cbn [add_bytes st_modify snd t_fs set o_pos o_skip o_seek].
    rewrite (fr_fs _ _ Hf3), Hsame, <-drop_drop. change (t_fs t1) with (t_fs t). by rewrite Hd, drop_app_length.
Qed.

(** The offset a download starts at. *)
Definition retr_from (j : opftp_transfer_job) : nat :=
  if 0 <? j_rest j then Z.to_nat (s64 (j_rest j)) else 0%nat.

(** The step moved no data: only offsets, descriptors and job totals changed. *)
Record idle (t t' : tstate FS OS) : Prop := mk_idle {
  id_job : same_job (t_job t) (t_job t');
  id_os : t_os t' = t_os t;
  id_bytes : t_bytes t' = t_bytes t;
  id_content i : content (t_fs t') i = content (t_fs t) i
}.

#[export] Instance idle_trans : Transitive idle.
Proof.
  intros t1 t2 t3 [J1 O1 B1 C1] [J2 O2 B2 C2]. split; [by trans (t_job t2)|congruence..|].
  intros i. by rewrite C2.
Qed.

Lemma idle_rest t t' : idle t t' → j_rest (t_job t') = j_rest (t_job t).
Proof. by intros [(? & ? & ->) _ _ _]. Qed.

(** The end of a transfer: the descriptor is closed. *)
Lemma then_close (m : TM FS OS (option (res ()))) fd (t : tstate FS OS) rc t' :
  (rc ← m; _ ← fs_op (r_close r fd); mret rc) t = (rc, t') → ∃ t1, m t = (rc, t1) ∧ idle t1 t'.
Proof.
  rewrite ST_bind_eq. destruct (m t) as [rc1 t1]. rewrite ST_bind_eq.
  destruct (fs_op (r_close r fd) t1) as [c t2] eqn:E.
  apply fs_op_lift in E as (y & fs2 & E & -> & F2 & J2 & O2 & B2 & _).
  apply close_law in E as [Hc _]. intros [= <- <-]. exists t1. split; [done|].
  split; [by rewrite J2|done..|]. intros i. by rewrite F2.
Qed.

(** The seek to the REST offset, or its failure with nothing moved. *)
Lemma seek_rest_spec k fd i p rd wr (t : tstate FS OS) rc t' :
  fd_at (t_fs t) fd = Some (mk_ofile i p rd wr) → seek_rest r fd k t = (rc, t') →
  (∃ t2, k t2 = (rc, t') ∧ idle t t2 ∧
     fd_at (t_fs t2) fd = Some (mk_ofile i (Z.to_nat (s64 (j_rest (t_job t)))) rd wr)) ∨
  (is_ok rc = false ∧ t_os t' = t_os t ∧ same_job (t_job t) (t_job t') ∧
   (fs_seek fd (s64 (j_rest (t_job t))) SEEK_SET (t_fs t)).1 ≠ Ok (s64 (j_rest (t_job t)))).
Proof.
  intros Ho. unfold seek_rest. rewrite ST_bind_eq. cbn [get_job st_gets]. rewrite ST_bind_eq.
  destruct (fs_op _ t) as [q t2] eqn:Es.
  apply fs_op_lift in Es as (x & fs2 & Es & -> & F2 & J2 & O2 & B2 & _).
  assert (∀ y t', (x ← fail_errno; _ ← fs_op (r_close r fd); mret (Some x)) t2 = (y, t') →
    is_ok y = false ∧ t_os t' = t_os t ∧ same_job (t_job t) (t_job t')) as Hfail.
  { intros y t3. rewrite ST_bind_eq. cbn [fail_errno]. rewrite ST_bind_eq.
    destruct (fs_op (r_close r fd) t2) as [c t4] eqn:Ec.
    apply fs_op_lift in Ec as (? & ? & _ & _ & _ & J3 & O3 & _). intros [= <- <-].
    split_and!; [done|by rewrite O3|by rewrite J3, J2]. }
  destruct x as [off|e].
  - destruct (seek_law _ _ _ _ _ _ Ho Es) as (-> & Hoff & Ho2 & Hc & _).
    destruct (Z.ltb_spec (s64 (j_rest (t_job t))) 0); [lia|]. intros E. left. exists t2.
    split_and!; [done| |by rewrite F2]. split; [by rewrite J2|done..|]. intros j. by rewrite F2.
  - intros E. right. destruct (Hfail _ _ E) as (? & ? & ?). rewrite Es. by split_and!.
Qed.

(** [transfer_retr] after the open: the loop from the offset, or a failed
    seek. *)
Lemma transfer_retr_loop f fd fs2 e2 i rd wr (t : tstate FS OS) rc t' :
  r_open r (j_path (t_job t)) OPFTP_O_RDONLY 0 (t_fs t, t_errno t) = (Some fd, (fs2, e2)) →
  fd_at fs2 fd = Some (mk_ofile i 0 rd wr) →
  transfer_retr r cancel f t = (rc, t') →
  (∃ t2 t3, idle (t <| t_fs := fs2 |>) t2 ∧ retr_loop r cancel f fd t2 = (rc, t3) ∧ idle t3 t' ∧
     fd_at (t_fs t2) fd = Some (mk_ofile i (retr_from (t_job t)) rd wr)) ∨
  (is_ok rc = false ∧ t_os t' = t_os t ∧ same_job (t_job t) (t_job t') ∧
   ∃ fs3, fd_at fs3 fd = Some (mk_ofile i 0 rd wr) ∧
     (fs_seek fd (s64 (j_rest (t_job t))) SEEK_SET fs3).1 ≠ Ok (s64 (j_rest (t_job t)))).
Proof.
  intros Hopen Ho. unfold transfer_retr. rewrite ST_bind_eq. cbn [get_job st_gets].
  rewrite ST_bind_eq. unfold fs_op at 1. rewrite Hopen.
  rewrite ST_bind_eq. set (t0 := t <| t_fs := _ |> <| t_errno := _ |>).
  destruct (fs_op (r_fstat r fd) t0) as [st t1] eqn:Est.
  apply fs_op_lift in Est as (x & fs3 & Est & -> & F1 & J1 & O1 & B1 & _).
  apply fstat_law in Est as [[Hc _] Hfd]. change (t_fs t0) with fs2 in *.
  rewrite ST_bind_eq. set (m := match _ with Some st => _ | None => _ end).
  assert (∃ t2, m t1 = ((), t2) ∧ same_job (t_job t1) (t_job t2) ∧ t_os t2 = t_os t1 ∧
    t_bytes t2 = t_bytes t1 ∧ t_fs t2 = t_fs t1) as (t2 & -> & J2 & O2 & B2 & F2).
  { unfold m. destruct x as [st|]; [|by eexists]. destruct (is_reg (st_mode st)); [|by eexists].
    eexists. split; [reflexivity|]. split_and!; [|done..]. apply same_job_total. }
  assert (idle (t <| t_fs := fs2 |>) t2) as I2.
  { split; [etrans; [|exact J2]; by rewrite J1|by rewrite O2, O1|by rewrite B2, B1|].
    intros k. by rewrite F2, F1, Hc. }
  assert (fd_at (t_fs t2) fd = Some (mk_ofile i 0 rd wr)) as Hfd2 by (by rewrite F2, F1, Hfd).
  unfold retr_from. destruct (0 <? j_rest (t_job t)).
  - intros [(t3 & E & I3 & Ho3)|(Hok & Hos & Hj & Hs)]%(seek_rest_spec _ _ _ _ _ _ _ _ _ Hfd2);
      rewrite (idle_rest _ _ I2) in *.
    + apply then_close in E as (t4 & E & I4). left. exists t3, t4. by split_and!; [trans t2|..].
    + right. split_and!; [done|by rewrite Hos, (id_os _ _ I2)| |by exists (t_fs t2)].
      etrans; [exact (id_job _ _ I2)|done].
  - intros (t4 & E & I4)%then_close. left. by exists t2, t4.
Qed.

(** A download of the bytes [d], from the open on. *)
Lemma transfer_retr_prefix f fd fs2 e2 i rd wr (t : tstate FS OS) o t' :
  r_open r (j_path (t_job t)) OPFTP_O_RDONLY 0 (t_fs t, t_errno t) = (Some fd, (fs2, e2)) →
  fd_at fs2 fd = Some (mk_ofile i 0 rd wr) → j_tls (t_job t) = None → t_bytes t = 0 →
  transfer_retr r cancel f t = (o, t') →
  let d := drop (retr_from (t_job t)) (content fs2 i) in
  ∃ n, wire (t_os t') (j_data_fd (t_job t)) = wire (t_os t) (j_data_fd (t_job t)) ++ take n d ∧
    same_job (t_job t) (t_job t') ∧
    (is_ok o = true → take n d = d ∧ t_bytes t' = u64 (Z.of_nat (length d))).
Proof.
  intros Hopen Hfile Htls Hb Eb d.
  destruct (transfer_retr_loop _ _ _ _ _ _ _ _ _ _ Hopen Hfile Eb)
    as [(ta & tb & Ia & El & Ib & Ho)|(Hno & Hos & Hj & _)].
  2: { exists 0%nat. rewrite Hos, take_0, app_nil_r. split_and!; [done..|by rewrite Hno]. }
  pose proof (id_job _ _ Ia) as Ja. pose proof (id_bytes _ _ Ia) as Ba. pose proof (id_os _ _ Ia) as Oa.
  cbn in Ja, Ba, Oa.
  destruct (retr_prefix f fd _ ta o tb (eq_trans (same_job_tls _ _ Ja) Htls)
              ltac:(by rewrite Ba, Hb) Ho El) as (Hj & n & Hw & Hok).
  cbn [o_pos o_ino] in *. rewrite (id_content _ _ Ia) in *. cbn [t_fs set] in *. cbn in Hw, Hok. fold d in Hw, Hok.
  rewrite (same_job_data_fd _ _ Ja), Oa in Hw. exists n. rewrite (id_os _ _ Ib). split_and!; [done| |].
  - etrans; [exact Ja|]. etrans; [exact Hj|apply (id_job _ _ Ib)].
  - intros E. destruct (Hok E) as (? & Hb' & _). split; [done|].
    by rewrite (id_bytes _ _ Ib), Hb', Ba, Hb.
Qed.

End Retr.

(** The worker's job around the operation: the data connection is made first,
    the completion fields are set last. *)
Section Run.
Context {FS OS : Type} `{FsOps FS} `{SysOps OS}.
Context (srv : opftp_server) (r : rooted) (cancel : nat → bool).

Lemma connect_job_keeps (t : tstate FS OS) rc t1 :
  connect_job srv t = (rc, t1) →
  t_fs t1 = t_fs t ∧ t_errno t1 = t_errno t ∧ t_bytes t1 = t_bytes t ∧
  ∃ fd ok, t_job t1 = t_job t <| j_data_fd := fd |> <| j_conn_ok := ok |>.
Proof.
  unfold connect_job. destruct (opftp_datachan_connect_job srv (t_job t) (t_os t)) as [[rc' j'] os'] eqn:E.
  intros [= <- <-]. split_and!; [done..|]. cbn. unfold opftp_datachan_connect_job in E.
  repeat (case_match; simplify_eq/=);
    first [by eexists _, _ | exists (j_data_fd (t_job t)), (j_conn_ok (t_job t)); by destruct (t_job t)
          | eexists _, (j_conn_ok (t_job t)); by destruct (t_job t)].
Qed.

(** [finish] without TLS. *)
Lemma finish_plain rc (t : tstate FS OS) :
  j_tls (t_job t) = None →
  finish rc t = ((), t <| t_job := (t_job t) <| j_bytes := t_bytes t |> <| j_result := rc |>
                                             <| j_final_bytes := t_bytes t |> <| j_posted := true |> |>).
Proof. intros E. unfold finish. rewrite ST_bind_eq. cbn [get_job st_gets]. by rewrite E. Qed.

(** The operation of a job. *)
Definition job_body (op : opftp_job_op) (f : nat) : TM FS OS (option (res ())) :=
  match op with
  | OPFTP_JOB_LIST => transfer_list r cancel f
  | OPFTP_JOB_RETR => transfer_retr r cancel f
  | OPFTP_JOB_STOR | OPFTP_JOB_APPE => transfer_stor r cancel f
  | OPFTP_JOB_COPY => transfer_copy r cancel f
  end.

(** The completion fields, set by the worker last. *)
Definition completed (rc : res ()) (t : tstate FS OS) : tstate FS OS :=
  t <| t_job := (t_job t) <| j_bytes := t_bytes t |> <| j_result := rc |>
                          <| j_final_bytes := t_bytes t |> <| j_posted := true |> |>.

Lemma run_plain f (t t1 : tstate FS OS) o t2 :
  j_op (t_job t) ≠ OPFTP_JOB_COPY → j_need_tls (t_job t) = false →
  connect_job srv t = (Ok (), t1) → job_body (j_op (t_job t)) f t1 = (o, t2) →
  j_tls (t_job t2) = None →
  opftp_transfer_run srv r cancel f t =
    match o with Some rc => (true, completed rc t2) | None => (false, t2) end.
Proof.
  intros Hop Htls Hc Hb Ht. unfold opftp_transfer_run, run_body. rewrite !ST_bind_eq.
  cbn [get_job st_gets]. rewrite bool_decide_false by done. rewrite ST_bind_eq, Hc, ST_bind_eq, Htls.
  cbn [mret ST_ret]. change (match j_op (t_job t) with
    | OPFTP_JOB_LIST => transfer_list r cancel f
    | OPFTP_JOB_RETR => transfer_retr r cancel f
    | OPFTP_JOB_COPY => transfer_copy r cancel f
    | _ => transfer_stor r cancel f end) with (job_body (j_op (t_job t)) f).
  rewrite Hb. destruct o as [rc|]; [|done]. by rewrite ST_bind_eq, finish_plain.
Qed.

End Run.

(** C12. A download sends the file and nothing else. Once the data connection
    is made and the file opened, whatever the peer, the network, the backend
    and the cancel flag do, what goes out on the data connection is a prefix
    of the file from the REST offset on; and when the job reports success it
    is all of it, and the byte count is its length. *)
Theorem retr_sends_only_file {FS OS : Type} `{FsFiles FS} `{SysStream OS}
    (srv : opftp_server) (r : rooted) (cancel : nat → bool) (f : nat) (t t1 : tstate FS OS)
    (fd : Z) (fs2 : FS) (e2 : errno) (i : ino) (rd wr fin : bool) (t' : tstate FS OS)
    (Hop : j_op (t_job t) = OPFTP_JOB_RETR) (Hplain : j_need_tls (t_job t) = false)
    (Htls : j_tls (t_job t) = None) (Hbytes : t_bytes t = 0)
    (Hconn : connect_job srv t = (Ok (), t1))
    (Hopen : r_open r (j_path (t_job t)) OPFTP_O_RDONLY 0 (t_fs t, t_errno t) = (Some fd, (fs2, e2)))
    (Hfile : fd_at fs2 fd = Some (mk_ofile i 0 rd wr))
    (Hrun : opftp_transfer_run srv r cancel f t = (fin, t')) :
  let d := drop (retr_from (t_job t)) (content fs2 i) in
  ∃ n, wire (t_os t') (j_data_fd (t_job t1)) = wire (t_os t1) (j_data_fd (t_job t1)) ++ take n d ∧
    (fin = true → j_result (t_job t') = Ok () →
     take n d = d ∧ j_final_bytes (t_job t') = u64 (Z.of_nat (length d))).
Proof.
  intros d. destruct (connect_job_keeps _ _ _ _ Hconn) as (F1 & E1 & B1 & dfd & ok & J1).
  destruct (transfer_retr r cancel f t1) as [o t2] eqn:Eb.
  assert (retr_from (t_job t1) = retr_from (t_job t)) as Hfrom by (by rewrite J1).
  destruct (transfer_retr_prefix r cancel f fd fs2 e2 i rd wr t1 o t2) as (n & Hw & Hj & Hok); try done.
  { rewrite F1, E1. by rewrite J1. }
  { by rewrite J1. }
  { by rewrite B1. }
  rewrite Hfrom in *. fold d in Hw, Hok.
  rewrite (run_plain srv r cancel f t t1 o t2) in Hrun; [|by rewrite Hop|done|done|by rewrite Hop|].
  2: { rewrite (same_job_tls _ _ Hj). by rewrite J1. }
  exists n. destruct o as [rc|]; injection Hrun as <- <-; [|done]. split; [done|].
  intros _ Hrc. cbn in Hrc. subst rc. exact (Hok eq_refl).
Qed.

Section RetrLive.
Context {FS OS : Type} `{FsHealthy FS} `{SysConn OS}.
Context (srv : opftp_server) (r : rooted) (cancel : nat → bool) (Hcancel : ∀ k, cancel k = false).

Lemma retr_live f fd o (t : tstate FS OS) rc t' :
  connected t → j_tls (t_job t) = None → fd_at (t_fs t) fd = Some o → o_rd o = true →
  (length (drop (o_pos o) (content (t_fs t) (o_ino o))) + stall (t_os t) < f)%nat →
  retr_loop r cancel f fd t = (rc, t') → rc = Some (Ok ()).
Proof.
  revert o t rc t'. induction f as [|f IH]; intros o t rc t' Hc Htls Ho Hrd Hf; [lia|].
  cbn [retr_loop]. rewrite ST_bind_eq. cbn [job_cancelled]. rewrite Hcancel.
  set (t1 := t <| t_tick := _ |>). rewrite ST_bind_eq.
  destruct (fs_op (r_read r fd TRANSFER_BUF) t1) as [b t2] eqn:Er.
  apply fs_op_lift in Er as (x & fs2 & Er & -> & F2 & J2 & O2 & B2 & _).
  destruct (read_succeeds _ TRANSFER_BUF _ _ Ho Hrd) as [b Eb].
  change (t_fs t1) with (t_fs t) in Er. rewrite Er in Eb. cbn in Eb. subst x.
  destruct (read_law _ _ _ _ _ _ Ho Er) as (Hpre & Hnil & Ho2 & Hsame & _); [unfold TRANSFER_BUF; lia|].
  destruct b as [|c b]; [by intros [= <- <-]|].
  rewrite ST_bind_eq. destruct (send_all cancel f (c :: b) t2) as [rc1 t3] eqn:Es.
  destruct Hpre as [d Hd]. rewrite Hd, length_app in Hf. cbn [length] in Hf.
  assert (j_tls (t_job t2) = None) as Htls2 by (by rewrite J2).
  destruct (send_all_prefix _ _ _ _ _ _ Htls2 Es) as ([Fj Ff _ _] & Hs3 & _).
  destruct (send_all_live cancel Hcancel f (c :: b) t2 rc1 t3) as [-> Hc3]; [|done| |done|].
  { unfold connected in *. by rewrite J2, O2. }
  { rewrite O2. cbn [length]. change (t_os t1) with (t_os t). lia. }
  rewrite ST_bind_eq. cbn [add_bytes st_modify].
  rewrite O2 in Hs3. change (t_os t1) with (t_os t) in Hs3.
  apply (IH (o_skip o (length (c :: b)))); cbn [t_job t_fs t_os set]; cbn.
  - done.
  - by rewrite Fj.
  - by rewrite Ff, F2.
  - done.
  - rewrite Ff, F2, Hsame, <-drop_drop, Hd, (drop_app_length (c :: b)). lia.
Qed.

(** With nothing failing, [transfer_retr] succeeds. *)
Lemma transfer_retr_live f fd fs2 e2 i wr (t : tstate FS OS) o t' :
  r_open r (j_path (t_job t)) OPFTP_O_RDONLY 0 (t_fs t, t_errno t) = (Some fd, (fs2, e2)) →
  fd_at fs2 fd = Some (mk_ofile i 0 true wr) → j_tls (t_job t) = None → connected t →
  0 ≤ j_rest (t_job t) < 2 ^ 63 → (length (content fs2 i) + stall (t_os t) < f)%nat →
  transfer_retr r cancel f t = (o, t') → o = Some (Ok ()).
Proof.
  intros Hopen Hfile Htls Hc Hrest Hf Eb.
  assert (s64 (j_rest (t_job t)) = j_rest (t_job t)) as Es by (apply swrap_small; lia).
  destruct (transfer_retr_loop _ _ _ _ _ _ _ _ _ _ _ _ Hopen Hfile Eb)
    as [(ta & tb & Ia & El & _ & Ho)|(_ & _ & _ & fs3 & Ho3 & Hno)].
  - pose proof (id_job _ _ Ia) as Ja. pose proof (id_os _ _ Ia : t_os ta = t_os t) as Oa.
    refine (retr_live f fd _ ta _ tb _ _ Ho eq_refl _ El).
    + unfold connected in *. rewrite Oa, (same_job_data_fd _ _ Ja).
      by destruct Ja as (? & ? & ->).
    + by rewrite (same_job_tls _ _ Ja).
    + cbn [o_pos o_ino]. rewrite (id_content _ _ Ia), Oa, length_drop.
      change (t_fs (t <| t_fs := fs2 |>)) with fs2. lia.
  - destruct Hno. rewrite Es. apply (seek_succeeds _ _ _ _ Ho3). lia.
Qed.

End RetrLive.

(** C7. A download is delivered: on an established plain connection whose
    peer keeps reading, with a backend whose reads succeed and nobody
    aborting, a RETR job ends, reports success, and the peer has received the
    file from the REST offset to its end, the byte count being its length.
    The fuel is one round per byte and per idle wait. *)
Theorem retr_delivers {FS OS : Type} `{FsHealthy FS} `{SysConn OS}
    (srv : opftp_server) (r : rooted) (cancel : nat → bool) (f : nat) (t t1 : tstate FS OS)
    (fd : Z) (fs2 : FS) (e2 : errno) (i : ino) (wr : bool)
    (Hcancel : ∀ k, cancel k = false)
    (Hop : j_op (t_job t) = OPFTP_JOB_RETR) (Hplain : j_need_tls (t_job t) = false)
    (Htls : j_tls (t_job t) = None) (Hbytes : t_bytes t = 0)
    (Hrest : 0 ≤ j_rest (t_job t) < 2 ^ 63)
    (Hconn : connect_job srv t = (Ok (), t1)) (Hlive : connected t1)
    (Hopen : r_open r (j_path (t_job t)) OPFTP_O_RDONLY 0 (t_fs t, t_errno t) = (Some fd, (fs2, e2)))
    (Hfile : fd_at fs2 fd = Some (mk_ofile i 0 true wr))
    (Hfuel : (length (content fs2 i) + stall (t_os t1) < f)%nat) :
  let d := drop (Z.to_nat (j_rest (t_job t))) (content fs2 i) in
  ∃ t', opftp_transfer_run srv r cancel f t = (true, t') ∧ j_result (t_job t') = Ok () ∧
    wire (t_os t') (j_data_fd (t_job t1)) = wire (t_os t1) (j_data_fd (t_job t1)) ++ d ∧
    j_final_bytes (t_job t') = u64 (Z.of_nat (length d)).
Proof.
  intros d. destruct (connect_job_keeps _ _ _ _ Hconn) as (F1 & E1 & B1 & dfd & ok & J1).
  destruct (transfer_retr r cancel f t1) as [o t2] eqn:Eb.
  assert (r_open r (j_path (t_job t1)) OPFTP_O_RDONLY 0 (t_fs t1, t_errno t1) = (Some fd, (fs2, e2)))
    as Hopen1 by (rewrite F1, E1; by rewrite J1).
  assert (j_tls (t_job t1) = None) as Htls1 by (by rewrite J1).
  assert (0 ≤ j_rest (t_job t1) < 2 ^ 63) as Hrest1 by (by rewrite J1).
  pose proof (transfer_retr_live r cancel Hcancel f fd fs2 e2 i wr t1 o t2 Hopen1 Hfile Htls1 Hlive
                Hrest1 Hfuel Eb) as ->.
  destruct (transfer_retr_prefix r cancel f fd fs2 e2 i true wr t1 _ t2 Hopen1 Hfile Htls1
              ltac:(by rewrite B1) Eb) as (n & Hw & Hj & Hok).
  destruct (Hok eq_refl) as (En & Hb). rewrite En in Hw.
  assert (retr_from (t_job t1) = Z.to_nat (j_rest (t_job t))) as Hfrom.
  { unfold retr_from. replace (j_rest (t_job t1)) with (j_rest (t_job t)) by (by rewrite J1).
    unfold s64. rewrite swrap_small by lia. destruct (Z.ltb_spec 0 (j_rest (t_job t))); [done|].
    by replace (j_rest (t_job t)) with 0 by lia. }
  rewrite Hfrom in Hw, Hb. fold d in Hw, Hb. eexists.
  split; [apply (run_plain srv r cancel f t t1 (Some (Ok ())) t2)|by split_and!];
    [by rewrite Hop|done|done|by rewrite Hop|by rewrite (same_job_tls _ _ Hj)].
Qed.

(** ** STOR and APPE *)

(** Writing [b] at [p]; nothing at all changes when there is nothing. *)
Definition store_at (c : bytes) (p : nat) (b : bytes) : bytes :=
  match b with [] => c | _ => splice c p b end.

Lemma store_at_app c p a b : store_at (store_at c p a) (p + length a) b = store_at c p (a ++ b).
Proof.
  destruct a as [|x a]; [by rewrite Nat.add_0_r|]. destruct b as [|y b]; [by rewrite app_nil_r|].
  apply splice_splice.
Qed.

Lemma store_at_start b : store_at [] 0 b = b.
Proof. destruct b; [done|apply splice_empty]. Qed.

Lemma store_at_end c b : store_at c (length c) b = c ++ b.
Proof. destruct b; [by rewrite app_nil_r|apply splice_end]. Qed.

Section Store.
Context {FS OS : Type} `{FsHealthy FS} `{SysConn OS}.
Context (srv : opftp_server) (r : rooted) (cancel : nat → bool) (Hcancel : ∀ k, cancel k = false).

(** [t'] is [t] after [b] was written through [fd]. *)
Record wrote (fd : Z) (o : ofile ino) (b : bytes) (t t' : tstate FS OS) : Prop := mk_wrote {
  wr_job : t_job t' = t_job t;
  wr_os : t_os t' = t_os t;
  wr_bytes : t_bytes t' = t_bytes t;
  wr_content : content (t_fs t') (o_ino o) = store_at (content (t_fs t) (o_ino o)) (o_pos o) b;
  wr_others i : i ≠ o_ino o → content (t_fs t') i = content (t_fs t) i;
  wr_fd : fd_at (t_fs t') fd = Some (o_skip o (length b));
  wr_fds fd' : fd' ≠ fd → fd_at (t_fs t') fd' = fd_at (t_fs t) fd'
}.

Lemma write_all_live f fd b o (t : tstate FS OS) rc t' :
  fd_at (t_fs t) fd = Some o → o_wr o = true → (length b ≤ f)%nat →
  fs_write_all r f fd b t = (rc, t') → rc = Ok () ∧ wrote fd o b t t'.
Proof.
  revert b o t rc t'. induction f as [|f IH]; intros b o t rc t' Ho Hwr Hf.
  { destruct b; cbn in Hf; [|lia]. intros [= <- <-]. split; [done|]. split; try done.
    by destruct o; unfold o_skip, o_seek; cbn; rewrite Nat.add_0_r. }
  destruct b as [|x b]; cbn [fs_write_all].
  { intros [= <- <-]. split; [done|]. split; try done.
    by destruct o; unfold o_skip, o_seek; cbn; rewrite Nat.add_0_r. }
  rewrite ST_bind_eq. destruct (fs_op (r_write r fd (x :: b)) t) as [w t1] eqn:Ew.
  apply fs_op_lift in Ew as (y & fs1 & Ew & -> & F1 & J1 & O1 & B1 & _).
  destruct (write_succeeds fd (x :: b) _ _ Ho Hwr) as [n En]; [done|].
  rewrite Ew in En. cbn in En. subst y.
  destruct (write_law _ _ _ _ _ _ Ho Ew) as (Hn & Hc & Ho1 & Hci & Hfd).
  rewrite <-F1 in *. intros E.
  apply IH with (o := o_skip o (S n)) in E as [-> [J2 O2 B2 C2 D2 Fd2 Fo2]]; [|done|done|].
  2: { rewrite length_drop. cbn [length] in *. lia. }
  split; [done|]. cbn [o_ino o_skip o_seek o_pos] in *. split.
  - by rewrite J2.
  - by rewrite O2.
  - by rewrite B2.
  - rewrite C2, Hc. change (splice (content (t_fs t) (o_ino o)) (o_pos o) (take (S n) (x :: b)))
      with (store_at (content (t_fs t) (o_ino o)) (o_pos o) (take (S n) (x :: b))).
    replace (o_pos o + S n)%nat with (o_pos o + length (take (S n) (x :: b)))%nat
      by (rewrite length_take; lia).
    by rewrite store_at_app, take_drop.
  - intros i Hi. by rewrite D2, Hci.
  - rewrite Fd2. unfold o_skip, o_seek. cbn [o_ino o_pos o_rd o_wr]. rewrite length_drop.
    do 2 f_equal. lia.
  - intros fd' Hne. by rewrite Fo2, Hfd.
Qed.

(** Receiving: a chunk of what is to come, its end, or an idle wait. *)
Lemma recv_some_live n (t : tstate FS OS) x t' :
  connected t → j_tls (t_job t) = None → (0 < n)%nat → recv_some cancel n t = (x, t') →
  frame t t' ∧ (stall (t_os t') ≤ stall (t_os t))%nat ∧
  match x with
  | Ok [] => to_come t = []
  | Ok b => to_come t = b ++ to_come t' ∧ connected t'
  | Err e => e = EAGAIN ∧ (stall (t_os t') < stall (t_os t))%nat ∧ connected t' ∧ to_come t' = to_come t
  end.
Proof.
  intros Hc Htls Hn. unfold recv_some. rewrite ST_bind_eq. cbn [job_cancelled]. rewrite Hcancel.
  rewrite ST_bind_eq. cbn [get_job st_gets t_job set]. rewrite Htls, bool_decide_false by (by intros []).
  rewrite ST_bind_eq. set (t1 := t <| t_tick := _ |>).
  destruct (wait_fd cancel _ POLLIN 1000 t1) as [w t2] eqn:Ew.
  destruct (wait_fd_live cancel Hcancel POLLIN 1000 t1 w t2) as (Hc2 & Hin & Hw); [done|by left|done|].
  apply wait_fd_spec in Ew as (F2 & _ & S2). change (t_os t1) with (t_os t) in *.
  assert (frame t t2) as F2' by (trans t1; [by split|exact F2]).
  change (to_come t1) with (to_come t) in Hin.
  destruct Hw as [-> | [-> Hs]]; [|intros [= <- <-]; by split_and!].
  unfold os_op. destruct (conn_recv _ _ n _ Hc2 Hn) as (y & os3 & Er & Hs3 & Hy).
  rewrite (fr_job _ _ F2') in *. rewrite Er. intros [= <- <-].
  split_and!; [trans t2; [done|by split]|cbn; lia|]. unfold to_come, connected in *. cbn [t_os t_job set] in *.
  cbn. rewrite (fr_job _ _ F2') in *. destruct y as [[|c b]|e]; [by rewrite <-Hin|by rewrite <-Hin|].
  destruct Hy as (-> & ? & ? & Hi). rewrite Hi, Hin. split_and!; (done || lia).
Qed.

(** [t'] is [t] after the bytes [b] were stored through [fd] and counted. *)
Record stored (o : ofile ino) (b : bytes) (t t' : tstate FS OS) : Prop := mk_stored {
  sd_job : same_job (t_job t) (t_job t');
  sd_bytes : t_bytes t' = u64 (t_bytes t + Z.of_nat (length b));
  sd_content : content (t_fs t') (o_ino o) = store_at (content (t_fs t) (o_ino o)) (o_pos o) b;
  sd_others i : i ≠ o_ino o → content (t_fs t') i = content (t_fs t) i
}.

Lemma stored_nil o t t' :
  t_bytes t = u64 (t_bytes t) → same_job (t_job t) (t_job t') → t_bytes t' = t_bytes t →
  t_fs t' = t_fs t → stored o [] t t'.
Proof. intros Hb Hj Hb' Hf. split; rewrite ?Hf; try done. cbn. by rewrite Hb', Z.add_0_r. Qed.

Lemma stored_then o fd a b t t1 t2 t' :
  t_job t1 = t_job t → t_bytes t1 = t_bytes t → (∀ i, content (t_fs t1) i = content (t_fs t) i) →
  wrote fd o a t1 t2 →
  stored (o_skip o (length a)) b (add_bytes (length a) t2).2 t' → stored o (a ++ b) t t'.
Proof.
  intros Fj Fb Fc [Wj _ Wb Wc Wo _ _] [Sj Sb Sc So].
  cbn [add_bytes st_modify snd t_job t_os t_fs t_bytes set o_ino o_pos o_skip o_seek] in *.
  cbn in Sj, Sb, Sc, So. split.
  - etrans; [|exact Sj]. rewrite Wj, Fj. apply same_job_bytes.
  - rewrite Sb, u64_add, Wb, Fb, length_app. f_equal. lia.
  - by rewrite Sc, Wc, Fc, store_at_app.
  - intros i Hi. by rewrite So, Wo, Fc.
Qed.

Lemma stor_live f fd o (t : tstate FS OS) rc t' :
  connected t → j_tls (t_job t) = None → fd_at (t_fs t) fd = Some o → o_wr o = true →
  t_bytes t = u64 (t_bytes t) → (length (to_come t) + stall (t_os t) < f)%nat →
  stor_loop r cancel f fd t = (rc, t') → rc = Some (Ok ()) ∧ stored o (to_come t) t t'.
Proof.
  revert o t rc t'. induction f as [|f IH]; intros o t rc t' Hc Htls Ho Hwr Hb Hf; [lia|].
  cbn [stor_loop]. rewrite ST_bind_eq. cbn [job_cancelled]. rewrite Hcancel.
  set (t1 := t <| t_tick := _ |>). rewrite ST_bind_eq.
  destruct (recv_some cancel TRANSFER_BUF t1) as [x t2] eqn:Er.
  apply recv_some_live in Er as (F2 & S2 & Hx); [|done|done|unfold TRANSFER_BUF; lia].
  change (to_come t1) with (to_come t) in Hx. change (t_os t1) with (t_os t) in *.
  assert (frame t t2) as F2' by (trans t1; [by split|exact F2]). pose proof F2' as [Fj Ff Fe Fb].
  destruct x as [[|c b]|e].
  - intros [= <- <-]. rewrite Hx. split; [done|]. apply stored_nil; [done| |done..]. by rewrite Fj.
  - destruct Hx as [Hin Hc2]. rewrite ST_bind_eq. destruct (write_all r fd (c :: b) t2) as [w t3] eqn:Ew.
    apply write_all_live with (o := o) in Ew as [-> Hw]; [|by rewrite Ff|done|done].
    rewrite ST_bind_eq. cbn [add_bytes st_modify]. intros E. rewrite Hin.
    set (t4 := (add_bytes (length (c :: b)) t3).2).
    assert (to_come t4 = to_come t2) as Hin4.
    { unfold to_come, t4. cbn. by rewrite (wr_os _ _ _ _ _ Hw), (wr_job _ _ _ _ _ Hw). }
    destruct (IH (o_skip o (length (c :: b))) t4 rc t') as [-> Hst]; [..|exact E|].
    + unfold connected, t4 in *. cbn. by rewrite (wr_os _ _ _ _ _ Hw), (wr_job _ _ _ _ _ Hw).
    + unfold t4. cbn. by rewrite (wr_job _ _ _ _ _ Hw), Fj.
    + unfold t4. cbn. apply (wr_fd _ _ _ _ _ Hw).
    + done.
    + symmetry. apply u64_idem.
    + rewrite Hin4. unfold t4. cbn. rewrite (wr_os _ _ _ _ _ Hw).
      rewrite Hin, length_app in Hf. cbn [length] in Hf. lia.
    + split; [done|]. rewrite <-Hin4. apply (stored_then o fd (c :: b) _ t t2 t3 t'); [done|done| |done..].
      intros i. by rewrite Ff.
  - destruct Hx as (-> & Hs & Hc2 & Hin). intros E.
    apply (IH o t2) in E as [-> [Sj Sb Sc So]]; [|done|by rewrite Fj|by rewrite Ff|done|by rewrite Fb|].
    + rewrite Hin in *. split; [done|]. split; [by rewrite <-Fj|by rewrite Sb, Fb|by rewrite Sc, Ff|].
      intros i Hi. by rewrite So, Ff.
    + rewrite Hin. lia.
Qed.

(** Where an upload goes: STOR replaces the file, or overwrites it from the
    REST offset on; APPE adds to its end. *)
Definition upload (j : opftp_transfer_job) (c b : bytes) : bytes :=
  if bool_decide (j_op j = OPFTP_JOB_APPE) then c ++ b
  else if j_rest j =? 0 then b
  else store_at c (Z.to_nat (j_rest j)) b.

(** Where the upload starts, from the open flags. *)
Lemma upload_start j c (o : ofile ino) b :
  j_op j = OPFTP_JOB_STOR ∨ j_op j = OPFTP_JOB_APPE → 0 ≤ j_rest j →
  opened (stor_flags j) c o →
  o_wr o = true ∧
  store_at c (if (0 <? j_rest j) && bool_decide (j_op j = OPFTP_JOB_STOR)
              then Z.to_nat (j_rest j) else o_pos o) b = upload j c b.
Proof.
  intros Hop Hrest (_ & -> & Hpos & Htr). unfold upload, stor_flags in *.
  destruct Hop as [Hop|Hop]; rewrite Hop in *; cbn [bool_decide decide_rel] in *.
  - repeat (rewrite bool_decide_true in * by done). repeat (rewrite bool_decide_false in * by done).
    rewrite andb_true_r, andb_true_l in *.
    destruct (Z.eqb_spec (j_rest j) 0) as [E|E].
    + split; [done|]. destruct (Z.ltb_spec 0 (j_rest j)); [lia|]. rewrite Hpos, Htr by done.
      apply store_at_start.
    + split; [done|]. by destruct (Z.ltb_spec 0 (j_rest j)); [|lia].
  - repeat (rewrite bool_decide_true in * by done). repeat (rewrite bool_decide_false in * by done).
    rewrite andb_false_r. split; [done|]. rewrite Hpos. apply store_at_end.
Qed.

Lemma r_open_inv p fl m (fs : FS) e fd fs2 e2 :
  r_open r p fl m (fs, e) = (Some fd, (fs2, e2)) → ∃ fs1, fs_open p fl m fs1 = (Ok fd, fs2).
Proof.
  unfold r_open, guarded. rewrite ST_bind_eq. destruct (check r p (fs, e)) as [[|] [fs1 e1]]; [|done].
  unfold fs_lift. destruct (fs_open p fl m fs1) as [[x|x] fs3] eqn:E; [|done].
  intros [= -> <- <-]. by exists fs1.
Qed.

Lemma transfer_stor_live f fd fs2 e2 o (t : tstate FS OS) rc t' :
  j_op (t_job t) = OPFTP_JOB_STOR ∨ j_op (t_job t) = OPFTP_JOB_APPE →
  r_open r (j_path (t_job t)) (stor_flags (t_job t)) 420 (t_fs t, t_errno t) = (Some fd, (fs2, e2)) →
  fd_at fs2 fd = Some o → j_tls (t_job t) = None → connected t → t_bytes t = 0 →
  0 ≤ j_rest (t_job t) < 2 ^ 63 → (length (to_come t) + stall (t_os t) < f)%nat →
  transfer_stor r cancel f t = (rc, t') →
  rc = Some (Ok ()) ∧ same_job (t_job t) (t_job t') ∧
  t_bytes t' = u64 (Z.of_nat (length (to_come t))) ∧
  content (t_fs t') (o_ino o) = upload (t_job t) (content fs2 (o_ino o)) (to_come t) ∧
  (∀ i, i ≠ o_ino o → content (t_fs t') i = content fs2 i).
Proof.
  intros Hop Hopen Ho Htls Hc Hb Hrest Hf. unfold transfer_stor. rewrite ST_bind_eq.
  cbn [get_job st_gets]. rewrite ST_bind_eq. unfold fs_op at 1. rewrite Hopen.
  set (t0 := t <| t_fs := _ |> <| t_errno := _ |>).
  destruct (r_open_inv _ _ _ _ _ _ _ _ Hopen) as [fs1 Ho1].
  destruct (open_law _ _ _ _ _ _ Ho1) as (o' & Ho' & Hopd & _). rewrite Ho in Ho'. injection Ho' as <-.
  destruct (upload_start (t_job t) _ o (to_come t) Hop (proj1 Hrest) Hopd) as [Hwr Hup].
  assert (s64 (j_rest (t_job t)) = j_rest (t_job t)) as Es by (apply swrap_small; lia).
  (* the loop, from a state with the offset set *)
  assert (∀ p ta, idle t0 ta → fd_at (t_fs ta) fd = Some (o_seek o p) →
    (rc ← stor_loop r cancel f fd; _ ← fs_op (r_close r fd); mret rc) ta = (rc, t') →
    store_at (content fs2 (o_ino o)) p (to_come t) = upload (t_job t) (content fs2 (o_ino o)) (to_come t) →
    rc = Some (Ok ()) ∧ same_job (t_job t) (t_job t') ∧
    t_bytes t' = u64 (Z.of_nat (length (to_come t))) ∧
    content (t_fs t') (o_ino o) = upload (t_job t) (content fs2 (o_ino o)) (to_come t) ∧
    (∀ i, i ≠ o_ino o → content (t_fs t') i = content fs2 i)) as Hbody.
  { intros p ta [Ja Oa Ba Ca] Hoa (tb & El & [Jb Ob Bb Cb])%then_close <-. cbn in Ja, Oa, Ba, Ca.
    assert (to_come ta = to_come t) as Hin by (unfold to_come; by rewrite Oa, (same_job_data_fd _ _ Ja)).
    apply stor_live with (o := o_seek o p) in El as [-> [Sj Sb Sc So]]; [|..|done|done| |].
    - rewrite Hin in *. cbn [o_ino o_pos o_seek] in *. split_and!; [done| | | |].
      + etrans; [exact Ja|]. by etrans.
      + by rewrite Bb, Sb, Ba, Hb.
      + by rewrite Cb, Sc, Ca.
      + intros i Hi. by rewrite Cb, So, Ca.
    - unfold connected in *. rewrite Oa. by destruct Ja as (? & ? & ->).
    - by rewrite (same_job_tls _ _ Ja).
    - by rewrite Ba, Hb.
    - by rewrite Hin, Oa. }
  destruct ((0 <? j_rest (t_job t)) && bool_decide (j_op (t_job t) = OPFTP_JOB_STOR)).
  - intros E. destruct o as [i p0 rd wr].
    destruct (seek_rest_spec _ _ _ _ _ _ _ t0 rc t' Ho E) as [(ta & Ea & Ia & Hoa)|(_ & _ & _ & Hno)].
    + by apply (Hbody (Z.to_nat (s64 (j_rest (t_job t)))) ta Ia Hoa Ea); rewrite Es.
    + destruct Hno. change (j_rest (t_job t0)) with (j_rest (t_job t)). rewrite Es.
      apply (seek_succeeds _ _ _ _ Ho). lia.
  - intros E. apply (Hbody (o_pos o) t0); [by split|by destruct o|done|done].
Qed.

End Store.

(** C8. An upload is stored: on an established plain connection whose peer
    keeps sending until it closes, with a backend whose writes succeed and
    nobody aborting, a STOR or APPE job ends and reports success; the file it
    opened then holds what the peer sent, in place of the old content (STOR),
    over it from the REST offset on (STOR after REST) or after it (APPE); no
    other file changes, and the byte count is the length received. The fuel
    is one round per byte and per idle wait. *)
Theorem stor_stores {FS OS : Type} `{FsHealthy FS} `{SysConn OS}
    (srv : opftp_server) (r : rooted) (cancel : nat → bool) (f : nat) (t t1 : tstate FS OS)
    (fd : Z) (fs2 : FS) (e2 : errno) (o : ofile ino)
    (Hcancel : ∀ k, cancel k = false)
    (Hop : j_op (t_job t) = OPFTP_JOB_STOR ∨ j_op (t_job t) = OPFTP_JOB_APPE)
    (Hplain : j_need_tls (t_job t) = false)
    (Htls : j_tls (t_job t) = None) (Hbytes : t_bytes t = 0)
    (Hrest : 0 ≤ j_rest (t_job t) < 2 ^ 63)
    (Hconn : connect_job srv t = (Ok (), t1)) (Hlive : connected t1)
    (Hopen : r_open r (j_path (t_job t)) (stor_flags (t_job t)) 420 (t_fs t, t_errno t)
             = (Some fd, (fs2, e2)))
    (Hfile : fd_at fs2 fd = Some o)
    (Hfuel : (length (to_come t1) + stall (t_os t1) < f)%nat) :
  ∃ t', opftp_transfer_run srv r cancel f t = (true, t') ∧ j_result (t_job t') = Ok () ∧
    content (t_fs t') (o_ino o) = upload (t_job t) (content fs2 (o_ino o)) (to_come t1) ∧
    (∀ i, i ≠ o_ino o → content (t_fs t') i = content fs2 i) ∧
    j_final_bytes (t_job t') = u64 (Z.of_nat (length (to_come t1))).
Proof.
  destruct (connect_job_keeps _ _ _ _ Hconn) as (F1 & E1 & B1 & dfd & ok & J1).
  destruct (transfer_stor r cancel f t1) as [rc t2] eqn:Eb.
  assert (upload (t_job t1) = upload (t_job t)) as Hup by (by rewrite J1).
  destruct (transfer_stor_live r cancel Hcancel f fd fs2 e2 o t1 rc t2) as (-> & Hj & Hb & Hc & Ho); try done.
  { by rewrite J1. }
  { rewrite F1, E1. by rewrite J1. }
  { by rewrite J1. }
  { by rewrite B1. }
  { by rewrite J1. }
  rewrite Hup in Hc. eexists.
  split; [apply (run_plain srv r cancel f t t1 (Some (Ok ())) t2)|by split_and!].
  - by destruct Hop as [-> | ->].
  - done.
  - done.
  - by destruct Hop as [-> | ->].
  - rewrite (same_job_tls _ _ Hj). by rewrite J1.
Qed.

(** ** Copying a file *)

Section Copy.
Context {FS OS : Type} `{FsHealthy FS} `{SysOps OS}.
Context (srv : opftp_server) (r : rooted) (cancel : nat → bool) (Hcancel : ∀ k, cancel k = false).

(** A query of the backend: the same files and descriptors afterwards. *)
Definition quiet (s s' : FS * errno) : Prop :=
  (∀ i, content s'.1 i = content s.1 i) ∧ (∀ fd, fd_at s'.1 fd = fd_at s.1 fd).

#[local] Instance quiet_refl : Reflexive quiet.
Proof. by intros s. Qed.
#[local] Instance quiet_trans : Transitive quiet.
Proof.
  intros s1 s2 s3 [C1 F1] [C2 F2]. split; [intros i; by rewrite C2|intros fd; by rewrite F2].
Qed.

Definition queries {A} (m : ST (FS * errno) A) : Prop := ∀ s, quiet s (m s).2.

Lemma queries_ret {A} (a : A) : queries (mret a).
Proof. intros s. reflexivity. Qed.
Lemma queries_bind {A B} (m : ST (FS * errno) A) (k : A → ST (FS * errno) B) :
  queries m → (∀ a, queries (k a)) → queries (m ≫= k).
Proof.
  intros Hm Hk s. rewrite ST_bind_eq. specialize (Hm s). destruct (m s) as [a s'].
  etrans; [exact Hm|apply Hk].
Qed.
Lemma queries_lift {A} (op : FS → res A * FS) :
  (∀ fs x fs', op fs = (x, fs') →
     (∀ i, content fs' i = content fs i) ∧ (∀ fd, fd_at fs' fd = fd_at fs fd)) →
  queries (fs_lift op).
Proof.
  intros Hop [fs e]. unfold fs_lift. destruct (op fs) as [[a|x] fs'] eqn:E; by apply Hop in E.
Qed.
Lemma queries_errno e : queries (set_errno e).
Proof. by intros [fs e']. Qed.
Lemma queries_get_errno : queries get_errno.
Proof. by intros [fs e']. Qed.
Lemma queries_realpath p : queries (fs_lift (fs_realpath p)).
Proof. apply queries_lift, realpath_law. Qed.
Hint Resolve queries_ret queries_errno queries_get_errno queries_realpath : opftp.

Ltac queries_steps :=
  repeat first
    [ progress intros
    | match goal with
      | |- queries (_ ≫= _) => apply queries_bind
      | |- queries (match ?x with _ => _ end) => destruct x
      end
    | solve [eauto 2 with opftp nocore] ].

Lemma queries_check p : queries (check r p).
Proof.
  assert (∀ f path probe, queries (probe_loop f r path probe)) as Hp.
  { induction f as [|f IH]; intros path probe; cbn [probe_loop]; queries_steps. }
  unfold check, realpath_contained. queries_steps.
Qed.

Lemma queries_stat p : queries (r_stat r p).
Proof.
  unfold r_stat, guarded. apply queries_bind; [apply queries_check|]. intros [|]; [|apply queries_ret].
  apply queries_lift, stat_law.
Qed.

(** [r_open] that succeeds: the law of the backend's [open]. *)
Lemma r_open_law p fl m s fd s' :
  r_open r p fl m s = (Some fd, s') →
  ∃ o, fd_at s'.1 fd = Some o ∧ opened fl (content s'.1 (o_ino o)) o ∧
    (∀ i, i ≠ o_ino o → content s'.1 i = content s.1 i) ∧
    (∀ fd' o', fd_at s.1 fd' = Some o' → fd' ≠ fd ∧ fd_at s'.1 fd' = Some o').
Proof.
  unfold r_open, guarded. rewrite ST_bind_eq. pose proof (queries_check p s) as [Hc Hf].
  destruct (check r p s) as [[|] [fs1 e1]]; [|done]. cbn [fst snd] in Hc, Hf.
  unfold fs_lift. destruct (fs_open p fl m fs1) as [[x|x] fs3] eqn:E; [|done].
  intros [= -> <-]. destruct (open_law _ _ _ _ _ _ E) as (o & Ho & Hop & Hci & Hfd).
  exists o. split_and!; [done..| |]; cbn [fst].
  - intros i Hi. by rewrite Hci, Hc.
  - intros fd' o' Ho'. apply Hfd. by rewrite Hf.
Qed.

Lemma copy_live f fin fout oi oo (t : tstate FS OS) rc t' :
  fd_at (t_fs t) fin = Some oi → o_rd oi = true → fd_at (t_fs t) fout = Some oo → o_wr oo = true →
  fin ≠ fout → o_ino oi ≠ o_ino oo → t_bytes t = u64 (t_bytes t) →
  (length (drop (o_pos oi) (content (t_fs t) (o_ino oi))) < f)%nat →
  copy_loop r cancel f fin fout t = (rc, t') →
  rc = Some (Ok ()) ∧ stored oo (drop (o_pos oi) (content (t_fs t) (o_ino oi))) t t'.
Proof.
  revert oi oo t rc t'. induction f as [|f IH]; intros oi oo t rc t' Hi Hrd Ho Hwr Hne Hino Hb Hf; [lia|].
  cbn [copy_loop]. rewrite ST_bind_eq. cbn [job_cancelled]. rewrite Hcancel.
  set (t1 := t <| t_tick := _ |>). rewrite ST_bind_eq.
  destruct (fs_op (r_read r fin TRANSFER_BUF) t1) as [b t2] eqn:Er.
  apply fs_op_lift in Er as (x & fs2 & Er & -> & F2 & J2 & O2 & B2 & _).
  destruct (read_succeeds _ TRANSFER_BUF _ _ Hi Hrd) as [b Eb].
  change (t_fs t1) with (t_fs t) in Er. rewrite Er in Eb. cbn in Eb. subst x.
  destruct (read_law _ _ _ _ _ _ Hi Er) as (Hpre & Hnil & Hi2 & Hc2 & Hf2); [unfold TRANSFER_BUF; lia|].
  rewrite <-F2 in Hi2, Hc2, Hf2. destruct b as [|c b].
  { intros [= <- <-]. rewrite Hnil by done. split; [done|].
    split; [by rewrite J2|by rewrite B2; cbn; rewrite Z.add_0_r|by rewrite Hc2|by intros; rewrite Hc2]. }
  destruct Hpre as [d Hd]. rewrite Hd in Hf |- *. rewrite length_app in Hf.
  rewrite ST_bind_eq. destruct (write_all r fout (c :: b) t2) as [w t3] eqn:Ew.
  apply write_all_live with (o := oo) in Ew as [-> Hw]; [|by rewrite Hf2|done|done].
  rewrite ST_bind_eq. cbn [add_bytes st_modify]. intros E.
  set (t4 := (add_bytes (length (c :: b)) t3).2).
  assert (drop (o_pos (o_skip oi (length (c :: b)))) (content (t_fs t4) (o_ino oi)) = d) as Hd4.
  { unfold t4. cbn [add_bytes st_modify snd]. cbn. rewrite (wr_others _ _ _ _ _ Hw) by done.
    rewrite Hc2. change (S (length b)) with (length (c :: b)). by rewrite <-drop_drop, Hd, drop_app_length. }
  destruct (IH (o_skip oi (length (c :: b))) (o_skip oo (length (c :: b))) t4 rc t') as [-> Hst];
    [..|exact E|]; try done.
  - unfold t4. cbn. by rewrite (wr_fds _ _ _ _ _ Hw), Hi2.
  - apply (wr_fd _ _ _ _ _ Hw).
  - symmetry. apply u64_idem.
  - change (o_ino (o_skip oi (length (c :: b)))) with (o_ino oi). rewrite Hd4. cbn [length] in Hf. lia.
  - split; [done|]. change (o_ino (o_skip oi (length (c :: b)))) with (o_ino oi) in Hst. rewrite Hd4 in Hst.
    by apply (stored_then oo fout (c :: b) d t t2 t3 t').
Qed.

Lemma fs_op_inv {A} (op : FsM FS A) (t : tstate FS OS) a t' :
  fs_op op t = (a, t') →
  op (t_fs t, t_errno t) = (a, (t_fs t', t_errno t')) ∧ t_job t' = t_job t ∧ t_os t' = t_os t ∧
  t_bytes t' = t_bytes t.
Proof. unfold fs_op. destruct (op _) as [x [fs' e']] eqn:E. by intros [= <- <-]. Qed.

Lemma fs_op_close fd (t : tstate FS OS) a t' : fs_op (r_close r fd) t = (a, t') → idle t t'.
Proof.
  intros (y & fs2 & E & -> & F2 & J2 & O2 & B2 & _)%fs_op_lift. apply close_law in E as [Hc _].
  split; [by rewrite J2|done..|]. intros i. by rewrite F2.
Qed.

(** The destination is opened emptied, for writing. *)
Definition copy_flags : Z := Z.lor OPFTP_O_WRONLY (Z.lor OPFTP_O_CREAT OPFTP_O_TRUNC).

Lemma copy_file_live f src dst fin fout oi oo (t t1 t2 t3 : tstate FS OS) st rc t' :
  fs_op (r_open r src OPFTP_O_RDONLY 0) t = (Some fin, t1) → fd_at (t_fs t1) fin = Some oi →
  fs_op (r_stat r dst) t1 = (st, t2) →
  fs_op (r_open r dst copy_flags 420) t2 = (Some fout, t3) → fd_at (t_fs t3) fout = Some oo →
  o_ino oi ≠ o_ino oo → t_bytes t = u64 (t_bytes t) → (length (content (t_fs t1) (o_ino oi)) < f)%nat →
  copy_file r cancel f src dst t = (rc, t') →
  let c := content (t_fs t1) (o_ino oi) in
  rc = Some (Ok ()) ∧ same_job (t_job t) (t_job t') ∧
  t_bytes t' = u64 (t_bytes t + Z.of_nat (length c)) ∧ content (t_fs t') (o_ino oo) = c ∧
  (∀ i, i ≠ o_ino oo → content (t_fs t') i = content (t_fs t1) i).
Proof.
  intros Ein Hi Est Eout Ho Hne Hb Hf. unfold copy_file. rewrite ST_bind_eq, Ein.
  rewrite ST_bind_eq, Est. fold copy_flags. rewrite ST_bind_eq, Eout, ST_bind_eq.
  destruct (copy_loop r cancel f fin fout t3) as [rc4 t4] eqn:El.
  apply fs_op_inv in Ein as (Ein & Jin & _ & Bin). apply fs_op_inv in Est as (Est & Jst & _ & Bst).
  apply fs_op_inv in Eout as (Eout & Jout & _ & Bout).
  apply r_open_law in Ein as (oi' & Hi' & (Hrd & _ & Hpi & _) & _).
  cbn [fst] in Hi'. rewrite Hi in Hi'. injection Hi' as <-.
  pose proof (queries_stat dst (t_fs t1, t_errno t1)) as [Cst Fst]. rewrite Est in Cst, Fst. cbn in Cst, Fst.
  apply r_open_law in Eout as (oo' & Ho' & (_ & Hwr & Hpo & Htr) & Cout & Fout).
  cbn [fst] in *. rewrite Ho in Ho'. injection Ho' as <-. rewrite <-Fst in Hi.
  destruct (Fout _ _ Hi) as [Hfd Hi3].
  assert (drop (o_pos oi) (content (t_fs t3) (o_ino oi)) = content (t_fs t1) (o_ino oi)) as Hsrc.
  { rewrite Hpi, Cout, Cst by done. reflexivity. }
  apply (copy_live f fin fout oi oo) in El as [-> [Sj Sb Sc So]]; rewrite ?Hsrc in *;
    [|done|by rewrite Hrd|done|by rewrite Hwr|done|done|by rewrite Bout, Bst, Bin|done].
  rewrite Htr, Hpo, store_at_start in Sc by done.
  rewrite ST_bind_eq. destruct (fs_op (r_close r fin) t4) as [a5 t5] eqn:E5.
  rewrite ST_bind_eq. destruct (fs_op (r_close r fout) t5) as [a6 t6] eqn:E6.
  apply fs_op_close in E5. apply fs_op_close in E6. destruct (idle_trans _ _ _ E5 E6) as [J6 O6 B6 C6].
  intros [= <- <-]. split_and!; [done| | | |].
  - etrans; [|exact J6]. by rewrite <-Jin, <-Jst, <-Jout.
  - by rewrite B6, Sb, Bout, Bst, Bin.
  - by rewrite C6, Sc.
  - intros i Hii. by rewrite C6, So, Cout, Cst.
Qed.

End Copy.

(** C13. A copied file is a copy: with a backend whose reads and writes
    succeed and nobody aborting, the job CPTO starts for a plain file ends and
    reports success; the destination then has the content of the source, no
    other file changed, and the byte count is the length. Source and
    destination are different files. *)
Theorem copy_copies {FS OS : Type} `{FsHealthy FS} `{SysOps OS}
    (srv : opftp_server) (r : rooted) (cancel : nat → bool) (f : nat)
    (t t0 t1 t2 t3 : tstate FS OS) (st : opftp_stat) (dstat : option opftp_stat)
    (fin fout : Z) (oi oo : ofile ino)
    (Hcancel : ∀ k, cancel k = false)
    (Hop : j_op (t_job t) = OPFTP_JOB_COPY) (Hplain : j_need_tls (t_job t) = false)
    (Htls : j_tls (t_job t) = None) (Hbytes : t_bytes t = 0)
    (Hpaths : j_path (t_job t) ≠ j_dst (t_job t))
    (Hstat : fs_op (r_stat r (j_path (t_job t))) t = (Some st, t0))
    (Hreg : is_dir (st_mode st) = false)
    (Hin : fs_op (r_open r (j_path (t_job t)) OPFTP_O_RDONLY 0)
             (t0 <| t_job := t_job t0 <| j_total := st_size st |> |>) = (Some fin, t1))
    (Hfin : fd_at (t_fs t1) fin = Some oi)
    (Hdst : fs_op (r_stat r (j_dst (t_job t))) t1 = (dstat, t2))
    (Hout : fs_op (r_open r (j_dst (t_job t)) copy_flags 420) t2 = (Some fout, t3))
    (Hfout : fd_at (t_fs t3) fout = Some oo)
    (Hdiff : o_ino oi ≠ o_ino oo)
    (Hfuel : (length (content (t_fs t1) (o_ino oi)) < f)%nat) :
  let c := content (t_fs t1) (o_ino oi) in
  ∃ t', opftp_transfer_run srv r cancel f t = (true, t') ∧ j_result (t_job t') = Ok () ∧
    content (t_fs t') (o_ino oo) = c ∧
    (∀ i, i ≠ o_ino oo → content (t_fs t') i = content (t_fs t1) i) ∧
    j_final_bytes (t_job t') = u64 (Z.of_nat (length c)).
Proof.
  intros c. pose proof (fs_op_inv _ _ _ _ Hstat) as (_ & J0 & _ & B0).
  set (t0' := t0 <| t_job := _ |>) in Hin.
  destruct (copy_file r cancel f (j_path (t_job t)) (j_dst (t_job t)) t0') as [rc t4] eqn:Ec.
  destruct (copy_file_live r cancel Hcancel f (j_path (t_job t)) (j_dst (t_job t)) fin fout oi oo t0' t1 t2 t3 dstat rc t4)
    as (-> & Hj & Hb & Hc & Ho); try done.
  { change (t_bytes t0') with (t_bytes t0). by rewrite B0, Hbytes. }
  change (t_bytes t0') with (t_bytes t0) in Hb. rewrite B0, Hbytes in Hb.
  assert (j_tls (t_job t4) = None) as Htls4.
  { rewrite (same_job_tls _ _ Hj). unfold t0'. cbn. by rewrite J0. }
  assert (transfer_copy r cancel f t = (Some (Ok ()), t4)) as Et.
  { unfold transfer_copy. rewrite ST_bind_eq. cbn [get_job st_gets].
    rewrite (proj2 (streq_false _ _)) by done. rewrite ST_bind_eq, Hstat, Hreg.
    rewrite ST_bind_eq. exact Ec. }
  exists (completed (Ok ()) t4). split; [|by split_and!].
  unfold opftp_transfer_run, run_body. rewrite !ST_bind_eq. cbn [get_job st_gets].
  rewrite Hop, bool_decide_true by done. rewrite ST_bind_eq. cbn [mret ST_ret]. rewrite ST_bind_eq, Hplain.
  cbn [mret ST_ret]. by rewrite Et, ST_bind_eq, finish_plain.
Qed.


(** A worker's RETR of [/srv/f] from byte 3 on. *)
Definition retr_start : tstate mctx script :=
  mk_tstate (Scenario.retr_job <| j_rest := 3 |>) Scenario.tree E0 (script_with [[]]) 0 0.

Definition srv0 : opftp_server := Scenario.server (B "/srv").
Definition root0 : rooted := mk_rooted (B "/srv") false.
Definition retr_up : tstate mctx script := (connect_job srv0 retr_start).2.
Definition retr_opened : mctx * errno :=
  (r_open root0 (B "/srv/f") OPFTP_O_RDONLY 0 (Scenario.tree, E0)).2.
Definition f_ino : @ino mctx mem_vtable FsFiles_mem := 4%positive.

Lemma retr_connects : connect_job srv0 retr_start = (Ok (), retr_up).
Proof. vm_compute. reflexivity. Qed.
Lemma retr_opens :
  r_open root0 (B "/srv/f") OPFTP_O_RDONLY 0 (Scenario.tree, E0)
  = (Some 1, (retr_opened.1, retr_opened.2)).
Proof. vm_compute. reflexivity. Qed.
Lemma retr_file : fd_at retr_opened.1 1 = Some (mk_ofile f_ino 0 true false).
Proof. vm_compute. reflexivity. Qed.

Lemma retr_sends_only_file_witness :
  ∃ n, wire (t_os (opftp_transfer_run srv0 root0 (λ k, (1 <=? k)%nat) 20 retr_start).2) 10
       = take n (B "tent").
Proof.
  destruct (retr_sends_only_file srv0 root0 (λ k, (1 <=? k)%nat) 20 retr_start retr_up 1
              retr_opened.1 retr_opened.2 f_ino true false _ _ eq_refl eq_refl eq_refl eq_refl
              retr_connects retr_opens retr_file (surjective_pairing _)) as (n & Hw & _).
  exists n. exact Hw.
Defined.

Lemma retr_delivers_witness :
  ∃ t', opftp_transfer_run srv0 root0 (λ _, false) 20 retr_start = (true, t') ∧
        j_result (t_job t') = Ok () ∧ wire (t_os t') 10 = B "tent" ∧ j_final_bytes (t_job t') = 4.
Proof.
  refine (retr_delivers srv0 root0 (λ _, false) 20 retr_start retr_up 1 retr_opened.1 retr_opened.2
            f_ino false (λ _, eq_refl) eq_refl eq_refl eq_refl eq_refl _ retr_connects _
            retr_opens retr_file _).
  - cbn. lia.
  - refine (conj _ (conj _ (conj _ _))); [vm_compute; split; congruence| |right; vm_compute; congruence|].
    + change (1001 ∉ ([] : list Z)). apply not_elem_of_nil.
    + change ([] ∈ [[] : bytes]). by apply elem_of_cons; left.
  - vm_compute. lia.
Defined.

(** A worker's STOR of [/srv/f] from byte 3 on, six bytes in two pieces. *)
Definition stor_start : tstate mctx script :=
  mk_tstate (Scenario.retr_job <| j_op := OPFTP_JOB_STOR |> <| j_rest := 3 |>) Scenario.tree E0
    (script_with [B "abc"; B "def"; []]) 0 0.
Definition stor_up : tstate mctx script := (connect_job srv0 stor_start).2.
Definition stor_opened : mctx * errno :=
  (r_open root0 (B "/srv/f") (stor_flags (t_job stor_start)) 420 (Scenario.tree, E0)).2.

Lemma stor_connects : connect_job srv0 stor_start = (Ok (), stor_up).
Proof. vm_compute. reflexivity. Qed.
Lemma stor_opens :
  r_open root0 (B "/srv/f") (stor_flags (t_job stor_start)) 420 (Scenario.tree, E0)
  = (Some 1, (stor_opened.1, stor_opened.2)).
Proof. vm_compute. reflexivity. Qed.
Lemma stor_file : fd_at stor_opened.1 1 = Some (mk_ofile f_ino 0 false true).
Proof. vm_compute. reflexivity. Qed.

Lemma stor_stores_witness :
  ∃ t', opftp_transfer_run srv0 root0 (λ _, false) 20 stor_start = (true, t') ∧
        j_result (t_job t') = Ok () ∧ content (t_fs t') f_ino = B "conabcdef" ∧
        j_final_bytes (t_job t') = 6.
Proof.
  destruct (stor_stores srv0 root0 (λ _, false) 20 stor_start stor_up 1 stor_opened.1 stor_opened.2
              (mk_ofile f_ino 0 false true) (λ _, eq_refl) (or_introl eq_refl) eq_refl eq_refl eq_refl
              ltac:(cbn; lia) stor_connects) as (t' & Hrun & Hres & Hc & _ & Hb).
  - refine (conj _ (conj _ (conj _ _))); [vm_compute; split; congruence| |right; vm_compute; congruence|].
    + change (1001 ∉ ([] : list Z)). apply not_elem_of_nil.
    + change ([] ∈ [B "abc"; B "def"; [] : bytes]). rewrite !elem_of_cons. by right; right; left.
  - exact stor_opens.
  - exact stor_file.
  - vm_compute. lia.
  - exists t'. split_and!; [exact Hrun|exact Hres| |].
    + etrans; [exact Hc|]. vm_compute. reflexivity.
    + etrans; [exact Hb|]. vm_compute. reflexivity.
Defined.

(** A worker's copy of [/srv/f] to the new file [/srv/a/g]. *)
Definition copy_start : tstate mctx script :=
  mk_tstate (Scenario.retr_job <| j_op := OPFTP_JOB_COPY |> <| j_dst := B "/srv/a/g" |>) Scenario.tree E0
    script0 0 0.
Definition copy_st : opftp_stat := mk_stat 33188 7 1700000000 0 0.
Definition copy_0 : tstate mctx script :=
  copy_start <| t_job := t_job copy_start <| j_total := st_size copy_st |> |>.
Definition copy_in : FsM mctx Z := r_open root0 (j_path (t_job copy_start)) OPFTP_O_RDONLY 0.
Definition copy_out : FsM mctx Z := r_open root0 (j_dst (t_job copy_start)) copy_flags 420.
Definition copy_1 : tstate mctx script := (fs_op copy_in copy_0).2.
Definition copy_2 : tstate mctx script := (fs_op (r_stat root0 (j_dst (t_job copy_start))) copy_1).2.
Definition copy_3 : tstate mctx script := (fs_op copy_out copy_2).2.
Definition g_ino : @ino mctx mem_vtable FsFiles_mem := 5%positive.

Lemma copy_stats :
  fs_op (r_stat root0 (j_path (t_job copy_start))) copy_start = (Some copy_st, copy_start).
Proof. vm_compute. reflexivity. Qed.
Lemma copy_opens_in : fs_op copy_in copy_0 = (Some 1, copy_1).
Proof. vm_compute. reflexivity. Qed.
Lemma copy_file_in : fd_at (t_fs copy_1) 1 = Some (mk_ofile f_ino 0 true false).
Proof. vm_compute. reflexivity. Qed.
Lemma copy_stats_dst : fs_op (r_stat root0 (j_dst (t_job copy_start))) copy_1 = (None, copy_2).
Proof. vm_compute. reflexivity. Qed.
Lemma copy_opens_out : fs_op copy_out copy_2 = (Some 2, copy_3).
Proof. vm_compute. reflexivity. Qed.
Lemma copy_file_out : fd_at (t_fs copy_3) 2 = Some (mk_ofile g_ino 0 false true).
Proof. vm_compute. reflexivity. Qed.
Lemma copy_size : content (t_fs copy_1) f_ino = B "content".
Proof. vm_compute. reflexivity. Qed.

Lemma copy_paths : j_path (t_job copy_start) ≠ j_dst (t_job copy_start).
Proof. discriminate. Qed.
Lemma copy_inos : f_ino ≠ g_ino.
Proof. discriminate. Qed.

Lemma copy_copies_witness :
  ∃ t', opftp_transfer_run srv0 root0 (λ _, false) 20 copy_start = (true, t') ∧
        j_result (t_job t') = Ok () ∧ content (t_fs t') g_ino = B "content" ∧
        j_final_bytes (t_job t') = 7.
Proof.
  destruct (@copy_copies mctx script mem_vtable FsFiles_mem FsHealthy_mem SysOps_script
              srv0 root0 (λ _, false) 20 copy_start copy_start copy_1 copy_2 copy_3
              copy_st None 1 2 (mk_ofile f_ino 0 true false)
              (mk_ofile g_ino 0 false true) (λ _, eq_refl) eq_refl eq_refl eq_refl eq_refl
              copy_paths copy_stats eq_refl copy_opens_in copy_file_in copy_stats_dst
              copy_opens_out copy_file_out copy_inos) as (t' & Hrun & Hres & Hc & _ & Hb).
  - cbn [o_ino]. rewrite copy_size. cbn. lia.
  - cbn [o_ino] in Hc, Hb. rewrite copy_size in Hc, Hb. exists t'. exact (conj Hrun (conj Hres (conj Hc Hb))).
Defined.

End TransferData.
