(* ===== verification/Replies.v ===== *)
(** * Replies are accounted for

    RFC 959 asks for exactly one final reply to each command. A command that
    starts a job (a transfer, a copy) or aborts one is answered when the job
    completes: the client is owed that reply meanwhile. Command lines and
    completions keep the account: final replies sent plus replies owed is the
    number of commands. *)

From S2P Require Import Prelude Types Resolve CLib Listing Sys Tls FsIface FsRooted Dispatch.
From S2P Require Import Queue FsMem World Client Logic Datachan Commands Server Scenario.
Import FsMem Resolve CLib Listing Client Datachan Commands Server.

Local Open Scope Z_scope.

Module Replies.

Section Replies.
Context {FS OS : Type} `{FsOps FS} `{SysOps OS}.

(** ** Helpers send nothing *)

Lemma silent_resolve_arg p : silent (FS:=FS) (OS:=OS) (resolve_arg p).
Proof. unfold resolve_arg. silent_steps. Qed.
Lemma silent_fstat_path p : silent (FS:=FS) (OS:=OS) (fstat_path p).
Proof. unfold fstat_path. silent_steps. Qed.
Hint Resolve silent_resolve_arg silent_fstat_path : opftp.
Lemma silent_parent_is_dir p : silent (FS:=FS) (OS:=OS) (parent_is_dir p).
Proof. unfold parent_is_dir. silent_steps. Qed.
Hint Resolve silent_parent_is_dir : opftp.
Lemma silent_resolve_dest p : silent (FS:=FS) (OS:=OS) (resolve_dest p).
Proof. unfold resolve_dest. silent_steps. Qed.
Lemma silent_job_new op : silent (FS:=FS) (OS:=OS) (job_new op).
Proof. unfold job_new. silent_steps; intros h; done. Qed.
Lemma silent_job_free j : silent (FS:=FS) (OS:=OS) (job_free j).
Proof. unfold job_free. silent_steps; intros h; done. Qed.
Lemma silent_job_dispatch j : silent (FS:=FS) (OS:=OS) (job_dispatch j).
Proof. unfold job_dispatch. silent_steps. Qed.
Lemma silent_close_pasv : silent (FS:=FS) (OS:=OS) close_pasv.
Proof. unfold close_pasv. silent_steps. Qed.
Lemma silent_bind_range n fd mk c : silent (FS:=FS) (OS:=OS) (bind_range n fd mk c).
Proof. revert c. induction n as [|n IH]; intros c; cbn [bind_range]; silent_steps. Qed.
Hint Resolve silent_bind_range : opftp.
Lemma silent_open_listener fd mk : silent (FS:=FS) (OS:=OS) (open_listener fd mk).
Proof. unfold open_listener, bind_listener_in_range. silent_steps. Qed.
Lemma silent_pollset_mod ev : silent (FS:=FS) (OS:=OS) (pollset_mod_client ev).
Proof. unfold pollset_mod_client. silent_steps. Qed.
Hint Resolve silent_pollset_mod : opftp.
Lemma silent_start_tls : silent (FS:=FS) (OS:=OS) opftp_client_start_tls.
Proof. unfold opftp_client_start_tls. silent_steps. Qed.
Lemma silent_cancel_job j : silent (FS:=FS) (OS:=OS) (cancel_job j).
Proof. unfold cancel_job. silent_steps. Qed.
Lemma silent_stou_loop n : silent (FS:=FS) (OS:=OS) (stou_loop n).
Proof. induction n as [|n IH]; cbn [stou_loop]; silent_steps; done. Qed.
Hint Resolve silent_resolve_dest silent_job_new silent_job_free silent_job_dispatch
  silent_close_pasv silent_open_listener silent_start_tls silent_cancel_job silent_stou_loop : opftp.

(** ** Each handler *)

Lemma finals_reply_fs_error : finals (FS:=FS) (OS:=OS) 1 reply_fs_error.
Proof. unfold reply_fs_error, reply. final_steps. Qed.
Hint Resolve finals_reply_fs_error : opftp.

Ltac handler := unfold reply in *; final_steps.

(** ** Starting a job *)

(** [finals] from the states of a client without a job. *)
Definition settles {A} (n : nat) (m : HM FS OS A) : Prop :=
  ∀ h, c_job (h_cl h) = None →
    ∃ ls, h_out (m h).2 = h_out h ++ ls ∧ (count_final ls + owed (m h).2 = owed h + n)%nat.

Lemma settles_finals {A} n (m : HM FS OS A) : finals n m → settles n m.
Proof. intros Hm h _. apply Hm. Qed.

Lemma settles_after {A B} n (m : HM FS OS A) (f : A → HM FS OS B) :
  silent m → (∀ a, settles n (f a)) → settles n (m ≫= f).
Proof.
  intros Hm Hf h Hj. rewrite ST_bind_eq. destruct (Hm h) as (E & Ej & _).
  pose proof (silent_owed m h Hm) as Eo. destruct (m h) as [a h']. cbn [snd] in *.
  rewrite <-E, <-Eo. apply Hf. congruence.
Qed.

Lemma settles_before {A B} n (m : HM FS OS A) (f : A → HM FS OS B) :
  settles n m → (∀ a, finals 0 (f a)) → settles n (m ≫= f).
Proof.
  intros Hm Hf h Hj. rewrite ST_bind_eq. destruct (Hm h Hj) as (ls & E & Hc).
  destruct (m h) as [a h']. destruct (Hf a h') as (ls' & E' & Hc'). cbn [snd] in *.
  exists (ls ++ ls'). rewrite E', E, app_assoc, count_final_app. split; [done|lia].
Qed.

(** The job is recorded: its reply is owed from now on. *)
Lemma settles_launch id f :
  (∀ c, c_job (f c) = Some id ∧ c_abor_pending (f c) = c_abor_pending c) → settles 1 (mod_cl f).
Proof.
  intros Hf h Hj. exists []. rewrite app_nil_r. split; [done|]. destruct (Hf (h_cl h)) as [Ej Ea].
  unfold owed. cbn. rewrite Ej, Ea, Hj. lia.
Qed.

(** Either there is a job and the command is refused, or the rest runs
    without one. *)
Lemma finals_idle {A} n (m k : HM FS OS A) (h : hstate FS OS) :
  (c_job (h_cl h) ≠ None → finals n m) → settles n k →
  ∃ ls, h_out ((if bool_decide (is_Some (c_job (h_cl h))) then m else k) h).2 = h_out h ++ ls ∧
    (count_final ls + owed ((if bool_decide (is_Some (c_job (h_cl h))) then m else k) h).2
     = owed h + n)%nat.
Proof.
  intros Hm Hk. destruct (c_job (h_cl h)) as [id|] eqn:E.
  - rewrite bool_decide_true by by eexists. by apply Hm.
  - rewrite bool_decide_false by by intros []. by apply Hk.
Qed.

Ltac settle_steps :=
  repeat first
    [ progress intros
    | match goal with
      | |- settles _ (match ?x with _ => _ end) => destruct x
      | |- settles 1 (mod_cl _) => eapply settles_launch; by split
      | |- settles _ (mod_cl _ ≫= _) =>
          apply settles_before; [eapply settles_launch; by split|intros; apply finals_prelim; lia]
      | |- settles _ (_ ≫= _) => apply settles_after; [solve [silent_steps]|]
      | |- settles _ _ => apply settles_finals; solve [handler]
      end ].

Lemma finals_start_transfer op p nl ml r : finals (FS:=FS) (OS:=OS) 1 (start_transfer op p nl ml r).
Proof.
  intros h. unfold start_transfer. rewrite ST_bind_eq. cbn [get_srv st_gets].
  rewrite ST_bind_eq. cbn [get_cl st_gets]. apply (finals_idle 1); [intros _; handler|].
  unfold reply. settle_steps.
Qed.
Hint Resolve finals_start_transfer : opftp.

Lemma finals_cmd_cpto p : finals (FS:=FS) (OS:=OS) 1 (cmd_cpto p).
Proof.
  intros h. unfold cmd_cpto. rewrite ST_bind_eq. cbn [get_cl st_gets].
  destruct (negb (c_have_cpfr (h_cl h))); [apply finals_reply; lia|].
  apply (finals_idle 1); [intros _; handler|]. unfold reply. settle_steps.
Qed.


Lemma finals_start_listing p nl ml : finals (FS:=FS) (OS:=OS) 1 (start_listing p nl ml).
Proof. unfold start_listing. handler. Qed.
Lemma finals_start_store op p : finals (FS:=FS) (OS:=OS) 1 (start_store op p).
Proof. unfold start_store. handler. Qed.
Lemma finals_cmd_stop p : finals (FS:=FS) (OS:=OS) 1 (cmd_stop p).
Proof. unfold cmd_stop. handler. Qed.
Hint Resolve finals_start_listing finals_start_store finals_cmd_stop : opftp.
Lemma finals_site_chmod p : finals (FS:=FS) (OS:=OS) 1 (site_chmod p).
Proof. unfold site_chmod. handler. Qed.
Lemma finals_site_utime p : finals (FS:=FS) (OS:=OS) 1 (site_utime p).
Proof. unfold site_utime. handler. Qed.
Hint Resolve finals_site_chmod finals_site_utime : opftp.
Lemma finals_set_data_peer a l : finals (FS:=FS) (OS:=OS) 1 (set_data_peer a l).
Proof. unfold set_data_peer. handler. Qed.
Lemma finals_cmd_cwd p : finals (FS:=FS) (OS:=OS) 1 (cmd_cwd p).
Proof. unfold cmd_cwd. handler. Qed.
Hint Resolve finals_set_data_peer finals_cmd_cwd : opftp.

(** The multi-line replies. *)
Lemma finals_send_lines ls n :
  length (filter (λ l, is_final (l ++ CRLF) = true) ls) = n →
  finals (FS:=FS) (OS:=OS) n (send_lines ls).
Proof.
  revert n. induction ls as [|l ls IH]; intros n Hn; cbn [send_lines].
  { subst n. apply finals_ret. }
  rewrite filter_cons in Hn.
  destruct (decide (is_final (l ++ CRLF) = true)) as [Hl|Hl]; cbn [length] in Hn; subst n.
  - apply (finals_bind 1); [apply finals_send; [done|lia]|]. intros _. by apply IH.
  - apply (finals_bind 0); [apply finals_send; [by destruct (is_final _)|lia]|]. intros _. by apply IH.
Qed.

Lemma finals_cmd_feat p : finals (FS:=FS) (OS:=OS) 1 (cmd_feat p).
Proof.
  unfold cmd_feat. apply finals_after; [by apply silent_finals, silent_gets|]. intros s.
  apply finals_send_lines. by destruct (s_tls s).
Qed.

Lemma finals_stat_entries f d : finals (FS:=FS) (OS:=OS) 0 (stat_entries f d).
Proof.
  induction f as [|f IH]; cbn [stat_entries]; [apply finals_ret|].
  apply finals_after; [apply silent_finals; silent_steps|]. intros r.
  destruct r as [[de|]|]; [|apply finals_ret..].
  apply finals_after; [apply silent_finals; silent_steps|]. intros h.
  apply (finals_bind 0 0); [|intros _; exact IH].
  pose proof (finals_send_raw (FS:=FS) (OS:=OS)
    (snd (opftp_listing_format (sys_localtime_r (h_os h)) 1024 de None))) as Hf.
  rewrite listing_not_final in Hf by lia. exact Hf.
Qed.

Lemma finals_cmd_stat p : finals (FS:=FS) (OS:=OS) 1 (cmd_stat p).
Proof.
  unfold cmd_stat. destruct (negb (given p)).
  { apply finals_after; [apply silent_finals; silent_steps|]. intros c.
    apply (finals_bind 0 1); [apply finals_send; [|lia]|intros _; apply finals_send; [done|lia]].
    unfold bprintf. rewrite take_app. cbn [app]. done. }
  apply finals_after; [apply silent_finals; silent_steps|]. intros [path|]; [|handler].
  apply finals_after; [apply silent_finals; silent_steps|]. intros [st|]; [|handler].
  apply (finals_bind 0 1); [apply finals_send; [|lia]|intros _].
  { unfold bprintf. rewrite take_app. done. }
  apply (finals_bind 0 1); [|intros _; apply finals_send; [done|lia]].
  destruct (is_dir (st_mode st)).
  - apply finals_after; [apply silent_finals; silent_steps|]. intros [d|]; [|apply finals_ret].
    apply finals_after; [apply silent_finals; silent_steps|]. intros h.
    apply finals_before; [apply finals_stat_entries|]. intros _. apply silent_finals. silent_steps.
  - apply finals_after; [apply silent_finals; silent_steps|]. intros h.
    pose proof (finals_send_raw (FS:=FS) (OS:=OS)
      (snd (opftp_listing_format (sys_localtime_r (h_os h)) 1024 (stat_dirent path st) None))) as Hf.
    rewrite listing_not_final in Hf by lia. exact Hf.
Qed.

Lemma finals_cmd_mlst p : finals (FS:=FS) (OS:=OS) 1 (cmd_mlst p).
Proof.
  unfold cmd_mlst. destruct (negb (given p)); [handler|].
  apply finals_after; [apply silent_finals; silent_steps|]. intros [path|]; [|handler].
  apply finals_after; [apply silent_finals; silent_steps|]. intros [st|]; [|handler].
  apply (finals_bind 0 1); [apply finals_send; [done|lia]|intros _].
  apply (finals_bind 0 1); [|intros _; handler].
  match goal with |- finals _ (send_raw ?l) => pose proof (finals_send_raw (FS:=FS) (OS:=OS) l) as Hf end.
  by rewrite is_final_bprintf in Hf by lia.
Qed.

(** The reply of a STOU that gave up. *)
Lemma stou_loop_code n (h : hstate FS OS) code msg :
  (stou_loop n h).1 = inr (code, msg) → code = 450 ∨ code = 550.
Proof.
  revert h. induction n as [|n IH]; intros h; cbn [stou_loop]; [intros [= <- _]; by left|].
  rewrite !ST_bind_eq. unfold st_get, st_modify. cbn iota beta. rewrite !ST_bind_eq. cbn iota beta.
  destruct (resolve_arg _ _) as [[name|] h1];
    [|intros [= <- _]; by right].
  rewrite ST_bind_eq. destruct (fstat_path name h1) as [st h2].
  rewrite ST_bind_eq. destruct st; [apply IH|]. case_match; [done|apply IH].
Qed.

Lemma finals_cmd_stou p : finals (FS:=FS) (OS:=OS) 1 (cmd_stou p).
Proof.
  unfold cmd_stou. apply finals_after.
  { apply silent_finals. intros h. unfold st_modify. cbn. by case_match. }
  intros _ h. rewrite ST_bind_eq. destruct (silent_stou_loop 10 h) as (Hs & _).
  pose proof (silent_owed _ h (silent_stou_loop 10)) as Ho. pose proof (stou_loop_code 10 h) as Hc.
  destruct (stou_loop 10 h) as [r h1]. cbn [fst snd] in *. rewrite <-Hs, <-Ho.
  destruct r as [name|[code msg]].
  - apply finals_start_transfer.
  - destruct (Hc code msg eq_refl) as [-> | ->]; apply finals_reply; lia.
Qed.

Hint Resolve finals_cmd_feat finals_cmd_stat finals_cmd_mlst finals_cmd_stou : opftp.

Hint Resolve finals_cmd_cpto : opftp.

(** Every handler but ABOR, which has no reply of its own while another ABOR
    waits for the job to end. *)
Lemma finals_cmd_run custom f p :
  match f with H_abor | H_custom _ => False | _ => True end →
  finals (FS:=FS) (OS:=OS) 1 (cmd_run custom f p).
Proof.
  intros Hf. destruct f; try done; cbn [cmd_run]; try solve [eauto 1 with opftp nocore];
  unfold cmd_user, cmd_pass, cmd_quit, cmd_noop, cmd_syst, cmd_help, cmd_opts, cmd_acct, cmd_allo,
    cmd_type, cmd_mode, cmd_stru, cmd_pwd, cmd_cdup, cmd_mkd, cmd_rmd, cmd_dele, cmd_rnfr, cmd_rnto,
    cmd_cpfr, cmd_site, cmd_size, cmd_mdtm, cmd_rest, cmd_pasv, cmd_port, cmd_epsv, cmd_eprt,
    cmd_auth, cmd_pbsz, cmd_prot, cmd_list, cmd_nlst, cmd_mlsd, cmd_mfmt, cmd_retr, cmd_stor,
    cmd_appe; handler.
Qed.

(** Not an ABOR on top of an ABOR. *)
Definition fresh_abort (h : hstate FS OS) : Prop :=
  c_job (h_cl h) = None ∨ c_abor_pending (h_cl h) = false.

Lemma settled_cmd_abor p (h : hstate FS OS) :
  fresh_abort h →
  ∃ ls, h_out (cmd_abor p h).2 = h_out h ++ ls ∧
    (count_final ls + owed (cmd_abor p h).2 = owed h + 1)%nat.
Proof.
  intros Hf. unfold cmd_abor. rewrite ST_bind_eq. cbn [get_cl st_gets].
  destruct (c_job (h_cl h)) as [id|] eqn:Ej; [|by apply finals_reply].
  destruct Hf as [?|Ha]; [congruence|]. rewrite ST_bind_eq.
  destruct (silent_cancel_job id h) as (Eo & Ej' & Ea'). destruct (cancel_job id h) as [[] h'].
  cbn [snd] in *. exists []. rewrite app_nil_r. split; [done|].
  unfold owed, mod_cl, st_modify. cbn. rewrite Ej', Ej, Ha. lia.
Qed.

Definition is_abor (h : hstate FS OS) (name : bytes) : Prop :=
  Dispatch.dispatch_lookup (s_dispatch (h_srv h)) name = Some H_abor.

Lemma finals_502 : finals (FS:=FS) (OS:=OS) 1 (opftp_client_send_reply 502 (B "Command not implemented.")).
Proof. apply finals_reply. lia. Qed.

(** C3. Replies are accounted for by every command line: the final replies
    sent for it (three digits not starting with 1, and a space) and the
    replies a job then owes the client add up to exactly one more than was
    owed before, whatever the command, its argument and the state. So each
    command is answered exactly once: at once, or when its job completes.
    Unknown commands and commands before login are answered too. The one
    exception is an ABOR while another ABOR waits for the same job. *)
Theorem one_final_reply custom line (h : hstate FS OS) :
  (∀ n q, finals 1 (custom n q)) → fst (parse_line line) ≠ [] →
  (is_abor h (fst (parse_line line)) → fresh_abort h) →
  ∃ ls, h_out (process_line custom line h).2 = h_out h ++ ls ∧
    (count_final ls + owed (process_line custom line h).2 = owed h + 1)%nat.
Proof.
  intros Hc Hn Ha. unfold process_line. destruct (parse_line line) as [name param].
  cbn [fst] in Hn, Ha. rewrite bool_decide_false by done.
  rewrite ST_bind_eq. cbn [get_cl st_gets].
  destruct (_ && _); [apply finals_reply; lia|].
  unfold opftp_dispatch_call. rewrite !ST_bind_eq. cbn [get_srv st_gets]. unfold is_abor in Ha.
  destruct (Dispatch.dispatch_lookup _ name) as [f|]; [|apply finals_502].
  rewrite ST_bind_eq.
  assert (∃ ls, h_out (cmd_run custom f (Some param) h).2 = h_out h ++ ls ∧
    (count_final ls + owed (cmd_run custom f (Some param) h).2 = owed h + 1)%nat) as Hr.
  { destruct f; try (by apply finals_cmd_run); [by apply settled_cmd_abor, Ha|apply Hc]. }
  by destruct (cmd_run custom f (Some param) h) as [[] h'].
Qed.

(** ** Completions *)

Lemma silent_close_job_fds j : silent (FS:=FS) (OS:=OS) (close_job_fds j).
Proof. unfold close_job_fds. silent_steps. Qed.
Lemma silent_drop_job k :
  silent (FS:=FS) (OS:=OS) (st_modify (λ h, h <| h_jobs := delete k (h_jobs h) |>)).
Proof. done. Qed.

Lemma completion_code j : 200 ≤ (completion_reply j).1 < 1000.
Proof. unfold completion_reply. repeat case_match; cbn; lia. Qed.

(** The end of a completion: the reference and the job are dropped. *)
Lemma complete_tail id (h : hstate FS OS) :
  let h' := ((_ ← opftp_client_release;
              st_modify (λ h : hstate FS OS, h <| h_jobs := delete id (h_jobs h) |>)) h).2 in
  h_out h' = h_out h ∧ owed h' = owed h ∧ h_jobs h' !! id = None.
Proof.
  set (m := opftp_client_release ≫= _). assert (silent m) as Hm.
  { apply silent_bind; [apply silent_release|intros _; apply silent_drop_job]. }
  split_and!; [apply Hm|by apply silent_owed|]. unfold m. rewrite ST_bind_eq.
  destruct (opftp_client_release h) as [[] h1]. apply lookup_delete_eq.
Qed.

(** The replies of the completion of the client's job. *)
Lemma complete_current id code msg (h : hstate FS OS) :
  200 ≤ code < 1000 → c_job (h_cl h) = Some id →
  let h' := ((_ ← mod_cl (λ c, c <| c_job := None |>);
              _ ← opftp_client_send_reply code msg;
              if c_abor_pending (h_cl h) then
                _ ← opftp_client_send_reply 226 (B "Abort successful.");
                mod_cl (λ c, c <| c_abor_pending := false |>)
              else mret ()) h).2 in
  ∃ ls, h_out h' = h_out h ++ ls ∧ count_final ls = owed h ∧ owed h' = 0%nat.
Proof.
  intros Hcode Hj. cbv zeta. rewrite ST_bind_eq. unfold mod_cl at 1, st_modify at 1. cbn iota beta.
  rewrite ST_bind_eq. unfold opftp_client_send_reply at 1, send_raw at 1, st_modify at 1.
  pose proof (reply_final code msg ltac:(lia)) as Hf. set (l := bprintf 1024 _) in *.
  rewrite (proj2 (Z.ltb_ge code 200)) in Hf by lia. cbn [negb] in Hf.
  destruct (c_abor_pending (h_cl h)) eqn:Ha; cbn iota beta.
  - exists [l; bprintf 1024 (fmt_d 226 ++ B " " ++ B "Abort successful." ++ CRLF)].
    split_and!; [symmetry; apply (app_assoc (h_out h) [l])| |reflexivity].
    unfold owed, count_final. by rewrite Hj, Ha, !filter_cons_True, filter_nil.
  - exists [l]. split_and!; [done| | ].
    2: { change (((if c_abor_pending (h_cl h) then 1 else 0) = 0)%nat). by rewrite Ha. }
    unfold owed, count_final. by rewrite Hj, Ha, filter_cons_True, filter_nil.
Qed.

(** C4. A completion settles what its job owed: when the job is the client's
    current one, its reply and the one to a pending ABOR are sent, in that
    order, and nothing is owed any more; the completion of a job whose client
    has disconnected since (an older generation) sends nothing. In both cases
    the job is gone afterwards. *)
Theorem completion_settles (id : jid) (j : opftp_transfer_job) (h : hstate FS OS) :
  h_jobs h !! id = Some j →
  (j_generation j = c_generation (h_cl h) → c_job (h_cl h) = Some id) →
  ∃ ls, h_out (opftp_datachan_complete id h).2 = h_out h ++ ls ∧
    (count_final ls + owed (opftp_datachan_complete id h).2 = owed h)%nat ∧
    (j_generation j = c_generation (h_cl h) → owed (opftp_datachan_complete id h).2 = 0%nat) ∧
    h_jobs (opftp_datachan_complete id h).2 !! id = None.
Proof.
  intros Hid Hcur. unfold opftp_datachan_complete. rewrite ST_bind_eq. cbn [st_get]. rewrite Hid.
  rewrite ST_bind_eq. destruct (silent_close_job_fds j h) as (E1 & J1 & A1).
  assert (c_generation (h_cl (close_job_fds j h).2) = c_generation (h_cl h)) as G1.
  { unfold close_job_fds. by destruct (0 <=? j_data_fd j), (0 <=? j_pasv_fd j), (0 <=? fst (j_cancel_pipe j)). }
  destruct (close_job_fds j h) as [[] h1]. cbn [snd] in *.
  rewrite ST_bind_eq. cbn [get_cl st_gets]. rewrite ST_bind_eq, G1, A1.
  assert (owed h1 = owed h) as O1 by (unfold owed; by rewrite J1, A1).
  destruct (Z.eqb_spec (j_generation j) (c_generation (h_cl h))) as [Eg|Eg]; cbn [negb mret ST_ret].
  2: { destruct (complete_tail id h1) as (T1 & T2 & T3). exists []. rewrite T1, T2, E1, app_nil_r, O1.
       by split_and!. }
  specialize (Hcur Eg). pose proof (completion_code j) as Hcode.
  destruct (completion_reply j) as [code msg]. cbn [fst] in Hcode.
  destruct (complete_current id code msg h1 Hcode) as (ls & Hls & Hc & H0'); [by rewrite J1|].
  rewrite A1 in Hls, H0'. destruct ((mod_cl _ ≫= _) h1) as [[] h2]. cbn [snd] in *.
  destruct (complete_tail id h2) as (T1 & T2 & T3). exists ls. rewrite T1, T2, Hls, E1, Hc, H0', O1.
  split_and!; (done || lia).
Qed.

End Replies.

Lemma one_final_reply_witness :
  let h := Scenario.state (B "/srv") true [] in
  ∃ ls, h_out (process_line Scenario.no_custom (B "STAT /") h).2 = h_out h ++ ls ∧
    (count_final ls + owed (process_line Scenario.no_custom (B "STAT /") h).2 = owed h + 1)%nat.
Proof.
  apply (one_final_reply Scenario.no_custom (B "STAT /") (Scenario.state (B "/srv") true [])).
  - intros n q. apply finals_reply. lia.
  - vm_compute. done.
  - intros _. by left.
Defined.

(** The completion of a download that was aborted: 426, then 226. *)
Lemma completion_settles_witness :
  let h := Scenario.state (B "/srv") true [] in
  let h := h <| h_jobs := {[ 1%positive := Scenario.retr_job <| j_conn_ok := true |>
                                             <| j_result := Err ECANCELED |> ]} |>
             <| h_cl := h_cl h <| c_job := Some 1%positive |> <| c_abor_pending := true |> |> in
  owed (opftp_datachan_complete 1%positive h).2 = 0%nat ∧
  h_out (opftp_datachan_complete 1%positive h).2 =
    [B "426 Connection closed; transfer aborted." ++ CRLF; B "226 Abort successful." ++ CRLF].
Proof.
  intros h0 h.
  destruct (completion_settles 1%positive
              (Scenario.retr_job <| j_conn_ok := true |> <| j_result := Err ECANCELED |>) h)
    as (ls & _ & _ & Ho & _).
  - reflexivity.
  - intros _. reflexivity.
  - split; [apply Ho; vm_compute; reflexivity|vm_compute; reflexivity].
Defined.

End Replies.
