(* ===== verification/Safety.v ===== *)
(** * The session invariant

    [session_ok] is what holds of a session between two commands when the
    served root is canonical: the working directory is canonical, the sources
    remembered by RNFR and CPFR and the paths of the client's jobs are
    canonical paths inside the root, and so is every path any command has
    handed to the backend. Every command line preserves it. *)

From S2P Require Import Prelude Types Resolve CLib Listing Sys Tls FsIface FsRooted Dispatch.
From S2P Require Import Queue FsMem World Client Logic Datachan Commands Server Scenario.
Import FsMem Resolve CLib Listing Client Datachan Commands Server.

Local Open Scope Z_scope.

Module Safety.

Section Safety.
Context {FS OS : Type} `{FsOps FS} `{SysOps OS}.
Context (rs : list bytes) (Hrs : Forall plain rs) (H64 : (length rs ≤ 64)%nat)
  (Hrl : (length (render rs) < 1024)%nat).

Local Abbreviation M A := (HM (Logged FS) OS A).

(** A canonical path that lies inside the root. *)
Definition inside (p : bytes) : Prop :=
  ∃ st, Forall plain st ∧ p = render (rs ++ st) ∧ (length p < 1024)%nat.

Definition canonical_short (p : bytes) : Prop :=
  ∃ cs, Forall plain cs ∧ p = render cs ∧ (length p < 1024)%nat.

Definition client_ok (c : opftp_client) : Prop :=
  canonical_short (c_cwd c) ∧ (c_have_rnfr c = true → inside (c_rnfr c)) ∧
  (c_have_cpfr c = true → inside (c_cpfr c)).

Definition server_ok (s : opftp_server) : Prop :=
  s_root s = render rs ∧ ∃ b, s_fs s = Some (mk_rooted (render rs) b).

Definition job_ok (j : opftp_transfer_job) : Prop :=
  (j_path j = [] ∨ inside (j_path j)) ∧ (j_dst j = [] ∨ inside (j_dst j)).

Definition session_ok (h : hstate (Logged FS) OS) : Prop :=
  client_ok (h_cl h) ∧ server_ok (h_srv h) ∧ map_Forall (λ _ j, job_ok j) (h_jobs h) ∧
  Forall inside (lg_paths (h_fs h)).

(** ** Triples with the invariant *)

Definition inv {A} (m : M A) (Q : A → Prop) : Prop :=
  ∀ h, session_ok h → session_ok (m h).2 ∧ Q (m h).1.

Definition any {A} : A → Prop := λ _, True.

Lemma inv_ret {A} (a : A) (Q : A → Prop) : Q a → inv (mret a) Q.
Proof. intros HQ h Hh. done. Qed.

Lemma inv_bind {A B} Q Q' (m : M A) (k : A → M B) :
  inv m Q → (∀ a, Q a → inv (k a) Q') → inv (m ≫= k) Q'.
Proof.
  intros Hm Hk h Hh. rewrite ST_bind_eq. destruct (Hm h Hh) as [Hh' Ha].
  destruct (m h) as [a h']. by apply Hk.
Qed.

Lemma inv_weaken {A} (Q : A → Prop) (m : M A) : inv m Q → inv m any.
Proof. intros Hm h Hh. split; [by apply Hm|done]. Qed.

Lemma inv_get_cl : inv get_cl client_ok.
Proof. intros h Hh. split; [done|apply Hh]. Qed.
Lemma inv_get_srv : inv get_srv server_ok.
Proof. intros h Hh. split; [done|apply Hh]. Qed.
Lemma inv_st_get : inv st_get session_ok.
Proof. intros h Hh. done. Qed.
Lemma inv_mod_cl f : (∀ c, client_ok c → client_ok (f c)) → inv (mod_cl f) any.
Proof. intros Hf h (Hc & Hs & Hj & Hl). split; [|done]. split_and!; [by apply Hf|done..]. Qed.
Lemma inv_mod_srv f : (∀ s, server_ok s → server_ok (f s)) → inv (mod_srv f) any.
Proof. intros Hf h (Hc & Hs & Hj & Hl). split; [|done]. split_and!; [done|by apply Hf|done..]. Qed.
Lemma inv_mod_os f : inv (mod_os f) any.
Proof. intros h Hh. done. Qed.
Lemma inv_send_raw l : inv (send_raw l) any.
Proof. intros h Hh. done. Qed.
Lemma inv_os_call {A} (op : OS → res A * OS) : inv (os_call op) any.
Proof. intros h Hh. unfold os_call. split; [|done]. repeat case_match; done. Qed.
Lemma inv_mod_job id f : (∀ j, job_ok j → job_ok (f j)) → inv (mod_job id f) any.
Proof.
  intros Hf h (Hc & Hs & Hj & Hl). split; [|done]. split_and!; [done..| |done].
  intros i j Hi. cbn in Hi. destruct (decide (i = id)) as [->|Hne].
  - rewrite lookup_alter_eq in Hi. destruct (h_jobs h !! id) eqn:E; [|done].
    cbn in Hi. simplify_eq. apply Hf. by apply (Hj id).
  - rewrite lookup_alter_ne in Hi by done. by apply (Hj i).
Qed.
Lemma inv_drop_job id : inv (st_modify (λ h, h <| h_jobs := delete id (h_jobs h) |>)) any.
Proof.
  intros h (Hc & Hs & Hj & Hl). split; [|done]. split_and!; [done..| |done].
  cbn. by apply map_Forall_delete.
Qed.
Lemma inv_seq f : inv (st_modify (λ h, h <| h_seq := f h |>)) any.
Proof. intros h Hh. done. Qed.

(** A call of the backend on canonical paths: those that pass the wrapper's
    check are inside the root. *)
Lemma under_inside cs b :
  Forall plain cs → (length (render cs) < 1024)%nat →
  under_root (mk_rooted (render rs) b) (render cs) = true → inside (render cs).
Proof.
  intros Hcs Hl Hu. apply under_root_prefix in Hu; [|by apply Forall_plain_good..].
  destruct Hu as [st ->]. apply Forall_app in Hcs as [_ Hst]. by exists st.
Qed.

Lemma inv_fs_logs {A} (op : rooted → FsM (Logged FS) A) :
  (∀ b, logs inside (op (mk_rooted (render rs) b))) → inv (fs_call op) any.
Proof.
  intros Hop h (Hc & [Hr [b Hb]] & Hj & Hl). split; [|done]. unfold fs_call. rewrite Hb.
  destruct (Hop b (h_fs h) (h_errno h)) as (ps & Hps & E).
  destruct (op _ (h_fs h, h_errno h)) as [a [fs' e']]. cbn [fst snd] in *.
  split_and!; [done|by split; [|eexists]|done|]. cbn. rewrite E. by apply Forall_app.
Qed.

Lemma inside_canonical p : inside p → canonical_short p.
Proof. intros (st & Hst & -> & Hl). exists (rs ++ st). split_and!; [by apply Forall_app|done..]. Qed.

Lemma inv_guarded {A} p (op : FS → res A * FS) :
  canonical_short p → inv (fs_call (λ r, guarded r p (lg_run [p] op))) any.
Proof.
  intros (cs & Hcs & -> & Hl). apply inv_fs_logs. intros b.
  eapply logs_mono; [|apply logs_guarded]. intros q [-> Hu]. by eapply under_inside.
Qed.

Lemma inv_rename p q :
  canonical_short p → canonical_short q → inv (fs_call (λ r, r_rename r p q)) any.
Proof.
  intros (cs & Hcs & -> & Hl) (ds & Hds & -> & Hl'). apply inv_fs_logs. intros b.
  eapply logs_mono; [|apply logs_rename]. intros x [[-> | ->] Hu]; by eapply under_inside.
Qed.

Lemma inv_unlogged {A} (op : FS → res A * FS) :
  inv (fs_call (λ _, fs_lift (lg_run [] op))) any.
Proof. apply inv_fs_logs. intros b. apply logs_lift, Forall_nil_2. Qed.

(** ** Resolution *)

Definition short (param : option bytes) : Prop :=
  match param with Some p => (length p < 1024)%nat | None => True end.

Definition inside_opt (o : option bytes) : Prop := match o with Some p => inside p | None => True end.

Lemma inv_resolve_arg param : short param → inv (resolve_arg param) inside_opt.
Proof.
  intros Hp h Hh. unfold resolve_arg. rewrite !ST_bind_eq. cbn [get_srv get_cl st_gets].
  rewrite ST_bind_eq. cbn. split; [done|].
  destruct Hh as [[(ds & Hds & Hcwd & Hcl) _] [[Hroot _] _]]. rewrite Hroot, Hcwd in *.
  set (arg := match param with Some (x :: r) => x :: r | _ => render ds end).
  assert (length arg < 1024)%nat as Ha by (unfold arg; by destruct param as [[|]|]).
  destruct (opftp_path_resolve (render rs) (render ds) arg OPFTP_MAX_PATH) as [[p t]|] eqn:E; [|done].
  cbn. eapply resolve_inv in E as (st & Hst & -> & Hl);
    [by exists st|by apply Forall_plain_good|done|done|done|done|done|unfold OPFTP_MAX_PATH; lia].
Qed.

Lemma parent_canonical p q :
  canonical_short p → opftp_path_parent p OPFTP_MAX_PATH = Some q → q = [] ∨ canonical_short q.
Proof.
  intros (cs & Hcs & -> & Hl) Hq. destruct cs as [|c cs _] using rev_ind.
  { left. cbn in Hq. by simplify_eq. }
  apply Forall_app in Hcs as [Hcs [Hc _]%Forall_cons_1].
  assert (length (render cs) < 1024)%nat as Hl'.
  { destruct (render_length_mono cs [c]) as [?| ->]; [lia|unfold render; cbn [length B String.list_ascii_of_string]; lia]. }
  rewrite parent_render in Hq by (try apply Forall_plain_good; try apply plain_good; done).
  simplify_eq. right. by exists cs.
Qed.

Lemma inv_fstat_path p : canonical_short p → inv (fstat_path p) any.
Proof. intros. by apply inv_guarded. Qed.

Lemma inv_parent_is_dir p : canonical_short p → inv (parent_is_dir p) any.
Proof.
  intros Hp. unfold parent_is_dir.
  destruct (opftp_path_parent p OPFTP_MAX_PATH) as [q|] eqn:E; [|by apply inv_ret].
  destruct (parent_canonical _ _ Hp E) as [->|Hq]; [by apply inv_ret|].
  destruct q; [by apply inv_ret|]. eapply inv_bind; [by apply inv_fstat_path|].
  intros st _. by apply inv_ret.
Qed.

Lemma inv_resolve_dest param : short param → inv (resolve_dest param) inside_opt.
Proof.
  intros Hp. unfold resolve_dest. eapply inv_bind; [by apply inv_resolve_arg|].
  intros [p|] Hin; [|by apply inv_ret]. eapply inv_bind; [by apply inv_parent_is_dir, inside_canonical|].
  intros [] _; by apply inv_ret.
Qed.

(** ** The handlers *)

Lemma length_skip_spaces s : (length (skip_spaces s) ≤ length s)%nat.
Proof.
  unfold skip_spaces. destruct (skip_char_suffix SPACE s) as [k Hk].
  rewrite Hk at 2. rewrite length_app. lia.
Qed.

Lemma length_trim_end n s : (length (trim_end n s) ≤ length s)%nat.
Proof.
  revert s. induction n as [|n IH]; intros s; cbn [trim_end]; [lia|].
  case_match; [|lia]. etrans; [apply IH|]. rewrite length_take. lia.
Qed.

Lemma length_strchr s c t : strchr s c = Some t → (length t ≤ length s)%nat.
Proof.
  induction s as [|d s IH]; cbn [strchr]; [done|]. case_match; intros Ht; [by simplify_eq|].
  apply IH in Ht. cbn. lia.
Qed.

Lemma short_list_arg p : short p → short (list_arg p).
Proof.
  unfold list_arg. case_match; [|done]. destruct p as [p|]; [|done]. cbn. intros Hp.
  destruct (strchr p SPACE) as [s|] eqn:E; [|done]. apply length_strchr in E. cbn.
  pose proof (length_skip_spaces s). lia.
Qed.

Lemma inv_reply code msg : inv (opftp_client_send_reply code msg) any.
Proof. apply inv_send_raw. Qed.
Lemma inv_reply_fs_error : inv reply_fs_error any.
Proof.
  unfold reply_fs_error. eapply inv_bind; [apply inv_st_get|]. intros h _.
  destruct (h_errno h); apply inv_send_raw.
Qed.

Hint Resolve inv_reply inv_reply_fs_error inv_send_raw inv_mod_os inv_os_call inv_seq
  inv_drop_job : opftp.

(** Close the side conditions of a step: a short argument, a canonical path. *)
Ltac side :=
  match goal with
  | |- short (list_arg _) => by apply short_list_arg
  | |- short _ => assumption
  | |- canonical_short _ => solve [apply inside_canonical; assumption]
  | |- any _ => exact I
  | |- inside_opt _ => assumption
  end.

Ltac inv_steps :=
  repeat first
    [ progress intros
    | match goal with
      | |- inv (mret _) _ => apply inv_ret; side
      | |- inv (get_cl ≫= _) _ => eapply inv_bind; [apply inv_get_cl|]
      | |- inv (get_srv ≫= _) _ => eapply inv_bind; [apply inv_get_srv|]
      | |- inv (st_get ≫= _) _ => eapply inv_bind; [apply inv_st_get|]
      | |- inv (resolve_arg _ ≫= _) _ => eapply inv_bind; [apply inv_resolve_arg; side|]
      | |- inv (resolve_dest _ ≫= _) _ => eapply inv_bind; [apply inv_resolve_dest; side|]
      | |- inv (_ ≫= _) any => apply (inv_bind any)
      | |- inv (match ?x with _ => _ end) _ => destruct x
      | |- inv (mod_cl _) any => apply inv_mod_cl; intros ? Hc; exact Hc
      | |- inv (mod_srv _) any => apply inv_mod_srv; intros ? Hs; exact Hs
      | |- inv (fstat_path _) any => apply inv_fstat_path; side
      | |- inv (parent_is_dir _) any => apply inv_parent_is_dir; side
      | |- inv (fs_call (λ r, r_stat r _)) any => apply inv_guarded; side
      | |- inv (fs_call (λ r, r_opendir r _)) any => apply inv_guarded; side
      | |- inv (fs_call (λ r, r_mkdir r _ _)) any => apply inv_guarded; side
      | |- inv (fs_call (λ r, r_rmdir r _)) any => apply inv_guarded; side
      | |- inv (fs_call (λ r, r_unlink r _)) any => apply inv_guarded; side
      | |- inv (fs_call (λ r, r_chmod r _ _)) any => apply inv_guarded; side
      | |- inv (fs_call (λ r, r_utimes r _ _)) any => apply inv_guarded; side
      | |- inv (fs_call (λ r, r_readdir r _)) any => apply inv_unlogged
      | |- inv (fs_call (λ r, r_closedir r _)) any => apply inv_unlogged
      end
    | solve [eauto 2 with opftp nocore] ].

Lemma inv_release : inv opftp_client_release any.
Proof. unfold opftp_client_release. inv_steps. apply inv_mod_os. Qed.
Hint Resolve inv_release : opftp.

Lemma inv_close fd : inv (opftp_close_fd fd) any.
Proof. apply inv_mod_os. Qed.
Hint Resolve inv_close : opftp.

Lemma job_ok_new cid gen op pipe :
  job_ok (mk_job cid gen op [] [] 0 false false false pipe (-1)
            false None (-1) SA_unspec 0 false SA_unspec 0 false 0 0 (Ok ()) 0 false).
Proof. split; by left. Qed.

Lemma inv_job_new op : inv (job_new op) any.
Proof.
  unfold job_new. inv_steps.
  intros h' (Hc & Hs & Hj & Hl). split; [|done]. split_and!; [done..| |done].
  cbn. apply map_Forall_insert_2; [apply job_ok_new|done].
Qed.
Lemma inv_job_free id : inv (job_free id) any.
Proof. unfold job_free. inv_steps. Qed.
Lemma inv_job_dispatch id : inv (job_dispatch id) any.
Proof. unfold job_dispatch. inv_steps. Qed.
Lemma inv_cancel_job id : inv (cancel_job id) any.
Proof. unfold cancel_job. inv_steps. apply inv_mod_job. intros j Hj. exact Hj. Qed.
Lemma inv_close_pasv : inv close_pasv any.
Proof. unfold close_pasv. inv_steps. Qed.
Lemma inv_bind_range n fd mk c : inv (bind_range n fd mk c) any.
Proof. revert c. induction n as [|n IH]; intros c; cbn [bind_range]; inv_steps. Qed.
Lemma inv_open_listener fd mk : inv (open_listener fd mk) any.
Proof.
  unfold open_listener, bind_listener_in_range.
  pose proof inv_bind_range. inv_steps.
Qed.
Lemma inv_pollset_mod ev : inv (pollset_mod_client ev) any.
Proof. unfold pollset_mod_client. inv_steps. Qed.
Hint Resolve inv_job_new inv_job_free inv_job_dispatch inv_cancel_job inv_close_pasv
  inv_open_listener inv_pollset_mod : opftp.
Lemma inv_start_tls : inv opftp_client_start_tls any.
Proof. unfold opftp_client_start_tls. inv_steps. Qed.
Hint Resolve inv_start_tls : opftp.

(** The FTP-visible form of a path inside the root is canonical. *)
Lemma visible_canonical p : inside p → canonical_short (visible (render rs) p).
Proof.
  intros (st & Hst & -> & Hl). unfold visible.
  destruct (streq (render (rs ++ st)) (render rs)) eqn:E; btests.
  { exists []. split_and!; [constructor|done|]. unfold render. cbn [length B String.list_ascii_of_string]. lia. }
  assert (st ≠ []) as Hne by (intros ->; by rewrite app_nil_r in E).
  destruct rs as [|r rs'] eqn:Er.
  { cbn [app]. rewrite (proj2 (Nat.ltb_ge _ _)) by (unfold render; cbn [length B String.list_ascii_of_string]; lia).
    rewrite bprintf_short by done. by exists st. }
  inversion Hrs as [|? ? Hr _]; subst.
  pose proof (join_length_2 r rs' (plain_good _ Hr)) as H2.
  rewrite !render_join in * by done. rewrite (proj2 (Nat.ltb_lt _ _)) by lia.
  rewrite join_app in *. rewrite drop_app_length. rewrite length_app in Hl.
  rewrite bprintf_short by (unfold OPFTP_MAX_PATH; lia).
  exists st. split_and!; [done|by rewrite render_join|lia].
Qed.

Lemma bprintf_inside p : inside p → inside (bprintf OPFTP_MAX_PATH p).
Proof. intros Hp. pose proof Hp as (st & _ & _ & Hl). by rewrite bprintf_short. Qed.

Lemma inv_cmd_cwd param : short param → inv (cmd_cwd param) any.
Proof.
  intros Hp. unfold cmd_cwd. eapply inv_bind; [apply inv_get_srv|]. intros s [Hroot _].
  eapply inv_bind; [by apply inv_resolve_arg|]. intros [path|] Hin; [|apply inv_reply].
  apply (inv_bind any); [by apply inv_fstat_path, inside_canonical|]. intros st _.
  case_match; [|apply inv_reply_fs_error].
  apply (inv_bind any); [|intros _ _; apply inv_reply].
  apply inv_mod_cl. intros c (_ & Hr & Hcp). split_and!; [|done..].
  cbn. rewrite Hroot. by apply visible_canonical.
Qed.

Lemma inv_cmd_rnfr param : short param → inv (cmd_rnfr param) any.
Proof.
  intros Hp. unfold cmd_rnfr. eapply inv_bind; [by apply inv_resolve_arg|].
  intros [path|] Hin; [|apply inv_reply].
  apply (inv_bind any); [by apply inv_fstat_path, inside_canonical|]. intros [st|] _; [|apply inv_reply_fs_error].
  apply (inv_bind any); [|intros _ _; apply inv_reply].
  apply inv_mod_cl. intros c (Hc & _ & Hcp). split_and!; [done| |done]. intros _. by apply bprintf_inside.
Qed.

Lemma inv_cmd_cpfr param : short param → inv (cmd_cpfr param) any.
Proof.
  intros Hp. unfold cmd_cpfr. eapply inv_bind; [by apply inv_resolve_arg|].
  intros [path|] Hin; [|apply inv_reply].
  apply (inv_bind any); [by apply inv_fstat_path, inside_canonical|]. intros st _.
  case_match; [apply inv_reply_fs_error|].
  apply (inv_bind any); [|intros _ _; apply inv_reply].
  apply inv_mod_cl. intros c (Hc & Hr & _). split_and!; [done..|]. intros _. by apply bprintf_inside.
Qed.

Lemma inv_cmd_rnto param : short param → inv (cmd_rnto param) any.
Proof.
  intros Hp. unfold cmd_rnto. eapply inv_bind; [apply inv_get_cl|]. intros c (_ & Hr & _).
  destruct (c_have_rnfr c); [|apply inv_reply]. cbn [negb]. specialize (Hr eq_refl).
  eapply inv_bind; [by apply inv_resolve_dest|]. intros p Hin.
  apply (inv_bind any).
  { apply inv_mod_cl. intros c' (? & _ & ?). split_and!; [done| |done]. done. }
  intros _ _. destruct p as [path|]; [|apply inv_reply_fs_error].
  apply (inv_bind any); [by apply inv_rename; apply inside_canonical|]. inv_steps.
Qed.

Lemma inv_start_transfer op path nl ml r : inside path → inv (start_transfer op path nl ml r) any.
Proof.
  intros Hin. unfold start_transfer. inv_steps.
  apply inv_mod_job. intros j' [_ Hd]. split; [|exact Hd]. right. by apply bprintf_inside.
Qed.

Lemma inv_cmd_cpto param : short param → inv (cmd_cpto param) any.
Proof.
  intros Hp. unfold cmd_cpto. eapply inv_bind; [apply inv_get_cl|]. intros c (_ & _ & Hcp).
  destruct (c_have_cpfr c); [|apply inv_reply]. cbn [negb]. specialize (Hcp eq_refl).
  case_match; [apply inv_reply|]. eapply inv_bind; [by apply inv_resolve_dest|]. intros p Hin.
  apply (inv_bind any).
  { apply inv_mod_cl. intros c' (? & ? & _). split_and!; done. }
  intros _ _. destruct p as [path|]; [|apply inv_reply_fs_error].
  repeat (case_match; [apply inv_reply|]). inv_steps.
  apply inv_mod_job. intros j' _. split; right; by apply bprintf_inside.
Qed.

Lemma inv_stat_entries f d : inv (stat_entries f d) any.
Proof. induction f as [|f IH]; cbn [stat_entries]; inv_steps. Qed.

Lemma inv_start_listing param nl ml : short param → inv (start_listing param nl ml) any.
Proof. intros Hp. pose proof inv_start_transfer. unfold start_listing. inv_steps. Qed.

Lemma inv_start_store op param : short param → inv (start_store op param) any.
Proof. intros Hp. unfold start_store. inv_steps. by apply inv_start_transfer. Qed.

Lemma inv_stou_loop n :
  inv (stou_loop n) (λ r, match r with inl p => inside p | inr _ => True end).
Proof.
  induction n as [|n IH]; cbn [stou_loop]; [by apply inv_ret|].
  eapply inv_bind; [apply inv_st_get|]. intros h _.
  apply (inv_bind any); [apply inv_seq|]. intros _ _.
  eapply inv_bind; [apply inv_resolve_arg|].
  { cbn. unfold stou_name, bprintf. rewrite length_take. lia. }
  intros [name|] Hin; [|by apply inv_ret].
  apply (inv_bind any); [by apply inv_fstat_path, inside_canonical|]. intros st _.
  eapply inv_bind; [apply inv_st_get|]. intros h' _. destruct st; [exact IH|].
  case_match; [by apply inv_ret|exact IH].
Qed.

Lemma inv_cmd_stou param : inv (cmd_stou param) any.
Proof.
  unfold cmd_stou. apply (inv_bind any).
  { intros h Hh. unfold st_modify. cbn. split; [|done]. by case_match. }
  intros _ _. eapply inv_bind; [apply inv_stou_loop|]. intros [name|[code msg]] Hn.
  - by apply inv_start_transfer.
  - apply inv_reply.
Qed.

Lemma inv_send_lines ls : inv (send_lines ls) any.
Proof. induction ls as [|l ls IH]; cbn [send_lines]; inv_steps. apply inv_send_raw. Qed.

Lemma inv_site_chmod p : (length p < 1024)%nat → inv (site_chmod p) any.
Proof.
  intros Hp. unfold site_chmod. set (q := skip_spaces (drop 5 p)).
  assert (length q < 1024)%nat as Hq.
  { unfold q. pose proof (length_skip_spaces (drop 5 p)) as Hl. rewrite length_drop in Hl. lia. }
  destruct (strtol 8 q) as [mode [[|sp rest]|]] eqn:Es; [apply inv_reply| |apply inv_reply].
  case_match; [apply inv_reply|].
  assert (short (Some (skip_spaces (sp :: rest)))) as Hs.
  { cbn [short]. pose proof (length_skip_spaces (sp :: rest)).
    pose proof (strtol_rest_length _ _ _ _ Es). lia. }
  inv_steps.
Qed.

Lemma inv_site_utime p : (length p < 1024)%nat → inv (site_utime p) any.
Proof.
  intros Hp. unfold site_utime. set (q := skip_spaces (drop 5 p)).
  assert (length q < 1024)%nat as Hq.
  { unfold q. pose proof (length_skip_spaces (drop 5 p)) as Hl. rewrite length_drop in Hl. lia. }
  destruct (last_token _ _ q) as [tok|]; [|apply inv_reply].
  do 3 (case_match; [apply inv_reply|]). destruct (parse_ftp_time tok); [|apply inv_reply].
  assert (short (Some (trim_end (length q - length tok) (take (length q - length tok) q)))) as Hs.
  { cbn [short]. pose proof (length_trim_end (length q - length tok) (take (length q - length tok) q)) as Ht.
    rewrite length_take in Ht. lia. }
  inv_steps.
Qed.

Lemma inv_cmd_mfmt param : short param → inv (cmd_mfmt param) any.
Proof.
  intros Hp. unfold cmd_mfmt. destruct param as [p|]; [|apply inv_reply].
  assert (short (Some (skip_spaces (drop 15 p)))) as Hs.
  { cbn [short] in *. pose proof (length_skip_spaces (drop 15 p)) as Hl. rewrite length_drop in Hl. lia. }
  inv_steps.
Qed.

Lemma inv_cmd_stat param : short param → inv (cmd_stat param) any.
Proof.
  intros Hp. pose proof inv_stat_entries. unfold cmd_stat, opftp_client_send. inv_steps.
Qed.

Hint Resolve inv_cmd_cwd inv_cmd_rnfr inv_cmd_rnto inv_cmd_cpfr inv_cmd_cpto inv_start_listing
  inv_start_store inv_cmd_stou inv_send_lines inv_cmd_mfmt inv_cmd_stat : opftp.

Lemma inv_cmd_run custom f param :
  (∀ n q, short q → inv (custom n q) any) → short param → inv (cmd_run custom f param) any.
Proof.
  intros Hcu Hp. destruct f; cbn [cmd_run]; try solve [eauto 2 with opftp nocore];
  unfold cmd_user, cmd_pass, cmd_quit, cmd_noop, cmd_syst, cmd_feat, cmd_help, cmd_opts, cmd_acct,
    cmd_allo, cmd_type, cmd_mode, cmd_stru, cmd_stop, cmd_pwd, cmd_mkd, cmd_rmd, cmd_dele,
    cmd_size, cmd_mdtm, cmd_rest, cmd_pasv, cmd_port, cmd_epsv, cmd_eprt, set_data_peer,
    cmd_auth, cmd_pbsz, cmd_prot, cmd_abor, cmd_list, cmd_nlst, cmd_mlsd, cmd_mlst, cmd_stor,
    cmd_appe, opftp_client_send, reply; try solve [inv_steps].
  - (* CDUP *) apply inv_cmd_cwd. cbn. lia.
  - (* SITE *) unfold cmd_site, cmd_stop, reply. eapply inv_bind; [apply inv_get_srv|]. intros s _.
    destruct param as [[|x p]|]; [apply inv_reply| |apply inv_reply].
    case_match; [by apply inv_site_chmod|]. case_match; [by apply inv_site_utime|]. inv_steps.
  - (* RETR *) unfold cmd_retr, reply. inv_steps. by apply inv_start_transfer.
Qed.

Lemma length_cmd_name n p name q : cmd_name n p = (name, q) → (length q ≤ length p)%nat.
Proof.
  revert p name. induction n as [|n IH]; intros p name Hc; cbn [cmd_name] in Hc; [by simplify_eq|].
  destruct p as [|c p]; [by simplify_eq|]. case_match; [by simplify_eq|].
  destruct (cmd_name n p) as [a r] eqn:E. simplify_eq. apply IH in E. cbn. lia.
Qed.

Lemma length_param line name param : parse_line line = (name, param) → (length param ≤ length line)%nat.
Proof.
  unfold parse_line. destruct (cmd_name 7 (skip_spaces line)) as [a q] eqn:E. intros. simplify_eq.
  apply length_cmd_name in E. pose proof (length_skip_spaces line). pose proof (length_skip_spaces q). lia.
Qed.

Section Events.
Context (custom : nat → option bytes → M ()) (disconnect_hook : M ()).
Context (Hcustom : ∀ n q, short q → inv (custom n q) any) (Hhook : inv disconnect_hook any).

Lemma inv_dispatch name param : short param → inv (opftp_dispatch_call custom name param) any.
Proof.
  intros Hp. unfold opftp_dispatch_call. inv_steps. by apply inv_cmd_run.
Qed.

Lemma inv_process_line line : (length line < 1024)%nat → inv (process_line custom line) any.
Proof.
  intros Hl. unfold process_line. destruct (parse_line line) as [name param] eqn:E.
  apply length_param in E. case_match; [by apply inv_ret|].
  eapply inv_bind; [apply inv_get_cl|]. intros c _. case_match; [apply inv_reply|].
  apply (inv_bind any); [apply inv_dispatch; cbn; lia|]. inv_steps.
Qed.

(** Reading and framing only touch the buffer and the TLS session. *)
Lemma inv_client_read : inv client_read any.
Proof.
  intros h (Hc & Hs & Hj & Hl). split; [|done]. unfold client_read.
  assert (client_ok (opftp_client_read (h_cl h) (h_os h)).1.2) as Hc'.
  { unfold opftp_client_read. repeat case_match; exact Hc. }
  destruct (opftp_client_read (h_cl h) (h_os h)) as [[n c'] os']. done.
Qed.

Lemma inv_getline outsz :
  inv (client_getline outsz)
    (λ l, match l with Some l => (length l ≤ outsz - 1)%nat | None => True end).
Proof.
  intros h Hh. unfold client_getline, opftp_client_getline.
  destruct (split_lf _) as [[l q]|]; [|done]. cbn. split; [exact Hh|]. rewrite length_take. lia.
Qed.

Lemma length_cstr_of s : (length (cstr_of s) ≤ length s)%nat.
Proof. induction s as [|c s IH]; cbn [cstr_of]; [lia|]. case_match; cbn; lia. Qed.

Lemma inv_line_loop f : inv (line_loop custom f) any.
Proof.
  induction f as [|f IH]; cbn [line_loop]; [by apply inv_ret|].
  eapply inv_bind; [apply inv_getline|]. intros [l|] Hl; [|by apply inv_ret].
  apply (inv_bind any); [|inv_steps]. apply inv_process_line.
  pose proof (length_cstr_of l). lia.
Qed.

Lemma inv_read_loop f : inv (read_loop custom f) any.
Proof.
  induction f as [|f IH]; cbn [read_loop]; [by apply inv_ret|].
  apply (inv_bind any); [apply inv_client_read|]. intros n _.
  pose proof inv_line_loop. inv_steps.
Qed.

Lemma inv_client_disconnect : inv (client_disconnect disconnect_hook) any.
Proof. unfold client_disconnect. inv_steps. Qed.

Lemma inv_handshake_step : inv handshake_step any.
Proof.
  intros h (Hc & Hs & Hj & Hl). split; [|done]. unfold handshake_step.
  destruct (c_tls (h_cl h)); [|done]. destruct (Tls.opftp_tls_handshake _ _) as [r [t' os']]. done.
Qed.

Lemma inv_handle_client_events f ev :
  inv (handle_client_events custom disconnect_hook f ev) any.
Proof.
  pose proof inv_client_disconnect. pose proof inv_handshake_step. pose proof inv_read_loop.
  assert (inv (opftp_dispatch_call custom (B "ABOR") None) any) by by apply inv_dispatch.
  unfold handle_client_events. inv_steps.
Qed.

(** C1. The session invariant. For a canonical root, whatever bytes a client
    sends (pipelined or split, with TLS or without, with out-of-band ABOR),
    handling its events keeps the session well formed: the working directory
    stays canonical, the remembered RNFR and CPFR sources and the paths of
    every job stay canonical and inside the root, and every path handed to the
    backend, by any command, is a canonical path inside the root. *)
Theorem session_invariant f ev (h : hstate (Logged FS) OS) :
  session_ok h → session_ok (handle_client_events custom disconnect_hook f ev h).2.
Proof. intros Hh. by apply inv_handle_client_events. Qed.

End Events.

End Safety.

Lemma session_invariant_witness :
  let h := Scenario.state (B "/srv") true [B "CWD a" ++ CRLF ++ B "DELE ../../etc" ++ CRLF] in
  session_ok [B "srv"]
    (handle_client_events Scenario.no_custom Scenario.no_hook 5 POLLIN h).2.
Proof.
  apply (session_invariant [B "srv"]).
  - concrete.
  - cbn. lia.
  - vm_compute. lia.
  - intros n q _ h Hh. done.
  - intros h Hh. done.
  - split_and!.
    + split_and!; [|by vm_compute|by vm_compute]. exists []. split_and!; [constructor|done|vm_compute; lia].
    + split; [by vm_compute|]. exists false. by vm_compute.
    + apply map_Forall_empty.
    + constructor.
Defined.

End Safety.
