(* ===== verification/Login.v ===== *)
(** * The login gate

    What a client that has not logged in can cause: nothing on the
    filesystem, no job, no data connection. *)

From S2P Require Import Prelude Types Resolve CLib Sys Tls FsIface FsRooted FsMem Dispatch Queue.
From S2P Require Import World Client Logic Datachan Commands Server Scenario.
Import FsMem Client Commands Server.

Local Open Scope Z_scope.

Module Login.

(** The table a server starts with. *)
Definition default_table (allow_stop : bool) : cmd_table :=
  opftp_commands_init allow_stop (Dispatch.opftp_dispatch_init None).

(** The handlers reachable before login. *)
Definition prelogin_handler (f : handler) : bool :=
  match f with
  | H_user | H_pass | H_quit | H_help | H_feat | H_syst | H_noop | H_opts | H_auth | H_pbsz
  | H_prot => true
  | _ => false
  end.

Lemma prelogin_lookup b name f :
  prelogin_command name = true →
  Dispatch.dispatch_lookup (default_table b) name = Some f → prelogin_handler f = true.
Proof.
  unfold prelogin_command, prelogin_list. cbn [existsb]. intros Hn Hl.
  repeat (apply orb_prop in Hn as [Hn|Hn]; [btests; subst name;
    destruct b; vm_compute in Hl; by simplify_eq|]). done.
Qed.

Section Login.
Context {FS OS : Type} `{FsOps FS} `{SysOps OS}.

(** What stays the same: the filesystem, the jobs and their queue, the
    working directory, the pending transfer parameters, the server's stop
    flag and its table. *)
Definition untouched (h h' : hstate FS OS) : Prop :=
  h_fs h' = h_fs h ∧ h_jobs h' = h_jobs h ∧ s_queue (h_srv h') = s_queue (h_srv h) ∧
  s_stopping (h_srv h') = s_stopping (h_srv h) ∧ s_dispatch (h_srv h') = s_dispatch (h_srv h) ∧
  c_cwd (h_cl h') = c_cwd (h_cl h) ∧ c_job (h_cl h') = c_job (h_cl h) ∧
  c_pasv_fd (h_cl h') = c_pasv_fd (h_cl h) ∧ c_data_peer (h_cl h') = c_data_peer (h_cl h) ∧
  c_have_data_peer (h_cl h') = c_have_data_peer (h_cl h).

(** ... and no login happened. *)
Definition gated (h h' : hstate FS OS) : Prop :=
  untouched h h' ∧ c_logged_in (h_cl h') = c_logged_in (h_cl h).

#[local] Instance gated_refl : Reflexive gated.
Proof. intros h. unfold gated, untouched. by split_and!. Qed.
#[local] Instance gated_trans : Transitive gated.
Proof.
  intros h1 h2 h3 [(?&?&?&?&?&?&?&?&?&?) ?] [(?&?&?&?&?&?&?&?&?&?) ?].
  unfold gated, untouched. split_and!; congruence.
Qed.

Ltac gated_leaf :=
  let h := fresh "h" in
  intros h; unfold os_call, mod_cl, mod_srv, mod_os, send_raw, st_modify;
  repeat case_match; unfold gated, untouched; cbn; by split_and!.

Ltac gated_steps := keeps_steps ltac:(gated_leaf).

Lemma gated_reply code msg : keeps gated (opftp_client_send_reply code msg).
Proof. gated_leaf. Qed.

Lemma gated_send_lines ls : keeps gated (send_lines ls).
Proof. induction ls as [|l ls IH]; cbn [send_lines]; gated_steps. apply IH. Qed.

Lemma gated_start_tls : keeps gated opftp_client_start_tls.
Proof. unfold opftp_client_start_tls, pollset_mod_client. gated_steps. Qed.

Lemma gated_run custom f p :
  prelogin_handler f = true → f ≠ H_pass → keeps gated (cmd_run custom f p).
Proof.
  intros Hf Hp. pose proof gated_send_lines. pose proof gated_start_tls.
  destruct f; try done; cbn [cmd_run];
    unfold cmd_user, cmd_quit, cmd_noop, cmd_syst, cmd_feat, cmd_help, cmd_opts, cmd_auth,
      cmd_pbsz, cmd_prot, reply, opftp_client_send_reply; keeps_steps ltac:(done || gated_leaf).
Qed.

(** PASS: the callback decides. *)
Lemma pass_spec p (h : hstate FS OS) :
  untouched h (cmd_pass (Some p) h).2 ∧
  (c_logged_in (h_cl h) = false → c_logged_in (h_cl (cmd_pass (Some p) h).2) = true →
   c_user (h_cl h) ≠ [] ∧ ∀ auth, s_auth (h_srv h) = Some auth → auth (c_user (h_cl h)) p = true).
Proof.
  unfold cmd_pass, reply, opftp_client_send_reply, send_raw, get_srv, get_cl, mod_cl, st_gets,
    st_modify, mbind, ST_bind. cbv beta iota. case_bool_decide as Hu.
  { split; [unfold untouched; by split_and!|]. cbn. congruence. }
  set (ok := match s_auth (h_srv h) with Some auth => _ | None => true end).
  destruct ok eqn:Eok.
  - split; [unfold untouched; by split_and!|]. intros _ _. split; [done|].
    intros auth Ha. unfold ok in Eok. by rewrite Ha in Eok.
  - split; [unfold untouched; by split_and!|]. cbn. congruence.
Qed.

(** C2. The login gate. Before login, no command line has any effect on the
    filesystem, the jobs, the queue, the working directory, the data
    connection or the stop flag; and a line logs the client in only when a
    user name had been given and the authentication callback, if there is
    one, accepts that name with the line's password. *)
Theorem login_gate custom line b (h : hstate FS OS) :
  s_dispatch (h_srv h) = default_table b → c_logged_in (h_cl h) = false →
  let h' := (process_line custom line h).2 in
  untouched h h' ∧
  (c_logged_in (h_cl h') = true →
   c_user (h_cl h) ≠ [] ∧
   ∀ auth, s_auth (h_srv h) = Some auth → auth (c_user (h_cl h)) (snd (parse_line line)) = true).
Proof.
  intros Ht Hl. cbv zeta. unfold process_line. destruct (parse_line line) as [name param].
  assert (∀ A (m : HM FS OS A), keeps gated m →
    untouched h (m h).2 ∧ (c_logged_in (h_cl (m h).2) = true →
      c_user (h_cl h) ≠ [] ∧
      ∀ auth, s_auth (h_srv h) = Some auth → auth (c_user (h_cl h)) param = true)) as Hg.
  { intros A m Hm. destruct (Hm h) as [Hu He]. split; [done|]. rewrite He, Hl. done. }
  cbn [snd]. case_bool_decide; [apply (Hg unit (mret ())), keeps_ret; apply _|].
  rewrite ST_bind_eq. cbn [get_cl st_gets]. rewrite Hl. cbn [negb andb].
  destruct (prelogin_command name) eqn:Epre; [|apply Hg, gated_reply]. cbn [negb].
  unfold opftp_dispatch_call. rewrite !ST_bind_eq. cbn [get_srv st_gets]. rewrite Ht.
  destruct (Dispatch.dispatch_lookup (default_table b) name) as [f|] eqn:Ef.
  2:{ apply Hg, gated_reply. }
  pose proof (prelogin_lookup _ _ _ Epre Ef) as Hpre. rewrite ST_bind_eq.
  destruct (decide (f = H_pass)) as [->|Hne].
  - destruct (pass_spec param h) as [Hu Hlog]. cbn [cmd_run].
    destruct (cmd_pass (Some param) h) as [[] h']. split; [exact Hu|]. by apply Hlog.
  - pose proof (Hg _ _ (gated_run custom f (Some param) Hpre Hne)) as Hr.
    by destruct (cmd_run custom f (Some param) h) as [[] h'].
Qed.

End Login.

Lemma login_gate_witness :
  let h := Scenario.state (B "/srv") false [] in
  untouched h (process_line Scenario.no_custom (B "DELE f") h).2.
Proof.
  apply (login_gate Scenario.no_custom (B "DELE f") false (Scenario.state (B "/srv") false [])).
  - vm_compute. reflexivity.
  - reflexivity.
Defined.

End Login.
