(* ===== verification/Bounce.v ===== *)
(** * No bounce through the data connection

    With [allow_foreign_port] off, every data connection a job makes is with
    the host at the other end of its client's control connection: a PORT or
    EPRT target is compared before the job is made, a connection accepted on
    the PASV listener before it is used. *)

From S2P Require Import Prelude Types Resolve CLib Listing Sys Tls FsIface FsRooted Dispatch.
From S2P Require Import Pollset Queue FsMem World Client Logic Datachan Commands Server Scenario.
Import FsMem Client Datachan Commands Server.

Local Open Scope Z_scope.

Module Bounce.

(** ** Hosts *)

(** The host of an address, as the 16 bytes of its IPv6 form. *)
Definition host (a : sockaddr) : option bytes :=
  match a with
  | SA_unspec => None
  | SA_in x _ => Some (v4mapped_prefix ++ x)
  | SA_in6 x _ => Some x
  end.

(** Addresses have 4 or 16 bytes. *)
Definition addr_wf (a : sockaddr) : Prop :=
  match a with
  | SA_unspec => True
  | SA_in x _ => length x = 4%nat
  | SA_in6 x _ => length x = 16%nat
  end.

Lemma v4mapped_length : length v4mapped_prefix = 12%nat.
Proof. reflexivity. Qed.

Lemma mapped_eq x y :
  length x = 16%nat → length y = 4%nat →
  opftp_is_v4mapped x && streq (take 4 (drop 12 x)) y = true ↔ x = v4mapped_prefix ++ y.
Proof.
  intros Hx Hy. unfold opftp_is_v4mapped. rewrite andb_true_iff, !streq_true. split.
  - intros [Hm Hd]. rewrite take_ge in Hd by (rewrite length_drop; lia).
    by rewrite <-(take_drop 12 x), Hm, Hd.
  - intros ->. rewrite take_app_length', drop_app_length' by apply v4mapped_length.
    by rewrite take_ge by lia.
Qed.

(** [addr_eq] compares hosts: it holds exactly of two addresses with the
    same host, where an IPv4 address and its v4-mapped IPv6 form are the same
    host and a zeroed address is none; ports do not matter. *)
Theorem addr_eq_iff_host a b (Ha : addr_wf a) (Hb : addr_wf b) :
  addr_eq a b = true ↔ is_Some (host a) ∧ host a = host b.
Proof.
  destruct a as [|x p|x p], b as [|y q|y q]; cbn [addr_eq host addr_wf] in *;
    try (split; [done|by intros [[? ?] ?]]).
  - rewrite streq_true. split; [intros ->; split; by eauto|].
    intros [_ E%(inj Some)]. by apply app_inv_head in E.
  - rewrite mapped_eq by done. split; [intros ->; split; by eauto|]. by intros [_ E%(inj Some)].
  - rewrite mapped_eq by done. split; [intros ->; split; by eauto|]. by intros [_ E%(inj Some)].
  - rewrite streq_true. split; [intros ->; split; by eauto|]. by intros [_ E%(inj Some)].
Qed.

Lemma addr_eq_iff_host_witness :
  addr_eq (SA_in [chr 10; chr 0; chr 0; chr 2] 21)
    (SA_in6 (v4mapped_prefix ++ [chr 10; chr 0; chr 0; chr 2]) 50000) = true.
Proof. apply addr_eq_iff_host; [reflexivity|reflexivity|]. split; [by eexists|reflexivity]. Defined.

Lemma addr_eq_sym a b : addr_eq a b = addr_eq b a.
Proof.
  destruct a, b; cbn [addr_eq]; try done; unfold streq; apply bool_decide_ext; by split.
Qed.

(** ** Jobs carry checked peers *)

Section Peers.
Context {FS OS : Type} `{FsOps FS} `{SysOps OS}.
Local Abbreviation M A := (HM FS OS A).
Local Abbreviation hst := (hstate FS OS).

(** The client [id], its control peer, and whether foreign peers are allowed. *)
Context (id : cid) (peer : sockaddr) (foreign : bool).

Definition has_data (j : opftp_transfer_job) : Prop :=
  j_have_data_peer j = true ∨ 0 ≤ j_pasv_fd j.

(** A job's PORT target is its control peer's host, and its control peer is
    its client's. *)
Definition job_peer_ok (j : opftp_transfer_job) : Prop :=
  (j_have_data_peer j = true → foreign = false → addr_eq (j_ctl_peer j) (j_data_peer j) = true) ∧
  (j_client j = id → has_data j → j_ctl_peer j = peer).

Definition peers_ok (h : hst) : Prop :=
  h_cid h = id ∧ c_peer (h_cl h) = peer ∧ s_allow_foreign_port (h_srv h) = foreign ∧
  map_Forall (λ _ j, job_peer_ok j) (h_jobs h).

Definition tied (h h' : hst) : Prop := peers_ok h → peers_ok h'.

#[local] Instance tied_refl : Reflexive tied.
Proof. intros h Hh. exact Hh. Qed.
#[local] Instance tied_trans : Transitive tied.
Proof. intros h1 h2 h3 H12 H23 Hh. by apply H23, H12. Qed.

Ltac tied_leaf :=
  let h := fresh "h" in
  intros h; unfold opftp_close_fd, reply, opftp_client_send_reply, opftp_client_send;
  unfold fs_call, os_call, mod_cl, mod_srv, mod_os, send_raw, st_modify;
  repeat case_match; intros Hh; exact Hh.

Create HintDb tied.
#[local] Hint Constants Opaque : tied.

Ltac tied_steps := keeps_steps ltac:(first [solve [eauto 2 with tied nocore] | tied_leaf]).

Lemma tied_reply code msg : keeps tied (opftp_client_send_reply code msg).
Proof. tied_leaf. Qed.
Lemma tied_fs {A} (op : rooted → FsM FS A) : keeps tied (fs_call op).
Proof. tied_leaf. Qed.
Hint Resolve tied_reply tied_fs : tied.
Lemma tied_fs_error : keeps tied reply_fs_error.
Proof. unfold reply_fs_error. tied_steps. Qed.
Lemma tied_resolve_arg p : keeps tied (resolve_arg p).
Proof. unfold resolve_arg. tied_steps. Qed.
Lemma tied_fstat p : keeps tied (fstat_path p).
Proof. apply tied_fs. Qed.
Hint Resolve tied_fs_error tied_resolve_arg tied_fstat : tied.
Lemma tied_parent_is_dir p : keeps tied (parent_is_dir p).
Proof. unfold parent_is_dir. tied_steps. Qed.
Hint Resolve tied_parent_is_dir : tied.
Lemma tied_resolve_dest p : keeps tied (resolve_dest p).
Proof. unfold resolve_dest. tied_steps. Qed.
Lemma tied_close_pasv : keeps tied close_pasv.
Proof. unfold close_pasv. tied_steps. Qed.
Lemma tied_bind_range n fd mk c : keeps tied (bind_range n fd mk c).
Proof. revert c. induction n as [|n IH]; intros c; cbn [bind_range]; tied_steps. Qed.
Lemma tied_pollset_mod ev : keeps tied (pollset_mod_client ev).
Proof. unfold pollset_mod_client. tied_steps. Qed.
Hint Resolve tied_resolve_dest tied_close_pasv tied_bind_range tied_pollset_mod : tied.
Lemma tied_open_listener fd mk : keeps tied (open_listener fd mk).
Proof. unfold open_listener, bind_listener_in_range. tied_steps. Qed.
Lemma tied_start_tls : keeps tied opftp_client_start_tls.
Proof. unfold opftp_client_start_tls. tied_steps. Qed.
Lemma tied_send_lines ls : keeps tied (send_lines ls).
Proof. induction ls as [|l ls IH]; cbn [send_lines]; tied_steps. Qed.
Lemma tied_stat_entries f d : keeps tied (stat_entries f d).
Proof. induction f as [|f IH]; cbn [stat_entries]; tied_steps. Qed.
Lemma tied_stou_loop n : keeps tied (stou_loop n).
Proof. induction n as [|n IH]; cbn [stou_loop]; tied_steps. Qed.
Lemma tied_job_dispatch k : keeps tied (job_dispatch k).
Proof. unfold job_dispatch. tied_steps. Qed.
Lemma tied_release : keeps tied opftp_client_release.
Proof. unfold opftp_client_release. tied_steps. Qed.
Hint Resolve tied_open_listener tied_start_tls tied_send_lines tied_stat_entries tied_stou_loop
  tied_job_dispatch tied_release : tied.

Lemma tied_mod_job k f : (∀ j, job_peer_ok j → job_peer_ok (f j)) → keeps tied (mod_job k f).
Proof.
  intros Hf h (Hi & Hp & Hs & Hj). split_and!; [done..|]. intros i j Hk. cbn in Hk.
  destruct (decide (i = k)) as [->|Hne].
  - rewrite lookup_alter_eq in Hk. destruct (h_jobs h !! k) eqn:E; [|done].
    cbn in Hk. simplify_eq. apply Hf. by apply (Hj k).
  - rewrite lookup_alter_ne in Hk by done. by apply (Hj i).
Qed.
Lemma tied_drop_job k : keeps tied (st_modify (λ h, h <| h_jobs := delete k (h_jobs h) |>)).
Proof. intros h (Hi & Hp & Hs & Hj). split_and!; [done..|]. cbn. by apply map_Forall_delete. Qed.
Lemma tied_cancel_job k : keeps tied (cancel_job k).
Proof. unfold cancel_job. tied_steps. apply tied_mod_job. intros j Hj. exact Hj. Qed.
Hint Resolve tied_drop_job tied_cancel_job : tied.
Lemma tied_job_free k : keeps tied (job_free k).
Proof. unfold job_free. tied_steps. Qed.
Lemma tied_job_new op : keeps tied (job_new op).
Proof.
  unfold job_new. tied_steps. intros h (Hi & Hp & Hs & Hj). split_and!; [done..|]. cbn.
  apply map_Forall_insert_2; [|done]. split; [done|]. intros _ [?|Hpasv]; [done|]. cbn in Hpasv. lia.
Qed.
Hint Resolve tied_job_free tied_job_new : tied.

(** The check before the job is the property of the job. *)
Lemma tied_start_transfer op path nl ml r : keeps tied (start_transfer op path nl ml r).
Proof.
  intros h Hh. pose proof Hh as (_ & Hp & Hs & _). unfold start_transfer.
  rewrite ST_bind_eq. cbn [get_srv st_gets]. rewrite ST_bind_eq. cbn [get_cl st_gets].
  set (c := h_cl h) in *. set (s := h_srv h) in *.
  case_match; [by apply tied_reply|]. destruct (opftp_datachan_precheck s c) eqn:Hpre; cbn [negb].
  2: by apply tied_reply.
  case_match; [by apply tied_reply|].
  assert (∀ k, keeps tied (mod_job k (fill_job c path nl ml))) as Hfill.
  { intros k. apply tied_mod_job. intros j _. split; cbn [fill_job]; cbn; [|by intros _ _].
    intros Hd Hf. rewrite Hp. unfold opftp_datachan_precheck, peer_matches in Hpre.
    rewrite Hd, Hs, Hf in Hpre. rewrite <-Hp. by apply negb_true_iff, negb_false_iff in Hpre. }
  match goal with |- peers_ok (snd (?m h)) => assert (keeps tied m) as Hm by (clear -Hfill; clearbody c; tied_steps) end.
  by apply Hm.
Qed.

Lemma tied_cmd_cpto p : keeps tied (cmd_cpto p).
Proof. unfold cmd_cpto. tied_steps. apply tied_mod_job. intros ? Hj. exact Hj. Qed.
Lemma tied_cmd_abor p : keeps tied (cmd_abor p).
Proof. unfold cmd_abor. tied_steps. Qed.
Hint Resolve tied_start_transfer tied_cmd_cpto tied_cmd_abor : tied.

Lemma tied_start_listing p nl ml : keeps tied (start_listing p nl ml).
Proof. unfold start_listing. tied_steps. Qed.
Lemma tied_start_store op p : keeps tied (start_store op p).
Proof. unfold start_store. tied_steps. Qed.
Hint Resolve tied_start_listing tied_start_store : tied.

Lemma tied_cmd_run custom f p :
  (∀ n q, keeps tied (custom n q)) → keeps tied (cmd_run custom f p).
Proof.
  intros Hcu. destruct f; cbn [cmd_run]; try solve [eauto 2 with tied nocore];
  unfold cmd_user, cmd_pass, cmd_quit, cmd_noop, cmd_syst, cmd_feat, cmd_help, cmd_opts, cmd_acct,
    cmd_allo, cmd_type, cmd_mode, cmd_stru, cmd_stop, cmd_pwd, cmd_mkd, cmd_rmd, cmd_dele, cmd_cwd,
    cmd_cdup, cmd_cwd, cmd_rnfr, cmd_rnto, cmd_cpfr, cmd_site, cmd_stop, site_chmod, site_utime,
    cmd_size, cmd_mdtm, cmd_rest, cmd_stat, cmd_pasv, cmd_port, cmd_epsv, cmd_eprt, set_data_peer,
    cmd_auth, cmd_pbsz, cmd_prot, cmd_list, cmd_nlst, cmd_mlsd, cmd_mlst, cmd_mfmt, cmd_stor,
    cmd_appe, cmd_retr, cmd_stou; tied_steps.
Qed.

Section Events.
Context (custom : nat → option bytes → M ()) (disconnect_hook : M ()).
Context (Hcustom : ∀ n q, keeps tied (custom n q)) (Hhook : keeps tied disconnect_hook).

Lemma tied_dispatch name p : keeps tied (opftp_dispatch_call custom name p).
Proof. pose proof (tied_cmd_run custom). unfold opftp_dispatch_call. tied_steps. Qed.
Hint Resolve tied_dispatch : tied.

Lemma tied_process_line line : keeps tied (process_line custom line).
Proof. unfold process_line. destruct (parse_line line). tied_steps. Qed.
Hint Resolve tied_process_line : tied.

Lemma tied_client_read : keeps tied client_read.
Proof.
  intros h (Hi & Hp & Hs & Hj). unfold client_read.
  assert (c_peer (opftp_client_read (h_cl h) (h_os h)).1.2 = peer) as Hp'.
  { unfold opftp_client_read. repeat case_match; exact Hp. }
  destruct (opftp_client_read (h_cl h) (h_os h)) as [[n c'] os']. by split_and!.
Qed.
Lemma tied_getline n : keeps tied (client_getline n).
Proof.
  intros h Hh. unfold client_getline, opftp_client_getline. repeat case_match; simplify_eq; exact Hh.
Qed.
Lemma tied_handshake_step : keeps tied handshake_step.
Proof. intros h Hh. unfold handshake_step. repeat case_match; exact Hh. Qed.
Hint Resolve tied_client_read tied_getline tied_handshake_step : tied.

Lemma tied_line_loop f : keeps tied (line_loop custom f).
Proof. induction f as [|f IH]; cbn [line_loop]; tied_steps. Qed.
Hint Resolve tied_line_loop : tied.
Lemma tied_read_loop f : keeps tied (read_loop custom f).
Proof. induction f as [|f IH]; cbn [read_loop]; tied_steps. Qed.
Lemma tied_disconnect : keeps tied (client_disconnect disconnect_hook).
Proof. unfold client_disconnect. tied_steps. Qed.
Hint Resolve tied_read_loop tied_disconnect : tied.

Lemma tied_events f ev : keeps tied (handle_client_events custom disconnect_hook f ev).
Proof. unfold handle_client_events. tied_steps. Qed.

End Events.

(** ** The connection a worker makes *)

(** What a successful [opftp_datachan_connect_job] did: it accepted [p] on
    the listener, or it connected to [p]. *)
Definition connected_to (j j' : opftp_transfer_job) (p : sockaddr) : Prop :=
  (0 ≤ j_pasv_fd j ∧ ∃ os1 os2 : OS, sys_accept (j_pasv_fd j) os1 = (Ok (j_data_fd j', p), os2)) ∨
  (j_pasv_fd j < 0 ∧ j_have_data_peer j = true ∧ p = j_data_peer j ∧
   ∃ r (os1 os2 : OS), sys_connect (j_data_fd j') p os1 = (r, os2)).

Lemma connect_job_peer s j os j' os' :
  opftp_datachan_connect_job s j os = (Ok (), j', os') →
  ∃ p, connected_to j j' p ∧
    (0 ≤ j_pasv_fd j → s_allow_foreign_port s = false → addr_eq p (j_ctl_peer j) = true).
Proof.
  unfold opftp_datachan_connect_job. destruct (Z.leb_spec 0 (j_pasv_fd j)) as [Hp|Hp].
  - destruct (poll_data _ _ _ os) as [[[]|] os1]; [|done].
    destruct (sys_accept (j_pasv_fd j) os1) as [[[fd ss]|] os2] eqn:Ea; [|done].
    destruct (negb (s_allow_foreign_port s) && negb (addr_eq ss (j_ctl_peer j))) eqn:E; [done|].
    intros [= <- <-]. exists ss. split; [left; split; [done|]; by eexists _, _|].
    intros _ Hf. rewrite Hf in E. by apply negb_false_iff in E.
  - destruct (j_have_data_peer j) eqn:Hd; [|done].
    destruct (sys_socket _ os) as [[fd|] os1]; [|done].
    destruct (sys_connect fd (j_data_peer j) os1) as [r os2] eqn:Ec.
    destruct (match r with Ok _ => _ | Err e => _ end); [done|].
    destruct (poll_data _ _ _ os2) as [[[]|] os3]; [|done].
    destruct (sys_so_error fd os3) as [e os4]. destruct e; try done.
    intros [= <- <-]. exists (j_data_peer j). split; [|lia]. right. split_and!; [done..|].
    by eexists _, _, _.
Qed.

End Peers.

(** C9. No bounce. With [allow_foreign_port] off, whatever a client sends,
    every data connection a worker then makes for one of its jobs is with the
    host of the client's control connection: the connection accepted on the
    PASV or EPSV listener comes from it, the PORT or EPRT target is on it. *)
Theorem no_bounce {FS OS : Type} `{FsOps FS} `{SysOps OS}
    (custom : nat → option bytes → HM FS OS ()) (disconnect_hook : HM FS OS ())
    (id : cid) (peer : sockaddr)
    (Hcustom : ∀ n q, keeps (tied id peer false) (custom n q))
    (Hhook : keeps (tied id peer false) disconnect_hook)
    (f : nat) (ev : Z) (h : hstate FS OS) (Hh : peers_ok id peer false h) :
  let h' := (handle_client_events custom disconnect_hook f ev h).2 in
  peers_ok id peer false h' ∧
  ∀ k j (os : OS) j' os', h_jobs h' !! k = Some j → j_client j = id →
    opftp_datachan_connect_job (h_srv h') j os = (Ok (), j', os') →
    ∃ p, connected_to (OS:=OS) j j' p ∧ addr_eq p peer = true.
Proof.
  intros h'. assert (peers_ok id peer false h') as Hh' by by apply tied_events.
  split; [done|]. intros k j os j' os' Hk Hc Hconn. destruct Hh' as (_ & _ & Ha & Hj).
  destruct (Hj k j Hk) as [Hport Hctl].
  destruct (connect_job_peer _ _ _ _ _ Hconn) as (p & Hp & Hpasv). exists p. split; [done|].
  destruct Hp as [[Hge _]|(Hlt & Hd & -> & _)].
  - rewrite <-(Hctl Hc (or_intror Hge)). by apply Hpasv.
  - rewrite addr_eq_sym, <-(Hctl Hc (or_introl Hd)). by apply Hport.
Qed.

Lemma no_bounce_witness :
  peers_ok 1%positive (SA_in [chr 10; chr 0; chr 0; chr 2] 50000) false
    (handle_client_events Scenario.no_custom Scenario.no_hook 5 POLLIN
       (Scenario.state (B "/srv") true
          [B "PORT 10,0,0,2,200,13" ++ CRLF ++ B "RETR f" ++ CRLF])).2.
Proof.
  refine (proj1 (no_bounce Scenario.no_custom Scenario.no_hook _ _ _ _ _ _ _ _)).
  - intros n q. apply tied_reply.
  - intros h' Hh. exact Hh.
  - split_and!; [reflexivity|reflexivity|vm_compute; reflexivity|apply map_Forall_empty].
Defined.

End Bounce.
