(* ===== verification/Refs.v ===== *)
(** * Reference counts and jobs

    Who holds a reference to a client: the reactor's list, each of its jobs,
    each reply a worker queued for it. [sys_ok] says that [refs] counts
    exactly these, and that a client has at most one job of its current
    generation, the one in [c->job]. [sys_step] is a step of the system, of
    the reactor or of a worker; every step keeps [sys_ok]. *)

From S2P Require Import Prelude Types Resolve CLib Listing Sys Tls FsIface FsRooted Dispatch.
From S2P Require Import Pollset Queue FsMem World Client Logic Datachan Commands Transfer Server.
From S2P Require Import Lifecycle Scenario.
Import FsMem Client Datachan Commands Transfer Server Lifecycle.

Local Open Scope Z_scope.

Module Refs.

Definition of_client (id : cid) (kj : jid * opftp_transfer_job) : Prop := j_client kj.2 = id.
#[local] Instance of_client_dec id kj : Decision (of_client id kj).
Proof. unfold of_client. apply _. Defined.

(** The jobs of a client, and their number. *)
Definition jobs_of (id : cid) (jobs : gmap jid opftp_transfer_job) := filter (of_client id) jobs.
Definition njobs (id : cid) (jobs : gmap jid opftp_transfer_job) : Z :=
  Z.of_nat (size (jobs_of id jobs)).

Lemma njobs_insert_fresh id jobs k j :
  jobs !! k = None →
  njobs id (<[k := j]> jobs) = njobs id jobs + (if decide (j_client j = id) then 1 else 0).
Proof.
  intros Hk. unfold njobs, jobs_of. case_decide as Hc.
  - rewrite map_filter_insert_True by done.
    rewrite map_size_insert_None by (apply map_lookup_filter_None; by left). lia.
  - rewrite map_filter_insert_False by done. rewrite delete_id by done. lia.
Qed.

Lemma njobs_delete id jobs k j :
  jobs !! k = Some j →
  njobs id (delete k jobs) = njobs id jobs - (if decide (j_client j = id) then 1 else 0).
Proof.
  intros Hk. rewrite <- (insert_delete_id jobs k j Hk) at 2.
  rewrite njobs_insert_fresh by apply lookup_delete_eq. lia.
Qed.

Lemma njobs_update id jobs k j j' :
  jobs !! k = Some j → j_client j' = j_client j → njobs id (<[k := j']> jobs) = njobs id jobs.
Proof.
  intros Hk Hc. rewrite <- (insert_delete_id jobs k j Hk) at 2.
  rewrite <- insert_delete_eq, !njobs_insert_fresh by apply lookup_delete_eq. by rewrite Hc.
Qed.

(** ** One client *)

Section Handlers.
Context {FS OS : Type} `{FsOps FS} `{SysOps OS}.
Local Abbreviation M A := (HM FS OS A).
Local Abbreviation hst := (hstate FS OS).

(** The part of the state the bookkeeping is about. *)
Definition same (h h' : hst) : Prop :=
  h_cid h' = h_cid h ∧ h_jobs h' = h_jobs h ∧ h_fresh h' = h_fresh h ∧
  s_clients (h_srv h') = s_clients (h_srv h) ∧ s_replies (h_srv h') = s_replies (h_srv h) ∧
  c_refs (h_cl h') = c_refs (h_cl h) ∧ c_job (h_cl h') = c_job (h_cl h) ∧
  c_generation (h_cl h') = c_generation (h_cl h).

#[export] Instance same_refl : Reflexive same.
Proof. intros h. unfold same. by split_and!. Qed.
#[export] Instance same_trans : Transitive same.
Proof.
  intros h1 h2 h3 (?&?&?&?&?&?&?&?) (?&?&?&?&?&?&?&?). unfold same. split_and!; congruence.
Qed.

Ltac same_leaf :=
  let h := fresh "h" in
  intros h; unfold opftp_close_fd, reply, opftp_client_send_reply, opftp_client_send;
  unfold fs_call, os_call, mod_cl, mod_srv, mod_os, send_raw, st_modify;
  repeat case_match; unfold same; cbn; by split_and!.

Ltac same_steps := keeps_steps ltac:(first [solve [eauto 2 with refs nocore] | same_leaf]).

Create HintDb refs.
#[local] Hint Constants Opaque : refs.

Lemma same_reply code msg : keeps same (opftp_client_send_reply code msg).
Proof. same_leaf. Qed.
Lemma same_fs {A} (op : rooted → FsM FS A) : keeps same (fs_call op).
Proof. same_leaf. Qed.
Hint Resolve same_reply same_fs : refs.
Lemma same_fs_error : keeps same reply_fs_error.
Proof. unfold reply_fs_error. same_steps. Qed.
Lemma same_resolve_arg p : keeps same (resolve_arg p).
Proof. unfold resolve_arg. same_steps. Qed.
Lemma same_fstat p : keeps same (fstat_path p).
Proof. apply same_fs. Qed.
Hint Resolve same_fs_error same_resolve_arg same_fstat : refs.
Lemma same_parent_is_dir p : keeps same (parent_is_dir p).
Proof. unfold parent_is_dir. same_steps. Qed.
Hint Resolve same_parent_is_dir : refs.
Lemma same_resolve_dest p : keeps same (resolve_dest p).
Proof. unfold resolve_dest. same_steps. Qed.
Lemma same_close_pasv : keeps same close_pasv.
Proof. unfold close_pasv. same_steps. Qed.
Lemma same_bind_range n fd mk c : keeps same (bind_range n fd mk c).
Proof. revert c. induction n as [|n IH]; intros c; cbn [bind_range]; same_steps. Qed.
Lemma same_pollset_mod ev : keeps same (pollset_mod_client ev).
Proof. unfold pollset_mod_client. same_steps. Qed.
Hint Resolve same_resolve_dest same_close_pasv same_bind_range same_pollset_mod : refs.
Lemma same_open_listener fd mk : keeps same (open_listener fd mk).
Proof. unfold open_listener, bind_listener_in_range. same_steps. Qed.
Lemma same_start_tls : keeps same opftp_client_start_tls.
Proof. unfold opftp_client_start_tls. same_steps. Qed.
Lemma same_send_lines ls : keeps same (send_lines ls).
Proof. induction ls as [|l ls IH]; cbn [send_lines]; same_steps. Qed.
Lemma same_stat_entries f d : keeps same (stat_entries f d).
Proof. induction f as [|f IH]; cbn [stat_entries]; same_steps. Qed.
Lemma same_stou_loop n : keeps same (stou_loop n).
Proof. induction n as [|n IH]; cbn [stou_loop]; same_steps. Qed.
Lemma same_job_dispatch id : keeps same (job_dispatch id).
Proof. unfold job_dispatch. same_steps. Qed.
Hint Resolve same_open_listener same_start_tls same_send_lines same_stat_entries same_stou_loop
  same_job_dispatch : refs.

(** ** What a command keeps *)

Definition mine (h : hst) (k : jid) (j : opftp_transfer_job) : Prop :=
  h_jobs h !! k = Some j ∧ j_client j = h_cid h.

(** The jobs of the client and its [job] field agree. *)
Record hok (h : hst) : Prop := mk_hok {
  hok_fresh k j : h_jobs h !! k = Some j → (k < h_fresh h)%positive;
  hok_job k : c_job (h_cl h) = Some k → ∃ j, mine h k j ∧ j_generation j = c_generation (h_cl h);
  hok_gen k j : mine h k j → j_generation j ≤ c_generation (h_cl h);
  hok_one k j : mine h k j → j_generation j = c_generation (h_cl h) → c_job (h_cl h) = Some k
}.

Definition others (h : hst) : gmap jid opftp_transfer_job :=
  filter (λ kj, ¬ of_client (h_cid h) kj) (h_jobs h).

(** References that are not accounted for by the list and the jobs. *)
Definition bal (h : hst) : Z :=
  c_refs (h_cl h) - (if decide (h_cid h ∈ s_clients (h_srv h)) then 1 else 0)
  - njobs (h_cid h) (h_jobs h).

Record books (h h' : hst) : Prop := mk_books {
  bk_ok : hok h';
  bk_cid : h_cid h' = h_cid h;
  bk_replies : s_replies (h_srv h') = s_replies (h_srv h);
  bk_clients : s_clients (h_srv h') = s_clients (h_srv h);
  bk_fresh : (h_fresh h ≤ h_fresh h')%positive;
  bk_others : others h' = others h;
  bk_bal : bal h' = bal h
}.

Definition kept (h h' : hst) : Prop := hok h → books h h'.

#[export] Instance kept_refl : Reflexive kept.
Proof. intros h Hh. by split. Qed.
#[export] Instance kept_trans : Transitive kept.
Proof.
  intros h1 h2 h3 H12 H23 Hh. destruct (H12 Hh) as [H2 ?????]. destruct (H23 H2).
  split; congruence || lia || done.
Qed.

Lemma same_hok h h' : same h h' → hok h → hok h'.
Proof.
  intros (Ei & Ej & Ef & _ & _ & _ & Ec & Eg) [H1 H2 H3 H4].
  split; unfold mine; rewrite ?Ei, ?Ej, ?Ef, ?Ec, ?Eg; [exact H1|exact H2|exact H3|exact H4].
Qed.

Lemma same_kept h h' : same h h' → kept h h'.
Proof.
  intros Hs Hh. pose proof (same_hok _ _ Hs Hh). destruct Hs as (Ei & Ej & Ef & El & Er & Eref & _ & _).
  split; [done..|lia| |]; unfold others, bal; by rewrite ?Ei, ?Ej, ?El, ?Eref.
Qed.

Lemma keeps_same_kept {A} (m : M A) : keeps same m → keeps kept m.
Proof. intros Hm h. apply same_kept, Hm. Qed.

(** ** A job that is created and not yet in [c->job] *)

Record pend (h0 : hst) (id : jid) (h : hst) : Prop := mk_pend {
  pn_cid : h_cid h = h_cid h0;
  pn_id : id = h_fresh h0;
  pn_fresh : h_fresh h = Pos.succ id;
  pn_job : ∃ j, h_jobs h = <[id := j]> (h_jobs h0) ∧ j_client j = h_cid h0 ∧
                j_generation j = c_generation (h_cl h0);
  pn_clients : s_clients (h_srv h) = s_clients (h_srv h0);
  pn_replies : s_replies (h_srv h) = s_replies (h_srv h0);
  pn_refs : c_refs (h_cl h) = c_refs (h_cl h0) + 1;
  pn_cjob : c_job (h_cl h) = c_job (h_cl h0);
  pn_gen : c_generation (h_cl h) = c_generation (h_cl h0)
}.

Lemma pend_same h0 id h h' : same h h' → pend h0 id h → pend h0 id h'.
Proof.
  intros (Ei & Ej & Ef & El & Er & Eref & Ec & Eg) []. split; try congruence. by rewrite Ej.
Qed.

Lemma pend_mod_job h0 id h f :
  (∀ j, j_client (f j) = j_client j ∧ j_generation (f j) = j_generation j) →
  pend h0 id h → pend h0 id (mod_job id f h).2.
Proof.
  intros Hf [? ? ? (j & Ej & Hc & Hg)]. destruct (Hf j) as [Hfc Hfg].
  split; try done. exists (f j). cbn. rewrite Ej, alter_insert_eq, Hfc, Hfg. done.
Qed.

Lemma fresh_None h : hok h → h_jobs h !! h_fresh h = None.
Proof.
  intros Hh. destruct (h_jobs h !! h_fresh h) as [j|] eqn:E; [|done].
  apply hok_fresh in E; [lia|done].
Qed.

Lemma job_new_spec op h :
  hok h →
  match job_new op h with
  | (None, h') => same h h'
  | (Some id, h') => pend h id h'
  end.
Proof.
  intros Hh. unfold job_new. rewrite ST_bind_eq. unfold os_call at 1.
  destruct (sys_pipe (h_os h)) as [[pipe|e] os']; [|unfold same; cbn; by split_and!].
  unfold mod_cl, st_modify, st_get, mbind, ST_bind, mret, ST_ret. cbv beta iota.
  split; try done. by eexists.
Qed.

(** The job is handed over: it becomes [c->job]. *)
Lemma pend_adopt h0 id h h' :
  hok h0 → c_job (h_cl h0) = None → pend h0 id h →
  h_cid h' = h_cid h → h_jobs h' = h_jobs h → h_fresh h' = h_fresh h →
  s_clients (h_srv h') = s_clients (h_srv h) → s_replies (h_srv h') = s_replies (h_srv h) →
  c_refs (h_cl h') = c_refs (h_cl h) → c_generation (h_cl h') = c_generation (h_cl h) →
  c_job (h_cl h') = Some id → books h0 h'.
Proof.
  intros Hh Hnone Hp Ei Ej Ef El Er Eref Eg Ec. pose proof (fresh_None _ Hh) as Hnew.
  destruct Hp as [Pi -> Pf (j & Pj & Pc & Pg) Pl Pr Pref _ Pgen]. rewrite Pi in *.
  assert (∀ k j', mine h' k j' → k = h_fresh h0 ∧ j' = j ∨ mine h0 k j') as Hmine.
  { intros k j' [Hk Hcl]. rewrite Ej, Pj in Hk. apply lookup_insert_Some in Hk as [[<- <-]|[_ Hk]];
      [by left|right]. split; congruence. }
  split; [split| | | | | |].
  - intros k j' Hk. rewrite Ej, Pj in Hk. rewrite Ef, Pf.
    apply lookup_insert_Some in Hk as [[<- _]|[_ Hk]]; [lia|]. apply (hok_fresh _ Hh) in Hk. lia.
  - intros k Hk. rewrite Ec in Hk. simplify_eq. exists j. unfold mine.
    rewrite Ej, Pj, lookup_insert_eq. split_and!; congruence.
  - intros k j' [[-> ->]|Hm]%Hmine; [|apply (hok_gen _ Hh) in Hm]; rewrite Eg, Pgen; lia.
  - intros k j' [[-> ->]|Hm]%Hmine Hg; [done|].
    pose proof (hok_one _ Hh _ _ Hm ltac:(congruence)). congruence.
  - done.
  - congruence.
  - congruence.
  - rewrite Ef, Pf. lia.
  - unfold others. rewrite Ei, Ej, Pj. rewrite map_filter_insert_False by (unfold of_client; cbn; tauto).
    by rewrite delete_id.
  - unfold bal. rewrite Ei, Ej, Pj, El, Pl, Eref, Pref, njobs_insert_fresh by done.
    destruct (decide (j_client j = h_cid h0)); [lia|done].
Qed.

(** [opftp_client_release] drops a reference and nothing else. *)
Lemma release_spec h :
  same (h <| h_cl := h_cl h <| c_refs := c_refs (h_cl h) - 1 |> |>) (opftp_client_release h).2.
Proof.
  unfold opftp_client_release, opftp_close_fd, get_cl, mod_cl, mod_os, st_modify, st_gets, mbind,
    ST_bind, mret, ST_ret. cbv beta iota. case_match; unfold same; cbn; by split_and!.
Qed.

(** The end of a job: a reference dropped, the job deleted. *)
Definition end_job (id : jid) (h h' : hst) : Prop :=
  same (h <| h_cl := h_cl h <| c_refs := c_refs (h_cl h) - 1 |> |>
          <| h_jobs := delete id (h_jobs h) |>) h'.

Lemma release_delete_spec id h :
  end_job id h ((_ ← opftp_client_release; st_modify (λ h, h <| h_jobs := delete id (h_jobs h) |>)) h).2.
Proof.
  rewrite ST_bind_eq. pose proof (release_spec h) as (Ei & Ej & Ef & El & Er & Eref & Ec & Eg).
  destruct (opftp_client_release h) as [[] h']. cbn in *. unfold end_job, same. cbn.
  split_and!; congruence.
Qed.

Lemma end_job_same id h h1 h' : same h h1 → end_job id h1 h' → end_job id h h'.
Proof.
  intros (?&?&?&?&?&?&?&?) (?&?&?&?&?&?&?&?). unfold end_job, same. cbn in *. split_and!; congruence.
Qed.

Lemma job_free_spec id h j : h_jobs h !! id = Some j → end_job id h (job_free id h).2.
Proof.
  intros Hj. unfold job_free. rewrite ST_bind_eq. cbn [st_get]. rewrite Hj.
  rewrite ST_bind_eq.
  match goal with |- context [?m h] => assert (keeps same m) as Hk by same_steps; specialize (Hk h);
    destruct (m h) as [[] h1] end. eapply end_job_same; [exact Hk|]. cbn [snd]. clear Hk.
  rewrite ST_bind_eq.
  match goal with |- context [?m h1] => assert (keeps same m) as Hk by same_steps; specialize (Hk h1);
    destruct (m h1) as [[] h2] end. eapply end_job_same; [exact Hk|]. apply release_delete_spec.
Qed.

(** The job is given up: [job_free]. *)
Lemma pend_drop h0 id h : hok h0 → pend h0 id h → books h0 (job_free id h).2.
Proof.
  intros Hh Hp. pose proof (fresh_None _ Hh) as Hnew.
  destruct Hp as [Pi -> Pf (j & Pj & Pc & Pg) Pl Pr Pref Pcj Pgen].
  assert (same (h0 <| h_fresh := Pos.succ (h_fresh h0) |>) (job_free (h_fresh h0) h).2) as Hs.
  { pose proof (job_free_spec (h_fresh h0) h j) as (?&?&?&?&?&?&?&?); [by rewrite Pj, lookup_insert_eq|].
    unfold same. cbn in *. rewrite Pj, delete_insert_id in * by done.
    split_and!; congruence || lia. }
  apply same_kept in Hs. destruct Hs as [? ? ? ? Hf ? ?].
  { destruct Hh as [H1 H2 H3 H4]. split; [|exact H2|exact H3|exact H4].
    intros k j' Hk%H1. cbn. lia. }
  split; try done. cbn in Hf. lia.
Qed.

(** What [start_transfer] and CPTO share: a job is created, filled in,
    queued, and becomes [c->job] or is freed. *)
Lemma kept_launch op (f : opftp_transfer_job → opftp_transfer_job) (g : M ()) (r1 r2 r3 : M ())
    (upd : jid → opftp_client → opftp_client) h :
  (∀ j, j_client (f j) = j_client j ∧ j_generation (f j) = j_generation j) →
  (∀ id c, c_job (upd id c) = Some id ∧ c_refs (upd id c) = c_refs c ∧
           c_generation (upd id c) = c_generation c) →
  keeps same g → keeps same r1 → keeps same r2 → keeps same r3 →
  c_job (h_cl h) = None →
  kept h ((j ← job_new op;
           match j with
           | None => r1
           | Some id =>
              _ ← mod_job id f; _ ← g;
              ok ← job_dispatch id;
              if negb ok then _ ← job_free id; r2
              else _ ← mod_cl (upd id); r3
           end) h).2.
Proof.
  intros Hf Hu Hg H1 H2 H3 Hnone Hh. rewrite ST_bind_eq. pose proof (job_new_spec op h Hh) as Hn.
  destruct (job_new op h) as [[id|] h1]; [|apply same_kept; [etrans; [exact Hn|apply H1]|done]].
  apply (pend_mod_job _ _ _ f Hf) in Hn. rewrite ST_bind_eq.
  destruct (mod_job id f h1) as [[] h2]. cbn [snd] in Hn. rewrite ST_bind_eq.
  apply (pend_same _ _ _ _ (Hg h2)) in Hn. destruct (g h2) as [[] h3]. cbn [snd] in Hn.
  rewrite ST_bind_eq. apply (pend_same _ _ _ _ (same_job_dispatch id h3)) in Hn.
  destruct (job_dispatch id h3) as [ok h4]. cbn [snd] in Hn. destruct ok; cbn [negb].
  - unfold mod_cl. rewrite ST_bind_eq. cbn [st_modify].
    destruct (Hu id (h_cl h4)) as (U1 & U2 & U3).
    pose proof (H3 (h4 <| h_cl := upd id (h_cl h4) |>)) as (Ei & Ej & Ef & El & Er & Eref & Ec & Eg).
    cbn in Ei, Ej, Ef, El, Er, Eref, Ec, Eg.
    eapply pend_adopt; [done|done|exact Hn|congruence..].
  - rewrite ST_bind_eq. pose proof (pend_drop _ _ _ Hh Hn) as Hd.
    destruct (job_free id h4) as [[] h5]. cbn [snd] in Hd.
    exact (kept_trans _ _ _ (λ _, Hd) (same_kept _ _ (H2 h5)) Hh).
Qed.

Lemma kept_start_transfer op path nl ml r : keeps kept (start_transfer op path nl ml r).
Proof.
  intros h. unfold start_transfer. rewrite ST_bind_eq. cbn [get_srv st_gets].
  rewrite ST_bind_eq. cbn [get_cl st_gets]. case_bool_decide as Hj; [apply keeps_same_kept, same_reply|].
  apply eq_None_not_Some in Hj.
  do 2 (case_match; [apply keeps_same_kept, same_reply|]).
  apply (kept_launch op (fill_job (h_cl h) path nl ml)
           (mod_cl (λ c, c <| c_pasv_fd := -1 |> <| c_have_data_peer := false |>))
           (reply 425 R425) (reply 425 R425) (reply 150 (default R150 r))
           (λ id c, c <| c_job := Some id |> <| c_rest := 0 |>)); try same_leaf; done.
Qed.

Lemma kept_cmd_cpto p : keeps kept (cmd_cpto p).
Proof.
  intros h. unfold cmd_cpto. rewrite ST_bind_eq. cbn [get_cl st_gets].
  case_match; [apply keeps_same_kept, same_reply|].
  case_bool_decide as Hj; [apply keeps_same_kept, same_reply|]. apply eq_None_not_Some in Hj.
  rewrite ST_bind_eq. pose proof (same_resolve_dest p h) as Hs1.
  destruct (resolve_dest p h) as [dst h1]. cbn [snd] in Hs1. rewrite ST_bind_eq.
  assert (same h (h1 <| h_cl := h_cl h1 <| c_have_cpfr := false |> |>)) as Hs by exact Hs1.
  etrans; [apply same_kept; exact Hs|]. unfold mod_cl at 1. cbn [st_modify].
  set (h2 := h1 <| h_cl := _ |>) in *.
  destruct dst as [path|]; [|apply keeps_same_kept, same_fs_error].
  do 2 (case_match; [apply keeps_same_kept, same_reply|]).
  pose proof (kept_launch OPFTP_JOB_COPY
           (λ j, j <| j_path := bprintf Resolve.OPFTP_MAX_PATH (c_cpfr (h_cl h)) |>
                   <| j_dst := bprintf Resolve.OPFTP_MAX_PATH path |>)
           (mret ()) (reply 451 R451) (reply 451 R451) (mret ())
           (λ id c, c <| c_job := Some id |>) h2) as Hl.
  destruct Hs as (_ & _ & _ & _ & _ & _ & Hc & _).
  apply Hl; clear Hl; try same_leaf; try done. by rewrite Hc.
Qed.

(** ** Cancelling a job *)

Lemma own_update h id j j' :
  mine h id j → j_client j' = j_client j → j_generation j' = j_generation j →
  kept h (h <| h_jobs := <[id := j']> (h_jobs h) |>).
Proof.
  intros [Hj Hc] Ec Eg Hh.
  assert (∀ k x, mine (h <| h_jobs := <[id := j']> (h_jobs h) |>) k x →
    ∃ y, mine h k y ∧ j_generation y = j_generation x) as Hm.
  { intros k x [Hk Hx]. cbn in Hk, Hx. apply lookup_insert_Some in Hk as [[<- <-]|[_ Hk]];
      [by exists j|by exists x]. }
  split; [split| | | | | |]; try done.
  - intros k x Hk. cbn in *. apply lookup_insert_Some in Hk as [[<- _]|[_ Hk]];
      by eapply hok_fresh.
  - intros k Hk. destruct (hok_job _ Hh k Hk) as (x & [Hx Hxc] & Hxg). unfold mine. cbn.
    destruct (decide (k = id)) as [->|].
    + rewrite lookup_insert_eq. exists j'. split_and!; congruence.
    + rewrite lookup_insert_ne by done. by exists x.
  - intros k x (y & Hy & <-)%Hm. by apply (hok_gen _ Hh k).
  - intros k x (y & Hy & <-)%Hm Hg. by apply (hok_one _ Hh k y).
  - unfold others. cbn. rewrite map_filter_insert_False by (unfold of_client; cbn; intros []; congruence).
    apply map_eq. intros k. rewrite !map_lookup_filter. destruct (decide (k = id)) as [->|].
    + rewrite lookup_delete_eq, Hj. cbn. rewrite option_guard_False; [done|].
      unfold of_client. cbn. tauto.
    + by rewrite lookup_delete_ne.
  - unfold bal. cbn. by rewrite (njobs_update _ _ _ j).
Qed.

Lemma cancel_spec id h j :
  h_jobs h !! id = Some j →
  same (h <| h_jobs := <[id := j <| j_cancelled := true |>]> (h_jobs h) |>) (cancel_job id h).2.
Proof.
  intros Hj. unfold cancel_job, mod_job, mod_os, st_get, st_modify, mbind, ST_bind.
  cbv beta iota. rewrite Hj. cbn. unfold same. cbn. split_and!; try done.
  apply map_eq. intros k. destruct (decide (k = id)) as [->|].
  - by rewrite lookup_alter_eq, lookup_insert_eq, Hj.
  - by rewrite lookup_alter_ne, lookup_insert_ne.
Qed.

Lemma kept_cancel id h : c_job (h_cl h) = Some id → kept h (cancel_job id h).2.
Proof.
  intros Hc Hh. destruct (hok_job _ Hh id Hc) as (j & Hm & Hg).
  refine (kept_trans _ _ _ (own_update h id j _ Hm _ _) (same_kept _ _ (cancel_spec id h j (proj1 Hm))) Hh);
    done.
Qed.

Lemma kept_cmd_abor p : keeps kept (cmd_abor p).
Proof.
  intros h. unfold cmd_abor. rewrite ST_bind_eq. cbn [get_cl st_gets].
  destruct (c_job (h_cl h)) as [id|] eqn:E; [|apply keeps_same_kept, same_reply].
  rewrite ST_bind_eq. pose proof (kept_cancel id h E) as Hk.
  destruct (cancel_job id h) as [[] h1]. etrans; [exact Hk|]. apply keeps_same_kept. same_leaf.
Qed.

(** ** Commands *)

Ltac kept_steps :=
  keeps_steps ltac:(first [solve [eauto 2 with refs nocore]
                          |apply keeps_same_kept; first [solve [eauto 2 with refs nocore]|same_leaf]]).

Hint Resolve kept_start_transfer kept_cmd_cpto kept_cmd_abor : refs.

Lemma kept_start_listing p nl ml : keeps kept (start_listing p nl ml).
Proof. unfold start_listing. kept_steps. Qed.
Lemma kept_start_store op p : keeps kept (start_store op p).
Proof. unfold start_store. kept_steps. Qed.
Hint Resolve kept_start_listing kept_start_store : refs.

Lemma kept_cmd_run custom f p :
  (∀ n q, keeps kept (custom n q)) → keeps kept (cmd_run custom f p).
Proof.
  intros Hcu. destruct f; cbn [cmd_run]; try solve [eauto 2 with refs nocore];
  unfold cmd_user, cmd_pass, cmd_quit, cmd_noop, cmd_syst, cmd_feat, cmd_help, cmd_opts, cmd_acct,
    cmd_allo, cmd_type, cmd_mode, cmd_stru, cmd_stop, cmd_pwd, cmd_mkd, cmd_rmd, cmd_dele, cmd_cwd,
    cmd_cdup, cmd_cwd, cmd_rnfr, cmd_rnto, cmd_cpfr, cmd_site, cmd_stop, site_chmod, site_utime,
    cmd_size, cmd_mdtm, cmd_rest, cmd_stat, cmd_pasv, cmd_port, cmd_epsv, cmd_eprt, set_data_peer,
    cmd_auth, cmd_pbsz, cmd_prot, cmd_list, cmd_nlst, cmd_mlsd, cmd_mlst, cmd_mfmt, cmd_stor,
    cmd_appe, cmd_retr, cmd_stou; kept_steps.
Qed.

(** ** Client events *)

Section Events.
Context (custom : nat → option bytes → M ()) (disconnect_hook : M ()).
Context (Hcustom : ∀ n q, keeps kept (custom n q)) (Hhook : keeps kept disconnect_hook).

Lemma kept_dispatch name p : keeps kept (opftp_dispatch_call custom name p).
Proof. pose proof (kept_cmd_run custom). unfold opftp_dispatch_call. kept_steps. Qed.
Hint Resolve kept_dispatch : refs.

Lemma kept_process_line line : keeps kept (process_line custom line).
Proof. unfold process_line. destruct (parse_line line). kept_steps. Qed.
Hint Resolve kept_process_line : refs.

Lemma same_client_read : keeps same client_read.
Proof.
  intros h. unfold client_read.
  assert (same h (h <| h_cl := (opftp_client_read (h_cl h) (h_os h)).1.2 |>)) as Hs.
  { unfold opftp_client_read. repeat case_match; unfold same; cbn; by split_and!. }
  destruct (opftp_client_read (h_cl h) (h_os h)) as [[n c'] os']. exact Hs.
Qed.
Lemma same_getline n : keeps same (client_getline n).
Proof. intros h. unfold client_getline, opftp_client_getline. repeat case_match; unfold same; simplify_eq; cbn; by split_and!. Qed.
Lemma same_handshake_step : keeps same handshake_step.
Proof. intros h. unfold handshake_step. repeat case_match; unfold same; cbn; by split_and!. Qed.
Hint Resolve same_client_read same_getline same_handshake_step : refs.

Lemma kept_line_loop f : keeps kept (line_loop custom f).
Proof. induction f as [|f IH]; cbn [line_loop]; kept_steps. Qed.
Hint Resolve kept_line_loop : refs.
Lemma kept_read_loop f : keeps kept (read_loop custom f).
Proof. induction f as [|f IH]; cbn [read_loop]; kept_steps. Qed.
Hint Resolve kept_read_loop : refs.

(** The first half of [client_disconnect]: no job and a new generation. *)
Lemma quiesce_books h h1 :
  books h h1 →
  books h (h1 <| h_cl := h_cl h1 <| c_job := None |> <| c_generation := c_generation (h_cl h1) + 1 |> |>).
Proof.
  intros [Hh1 ? ? ? ? ? ?]. split; [split| | | | | |]; try done.
  - intros k j. apply (hok_fresh _ Hh1).
  - intros k j Hm. pose proof (hok_gen _ Hh1 k j Hm). cbn. lia.
  - intros k j Hm Hj. pose proof (hok_gen _ Hh1 k j Hm). cbn in Hj. lia.
Qed.

(** Like [books], for a client that left the reactor's list. *)
Record left_books (h h' : hst) : Prop := mk_left {
  lb_ok : hok h';
  lb_cid : h_cid h' = h_cid h;
  lb_replies : s_replies (h_srv h') = s_replies (h_srv h);
  lb_clients : s_clients (h_srv h') = filter (λ x, x ≠ h_cid h) (s_clients (h_srv h));
  lb_fresh : (h_fresh h ≤ h_fresh h')%positive;
  lb_others : others h' = others h;
  lb_bal : bal h' = bal h
}.

(** The second half: unlink from the list, run the hook, drop the reference. *)
Lemma unlink_spec h0 h :
  books h0 h → h_cid h0 ∈ s_clients (h_srv h0) →
  left_books h0
    ((_ ← mod_srv (λ s, s <| s_clients := filter (λ x, x ≠ h_cid h0) (s_clients s) |>);
      _ ← disconnect_hook; opftp_client_release) h).2.
Proof.
  intros [Hh Bi Br Bl Bf Bo Bb] Hin. rewrite ST_bind_eq. unfold mod_srv at 1. cbn [st_modify].
  set (h1 := h <| h_srv := _ |>).
  assert (hok h1) as Hh1 by (destruct Hh; by split).
  destruct (Hhook h1 Hh1) as [Hh2 Ci Cr Cl Cf Co Cb]. rewrite ST_bind_eq.
  destruct (disconnect_hook h1) as [[] h2]. cbn [snd] in *.
  pose proof (release_spec h2) as Hs.
  set (h3 := h2 <| h_cl := _ |>) in Hs.
  assert (hok h3) as Hh3 by (destruct Hh2; by split).
  destruct (same_kept _ _ Hs Hh3) as [Hh4 Di Dr Dl Df Do Db].
  assert (h_cid h1 ∉ s_clients (h_srv h1)) as Hout.
  { unfold h1. cbn. rewrite Bi, list_elem_of_filter. tauto. }
  assert (bal h1 = bal h + 1) as E1.
  { unfold bal. rewrite (decide_False (P := h_cid h1 ∈ s_clients (h_srv h1))) by done.
    rewrite (decide_True (P := h_cid h ∈ s_clients (h_srv h))) by (by rewrite Bi, Bl).
    cbn. lia. }
  assert (bal h3 = bal h2 - 1) as E3 by (unfold bal, h3; cbn; lia).
  split; try done.
  - rewrite Di. cbn. rewrite Ci. done.
  - rewrite Dr. cbn. rewrite Cr. done.
  - rewrite Dl. cbn. rewrite Cl. cbn. by rewrite Bl.
  - cbn in *. lia.
  - rewrite Do. change (others h3) with (others h2). rewrite Co. exact Bo.
  - rewrite Db, E3, Cb, E1. lia.
Qed.

Lemma via {A B} (R : hst → hst → Prop) `{!Transitive R} (P : hst → Prop) h0 h (m : M A) (k : A → M B) :
  R h0 h → keeps R m → (∀ a h', R h0 h' → P (k a h').2) → P ((m ≫= k) h).2.
Proof.
  intros Hh Hm Hk. rewrite ST_bind_eq. specialize (Hm h). destruct (m h) as [a h']. apply Hk.
  by etrans.
Qed.

Lemma disconnect_spec h :
  hok h → h_cid h ∈ s_clients (h_srv h) → left_books h (client_disconnect disconnect_hook h).2.
Proof.
  intros Hh Hin. unfold client_disconnect. rewrite ST_bind_eq. cbn [get_cl st_gets].
  rewrite ST_bind_eq. cbn [st_get].
  apply (via same _ h); [reflexivity|same_steps|]. intros _ hA HA.
  apply (via same _ h); [exact HA|same_steps|]. intros _ hB HB. clear hA HA.
  assert (c_job (h_cl hB) = c_job (h_cl h)) as Ec by apply HB. rewrite <- Ec.
  pose proof (same_kept _ _ HB Hh) as Hbk.
  rewrite ST_bind_eq.
  assert (∃ hC, (match c_job (h_cl hB) with
                 | Some id => _ ← cancel_job id; mod_cl (λ c, c <| c_job := None |>)
                 | None => mret ()
                 end) hB = ((), hC) ∧
    ∃ h1, books h h1 ∧ hC = h1 <| h_cl := h_cl h1 <| c_job := None |> |>) as (hC & -> & h1 & Hb & ->).
  { destruct (c_job (h_cl hB)) as [id|] eqn:Ej.
    - rewrite ST_bind_eq. pose proof (kept_cancel id hB Ej) as Hk.
      destruct (cancel_job id hB) as [[] h1]. eexists. split; [done|]. exists h1. split; [|done].
      exact (kept_trans _ _ _ (λ _, Hbk) Hk Hh).
    - exists hB. split; [done|]. exists hB. split; [done|]. destruct hB as [? c]. cbn in *.
      destruct c. cbn in *. by subst. }
  rewrite ST_bind_eq. unfold mod_cl at 1. cbn [st_modify].
  apply quiesce_books in Hb.
  match goal with |- left_books h (_ ?st).2 => assert (kept h st) as Hk by (intros _; exact Hb) end.
  clear Hb. revert Hk. match goal with |- kept h ?st → _ => generalize st end. intros hD HD.
  apply (via kept _ h); [exact HD|apply keeps_same_kept, same_close_pasv|]. intros _ hE HE.
  apply (via kept _ h); [exact HE|kept_steps|]. intros _ hF HF.
  apply (via kept _ h); [exact HF|kept_steps|]. intros _ hG HG.
  apply (via kept _ h); [exact HG|kept_steps|]. intros _ hH HH.
  apply unlink_spec; [by apply HH|done].
Qed.

(** After the events of a client its books are balanced, in the list or out
    of it. *)
Lemma events_spec f ev h :
  hok h → h_cid h ∈ s_clients (h_srv h) →
  let h' := (handle_client_events custom disconnect_hook f ev h).2 in
  books h h' ∨ left_books h h'.
Proof.
  intros Hh Hin. cbv zeta.
  assert (∀ h', kept h h' →
    let h'' := ((c' ← get_cl; if c_disconnect_requested c' then client_disconnect disconnect_hook
                              else mret ()) h').2 in books h h'' ∨ left_books h h'') as Hend.
  { intros h' Hk. specialize (Hk Hh). cbv zeta. rewrite ST_bind_eq. cbn [get_cl st_gets].
    case_match; [|by left]. right. destruct Hk as [Hh' Bi Br Bl Bf Bo Bb].
    destruct (disconnect_spec h' Hh') as [? Ci Cr Cl Cf Co Cb]; [by rewrite Bi, Bl|].
    split; try congruence; try done. { by rewrite Cl, Bi, Bl. } { lia. } }
  unfold handle_client_events. rewrite ST_bind_eq. cbn [get_cl st_gets].
  assert (kept h h) as Hr by reflexivity.
  destruct (c_tls_handshaking (h_cl h)).
  - apply (via kept (λ h', books h h' ∨ left_books h h') h h _ _ Hr);
      [apply keeps_same_kept, same_handshake_step|]. intros r h1 H1.
    apply (via kept (λ h', books h h' ∨ left_books h h') h h1 _ _ H1); [kept_steps|].
    intros [] h2 H2. by apply Hend.
  - apply (via kept (λ h', books h h' ∨ left_books h h') h h _ _ Hr); [kept_steps|]. intros [] h1 H1.
    apply (via kept (λ h', books h h' ∨ left_books h h') h h1 _ _ H1); [kept_steps|]. intros [] h2 H2.
    apply (via kept (λ h', books h h' ∨ left_books h h') h h2 _ _ H2); [kept_steps|]. intros [] h3 H3.
    by apply Hend.
Qed.

End Events.
(** ** Completions *)

(** The state before the job of a completion is released: [c->job] was
    cleared when the generation matched. *)
Record done_with (id : jid) (j : opftp_transfer_job) (h h1 : hst) : Prop := mk_done {
  dw_cid : h_cid h1 = h_cid h;
  dw_jobs : h_jobs h1 = h_jobs h;
  dw_fresh : h_fresh h1 = h_fresh h;
  dw_clients : s_clients (h_srv h1) = s_clients (h_srv h);
  dw_replies : s_replies (h_srv h1) = s_replies (h_srv h);
  dw_refs : c_refs (h_cl h1) = c_refs (h_cl h);
  dw_gen : c_generation (h_cl h1) = c_generation (h_cl h);
  dw_job : c_job (h_cl h1) =
    if decide (j_generation j = c_generation (h_cl h)) then None else c_job (h_cl h)
}.

Lemma done_same id j h h1 h2 : done_with id j h h1 → same h1 h2 → done_with id j h h2.
Proof. intros [] (?&?&?&?&?&?&?&?). split; congruence. Qed.

Lemma done_end id j h h1 h' :
  hok h → mine h id j → done_with id j h h1 → end_job id h1 h' → books h h'.
Proof.
  intros Hh Hm [Di Dj Df Dl Dr Dref Dg Dc] (Ei & Ej & Ef & El & Er & Eref & Ec & Eg). cbn in *.
  rewrite Dj in Ej. rewrite Dc in Ec. destruct Hm as [Hj Hjc].
  assert (∀ k x, mine h' k x → k ≠ id ∧ mine h k x) as Hmine.
  { intros k x [Hk Hx]. rewrite Ej in Hk. apply lookup_delete_Some in Hk as [? ?].
    split; [done|]. split; congruence. }
  split; [split| | | | | |].
  - intros k x Hk. rewrite Ej in Hk. apply lookup_delete_Some in Hk as [_ Hk].
    rewrite Ef, Df. by eapply hok_fresh.
  - intros k Hk. rewrite Ec in Hk. case_decide as Hg; [done|].
    destruct (hok_job _ Hh k Hk) as (x & [Hx Hxc] & Hxg). exists x. unfold mine.
    rewrite Ej, lookup_delete_ne by congruence. split_and!; congruence.
  - intros k x [_ Hx]%Hmine. apply (hok_gen _ Hh) in Hx. by rewrite Eg, Dg.
  - intros k x [Hne Hx]%Hmine Hg. rewrite Eg, Dg in Hg. rewrite Ec.
    pose proof (hok_one _ Hh _ _ Hx Hg) as Hk. case_decide as Hgj; [|done].
    pose proof (hok_one _ Hh id j (conj Hj Hjc) Hgj). congruence.
  - congruence.
  - congruence.
  - congruence.
  - rewrite Ef, Df. lia.
  - unfold others. rewrite Ei, Di, Ej. apply map_eq. intros k. rewrite !map_lookup_filter.
    destruct (decide (k = id)) as [->|].
    + rewrite lookup_delete_eq, Hj. cbn. rewrite option_guard_False; [done|].
      unfold of_client. cbn. tauto.
    + by rewrite lookup_delete_ne.
  - unfold bal. rewrite Ei, Di, Ej, El, Dl, Eref, Dref, (njobs_delete _ _ _ j) by done.
    destruct (decide (j_client j = h_cid h)); [lia|done].
Qed.

Lemma same_close_job_fds j : keeps same (close_job_fds j).
Proof. unfold close_job_fds. same_steps. Qed.

Lemma complete_spec id h j :
  hok h → mine h id j → books h (opftp_datachan_complete id h).2.
Proof.
  intros Hh Hm. unfold opftp_datachan_complete. rewrite ST_bind_eq. cbn [st_get].
  destruct Hm as [Hj Hjc]. rewrite Hj.
  apply (via same _ h); [reflexivity|apply same_close_job_fds|]. intros _ hA HA.
  rewrite ST_bind_eq. cbn [get_cl st_gets].
  assert (c_generation (h_cl hA) = c_generation (h_cl h)) as Eg by apply HA.
  match goal with |- books h ((?m ≫= _) hA).2 => assert (done_with id j h (m hA).2) as Hd end.
  { destruct (Z.eqb_spec (j_generation j) (c_generation (h_cl hA))) as [Hg|Hg]; cbn [negb].
    - rewrite ST_bind_eq. unfold mod_cl at 1. cbn [st_modify].
      set (hB := hA <| h_cl := _ |>).
      assert (done_with id j h hB) as HB.
      { destruct HA as (?&?&?&?&?&?&?&?). split; try done. rewrite decide_True by congruence. done. }
      destruct (completion_reply j) as [code msg].
      eapply done_same; [exact HB|].
      match goal with |- same hB (?m hB).2 => assert (keeps same m) as Hk by same_steps; apply Hk end.
    - destruct HA as (?&?&?&?&?&?&?&?). split; try done. rewrite decide_False by congruence. done. }
  rewrite ST_bind_eq. match goal with |- context [?m hA] => destruct (m hA) as [[] h1] end.
  eapply done_end; [done|by split|exact Hd|]. apply release_delete_spec.
Qed.

End Handlers.
End Refs.
