(* ===== verification/System.v ===== *)
(** * The system as a state machine

    [sys_step] has a constructor for each step of the reactor and of a worker;
    [sys_ok] is the invariant of reachable states: reference counts are exact,
    nothing refers to a client that is gone, a client has at most one job of
    its current generation. *)

From S2P Require Import Prelude Types Resolve Sys Tls FsIface FsRooted Dispatch Pollset Queue.
From S2P Require Import FsMem World Client Logic Datachan Commands Transfer Server Lifecycle.
From S2P Require Import Scenario Refs.
Import FsMem Tls Client Datachan Commands Transfer Server Lifecycle Refs.

Local Open Scope Z_scope.

Module System.

(** ** A worker does not change whose job it runs *)

Section Owner.
Context {FS OS : Type} `{FsOps FS} `{SysOps OS}.
Context (srv : opftp_server) (r : rooted) (cancel : nat → bool).

Definition owner (t t' : tstate FS OS) : Prop :=
  j_client (t_job t') = j_client (t_job t) ∧ j_generation (t_job t') = j_generation (t_job t).

#[local] Instance owner_refl : Reflexive owner.
Proof. done. Qed.
#[local] Instance owner_trans : Transitive owner.
Proof. intros t1 t2 t3 [] []. split; congruence. Qed.

Create HintDb owner.
#[local] Hint Constants Opaque : owner.

Ltac owner_leaf :=
  let t := fresh "t" in
  intros t; unfold get_job, job_cancelled, fs_op, os_op, fail_errno, add_bytes, mod_tjob, tls_op,
    list_line, connect_job, st_gets, st_modify; repeat case_match; by split.
Ltac owner_steps := keeps_steps ltac:(first [solve [eauto 2 with owner nocore] | owner_leaf]).

Lemma own_get_job : keeps owner get_job.
Proof. owner_leaf. Qed.
Lemma own_cancelled : keeps owner (job_cancelled cancel).
Proof. owner_leaf. Qed.
Lemma own_fs {A} (op : FsM FS A) : keeps owner (fs_op op).
Proof. owner_leaf. Qed.
Lemma own_os {A} (op : OS → res A * OS) : keeps owner (os_op op).
Proof. owner_leaf. Qed.
Lemma own_tls {A} op (d : A) : keeps owner (tls_op op d).
Proof. owner_leaf. Qed.
Hint Resolve own_get_job own_cancelled own_fs own_os own_tls : owner.
Lemma own_wait_fd fd ev n : keeps owner (wait_fd cancel fd ev n).
Proof. unfold wait_fd, cancelled_or_again. owner_steps. Qed.
Hint Resolve own_wait_fd : owner.
Lemma own_send_all f b : keeps owner (send_all cancel f b).
Proof. revert b. induction f as [|f IH]; intros [|x b]; cbn [send_all]; owner_steps. Qed.
Lemma own_recv_some n : keeps owner (recv_some cancel n).
Proof. unfold recv_some. owner_steps. Qed.
Lemma own_write_all f fd b : keeps owner (fs_write_all r f fd b).
Proof. revert b. induction f as [|f IH]; intros [|x b]; cbn [fs_write_all]; owner_steps. Qed.
Lemma own_handshake f : keeps owner (tls_handshake_loop cancel f).
Proof. induction f as [|f IH]; cbn [tls_handshake_loop]; owner_steps. Qed.
Hint Resolve own_send_all own_recv_some own_write_all own_handshake : owner.
Lemma own_write fd b : keeps owner (write_all r fd b).
Proof. apply own_write_all. Qed.
Lemma own_tls_setup f : keeps owner (data_tls_setup srv cancel f).
Proof. unfold data_tls_setup. owner_steps. Qed.
Lemma own_list_flush f b : keeps owner (list_flush cancel f b).
Proof. unfold list_flush. owner_steps. Qed.
Hint Resolve own_write own_tls_setup own_list_flush : owner.
Lemma own_list_loop f d b : keeps owner (list_loop r cancel f d b).
Proof. revert b. induction f as [|f IH]; intros b; cbn [list_loop]; owner_steps. Qed.
Lemma own_retr_loop f fd : keeps owner (retr_loop r cancel f fd).
Proof. induction f as [|f IH]; cbn [retr_loop]; owner_steps. Qed.
Lemma own_stor_loop f fd : keeps owner (stor_loop r cancel f fd).
Proof. induction f as [|f IH]; cbn [stor_loop]; owner_steps. Qed.
Lemma own_copy_loop f a b : keeps owner (copy_loop r cancel f a b).
Proof. induction f as [|f IH]; cbn [copy_loop]; owner_steps. Qed.
Hint Resolve own_list_loop own_retr_loop own_stor_loop own_copy_loop : owner.
Lemma own_copy_file f a b : keeps owner (copy_file r cancel f a b).
Proof. unfold copy_file. owner_steps. Qed.
Hint Resolve own_copy_file : owner.
Lemma own_copy_entries f dir d st : keeps owner (copy_entries r cancel f dir d st).
Proof. revert st. induction f as [|f IH]; intros st; cbn [copy_entries]; owner_steps. Qed.
Hint Resolve own_copy_entries : owner.
Lemma own_copy_tree f st : keeps owner (copy_tree_loop r cancel f st).
Proof. revert st. induction f as [|f IH]; intros [|d st]; cbn [copy_tree_loop]; owner_steps. Qed.
Hint Resolve own_copy_tree : owner.
Lemma own_connect : keeps owner (connect_job srv).
Proof.
  intros t. unfold connect_job.
  assert (∀ x, opftp_datachan_connect_job srv (t_job t) (t_os t) = x →
    j_client x.1.2 = j_client (t_job t) ∧ j_generation x.1.2 = j_generation (t_job t)) as Hx.
  { intros x <-. unfold opftp_datachan_connect_job. repeat case_match; done. }
  destruct (opftp_datachan_connect_job _ _ _) as [[rc j] os']. exact (Hx _ eq_refl).
Qed.
Lemma own_close_notify n : keeps owner (close_notify_loop n).
Proof. induction n as [|n IH]; cbn [close_notify_loop]; owner_steps. Qed.
Hint Resolve own_connect own_close_notify : owner.
Lemma own_finish rc : keeps owner (finish rc).
Proof. unfold finish. owner_steps. Qed.
Hint Resolve own_finish : owner.
Lemma own_run f : keeps owner (opftp_transfer_run srv r cancel f).
Proof.
  unfold opftp_transfer_run, run_body, transfer_list, transfer_retr, transfer_stor, transfer_copy,
    copy_tree, seek_rest. owner_steps.
Qed.

End Owner.

(** ** The invariant *)

Definition nreplies (id : cid) (ps : list opftp_pending_reply) : Z :=
  Z.of_nat (length (filter (λ p, pr_c p = id) ps)).

Lemma nreplies_cons id p ps :
  nreplies id (p :: ps) = (if decide (pr_c p = id) then 1 else 0) + nreplies id ps.
Proof. unfold nreplies. rewrite filter_cons. case_decide; cbn [length]; lia. Qed.

Lemma nreplies_app id ps qs : nreplies id (ps ++ qs) = nreplies id ps + nreplies id qs.
Proof. unfold nreplies. rewrite list.filter_app, length_app. lia. Qed.

Section Invariant.
Context {FS OS : Type} `{FsOps FS} `{SysOps OS}.
Local Abbreviation sst := (sstate FS OS).

(** [ps] are replies taken out of the queue and not written yet. *)
Record sys_ok_at (ps : list opftp_pending_reply) (w : sst) : Prop := mk_sys_ok {
  so_refs id c : ss_clients w !! id = Some c →
    c_refs c = (if decide (id ∈ s_clients (ss_srv w)) then 1 else 0)
               + njobs id (ss_jobs w) + nreplies id (ps ++ s_replies (ss_srv w));
  so_listed id : id ∈ s_clients (ss_srv w) → is_Some (ss_clients w !! id);
  so_jobs k j : ss_jobs w !! k = Some j → is_Some (ss_clients w !! j_client j);
  so_replies p : p ∈ ps ++ s_replies (ss_srv w) → is_Some (ss_clients w !! pr_c p);
  so_fresh id : is_Some (ss_clients w !! id) → (id < ss_fresh w)%positive;
  so_hok id c : ss_clients w !! id = Some c → hok (enter id c w);
  so_nodup : NoDup (s_clients (ss_srv w))
}.

Definition sys_ok : sst → Prop := sys_ok_at [].

(** Jobs of another client are not touched. *)
Lemma others_mine (h h' : hstate FS OS) k j :
  h_cid h' = h_cid h → others h' = others h → j_client j ≠ h_cid h →
  h_jobs h' !! k = Some j → h_jobs h !! k = Some j.
Proof.
  intros Ei Eo Hc Hk. assert (others h' !! k = Some j) as Hl.
  { apply map_lookup_filter_Some. split; [done|]. unfold of_client. cbn. by rewrite Ei. }
  rewrite Eo in Hl. by apply map_lookup_filter_Some in Hl as [? _].
Qed.

Lemma others_njobs (h h' : hstate FS OS) o :
  h_cid h' = h_cid h → others h' = others h → o ≠ h_cid h →
  njobs o (h_jobs h') = njobs o (h_jobs h).
Proof.
  intros Ei Eo Ho. assert (jobs_of o (h_jobs h') = jobs_of o (h_jobs h)) as E; [|by unfold njobs; rewrite E].
  apply map_eq. intros k. apply option_eq. intros j. unfold jobs_of.
  rewrite !map_lookup_filter_Some. unfold of_client. cbn.
  split; intros [Hk Hc]; (split; [|done]).
  - eapply (others_mine h h'); eauto. congruence.
  - eapply (others_mine h' h); [done..| |done]. congruence.
Qed.

(** Running an action whose books are balanced, up to the replies it consumed. *)
Lemma leave_ok ps qs w id c h' :
  sys_ok_at ps w → ss_clients w !! id = Some c →
  (∀ p, p ∈ qs → p ∈ ps) → (∀ o, o ≠ id → nreplies o qs = nreplies o ps) →
  hok h' → h_cid h' = id → s_replies (h_srv h') = s_replies (ss_srv w) →
  (s_clients (h_srv h') = s_clients (ss_srv w) ∨
   s_clients (h_srv h') = filter (λ x, x ≠ id) (s_clients (ss_srv w))) →
  (ss_fresh w ≤ h_fresh h')%positive →
  others h' = others (enter id c w) →
  bal h' - nreplies id qs = bal (enter id c w) - nreplies id ps →
  sys_ok_at qs (leave id h' w).
Proof.
  intros [Wr Wl Wj Wp Wf Wh Wn] Hc Hq Hnq Hh Ei Er El Ef Eo Eb.
  assert (∀ o, o ≠ id → o ∈ s_clients (h_srv h') ↔ o ∈ s_clients (ss_srv w)) as Hin.
  { intros o Ho. destruct El as [->| ->]; [done|]. rewrite list_elem_of_filter. tauto. }
  assert (∀ o, is_Some (ss_clients (leave id h' w) !! o) ↔ is_Some (ss_clients w !! o)) as Hdom.
  { intros o. cbn. destruct (decide (o = id)) as [->|].
    - rewrite lookup_insert_eq, Hc. done.
    - by rewrite lookup_insert_ne. }
  split.
  - intros o c' Ho. cbn in *. rewrite Er. apply lookup_insert_Some in Ho as [[<- <-]|[Hne Ho]].
    + pose proof (Wr id c Hc) as E. unfold bal in Eb. cbn in Eb. rewrite Ei in Eb.
      rewrite nreplies_app in *. lia.
    + rewrite (Wr o c' Ho). rewrite (others_njobs (enter id c w) h') by done. cbn.
      rewrite !nreplies_app, Hnq by done.
      destruct (Hin o ltac:(done)). do 2 case_decide; tauto || lia.
  - intros o Ho. apply Hdom, Wl. cbn in Ho. destruct El as [El|El]; rewrite El in Ho; [done|].
    by apply list_elem_of_filter in Ho as [_ ?].
  - intros k j Hk. apply Hdom. cbn in Hk. destruct (decide (j_client j = id)) as [->|Hne];
      [by rewrite Hc|]. apply (Wj k). by eapply (others_mine (enter id c w) h').
  - intros p Hp. apply Hdom, Wp. cbn in Hp. rewrite Er in Hp. set_solver.
  - intros o Ho. apply Hdom, Wf in Ho. cbn. lia.
  - intros o c' Ho. cbn in Ho. apply lookup_insert_Some in Ho as [[<- <-]|[Hne Ho]].
    + destruct Hh as [H1 H2 H3 H4]. unfold mine in *. rewrite Ei in *. by split.
    + destruct (Wh o c' Ho) as [H1 H2 H3 H4]. split; unfold mine in *; cbn in *.
      * apply (hok_fresh _ Hh).
      * intros k Hk. destruct (H2 k Hk) as (j & [Hj Hjc] & Hg). exists j. split; [|done]. split; [|done].
        eapply (others_mine h' (enter id c w)); [done..| |done]. congruence.
      * intros k j [Hk Hkc]. apply (H3 k). split; [|done].
        eapply (others_mine (enter id c w) h'); [done..| |done]. cbn. congruence.
      * intros k j [Hk Hkc]. apply (H4 k). split; [|done].
        eapply (others_mine (enter id c w) h'); [done..| |done]. cbn. congruence.
  - cbn. destruct El as [->| ->]; [done|]. by apply NoDup_filter.
Qed.

Lemma focus_books ps w id c (m : HM FS OS ()) :
  sys_ok_at ps w → ss_clients w !! id = Some c →
  books (enter id c w) (m (enter id c w)).2 → sys_ok_at ps (focus id m w).2.
Proof.
  intros Hw Hc [Hh Ei Er El Ef Eo Eb]. unfold focus. rewrite Hc.
  destruct (m (enter id c w)) as [[] h']. cbn [snd] in *.
  eapply (leave_ok ps); [done|exact Hc|done..| | | |]; [by left|done|done|lia].
Qed.

Lemma focus_left ps w id c (m : HM FS OS ()) :
  sys_ok_at ps w → ss_clients w !! id = Some c →
  left_books (enter id c w) (m (enter id c w)).2 → sys_ok_at ps (focus id m w).2.
Proof.
  intros Hw Hc [Hh Ei Er El Ef Eo Eb]. unfold focus. rewrite Hc.
  destruct (m (enter id c w)) as [[] h']. cbn [snd] in *.
  eapply (leave_ok ps); [done|exact Hc|done..| | | |]; [by right|done|done|lia].
Qed.

(** The server fields the invariant does not read. *)
Lemma sys_ok_same ps w w' :
  sys_ok_at ps w →
  ss_clients w' = ss_clients w → ss_jobs w' = ss_jobs w → ss_fresh w' = ss_fresh w →
  s_clients (ss_srv w') = s_clients (ss_srv w) → s_replies (ss_srv w') = s_replies (ss_srv w) →
  sys_ok_at ps w'.
Proof.
  intros [Wr Wl Wj Wp Wf Wh Wn] Ec Ej Ef El Er.
  split; rewrite ?Ec, ?Ej, ?Ef, ?El, ?Er; try done.
  intros id c Hc. destruct (Wh id c Hc) as [H1 H2 H3 H4].
  split; unfold mine in *; cbn in *; rewrite ?Ej, ?Ef; done.
Qed.

(** ** Worker results *)

Lemma drain_one_ok p ps w : sys_ok_at (p :: ps) w → sys_ok_at ps (drain_one p w).2.
Proof.
  intros Hw. destruct (so_replies _ _ Hw p) as [c Hc]; [by left|].
  unfold drain_one, focus. rewrite Hc. set (h := enter (pr_c p) c w).
  match goal with |- context [?m h] => assert (∃ h1, same h h1 ∧ (m h).2 = (opftp_client_release h1).2) as (h1 & Hs & E) end.
  { rewrite ST_bind_eq. cbn [get_cl st_gets]. case_match.
    - exists (h <| h_out := h_out h ++ [pr_text p] |>). split; [|done]. unfold same. by split_and!.
    - exists h. split; [reflexivity|done]. }
  match goal with |- context [?m h] => destruct (m h) as [[] h'] end. cbn [snd] in *. subst h'.
  pose proof (so_hok _ _ Hw _ _ Hc) as Hh. fold h in Hh.
  destruct (same_kept _ _ Hs Hh) as [Hh1 Ei Er El Ef Eo Eb].
  pose proof (release_spec h1) as Hrel.
  set (h2 := h1 <| h_cl := _ |>) in Hrel.
  assert (hok h2) as Hh2 by (destruct Hh1; by split).
  destruct (same_kept _ _ Hrel Hh2) as [Hh3 Fi Fr Fl Ff Fo Fb].
  assert (bal h2 = bal h1 - 1) as E2 by (unfold bal, h2; cbn; lia).
  eapply (leave_ok (p :: ps)); [done|exact Hc|by right| |done|..].
  - intros o Ho. rewrite nreplies_cons, decide_False by done. lia.
  - by rewrite Fi.
  - by rewrite Fr.
  - left. by rewrite Fl.
  - rewrite <- Ff in *. cbn in *. lia.
  - by rewrite Fo.
  - rewrite Fb, E2, Eb, nreplies_cons, decide_True by done. fold h. lia.
Qed.

Lemma drain_list_ok ps w : sys_ok_at ps w → sys_ok (drain_list ps w).2.
Proof.
  revert w. induction ps as [|p ps IH]; intros w Hw; cbn [drain_list]; [done|].
  rewrite ST_bind_eq. apply drain_one_ok in Hw. destruct (drain_one p w) as [[] w']. by apply IH.
Qed.

Lemma drain_replies_ok w : sys_ok w → sys_ok (opftp_client_drain_replies w).2.
Proof.
  intros [Wr Wl Wj Wp Wf Wh Wn]. unfold opftp_client_drain_replies. rewrite ST_bind_eq.
  cbn [get_server st_gets]. rewrite ST_bind_eq. unfold mod_server at 1. cbn [st_modify].
  apply drain_list_ok. split; cbn [ss_srv ss_clients ss_jobs ss_fresh].
  - intros id c Hc. rewrite app_nil_r. by apply Wr.
  - exact Wl.
  - exact Wj.
  - intros p. rewrite app_nil_r. apply Wp.
  - exact Wf.
  - intros id c Hc. destruct (Wh id c Hc). by split.
  - exact Wn.
Qed.

Lemma complete_list_ok ids w : sys_ok w → sys_ok (complete_list ids w).2.
Proof.
  revert w. induction ids as [|id ids IH]; intros w Hw; cbn [complete_list]; [done|].
  destruct (ss_jobs w !! id) as [j|] eqn:Ej; [|by apply IH]. apply IH.
  destruct (so_jobs _ _ Hw _ _ Ej) as [c Hc]. eapply focus_books; [done|exact Hc|].
  eapply complete_spec; [by eapply so_hok|]. split; [exact Ej|done].
Qed.

Lemma drain_completions_ok w : sys_ok w → sys_ok (drain_completions w).2.
Proof.
  intros Hw. unfold drain_completions. rewrite ST_bind_eq. cbn [get_server st_gets].
  rewrite ST_bind_eq. unfold mod_server at 1. cbn [st_modify].
  apply complete_list_ok. eapply sys_ok_same; [exact Hw|done..].
Qed.

(** ** New clients *)

Lemma nreplies_zero id ps : (∀ p, p ∈ ps → pr_c p ≠ id) → nreplies id ps = 0.
Proof.
  induction ps as [|p ps IH]; intros Hp; [done|].
  rewrite nreplies_cons, decide_False, IH by set_solver. done.
Qed.

Lemma njobs_zero id jobs : (∀ k j, jobs !! k = Some j → j_client j ≠ id) → njobs id jobs = 0.
Proof.
  intros Hj. unfold njobs, jobs_of. rewrite (proj2 (map_size_empty_iff _)); [done|].
  apply map_empty. intros k. apply map_lookup_filter_None. right. intros j Hk. by apply Hj in Hk.
Qed.

(** A client under a fresh identifier, at the head of the list. *)
Lemma new_client_ok w w' c :
  sys_ok w →
  ss_clients w' = <[ss_fresh w := c]> (ss_clients w) → ss_jobs w' = ss_jobs w →
  ss_fresh w' = Pos.succ (ss_fresh w) → s_clients (ss_srv w') = ss_fresh w :: s_clients (ss_srv w) →
  s_replies (ss_srv w') = s_replies (ss_srv w) → c_refs c = 1 → c_job c = None → sys_ok w'.
Proof.
  intros [Wr Wl Wj Wp Wf Wh Wn] Ec Ej Ef El Er Hc1 Hcj. set (id := ss_fresh w) in *.
  assert (¬ is_Some (ss_clients w !! id)) as Hnew by (intros Hs%Wf; unfold id in Hs; lia).
  assert (∀ k j, ss_jobs w !! k = Some j → j_client j ≠ id) as Hnj.
  { intros k j Hk <-. by apply Hnew, (Wj k). }
  assert (id ∉ s_clients (ss_srv w)) as Hnl by (intros Hin; by apply Hnew, Wl).
  assert (∀ o, is_Some (ss_clients w !! o) → is_Some (ss_clients w' !! o)) as Hdom.
  { intros o [x Ho]. rewrite Ec. destruct (decide (o = id)) as [->|].
    - by rewrite lookup_insert_eq.
    - rewrite lookup_insert_ne by done. by exists x. }
  split.
  - intros o x Ho. rewrite Ec in Ho. rewrite Ej, El, Er. cbn [app].
    apply lookup_insert_Some in Ho as [[<- <-]|[Hne Ho]].
    + rewrite decide_True by set_solver. rewrite njobs_zero, nreplies_zero; [done| |done].
      intros p Hp <-. by apply Hnew, Wp.
    + rewrite (Wr o x Ho). cbn [app].
      destruct (decide (o ∈ s_clients (ss_srv w))) as [Hin|Hin].
      * by rewrite decide_True by set_solver.
      * by rewrite decide_False by set_solver.
  - intros o Ho. rewrite El in Ho. apply elem_of_cons in Ho as [->|Ho]; [|by apply Hdom, Wl].
    rewrite Ec, lookup_insert_eq. done.
  - intros k j Hk. rewrite Ej in Hk. by apply Hdom, (Wj k).
  - intros p Hp. rewrite Er in Hp. by apply Hdom, Wp.
  - intros o [x Ho]. rewrite Ec in Ho. rewrite Ef.
    apply lookup_insert_Some in Ho as [[<- <-]|[Hne Ho]]; [unfold id; lia|].
    specialize (Wf o ltac:(eauto)). lia.
  - intros o x Ho. rewrite Ec in Ho.
    assert (∀ k j, ss_jobs w !! k = Some j → (k < Pos.succ (ss_fresh w))%positive) as Hk.
    { intros k j Hk. destruct (Wj k j Hk) as [y Hy]. apply (hok_fresh _ (Wh _ _ Hy)) in Hk. cbn in Hk. lia. }
    apply lookup_insert_Some in Ho as [[<- <-]|[Hne Ho]].
    + split; unfold mine; cbn; rewrite ?Ej, ?Ef, ?Hcj; try done; intros k j [Hk' Hkc]; by apply Hnj in Hk'.
    + destruct (Wh _ _ Ho) as [H1 H2 H3 H4]. split; unfold mine in *; cbn in *; rewrite ?Ej, ?Ef; done.
  - rewrite El. by constructor.
Qed.

Lemma add_client_ok fd peer w :
  sys_ok w →
  match add_client fd peer w with
  | (Some id, w') => sys_ok w' ∧ is_Some (ss_clients w' !! id)
  | (None, w') => sys_ok w'
  end.
Proof.
  intros Hw. unfold add_client.
  destruct (s_pollset (ss_srv w)) as [pset|]; [|eapply sys_ok_same; [exact Hw|done..]].
  destruct (Pollset.opftp_pollset_add _ _ _ _) as [[hd|] pset'];
    [|eapply sys_ok_same; [exact Hw|done..]].
  split; [|cbn; by rewrite lookup_insert_eq].
  eapply new_client_ok; [exact Hw|done..].
Qed.

Section Steps.
Context (custom : nat → option bytes → HM FS OS ()) (connect_hook disconnect_hook : HM FS OS ()).
Context (Hcustom : ∀ n q, keeps kept (custom n q)) (Hconnect : keeps kept connect_hook)
  (Hdisconnect : keeps kept disconnect_hook).

Lemma focus_kept w id (m : HM FS OS ()) : keeps kept m → sys_ok w → sys_ok (focus id m w).2.
Proof.
  intros Hm Hw. destruct (ss_clients w !! id) as [c|] eqn:Hc.
  - eapply focus_books; [done|exact Hc|]. apply Hm. by eapply so_hok.
  - unfold focus. by rewrite Hc.
Qed.

Lemma kept_greet : keeps kept (greet connect_hook).
Proof.
  unfold greet. keeps_steps ltac:(first [done | apply keeps_same_kept;
    first [apply same_reply | intros h; unfold same; by split_and!]]).
Qed.

Lemma accept_ok f w : sys_ok w → sys_ok (accept_clients connect_hook f w).2.
Proof.
  revert w. induction f as [|f IH]; intros w Hw; cbn [accept_clients]; [done|].
  destruct (sys_accept _ _) as [[[fd peer]|e] os'].
  - assert (sys_ok (w <| ss_os := os' |>)) as Hw1 by (eapply sys_ok_same; [exact Hw|done..]).
    pose proof (add_client_ok fd peer _ Hw1) as Ha.
    destruct (add_client fd peer _) as [[id|] w1]; [|by apply IH].
    apply IH, focus_kept; [apply kept_greet|apply Ha].
  - assert (sys_ok (w <| ss_os := os' |> <| ss_errno := e |>)) by (eapply sys_ok_same; [exact Hw|done..]).
    case_bool_decide; [by apply IH|done].
Qed.

Lemma events_ok id c f ev w :
  sys_ok w → ss_clients w !! id = Some c → id ∈ s_clients (ss_srv w) →
  sys_ok (focus id (handle_client_events custom disconnect_hook f ev) w).2.
Proof.
  intros Hw Hc Hin. pose proof (so_hok _ _ Hw _ _ Hc) as Hh.
  destruct (events_spec custom disconnect_hook Hcustom Hdisconnect f ev (enter id c w) Hh Hin);
    [by eapply focus_books|by eapply focus_left].
Qed.

(** ** Workers *)

Lemma update_job_ok w w' k j j' :
  sys_ok w → ss_jobs w !! k = Some j →
  j_client j' = j_client j → j_generation j' = j_generation j →
  ss_jobs w' = <[k := j']> (ss_jobs w) → ss_clients w' = ss_clients w → ss_fresh w' = ss_fresh w →
  s_clients (ss_srv w') = s_clients (ss_srv w) → s_replies (ss_srv w') = s_replies (ss_srv w) →
  sys_ok w'.
Proof.
  intros Hw Hk Ec Eg Ej Ecl Ef El Er. destruct (so_jobs _ _ Hw _ _ Hk) as [c Hc].
  pose proof (own_update (enter (j_client j) c w) k j j' (conj Hk eq_refl) Ec Eg (so_hok _ _ Hw _ _ Hc))
    as [Hh Bi Br Bl Bf Bo Bb].
  eapply (leave_ok []) in Hw as Hw'; [|exact Hc|done|done|exact Hh|done|done|by left|done|done|by rewrite Bb].
  eapply sys_ok_same; [exact Hw'|..]; cbn; try done. by rewrite Ecl, insert_id.
Qed.

Lemma run_job_ok cancel e f id w : sys_ok w → sys_ok (run_job cancel e f id w).2.
Proof.
  intros Hw. unfold run_job. destruct (ss_jobs w !! id) as [j|] eqn:Ej; [|done].
  destruct (s_fs (ss_srv w)) as [r|]; [|done].
  set (t0 := mk_tstate j (ss_fs w) e (ss_os w) 0 0).
  pose proof (own_run (ss_srv w) r cancel f t0) as [Hc Hg].
  destruct (opftp_transfer_run _ _ _ _ t0) as [ok t]. cbn [snd] in *.
  assert (sys_ok (w <| ss_jobs := <[id := t_job t]> (ss_jobs w) |> <| ss_fs := t_fs t |>
                    <| ss_os := t_os t |>)) as Hw1.
  { eapply update_job_ok; [exact Hw|exact Ej|exact Hc|exact Hg|done..]. }
  destruct ok; [|done]. cbn [snd post_completion]. eapply sys_ok_same; [exact Hw1|done..].
Qed.

Lemma worker_ok cancel e f w : sys_ok w → sys_ok (worker_step cancel e f w).2.
Proof.
  intros Hw. unfold worker_step. destruct (Queue.worker_take _) as [[id|] q].
  - assert (sys_ok (w <| ss_srv := ss_srv w <| s_queue := q |> |>)) as Hw1
      by (eapply sys_ok_same; [exact Hw|done..]).
    pose proof (run_job_ok cancel e f id _ Hw1) as Hr.
    by destruct (run_job cancel e f id _).
  - case_match; [done|]. eapply sys_ok_same; [exact Hw|done..].
Qed.

(** A worker queues a reply, with a reference of its own. *)
Lemma queue_reply_ok id c text w :
  sys_ok w → ss_clients w !! id = Some c →
  let '(c', s', os') := queue_reply id c text (ss_srv w) (ss_os w) in
  sys_ok (w <| ss_clients := <[id := c']> (ss_clients w) |> <| ss_srv := s' |> <| ss_os := os' |>).
Proof.
  intros [Wr Wl Wj Wp Wf Wh Wn] Hc. cbn [queue_reply].
  set (w' := w <| ss_clients := _ |> <| ss_srv := _ |> <| ss_os := _ |>).
  assert (∀ o, is_Some (ss_clients w' !! o) ↔ is_Some (ss_clients w !! o)) as Hdom.
  { intros o. unfold w'. cbn. destruct (decide (o = id)) as [->|].
    - rewrite lookup_insert_eq, Hc. done.
    - by rewrite lookup_insert_ne. }
  split; [| |intros k j Hk; by apply Hdom, (Wj k)| |intros o Ho; by apply Wf, Hdom| |done].
  - intros o x Ho. change (ss_clients w') with (<[id := opftp_client_retain c]> (ss_clients w)) in Ho.
    change (s_replies (ss_srv w')) with
      (s_replies (ss_srv w) ++ [mk_pending id (c_generation c) text]).
    change (s_clients (ss_srv w')) with (s_clients (ss_srv w)). change (ss_jobs w') with (ss_jobs w).
    cbn [app]. rewrite nreplies_app, nreplies_cons. change (nreplies o []) with 0. cbn [pr_c].
    apply lookup_insert_Some in Ho as [[<- <-]|[Hne Ho]].
    + rewrite (decide_True (P := id = id)) by done. pose proof (Wr _ _ Hc) as E. cbn [app] in E.
      change (c_refs (opftp_client_retain c)) with (c_refs c + 1). lia.
    + rewrite (decide_False (P := id = o)) by done. pose proof (Wr _ _ Ho) as E. cbn [app] in E. lia.
  - intros o Ho. by apply Hdom, Wl.
  - intros p Hp. apply Hdom. unfold w' in Hp. cbn in Hp. apply elem_of_app in Hp as [Hp|Hp]; [by apply Wp|].
    apply list_elem_of_singleton in Hp as ->. cbn. by rewrite Hc.
  - intros o x Ho. unfold w' in *. cbn in *. apply lookup_insert_Some in Ho as [[<- <-]|[Hne Ho]].
    + destruct (Wh _ _ Hc) as [H1 H2 H3 H4]. by split.
    + destruct (Wh _ _ Ho) as [H1 H2 H3 H4]. by split.
Qed.

(** ** Steps *)

Inductive sys_step : sst → sst → Prop :=
  | step_event id c f ev w :
     ss_clients w !! id = Some c → id ∈ s_clients (ss_srv w) →
     sys_step w (focus id (handle_client_events custom disconnect_hook f ev) w).2
  | step_accept f w : sys_step w (accept_clients connect_hook f w).2
  | step_wait w : sys_step w (wait_pollset w).2
  | step_replies w : sys_step w (opftp_client_drain_replies w).2
  | step_completions w : sys_step w (drain_completions w).2
  | step_root w : sys_step w (apply_root_change w).2
  | step_snapshot w : sys_step w (snapshot_refresh w).2
  | step_worker cancel e f w : sys_step w (worker_step cancel e f w).2
  | step_queue_reply id c text w c' s' os' :
     ss_clients w !! id = Some c → queue_reply id c text (ss_srv w) (ss_os w) = (c', s', os') →
     sys_step w (w <| ss_clients := <[id := c']> (ss_clients w) |> <| ss_srv := s' |> <| ss_os := os' |>).

Lemma step_ok w w' : sys_step w w' → sys_ok w → sys_ok w'.
Proof.
  intros Hs Hw. destruct Hs as [id c f ev w Hc Hin|f w|w|w|w|w|w|cancel e f w|id c text w c' s' os' Hc Hq].
  - by eapply events_ok.
  - by apply accept_ok.
  - unfold wait_pollset. repeat case_match; (eapply sys_ok_same; [exact Hw|done..]).
  - by apply drain_replies_ok.
  - by apply drain_completions_ok.
  - unfold apply_root_change, mod_server, st_modify. cbn.
    eapply sys_ok_same; [exact Hw|..]; cbn; repeat case_match; done.
  - unfold snapshot_refresh. eapply sys_ok_same; [exact Hw|done..].
  - by apply worker_ok.
  - pose proof (queue_reply_ok id c text w Hw Hc) as Hk. by rewrite Hq in Hk.
Qed.

(** C6. Reference counts are exact in every reachable state, however the
    reactor and the workers interleave: a client's count is one for the
    reactor's list plus one for each of its jobs plus one for each reply a
    worker queued for it. So a client is freed exactly when nothing refers to
    it; besides, a client has at most one job of its current generation, the
    one in [c->job], and every job and queued reply names a client that
    exists. *)
Theorem refs_exact w w' : sys_ok w → rtc sys_step w w' → sys_ok w'.
Proof. intros Hw Hs. induction Hs as [|w1 w2 w3 H12 _ IH]; [done|]. by apply IH, (step_ok w1). Qed.

End Steps.
End Invariant.

Lemma reactor_clients input :
  ss_clients (Scenario.reactor (B "/srv") input) = {[ 1%positive := Scenario.client true ]}.
Proof. reflexivity. Qed.

Lemma reactor_jobs input : ss_jobs (Scenario.reactor (B "/srv") input) = ∅.
Proof. reflexivity. Qed.

Lemma reactor_list input : s_clients (ss_srv (Scenario.reactor (B "/srv") input)) = [1%positive].
Proof. vm_compute. reflexivity. Qed.

Lemma reactor_replies input : s_replies (ss_srv (Scenario.reactor (B "/srv") input)) = [].
Proof. vm_compute. reflexivity. Qed.

Lemma reactor_ok input : sys_ok (Scenario.reactor (B "/srv") input).
Proof.
  split; rewrite ?reactor_replies, ?reactor_list, ?reactor_jobs, ?reactor_clients.
  - intros id c [<- <-]%lookup_singleton_Some. vm_compute. reflexivity.
  - intros id Hid. apply list_elem_of_singleton in Hid as ->. by apply lookup_singleton_is_Some.
  - intros k j Hk. by apply lookup_empty_Some in Hk.
  - intros p Hp. by apply elem_of_nil in Hp.
  - intros id [c [<- _]%lookup_singleton_Some]. vm_compute. reflexivity.
  - intros id c [<- <-]%lookup_singleton_Some.
    split; unfold mine; cbn [enter Scenario.reactor h_jobs h_cl ss_jobs c_job Scenario.client];
      [intros k j Hk|intros k Hk|intros k j [Hk _]|intros k j [Hk _]]; try done;
      by apply lookup_empty_Some in Hk.
  - apply NoDup_singleton.
Qed.

Lemma refs_exact_witness :
  let w := Scenario.reactor (B "/srv") [B "CPFR f" ++ CRLF ++ B "CPTO a/g" ++ CRLF] in
  let w1 := (focus 1%positive (handle_client_events Scenario.no_custom Scenario.no_hook 5 POLLIN) w).2 in
  let w2 := (worker_step (λ _, false) E0 100 w1).2 in
  sys_ok (drain_completions w2).2.
Proof.
  intros w w1 w2.
  refine (refs_exact Scenario.no_custom Scenario.no_hook Scenario.no_hook _ _ _ w _ (reactor_ok _) _).
  - intros n q. apply keeps_same_kept, same_reply.
  - intros h. reflexivity.
  - intros h. reflexivity.
  - eapply rtc_l; [|eapply rtc_l; [|apply rtc_once]].
    + apply (step_event _ _ _ 1%positive (Scenario.client true)); [reflexivity|].
      apply list_elem_of_singleton. reflexivity.
    + apply step_worker.
    + apply step_completions.
Defined.

End System.
