(* ===== verification/Threads.v ===== *)
(** * src/thread.c and legacy/src/sys.thread.c: threads and locks

    Mutexes, condition variables and threads are blocks of memory around
    objects of the kernel. The model is the memory they live in: which blocks
    are allocated, what was set up in them, and which threads still own their
    start arguments. An operation is [None] when the code touches memory that
    is not allocated, uses an object that was never set up, or waits for
    something that does not come. Allocation and the calls of the kernel may
    fail: [fails] says which of the next ones do. *)

From S2P Require Import Prelude.

Local Open Scope Z_scope.

Module Threads.

(** ** Memory *)

Inductive obj :=
  | Mutex (ready : bool) | Cond (ready : bool)
  | Handle (t : option nat)                      (* struct opftp_thread *)
  | Args (fn arg : nat)                          (* struct start_args, struct _sys_thread_data *)
  | Tids (l : list (option nat))                 (* an array of threads *)
  | Pool (threads mutex cond_job cond_get : option nat) (num_threads : Z).

Record sys := mk_sys {
  heap : gmap nat obj;
  next : nat;
  fails : list bool;
  live : gmap nat nat      (* the threads that run, with their start arguments *)
}.
#[export] Instance sys_settable : Settable sys := λ x, mk_sys (heap x) (next x) (fails x) (live x).

Definition M (A : Type) : Type := sys → option (A * sys).
#[export] Instance M_ret : MRet M := λ A (a : A) (s : sys), Some (a, s).
#[export] Instance M_bind : MBind M := λ A B0 (f : A → M B0) (m : M A) (s : sys), match m s with Some (a, s) => f a s | None => None end.
Definition stuck {A} : M A := λ (_ : sys), None.

(** Whether the next call fails. *)
Definition fail_next : M bool := λ (s : sys), Some (hd false (fails s), s <| fails := tail (fails s) |>).
(** A call of the kernel: 0, or an error. *)
Definition kcall : M Z := f ← fail_next; mret (if (f : bool) then 1 else 0).

Definition malloc (o : obj) : M (option nat) :=
  f ← fail_next;
  if (f : bool) then mret None
  else λ (s : sys), Some (Some (next s), s <| heap := <[next s := o]> (heap s) |> <| next := S (next s) |>).
Definition free (p : option nat) : M () :=
  match p with
  | None => mret ()
  | Some a => λ (s : sys), match heap s !! a with Some _ => Some ((), s <| heap := delete a (heap s) |>) | None => None end
  end.
Definition deref (a : nat) : M obj := λ (s : sys), o ← heap s !! a; Some (o, s).
Definition store (a : nat) (o : obj) : M () := λ (s : sys), _ ← heap s !! a; Some ((), s <| heap := <[a := o]> (heap s) |>).

(** An object that is set up. *)
Definition ready (a : nat) : M () :=
  o ← deref a;
  match o with Mutex true | Cond true => mret () | _ => stuck end.

(** ** src/thread.c on the host *)

Definition opftp_mutex_create : M (option nat) :=
  m ← malloc (Mutex false);
  match m with
  | Some a => rc ← kcall; _ ← store a (Mutex (rc =? 0)); mret (Some a)
  | None => mret None
  end.
Definition opftp_mutex_lock (m : nat) : M Z := _ ← ready m; kcall.
Definition opftp_mutex_unlock (m : nat) : M Z := _ ← ready m; kcall.
Definition opftp_mutex_destroy (m : option nat) : M Z :=
  match m with
  | None => mret (-1)
  | Some a => _ ← ready a; r ← kcall; _ ← free (Some a); mret r
  end.

Definition opftp_cond_create (m : option nat) : M (option nat) :=
  c ← malloc (Cond false);
  match c with
  | Some a => rc ← kcall; _ ← store a (Cond (rc =? 0)); mret (Some a)
  | None => mret None
  end.
Definition opftp_cond_wait (c m : nat) : M Z := _ ← ready c; _ ← ready m; kcall.
Definition opftp_cond_signal (c : nat) : M Z := _ ← ready c; kcall.
Definition opftp_cond_broadcast (c : nat) : M Z := _ ← ready c; kcall.
Definition opftp_cond_destroy (c : option nat) : M Z :=
  match c with
  | None => mret (-1)
  | Some a => _ ← ready a; r ← kcall; _ ← free (Some a); mret r
  end.

(** A new thread with its start arguments. *)
Definition spawn (w sa : nat) : M () := λ (s : sys),
  Some ((), s <| heap := <[w := Handle (Some (next s))]> (heap s) |> <| live := <[next s := sa]> (live s) |> <| next := S (next s) |>).

Definition opftp_thread_create (fn arg : nat) : M (option nat) :=
  wt ← malloc (Handle None);
  sa ← malloc (Args fn arg);
  match wt, sa with
  | Some w, Some a =>
     rc ← kcall;
     if rc =? 0 then _ ← spawn w a; mret (Some w)
     else _ ← free (Some w); _ ← free (Some a); mret None
  | _, _ => _ ← free wt; _ ← free sa; mret None
  end.

(** The arguments of a thread, and its end. *)
Definition arguments (t : nat) : M nat := λ (s : sys), sa ← live s !! t; Some (sa, s).
Definition ended (t : nat) : M () := λ (s : sys), Some ((), s <| live := delete t (live s) |>).

(** [opftp_thread_entry] of thread [t]: the function runs, then the arguments
    go; the answer is what was run. *)
Definition opftp_thread_entry (t : nat) : M (nat * nat) :=
  sa ← arguments t;
  o ← deref sa;
  match o with
  | Args fn arg => _ ← free (Some sa); _ ← ended t; mret (fn, arg)
  | _ => stuck
  end.

(** The end of the thread is waited for. *)
Definition finished (t : option nat) : M () := λ (s : sys),
  match t with
  | Some t => match live s !! t with None => Some ((), s) | Some _ => None end
  | None => None
  end.
Definition opftp_thread_join (t : option nat) : M () :=
  match t with
  | None => mret ()
  | Some a => o ← deref a; match o with Handle t => finished t | _ => stuck end
  end.
Definition opftp_thread_destroy (t : option nat) : M () := free t.

Definition opftp_tid_eq (a b : Z) : bool := a =? b.

(** ** src/thread.c on the console: a failure of the kernel is checked *)

Definition ps3_mutex_create : M (option nat) :=
  m ← malloc (Mutex false);
  match m with
  | Some a => rc ← kcall; if rc =? 0 then _ ← store a (Mutex true); mret (Some a) else _ ← free (Some a); mret None
  | None => mret None
  end.
(** The mutex is bound when the variable is made. *)
Definition ps3_cond_create (m : option nat) : M (option nat) :=
  match m with
  | None => mret None
  | Some m =>
     c ← malloc (Cond false);
     match c with
     | Some a => _ ← ready m; rc ← kcall; if rc =? 0 then _ ← store a (Cond true); mret (Some a) else _ ← free (Some a); mret None
     | None => mret None
     end
  end.
Definition ps3_cond_wait (c m : nat) : M Z := _ ← ready c; kcall.
(** The rest is the same code around the calls of the console. *)
Definition ps3_mutex_destroy : option nat → M Z := opftp_mutex_destroy.
Definition ps3_cond_destroy : option nat → M Z := opftp_cond_destroy.
Definition ps3_thread_entry : nat → M (nat * nat) := opftp_thread_entry.
Definition ps3_thread_create : nat → nat → M (option nat) := opftp_thread_create.
Definition ps3_thread_join : option nat → M () := opftp_thread_join.

(** ** legacy/src/sys.thread.c *)

(** An array of one object, as the callers allocate them. *)
Definition sys_thread_mutex_alloc : M (option nat) := malloc (Mutex false).
Definition sys_thread_mutex_create (m : nat) : M Z := _ ← deref m; rc ← kcall; _ ← store m (Mutex (rc =? 0)); mret rc.
Definition sys_thread_mutex_lock (m : nat) : M Z := _ ← ready m; kcall.
Definition sys_thread_mutex_trylock (m : nat) : M Z := _ ← ready m; kcall.
Definition sys_thread_mutex_unlock (m : nat) : M Z := _ ← ready m; kcall.
Definition sys_thread_mutex_destroy (m : nat) : M Z := _ ← ready m; kcall.
Definition sys_thread_mutex_free (m : nat) : M () := free (Some m).
Definition sys_thread_cond_alloc : M (option nat) := malloc (Cond false).
Definition sys_thread_cond_create (c m : nat) : M Z := _ ← deref c; rc ← kcall; _ ← store c (Cond (rc =? 0)); mret rc.
Definition sys_thread_cond_wait (c m : nat) : M Z := _ ← ready c; _ ← ready m; kcall.
Definition sys_thread_cond_signal (c : nat) : M Z := _ ← ready c; kcall.
Definition sys_thread_cond_broadcast (c : nat) : M Z := _ ← ready c; kcall.
Definition sys_thread_cond_destroy (c : nat) : M Z := _ ← ready c; kcall.
Definition sys_thread_cond_free (c : nat) : M () := free (Some c).
Definition sys_thread_alloc (num : Z) : M (option nat) := malloc (Tids (replicate (Z.to_nat num) None)).
Definition sys_thread_free (p : nat) : M () := free (Some p).

(** A new thread in entry [i] of the array [p]. *)
Definition spawn_at (p i sa : nat) (l : list (option nat)) : M () := λ (s : sys),
  Some ((), s <| heap := <[p := Tids (<[i := Some (next s)]> l)]> (heap s) |> <| live := <[next s := sa]> (live s) |> <| next := S (next s) |>).

(** [sys_thread_create2] on the host: entry [i] of the array. The data is
    written through without a test, and stays when there is no thread. *)
Definition sys_thread_create2 (p i fn arg : nat) : M Z :=
  o ← deref p;
  match o with
  | Tids l =>
     data ← malloc (Args fn arg);
     match data with
     | None => stuck
     | Some a => rc ← kcall; if rc =? 0 then _ ← spawn_at p i a l; mret rc else mret rc
     end
  | _ => stuck
  end.

(** [_sys_thread]: the data goes first. *)
Definition sys_thread_entry (t : nat) : M (nat * nat) := opftp_thread_entry t.

(** [sys_thread_join2]: on the console the pointer for the result is followed. *)
Definition sys_thread_join2 (console : bool) (p i : nat) (ptr_retval : option nat) : M () :=
  o ← deref p;
  match o with
  | Tids l =>
     match (console : bool), ptr_retval with
     | true, None => stuck
     | true, Some r => _ ← deref r; finished (default None (l !! i))
     | false, _ => finished (default None (l !! i))
     end
  | _ => stuck
  end.

(** The deadline of [sys_thread_cond_timedwait] on the host, as seconds and
    nanoseconds; [/] and [%] of C. *)
Definition deadline (tv_sec tv_nsec timeout_ms : Z) : Z * Z :=
  let sec := tv_sec + Z.quot timeout_ms 1000 in
  let nsec := tv_nsec + Z.rem timeout_ms 1000 * 1000000 in
  if 1000000000 <=? nsec then (sec + 1, nsec - 1000000000) else (sec, nsec).
(** The wait, and the time it is given to the kernel as. *)
Definition sys_thread_cond_timedwait (c m : nat) (tv_sec tv_nsec timeout_ms : Z) : M (Z * (Z * Z)) :=
  _ ← ready c; _ ← ready m; rc ← kcall; mret (rc, deadline tv_sec tv_nsec timeout_ms).

(** ** legacy/src/thread.c: the resources of a pool *)

Definition opt_destroy (p : option nat) (destroy : nat → M Z) (release : nat → M ()) : M () :=
  match p with Some a => _ ← destroy a; release a | None => mret () end.

Definition threadpool_destroy (p : nat) : M () :=
  o ← deref p;
  match o with
  | Pool threads mutex cond_job cond_get _ =>
     _ ← (match threads with Some a => sys_thread_free a | None => mret () end);
     _ ← opt_destroy mutex sys_thread_mutex_destroy sys_thread_mutex_free;
     _ ← opt_destroy cond_job sys_thread_cond_destroy sys_thread_cond_free;
     _ ← opt_destroy cond_get sys_thread_cond_destroy sys_thread_cond_free;
     free (Some p)
  | _ => stuck
  end.

(** The tests of [threadpool_create] after the allocations, in order: whether
    everything is there and set up. *)
Definition pool_setup (threads mutex cond_job cond_get : option nat) : M bool :=
  match threads, mutex, cond_job, cond_get with
  | Some _, Some m, Some j, Some g =>
     rc ← sys_thread_mutex_create m;
     if negb (rc =? 0) then mret false
     else
       rc ← sys_thread_cond_create j m;
       if negb (rc =? 0) then mret false
       else rc ← sys_thread_cond_create g m; mret (rc =? 0)
  | _, _, _, _ => mret false
  end.

Definition threadpool_create (num_threads : Z) : M (option nat) :=
  if 0 <? num_threads then
    pool ← malloc (Pool None None None None 0);
    match pool with
    | None => mret None
    | Some p =>
       threads ← sys_thread_alloc num_threads;
       mutex ← sys_thread_mutex_alloc;
       cond_job ← sys_thread_cond_alloc;
       cond_get ← sys_thread_cond_alloc;
       _ ← store p (Pool threads mutex cond_job cond_get num_threads);
       b ← pool_setup threads mutex cond_job cond_get;
       if (b : bool) then mret (Some p) else _ ← threadpool_destroy p; mret None
    end
  else mret None.

(** The waits of [threadpool_stop]. *)
Fixpoint join_all (console : bool) (p : nat) (idx : list nat) : M () :=
  match idx with
  | [] => mret ()
  | i :: idx' => _ ← sys_thread_join2 console p i None; join_all console p idx'
  end.


(** ** Nothing is lost and nothing is freed twice *)

(** Addresses from [next] on are not in use. *)
Definition fresh (s : sys) : Prop := ∀ a, (next s ≤ a)%nat → heap s !! a = None.

(** Runs the primitives; looks up what was stored. *)
Ltac run :=
  repeat (progress (cbv [mbind M_bind mret M_ret kcall fail_next malloc free deref store ready stuck spawn arguments ended finished spawn_at option_bind
    opftp_thread_entry opftp_thread_join opftp_thread_destroy sys_thread_free sys_thread_mutex_free sys_thread_cond_free]; cbn) ||
    first [rewrite lookup_insert_eq|rewrite lookup_insert_ne by lia|rewrite lookup_delete_eq|rewrite lookup_delete_ne by lia]).

(** Two heaps that differ in nothing but what was taken and given back. *)
Ltac same_heap Hf := apply map_eq; let k := fresh "k" in intros k;
  repeat (rewrite lookup_delete || rewrite lookup_insert); repeat (case_decide; subst); rewrite ?(Hf _) by lia; done.

(** A thread that was made runs its function once with its argument; when it
    has been joined and destroyed, memory is what it was before. When none
    could be made, memory is what it was. *)
Theorem thread_life fn arg s : fresh s →
  match opftp_thread_create fn arg s with
  | Some (Some w, s1) => ∃ t s2, heap s1 !! w = Some (Handle (Some t)) ∧
      (r ← opftp_thread_entry t; _ ← opftp_thread_join (Some w); _ ← opftp_thread_destroy (Some w); mret r) s1 = Some ((fn, arg), s2) ∧
      heap s2 = heap s
  | Some (None, s1) => heap s1 = heap s
  | None => False
  end.
Proof.
  intros Hf. unfold opftp_thread_create. run.
  destruct (hd false (fails s)); run; (destruct (hd false (tail (fails s))); run; [try done|]).
  - same_heap Hf.
  - same_heap Hf.
  - destruct (hd false _); run; [same_heap Hf|]. eexists _, _. run. split; [done|]. run. split; [done|]. cbn. same_heap Hf.
Qed.

(** On the console a mutex, and a condition variable bound to it, that was
    handed out can be used and destroyed, and memory is what it was. *)
Theorem ps3_mutex_life s : fresh s →
  match ps3_mutex_create s with
  | Some (Some m, s1) => ∃ rc rc' s2 s3, opftp_mutex_lock m s1 = Some (rc, s2) ∧ opftp_mutex_destroy (Some m) s2 = Some (rc', s3) ∧ heap s3 = heap s
  | Some (None, s1) => heap s1 = heap s
  | None => False
  end.
Proof.
  intros Hf. unfold ps3_mutex_create, opftp_mutex_lock, opftp_mutex_destroy. run. destruct (hd false (fails s)); run; [done|].
  destruct (hd false (tail (fails s))); run; [same_heap Hf|]. eexists _, _, _, _. run. split; [done|]. run. split; [done|]. cbn. same_heap Hf.
Qed.

(** A pool that was made can be released: every one of its five blocks goes,
    once. *)
Theorem pool_life n s : fresh s →
  match threadpool_create n s with
  | Some (Some p, s1) => ∃ s2, threadpool_destroy p s1 = Some ((), s2) ∧ heap s2 = heap s
  | _ => True
  end.
Proof.
  intros Hf. unfold threadpool_create. destruct (0 <? n); [|done].
  unfold sys_thread_alloc, sys_thread_mutex_alloc, sys_thread_cond_alloc. run. destruct (hd false _); run; [done|].
  do 4 (destruct (hd false _); run; [by repeat case_match|]). unfold sys_thread_mutex_create, sys_thread_cond_create. run.
  do 3 (destruct (hd false _); run; [by repeat case_match|]). unfold threadpool_destroy. run.
  unfold opt_destroy, sys_thread_mutex_destroy, sys_thread_cond_destroy. run. eexists. split; [done|]. cbn. same_heap Hf.
Qed.

(** ** What goes wrong in the legacy layer *)

Definition sys0 (f : list bool) : sys := mk_sys ∅ 0 f ∅.

(** No memory for a condition variable: the mutex that was never set up is
    destroyed. *)
Example pool_half_made : threadpool_create 2 (sys0 [false; false; false; true]) = None.
Proof. vm_compute. reflexivity. Qed.

(** No kernel object for the mutex: it is destroyed all the same. *)
Example pool_no_mutex : threadpool_create 2 (sys0 [false; false; false; false; false; true]) = None.
Proof. vm_compute. reflexivity. Qed.

(** A thread that could not be made leaves its data behind. *)
Theorem legacy_create_leaks p i fn arg l s : fresh s → heap s !! p = Some (Tids l) →
  hd false (fails s) = false → hd false (tail (fails s)) = true →
  ∃ s', sys_thread_create2 p i fn arg s = Some (1, s') ∧ heap s' = <[next s := Args fn arg]> (heap s) ∧ live s' = live s.
Proof.
  intros Hf Hp H1 H2. unfold sys_thread_create2. run. rewrite Hp. run. rewrite H1. run. rewrite H2. run. by eexists.
Qed.

(** On the console, stopping a pool with a thread follows a null pointer. *)
Theorem console_join_crashes p i idx s : join_all true p (i :: idx) s = None.
Proof. cbn [join_all]. unfold sys_thread_join2. run. destruct (heap s !! p) as [[]|]; done. Qed.

(** The deadline of a timed wait: [timeout_ms] after now, in normal form; a
    negative timeout can leave it out of form. *)
Theorem deadline_exact tv_sec tv_nsec timeout_ms :
  0 ≤ tv_nsec < 1000000000 → 0 ≤ timeout_ms →
  let '(s, n) := deadline tv_sec tv_nsec timeout_ms in
  0 ≤ n < 1000000000 ∧ s * 1000000000 + n = tv_sec * 1000000000 + tv_nsec + timeout_ms * 1000000.
Proof.
  intros Hn Ht. unfold deadline. cbn zeta. pose proof (Z.quot_rem' timeout_ms 1000). pose proof (Z.rem_bound_pos timeout_ms 1000 Ht).
  destruct (Z.leb_spec 1000000000 (tv_nsec + Z.rem timeout_ms 1000 * 1000000)); lia.
Qed.

Example negative_deadline : deadline 10 0 (-1) = (10, -1000000).
Proof. reflexivity. Qed.
End Threads.
