(* ===== verification/Apps.v ===== *)
(** * plugin/main.c, app/main.c, app/tui_main.c, app/log.c: the programs

    What the programs do around the server: they configure one, start it, run
    a screen or the web console beside it, stop it and release it. A program
    is the sequence of its calls, in order; what a call answers is an
    argument. The configuration is that of [Server]. *)

From S2P Require Import Prelude CLib World Resolve Server.
Import CLib Server.

Local Open Scope Z_scope.

Module Apps.

(** ** The calls *)

Inductive api :=
  | A_create | A_start | A_stop | A_destroy            (* opftp_server_* *)
  | A_httpd_create (port : Z) | A_httpd_destroy        (* opftp_httpd_* *)
  | A_screen                                           (* opftp_osd_run, opftp_tui_run *)
  | A_log_open | A_log_close
  | A_say (s : bytes).                                 (* the notification, printf, the log *)

(** What is held after some calls; [None] when something is used that is not
    there: the web console and the screen use the server. A stop that times
    out leaves the server running, and a server that still runs is released
    only if the stop that comes with it succeeds. *)
Record held := mk_held { h_server : bool; h_running : bool; h_httpd : bool }.
#[export] Instance held_settable : Settable held := λ x, mk_held (h_server x) (h_running x) (h_httpd x).
Definition held0 : held := mk_held false false false.

Definition use (ok : bool) (a : api) (h : held) : option held :=
  match a with
  | A_create => if h_server h then None else Some (h <| h_server := ok |>)
  | A_start => if h_server h && negb (h_running h) then Some (h <| h_running := ok |>) else None
  | A_stop => if h_server h then Some (h <| h_running := h_running h && negb ok |>) else None
  | A_destroy =>
     if h_server h && negb (h_httpd h)
     then Some (if h_running h && negb ok then h else h <| h_server := false |> <| h_running := false |>) else None
  | A_httpd_create _ => if h_server h && negb (h_httpd h) then Some (h <| h_httpd := ok |>) else None
  | A_httpd_destroy => if h_httpd h then Some (h <| h_httpd := false |>) else None
  | A_screen => if h_running h then Some h else None
  | _ => Some h
  end.

(** A list of calls with their answers. *)
Fixpoint used (l : list (api * bool)) (h : held) : option held :=
  match l with [] => Some h | (a, ok) :: l' => h ← use ok a h; used l' h end.

(** ** plugin/main.c *)

(** [g_server] and [g_httpd]: whether they are set. *)
Record plugin := mk_plugin { g_server : bool; g_httpd : bool }.

(** What the entry points answer. *)
Inductive prx := SYS_PRX_RESIDENT | SYS_PRX_NO_RESIDENT.

Definition plugin_config (s : opftp_server) : opftp_server :=
  opftp_server_set_v4only true (opftp_server_set_workers 2 (opftp_server_set_root (B "/") (opftp_server_set_port 2121 s))).

(** [notify] tells whether the function of the shell was found; the other
    arguments are the answers of create, start and [opftp_httpd_create]. *)
Definition openps3ftp_module_start (notify create start httpd : bool) : prx * plugin * list (api * bool) :=
  let say s : list (api * bool) := if notify then [(A_say s, true)] else [] in
  let t := say (B "OpenPS3FTP starting...") ++ [(A_create, create)] in
  if negb create then (SYS_PRX_NO_RESIDENT, mk_plugin false false, t)
  else
    let t := t ++ [(A_start, start)] in
    if negb start then (SYS_PRX_NO_RESIDENT, mk_plugin false false, t ++ [(A_destroy, true)])
    else
      (SYS_PRX_RESIDENT, mk_plugin true httpd,
       t ++ [(A_httpd_create 8080, httpd)] ++ say (B "OpenPS3FTP: listening on 2121, web UI on 8080")).

Definition openps3ftp_module_stop (stopped destroyed : bool) (p : plugin) : plugin * list (api * bool) :=
  (mk_plugin false false,
   (if g_httpd p then [(A_httpd_destroy, true)] else []) ++
   (if g_server p then [(A_stop, stopped); (A_destroy, destroyed)] else [])).

(** Whatever fails, starting and stopping the plugin is in order: the web
    console goes before the server it serves, a plugin that does not stay
    resident holds nothing, and in the end nothing is held, unless the server
    could not be stopped twice: then it goes on running and the plugin has
    forgotten it. *)
Theorem plugin_balanced notify create start httpd stopped destroyed :
  let '(rc, p, t) := openps3ftp_module_start notify create start httpd in
  let '(p', t') := openps3ftp_module_stop stopped destroyed p in
  let lost := g_server p && negb stopped && negb destroyed in
  used t held0 = Some (mk_held (g_server p) (g_server p) (g_httpd p)) ∧
  (rc = SYS_PRX_NO_RESIDENT → g_server p = false) ∧
  used (t ++ t') held0 = Some (mk_held lost lost false).
Proof. by destruct notify, create, start, httpd, stopped, destroyed; vm_compute. Qed.

(** Without a web console the notification promises one all the same. *)
Example promises_web_console :
  (A_say (B "OpenPS3FTP: listening on 2121, web UI on 8080"), true) ∈ (openps3ftp_module_start true true true false).2.
Proof. apply list_elem_of_In. vm_compute. repeat first [left; reflexivity|right]. Qed.

(** ** app/tui_main.c *)

(** The configuration of the command line. *)
Definition tui_root (argv : list bytes) : bytes := default (B "/") (argv !! 1%nat).
Definition tui_port (argv : list bytes) : Z := match argv !! 2%nat with Some s => atoi s | None => 2121 end.
Definition tui_config (argv : list bytes) (s : opftp_server) : opftp_server :=
  opftp_server_set_allow_stop true (opftp_server_set_workers 2
    (opftp_server_set_root (tui_root argv) (opftp_server_set_port (u16 (tui_port argv)) s))).

(** [main] of the terminal program: its result and its calls; [rc] is what
    starting answers, [bound] the port. *)
Definition START_FAILED (rc : Z) : bytes := B "OpenPS3FTP: start failed (" ++ fmt_d rc ++ B ")".
Definition tui_main (create : bool) (rc bound : Z) : Z * list (api * bool) :=
  if negb create then (1, [(A_create, false); (A_say (B "OpenPS3FTP: create failed"), true)])
  else if negb (rc =? 0) then (1, [(A_create, true); (A_start, false); (A_say (START_FAILED rc), true)])
  else (0, [(A_create, true); (A_start, true); (A_say (B "OpenPS3FTP: listening on port " ++ fmt_u bound), true);
            (A_screen, true); (A_stop, true); (A_destroy, true)]).

(** The program ends with nothing held, except that a server that could not be
    started is not released. *)
Theorem tui_main_balanced create rc bound :
  used (snd (tui_main create rc bound)) held0 = Some (mk_held (create && negb (rc =? 0)) false false).
Proof. unfold tui_main. by destruct create, (rc =? 0). Qed.

(** The root of the command line is served when it is absolute and fits;
    a relative one is ignored, and the whole filesystem is served. *)
Theorem tui_root_served argv : (length (tui_root argv) < Resolve.OPFTP_MAX_PATH)%nat →
  s_root (tui_config argv (opftp_server_create None false true)) =
    (if bool_decide (head (tui_root argv) = Some SLASH) then tui_root argv else B "/") ∧
  s_port (tui_config argv (opftp_server_create None false true)) = u16 (tui_port argv).
Proof.
  intros Hl. unfold tui_config, opftp_server_set_root. cbn [andb Z.ltb Z.leb].
  assert (u16 (u16 (tui_port argv)) = u16 (tui_port argv)) as E by (unfold u16; apply Z.mod_mod; lia).
  case_bool_decide; cbn -[bprintf u16]; rewrite E; [by rewrite bprintf_short|done].
Qed.

Example relative_root_serves_everything :
  s_root (tui_config [B "tui"; B "files"] (opftp_server_create None false true)) = B "/" ∧
  s_port (tui_config [B "tui"; B "/"; B "67657"] (opftp_server_create None false true)) = 2121.
Proof. by vm_compute. Qed.

(** ** app/main.c *)

(** [ps3] and [headless] are the build flags. *)
Definition app_config (ps3 headless : bool) (s : opftp_server) : opftp_server :=
  let s := opftp_server_set_workers 2 (opftp_server_set_root (B "/") (opftp_server_set_port 2121 s)) in
  let s := if headless then opftp_server_set_v4only true s else s in
  if ps3 then s else opftp_server_set_allow_stop true s.

(** Only the build with a screen returns; the others sleep for ever. *)
Definition app_main (ps3 headless create : bool) (rc : Z) : option Z * list (api * bool) :=
  let t := [(A_log_open, true); (A_create, create)] in
  if negb create then (Some 1, t ++ [(A_say (B "OpenPS3FTP: create failed"), true); (A_say (B "create failed"), true)])
  else if negb (rc =? 0) then (Some 1, t ++ [(A_start, false); (A_say (START_FAILED rc), true)])
  else
    let t := t ++ [(A_start, true); (A_say (B "OpenPS3FTP: listening on port 2121"), true); (A_say (B "listening on port 2121"), true)] in
    if ps3 && negb headless then (Some 0, t ++ [(A_screen, true); (A_stop, true); (A_destroy, true); (A_log_close, true)])
    else (None, t).

Theorem app_main_balanced ps3 headless create rc :
  match app_main ps3 headless create rc with
  | (Some 0, t) => used t held0 = Some held0
  | (None, t) => used t held0 = Some (mk_held true true false)
  | (_, t) => used t held0 = Some (mk_held create false false)
  end.
Proof. unfold app_main. by destruct ps3, headless, create, (rc =? 0). Qed.

(** ** app/log.c *)

(** [g_log]: the file when it is open, as the lines in it. *)
Definition app_log := option (list bytes).

(** [fopen] for appending gives the lines that are there. *)
Definition opftp_app_log_open (file : option (list bytes)) (g : app_log) : app_log :=
  match g with Some _ => g | None => file end.

(** [msg] is the formatted message, [h], [m] and [s] the time of day. *)
Definition opftp_app_log (level : Z) (msg : bytes) (h m s : Z) (g : app_log) : app_log :=
  match g with
  | None => None
  | Some lines =>
     Some (lines ++ [fmt_0d 2 h ++ B ":" ++ fmt_0d 2 m ++ B ":" ++ fmt_0d 2 s ++ B " [" ++ fmt_d level ++ B "] " ++ bprintf 512 msg])
  end.

Definition opftp_app_log_close (g : app_log) : app_log := None.

End Apps.
